(* ===== verification/_CoqProject ===== *)
-Q . S2P
Prelude.v
KernelLib.v
Device.v
BlockDev.v
BlockCache.v
BlockCacheProofs.v
Ext2Base.v
Ext2Alloc.v
Ext2Inode.v
Ext2File.v
Ext2Write.v
Ext2Mount.v
Ext2Dir.v
Ext2DirProofs.v
Ext2Create.v
Vfs.v
VfsProofs.v
Ext2Vfs.v
Ext2Image.v
Ext2Readdir.v
Mm.v
Security.v
Scheduler.v
Ipc.v
Ring.v
Tty.v
Uart.v
Pl011.v
Console.v
Ext2Demo.v
Ext2Init.v
Gdbstub.v
Debugger.v
Virtio.v
Pci.v
Devicetree.v
Arch.v
Boot.v
Libc.v
LibcIo.v
Apps.v
Perf.v
Subsystems.v
Mkfs.v
ShLex.v
ShParse.v
ShParseProofs.v
ShExpand.v
ShExpandProofs.v
ShExec.v
ShExecProofs.v
ShLine.v
ShLineProofs.v
