(* ===== verification/Prelude.v ===== *)
(** * A verification library for the C and C++ sources of the Devine kernel

    The program is a small kernel with an ext2 file system, drivers, a C library for user programs, a shell and a few
    tools.  This library translates it into Rocq definitions, file by file, and proves what makes the parts correct.  Paths
    are relative to the root of the sources.

    ** Conventions

    - An integer of [w] bits is a [Z]; the wrap-around of an operation is written out with [u8] to [u64] and [i32].
    - A pointer is [option]: [None] is [NULL].  What it points to is a list of bytes for buffers and packed structures, an index
      into an arena for linked structures, an address where the code itself works with addresses ([Mm], [Ipc], [Libc]).
    - Undefined behaviour, an access outside an object or through [NULL], is a value: [None] of the result, or [Undef] of
      the type [outcome].  A theorem that an operation returns [Some] or [Ret] therefore says that it is safe.
    - An error code is a value too: [inl] in the monad [M] of the ext2 files, a number elsewhere.
    - A loop that is not structural has fuel.  In [outcome] running out of it is [More], apart from undefined behaviour; where
      running out is [None], a theorem shows that the fuel chosen at the call is enough.  [Ext2File]: a turn moves at least one
      byte, the fuel is the size; [Ext2Dir]: a record of length 0 ends the walk, the fuel is the block size; [Ext2Mount]: one
      turn per group; [ShParse]: linear in the number of tokens ([parse_list_total]); [Devicetree]: linear in the blob ([dt_init_ends]);
      [Console]: 32 digits, enough for 64 bits; walks along lists and polling loops have any fuel that suffices.
    - C functions that call each other, in the parser and the executor of the shell, are definitions over the functions they
      call, [<function>_step]; a mutual [Fixpoint] with the names of the source hands them on with less fuel.
    - The kernel heap is its position, handed from call to call; [free] does nothing, as in the source.
    - What is not in the sources is an argument with named laws: a chip or a bridge ([Uart.Ports], [Pl011.Mmio], [Pci.PciHost],
      [Gic.GicChip]), the clock, the contents of uninitialised arrays, the answers of system calls.  For each such law there is
      an instance that satisfies it.
    - Interfaces between the parts are classes: [BlockDriver] (a driver, for the cache), [BlockStore] and [BlockStoreLaws] (the
      cache, for ext2), [Printf] (formatted output, for the line editor; its instance is the [printf] of the library).

    ** The files, the sources they model and what is shown

    Basics.
    - [Prelude]: integers, lists, byte objects with loads and stores, [outcome], tactics and hints.
    - [KernelLib]: [src/lib_core/utils.c].  Strings and memory against lists; allocations are disjoint, and the heap runs out.
    - [Device]: [src/drivers/device.c].  Registering, finding, removing.
    - [Console]: [src/lib_core/console.c].  Numbers are printed in full; every sequence of calls stays on the screen.

    Storage.
    - [BlockDev]: [src/drivers/block/ramdisk.c], [src/fs/block_device_wrapper.c].  The RAM disk is a [BlockDriver]; the
      adapter reads its table of operations at the wrong places.
    - [BlockCache], [BlockCacheProofs]: [src/fs/block_cache.c].  The cache over any driver refines an array of blocks.
    - [Ext2Base], [Ext2Alloc], [Ext2Inode], [Ext2File], [Ext2Mount], [Ext2Dir]: [src/include/ext2.h] and [src/fs/ext2], each
      file with the lemmas on its own operations.  Allocation gives distinct blocks; inodes and the block map with its
      indirect blocks read back what was written; reading gives the contents of the file; a synced file system mounts.
    - [Ext2Write], [Ext2DirProofs], [Ext2Create], [Ext2Readdir]: the compositions.  Writing and reading back; lookup,
      creation and enumeration in directories of any number of blocks.
    - [Vfs], [VfsProofs], [Ext2Vfs]: [src/vfs/vfs.c], [src/fs/ext2/vfs_integration.c].  Path lookup, the node tree, descriptors, and
      reading an ext2 file through a descriptor.
    - [Ext2Image]: a small file system on which the hypotheses of these theorems hold.
    - [Mkfs]: [examples/fs/mkfs_ext2.c].  The image it writes is mounted by the kernel.
    - [Ext2Demo], [Ext2Init]: [src/fs/ext2_demo.c], [src/fs/ext2_init.c], [tests/test_ext2.c].  The listing prints the directory; a
      RAM disk is never mounted; the tests are undefined.

    The rest of the kernel.
    - [Mm]: [src/mm/mm.c].  A mapped page translates to its frame, addresses with another page number as before.
    - [Security]: [src/security/security.c].  The life of a capability.
    - [Scheduler]: [src/cpu/scheduler.c].  The ready queue and the choice of a task; the switch, move by move,
      gives back the registers of a task that was saved, and is undefined for a new one.
    - [Ipc]: [src/ipc/ipc.c].  A message that was sent is received.
    - [Ring], [Tty]: [src/drivers/tty/tty_core.c], [string_utils.c], [src/include/tty.h].  The queues of a terminal keep bytes in order.
    - [Uart], [Pl011]: [src/drivers/tty/uart16550.c], [src/drivers/tty/pl011.c].  Bytes are sent and received in order.
    - [Gdbstub], [Debugger]: [src/kernel/gdbstub.c], [src/kernel/debugger.c].  On x86-64 no input leads outside the buffers,
      and a request is answered with a well formed packet; a breakpoint is never left; a command line runs its command.
    - [Virtio], [Pci], [Devicetree]: [src/drivers/block/virtio_blk.c], [src/drivers/net/virtio_net.c], [src/drivers/pci.c],
      [src/drivers/devicetree.c].  The walk finds exactly the functions on the bus, the parser exactly the devices
      of a tree of one level.
    - [Arch]: [src/arch/x86_64/gdt.c], [idt.c], [src/arch/arm64/gic.c], [src/cpu/interrupts.c].  Descriptors decode to what
      they were made from; enabling an interrupt touches no other.
    - [Boot]: [src/boot/kmain.c].  [kmain] composed of the parts; it stops in the initialisation of the serial port.
    - [Subsystems]: [src/kernel/Kernel.cpp], [Registry.cpp], [Log.cpp], [src/main.cpp], [include/kernel].
    - [Perf]: [crates/devine-perf-cpp].  Counters count; a changed byte changes the hash.

    User programs.
    - [Libc], [LibcIo]: [userspace/libc/src/libc.c], [stdio.h], [term.h].  Memory moves, searches, numbers, environment, heap;
      formatted output and its bound of 255 characters.
    - [Apps]: [userspace/apps/src/ls.c], [echo.c], [pwd.c], [cat.c], [init.c], [stress.c].
    - [ShLex], [ShParse], [ShParseProofs], [ShExpand], [ShExpandProofs], [ShExec], [ShExecProofs]: lines 529 to 3043 of
      [userspace/apps/src/shell.c], a shell with pipelines, functions and expansion.  Programs are trees of system calls.  The
      parser ends and reads back what is printed; tables are finite maps; expansion is substitution; a pipeline closes every
      descriptor and waits for every child it made.
    - [ShLine], [ShLineProofs]: the rest of that file, the interactive shell around it.  The line editor recalls
      lines of the history, and with the [printf] of the library hangs when a character is typed; prompts stay in their buffers.

    ** Not modelled

    - Assembly: start-up code, interrupt entry, the system call instruction.  It is outside the C semantics used here.  Only the
      moves of the task switch are modelled ([Scheduler]), with the register that addresses the task as an argument.
    - Functions without behaviour: [pic_init] of [src/arch/x86_64/apic.c], the empty functions at the end of [gdt.c], the constant stubs of
      the C library for directories, times and signals, messages of the drivers, prototypes in headers.
    - [pic_init] of [src/cpu/interrupts.c], which writes members its structure does not have.
    - The processor beyond its registers: interrupts do not arrive in the middle of an operation, caches and other cores
      are not present.  The sources take no locks in the modelled operations.
    - The crates in Rust, a second implementation that shares no code with these sources. *)
From Stdlib Require Export ZArith Lia ZifyBool.
From Stdlib Require Ascii String.
From stdpp Require Export base list gmap numbers.

#[export] Set Default Goal Selector "!".
Open Scope Z_scope.

Create HintDb kernel.
Create Rewrite HintDb kernel.

(** A string literal of the source, without its NUL. *)
Definition str (s : String.string) : list Z := (fun a => Z.of_N (Ascii.N_of_ascii a)) <$> String.list_ascii_of_string s.

(** ** Machine integers

    A [w]-bit C integer is a [Z]; the wrap-around of an arithmetic operation
    is the explicit conversion below. *)
Definition u8 (z : Z) : Z := z mod 256.
Definition u16 (z : Z) : Z := z mod 65536.
Definition u32 (z : Z) : Z := z mod 4294967296.
Definition u64 (z : Z) : Z := z mod 18446744073709551616.

Definition i32 (z : Z) : Z :=
  let m := z mod 4294967296 in if m <? 2147483648 then m else m - 4294967296.

Definition is_u8 (z : Z) : Prop := 0 <= z < 256.
Definition is_u16 (z : Z) : Prop := 0 <= z < 65536.
Definition is_u32 (z : Z) : Prop := 0 <= z < 4294967296.
Definition is_u64 (z : Z) : Prop := 0 <= z < 18446744073709551616.

#[export] Hint Unfold is_u8 is_u16 is_u32 is_u64 : kernel.

(** [lia] after replacing divisions and remainders by their equations. *)
Ltac dlia := Z.to_euclidean_division_equations; lia.

Ltac unfold_ints := unfold u8, u16, u32, u64, i32, is_u8, is_u16, is_u32, is_u64 in *.

Lemma u8_range z : is_u8 (u8 z).
Proof. unfold_ints. dlia. Qed.
Lemma u16_range z : is_u16 (u16 z).
Proof. unfold_ints. dlia. Qed.
Lemma u32_range z : is_u32 (u32 z).
Proof. unfold_ints. dlia. Qed.
Lemma u64_range z : is_u64 (u64 z).
Proof. unfold_ints. dlia. Qed.

Lemma u8_id z : is_u8 z -> u8 z = z.
Proof. unfold_ints. dlia. Qed.
Lemma u16_id z : is_u16 z -> u16 z = z.
Proof. unfold_ints. dlia. Qed.
Lemma u32_id z : is_u32 z -> u32 z = z.
Proof. unfold_ints. dlia. Qed.
Lemma u64_id z : is_u64 z -> u64 z = z.
Proof. unfold_ints. dlia. Qed.
Lemma i32_id z : -2147483648 <= z < 2147483648 -> i32 z = z.
Proof. unfold_ints. intros. case_match; dlia. Qed.

(** ** Lists indexed by [Z]

    Memory objects (arrays, buffers) are lists; an access outside the object
    is undefined behaviour in C and gives [None] here, so that a theorem that
    an operation returns [Some] also says that it stays inside its objects. *)
Abbreviation bytes := (list Z).

Definition bytes_ok (l : bytes) : Prop := Forall is_u8 l.

Definition lenZ {A} (l : list A) : Z := Z.of_nat (length l).

Definition getZ {A} (l : list A) (i : Z) : option A :=
  if i <? 0 then None else l !! Z.to_nat i.

Definition setZ {A} (l : list A) (i : Z) (x : A) : option (list A) :=
  if (0 <=? i) && (i <? lenZ l) then Some (<[Z.to_nat i := x]> l) else None.

(** [slice l off n]: the [n] elements of [l] from [off]. *)
Definition slice {A} (l : list A) (off n : Z) : option (list A) :=
  if (0 <=? off) && (0 <=? n) && (off + n <=? lenZ l)
  then Some (take (Z.to_nat n) (drop (Z.to_nat off) l)) else None.

(** [splice l off src]: [l] with [src] written over it from [off]. *)
Definition splice {A} (l : list A) (off : Z) (src : list A) : option (list A) :=
  if (0 <=? off) && (off + lenZ src <=? lenZ l)
  then Some (take (Z.to_nat off) l ++ src ++ drop (Z.to_nat off + length src) l)
  else None.

Lemma getZ_Some {A} (l : list A) i x :
  getZ l i = Some x <-> 0 <= i /\ l !! Z.to_nat i = Some x.
Proof. unfold getZ. case_match; split; intros; [done|lia|split; [lia|done]|tauto]. Qed.

Lemma getZ_nat {A} (l : list A) (i : nat) : getZ l (Z.of_nat i) = l !! i.
Proof. unfold getZ. case_match; [lia|]. by rewrite Nat2Z.id. Qed.

Lemma getZ_is_Some {A} (l : list A) i : 0 <= i < lenZ l -> is_Some (getZ l i).
Proof.
  unfold getZ, lenZ. intros. case_match; [lia|]. apply lookup_lt_is_Some_2. lia.
Qed.

Lemma getZ_lt {A} (l : list A) i x : getZ l i = Some x -> 0 <= i < lenZ l.
Proof. intros [? H%lookup_lt_Some]%getZ_Some. unfold lenZ. lia. Qed.

Lemma setZ_Some {A} (l : list A) i x :
  0 <= i < lenZ l -> setZ l i x = Some (<[Z.to_nat i := x]> l).
Proof. unfold setZ. intros. case_match; [done|lia]. Qed.

Lemma setZ_inv {A} (l : list A) i x l' :
  setZ l i x = Some l' -> 0 <= i < lenZ l /\ l' = <[Z.to_nat i := x]> l.
Proof. unfold setZ. case_match; intros; simplify_eq. split; [lia|done]. Qed.

Lemma lenZ_insert {A} (l : list A) i x : lenZ (<[i := x]> l) = lenZ l.
Proof. unfold lenZ. by rewrite length_insert. Qed.

Lemma lenZ_app {A} (l k : list A) : lenZ (l ++ k) = lenZ l + lenZ k.
Proof. unfold lenZ. rewrite length_app. lia. Qed.

Lemma lenZ_nonneg {A} (l : list A) : 0 <= lenZ l.
Proof. unfold lenZ. lia. Qed.

Lemma lenZ_replicate {A} n (x : A) : lenZ (replicate n x) = Z.of_nat n.
Proof. unfold lenZ. by rewrite length_replicate. Qed.

#[export] Hint Rewrite @lenZ_insert @lenZ_app @lenZ_replicate : kernel.

Lemma slice_Some {A} (l : list A) off n :
  0 <= off -> 0 <= n -> off + n <= lenZ l ->
  slice l off n = Some (take (Z.to_nat n) (drop (Z.to_nat off) l)).
Proof. unfold slice. intros. case_match; [done|lia]. Qed.

Lemma slice_inv {A} (l : list A) off n r :
  slice l off n = Some r ->
  0 <= off /\ 0 <= n /\ off + n <= lenZ l /\
  r = take (Z.to_nat n) (drop (Z.to_nat off) l).
Proof. unfold slice. case_match; intros; simplify_eq. repeat split; lia. Qed.

Lemma slice_length {A} (l : list A) off n r :
  slice l off n = Some r -> lenZ r = n.
Proof.
  intros (? & ? & ? & ->)%slice_inv. unfold lenZ in *.
  rewrite length_take, length_drop. lia.
Qed.

Lemma slice_full {A} (l : list A) n : n = lenZ l -> slice l 0 n = Some l.
Proof.
  intros ->. pose proof (lenZ_nonneg l). rewrite slice_Some by lia.
  unfold lenZ. by rewrite Nat2Z.id, drop_0, firstn_all.
Qed.

Lemma splice_Some {A} (l : list A) off src :
  0 <= off -> off + lenZ src <= lenZ l ->
  splice l off src =
    Some (take (Z.to_nat off) l ++ src ++ drop (Z.to_nat off + length src) l).
Proof. unfold splice. intros. case_match; [done|lia]. Qed.

Lemma splice_inv {A} (l : list A) off src l' :
  splice l off src = Some l' ->
  0 <= off /\ off + lenZ src <= lenZ l /\
  l' = take (Z.to_nat off) l ++ src ++ drop (Z.to_nat off + length src) l.
Proof. unfold splice. case_match; intros; simplify_eq. repeat split; lia. Qed.

Lemma splice_length {A} (l : list A) off src l' :
  splice l off src = Some l' -> lenZ l' = lenZ l.
Proof.
  intros (? & ? & ->)%splice_inv. unfold lenZ in *.
  rewrite !length_app, length_take, length_drop. lia.
Qed.

Lemma splice_full {A} (l src : list A) :
  lenZ src = lenZ l -> splice l 0 src = Some src.
Proof.
  intros E. rewrite splice_Some by lia. simpl.
  unfold lenZ in E. rewrite drop_ge by lia. by rewrite app_nil_r.
Qed.

(** Element [i] of a spliced list: from [src] inside the window, else old. *)
Lemma splice_lookup {A} (l : list A) off src l' (i : nat) :
  splice l off src = Some l' ->
  l' !! i = if (Z.to_nat off <=? i)%nat && (i <? Z.to_nat off + length src)%nat
            then src !! (i - Z.to_nat off)%nat else l !! i.
Proof.
  intros (? & Hle & ->)%splice_inv. unfold lenZ in *.
  destruct (decide (i < Z.to_nat off)%nat) as [Hlt|Hge].
  - rewrite lookup_app_l by (rewrite length_take; lia).
    rewrite lookup_take_lt by lia. case_match; [lia|done].
  - rewrite lookup_app_r by (rewrite length_take; lia). rewrite length_take.
    replace (Z.to_nat off `min` length l)%nat with (Z.to_nat off) by lia.
    destruct (decide (i < Z.to_nat off + length src)%nat).
    + rewrite lookup_app_l by lia. case_match; [done|lia].
    + rewrite lookup_app_r by lia. rewrite lookup_drop.
      case_match; [lia|]. f_equal. lia.
Qed.

Lemma slice_app {A} (l : list A) off n m a b :
  0 <= n -> 0 <= m -> slice l off n = Some a -> slice l (off + n) m = Some b -> slice l off (n + m) = Some (a ++ b).
Proof.
  intros Hn Hm (Ho & _ & Hl & ->)%slice_inv (_ & _ & Hl' & ->)%slice_inv. rewrite slice_Some by lia. f_equal.
  replace (Z.to_nat (n + m)) with (Z.to_nat n + Z.to_nat m)%nat by lia.
  rewrite <- take_take_drop, drop_drop. do 3 f_equal. lia.
Qed.

Lemma slice_splice_same {A} (l : list A) off src l' :
  splice l off src = Some l' -> slice l' off (lenZ src) = Some src.
Proof.
  intros H. pose proof (splice_length _ _ _ _ H) as Hlen.
  apply splice_inv in H as (? & ? & ->). unfold lenZ in *.
  rewrite slice_Some by (unfold lenZ; lia). f_equal. rewrite Nat2Z.id.
  rewrite drop_app_length' by (rewrite length_take; lia).
  by rewrite take_app_length.
Qed.

Lemma slice_splice_disjoint {A} (l : list A) off src l' off' n :
  splice l off src = Some l' ->
  off' + n <= off \/ off + lenZ src <= off' ->
  slice l' off' n = slice l off' n.
Proof.
  intros H Hd. pose proof (splice_length _ _ _ _ H) as Hlen.
  pose proof (splice_inv _ _ _ _ H) as (? & ? & _).
  unfold slice. rewrite Hlen. case_match; [|done]. f_equal.
  apply list_eq. intros i. rewrite !lookup_take.
  case_decide; [|done]. rewrite !lookup_drop.
  rewrite (splice_lookup _ _ _ _ _ H). unfold lenZ in *. case_match; [lia|done].
Qed.

(** Objects that agree on a window give the same slice of it. *)
(** A window over a list, written inside the window. *)
Lemma slice_splice_inside {A} (l : list A) a n r o src l' :
  slice l a n = Some r -> 0 <= o -> o + lenZ src <= n -> splice l (a + o) src = Some l' ->
  slice l' a n = splice r o src.
Proof.
  intros Hr Ho Hn Hs. pose proof (slice_length _ _ _ _ Hr) as Hlr. pose proof (splice_length _ _ _ _ Hs) as Hl'.
  apply slice_inv in Hr as (Ha & Hn0 & Hl & ->). rewrite slice_Some by lia.
  destruct (splice _ o src) as [r'|] eqn:E; [|rewrite splice_Some in E by lia; done]. f_equal. apply list_eq. intros i.
  rewrite (splice_lookup _ _ _ _ _ E), !lookup_take, !lookup_drop, (splice_lookup _ _ _ _ _ Hs).
  unfold lenZ in *. destruct (decide (i < Z.to_nat n)%nat) as [Hi|Hi]; repeat case_match; try done; try lia.
  all: try (f_equal; lia).
Qed.

Lemma slice_agree {A} (l l' : list A) off n :
  lenZ l' = lenZ l ->
  (forall i : nat, off <= Z.of_nat i < off + n -> l' !! i = l !! i) -> slice l' off n = slice l off n.
Proof.
  intros Hl Hag. unfold slice. rewrite Hl. case_match; [|done]. f_equal. apply list_eq. intros i.
  rewrite !lookup_take, !lookup_drop. case_decide; [|done]. apply Hag. lia.
Qed.

Lemma splice_outside {A} (l : list A) off src l' (i : nat) :
  splice l off src = Some l' -> Z.of_nat i < off \/ off + lenZ src <= Z.of_nat i -> l' !! i = l !! i.
Proof.
  intros H Hi. rewrite (splice_lookup _ _ _ _ _ H). apply splice_inv in H as (? & ? & _).
  unfold lenZ in *. case_match; [lia|done].
Qed.

Lemma splice_splice {A} (l : list A) off a b l' :
  splice l off a = Some l' -> lenZ a = lenZ b -> splice l' off b = splice l off b.
Proof.
  intros H E. pose proof (splice_inv _ _ _ _ H) as (? & ? & _).
  pose proof (splice_length _ _ _ _ H) as Hl.
  destruct (splice l off b) as [l1|] eqn:Hl1; [|rewrite splice_Some in Hl1 by lia; done].
  destruct (splice l' off b) as [l2|] eqn:Hl2; [|rewrite splice_Some in Hl2 by lia; done].
  f_equal. apply list_eq. intros i.
  rewrite (splice_lookup _ _ _ _ _ Hl1), (splice_lookup _ _ _ _ _ Hl2), (splice_lookup _ _ _ _ _ H).
  unfold lenZ in E. replace (length a) with (length b) by lia. by case_match.
Qed.

Lemma splice_nil {A} (l : list A) off : 0 <= off <= lenZ l -> splice l off [] = Some l.
Proof.
  intros H. rewrite splice_Some by (unfold lenZ in *; cbn; lia). cbn [length app].
  by rewrite Nat.add_0_r, take_drop.
Qed.

Lemma splice_app {A} (l : list A) off a b l' :
  splice l off a = Some l' -> off + lenZ a + lenZ b <= lenZ l ->
  splice l' (off + lenZ a) b = splice l off (a ++ b).
Proof.
  intros H Hle. pose proof (splice_inv _ _ _ _ H) as (? & ? & _).
  pose proof (splice_length _ _ _ _ H) as Hl. pose proof (lenZ_nonneg a). pose proof (lenZ_nonneg b).
  destruct (splice l off (a ++ b)) as [l1|] eqn:Hl1; [|rewrite splice_Some in Hl1 by (rewrite ?lenZ_app; lia); done].
  destruct (splice l' (off + lenZ a) b) as [l2|] eqn:Hl2; [|rewrite splice_Some in Hl2 by lia; done].
  f_equal. apply list_eq. intros i.
  rewrite (splice_lookup _ _ _ _ _ Hl1), (splice_lookup _ _ _ _ _ Hl2), (splice_lookup _ _ _ _ _ H).
  rewrite length_app. unfold lenZ in *. replace (Z.to_nat (off + Z.of_nat (length a))) with (Z.to_nat off + length a)%nat by lia.
  destruct (decide (i < Z.to_nat off + length a)%nat); repeat case_match; try lia; try done.
  - by rewrite lookup_app_l by lia.
  - rewrite lookup_app_r by lia. f_equal. lia.
Qed.

Lemma splice_slice {A} (l : list A) off n r : slice l off n = Some r -> splice l off r = Some l.
Proof.
  intros H. pose proof (slice_length _ _ _ _ H) as Hn. apply slice_inv in H as (? & ? & ? & ->).
  destruct (splice l off _) as [l1|] eqn:Hl1; [|rewrite splice_Some in Hl1 by lia; done].
  f_equal. apply list_eq. intros i. rewrite (splice_lookup _ _ _ _ _ Hl1).
  case_match eqn:E; [|done]. rewrite lookup_take, lookup_drop. unfold lenZ in Hn.
  case_decide; [f_equal; lia|lia].
Qed.

(** ** Little-endian encoding of the packed on-disk integers *)
Fixpoint le_bytes (n : nat) (z : Z) : bytes :=
  match n with
  | O => []
  | S n' => z mod 256 :: le_bytes n' (z / 256)
  end.

Fixpoint le_val (l : bytes) : Z :=
  match l with
  | [] => 0
  | b :: l' => u8 b + 256 * le_val l'
  end.

Lemma length_le_bytes n z : length (le_bytes n z) = n.
Proof. revert z. induction n; intros; simpl; auto. Qed.

Lemma lenZ_le_bytes n z : lenZ (le_bytes n z) = Z.of_nat n.
Proof. unfold lenZ. by rewrite length_le_bytes. Qed.

#[export] Hint Rewrite length_le_bytes lenZ_le_bytes : kernel.

Lemma le_bytes_ok n z : bytes_ok (le_bytes n z).
Proof. revert z. induction n; intros; simpl; constructor; [red; dlia|apply IHn]. Qed.

Lemma le_val_bytes n z : 0 <= z < 256 ^ Z.of_nat n -> le_val (le_bytes n z) = z.
Proof.
  revert z. induction n as [|n IH]; intros z Hz; simpl le_val; simpl le_bytes.
  - simpl in Hz. lia.
  - cbn [le_val]. rewrite Nat2Z.inj_succ, Z.pow_succ_r in Hz by lia.
    rewrite IH by dlia. unfold u8. dlia.
Qed.

Lemma le_val_bound l : 0 <= le_val l < 256 ^ lenZ l.
Proof.
  unfold lenZ. induction l as [|b l IH]; cbn [le_val length]; [simpl; lia|].
  rewrite Nat2Z.inj_succ, Z.pow_succ_r by lia. pose proof (u8_range b) as Hb. red in Hb. lia.
Qed.

Lemma le_bytes_val l : bytes_ok l -> le_bytes (length l) (le_val l) = l.
Proof.
  induction 1 as [|b l Hb _ IH]; cbn [le_val length le_bytes]; [done|].
  rewrite u8_id by done. red in Hb. f_equal; [dlia|].
  replace ((b + 256 * le_val l) / 256) with (le_val l) by dlia. done.
Qed.

(** Scalar members of packed structures: [w] bytes at offset [off]. *)
Definition ld (buf : bytes) (off : Z) (w : nat) : option Z :=
  l ← slice buf off (Z.of_nat w); Some (le_val l).

Definition st (buf : bytes) (off : Z) (w : nat) (v : Z) : option bytes :=
  splice buf off (le_bytes w v).

Lemma ld_is_Some buf off w : 0 <= off -> off + Z.of_nat w <= lenZ buf -> is_Some (ld buf off w).
Proof. intros. unfold ld. rewrite slice_Some by lia. cbn. eauto. Qed.

Lemma ld_inv buf off w v :
  ld buf off w = Some v -> 0 <= off /\ off + Z.of_nat w <= lenZ buf /\ 0 <= v < 256 ^ Z.of_nat w.
Proof.
  unfold ld. destruct (slice _ _ _) as [l|] eqn:E; [|done]. intros [= <-].
  pose proof (slice_length _ _ _ _ E) as Hl. apply slice_inv in E as (? & ? & ? & _).
  pose proof (le_val_bound l) as Hb. rewrite Hl in Hb. lia.
Qed.

Lemma st_is_Some buf off w v : 0 <= off -> off + Z.of_nat w <= lenZ buf -> is_Some (st buf off w v).
Proof. intros. unfold st. rewrite splice_Some by (rewrite ?lenZ_le_bytes; lia). eauto. Qed.

Lemma st_length buf off w v buf' : st buf off w v = Some buf' -> lenZ buf' = lenZ buf.
Proof. apply splice_length. Qed.

Lemma ld_st_same buf off w v buf' :
  st buf off w v = Some buf' -> 0 <= v < 256 ^ Z.of_nat w -> ld buf' off w = Some v.
Proof.
  intros H Hv. unfold ld. apply slice_splice_same in H. rewrite lenZ_le_bytes in H.
  rewrite H. cbn. by rewrite le_val_bytes.
Qed.

Lemma ld_st_disjoint buf off w v buf' off' w' :
  st buf off w v = Some buf' -> off' + Z.of_nat w' <= off \/ off + Z.of_nat w <= off' ->
  ld buf' off' w' = ld buf off' w'.
Proof.
  intros H Hd. unfold ld. erewrite slice_splice_disjoint; [done|exact H|]. by rewrite lenZ_le_bytes.
Qed.

Lemma ld_agree buf buf' off w :
  lenZ buf' = lenZ buf ->
  (forall i : nat, off <= Z.of_nat i < off + Z.of_nat w -> buf' !! i = buf !! i) ->
  ld buf' off w = ld buf off w.
Proof. intros Hl Hag. unfold ld. by rewrite (slice_agree buf buf'). Qed.

Lemma st_outside buf off w v buf' (i : nat) :
  st buf off w v = Some buf' -> Z.of_nat i < off \/ off + Z.of_nat w <= Z.of_nat i -> buf' !! i = buf !! i.
Proof. intros H Hi. eapply splice_outside; [exact H|]. by rewrite lenZ_le_bytes. Qed.

(** Writing back the value a member had. *)
Lemma st_restore buf off w v v' buf' :
  bytes_ok buf -> ld buf off w = Some v -> st buf off w v' = Some buf' -> st buf' off w v = Some buf.
Proof.
  unfold ld, st. intros Hok Hv Hst. destruct (slice buf off (Z.of_nat w)) as [l|] eqn:E; [|done].
  injection Hv as <-. assert (length l = w) as Hl.
  { pose proof (slice_length _ _ _ _ E) as Hl. unfold lenZ in Hl. lia. }
  assert (le_bytes w (le_val l) = l) as ->.
  { rewrite <- Hl. apply le_bytes_val. apply slice_inv in E as (_ & _ & _ & ->).
    by apply Forall_take, Forall_drop. }
  rewrite (splice_splice _ _ _ _ _ Hst); [by eapply splice_slice|].
  rewrite lenZ_le_bytes. unfold lenZ. lia.
Qed.

(** ** Error codes of [src/include/types.h] *)
Definition ERR_SUCCESS : Z := 0.
Definition ERR_INVALID : Z := -1.
Definition ERR_NOT_FOUND : Z := -2.
Definition ERR_PERMISSION : Z := -3.
Definition ERR_NO_MEMORY : Z := -4.
Definition ERR_BUSY : Z := -5.
Definition ERR_AGAIN : Z := -6.

Ltac unfold_errs :=
  unfold ERR_SUCCESS, ERR_INVALID, ERR_NOT_FOUND, ERR_PERMISSION, ERR_NO_MEMORY,
    ERR_BUSY, ERR_AGAIN in *.

(** [#define ALIGN_UP(x, align)], at 64 bits: [~(align - 1)] is sign-extended
    to the width of [x]. *)
Definition ALIGN_UP (x align : Z) : Z :=
  Z.land (u64 (x + align - 1)) (u64 (Z.lnot (align - 1))).

(** For a power-of-two alignment, [ALIGN_UP] is the usual rounding. *)
Lemma ALIGN_UP_pow2 x k :
  0 <= k < 64 -> 0 <= x -> x + 2 ^ k <= 2 ^ 64 ->
  ALIGN_UP x (2 ^ k) = (x + 2 ^ k - 1) / 2 ^ k * 2 ^ k.
Proof.
  intros Hk Hx Hlim. assert (0 < 2 ^ k) by (apply Z.pow_pos_nonneg; lia).
  unfold ALIGN_UP. rewrite u64_id by (red; change (2 ^ 64) with 18446744073709551616 in Hlim; lia).
  set (y := x + 2 ^ k - 1).
  assert (0 <= y < 2 ^ 64) as Hy by (subst y; lia).
  assert (Z.land y (u64 (Z.lnot (2 ^ k - 1))) = Z.ldiff y (Z.ones k)) as ->.
  { apply Z.bits_inj'. intros n Hn. rewrite Z.land_spec, Z.ldiff_spec.
    destruct (decide (n < 64)) as [Hn64|Hn64].
    - f_equal. unfold u64. change 18446744073709551616 with (2 ^ 64).
      rewrite Z.mod_pow2_bits_low by lia.
      rewrite Z.lnot_spec by lia. f_equal.
      by rewrite Z.sub_1_r, <- Z.ones_equiv.
    - assert (Z.testbit y n = false) as ->; [|done].
      destruct (decide (y = 0)) as [->|]; [apply Z.bits_0|].
      apply Z.bits_above_log2; [lia|].
      apply Z.log2_lt_pow2; [lia|].
      apply Z.lt_le_trans with (2 ^ 64); [lia|]. apply Z.pow_le_mono_r; lia. }
  rewrite Z.ldiff_ones_r by lia. rewrite Z.shiftr_div_pow2, Z.shiftl_mul_pow2 by lia. done.
Qed.

(** ** Outcomes

    The result of code with unbounded loops, run with fuel: a value, undefined
    behaviour, or not ended within the fuel. *)
Inductive outcome (A : Type) := Ret (a : A) | Undef | More.
Arguments Ret {A}.
Arguments Undef {A}.
Arguments More {A}.

#[export] Instance outcome_bind : MBind outcome := fun A B f m =>
  match m with Ret a => f a | Undef => Undef | More => More end.

(** A value the code takes for granted. *)
Definition need {A} (o : option A) : outcome A := match o with Some a => Ret a | None => Undef end.
