(* ===== verification/KernelLib.v ===== *)
(** * Kernel utility functions: [src/lib_core/utils.c]

    C strings are byte lists that start at the pointer and run to the end of
    the object; reading or writing past it gives [None].  A [char*] result is
    the offset of the character, [None] for [NULL].  The heap is its single
    static [heap_pos]; the contents of a fresh block are zero, since [heap] is
    a zero-initialised static array that is never handed out twice. *)
From S2P Require Import Prelude.

Module CString.

(** ** Lengths and comparisons *)
Fixpoint strlen (s : bytes) : option Z :=
  match s with
  | [] => None
  | c :: s' => if c =? 0 then Some 0 else n ← strlen s'; Some (1 + n)
  end.

Fixpoint strcmp (s1 s2 : bytes) : option Z :=
  match s1, s2 with
  | c1 :: s1', c2 :: s2' =>
      if negb (c1 =? 0) && (c1 =? c2) then strcmp s1' s2' else Some (c1 - c2)
  | _, _ => None
  end.

Fixpoint strncmp (s1 s2 : bytes) (n : nat) {struct n} : option Z :=
  match n with
  | O => Some 0
  | S n' =>
      match s1, s2 with
      | c1 :: s1', c2 :: s2' =>
          if negb (c1 =? 0) && (c1 =? c2) then strncmp s1' s2' n' else Some (c1 - c2)
      | _, _ => None
      end
  end.

(** ** Copies *)
Fixpoint strcpy (dest src : bytes) : option bytes :=
  match dest, src with
  | _ :: dest', c :: src' =>
      if c =? 0 then Some (c :: dest') else d ← strcpy dest' src'; Some (c :: d)
  | _, _ => None
  end.

(** The padding loop [while (n--) *dest++ = '\0']. *)
Fixpoint strncpy_pad (dest : bytes) (n : nat) {struct n} : option bytes :=
  match n, dest with
  | O, _ => Some dest
  | S n', _ :: dest' => d ← strncpy_pad dest' n'; Some (0 :: d)
  | S _, [] => None
  end.

(** The copy loop leaves [n] as it is when it stores the terminating NUL, so
    the padding loop then writes [n] further bytes. *)
Fixpoint strncpy (dest src : bytes) (n : nat) {struct n} : option bytes :=
  match n with
  | O => Some dest
  | S n' =>
      match dest, src with
      | _ :: dest', c :: src' =>
          d ← (if c =? 0 then strncpy_pad dest' n else strncpy dest' src' n');
          Some (c :: d)
      | _, _ => None
      end
  end.

(** ** Searches *)
Fixpoint strchr (s : bytes) (c : Z) : option (option Z) :=
  match s with
  | [] => None
  | x :: s' =>
      if x =? 0 then Some None
      else if x =? u8 c then Some (Some 0)
      else r ← strchr s' c; Some (option_map Z.succ r)
  end.

Fixpoint strrchr (s : bytes) (c : Z) : option (option Z) :=
  match s with
  | [] => None
  | x :: s' =>
      if x =? 0 then Some None
      else r ← strrchr s' c;
           Some (match r with
                 | Some i => Some (Z.succ i)
                 | None => if x =? u8 c then Some 0 else None
                 end)
  end.

(** ** [strtok]

    [skip_while p s] counts the characters of [s] before the NUL, or before
    the first that fails [p]: the two inner loops of [strtok]. *)
Definition in_set (delim : bytes) (c : Z) : option bool :=
  r ← strchr delim c; Some (bool_decide (is_Some r)).

Fixpoint skip_while (p : Z -> option bool) (s : bytes) : option nat :=
  match s with
  | [] => None
  | c :: s' =>
      if c =? 0 then Some O
      else b ← p c; if b : bool then n ← skip_while p s'; Some (S n) else Some O
  end.

(** One call, on the buffer [buf] that the static [next] points into:
    [(buf', next', token)].  [str] is the first argument. *)
Definition strtok (buf : bytes) (next str : option nat) (delim : bytes)
  : option (bytes * option nat * option nat) :=
  match (match str with Some p => Some p | None => next end) with
  | None => Some (buf, None, None)
  | Some p =>
      k ← skip_while (in_set delim) (drop p buf);
      let p := (p + k)%nat in
      c ← buf !! p;
      if c =? 0 then Some (buf, Some p, None)
      else
        k ← skip_while (fun x => b ← in_set delim x; Some (negb b)) (drop p buf);
        let q := (p + k)%nat in
        c ← buf !! q;
        if c =? 0 then Some (buf, Some q, Some p)
        else Some (<[q := 0]> buf, Some (S q), Some p)
  end.

(** ** Specifications on NUL-terminated strings *)
Definition nul_free (s : bytes) : Prop := Forall (fun c => c <> 0) s.

Lemma nul_free_lit s : forallb (fun c => negb (c =? 0)) (str s) = true -> nul_free (str s).
Proof.
  unfold nul_free. induction (str s) as [|c l IH]; cbn; [by constructor|]. intros [Hc Hl]%andb_prop. constructor; [lia|auto].
Qed.

Lemma strlen_spec s rest : nul_free s -> strlen (s ++ 0 :: rest) = Some (lenZ s).
Proof.
  induction 1 as [|c s Hc _ IH]; simpl; [done|].
  case_match; [lia|]. rewrite IH. unfold lenZ. simpl. f_equal. lia.
Qed.

Lemma strcmp_spec s : forall t rest rest',
  nul_free s -> nul_free t ->
  exists z, strcmp (s ++ 0 :: rest) (t ++ 0 :: rest') = Some z /\ (z = 0 <-> s = t).
Proof.
  induction s as [|c s IH]; intros [|d t] rest rest' Hs Ht;
    inversion Hs; inversion Ht; subst; simpl.
  - exists 0. done.
  - eexists; split; [done|]. split; [lia|done].
  - case_match; [lia|]. eexists; split; [done|]. split; [lia|done].
  - case_match.
    + destruct (IH t rest rest') as (z & -> & Hz); [done..|]. exists z. split; [done|].
      rewrite Hz. split; intros; simplify_eq; f_equal; lia.
    + eexists; split; [done|]. split; [lia|]. intros; simplify_eq. lia.
Qed.

(** [strncmp] over the whole of a NUL-free [t] compares it with the first
    [length t] bytes at [s1]. *)
Lemma strncmp_full t : forall s1 rest,
  nul_free t -> (length t <= length s1)%nat ->
  exists z, strncmp s1 (t ++ rest) (length t) = Some z /\ (z = 0 <-> take (length t) s1 = t).
Proof.
  induction t as [|c t IH]; intros s1 rest Ht Hlen; inversion Ht; subst; simpl.
  { exists 0. done. }
  destruct s1 as [|x s1]; [simpl in Hlen; lia|]. simpl. case_match.
  - destruct (IH s1 rest) as (z & -> & Hz); [done|simpl in Hlen; lia|].
    exists z. split; [done|]. rewrite Hz. split; intros; simplify_eq; f_equal; [lia|done|congruence].
  - eexists; split; [done|]. split; [lia|]. intros; simplify_eq. lia.
Qed.

Lemma strncpy_pad_spec n : forall dest,
  strncpy_pad dest n =
    if (n <=? length dest)%nat then Some (replicate n 0 ++ drop n dest) else None.
Proof.
  induction n as [|n IH]; intros [|x dest]; simpl; try done. rewrite IH. by case_match.
Qed.

Lemma strncpy_spec s : forall dest rest n,
  nul_free s ->
  strncpy dest (s ++ 0 :: rest) n =
    if (n <=? length s)%nat
    then if (n <=? length dest)%nat then Some (take n s ++ drop n dest) else None
    else if (n + 1 <=? length dest)%nat
         then Some (s ++ replicate (n + 1 - length s) 0 ++ drop (n + 1) dest) else None.
Proof.
  induction s as [|c s IH]; intros dest rest n Hs.
  - destruct n as [|n]; [done|]. destruct dest as [|x dest]; [done|].
    cbn [strncpy app]. change (0 =? 0) with true. cbn [mbind option_bind].
    rewrite strncpy_pad_spec. replace (S n + 1)%nat with (S (S n)) by lia.
    cbn [length Nat.leb Nat.sub]. by case_match.
  - inversion Hs; subst. destruct n as [|n]; [done|]. destruct dest as [|x dest].
    { cbn. by repeat case_match. }
    cbn. case_match; [lia|]. rewrite IH by done. by repeat case_match.
Qed.

(** [strncpy] of a string at least [n] long writes exactly its first [n]
    characters, and no NUL; of a shorter one it writes [n + 1] bytes, the string
    and NULs up to and including index [n]: one more than the bound. *)
Theorem strncpy_correct s : forall dest rest n,
  nul_free s ->
  strncpy dest (s ++ 0 :: rest) n =
    if (n <=? length s)%nat
    then if (n <=? length dest)%nat then Some (take n s ++ drop n dest) else None
    else if (n + 1 <=? length dest)%nat
         then Some (s ++ replicate (n + 1 - length s) 0 ++ drop (n + 1) dest) else None.
Proof. apply strncpy_spec. Qed.

Lemma strncpy_correct_witness : strncpy [9; 9; 9; 9] ([65] ++ 0 :: []) 2 = Some [65; 0; 0; 9].
Proof. rewrite (strncpy_correct [65]); [done|]. by repeat constructor. Defined.

End CString.

Module Memory.

(** ** [memset] and [memcpy] *)
Definition memset (ptr : bytes) (off value num : Z) : option bytes :=
  splice ptr off (replicate (Z.to_nat num) (u8 value)).

Definition memcpy (dest : bytes) (doff : Z) (src : bytes) (soff n : Z) : option bytes :=
  s ← slice src soff n; splice dest doff s.

(** Copying a whole buffer over one of the same length. *)
Lemma memcpy_full (dst src : bytes) n :
  lenZ dst = n -> lenZ src = n -> memcpy dst 0 src 0 n = Some src.
Proof.
  intros Hd Hs. unfold memcpy. rewrite slice_full by done. cbn. apply splice_full. congruence.
Qed.

(** The byte loop [while (n--) *d++ = *s++] of [memcpy]. *)
Fixpoint memcpy_loop (n : nat) (dest : bytes) (d : Z) (src : bytes) (s : Z)
  : option bytes :=
  match n with
  | O => Some dest
  | S n' =>
      x ← getZ src s;
      dest' ← setZ dest d x;
      memcpy_loop n' dest' (d + 1) src (s + 1)
  end.

(** ** The bump allocator *)
Definition HEAP_SIZE : Z := 1024 * 1024.

Definition malloc (heap_pos size : Z) : option Z * Z :=
  if HEAP_SIZE <? u64 (heap_pos + size) then (None, heap_pos)
  else (Some heap_pos, ALIGN_UP (u64 (heap_pos + size)) 16).

Definition free (heap_pos : Z) (ptr : option Z) : Z := heap_pos.

(** A run of allocations; the result of each is recorded with its size. *)
Fixpoint malloc_seq (heap_pos : Z) (sizes : list Z) : list (option Z * Z) * Z :=
  match sizes with
  | [] => ([], heap_pos)
  | sz :: sizes' =>
      let '(p, heap_pos) := malloc heap_pos sz in
      let '(ps, heap_pos) := malloc_seq heap_pos sizes' in
      ((p, sz) :: ps, heap_pos)
  end.

(** ** The copy loop is a block copy *)
Lemma memcpy_out_of_range dest d src s n :
  0 <= d -> 0 <= s -> 0 <= n -> lenZ src < s + n \/ lenZ dest < d + n ->
  memcpy dest d src s n = None.
Proof.
  intros. unfold memcpy. destruct (slice src s n) as [t|] eqn:Ht; [|done]. cbn.
  pose proof (slice_length _ _ _ _ Ht). apply slice_inv in Ht.
  unfold splice. case_match; [lia|done].
Qed.

Lemma memcpy_loop_out_of_range n : forall dest d src s,
  0 <= d -> 0 <= s -> lenZ src < s + Z.of_nat n \/ lenZ dest < d + Z.of_nat n ->
  d <= lenZ dest -> s <= lenZ src -> memcpy_loop n dest d src s = None.
Proof.
  induction n as [|n IH]; intros dest d src s Hd Hs Hout Hd' Hs'; [lia|].
  cbn [memcpy_loop]. destruct (getZ src s) as [x|] eqn:Hx; [|done]. cbn.
  apply getZ_lt in Hx. unfold setZ. case_match; [|done]. cbn.
  apply IH; rewrite ?lenZ_insert; lia.
Qed.

Lemma memcpy_loop_in_range n : forall dest d src s,
  0 <= d -> 0 <= s -> s + Z.of_nat n <= lenZ src -> d + Z.of_nat n <= lenZ dest ->
  memcpy_loop n dest d src s = memcpy dest d src s (Z.of_nat n).
Proof.
  unfold memcpy. induction n as [|n IH]; intros dest d src s Hd Hs Hs' Hd'.
  { rewrite slice_Some by lia. cbn.
    rewrite splice_Some by (unfold lenZ in *; simpl; lia). simpl.
    by rewrite Nat.add_0_r, take_drop. }
  cbn [memcpy_loop].
  destruct (getZ_is_Some src s ltac:(lia)) as [x Hx]. rewrite Hx. cbn.
  rewrite setZ_Some by lia. cbn. rewrite IH by (rewrite ?lenZ_insert; lia).
  apply getZ_Some in Hx as [_ Hx]. rewrite !slice_Some by lia. cbn.
  rewrite (drop_S src x (Z.to_nat s)) by done.
  replace (Z.to_nat (s + 1)) with (S (Z.to_nat s)) by lia.
  replace (Z.to_nat (Z.of_nat (S n))) with (S n) by lia. rewrite Nat2Z.id. cbn [take].
  set (t := take n _).
  assert (length t = n) as Ht by (subst t; unfold lenZ in *; rewrite length_take, length_drop; lia).
  rewrite !splice_Some by (rewrite ?lenZ_insert; unfold lenZ in *; cbn [length]; lia). f_equal.
  replace (Z.to_nat (d + 1)) with (S (Z.to_nat d)) by lia.
  rewrite insert_take_drop by (unfold lenZ in *; lia).
  rewrite take_app_ge by (unfold lenZ in *; rewrite length_take; lia).
  rewrite drop_app_ge by (unfold lenZ in *; rewrite length_take; lia).
  rewrite !length_take, Nat.min_l by (unfold lenZ in *; lia).
  replace (S (Z.to_nat d) - Z.to_nat d)%nat with 1%nat by lia.
  replace (S (Z.to_nat d) + length t - Z.to_nat d)%nat with (S (length t)) by lia.
  cbn [take drop]. rewrite drop_drop, <- app_assoc. rewrite take_0. cbn [app length].
  replace (S (Z.to_nat d) + length t)%nat with (Z.to_nat d + S (length t))%nat by lia. done.
Qed.

(** the byte loop of [memcpy] copies exactly the [n]-byte block, and is
    undefined exactly when source or destination is shorter than that. *)
Theorem memcpy_loop_correct n dest d src s :
  0 <= d <= lenZ dest -> 0 <= s <= lenZ src ->
  memcpy_loop n dest d src s = memcpy dest d src s (Z.of_nat n).
Proof.
  intros. destruct (decide (s + Z.of_nat n <= lenZ src /\ d + Z.of_nat n <= lenZ dest)).
  - apply memcpy_loop_in_range; lia.
  - rewrite memcpy_loop_out_of_range, memcpy_out_of_range; [done|lia..].
Qed.

Lemma memcpy_loop_correct_witness :
  memcpy_loop 2 [1; 2; 3; 4] 1 [7; 8; 9] 0 = memcpy [1; 2; 3; 4] 1 [7; 8; 9] 0 (Z.of_nat 2).
Proof. apply (memcpy_loop_correct 2 [1; 2; 3; 4] 1 [7; 8; 9] 0); vm_compute; split; done. Defined.

(** The first bytes of a buffer, copied to the start of another. *)
Lemma memcpy_loop_prefix (p src dest : bytes) :
  take (length p) src = p -> (length p <= length dest)%nat ->
  memcpy_loop (length p) dest 0 src 0 = Some (p ++ drop (length p) dest).
Proof.
  intros Hp Hd. assert (length p <= length src)%nat as Hs by (rewrite <- Hp, length_take; lia).
  rewrite memcpy_loop_in_range by (unfold lenZ; lia). unfold memcpy. rewrite slice_Some by (unfold lenZ; lia). cbn [mbind option_bind].
  change (Z.to_nat 0) with 0%nat. rewrite drop_0, Nat2Z.id, Hp, splice_Some by (unfold lenZ; lia). done.
Qed.

(** ** The allocator *)
Definition heap_wf (heap_pos : Z) : Prop :=
  0 <= heap_pos <= HEAP_SIZE /\ heap_pos mod 16 = 0.

(** Request sizes for which [heap_pos + size] does not wrap. *)
Definition size_ok (size : Z) : Prop := 0 <= size < 2 ^ 64 - HEAP_SIZE.

Lemma malloc_cases heap_pos size :
  heap_wf heap_pos -> size_ok size ->
  (malloc heap_pos size = (None, heap_pos) /\ HEAP_SIZE < heap_pos + size) \/
  (exists heap_pos', malloc heap_pos size = (Some heap_pos, heap_pos') /\
     heap_pos + size <= heap_pos' < heap_pos + size + 16 /\ heap_wf heap_pos').
Proof.
  unfold heap_wf, size_ok, malloc, HEAP_SIZE. intros [? ?] ?.
  rewrite u64_id by (red; lia). case_match; [left; split; [done|lia]|right].
  eexists; split; [done|]. change 16 with (2 ^ 4). rewrite ALIGN_UP_pow2 by lia. dlia.
Qed.

(** from a well-formed heap, every block a run of [malloc] calls returns is
    16-byte aligned and inside the heap, starts at or above the position the
    run started from, and no two of the blocks overlap. *)
Theorem malloc_seq_disjoint sizes : forall heap_pos ps heap_pos',
  heap_wf heap_pos -> Forall size_ok sizes ->
  malloc_seq heap_pos sizes = (ps, heap_pos') ->
  heap_wf heap_pos' /\
  (forall i p sz, ps !! i = Some (Some p, sz) ->
     heap_pos <= p /\ p mod 16 = 0 /\ p + sz <= HEAP_SIZE) /\
  (forall i j p q sz sz', (i < j)%nat -> ps !! i = Some (Some p, sz) ->
     ps !! j = Some (Some q, sz') -> p + sz <= q).
Proof.
  induction sizes as [|sz sizes IH]; intros hp ps hp' Hwf Hsz; cbn [malloc_seq].
  { intros; simplify_eq. split; [done|]. split; [intros []|intros [] []]; by intros. }
  inversion Hsz as [|? ? Hsz1 Hsz2]; subst. intros Hrun.
  destruct (malloc_cases hp sz Hwf Hsz1) as [[E ?]|(hp1 & E & ? & Hwf1)]; rewrite E in Hrun;
    [rename hp into hp1; rename Hwf into Hwf1|];
    destruct (malloc_seq hp1 sizes) as [qs hp2] eqn:Hqs; simplify_eq;
    destruct (IH hp1 qs hp' Hwf1 Hsz2 Hqs) as (Hwf2 & Hin & Hdis);
    (split; [done|]); split.
  - intros [|i] p sz' Hi; cbn in Hi; simplify_eq. by eapply Hin.
  - intros [|i] [|j] p q s1 s2 Hij Hi Hj; cbn in Hi, Hj; simplify_eq.
    eapply (Hdis i j); [lia|done|done].
  - intros [|i] p sz' Hi; cbn in Hi; simplify_eq.
    + unfold heap_wf in *. lia.
    + destruct (Hin i p sz' Hi) as (? & ? & ?). repeat split; [|done..]. red in Hsz1; lia.
  - intros [|i] [|j] p q s1 s2 Hij Hi Hj; cbn in Hi, Hj; simplify_eq; [lia| |lia|].
    + destruct (Hin j q s2 Hj) as (? & _). lia.
    + eapply (Hdis i j); [lia|done|done].
Qed.

Lemma malloc_seq_disjoint_witness : (malloc_seq 32 [5; 1048576; 17]).1 = [(Some 32, 5); (None, 1048576); (Some 48, 17)] /\
  32 + 5 <= 48.
Proof.
  split; [done|].
  destruct (malloc_seq_disjoint [5; 1048576; 17] 32 _ _ ltac:(split; done)
    ltac:(repeat constructor; done) eq_refl) as (_ & _ & H).
  exact (H 0%nat 2%nat 32 48 5 17 ltac:(lia) eq_refl eq_refl).
Defined.

(** Since [free] gives nothing back, at most [HEAP_SIZE / 16] allocations of a
    positive size ever succeed. *)
Definition successes (ps : list (option Z * Z)) : Z :=
  lenZ (filter (fun r => is_Some (r.1) /\ 0 < r.2) ps).

Lemma malloc_seq_successes sizes : forall heap_pos ps heap_pos',
  heap_wf heap_pos -> Forall size_ok sizes ->
  malloc_seq heap_pos sizes = (ps, heap_pos') ->
  heap_pos + 16 * successes ps <= heap_pos' /\ heap_wf heap_pos'.
Proof.
  induction sizes as [|sz sizes IH]; intros hp ps hp' Hwf Hsz; cbn [malloc_seq].
  { intros; simplify_eq. unfold successes, lenZ. simpl. split; [lia|done]. }
  inversion Hsz as [|? ? Hsz1 Hsz2]; subst. intros Hrun.
  destruct (malloc_cases hp sz Hwf Hsz1) as [[E ?]|(hp1 & E & ? & Hwf1)]; rewrite E in Hrun;
    [rename hp into hp1; rename Hwf into Hwf1|];
    destruct (malloc_seq hp1 sizes) as [qs hp2] eqn:Hqs; simplify_eq;
    destruct (IH hp1 qs hp' Hwf1 Hsz2 Hqs) as [Hle Hwf2]; split; try done;
    unfold successes, lenZ in *; rewrite filter_cons; case_decide as Hd; cbn [length].
  - simpl in Hd. destruct Hd as [_ ?]. unfold heap_wf in *.
    assert (hp + 16 <= hp1) by (Z.to_euclidean_division_equations; lia). lia.
  - red in Hsz1. lia.
Qed.

(** a run of [malloc] calls has at most 65536 successful allocations of a
    positive size, however many of the blocks are freed in between. *)
Theorem malloc_exhausts sizes heap_pos ps heap_pos' :
  heap_wf heap_pos -> Forall size_ok sizes ->
  malloc_seq heap_pos sizes = (ps, heap_pos') -> successes ps <= 65536.
Proof.
  intros Hwf Hsz Hrun. destruct (malloc_seq_successes _ _ _ _ Hwf Hsz Hrun) as [? [? _]].
  unfold heap_wf, HEAP_SIZE in *. lia.
Qed.

Lemma malloc_exhausts_witness : successes (malloc_seq 0 [16; 0; 1048576; 32]).1 <= 65536.
Proof. exact (malloc_exhausts [16; 0; 1048576; 32] 0 _ _ ltac:(split; done) ltac:(repeat constructor; done) eq_refl). Defined.

End Memory.
