(* ===== verification/Device.v ===== *)
(** * The device registry: [src/drivers/device.c]

    The singly linked global list [devices] is a list, newest first.  The
    [data] and [ops] pointers of a device are the two opaque components [O]
    and [A], since the registry only stores them. *)
From S2P Require Import Prelude KernelLib.
Import CString Memory.

Definition MAX_STRING_LEN : Z := 256.

Definition DEVICE_CHAR : Z := 1.
Definition DEVICE_BLOCK : Z := 2.
Definition DEVICE_NETWORK : Z := 3.
Definition DEVICE_FS : Z := 4.

Section registry.
Context {O A : Type}.

Record device := Device {
  name : bytes;
  major : Z;
  minor : Z;
  type : Z;
  size : Z;
  data : A;
  ops : O
}.

(** The statics [devices] and [next_major]. *)
Record registry := Registry { devices : list device; next_major : Z }.

(** [sizeof(device_t)]: 256 bytes of name, three [u32], padding, a [u64] and
    three pointers. *)
Definition sizeof_device : Z := 304.

(** [strncpy(buf, src, MAX_STRING_LEN - 1); buf[MAX_STRING_LEN - 1] = 0] on a
    fresh (zero) name field: how every component stores a name. *)
Definition store_name (src : bytes) : option bytes :=
  d ← strncpy (replicate 256 0) src 255;
  setZ d 255 0.

Definition device_register (heap_pos : Z) (reg : registry)
    (nm : bytes) (ty : Z) (o : O) (d : A) : option (Z * registry * Z) :=
  let '(dev, heap_pos) := malloc heap_pos sizeof_device in
  match dev with
  | None => Some (ERR_NO_MEMORY, reg, heap_pos)
  | Some _ =>
      nm' ← store_name nm;
      let dev := Device nm' (next_major reg) 0 ty 0 d o in
      Some (i32 (next_major reg),
            Registry (dev :: devices reg) (u32 (next_major reg + 1)), heap_pos)
  end.

(** The search loop shared by [device_find] and [device_find_by_name]:
    the outer [None] is a read past the end of a name. *)
Fixpoint find_by_name (l : list device) (nm : bytes) : option (option device) :=
  match l with
  | [] => Some None
  | dev :: l' =>
      r ← strcmp (name dev) nm;
      if r =? 0 then Some (Some dev) else find_by_name l' nm
  end.

Definition device_find (reg : registry) (nm : bytes) : option (option device) :=
  find_by_name (devices reg) nm.

Definition device_find_by_name (reg : registry) (nm : bytes) : option (option device) :=
  find_by_name (devices reg) nm.

Fixpoint find_major (l : list device) (mj : Z) : option device :=
  match l with
  | [] => None
  | dev :: l' => if major dev =? mj then Some dev else find_major l' mj
  end.

Definition device_find_by_major (reg : registry) (mj : Z) : option device :=
  find_major (devices reg) mj.

Definition device_init (reg : registry) : registry := Registry [] (next_major reg).

Fixpoint unlink_name (l : list device) (nm : bytes) : option (option (list device)) :=
  match l with
  | [] => Some None
  | dev :: l' =>
      r ← strcmp (name dev) nm;
      if r =? 0 then Some (Some l')
      else t ← unlink_name l' nm; Some (option_map (cons dev) t)
  end.

Definition device_unregister (reg : registry) (nm : bytes) : option (Z * registry) :=
  r ← unlink_name (devices reg) nm;
  Some (match r with
        | Some l => (0, Registry l (next_major reg))
        | None => (ERR_NOT_FOUND, reg)
        end).

(** ** Stored names *)
Definition c_string (s : bytes) (buf : bytes) : Prop :=
  nul_free s /\ exists rest, buf = s ++ 0 :: rest.

Lemma store_name_spec s rest :
  nul_free s ->
  exists buf, store_name (s ++ 0 :: rest) = Some buf /\
    length buf = 256%nat /\ c_string (take 255 s) buf.
Proof.
  intros Hs. unfold store_name. rewrite strncpy_correct by done.
  assert (nul_free (take 255 s)) as Ht by (by apply Forall_take).
  case_match; rewrite ?length_replicate; cbn [Nat.leb].
  - change (255 <=? 256)%nat with true. cbn [mbind option_bind].
    assert (length (take 255 s) = 255%nat) as Hl by (rewrite length_take; lia).
    rewrite setZ_Some by (unfold lenZ; rewrite length_app, Hl, length_drop, length_replicate; lia).
    eexists; split; [done|]. split.
    { rewrite length_insert, length_app, Hl, length_drop, length_replicate. lia. }
    split; [done|]. exists []. rewrite insert_app_r_alt by (rewrite Hl; lia). rewrite Hl.
    by rewrite drop_replicate.
  - change (255 + 1 <=? 256)%nat with true. cbn [mbind option_bind].
    rewrite take_ge by lia.
    rewrite drop_ge by (rewrite length_replicate; lia). rewrite app_nil_r.
    set (k := (255 - length s)%nat).
    replace (255 + 1 - length s)%nat with (S k) by lia. rewrite replicate_S.
    rewrite setZ_Some by
      (unfold lenZ; rewrite length_app; cbn [length]; rewrite length_replicate; lia).
    eexists; split; [done|]. split.
    { rewrite length_insert, length_app. cbn [length]. rewrite length_replicate. lia. }
    split; [done|]. rewrite insert_app_r_alt by lia.
    destruct (Z.to_nat 255 - length s)%nat as [|j] eqn:Hj; by eexists.
Qed.

(** ** The registry invariant

    Every stored name is a terminated string, and majors are handed out in
    order, so those in the list are distinct and below [next_major]. *)
Definition reg_wf (reg : registry) : Prop :=
  (forall dev, dev ∈ devices reg -> exists s, c_string s (name dev)) /\
  NoDup (major <$> devices reg) /\
  (forall dev, dev ∈ devices reg -> 1 <= major dev < next_major reg) /\
  1 <= next_major reg < 2147483648.

Lemma strcmp_c_string s t buf rest :
  c_string s buf -> nul_free t ->
  exists z, strcmp buf (t ++ 0 :: rest) = Some z /\ (z = 0 <-> s = t).
Proof. intros [Hs [r ->]] Ht. by apply strcmp_spec. Qed.

Lemma find_by_name_total l t rest :
  (forall dev, dev ∈ l -> exists s, c_string s (name dev)) -> nul_free t ->
  exists r, find_by_name l (t ++ 0 :: rest) = Some r.
Proof.
  intros Hl Ht. induction l as [|dev l IH]; simpl; [by eexists|].
  destruct (Hl dev ltac:(left)) as [s Hs].
  destruct (strcmp_c_string s t (name dev) rest Hs Ht) as (z & -> & _). simpl.
  case_match; [by eexists|]. apply IH. intros. apply Hl. by right.
Qed.

Lemma find_major_notin l mj :
  (forall dev, dev ∈ l -> major dev <> mj) -> find_major l mj = None.
Proof.
  induction l as [|dev l IH]; intros H; simpl; [done|]. case_match eqn:E.
  - apply Z.eqb_eq in E. by destruct (H dev ltac:(left)).
  - apply IH. intros. apply H. by right.
Qed.

(** registering a device under a name of at most 255 characters, while
    the heap has room, returns its fresh major number, keeps the invariant, and
    makes that device the answer of a search for its name or its major; searches
    for any other name or major answer as before. *)
Theorem device_register_find heap_pos reg s rest ty o d :
  reg_wf reg -> next_major reg < 2147483647 ->
  nul_free s -> (length s <= 255)%nat -> is_Some (malloc heap_pos sizeof_device).1 ->
  exists reg' dev,
    device_register heap_pos reg (s ++ 0 :: rest) ty o d
      = Some (next_major reg, reg', (malloc heap_pos sizeof_device).2) /\
    reg_wf reg' /\
    (type dev = ty /\ ops dev = o /\ data dev = d /\ major dev = next_major reg) /\
    (forall r, device_find reg' (s ++ 0 :: r) = Some (Some dev)) /\
    device_find_by_major reg' (next_major reg) = Some dev /\
    (forall t r, nul_free t -> t <> s ->
       device_find reg' (t ++ 0 :: r) = device_find reg (t ++ 0 :: r)) /\
    (forall mj, mj <> next_major reg ->
       device_find_by_major reg' mj = device_find_by_major reg mj).
Proof.
  intros (Hn & Hnd & Hmj & Hb) Hlt Hs Hlen [p Hp]. unfold device_register.
  destruct (malloc heap_pos sizeof_device) as [q hp] eqn:E. simpl in Hp; subst q.
  destruct (store_name_spec s rest Hs) as (buf & -> & _ & Hc).
  rewrite take_ge in Hc by lia. cbn.
  rewrite i32_id, u32_id by (unfold is_u32; lia).
  eexists _, (Device buf (next_major reg) 0 ty 0 d o).
  split; [done|]. split; [|split; [done|]].
  - split; [|split; [|split]]; cbn.
    + intros dev [->|?]%elem_of_cons; [by eexists|by apply Hn].
    + constructor; [|done]. intros (dev & Heq & Hin)%list_elem_of_fmap.
      specialize (Hmj _ Hin). simpl in *. lia.
    + intros dev [->|Hin]%elem_of_cons; simpl; [lia|]. specialize (Hmj _ Hin). lia.
    + lia.
  - split; [|split; [|split]].
    + intros r. unfold device_find. cbn.
      destruct (strcmp_c_string s s buf r Hc Hs) as (z & -> & Hz). cbn.
      case_match; [done|]. destruct Hz as [_ Hz]. specialize (Hz eq_refl). lia.
    + unfold device_find_by_major. cbn. by rewrite Z.eqb_refl.
    + intros t r Ht Hne. unfold device_find. cbn.
      destruct (strcmp_c_string s t buf r Hc Ht) as (z & -> & Hz). cbn.
      case_match; [|done]. exfalso. apply Hne. symmetry. apply Hz. lia.
    + intros mj Hne. unfold device_find_by_major. cbn. case_match; [lia|done].
Qed.


(** unregistering a name undoes the latest registration under it. *)
Theorem device_unregister_undoes heap_pos reg s rest r ty o d mj reg' heap_pos' :
  nul_free s -> (length s <= 255)%nat ->
  device_register heap_pos reg (s ++ 0 :: rest) ty o d = Some (mj, reg', heap_pos') ->
  mj <> ERR_NO_MEMORY ->
  exists reg'', device_unregister reg' (s ++ 0 :: r) = Some (0, reg'') /\
    devices reg'' = devices reg.
Proof.
  intros Hs Hlen Hreg Hmj. unfold device_register in Hreg.
  destruct (malloc heap_pos sizeof_device) as [[p|] hp]; [|by simplify_eq].
  destruct (store_name_spec s rest Hs) as (buf & E & _ & Hc). rewrite E in Hreg.
  cbn in Hreg. simplify_eq. rewrite take_ge in Hc by lia.
  unfold device_unregister. cbn.
  destruct (strcmp_c_string s s buf r Hc Hs) as (z & -> & Hz). cbn.
  case_match; [by eexists|]. destruct Hz as [_ Hz]. specialize (Hz eq_refl). lia.
Qed.


End registry.

Arguments device : clear implicits.
Arguments registry : clear implicits.

Lemma device_register_find_witness :
  exists reg' dev, device_register 0 (Registry [] 1) [100; 0] 2 tt tt = Some (1, reg', 304) /\
    (forall r, device_find reg' ([100] ++ 0 :: r) = Some (Some dev)).
Proof.
  assert (reg_wf (Registry (O := unit) (A := unit) [] 1)) as Hw.
  { split; [by intros dev H%elem_of_nil|]. split; [constructor|]. split; [by intros dev H%elem_of_nil|]. done. }
  destruct (device_register_find 0 (Registry [] 1) [100] [] 2 tt tt Hw) as (reg' & dev & H & _ & _ & Hf & _).
  - done.
  - by repeat constructor.
  - cbn. lia.
  - by eexists.
  - exists reg', dev. by split.
Defined.

Lemma device_unregister_undoes_witness :
  exists mj reg' h reg'', device_register 0 (Registry [] 1) [100; 0] 2 tt tt = Some (mj, reg', h) /\
    device_unregister reg' [100; 0] = Some (0, reg'') /\ devices reg'' = [].
Proof.
  do 3 eexists. destruct (device_unregister_undoes 0 (Registry [] 1) [100] [] [] 2 tt tt 1
    (Registry [Device (100 :: replicate 255 0) 1 0 2 0 tt tt] 2) 304) as (reg'' & H & E).
  - by repeat constructor.
  - cbn. lia.
  - vm_compute. reflexivity.
  - done.
  - exists reg''. split; [vm_compute; reflexivity|]. by split.
Defined.
