(* ===== verification/BlockDev.v ===== *)
(** * Block devices

    The interface the block cache uses ([src/include/block_cache.h]), the RAM
    disk driver ([src/drivers/block/ramdisk.c]) and the adapter from registered
    devices ([src/fs/block_device_wrapper.c]). *)
From S2P Require Import Prelude KernelLib Device.
Import CString Memory.

(** ** [block_device_ops_t] and [block_device_t]

    [D] is the state behind [device_data].  A driver call returns the new
    device state, the [i32] result and the buffer; [None] is an access outside
    an object. *)
Record block_device_ops (D : Type) := BlockDeviceOps {
  read_block : option (D -> Z -> bytes -> option (D * Z * bytes));
  write_block : option (D -> Z -> bytes -> option (D * Z));
  get_block_size : option (D -> option (D * Z));
  get_num_blocks : option (D -> option (D * Z))
}.
Arguments BlockDeviceOps {D}.
Arguments read_block {D}.
Arguments write_block {D}.
Arguments get_block_size {D}.
Arguments get_num_blocks {D}.

Record block_device (D : Type) := BlockDevice {
  device_data : D;
  bd_ops : option (block_device_ops D)
}.
Arguments BlockDevice {D}.
Arguments device_data {D}.
Arguments bd_ops {D}.

(** ** What a driver promises

    A driver for blocks of [bs] bytes: on its own blocks ([dev_ok]) reads and
    writes succeed and act as lookups and updates of [dev_block]; on any other
    32-bit block number a read fails and leaves buffer and device alone. *)
Class BlockDriver {D : Type} (ops : block_device_ops D) (bs : Z) := {
  dev_inv : D -> Prop;
  dev_ok : Z -> Prop;
  dev_block : D -> Z -> bytes;
  dev_block_len d b : dev_inv d -> dev_ok b -> lenZ (dev_block d b) = bs;
  dev_read_ok d b buf :
    dev_inv d -> dev_ok b -> lenZ buf = bs ->
    exists rd d' r, read_block ops = Some rd /\
      rd d b buf = Some (d', r, dev_block d b) /\ 0 <= r /\ dev_inv d' /\
      (forall b', dev_ok b' -> dev_block d' b' = dev_block d b');
  dev_write_ok d b buf :
    dev_inv d -> dev_ok b -> lenZ buf = bs ->
    exists wr d' r, write_block ops = Some wr /\
      wr d b buf = Some (d', r) /\ 0 <= r /\ dev_inv d' /\
      dev_block d' b = buf /\
      (forall b', dev_ok b' -> b' <> b -> dev_block d' b' = dev_block d b');
  dev_read_fail d b buf :
    dev_inv d -> is_u32 b -> ~ dev_ok b ->
    exists rd r, read_block ops = Some rd /\ rd d b buf = Some (d, r, buf) /\ r < 0
}.

Module Ramdisk.

Record ramdisk := RamDisk { size : Z; data : bytes; block_size : Z }.

Definition ramdisk_read_block (device : option ramdisk) (block_num : Z)
    (buffer : option bytes) : option (Z * option bytes) :=
  match device, buffer with
  | Some disk, Some buf =>
      let offset := u64 (block_num * block_size disk) in
      if size disk <=? offset then Some (ERR_INVALID, buffer)
      else
        buf' ← memcpy buf 0 (data disk) offset (block_size disk);
        Some (i32 (block_size disk), Some buf')
  | _, _ => Some (ERR_INVALID, buffer)
  end.

Definition ramdisk_write_block (device : option ramdisk) (block_num : Z)
    (buffer : option bytes) : option (Z * option ramdisk) :=
  match device, buffer with
  | Some disk, Some buf =>
      let offset := u64 (block_num * block_size disk) in
      if size disk <=? offset then Some (ERR_INVALID, device)
      else
        data' ← memcpy (data disk) offset buf 0 (block_size disk);
        Some (i32 (block_size disk), Some (RamDisk (size disk) data' (block_size disk)))
  | _, _ => Some (ERR_INVALID, device)
  end.

(** [arg] is the [u64] the caller's pointer designates. *)
Definition ramdisk_ioctl (device : option ramdisk) (cmd : Z) (arg : option Z)
  : Z * option Z :=
  match device with
  | None => (ERR_INVALID, arg)
  | Some disk =>
      match arg with
      | Some _ =>
          if cmd =? 0 then (ERR_SUCCESS, Some (size disk))
          else if cmd =? 1 then (ERR_SUCCESS, Some (block_size disk))
          else (ERR_INVALID, arg)
      | None => (ERR_INVALID, arg)
      end
  end.

Definition ramdisk_open (flags : Z) : Z := ERR_SUCCESS.
Definition ramdisk_close : Z := ERR_SUCCESS.
Definition ramdisk_probe : Z := ERR_SUCCESS.

(** [free] gives nothing back, so removal leaves the heap as it is. *)
Definition ramdisk_remove (heap_pos : Z) (device : option ramdisk) : Z * Z :=
  match device with
  | Some disk => (ERR_SUCCESS, free (free heap_pos None) None)
  | None => (ERR_SUCCESS, heap_pos)
  end.

Definition sizeof_ramdisk : Z := 24.

(** [ramdisk_init]: the new [g_ramdisk] ([g] is the old one), the heap, and
    the size of the disk it made, if it got that far. *)
Definition ramdisk_init {O A} (heap_pos : Z) (g : option ramdisk)
    (reg : registry O A) (ramdisk_ops : O) (as_data : ramdisk -> A)
    (nm_ramdisk : bytes) : option (option ramdisk * registry O A * Z) :=
  let '(disk, heap_pos) := malloc heap_pos sizeof_ramdisk in
  match disk with
  | None => Some (g, reg, heap_pos)
  | Some _ =>
      let sz := 16 * 1024 * 1024 in
      let '(mem, heap_pos) := malloc heap_pos sz in
      match mem with
      | None => Some (g, reg, free heap_pos disk)
      | Some _ =>
          let disk := RamDisk sz (replicate (Z.to_nat sz) 0) 512 in
          '(_, reg, heap_pos) ←
            device_register heap_pos reg nm_ramdisk DEVICE_BLOCK ramdisk_ops (as_data disk);
          Some (Some disk, reg, heap_pos)
      end
  end.

Definition ramdisk_load_ext2_image (g : option ramdisk) (image_data : option bytes)
    (image_size : Z) : option (option ramdisk) :=
  match g, image_data with
  | Some disk, Some img =>
      if image_size =? 0 then Some g
      else if size disk <? image_size then Some g
      else
        data' ← memcpy (data disk) 0 img 0 image_size;
        Some (Some (RamDisk (size disk) data' (block_size disk)))
  | _, _ => Some g
  end.

(** The block operations of [ramdisk_ops], with the disk as device state. *)
Definition ramdisk_block_ops : block_device_ops (option ramdisk) :=
  BlockDeviceOps
    (Some (fun d b buf =>
       '(r, buf') ← ramdisk_read_block d b (Some buf); buf' ← buf'; Some (d, r, buf')))
    (Some (fun d b buf =>
       '(r, d') ← ramdisk_write_block d b (Some buf); Some (d', r)))
    None None.

End Ramdisk.

(** ** The adapter from registered devices *)
Module Wrapper.
Section wrapper.
Context {A : Type}.

(** The adapter's own declaration of [struct device_ops]. *)
Record device_ops := DeviceOps {
  dop_read_block : option (A -> Z -> bytes -> option (A * Z * bytes));
  dop_write_block : option (A -> Z -> bytes -> option (A * Z));
  dop_ioctl_block : option (A -> Z -> Z -> option (A * Z * Z));
  dop_open : option (A -> Z -> option (A * Z));
  dop_close : option (A -> option (A * Z))
}.

(** The fields of [struct device] it uses. *)
Record device := Device { dev_data : A; dev_ops : option device_ops }.

Definition set_data (dev : device) (a : A) : device := Device a (dev_ops dev).

Definition block_device_wrapper_read (dv : option device) (block_num : Z) (buffer : bytes)
  : option (option device * Z * bytes) :=
  match dv with
  | Some dev =>
      match dev_ops dev ≫= dop_read_block with
      | Some f =>
          '(a, r, buf) ← f (dev_data dev) block_num buffer;
          Some (Some (set_data dev a), r, buf)
      | None => Some (dv, ERR_INVALID, buffer)
      end
  | None => Some (dv, ERR_INVALID, buffer)
  end.

Definition block_device_wrapper_write (dv : option device) (block_num : Z) (buffer : bytes)
  : option (option device * Z) :=
  match dv with
  | Some dev =>
      match dev_ops dev ≫= dop_write_block with
      | Some f =>
          '(a, r) ← f (dev_data dev) block_num buffer;
          Some (Some (set_data dev a), r)
      | None => Some (dv, ERR_INVALID)
      end
  | None => Some (dv, ERR_INVALID)
  end.

Definition block_device_wrapper_get_block_size (dv : option device)
  : option (option device * Z) :=
  match dv with
  | Some dev =>
      match dev_ops dev ≫= dop_ioctl_block with
      | Some f =>
          '(a, _, block_size) ← f (dev_data dev) 1 512;
          Some (Some (set_data dev a), i32 block_size)
      | None => Some (dv, 512)
      end
  | None => Some (dv, 512)
  end.

Definition block_device_wrapper_get_num_blocks (dv : option device)
  : option (option device * Z) :=
  match dv with
  | Some dev =>
      match dev_ops dev ≫= dop_ioctl_block with
      | Some f =>
          '(a, _, size) ← f (dev_data dev) 0 0;
          '(dv, bs) ← block_device_wrapper_get_block_size (Some (set_data dev a));
          let block_size := u64 bs in
          if block_size =? 0 then None
          else Some (dv, i32 (size / block_size))
      | None => Some (dv, 0)
      end
  | None => Some (dv, 0)
  end.

Definition wrapper_ops : block_device_ops (option device) :=
  BlockDeviceOps
    (Some block_device_wrapper_read) (Some block_device_wrapper_write)
    (Some block_device_wrapper_get_block_size) (Some block_device_wrapper_get_num_blocks).

Definition sizeof_block_device : Z := 16.

Definition block_device_create (heap_pos : Z) (dv : option device)
  : option (block_device (option device)) * Z :=
  match dv with
  | None => (None, heap_pos)
  | Some dev =>
      let '(bd, heap_pos) := malloc heap_pos sizeof_block_device in
      match bd with
      | None => (None, heap_pos)
      | Some _ => (Some (BlockDevice (Some dev) (Some wrapper_ops)), heap_pos)
      end
  end.

Definition block_device_destroy (heap_pos : Z) (bd : option (block_device (option device))) : Z :=
  match bd with Some _ => free heap_pos None | None => heap_pos end.

(** ** The operation table as the drivers fill it

    [struct device_ops] of [device.c], which the drivers initialise, has five
    fields the adapter's declaration lacks; the adapter reads the same object
    by position.  A table is the list of its slots in memory order. *)
Inductive driver_fn :=
  | FnCharRead | FnCharWrite | FnCharIoctl
  | FnReadBlock (f : A -> Z -> bytes -> option (A * Z * bytes))
  | FnWriteBlock (f : A -> Z -> bytes -> option (A * Z))
  | FnIoctlBlock (f : A -> Z -> Z -> option (A * Z * Z))
  | FnOpen (f : A -> Z -> option (A * Z))
  | FnClose (f : A -> option (A * Z))
  | FnProbe | FnRemove.

Record driver_ops := DriverOps {
  op_read : option driver_fn;
  op_write : option driver_fn;
  op_ioctl : option driver_fn;
  op_read_block : option driver_fn;
  op_write_block : option driver_fn;
  op_ioctl_block : option driver_fn;
  op_open : option driver_fn;
  op_close : option driver_fn;
  op_probe : option driver_fn;
  op_remove : option driver_fn
}.

Definition slots (o : driver_ops) : list (option driver_fn) :=
  [op_read o; op_write o; op_ioctl o; op_read_block o; op_write_block o;
   op_ioctl_block o; op_open o; op_close o; op_probe o; op_remove o].

(** Reading slot [i] at the adapter's type: [NULL] stays [NULL], a pointer to a
    function of another type is undefined to call. *)
Definition slot_at (o : driver_ops) (i : nat) : option driver_fn := mjoin (slots o !! i).

Definition wrapper_view (o : driver_ops) : device_ops :=
  DeviceOps
    (match slot_at o 0 with
     | None => None | Some (FnReadBlock f) => Some f | Some _ => Some (fun _ _ _ => None) end)
    (match slot_at o 1 with
     | None => None | Some (FnWriteBlock f) => Some f | Some _ => Some (fun _ _ _ => None) end)
    (match slot_at o 2 with
     | None => None | Some (FnIoctlBlock f) => Some f | Some _ => Some (fun _ _ _ => None) end)
    (match slot_at o 3 with
     | None => None | Some (FnOpen f) => Some f | Some _ => Some (fun _ _ => None) end)
    (match slot_at o 4 with
     | None => None | Some (FnClose f) => Some f | Some _ => Some (fun _ => None) end).

End wrapper.
Arguments device_ops : clear implicits.
Arguments device : clear implicits.
Arguments driver_fn : clear implicits.
Arguments driver_ops : clear implicits.
End Wrapper.

(** The table [ramdisk.c] fills in: the fields it does not name are [NULL]. *)
Definition ramdisk_ops : Wrapper.driver_ops (option Ramdisk.ramdisk) :=
  Wrapper.DriverOps None None None
    (Wrapper.FnReadBlock <$> read_block Ramdisk.ramdisk_block_ops)
    (Wrapper.FnWriteBlock <$> write_block Ramdisk.ramdisk_block_ops)
    (Some (Wrapper.FnIoctlBlock (fun d cmd arg =>
       let '(r, a) := Ramdisk.ramdisk_ioctl d cmd (Some arg) in
       a ← a; Some (d, r, a))))
    (Some (Wrapper.FnOpen (fun d flags => Some (d, Ramdisk.ramdisk_open flags))))
    (Some (Wrapper.FnClose (fun d => Some (d, Ramdisk.ramdisk_close))))
    (Some Wrapper.FnProbe) (Some Wrapper.FnRemove).

(** ** The RAM disk is a driver for its own block size *)
Module RamdiskProofs.
Import Ramdisk.

Section laws.
Context (nblocks bs : Z).
Hypothesis nblocks_range : 0 < nblocks < 4294967296.
Hypothesis bs_range : 0 < bs < 2147483648.

Definition disk_inv (d : option ramdisk) : Prop :=
  exists disk, d = Some disk /\ size disk = nblocks * bs /\ block_size disk = bs /\
    lenZ (data disk) = nblocks * bs.

Definition disk_ok (b : Z) : Prop := 0 <= b < nblocks.

Definition disk_block (d : option ramdisk) (b : Z) : bytes :=
  match d with
  | Some disk => take (Z.to_nat bs) (drop (Z.to_nat (b * bs)) (data disk))
  | None => []
  end.

Lemma offset_ok b : disk_ok b -> u64 (b * bs) = b * bs /\ 0 <= b * bs /\ b * bs + bs <= nblocks * bs.
Proof.
  intros [Hb0 Hb1]. assert (b * bs + bs <= nblocks * bs) by nia.
  assert (nblocks * bs < 4294967296 * 2147483648) by nia. repeat split; [|nia|done].
  apply u64_id. red. nia.
Qed.

Lemma disk_slice disk b :
  disk_ok b -> lenZ (data disk) = nblocks * bs ->
  slice (data disk) (b * bs) bs = Some (disk_block (Some disk) b).
Proof.
  intros Hb Hlen. destruct (offset_ok b Hb) as (_ & ? & ?).
  by rewrite slice_Some by lia.
Qed.

Lemma disk_block_len d b : disk_inv d -> disk_ok b -> lenZ (disk_block d b) = bs.
Proof.
  intros (disk & -> & _ & _ & Hlen) Hb. by eapply slice_length, disk_slice.
Qed.

Lemma disk_read d b buf :
  disk_inv d -> disk_ok b -> lenZ buf = bs ->
  ramdisk_read_block d b (Some buf) = Some (bs, Some (disk_block d b)).
Proof.
  intros Hinv Hb Hbuf. pose proof (disk_block_len d b Hinv Hb) as Hl.
  destruct Hinv as (disk & -> & Hsz & Hbs & Hlen).
  destruct (offset_ok b Hb) as (E & ? & ?). unfold ramdisk_read_block.
  rewrite Hbs, Hsz, E. case_match; [lia|].
  unfold memcpy. rewrite disk_slice by done. cbn [mbind option_bind].
  rewrite splice_full by lia. cbn [mbind option_bind].
  by rewrite i32_id by lia.
Qed.

Lemma disk_write d b buf :
  disk_inv d -> disk_ok b -> lenZ buf = bs ->
  exists d', ramdisk_write_block d b (Some buf) = Some (bs, d') /\ disk_inv d' /\
    disk_block d' b = buf /\
    (forall b', disk_ok b' -> b' <> b -> disk_block d' b' = disk_block d b').
Proof.
  intros (disk & -> & Hsz & Hbs & Hlen) Hb Hbuf.
  destruct (offset_ok b Hb) as (E & ? & ?). unfold ramdisk_write_block.
  rewrite Hbs, Hsz, E. case_match; [lia|].
  unfold memcpy. rewrite slice_full by done. cbn.
  destruct (splice (data disk) (b * bs) buf) as [data'|] eqn:Hs;
    [|rewrite splice_Some in Hs by lia; done].
  cbn. rewrite i32_id by lia. eexists. split; [done|].
  pose proof (splice_length _ _ _ _ Hs) as Hlen'. split.
  { eexists. split; [done|]. cbn. repeat split; lia. }
  assert (forall b', disk_ok b' -> slice data' (b' * bs) bs =
            Some (take (Z.to_nat bs) (drop (Z.to_nat (b' * bs)) data'))) as Hsl.
  { intros b' Hb'. destruct (offset_ok b' Hb') as (_ & ? & ?). cbn.
    by rewrite slice_Some by lia. }
  split.
  - pose proof (slice_splice_same _ _ _ _ Hs) as H'. rewrite Hbuf in H'.
    specialize (Hsl b Hb). cbn. congruence.
  - intros b' Hb' Hne. specialize (Hsl b' Hb').
    rewrite (slice_splice_disjoint _ _ _ _ (b' * bs) bs Hs) in Hsl 
      by (rewrite Hbuf; destruct (decide (b' < b)); [left|right]; nia).
    rewrite (disk_slice disk) in Hsl by done. cbn in Hsl |- *. congruence.
Qed.

Lemma disk_read_fail d b buf :
  disk_inv d -> is_u32 b -> ~ disk_ok b ->
  ramdisk_read_block d b (Some buf) = Some (ERR_INVALID, Some buf).
Proof.
  intros (disk & -> & Hsz & Hbs & Hlen) [Hb0 Hb1] Hno. unfold ramdisk_read_block, disk_ok in *.
  rewrite Hbs, Hsz, u64_id by (red; nia). case_match; [done|nia].
Qed.

#[export, refine] Instance ramdisk_driver : BlockDriver ramdisk_block_ops bs :=
  {| dev_inv := disk_inv; dev_ok := disk_ok; dev_block := disk_block |}.
Proof.
  - apply disk_block_len.
  - intros d b buf Hi Hb Hl. do 3 eexists. split; [done|]. cbn.
    rewrite disk_read by done. cbn. split; [done|]. split; [lia|]. by split.
  - intros d b buf Hi Hb Hl. destruct (disk_write d b buf Hi Hb Hl) as (d' & E & ? & ? & ?).
    do 3 eexists. split; [done|]. cbn. rewrite E. cbn. split; [done|]. split; [lia|]. by split.
  - intros d b buf Hi Hb Hno. do 2 eexists. split; [done|]. cbn.
    rewrite disk_read_fail by done. cbn. split; [done|]. unfold_errs. lia.
Defined.

End laws.

(** writing a block of the RAM disk succeeds; reading that block then gives
    back the written bytes, and reading any other block what it held before. *)
Theorem ramdisk_write_read nblocks bs d b buf out :
  0 < nblocks < 4294967296 -> 0 < bs < 2147483648 ->
  disk_inv nblocks bs d -> disk_ok nblocks b -> lenZ buf = bs -> lenZ out = bs ->
  exists d', ramdisk_write_block d b (Some buf) = Some (bs, d') /\
    ramdisk_read_block d' b (Some out) = Some (bs, Some buf) /\
    (forall b', disk_ok nblocks b' -> b' <> b ->
       ramdisk_read_block d' b' (Some out) = ramdisk_read_block d b' (Some out)).
Proof.
  intros Hn Hbs Hinv Hb Hbuf Hout.
  destruct (disk_write _ _ Hn Hbs d b buf Hinv Hb Hbuf) as (d' & E & Hinv' & Hsame & Hother).
  exists d'. split; [done|]. split.
  - rewrite (disk_read nblocks bs) by done. by rewrite Hsame.
  - intros b' Hb' Hne. rewrite !(disk_read nblocks bs) by done. by rewrite Hother.
Qed.

Lemma ramdisk_write_read_witness :
  exists d', ramdisk_write_block (Some (RamDisk 4 [1; 2; 3; 4] 2)) 1 (Some [7; 8]) = Some (2, d') /\
    ramdisk_read_block d' 1 (Some [0; 0]) = Some (2, Some [7; 8]) /\
    ramdisk_read_block d' 0 (Some [0; 0]) = Some (2, Some [1; 2]).
Proof.
  destruct (ramdisk_write_read 2 2 (Some (RamDisk 4 [1; 2; 3; 4] 2)) 1 [7; 8] [0; 0]) as (d' & Hw & Hr & Ho);
    [lia|lia|by eexists|split; lia|done|done|].
  exists d'. split; [done|]. split; [done|]. rewrite Ho; [done|split; lia|lia].
Defined.

(** whatever the state of the 1 MB heap, [ramdisk_init] fails: the disk it
    asks [malloc] for is 16 MB, so no RAM disk is ever created or registered. *)
Theorem ramdisk_init_fails {O A} heap_pos g (reg : registry O A) o f nm :
  heap_wf heap_pos ->
  exists heap_pos', ramdisk_init heap_pos g reg o f nm = Some (g, reg, heap_pos').
Proof.
  intros Hwf. unfold ramdisk_init.
  destruct (malloc_cases heap_pos sizeof_ramdisk Hwf) as [[-> _]|(hp1 & -> & _ & Hwf1)];
    [unfold size_ok, sizeof_ramdisk, HEAP_SIZE; lia|by eexists|].
  destruct (malloc_cases hp1 (16 * 1024 * 1024) Hwf1) as [[-> _]|(hp2 & E & ? & Hwf2)];
    [unfold size_ok, HEAP_SIZE; lia|by eexists|].
  unfold heap_wf, HEAP_SIZE in *. lia.
Qed.

Lemma ramdisk_init_fails_witness : exists heap_pos',
  ramdisk_init 4096 None (Registry [] 1) tt (fun _ => tt) [114; 0] = Some (None, Registry [] 1, heap_pos').
Proof. apply (ramdisk_init_fails 4096 None (Registry [] 1) tt (fun _ => tt) [114; 0]). split; done. Defined.

(** the operation table [ramdisk_ops], laid out by [device.c], read through
    the adapter's own declaration has [NULL] in the slot of [read_block]: every
    read and write of the adapter on a RAM disk returns [ERR_INVALID]. *)
Theorem ramdisk_wrapper_mismatch disk b buf :
  let dv := Some (Wrapper.Device (Some disk) (Some (Wrapper.wrapper_view ramdisk_ops))) in
  Wrapper.block_device_wrapper_read dv b buf = Some (dv, ERR_INVALID, buf) /\
  Wrapper.block_device_wrapper_write dv b buf = Some (dv, ERR_INVALID).
Proof. done. Qed.

End RamdiskProofs.
