(* ===== verification/BlockCache.v ===== *)
(** * The block cache: [src/fs/block_cache.c], [src/include/block_cache.h]

    A cache is the array of its entries with the head and tail of the LRU list;
    an entry pointer is the index of the entry, [None] for [NULL].  [now] is the
    global [system_time].  Every function is total up to undefined behaviour
    ([None]): an index or a copy outside an object. *)
From S2P Require Import Prelude KernelLib BlockDev.
Import Memory.

Definition BLOCK_CACHE_SIZE : nat := 256.

Record block_cache_entry := Entry {
  block_num : Z;
  data : bytes;
  dirty : bool;
  valid : bool;
  last_access : Z;
  next : option nat;
  prev : option nat
}.

Definition set_next (p : option nat) (e : block_cache_entry) : block_cache_entry :=
  Entry (block_num e) (data e) (dirty e) (valid e) (last_access e) p (prev e).
Definition set_prev (p : option nat) (e : block_cache_entry) : block_cache_entry :=
  Entry (block_num e) (data e) (dirty e) (valid e) (last_access e) (next e) p.
Definition set_dirty (b : bool) (e : block_cache_entry) : block_cache_entry :=
  Entry (block_num e) (data e) b (valid e) (last_access e) (next e) (prev e).
Definition set_valid (b : bool) (e : block_cache_entry) : block_cache_entry :=
  Entry (block_num e) (data e) (dirty e) b (last_access e) (next e) (prev e).
Definition set_block_num (n : Z) (e : block_cache_entry) : block_cache_entry :=
  Entry n (data e) (dirty e) (valid e) (last_access e) (next e) (prev e).
Definition set_data (d : bytes) (e : block_cache_entry) : block_cache_entry :=
  Entry (block_num e) d (dirty e) (valid e) (last_access e) (next e) (prev e).
Definition set_last_access (t : Z) (e : block_cache_entry) : block_cache_entry :=
  Entry (block_num e) (data e) (dirty e) (valid e) t (next e) (prev e).

Section cache.
Context {D : Type}.

Record block_cache := Cache {
  entries : list block_cache_entry;
  lru_head : option nat;
  lru_tail : option nat;
  bdev : option (block_device D);
  hits : Z;
  misses : Z;
  block_size : Z
}.

Definition upd (c : block_cache) (i : nat) (f : block_cache_entry -> block_cache_entry)
  : block_cache :=
  Cache (alter f i (entries c)) (lru_head c) (lru_tail c) (bdev c) (hits c) (misses c)
    (block_size c).
Definition set_head (c : block_cache) (p : option nat) : block_cache :=
  Cache (entries c) p (lru_tail c) (bdev c) (hits c) (misses c) (block_size c).
Definition set_tail (c : block_cache) (p : option nat) : block_cache :=
  Cache (entries c) (lru_head c) p (bdev c) (hits c) (misses c) (block_size c).
Definition set_device (c : block_cache) (bd : block_device D) (d : D) : block_cache :=
  Cache (entries c) (lru_head c) (lru_tail c) (Some (BlockDevice d (bd_ops bd)))
    (hits c) (misses c) (block_size c).
Definition add_hit (c : block_cache) : block_cache :=
  Cache (entries c) (lru_head c) (lru_tail c) (bdev c) (u64 (hits c + 1)) (misses c)
    (block_size c).
Definition add_miss (c : block_cache) : block_cache :=
  Cache (entries c) (lru_head c) (lru_tail c) (bdev c) (hits c) (u64 (misses c + 1))
    (block_size c).

(** ** The LRU list *)
Definition lru_remove (c : block_cache) (i : nat) : option block_cache :=
  e ← entries c !! i;
  let c := match prev e with
           | Some p => upd c p (set_next (next e))
           | None => set_head c (next e)
           end in
  e ← entries c !! i;
  let c := match next e with
           | Some n => upd c n (set_prev (prev e))
           | None => set_tail c (prev e)
           end in
  Some (upd (upd c i (set_prev None)) i (set_next None)).

Definition lru_add_front (c : block_cache) (i : nat) : block_cache :=
  let c := upd c i (set_prev None) in
  let c := upd c i (set_next (lru_head c)) in
  let c := match lru_head c with
           | Some h => upd c h (set_prev (Some i))
           | None => set_tail c (Some i)
           end in
  set_head c (Some i).

(** ** Lookups *)
Definition cache_find (c : block_cache) (n : Z) : option nat :=
  fst <$> list_find (fun e => valid e = true /\ block_num e = n) (entries c).

Definition cache_find_lru (c : block_cache) : option nat := lru_tail c.

Definition first_invalid (c : block_cache) : option nat :=
  fst <$> list_find (fun e => valid e = false) (entries c).

(** The entry to reuse on a miss: the LRU tail, else the first invalid entry. *)
Definition victim (c : block_cache) : option nat :=
  match cache_find_lru c with Some i => Some i | None => first_invalid c end.

(** ** Device access *)
Definition get_device_ops (bd : option (block_device D)) : option (block_device_ops D) :=
  bd ≫= bd_ops.

Definition cache_flush_entry (c : block_cache) (i : nat) : option (block_cache * Z) :=
  e ← entries c !! i;
  if negb (dirty e) || negb (valid e) then Some (c, ERR_SUCCESS)
  else
    match bdev c, get_device_ops (bdev c) ≫= write_block with
    | Some bd, Some wr =>
        '(d, result) ← wr (device_data bd) (block_num e) (data e);
        let c := set_device c bd d in
        Some (if 0 <=? result then upd c i (set_dirty false) else c, result)
    | _, _ => Some (c, ERR_INVALID)
    end.

(** [sizeof(block_cache_t)]: 256 entries of 48 bytes, and six words. *)
Definition sizeof_block_cache : Z := 12336.

Definition fresh_entry (size : Z) : block_cache_entry :=
  Entry 0 (replicate (Z.to_nat size) 0) false false 0 None None.

(** The loop that allocates the buffers of [n] entries. *)
Fixpoint alloc_entries (n : nat) (heap_pos size : Z) : option (list block_cache_entry) * Z :=
  match n with
  | O => (Some [], heap_pos)
  | S n' =>
      let '(p, heap_pos) := malloc heap_pos size in
      match p with
      | None => (None, heap_pos)
      | Some _ =>
          let '(es, heap_pos) := alloc_entries n' heap_pos size in
          (cons (fresh_entry size) <$> es, heap_pos)
      end
  end.

Definition block_cache_create (heap_pos : Z) (bd : option (block_device D)) (size : Z)
  : option block_cache * Z :=
  let '(cache, heap_pos) := malloc heap_pos sizeof_block_cache in
  match cache with
  | None => (None, heap_pos)
  | Some _ =>
      let '(es, heap_pos) := alloc_entries BLOCK_CACHE_SIZE heap_pos size in
      match es with
      | None => (None, heap_pos)
      | Some es => (Some (Cache es None None bd 0 0 size), heap_pos)
      end
  end.

(** ** Reading through the cache *)
Definition evict (c : block_cache) (i : nat) : option block_cache :=
  e ← entries c !! i;
  c ← (if valid e && dirty e then '(c, _) ← cache_flush_entry c i; Some c else Some c);
  e ← entries c !! i;
  if valid e then lru_remove c i else Some c.

Definition cache_read_hit (now : Z) (c : block_cache) (i : nat) (buffer : bytes)
  : option (block_cache * Z * bytes) :=
  let c := add_hit c in
  e ← entries c !! i;
  buffer ← memcpy buffer 0 (data e) 0 (block_size c);
  let c := upd c i (set_last_access now) in
  c ← lru_remove c i;
  let c := lru_add_front c i in
  Some (c, i32 (block_size c), buffer).

Definition cache_read_miss (now : Z) (c : block_cache) (n : Z) (buffer : bytes)
  : option (block_cache * Z * bytes) :=
  let c := add_miss c in
  match victim c with
  | None => Some (c, ERR_BUSY, buffer)
  | Some i =>
      c ← evict c i;
      match bdev c, get_device_ops (bdev c) ≫= read_block with
      | Some bd, Some rd =>
          e ← entries c !! i;
          '(d, result, buf) ← rd (device_data bd) n (data e);
          let c := upd (set_device c bd d) i (set_data buf) in
          if result <? 0 then Some (c, result, buffer)
          else
            let c := upd c i (fun e => set_last_access now
                       (set_dirty false (set_valid true (set_block_num n e)))) in
            let c := lru_add_front c i in
            e ← entries c !! i;
            buffer ← memcpy buffer 0 (data e) 0 (block_size c);
            Some (c, i32 (block_size c), buffer)
      | _, _ => Some (c, ERR_INVALID, buffer)
      end
  end.

Definition cache_read (now : Z) (c : block_cache) (n : Z) (buffer : bytes)
  : option (block_cache * Z * bytes) :=
  match cache_find c n with
  | Some i => cache_read_hit now c i buffer
  | None => cache_read_miss now c n buffer
  end.

(** ** Writing through the cache *)
(** The common tail of a write: copy into entry [i], mark it, put it in front. *)
Definition cache_write_entry (now : Z) (c : block_cache) (i : nat) (buffer : bytes)
  : option (block_cache * Z) :=
  e ← entries c !! i;
  d ← memcpy (data e) 0 buffer 0 (block_size c);
  let c := upd c i (fun e => set_last_access now (set_dirty true (set_data d e))) in
  let c := lru_add_front c i in
  Some (c, i32 (block_size c)).

Definition cache_write (now : Z) (c : block_cache) (n : Z) (buffer : bytes)
  : option (block_cache * Z) :=
  match cache_find c n with
  | Some i => c ← lru_remove c i; cache_write_entry now c i buffer
  | None =>
      match victim c with
      | None => Some (c, ERR_BUSY)
      | Some i =>
          c ← evict c i;
          cache_write_entry now (upd c i (fun e => set_valid true (set_block_num n e))) i buffer
      end
  end.

(** ** Flushing, invalidating, statistics *)
Fixpoint flush_loop (idxs : list nat) (c : block_cache) (errors : Z)
  : option (block_cache * Z) :=
  match idxs with
  | [] => Some (c, errors)
  | i :: idxs' =>
      e ← entries c !! i;
      if valid e && dirty e then
        '(c, r) ← cache_flush_entry c i;
        flush_loop idxs' c (if r <? 0 then errors + 1 else errors)
      else flush_loop idxs' c errors
  end.

Definition cache_flush (c : block_cache) : option (block_cache * Z) :=
  '(c, errors) ← flush_loop (seq 0 BLOCK_CACHE_SIZE) c 0;
  Some (c, if 0 <? errors then ERR_INVALID else ERR_SUCCESS).

Definition cache_invalidate (c : block_cache) (n : Z) : option (block_cache * Z) :=
  match cache_find c n with
  | Some i =>
      e ← entries c !! i;
      c ← (if dirty e then '(c, _) ← cache_flush_entry c i; Some c else Some c);
      c ← lru_remove c i;
      Some (upd c i (set_valid false), ERR_SUCCESS)
  | None => Some (c, ERR_SUCCESS)
  end.

(** ** The exported functions, with their [NULL] guards *)
Definition block_cache_read (now : Z) (cache : option block_cache) (n : Z)
    (buffer : option bytes) : option (option block_cache * Z * option bytes) :=
  match cache, buffer with
  | Some c, Some buf => '(c, r, buf) ← cache_read now c n buf; Some (Some c, r, Some buf)
  | _, _ => Some (cache, ERR_INVALID, buffer)
  end.

Definition block_cache_write (now : Z) (cache : option block_cache) (n : Z)
    (buffer : option bytes) : option (option block_cache * Z) :=
  match cache, buffer with
  | Some c, Some buf => '(c, r) ← cache_write now c n buf; Some (Some c, r)
  | _, _ => Some (cache, ERR_INVALID)
  end.

Definition block_cache_flush (cache : option block_cache) : option (option block_cache * Z) :=
  match cache with
  | Some c => '(c, r) ← cache_flush c; Some (Some c, r)
  | None => Some (cache, ERR_INVALID)
  end.

Definition block_cache_invalidate (cache : option block_cache) (n : Z)
  : option (option block_cache * Z) :=
  match cache with
  | Some c => '(c, r) ← cache_invalidate c n; Some (Some c, r)
  | None => Some (cache, ERR_INVALID)
  end.

Definition block_cache_stats (cache : option block_cache) : option (Z * Z) :=
  c ← cache; Some (hits c, misses c).

(** Destroying the cache flushes it; what remains is the device. *)
Definition block_cache_destroy (heap_pos : Z) (cache : option block_cache)
  : option (option (block_device D) * Z) :=
  match cache with
  | None => Some (None, heap_pos)
  | Some c =>
      '(c, _) ← cache_flush c;
      Some (bdev c, free heap_pos None)
  end.

(** ** Sequences of calls *)
Inductive cache_op :=
  | OpRead (n : Z) (buffer : bytes)
  | OpWrite (n : Z) (buffer : bytes)
  | OpFlush
  | OpInvalidate (n : Z).

(** One call: the new cache, the result, and the bytes a read left in the
    caller's buffer. *)
Definition cache_step (now : Z) (c : block_cache) (op : cache_op)
  : option (block_cache * (Z * bytes)) :=
  match op with
  | OpRead n buf => '(c, r, buf) ← cache_read now c n buf; Some (c, (r, buf))
  | OpWrite n buf => '(c, r) ← cache_write now c n buf; Some (c, (r, []))
  | OpFlush => '(c, r) ← cache_flush c; Some (c, (r, []))
  | OpInvalidate n => '(c, r) ← cache_invalidate c n; Some (c, (r, []))
  end.

Fixpoint cache_run (c : block_cache) (ops : list (Z * cache_op))
  : option (block_cache * list (Z * bytes)) :=
  match ops with
  | [] => Some (c, [])
  | (now, op) :: ops' =>
      '(c, out) ← cache_step now c op;
      '(c, outs) ← cache_run c ops';
      Some (c, out :: outs)
  end.

End cache.
Arguments block_cache : clear implicits.
