(* ===== verification/BlockCacheProofs.v ===== *)
(** * Correctness of the block cache

    The LRU list operations on lists of any length; the states the exported
    functions reach; and the refinement of the cache over any driver that keeps
    the [BlockDriver] contract to a plain array of blocks. *)
From S2P Require Import Prelude KernelLib BlockDev BlockCache.
Import Memory.

Lemma alter_id {A} (f : A -> A) (i : nat) (l : list A) :
  (forall x, l !! i = Some x -> f x = x) -> alter f i l = l.
Proof.
  intros H. apply list_eq. intros j. destruct (decide (i = j)) as [<-|Hne].
  - rewrite list_lookup_alter_eq. destruct (l !! i) as [x|] eqn:E; [|done].
    simpl. f_equal. by apply H.
  - by rewrite list_lookup_alter_ne.
Qed.

Lemma alter_insert {A} (f : A -> A) (i : nat) (l : list A) x :
  l !! i = Some x -> alter f i l = <[i := f x]> l.
Proof.
  intros H. apply list_eq. intros j. destruct (decide (i = j)) as [<-|Hne].
  - rewrite list_lookup_alter_eq, H, list_lookup_insert_eq by (by eapply lookup_lt_Some). done.
  - by rewrite list_lookup_alter_ne, list_lookup_insert_ne by done.
Qed.
Lemma alter_alter_insert {A} (f g : A -> A) (i : nat) (l : list A) x :
  l !! i = Some x -> alter f i (alter g i l) = <[i := f (g x)]> l.
Proof.
  intros Hx. rewrite (alter_insert _ _ _ (g x)) by by rewrite list_lookup_alter_eq, Hx.
  by rewrite (alter_insert g _ _ x), list_insert_insert_eq by done.
Qed.

(** ** The LRU list, for lists of any length *)
Module Lru.
Section lru.
Context {D : Type}.
Implicit Types (c : block_cache D) (l : list nat) (i : nat).

(** The entries [l], in order, are linked through [next] and [prev], from
    [lru_head] to [lru_tail]. *)
Record dll c l : Prop := {
  dll_nodup : NoDup l;
  dll_head : lru_head c = list.head l;
  dll_tail : lru_tail c = list.last l;
  dll_links k i : l !! k = Some i ->
    exists e, entries c !! i = Some e /\ next e = l !! S k /\
      prev e = match k with O => None | S k' => l !! k' end
}.

(** Everything of the cache but the links. *)
Definition same_payload c c' : Prop :=
  bdev c' = bdev c /\ hits c' = hits c /\ misses c' = misses c /\
  block_size c' = block_size c /\ length (entries c') = length (entries c) /\
  forall i e', entries c' !! i = Some e' ->
    exists e, entries c !! i = Some e /\ set_prev None (set_next None e') = set_prev None (set_next None e).

Lemma same_payload_refl c : same_payload c c.
Proof. repeat split; eauto. Qed.

Lemma same_payload_trans c1 c2 c3 :
  same_payload c1 c2 -> same_payload c2 c3 -> same_payload c1 c3.
Proof.
  intros (?&?&?&?&?&H12) (?&?&?&?&?&H23). repeat split; try congruence.
  intros i e3 E3. destruct (H23 _ _ E3) as (e2 & E2 & ?). destruct (H12 _ _ E2) as (e1 & E1 & ?).
  exists e1. split; [done|congruence].
Qed.

Lemma same_payload_upd c c' i f :
  same_payload c c' ->
  (forall e, set_prev None (set_next None (f e)) = set_prev None (set_next None e)) ->
  same_payload c (upd c' i f).
Proof.
  intros Hc Hf. apply same_payload_trans with c'; [done|].
  repeat split; cbn; [by rewrite length_alter|].
  intros j e'. destruct (decide (i = j)) as [<-|Hne].
  - rewrite list_lookup_alter_eq. intros (e & -> & ?)%fmap_Some. subst. eauto.
  - rewrite list_lookup_alter_ne by done. eauto.
Qed.

Lemma same_payload_set_head c c' p : same_payload c c' -> same_payload c (set_head c' p).
Proof. done. Qed.
Lemma same_payload_set_tail c c' p : same_payload c c' -> same_payload c (set_tail c' p).
Proof. done. Qed.

#[local] Hint Resolve same_payload_refl same_payload_upd same_payload_set_head
  same_payload_set_tail : kernel.

Lemma lru_add_front_payload c i : same_payload c (lru_add_front c i).
Proof.
  unfold lru_add_front. apply same_payload_set_head. case_match; auto with kernel.
Qed.

Lemma lru_remove_payload c i c' : lru_remove c i = Some c' -> same_payload c c'.
Proof.
  unfold lru_remove. intros H. repeat (case_match || simplify_option_eq); auto 8 with kernel.
Qed.

(** [lru_add_front] on an entry that is not in the list puts it in front. *)
Lemma lru_add_front_dll c l i :
  dll c l -> i ∉ l -> (i < length (entries c))%nat ->
  dll (lru_add_front c i) (i :: l).
Proof.
  intros [Hnd Hh Ht Hl] Hi Hlt. destruct (lookup_lt_is_Some_2 _ _ Hlt) as [e Ee].
  split.
  - by constructor.
  - done.
  - unfold lru_add_front. cbn. rewrite Hh. destruct l as [|h l]; [done|]. cbn.
    by rewrite Ht.
  - intros [|k] j Hj; cbn in Hj.
    + injection Hj as <-. unfold lru_add_front. cbn. rewrite Hh.
      destruct l as [|h l]; cbn.
      * rewrite !list_lookup_alter_eq, Ee. eexists; split; [done|]. by rewrite ?Hh.
      * rewrite list_lookup_alter_ne by set_solver. rewrite !list_lookup_alter_eq, Ee.
        eexists; split; [done|]. by rewrite ?Hh.
    + assert (j <> i) by (intros ->; apply Hi; by eapply list_elem_of_lookup_2).
      destruct (Hl k j Hj) as (f & Ef & Hn & Hp). unfold lru_add_front. cbn. rewrite Hh.
      destruct l as [|h l]; [done|]. cbn.
      destruct k as [|k]; cbn in Hj.
      * injection Hj as <-. rewrite list_lookup_alter_eq, !list_lookup_alter_ne, Ef by done.
        eexists; split; [done|]. done.
      * assert (j <> h).
        { intros ->. inversion Hnd; subst. by apply list_elem_of_lookup_2 in Hj. }
        rewrite !list_lookup_alter_ne by done. rewrite Ef. eexists; split; [done|]. done.
Qed.

(** What unlinking [e] does to another entry [f], at index [j]. *)
Definition relink e (j : nat) f : block_cache_entry :=
  let f := if decide (prev e = Some j) then set_next (next e) f else f in
  if decide (next e = Some j) then set_prev (prev e) f else f.

Lemma next_relink e j f : next (relink e j f) = if decide (prev e = Some j) then next e else next f.
Proof. unfold relink. by repeat case_decide. Qed.
Lemma prev_relink e j f : prev (relink e j f) = if decide (next e = Some j) then prev e else prev f.
Proof. unfold relink. by repeat case_decide. Qed.

Lemma lookup_alter_if {A} (f : A -> A) (q j : nat) (l : list A) :
  alter f q l !! j = (fun x => if decide (Some q = Some j) then f x else x) <$> l !! j.
Proof.
  destruct (decide (q = j)) as [<-|?].
  - rewrite list_lookup_alter_eq. destruct (l !! q); [|done].
    cbn [fmap option_fmap option_map]. by rewrite decide_True.
  - rewrite list_lookup_alter_ne by done. destruct (l !! j); [|done].
    cbn [fmap option_fmap option_map]. by rewrite decide_False by congruence.
Qed.

(** The effect of [lru_remove] on each entry. *)
Lemma lru_remove_effect c i e :
  entries c !! i = Some e -> prev e <> Some i -> next e <> Some i ->
  exists c', lru_remove c i = Some c' /\
    lru_head c' = match prev e with None => next e | Some _ => lru_head c end /\
    lru_tail c' = match next e with None => prev e | Some _ => lru_tail c end /\
    (forall j, j <> i -> entries c' !! j = relink e j <$> entries c !! j) /\
    entries c' !! i = Some (set_next None (set_prev None e)).
Proof.
  intros Ee Hp Hn. unfold lru_remove. rewrite Ee. cbn [mbind option_bind].
  assert (entries (match prev e with
                   | Some p => upd c p (set_next (next e))
                   | None => set_head c (next e) end) !! i = Some e) as ->.
  { destruct (prev e); [|done]. cbn. by rewrite list_lookup_alter_ne by congruence. }
  cbn [mbind option_bind]. eexists. split; [done|]. split; [|split; [|split]].
  - cbn. destruct (next e), (prev e); done.
  - cbn. destruct (next e), (prev e); done.
  - intros j Hj. cbn [upd entries]. rewrite !list_lookup_alter_ne by done. unfold relink.
    destruct (prev e) as [p|], (next e) as [n|]; cbn [upd set_head set_tail entries];
      rewrite ?lookup_alter_if; destruct (entries c !! j);
      cbn [fmap option_fmap option_map]; by repeat case_decide.
  - cbn. rewrite !list_lookup_alter_eq. destruct (next e) as [n|], (prev e) as [p|]; cbn;
      rewrite ?list_lookup_alter_ne, ?Ee by congruence; done.
Qed.

Lemma lookup_middle {A} (l1 l2 : list A) x m :
  (l1 ++ l2) !! m = (l1 ++ x :: l2) !! (if decide (m < length l1)%nat then m else S m).
Proof.
  case_decide.
  - by rewrite !lookup_app_l.
  - rewrite !lookup_app_r by lia. by replace (S m - length l1)%nat with (S (m - length l1)) by lia.
Qed.

(** The links around a removed element, position by position. *)
Lemma dll_middle c l1 i l2 e :
  dll c (l1 ++ i :: l2) -> entries c !! i = Some e ->
  next e = list.head l2 /\ prev e = list.last l1 /\
  forall m j f, (l1 ++ l2) !! m = Some j -> entries c !! j = Some f ->
    j <> i /\ next (relink e j f) = (l1 ++ l2) !! S m /\
    prev (relink e j f) = match m with O => None | S k => (l1 ++ l2) !! k end.
Proof.
  intros [Hnd Hh Ht Hl] Ee.
  assert (Hmid : (l1 ++ i :: l2) !! length l1 = Some i) by by apply list_lookup_middle.
  destruct (Hl (length l1) i Hmid) as (e' & Ee' & Hn & Hp). simplify_eq.
  assert (forall j k m, (l1 ++ i :: l2) !! k = Some j -> (l1 ++ i :: l2) !! m = Some j -> k = m) as Huniq
    by (intros; by eapply NoDup_lookup).
  split; [rewrite Hn, lookup_app_r by lia;
          replace (S (length l1) - length l1)%nat with 1%nat by lia; by destruct l2|].
  split.
  { rewrite Hp, last_lookup. destruct l1 as [|x l1']; [done|]. cbn [length Nat.pred].
    by rewrite lookup_app_l by (cbn; lia). }
  intros m j f Hm Ef. rewrite next_relink, prev_relink.
  rewrite (lookup_middle l1 l2 i) in Hm. rewrite (lookup_middle l1 l2 i (S m)).
  remember (if decide (m < length l1)%nat then m else S m) as m' eqn:Em'.
  destruct (Hl m' j Hm) as (f' & Ef' & Hnf & Hpf). assert (f' = f) as -> by congruence.
  assert (m' <> length l1) as Hm' by (subst m'; case_decide; lia).
  split; [intros ->; by apply Hm', (Huniq i)|]. split.
  - assert ((prev e = Some j) <-> S m' = length l1) as HS.
    { rewrite Hp. destruct (length l1) as [|k] eqn:E; [split; [done|lia]|].
      split; [intros Hk; f_equal; eauto|by intros [= <-]]. }
    destruct (decide (prev e = Some j)) as [E1|E1]; rewrite HS in E1; subst m';
      [rewrite Hn|rewrite Hnf]; repeat case_decide; try lia; f_equal; lia.
  - assert ((next e = Some j) <-> m' = S (length l1)) as HS.
    { rewrite Hn. split; [eauto|by intros <-]. }
    destruct (decide (next e = Some j)) as [E1|E1]; rewrite HS in E1; subst m'; [rewrite Hp|rewrite Hpf].
    + case_decide; [lia|]. replace m with (length l1) by lia.
      destruct (length l1) as [|k] eqn:E; [done|]. rewrite (lookup_middle l1 l2 i).
      rewrite E. case_decide; [done|lia].
    + destruct m as [|m]; [by case_decide; [|lia]|]. rewrite (lookup_middle l1 l2 i).
      repeat case_decide; try lia; f_equal; lia.
Qed.

(** [lru_remove] on an entry of the list takes it out and clears its links. *)
Lemma lru_remove_dll c l1 i l2 :
  dll c (l1 ++ i :: l2) ->
  exists c', lru_remove c i = Some c' /\ dll c' (l1 ++ l2) /\ i ∉ l1 ++ l2.
Proof.
  intros Hd. pose proof Hd as [Hnd Hh Ht Hl].
  destruct (Hl (length l1) i) as (e & Ee & _); [by apply list_lookup_middle|].
  destruct (dll_middle c l1 i l2 e Hd Ee) as (Hn & Hp & Hmid).
  apply (NoDup_Permutation_proper _ _ (Permutation_middle l1 l2 i)) in Hnd.
  apply list.NoDup_cons in Hnd as [Hi Hnd]. rewrite elem_of_app in Hi.
  destruct (lru_remove_effect c i e Ee) as (c' & Hc' & Hh' & Ht' & Hj & _).
  { rewrite Hp. intros ?%last_Some_elem_of. auto. }
  { rewrite Hn. destruct l2; [done|]. intros [= ->]. apply Hi. right. by left. }
  exists c'. split; [done|]. split; [|by rewrite elem_of_app]. split; [done|..].
  - rewrite Hh', Hh, Hn, Hp. destruct l1 as [|x l1']; [by destruct l2|].
    destruct (list.last (x :: l1')) eqn:E; [done|]. by apply last_None in E.
  - rewrite Ht', Ht, Hn, Hp. destruct l2 as [|y l2]; cbn [list.head]; [by rewrite app_nil_r|].
    by rewrite !last_app_cons, last_cons_cons.
  - intros m j Hm. pose proof Hm as Hm'. rewrite (lookup_middle l1 l2 i) in Hm'.
    destruct (Hl _ j Hm') as (f & Ef & _). destruct (Hmid m j f Hm Ef) as (Hne & ? & ?).
    rewrite (Hj j Hne), Ef. by eexists.
Qed.

(** moving an entry to the front, as every hit does.  If the entries [l1],
    [i], [l2] are doubly linked in this order from [lru_head] to [lru_tail], then
    [lru_remove] followed by [lru_add_front] succeeds, leaves [i], [l1], [l2]
    doubly linked, and changes nothing but the links. *)
Theorem lru_move_to_front c l1 i l2 :
  dll c (l1 ++ i :: l2) ->
  exists c1, lru_remove c i = Some c1 /\
    dll (lru_add_front c1 i) (i :: l1 ++ l2) /\ same_payload c (lru_add_front c1 i).
Proof.
  intros Hd. destruct (lru_remove_dll c l1 i l2 Hd) as (c1 & Hr & Hd1 & Hi).
  pose proof (lru_remove_payload _ _ _ Hr) as Hs. exists c1. split; [done|]. split.
  - apply lru_add_front_dll; [done|done|].
    destruct (dll_links _ _ Hd (length l1) i) as (e & Ee & _); [by apply list_lookup_middle|].
    destruct Hs as (_ & _ & _ & _ & -> & _). by eapply lookup_lt_Some.
  - eapply same_payload_trans; [done|apply lru_add_front_payload].
Qed.


End lru.

Lemma lru_move_to_front_witness :
  let e := Entry 0 [] false true 0 in
  let c := Cache [e (Some 1%nat) None; e (Some 2%nat) (Some 0%nat); e None (Some 1%nat)] (Some 0%nat) (Some 2%nat)
             (None : option (block_device unit)) 0 0 0 in
  exists c1, lru_remove c 2 = Some c1 /\ dll (lru_add_front c1 2) [2%nat; 0%nat; 1%nat].
Proof.
  intros e c. destruct (lru_move_to_front c [0%nat; 1%nat] 2 []) as (c1 & Hr & Hd & _).
  - split; [|done..|].
    + by apply (bool_decide_unpack (NoDup [0%nat; 1%nat; 2%nat])).
    + intros [|[|[|k]]] i; cbn; intros; simplify_eq; by eexists.
  - by exists c1.
Defined.

End Lru.

(** ** The reachable states

    [lru_small]: no entry is linked to another and the list has at most one
    element.  It holds of a new cache and every operation keeps it, whatever the
    device does: a miss always reuses the tail of a non-empty list, so the list
    never grows beyond the entry the first miss took. *)
Module Reach.
Section reach.
Context {D : Type}.
Implicit Types (c : block_cache D) (i : nat).

Record lru_small c : Prop := {
  ls_len : length (entries c) = BLOCK_CACHE_SIZE;
  ls_links i e : entries c !! i = Some e -> next e = None /\ prev e = None;
  ls_ends : lru_head c = lru_tail c;
  ls_valid i : lru_tail c = Some i -> exists e, entries c !! i = Some e /\ valid e = true
}.

(** [c] with the LRU list [p]. *)
Definition with_lru c (p : option nat) : block_cache D := set_tail (set_head c p) p.

Definition keeps_links (f : block_cache_entry -> block_cache_entry) : Prop :=
  forall e, next (f e) = next e /\ prev (f e) = prev e.

Lemma lru_small_upd_tail c i f :
  keeps_links f -> (lru_tail c = Some i -> forall e, valid e = true -> valid (f e) = true) ->
  lru_small c -> lru_small (upd c i f).
Proof.
  intros Hf Hv [Hlen Hl He Hr]. split; cbn; [by rewrite length_alter| |done|].
  - intros j e'. destruct (decide (i = j)) as [<-|Hne].
    + rewrite list_lookup_alter_eq. intros (e & Ee & ->)%fmap_Some.
      destruct (Hf e) as [-> ->]. by eapply Hl.
    + rewrite list_lookup_alter_ne by done. apply Hl.
  - intros j Hj. destruct (Hr j Hj) as (e & Ee & Hve). destruct (decide (i = j)) as [<-|Hne].
    + rewrite list_lookup_alter_eq, Ee. eexists; split; [done|]. by apply Hv.
    + rewrite list_lookup_alter_ne by done. eauto.
Qed.

Definition keeps (f : block_cache_entry -> block_cache_entry) : Prop :=
  keeps_links f /\ forall e, valid e = true -> valid (f e) = true.

Lemma lru_small_upd c i f : keeps f -> lru_small c -> lru_small (upd c i f).
Proof. intros [? ?]. apply lru_small_upd_tail; auto. Qed.

Lemma lru_small_device c bd d : lru_small c -> lru_small (set_device c bd d).
Proof. by intros []. Qed.
Lemma lru_small_hit c : lru_small c -> lru_small (add_hit c).
Proof. by intros []. Qed.
Lemma lru_small_miss c : lru_small c -> lru_small (add_miss c).
Proof. by intros []. Qed.

Lemma lru_remove_small c i :
  lru_small c -> (i < BLOCK_CACHE_SIZE)%nat -> lru_remove c i = Some (with_lru c None).
Proof.
  intros [Hlen Hl He Hr] Hi. destruct (lookup_lt_is_Some_2 (entries c) i) as [e Ee]; [lia|].
  destruct (Hl i e Ee) as [Hn Hp]. unfold lru_remove. rewrite Ee. cbn. rewrite Hp. cbn.
  rewrite Ee. cbn. rewrite Hn, Hp. unfold upd, with_lru, set_head, set_tail. cbn.
  rewrite !alter_id; [done| |]; intros x Hx; [|rewrite alter_id in Hx].
  - destruct (Hl _ _ Hx) as [? Hpx]. unfold set_prev. rewrite <- Hpx. by destruct x.
  - destruct (Hl _ _ Hx) as [Hnx ?]. unfold set_next. rewrite <- Hnx. by destruct x.
  - intros y Hy. destruct (Hl _ _ Hy) as [? Hpy]. unfold set_prev. rewrite <- Hpy. by destruct y.
Qed.

Lemma lru_add_front_small c i :
  lru_small c -> lru_head c = None -> lru_add_front c i = with_lru c (Some i).
Proof.
  intros [Hlen Hl He Hr] Hh. unfold lru_add_front. cbn. rewrite Hh. unfold with_lru, set_tail, set_head, upd. cbn.
  rewrite !alter_id; [done| |]; intros x Hx; [|rewrite alter_id in Hx].
  - destruct (Hl _ _ Hx) as [? Hpx]. unfold set_prev. rewrite <- Hpx. by destruct x.
  - destruct (Hl _ _ Hx) as [Hnx ?]. unfold set_next. rewrite <- Hnx. by destruct x.
  - intros y Hy. destruct (Hl _ _ Hy) as [? Hpy]. unfold set_prev. rewrite <- Hpy. by destruct y.
Qed.

Lemma lru_small_with_lru c p :
  lru_small c -> (forall i, p = Some i -> exists e, entries c !! i = Some e /\ valid e = true) ->
  lru_small (with_lru c p).
Proof. by intros []. Qed.

Lemma lookup_size c i e : lru_small c -> entries c !! i = Some e -> (i < BLOCK_CACHE_SIZE)%nat.
Proof. intros [<- _ _ _] H. by eapply lookup_lt_Some. Qed.

Lemma cache_find_lookup c n i :
  cache_find c n = Some i -> exists e, entries c !! i = Some e /\ valid e = true /\ block_num e = n.
Proof.
  unfold cache_find. intros ([j e] & Hf & ->)%fmap_Some.
  apply list_find_Some in Hf as (? & [? ?] & _). eauto.
Qed.

Lemma victim_size c i : lru_small c -> victim c = Some i -> (i < BLOCK_CACHE_SIZE)%nat.
Proof.
  intros Hs. unfold victim, cache_find_lru. case_match eqn:E; [intros; simplify_eq; destruct (ls_valid _ Hs i E) as (? & ? & _);
    by eapply lookup_size|].
  unfold first_invalid. intros ([j e] & Hf & ->)%fmap_Some.
  apply list_find_Some in Hf as (? & _). by eapply lookup_size.
Qed.

#[local] Hint Resolve lru_small_upd lru_small_device lru_small_hit lru_small_miss
  lru_small_with_lru lookup_size : kernel.
#[local] Hint Extern 1 (keeps _) => by split; intros [] : kernel.

Lemma cache_flush_entry_small c i c' r :
  lru_small c -> cache_flush_entry c i = Some (c', r) -> lru_small c'.
Proof.
  unfold cache_flush_entry. intros Hs H.
  repeat (case_match || simplify_option_eq || destruct_and?); auto with kernel.
Qed.

Lemma cache_flush_entry_frame c i c' r e :
  entries c !! i = Some e -> cache_flush_entry c i = Some (c', r) ->
  lru_tail c' = lru_tail c /\
  exists b, entries c' !! i = Some (set_dirty b e) /\
    forall j, j <> i -> entries c' !! j = entries c !! j.
Proof.
  intros Ee. unfold cache_flush_entry. rewrite Ee. cbn.
  assert (Some e = Some (set_dirty (dirty e) e)) as He by (by destruct e).
  case_match; [intros; simplify_eq; split; [done|]; exists (dirty e); split; congruence|].
  repeat case_match; intros; simplify_option_eq; repeat case_match; simplify_eq;
    (split; [done|]); try (exists (dirty e); split; [cbn; congruence|done]).
  exists false. cbn. rewrite list_lookup_alter_eq, Ee. split; [done|].
  intros. by rewrite list_lookup_alter_ne.
Qed.

(** Eviction empties the list when its victim is the tail, or finds it empty. *)
Lemma evict_small c i c' :
  lru_small c -> victim c = Some i -> evict c i = Some c' ->
  lru_small c' /\ lru_head c' = None.
Proof.
  intros Hs Hv. unfold evict. destruct (entries c !! i) as [e|] eqn:Ee; [|done]. cbn.
  assert (forall c1, lru_small c1 -> lru_tail c1 = lru_tail c ->
    (exists b, entries c1 !! i = Some (set_dirty b e)) ->
    (e ← entries c1 !! i; if valid e then lru_remove c1 i else Some c1) = Some c' ->
    lru_small c' /\ lru_head c' = None) as Hrest.
  { intros c1 Hs1 Ht1 [b Eb]. rewrite Eb. cbn. case_match eqn:Hve.
    - rewrite lru_remove_small by eauto with kernel.
      intros; simplify_eq. split; [|done]. by apply lru_small_with_lru.
    - intros; simplify_eq. split; [done|]. rewrite (ls_ends _ Hs1), Ht1.
      unfold victim, cache_find_lru in Hv. case_match eqn:E; [|done]. simplify_eq.
      destruct (ls_valid _ Hs i E) as (? & ? & ?). congruence. }
  case_match; cbn.
  - destruct (cache_flush_entry c i) as [[c1 r]|] eqn:Hf; [|done]. cbn.
    destruct (cache_flush_entry_frame _ _ _ _ _ Ee Hf) as (Ht & b & Eb & _).
    apply (Hrest c1); [by eapply cache_flush_entry_small|done|eauto].
  - apply (Hrest c); [done|done|]. exists (dirty e). rewrite Ee. by destruct e.
Qed.

Lemma lru_add_front_valid c i e :
  lru_small c -> lru_head c = None -> entries c !! i = Some e -> valid e = true ->
  lru_add_front c i = with_lru c (Some i) /\ lru_small (with_lru c (Some i)).
Proof.
  intros Hs Hh Ee Hv. rewrite lru_add_front_small by done. split; [done|].
  apply lru_small_with_lru; [done|]. intros ? [= <-]. eauto.
Qed.

Lemma cache_read_small now c n buf c' r buf' :
  lru_small c -> cache_read now c n buf = Some (c', r, buf') -> lru_small c'.
Proof.
  intros Hs. unfold cache_read. case_match eqn:Hf.
  - destruct (cache_find_lookup _ _ _ Hf) as (e & Ee & Hv & _).
    unfold cache_read_hit. cbn [add_hit entries]. rewrite Ee. cbn [mbind option_bind].
    destruct (memcpy _ _ _ _ _) as [buf1|]; [|done]. cbn [mbind option_bind].
    rewrite lru_remove_small by eauto with kernel. cbn [mbind option_bind].
    match goal with |- context [lru_add_front ?c1 ?i] =>
      destruct (lru_add_front_valid c1 i (set_last_access now e)) as [-> Hs'] end;
      [by apply lru_small_with_lru; auto with kernel|done| |done|by intros; simplify_eq].
    cbn. by rewrite list_lookup_alter_eq, Ee.
  - unfold cache_read_miss. case_match eqn:Hv; [|intros; simplify_eq; auto with kernel].
    destruct (evict _ _) as [c1|] eqn:He; [|done]. cbn [mbind option_bind].
    destruct (evict_small _ _ _ (lru_small_miss _ Hs) Hv He) as [Hs1 Hh1].
    repeat case_match; try (by intros; simplify_eq).
    destruct (entries c1 !! n0) as [e1|] eqn:Ee1; [|done]. cbn [mbind option_bind].
    destruct (o _ _ _) as [[[d r1] buf1]|]; [|done]. cbn [mbind option_bind].
    case_match; [intros; simplify_eq; auto with kernel|].
    match goal with |- context [lru_add_front ?c1 ?i] =>
      destruct (lru_add_front_valid c1 i (set_last_access now (set_dirty false
        (set_valid true (set_block_num n (set_data buf1 e1)))))) as [-> Hs'] end;
      [auto with kernel|done| |done|].
    { cbn. by rewrite !list_lookup_alter_eq, Ee1. }
    intros; repeat case_match; simplify_option_eq. done.
Qed.

Lemma cache_write_entry_small now c i buf c' r e :
  lru_small c -> lru_head c = None -> entries c !! i = Some e -> valid e = true ->
  cache_write_entry now c i buf = Some (c', r) -> lru_small c'.
Proof.
  intros Hs Hh Ee Hv. unfold cache_write_entry. rewrite Ee. cbn [mbind option_bind].
  destruct (memcpy _ _ _ _ _) as [d|]; [|done]. cbn [mbind option_bind].
  match goal with |- context [lru_add_front ?c1 ?i] =>
    destruct (lru_add_front_valid c1 i (set_last_access now (set_dirty true (set_data d e))))
      as [-> Hs'] end; [auto with kernel|done| |done|by intros; simplify_eq].
  cbn. by rewrite list_lookup_alter_eq, Ee.
Qed.

Lemma cache_write_small now c n buf c' r :
  lru_small c -> cache_write now c n buf = Some (c', r) -> lru_small c'.
Proof.
  intros Hs. unfold cache_write. case_match eqn:Hf.
  - destruct (cache_find_lookup _ _ _ Hf) as (e & Ee & Hv & _).
    rewrite lru_remove_small by eauto with kernel. cbn [mbind option_bind].
    eapply cache_write_entry_small; [by apply lru_small_with_lru|done|done|done].
  - case_match eqn:Hv; [|intros; by simplify_eq].
    destruct (evict _ _) as [c1|] eqn:He; [|done]. cbn [mbind option_bind].
    destruct (evict_small _ _ _ Hs Hv He) as [Hs1 Hh1].
    assert (exists e, entries c1 !! n0 = Some e) as [e Ee].
    { apply lookup_lt_is_Some_2. rewrite (ls_len _ Hs1). by apply (victim_size c). }
    eapply cache_write_entry_small; [by auto with kernel|done| |].
    { cbn. by rewrite list_lookup_alter_eq, Ee. }
    done.
Qed.

Lemma flush_loop_small idxs : forall c k c' k',
  lru_small c -> flush_loop idxs c k = Some (c', k') -> lru_small c'.
Proof.
  induction idxs as [|i idxs IH]; intros c k c' k' Hs; cbn [flush_loop]; [by intros; simplify_eq|].
  destruct (entries c !! i) as [e|]; [|done]. cbn [mbind option_bind].
  case_match; [|by apply IH].
  destruct (cache_flush_entry c i) as [[c1 r]|] eqn:Hf; [|done]. cbn [mbind option_bind].
  apply IH. by eapply cache_flush_entry_small.
Qed.

Lemma cache_flush_small c c' r :
  lru_small c -> cache_flush c = Some (c', r) -> lru_small c'.
Proof.
  intros Hs. unfold cache_flush. destruct (flush_loop _ _ _) as [[c1 k]|] eqn:Hf; [|done].
  cbn. intros; simplify_eq. by eapply flush_loop_small.
Qed.

Lemma cache_invalidate_small c n c' r :
  lru_small c -> cache_invalidate c n = Some (c', r) -> lru_small c'.
Proof.
  intros Hs. unfold cache_invalidate. case_match eqn:Hf; [|by intros; simplify_eq].
  destruct (cache_find_lookup _ _ _ Hf) as (e & Ee & _). rewrite Ee. cbn [mbind option_bind].
  assert (forall c1, lru_small c1 -> (c ← lru_remove c1 n0; Some (upd c n0 (set_valid false), ERR_SUCCESS))
            = Some (c', r) -> lru_small c') as Hrest.
  { intros c1 Hs1. rewrite lru_remove_small by eauto with kernel. cbn [mbind option_bind].
    intros; simplify_eq. apply lru_small_upd_tail; [by intros []|done|]. by apply lru_small_with_lru. }
  case_match; cbn [mbind option_bind]; [|by apply Hrest].
  destruct (cache_flush_entry c n0) as [[c1 r1]|] eqn:Hfl; [|done]. cbn [mbind option_bind].
  apply Hrest. by eapply cache_flush_entry_small.
Qed.

Lemma cache_step_small now c op c' out :
  lru_small c -> cache_step now c op = Some (c', out) -> lru_small c'.
Proof.
  intros Hs. destruct op; cbn [cache_step]; intros H.
  - destruct (cache_read _ _ _ _) as [[[c1 r] b]|] eqn:E; simplify_option_eq.
    by eapply cache_read_small.
  - destruct (cache_write _ _ _ _) as [[c1 r]|] eqn:E; simplify_option_eq.
    by eapply cache_write_small.
  - destruct (cache_flush _) as [[c1 r]|] eqn:E; simplify_option_eq. by eapply cache_flush_small.
  - destruct (cache_invalidate _ _) as [[c1 r]|] eqn:E; simplify_option_eq.
    by eapply cache_invalidate_small.
Qed.

Lemma cache_run_small ops : forall c c' outs,
  lru_small c -> cache_run c ops = Some (c', outs) -> lru_small c'.
Proof.
  induction ops as [|[now op] ops IH]; intros c c' outs Hs; cbn [cache_run]; [by intros; simplify_eq|].
  destruct (cache_step _ _ _) as [[c1 out]|] eqn:E; [|done]. cbn [mbind option_bind].
  destruct (cache_run c1 ops) as [[c2 outs2]|] eqn:E2; [|done]. cbn. intros; simplify_eq.
  eapply IH; [|done]. by eapply cache_step_small.
Qed.

Lemma alloc_entries_fresh n : forall heap_pos size es heap_pos',
  alloc_entries n heap_pos size = (Some es, heap_pos') -> es = replicate n (fresh_entry size).
Proof.
  induction n as [|n IH]; intros hp size es hp'; cbn [alloc_entries]; [by intros; simplify_eq|].
  destruct (malloc hp size) as [[p|] hp1]; [|done].
  destruct (alloc_entries n hp1 size) as [[es1|] hp2] eqn:E; [|done].
  cbn. intros; simplify_eq. f_equal. by eapply IH.
Qed.

Lemma block_cache_create_eq heap_pos (bd : option (block_device D)) size c heap_pos' :
  block_cache_create heap_pos bd size = (Some c, heap_pos') ->
  c = Cache (replicate BLOCK_CACHE_SIZE (fresh_entry size)) None None bd 0 0 size.
Proof.
  unfold block_cache_create. destruct (malloc _ _) as [[p|] hp1]; [|done].
  destruct (alloc_entries _ _ _) as [[es|] hp2] eqn:E; [|done]. intros; simplify_eq.
  by rewrite (alloc_entries_fresh _ _ _ _ _ E).
Qed.

Lemma create_small heap_pos (bd : option (block_device D)) size c heap_pos' :
  block_cache_create heap_pos bd size = (Some c, heap_pos') -> lru_small c.
Proof.
  intros ->%block_cache_create_eq. split; cbn -[replicate].
  - apply length_replicate.
  - intros i e [-> _]%lookup_replicate. done.
  - done.
  - done.
Qed.

(** in every state a sequence of calls reaches from a new cache, whatever
    the device does, the LRU list has at most one element: all [next] and [prev]
    pointers are [NULL] and [lru_head] and [lru_tail] are equal.  A miss thus
    reuses the same entry over and over while the other 255 stay unused. *)
Theorem cache_lru_never_grows heap_pos (bd : option (block_device D)) size c heap_pos' ops c' outs :
  block_cache_create heap_pos bd size = (Some c, heap_pos') ->
  cache_run c ops = Some (c', outs) ->
  lru_head c' = lru_tail c' /\
  (forall i e, entries c' !! i = Some e -> next e = None /\ prev e = None).
Proof.
  intros Hc Hr. apply create_small in Hc. apply cache_run_small in Hr; [|done].
  by destruct Hr.
Qed.

End reach.
End Reach.

(** ** Refinement to an array of blocks *)
Module Refine.
Import Reach.
Section refine.
Context {D : Type} (ops : block_device_ops D) (bs : Z) {drv : BlockDriver ops bs}.
Hypothesis bs_range : 0 < bs < 2147483648.
Implicit Types (c : block_cache D) (d : D) (b : Z) (e : block_cache_entry).

(** The contents the cache presents: the cached copy, else the device's. *)
Definition view c b : bytes :=
  match cache_find c b ≫= fun i => entries c !! i with
  | Some e => data e
  | None => match bdev c with Some bd => dev_block (device_data bd) b | None => [] end
  end.

(** The cache over a driver: only the LRU tail can be valid; it caches one of
    the device's blocks, and agrees with the device when it is clean. *)
Record cache_ok c : Prop := {
  co_small : lru_small c;
  co_bs : block_size c = bs;
  co_data i e : entries c !! i = Some e -> lenZ (data e) = bs;
  co_only i e : entries c !! i = Some e -> valid e = true -> lru_tail c = Some i;
  co_dev : exists d, bdev c = Some (BlockDevice d (Some ops)) /\ dev_inv d /\
    forall i e, entries c !! i = Some e -> valid e = true ->
      dev_ok (block_num e) /\ (dirty e = false -> data e = dev_block d (block_num e))
}.

Lemma cache_find_spec c b i e :
  cache_ok c -> entries c !! i = Some e -> valid e = true ->
  cache_find c b = if decide (block_num e = b) then Some i else None.
Proof.
  intros Hc Ee Hv. unfold cache_find. case_decide as Hb.
  - assert (list_find (fun e => valid e = true /\ block_num e = b) (entries c) = Some (i, e)) as ->; [|done].
    apply list_find_Some. split; [done|]. split; [done|].
    intros j f Hj Hlt [Hvf _].
    pose proof (co_only _ Hc _ _ Ee Hv). pose proof (co_only _ Hc _ _ Hj Hvf). simplify_eq. lia.
  - destruct (list_find _ _) as [[j f]|] eqn:E; [|done]. exfalso.
    apply list_find_Some in E as (Hj & [Hvf Hbf] & _).
    pose proof (co_only _ Hc _ _ Ee Hv). pose proof (co_only _ Hc _ _ Hj Hvf). simplify_eq.
Qed.

Lemma cache_find_none c b : lru_tail c = None -> cache_ok c -> cache_find c b = None.
Proof.
  intros Ht Hc. destruct (cache_find c b) as [i|] eqn:E; [|done].
  destruct (cache_find_lookup _ _ _ E) as (e & Ee & Hv & _).
  pose proof (co_only _ Hc _ _ Ee Hv). congruence.
Qed.

(** The view in terms of the valid entry, if there is one. *)
Lemma view_valid c b i e d o :
  cache_ok c -> entries c !! i = Some e -> valid e = true -> bdev c = Some (BlockDevice d o) ->
  view c b = if decide (block_num e = b) then data e else dev_block d b.
Proof.
  intros Hc Ee Hv Hd. unfold view. rewrite (cache_find_spec c b i e) by done.
  case_decide; cbn; [by rewrite Ee|by rewrite Hd].
Qed.

Lemma view_empty c b d o :
  cache_ok c -> lru_tail c = None -> bdev c = Some (BlockDevice d o) -> view c b = dev_block d b.
Proof. intros Hc Ht Hd. unfold view. by rewrite cache_find_none, Hd. Qed.

(** A cache whose only possibly valid entry is [i]. *)
Lemma cache_ok_intro es i e d h m :
  length es = BLOCK_CACHE_SIZE -> es !! i = Some e -> valid e = true ->
  (forall j f, es !! j = Some f -> next f = None /\ prev f = None /\ lenZ (data f) = bs /\
     (j <> i -> valid f = false)) ->
  dev_inv d -> dev_ok (block_num e) ->
  (dirty e = false -> data e = dev_block d (block_num e)) ->
  cache_ok (Cache es (Some i) (Some i) (Some (BlockDevice d (Some ops))) h m bs).
Proof.
  intros Hlen Ee Hv Hf Hd Hok Hcl. split; cbn.
  - split; cbn; [done| |done|].
    + intros j f Hj. destruct (Hf j f Hj) as (? & ? & _). done.
    + intros j [= <-]. eauto.
  - done.
  - intros j f Hj. by apply Hf in Hj as (_ & _ & ? & _).
  - intros j f Hj Hvf. destruct (decide (j = i)) as [->|Hne]; [done|].
    destruct (Hf j f Hj) as (_ & _ & _ & Hn). rewrite Hn in Hvf; done.
  - exists d. split; [done|]. split; [done|]. intros j f Hj Hvf.
    destruct (decide (j = i)) as [->|Hne]; [by simplify_eq|].
    destruct (Hf j f Hj) as (_ & _ & _ & Hn). rewrite Hn in Hvf; done.
Qed.

(** A cache with no valid entry at all. *)
Lemma cache_ok_empty es d h m :
  length es = BLOCK_CACHE_SIZE ->
  (forall j f, es !! j = Some f -> next f = None /\ prev f = None /\ lenZ (data f) = bs /\
     valid f = false) ->
  dev_inv d -> cache_ok (Cache es None None (Some (BlockDevice d (Some ops))) h m bs).
Proof.
  intros Hlen Hf Hd. split; cbn; [split; cbn; [done| |done|done]|done|..].
  - intros j f Hj. destruct (Hf j f Hj) as (? & ? & _). done.
  - intros j f Hj. by destruct (Hf j f Hj) as (_ & _ & ? & _).
  - intros j f Hj Hv. destruct (Hf j f Hj) as (_ & _ & _ & ?). congruence.
  - exists d. split; [done|]. split; [done|]. intros j f Hj Hv.
    destruct (Hf j f Hj) as (_ & _ & _ & ?). congruence.
Qed.

Lemma cache_ok_entry c i e :
  cache_ok c -> entries c !! i = Some e -> valid e = true ->
  lru_head c = Some i /\ lru_tail c = Some i /\ (i < BLOCK_CACHE_SIZE)%nat.
Proof.
  intros Hc Ee Hv. pose proof (co_only _ Hc _ _ Ee Hv) as Ht.
  rewrite (ls_ends _ (co_small _ Hc)). repeat split; [done..|].
  by eapply lookup_size; [apply co_small|].
Qed.

(** The facts [cache_ok_intro] needs about every entry. *)
Lemma cache_ok_others c i e :
  cache_ok c -> entries c !! i = Some e -> valid e = true ->
  forall j f, entries c !! j = Some f -> next f = None /\ prev f = None /\ lenZ (data f) = bs /\
    (j <> i -> valid f = false).
Proof.
  intros Hc Ee Hv j f Hj. destruct (ls_links _ (co_small _ Hc) _ _ Hj) as [? ?].
  repeat split; [done..|by eapply co_data|]. intros Hne.
  destruct (valid f) eqn:Hvf; [|done]. exfalso.
  pose proof (co_only _ Hc _ _ Ee Hv). pose proof (co_only _ Hc _ _ Hj Hvf). congruence.
Qed.

Lemma others_insert (es : list block_cache_entry) (i : nat) e (j : nat) f :
  (forall j f, es !! j = Some f -> next f = None /\ prev f = None /\ lenZ (data f) = bs /\
     (j <> i -> valid f = false)) ->
  next e = None -> prev e = None -> lenZ (data e) = bs ->
  <[i := e]> es !! j = Some f ->
  next f = None /\ prev f = None /\ lenZ (data f) = bs /\ (j <> i -> valid f = false).
Proof.
  intros Hes Hn Hp Hl. destruct (decide (j = i)) as [->|Hne].
  - intros Hj. pose proof (lookup_lt_Some _ _ _ Hj). rewrite length_insert in *.
    rewrite list_lookup_insert_eq in Hj by done. by simplify_eq.
  - rewrite list_lookup_insert_ne by done. apply Hes.
Qed.

Lemma cache_eta c : c = Cache (entries c) (lru_head c) (lru_tail c) (bdev c) (hits c) (misses c) (block_size c).
Proof. by destruct c. Qed.

(** The state after flushing entry [i]. *)
Definition flushed c i e d' : block_cache D :=
  Cache (<[i := set_dirty false e]> (entries c)) (lru_head c) (lru_tail c)
    (Some (BlockDevice d' (Some ops))) (hits c) (misses c) bs.

Lemma flush_entry_run c i e d :
  cache_ok c -> entries c !! i = Some e -> valid e = true -> bdev c = Some (BlockDevice d (Some ops)) ->
  exists d' r, cache_flush_entry c i = Some (flushed c i e d', r) /\ 0 <= r /\
    dev_inv d' /\ dev_block d' (block_num e) = data e /\
    (forall b, dev_ok b -> b <> block_num e -> dev_block d' b = dev_block d b).
Proof.
  intros Hc Ee Hv Hd. destruct (co_dev _ Hc) as (d0 & Hd0 & Hinv & Hval).
  rewrite Hd in Hd0. simplify_eq.
  destruct (Hval i e Ee Hv) as [Hok Hclean]. unfold cache_flush_entry. rewrite Ee.
  cbn [mbind option_bind]. rewrite Hv. destruct (dirty e) eqn:Hdirty; cbn [negb orb].
  - destruct (dev_write_ok d0 (block_num e) (data e)) as (wr & d' & r & Hwr & Hw & Hr & ? & ? & ?);
      [done..|by eapply co_data|].
    exists d', r. rewrite Hd. cbn [get_device_ops mbind option_bind bd_ops]. rewrite Hwr.
    cbn [device_data]. rewrite Hw. cbn [mbind option_bind].
    rewrite (proj2 (Z.leb_le _ _)) by done. split; [|done].
    unfold flushed, upd, set_device. cbn.
    by rewrite (alter_insert _ _ _ e), (co_bs _ Hc) by done.
  - exists d0, ERR_SUCCESS. split; [|unfold ERR_SUCCESS; split; [lia|by rewrite <- Hclean]].
    unfold flushed. assert (set_dirty false e = e) as ->
      by (unfold set_dirty; rewrite <- Hdirty; by destruct e).
    rewrite list_insert_id by done. rewrite (cache_eta c) at 1. by rewrite Hd, (co_bs _ Hc).
Qed.

(** Flushing the valid entry writes it to the device and leaves the view. *)
Lemma flush_entry_ok c i e :
  cache_ok c -> entries c !! i = Some e -> valid e = true ->
  exists d' r,
    cache_flush_entry c i = Some (flushed c i e d', r) /\ 0 <= r /\
    cache_ok (flushed c i e d') /\ dev_inv d' /\
    (forall b, dev_ok b -> dev_block d' b = view c b) /\
    (forall b, dev_ok b -> view (flushed c i e d') b = view c b).
Proof.
  intros Hc Ee Hv. destruct (co_dev _ Hc) as (d & Hd & Hinv & Hval).
  destruct (cache_ok_entry c i e Hc Ee Hv) as (Hh & Ht & Hi).
  destruct (flush_entry_run c i e d) as (d' & r & Hf & Hr & Hinv' & Hsame & Hother); [done..|].
  exists d', r. split; [done|]. split; [done|].
  assert (entries (flushed c i e d') !! i = Some (set_dirty false e)) as Ee'.
  { cbn. apply list_lookup_insert_eq. rewrite (ls_len _ (co_small _ Hc)). done. }
  assert (cache_ok (flushed c i e d')) as Hc'.
  { unfold flushed. rewrite Hh, Ht. eapply cache_ok_intro; [|exact Ee'|done| |done|by destruct (Hval i e Ee Hv)|done].
    - rewrite length_insert. by apply co_small.
    - intros j f. pose proof (cache_ok_others c i e Hc Ee Hv) as Ho.
      destruct (Ho i e Ee) as (? & ? & ? & _). by apply others_insert. }
  split; [done|]. split; [done|]. split; intros b Hb.
  - rewrite (view_valid c b i e d (Some ops)) by done. case_decide; [by subst|by apply Hother].
  - rewrite (view_valid _ b i (set_dirty false e) d' (Some ops)) by done.
    rewrite (view_valid c b i e d (Some ops)) by done. cbn.
    case_decide; [done|by apply Hother].
Qed.

(** The state eviction leaves: an empty list, entry [e] at [i] free to be
    refilled, no other valid entry, and the device holding the whole view. *)
Record emptied c i e d : Prop := {
  em_eta : c = Cache (entries c) None None (Some (BlockDevice d (Some ops))) (hits c) (misses c) bs;
  em_len : length (entries c) = BLOCK_CACHE_SIZE;
  em_entry : entries c !! i = Some e;
  em_inv : dev_inv d;
  em_others j f : entries c !! j = Some f -> next f = None /\ prev f = None /\ lenZ (data f) = bs /\
    (j <> i -> valid f = false)
}.

Lemma evict_valid c i e :
  cache_ok c -> entries c !! i = Some e -> valid e = true ->
  exists c1 e1 d1, evict c i = Some c1 /\ emptied c1 i e1 d1 /\
    forall b, dev_ok b -> dev_block d1 b = view c b.
Proof.
  intros Hc Ee Hv. destruct (cache_ok_entry c i e Hc Ee Hv) as (Hh & Ht & Hi).
  destruct (flush_entry_ok c i e Hc Ee Hv) as (d1 & r & Hf & _ & Hc1 & Hinv & Hblk & _).
  set (c1 := flushed c i e d1) in *.
  assert (entries c1 !! i = Some (set_dirty false e)) as Ee1.
  { cbn. apply list_lookup_insert_eq. rewrite (ls_len _ (co_small _ Hc)). done. }
  exists (with_lru c1 None), (set_dirty false e), d1. split; [|split; [|done]].
  - unfold evict. rewrite Ee. cbn [mbind option_bind]. rewrite Hv. cbn [andb].
    assert ((if dirty e then '(c, _) ← cache_flush_entry c i; Some c else Some c) = Some c1) as ->.
    { destruct (dirty e) eqn:Hd; [by rewrite Hf|]. unfold cache_flush_entry in Hf.
      rewrite Ee in Hf. cbn in Hf. rewrite Hd in Hf. cbn in Hf. congruence. }
    cbn [mbind option_bind]. rewrite Ee1. cbn [mbind option_bind].
    rewrite (lru_remove_small c1) by (done || apply co_small; done).
    cbn. by rewrite Hv.
  - split; [done| |done|done|].
    + cbn. rewrite length_insert. by apply co_small.
    + by apply (cache_ok_others c1 i (set_dirty false e)).
Qed.

Lemma first_invalid_found c :
  cache_ok c -> lru_tail c = None ->
  exists i e, first_invalid c = Some i /\ entries c !! i = Some e /\ valid e = false.
Proof.
  intros Hc Ht. unfold first_invalid.
  destruct (list_find (fun e => valid e = false) (entries c)) as [[i e]|] eqn:E.
  - apply list_find_Some in E as (? & ? & _). eauto.
  - exfalso. apply list_find_None in E.
    destruct (lookup_lt_is_Some_2 (entries c) 0) as [e Ee].
    { rewrite (ls_len _ (co_small _ Hc)). unfold BLOCK_CACHE_SIZE. lia. }
    pose proof (co_only _ Hc _ _ Ee) as Ho. pose proof (Forall_lookup_1 _ _ _ _ E Ee) as Hn.
    destruct (valid e) eqn:Hv; [by rewrite Ho in Ht|by apply Hn].
Qed.

(** A miss always finds a victim, and evicting it loses nothing. *)
Lemma evict_ok c :
  cache_ok c ->
  exists i c1 e1 d1, victim c = Some i /\ evict c i = Some c1 /\ emptied c1 i e1 d1 /\
    forall b, dev_ok b -> dev_block d1 b = view c b.
Proof.
  intros Hc. unfold victim, cache_find_lru. destruct (lru_tail c) as [i|] eqn:Ht.
  - destruct (ls_valid _ (co_small _ Hc) i Ht) as (e & Ee & Hv).
    destruct (evict_valid c i e Hc Ee Hv) as (c1 & e1 & d1 & ? & ? & ?). by exists i, c1, e1, d1.
  - destruct (first_invalid_found c Hc Ht) as (i & e & Hi & Ee & Hv).
    destruct (co_dev _ Hc) as (d & Hd & Hinv & _).
    exists i, c, e, d. split; [done|]. split; [|split; [split|]].
    + unfold evict. rewrite Ee. cbn. rewrite Hv. cbn. rewrite Ee. cbn. by rewrite Hv.
    + rewrite (cache_eta c) at 1. by rewrite (ls_ends _ (co_small _ Hc)), Ht, Hd, (co_bs _ Hc).
    + apply co_small, Hc.
    + done.
    + done.
    + intros j f Hj. destruct (ls_links _ (co_small _ Hc) _ _ Hj). repeat split; [done..|by eapply co_data|].
      intros _. destruct (valid f) eqn:Hvf; [|done]. pose proof (co_only _ Hc _ _ Hj Hvf). congruence.
    + intros b Hb. by rewrite (view_empty c b d (Some ops)).
Qed.

(** Refilling the evicted entry. *)
Definition refilled c i f d : block_cache D :=
  Cache (<[i := f]> (entries c)) (Some i) (Some i) (Some (BlockDevice d (Some ops)))
    (hits c) (misses c) bs.

Lemma refilled_entry c i e d f d' :
  emptied c i e d -> entries (refilled c i f d') !! i = Some f.
Proof. intros He. apply list_lookup_insert_eq. eapply lookup_lt_Some, (em_entry _ _ _ _ He). Qed.

Lemma refilled_ok c i e d f d' :
  emptied c i e d -> next f = next e -> prev f = prev e -> lenZ (data f) = bs -> valid f = true ->
  dev_inv d' -> dev_ok (block_num f) -> (dirty f = false -> data f = dev_block d' (block_num f)) ->
  cache_ok (refilled c i f d') /\
  forall b, view (refilled c i f d') b = if decide (block_num f = b) then data f else dev_block d' b.
Proof.
  intros He Hn Hp Hl Hv Hd Hok Hcl.
  pose proof (refilled_entry c i e d f d' He) as Ef.
  assert (cache_ok (refilled c i f d')) as Hc.
  { eapply cache_ok_intro; [|done..| |done|done|done].
    - rewrite length_insert. by eapply em_len.
    - intros j g. destruct (em_others _ _ _ _ He i e) as (? & ? & _); [by eapply em_entry|].
      apply others_insert; [by eapply em_others|congruence..]. }
  split; [done|]. intros b. by apply (view_valid _ b i f d' (Some ops)).
Qed.

Lemma emptied_add_front c i e d f :
  emptied c i e d -> next f = next e -> prev f = prev e ->
  forall d', lru_add_front (Cache (<[i := f]> (entries c)) None None
    (Some (BlockDevice d' (Some ops))) (hits c) (misses c) bs) i = refilled c i f d'.
Proof.
  intros He Hn Hp d'. apply lru_add_front_small; [|done].
  split; cbn; [rewrite length_insert; by eapply em_len| |done|done].
  intros j g Hj. destruct (em_others _ _ _ _ He i e) as (? & ? & ? & _); [by eapply em_entry|].
  destruct (decide (j = i)) as [->|Hne].
  - rewrite list_lookup_insert_eq in Hj by (eapply lookup_lt_Some, (em_entry _ _ _ _ He)).
    simplify_eq. split; congruence.
  - rewrite list_lookup_insert_ne in Hj by done.
    by destruct (em_others _ _ _ _ He j g Hj) as (? & ? & _).
Qed.

(** A valid entry, once removed from the list, is an [emptied] state. *)
Lemma unlink_ok c i e d :
  cache_ok c -> entries c !! i = Some e -> valid e = true ->
  bdev c = Some (BlockDevice d (Some ops)) ->
  lru_remove c i = Some (with_lru c None) /\ emptied (with_lru c None) i e d.
Proof.
  intros Hc Ee Hv Hd. destruct (cache_ok_entry c i e Hc Ee Hv) as (Hh & Ht & Hi).
  destruct (co_dev _ Hc) as (d0 & Hd0 & Hinv & _). rewrite Hd in Hd0. simplify_eq.
  split; [apply lru_remove_small; [apply Hc|done]|]. split; [|apply Hc|done|done|].
  - unfold with_lru, set_tail, set_head. cbn. by rewrite Hd, (co_bs _ Hc).
  - by apply (cache_ok_others c i e).
Qed.

Lemma cache_ok_touch now c i e :
  cache_ok c -> entries c !! i = Some e -> valid e = true ->
  cache_ok (upd (add_hit c) i (set_last_access now)) /\
  forall b, view (upd (add_hit c) i (set_last_access now)) b = view c b.
Proof.
  intros Hc Ee Hv. destruct (co_dev _ Hc) as (d & Hd & Hinv & Hval).
  destruct (unlink_ok c i e d Hc Ee Hv Hd) as [_ Hem].
  destruct (cache_ok_entry c i e Hc Ee Hv) as (Hh & Ht & _). destruct (Hval i e Ee Hv) as [Hok Hcl].
  assert (upd (add_hit c) i (set_last_access now) =
          refilled (add_hit (with_lru c None)) i (set_last_access now e) d) as ->.
  { unfold upd, add_hit, refilled. cbn.
    by rewrite Hh, Ht, Hd, (co_bs _ Hc), (alter_insert _ _ _ e). }
  destruct (refilled_ok (add_hit (with_lru c None)) i e d (set_last_access now e) d)
    as [Hc' Hview]; [|done|done|exact (co_data _ Hc i e Ee)|done..|].
  { destruct Hem. split; try done. unfold add_hit, with_lru, set_tail, set_head. cbn. by rewrite (co_bs _ Hc), Hd. }
  split; [done|]. intros b. rewrite Hview. by rewrite (view_valid c b i e d (Some ops)).
Qed.

Lemma with_lru_again c i :
  lru_head c = Some i -> lru_tail c = Some i -> with_lru (with_lru c None) (Some i) = c.
Proof. destruct c. cbn. by intros -> ->. Qed.

Lemma cache_read_hit_ok now c i e buf :
  cache_ok c -> entries c !! i = Some e -> valid e = true -> lenZ buf = bs ->
  exists c', cache_read_hit now c i buf = Some (c', bs, data e) /\ cache_ok c' /\
    forall b, view c' b = view c b.
Proof.
  intros Hc Ee Hv Hl. destruct (cache_ok_touch now c i e Hc Ee Hv) as [Hc1 Hview].
  set (c1 := upd (add_hit c) i (set_last_access now)) in *.
  assert (entries c1 !! i = Some (set_last_access now e)) as Ee1.
  { cbn. by rewrite list_lookup_alter_eq, Ee. }
  destruct (cache_ok_entry c1 i _ Hc1 Ee1 Hv) as (Hh & Ht & Hi).
  exists c1. split; [|done]. unfold cache_read_hit. change (entries (add_hit c)) with (entries c). rewrite Ee.
  cbn [mbind option_bind]. change (block_size (add_hit c)) with (block_size c). rewrite (co_bs _ Hc).
  rewrite (memcpy_full buf) by (done || exact (co_data _ Hc i e Ee)). cbn [mbind option_bind].
  fold c1. rewrite (lru_remove_small c1) by (done || apply Hc1).
  cbn [mbind option_bind]. rewrite lru_add_front_small;
    [|by apply lru_small_with_lru; [apply Hc1|]|done].
  rewrite with_lru_again by done.
  rewrite (co_bs _ Hc1), i32_id by lia. done.
Qed.

Lemma cache_read_miss_ok now c n buf :
  cache_ok c -> dev_ok n -> lenZ buf = bs ->
  exists c', cache_read_miss now c n buf = Some (c', bs, view c n) /\ cache_ok c' /\
    forall b, dev_ok b -> view c' b = view c b.
Proof.
  intros Hc Hn Hl. assert (cache_ok (add_miss c)) as Hm by (by destruct Hc as [[] ? ? ? ?]).
  destruct (evict_ok _ Hm) as (i & c1 & e1 & d1 & Hv & He & Hem & Hblk).
  destruct (em_others _ _ _ _ Hem i e1) as (_ & _ & Hl1 & _); [by eapply em_entry|].
  destruct (dev_read_ok d1 n (data e1)) as (rd & d2 & r & Hrd & Hr & Hr0 & Hinv2 & Hsame);
    [by eapply em_inv|done..|].
  set (f := set_last_access now (set_dirty false (set_valid true
    (set_block_num n (set_data (dev_block d1 n) e1))))).
  destruct (refilled_ok c1 i e1 d1 f d2) as [Hc2 Hview]; [done..| |done|done|done| |].
  { apply dev_block_len; [by eapply em_inv|done]. }
  { intros _. symmetry. by apply Hsame. }
  exists (refilled c1 i f d2). split; [|split; [done|]].
  - unfold cache_read_miss. rewrite Hv, He. cbn [mbind option_bind].
    rewrite (em_eta _ _ _ _ Hem). cbn [bdev get_device_ops mbind option_bind bd_ops].
    rewrite Hrd. cbn [entries]. rewrite (em_entry _ _ _ _ Hem). cbn [mbind option_bind device_data].
    rewrite Hr. cbn [mbind option_bind]. rewrite (proj2 (Z.ltb_ge _ _)) by done.
    match goal with |- context [lru_add_front ?x i] =>
      assert (lru_add_front x i = refilled c1 i f d2) as -> end.
    { rewrite <- (emptied_add_front c1 i e1 d1 f) by done. f_equal. unfold upd, set_device. cbn.
      by rewrite (alter_alter_insert _ _ i (entries c1) e1) by by eapply em_entry. }
    rewrite (refilled_entry c1 i e1 d1) by done. cbn [mbind option_bind].
    change (block_size (refilled c1 i f d2)) with bs. rewrite (memcpy_full buf) by (done || by apply dev_block_len; [eapply em_inv|]).
    cbn. rewrite i32_id by lia. by rewrite Hblk.
  - intros b Hb. rewrite Hview. cbn. case_decide as E; [subst; by apply Hblk|].
    rewrite Hsame by done. by apply Hblk.
Qed.

Lemma cache_read_ok now c n buf :
  cache_ok c -> dev_ok n -> lenZ buf = bs ->
  exists c', cache_read now c n buf = Some (c', bs, view c n) /\ cache_ok c' /\
    forall b, dev_ok b -> view c' b = view c b.
Proof.
  intros Hc Hn Hl. unfold cache_read. destruct (cache_find c n) as [i|] eqn:E.
  - destruct (cache_find_lookup _ _ _ E) as (e & Ee & Hv & Hb).
    destruct (cache_read_hit_ok now c i e buf) as (c' & Hr & Hc' & Hview); [done..|].
    exists c'. rewrite Hr. unfold view at 1. rewrite E. cbn. rewrite Ee. auto.
  - by apply cache_read_miss_ok.
Qed.

Lemma cache_write_entry_ok now c i e d buf :
  emptied c i e d -> valid e = true -> dev_ok (block_num e) -> lenZ buf = bs ->
  exists c', cache_write_entry now c i buf = Some (c', bs) /\ cache_ok c' /\
    forall b, view c' b = if decide (block_num e = b) then buf else dev_block d b.
Proof.
  intros Hem Hv Hn Hl. set (f := set_last_access now (set_dirty true (set_data buf e))).
  destruct (refilled_ok c i e d f d) as [Hc2 Hview]; [done..|by eapply em_inv|done|done|].
  exists (refilled c i f d). split; [|done]. unfold cache_write_entry.
  rewrite (em_entry _ _ _ _ Hem). cbn [mbind option_bind].
  destruct (em_others _ _ _ _ Hem i e) as (_ & _ & Hl1 & _); [by eapply em_entry|].
  assert (block_size c = bs) as -> by by rewrite (em_eta _ _ _ _ Hem).
  rewrite memcpy_full by done. cbn [mbind option_bind].
  match goal with |- context [lru_add_front ?x i] =>
    assert (lru_add_front x i = refilled c i f d) as -> end.
  { rewrite <- (emptied_add_front c i e d f) by done. f_equal. unfold upd.
    rewrite (em_eta _ _ _ _ Hem) at 2 3 4 5 6 7. cbn.
    by rewrite (alter_insert _ i (entries c) e) by by eapply em_entry. }
  cbn. by rewrite i32_id by lia.
Qed.

Lemma cache_write_ok now c n buf :
  cache_ok c -> dev_ok n -> lenZ buf = bs ->
  exists c', cache_write now c n buf = Some (c', bs) /\ cache_ok c' /\
    forall b, dev_ok b -> view c' b = if decide (n = b) then buf else view c b.
Proof.
  intros Hc Hn Hl. unfold cache_write. destruct (cache_find c n) as [i|] eqn:E.
  - destruct (cache_find_lookup _ _ _ E) as (e & Ee & Hv & Hb).
    destruct (co_dev _ Hc) as (d & Hd & Hinv & Hval).
    destruct (unlink_ok c i e d Hc Ee Hv Hd) as [-> Hem]. cbn [mbind option_bind].
    destruct (cache_write_entry_ok now _ i e d buf Hem) as (c' & Hw & Hc' & Hview); [done|by rewrite Hb|done|].
    exists c'. split; [done|]. split; [done|]. intros b Hb'. rewrite Hview, Hb. case_decide; [done|].
    rewrite (view_valid c b i e d (Some ops)) by done. by rewrite Hb, decide_False.
  - destruct (evict_ok c Hc) as (i & c1 & e1 & d1 & -> & -> & Hem & Hblk). cbn [mbind option_bind].
    destruct (cache_write_entry_ok now (upd c1 i (fun e => set_valid true (set_block_num n e)))
      i (set_valid true (set_block_num n e1)) d1 buf) as (c' & Hw & Hc' & Hview); [|done..|].
    + pose proof (em_entry _ _ _ _ Hem) as Ee.
      destruct (em_others _ _ _ _ Hem i e1 Ee) as (? & ? & ? & _).
      split; unfold upd; cbn; [by rewrite (em_eta _ _ _ _ Hem) at 2 3 4 5 6 7|..].
      * rewrite length_alter. by eapply em_len.
      * by rewrite list_lookup_alter_eq, Ee.
      * by eapply em_inv.
      * intros j g. rewrite (alter_insert _ i (entries c1) e1) by done.
        apply others_insert; [by eapply em_others|done..].
    + exists c'. split; [done|]. split; [done|]. intros b Hb. rewrite Hview. cbn.
      case_decide; [done|]. by apply Hblk.
Qed.

(** An entry with nothing to write back. *)
Definition clean c (i : nat) : Prop :=
  forall e, entries c !! i = Some e -> valid e = true -> dirty e = false.

Lemma flushed_clean c i e d j : j = i \/ clean c j -> clean (flushed c i e d) j.
Proof.
  intros Hj f. cbn. intros Hf. destruct (decide (j = i)) as [->|Hne].
  - pose proof (lookup_lt_Some _ _ _ Hf) as Hlt. rewrite length_insert in Hlt.
    rewrite list_lookup_insert_eq in Hf by done. by simplify_eq.
  - destruct Hj as [?|Hj]; [done|]. rewrite list_lookup_insert_ne in Hf by done. by apply Hj.
Qed.

Lemma flush_loop_ok idxs : forall c k,
  cache_ok c -> Forall (fun i => i < BLOCK_CACHE_SIZE)%nat idxs ->
  exists c', flush_loop idxs c k = Some (c', k) /\ cache_ok c' /\
    (forall b, dev_ok b -> view c' b = view c b) /\
    (forall j, j ∈ idxs \/ clean c j -> clean c' j).
Proof.
  induction idxs as [|i idxs IH]; intros c k Hc Hall; cbn [flush_loop].
  - exists c. split; [done|]. split; [done|]. split; [done|]. intros j [Hj|?]; [by apply not_elem_of_nil in Hj|done].
  - apply Forall_cons_1 in Hall as [Hi Hall].
    destruct (lookup_lt_is_Some_2 (entries c) i) as [e Ee]; [by rewrite (ls_len _ (co_small _ Hc))|].
    rewrite Ee. cbn [mbind option_bind]. destruct (valid e && dirty e) eqn:Hvd.
    + apply andb_true_iff in Hvd as [Hv Hd].
      destruct (flush_entry_ok c i e Hc Ee Hv) as (d & r & -> & Hr & Hc1 & _ & _ & Hview1).
      cbn [mbind option_bind]. rewrite (proj2 (Z.ltb_ge _ _)) by done.
      destruct (IH _ k Hc1 Hall) as (c' & -> & Hc' & Hview & Hcl).
      exists c'. split; [done|]. split; [done|]. split.
      * intros b Hb. by rewrite Hview, Hview1.
      * intros j Hj. apply Hcl. rewrite elem_of_cons in Hj.
        destruct Hj as [[->|?]|?]; [right|by left|right]; apply flushed_clean; auto.
    + destruct (IH c k Hc Hall) as (c' & -> & Hc' & Hview & Hcl).
      exists c'. split; [done|]. split; [done|]. split; [done|]. intros j Hj. apply Hcl.
      rewrite elem_of_cons in Hj. destruct Hj as [[->|?]|?]; [right|by left|by right].
      intros f Hf Hv. simplify_eq. by rewrite Hv in Hvd.
Qed.

(** Flushing succeeds, keeps the view, and makes the device equal to it. *)
Lemma cache_flush_ok c :
  cache_ok c ->
  exists c' d, cache_flush c = Some (c', ERR_SUCCESS) /\ cache_ok c' /\
    (forall b, dev_ok b -> view c' b = view c b) /\
    bdev c' = Some (BlockDevice d (Some ops)) /\
    (forall b, dev_ok b -> dev_block d b = view c b).
Proof.
  intros Hc. unfold cache_flush.
  destruct (flush_loop_ok (seq 0 BLOCK_CACHE_SIZE) c 0 Hc) as (c' & -> & Hc' & Hview & Hcl).
  { apply Forall_seq. lia. }
  destruct (co_dev _ Hc') as (d & Hd & Hinv & Hval).
  exists c', d. split; [done|]. split; [done|]. split; [done|]. split; [done|].
  intros b Hb. rewrite <- Hview by done. destruct (lru_tail c') as [i|] eqn:Ht.
  - destruct (ls_valid _ (co_small _ Hc') i Ht) as (e & Ee & Hv).
    rewrite (view_valid c' b i e d (Some ops)) by done. case_decide; [|done]. subst.
    destruct (Hval i e Ee Hv) as [_ Hclean]. symmetry. apply Hclean.
    eapply Hcl; [|done|done]. left. apply elem_of_seq.
    split; [lia|]. by eapply lookup_size; [apply Hc'|].
  - by rewrite (view_empty c' b d (Some ops)).
Qed.

Lemma cache_invalidate_ok c n :
  cache_ok c ->
  exists c', cache_invalidate c n = Some (c', ERR_SUCCESS) /\ cache_ok c' /\
    (forall b, dev_ok b -> view c' b = view c b).
Proof.
  intros Hc. unfold cache_invalidate. destruct (cache_find c n) as [i|] eqn:E; [|by exists c].
  destruct (cache_find_lookup _ _ _ E) as (e & Ee & Hv & Hb). rewrite Ee. cbn [mbind option_bind].
  destruct (evict_valid c i e Hc Ee Hv) as (c1 & e1 & d1 & He & Hem & Hblk).
  assert ((c ← (if dirty e then '(c, _) ← cache_flush_entry c i; Some c else Some c); lru_remove c i)
          = Some c1) as Hrun.
  { revert He. unfold evict. rewrite Ee. cbn [mbind option_bind]. rewrite Hv. cbn [andb].
    destruct (flush_entry_ok c i e Hc Ee Hv) as (d & r & Hf & _).
    destruct (dirty e); [rewrite Hf|]; cbn [mbind option_bind]; [|by rewrite Ee; cbn; rewrite Hv].
    cbn [flushed entries]. rewrite list_lookup_insert_eq by by eapply lookup_lt_Some.
    cbn. by rewrite Hv. }
  destruct (if dirty e then _ else _) as [c0|]; [|done]. cbn [mbind option_bind] in *.
  rewrite Hrun. cbn [mbind option_bind].
  exists (upd c1 i (set_valid false)). split; [done|].
  assert (cache_ok (upd c1 i (set_valid false))) as Hc'.
  { pose proof (em_entry _ _ _ _ Hem) as Ee1. rewrite (em_eta _ _ _ _ Hem).
    unfold upd. cbn. rewrite (alter_insert _ i _ e1) by done. apply cache_ok_empty.
    - rewrite length_insert. by eapply em_len.
    - destruct (em_others _ _ _ _ Hem i e1 Ee1) as (? & ? & ? & _). intros j f Hj.
      apply (others_insert (entries c1) i (set_valid false e1)) in Hj as Hj'; [|by eapply em_others|done..].
      destruct Hj' as (? & ? & ? & Hne). repeat split; [done..|].
      destruct (decide (j = i)) as [->|]; [|by apply Hne].
      rewrite list_lookup_insert_eq in Hj by (by eapply lookup_lt_Some). by simplify_eq.
    - by eapply em_inv. }
  split; [done|]. intros b Hb'. rewrite (view_empty _ b d1 (Some ops)); [by apply Hblk|done| |];
    by rewrite (em_eta _ _ _ _ Hem).
Qed.

(** *** The abstract block array and the refinement *)

(** What a call means on an array of blocks. *)
Definition array_step (blocks : Z -> bytes) (op : cache_op) : (Z -> bytes) * (Z * bytes) :=
  match op with
  | OpRead n _ => (blocks, (bs, blocks n))
  | OpWrite n buf => (fun b => if decide (n = b) then buf else blocks b, (bs, []))
  | OpFlush | OpInvalidate _ => (blocks, (ERR_SUCCESS, []))
  end.

Fixpoint array_run (blocks : Z -> bytes) (ops : list (Z * cache_op))
  : (Z -> bytes) * list (Z * bytes) :=
  match ops with
  | [] => (blocks, [])
  | (_, op) :: ops' =>
      let '(blocks, out) := array_step blocks op in
      let '(blocks, outs) := array_run blocks ops' in
      (blocks, out :: outs)
  end.

(** The calls a client may make: blocks of the device, buffers of a block. *)
Definition op_ok (op : cache_op) : Prop :=
  match op with
  | OpRead n buf | OpWrite n buf => dev_ok n /\ lenZ buf = bs
  | OpFlush | OpInvalidate _ => True
  end.

(** The simulation relation. *)
Definition shows c (blocks : Z -> bytes) : Prop :=
  cache_ok c /\ forall b, dev_ok b -> view c b = blocks b.

Lemma cache_step_refines now c blocks op :
  shows c blocks -> op_ok op ->
  exists c', cache_step now c op = Some (c', (array_step blocks op).2) /\
    shows c' (array_step blocks op).1.
Proof.
  intros [Hc Hv] Hop. destruct op as [n buf|n buf| |n]; cbn [cache_step array_step fst snd] in *.
  - destruct Hop as [Hn Hl]. destruct (cache_read_ok now c n buf) as (c' & -> & Hc' & Hview); [done..|].
    exists c'. cbn. rewrite Hv by done. split; [done|]. split; [done|].
    intros b Hb. by rewrite Hview, Hv.
  - destruct Hop as [Hn Hl]. destruct (cache_write_ok now c n buf) as (c' & -> & Hc' & Hview); [done..|].
    exists c'. split; [done|]. split; [done|]. intros b Hb. rewrite Hview by done.
    case_decide; [done|by apply Hv].
  - destruct (cache_flush_ok c Hc) as (c' & d & -> & Hc' & Hview & _).
    exists c'. split; [done|]. split; [done|]. intros b Hb. by rewrite Hview, Hv.
  - destruct (cache_invalidate_ok c n Hc) as (c' & -> & Hc' & Hview).
    exists c'. split; [done|]. split; [done|]. intros b Hb. by rewrite Hview, Hv.
Qed.

Lemma cache_run_refines ops' : forall c blocks,
  shows c blocks -> Forall (fun p => op_ok p.2) ops' ->
  exists c', cache_run c ops' = Some (c', (array_run blocks ops').2) /\
    shows c' (array_run blocks ops').1.
Proof.
  induction ops' as [|[now op] ops' IH]; intros c blocks Hs Hall; cbn [cache_run array_run].
  - by exists c.
  - apply Forall_cons_1 in Hall as [Hop Hall].
    destruct (cache_step_refines now c blocks op Hs Hop) as (c1 & -> & Hs1). cbn [mbind option_bind].
    destruct (array_step blocks op) as [blocks1 out]. cbn [fst snd] in *.
    destruct (IH c1 blocks1 Hs1 Hall) as (c' & -> & Hs'). cbn [mbind option_bind].
    destruct (array_run blocks1 ops') as [blocks2 outs]. by exists c'.
Qed.

Lemma create_shows heap_pos d c heap_pos' :
  dev_inv d -> block_cache_create heap_pos (Some (BlockDevice d (Some ops))) bs = (Some c, heap_pos') ->
  shows c (dev_block d).
Proof.
  intros Hd ->%block_cache_create_eq. split.
  - apply cache_ok_empty; [apply length_replicate| |done].
    intros j f [-> _]%lookup_replicate. cbn -[replicate]. rewrite lenZ_replicate. repeat split; lia.
  - intros b Hb. unfold view, cache_find. cbn [entries bdev device_data].
    destruct (list_find _ _) as [[i e]|] eqn:E; [|done].
    apply list_find_Some in E as ([-> _]%lookup_replicate & [[=] _] & _).
Qed.

(** C1: the block cache implements an array of blocks.  Over any driver that
    meets the contract [BlockDriver], a new cache answers every sequence of reads,
    writes, flushes and invalidations of valid blocks exactly as the array of the
    device's blocks would -- no call fails, a read returns the last value written,
    and neither eviction nor invalidation loses a write -- and when the cache is
    destroyed the device holds the array's final contents. *)
Theorem cache_refines_array heap_pos d c heap_pos' ops' :
  dev_inv d ->
  block_cache_create heap_pos (Some (BlockDevice d (Some ops))) bs = (Some c, heap_pos') ->
  Forall (fun p => op_ok p.2) ops' ->
  exists c' d',
    cache_run c ops' = Some (c', (array_run (dev_block d) ops').2) /\
    block_cache_destroy heap_pos' (Some c') = Some (Some (BlockDevice d' (Some ops)), heap_pos') /\
    forall b, dev_ok b -> dev_block d' b = (array_run (dev_block d) ops').1 b.
Proof.
  intros Hd Hc Hall. apply create_shows in Hc; [|done].
  destruct (cache_run_refines ops' c (dev_block d) Hc Hall) as (c' & Hr & Hc' & Hv).
  destruct (cache_flush_ok c' Hc') as (c2 & d2 & Hf & _ & _ & Hd2 & Hblk).
  exists c', d2. split; [done|]. split; [unfold block_cache_destroy; by rewrite Hf; cbn; rewrite Hd2|].
  intros b Hb. by rewrite Hblk, Hv.
Qed.

End refine.
End Refine.

(** ** Examples *)
Module CacheExamples.
Import Ramdisk RamdiskProofs Reach Refine.

(** Four blocks of two bytes. *)
Definition disk : option ramdisk := Some (RamDisk 8 [1; 2; 3; 4; 5; 6; 7; 8] 2).
Definition dev : option (block_device (option ramdisk)) := Some (BlockDevice disk (Some ramdisk_block_ops)).
Definition calls : list (Z * cache_op) :=
  [(0, OpRead 2 [0; 0]); (1, OpWrite 1 [9; 9]); (2, OpRead 0 [0; 0]); (3, OpInvalidate 1); (4, OpRead 1 [0; 0])].

Definition new_cache : block_cache (option ramdisk) :=
  Cache (replicate BLOCK_CACHE_SIZE (fresh_entry 2)) None None dev 0 0 2.
Definition new_heap : Z := Eval vm_compute in (block_cache_create 0 dev 2).2.

Lemma create_dev : block_cache_create 0 dev 2 = (Some new_cache, new_heap).
Proof.
  assert (match block_cache_create 0 dev 2 with (Some _, h) => h =? new_heap | _ => false end = true)
    by (vm_compute; reflexivity).
  destruct (block_cache_create 0 dev 2) as [[c|] h] eqn:E; [|done].
  apply block_cache_create_eq in E as ->. by replace h with new_heap by lia.
Qed.

Lemma run_calls : is_Some (cache_run new_cache calls).
Proof.
  assert (match cache_run new_cache calls with Some _ => true | None => false end = true)
    by (vm_compute; reflexivity).
  by destruct (cache_run new_cache calls).
Qed.

Lemma cache_lru_never_grows_witness :
  exists c' outs, cache_run new_cache calls = Some (c', outs) /\ lru_head c' = lru_tail c'.
Proof.
  destruct run_calls as [[c' outs] R].
  exists c', outs. split; [exact R|].
  exact (proj1 (cache_lru_never_grows 0 dev 2 new_cache new_heap calls c' outs create_dev R)).
Defined.

Lemma cache_refines_array_witness : exists c' d',
  cache_run new_cache calls = Some (c', (array_run 2 (disk_block 2 disk) calls).2) /\
  block_cache_destroy new_heap (Some c') = Some (Some (BlockDevice d' (Some ramdisk_block_ops)), new_heap) /\
  disk_block 2 d' 1 = [9; 9].
Proof.
  destruct (cache_refines_array ramdisk_block_ops 2 (drv := ramdisk_driver 4 2 ltac:(lia) ltac:(lia)) ltac:(lia)
    0 disk new_cache new_heap calls) as (c' & d' & Hr & Hd & Hb).
  - by eexists.
  - exact create_dev.
  - repeat constructor; done.
  - exists c', d'. split; [exact Hr|]. split; [exact Hd|].
    etransitivity; [exact (Hb 1 ltac:(split; lia))|]. reflexivity.
Defined.

End CacheExamples.
