(* ===== verification/Ext2Base.v ===== *)
(** * Foundations of the ext2 model: structures, the calls it is built on

    - the packed on-disk structures of [src/include/ext2.h];
    - the interface [BlockStore] through which [src/fs/ext2/] uses the block
      cache, its contract [BlockStoreLaws], and the proof that the block cache
      of [BlockCache.v] meets the contract;
    - the mounted file system as a state, the error monad of the operations, and
      its weakest preconditions. *)
From Stdlib Require Import String.
From S2P Require Import Prelude KernelLib BlockDev BlockCache BlockCacheProofs.
Import Memory.
Open Scope Z_scope.

(** ** Packed structures

    A structure is its bytes.  A layout lists the members in order, with the
    width of an element and the number of elements; an access to a member is an
    access to its bytes. *)
Definition layout := list (string * (nat * nat)).

Definition sizeof (l : layout) : Z :=
  foldr (fun m acc => Z.of_nat (m.2.1 * m.2.2) + acc) 0 l.

Record field := Field { f_off : Z; f_width : nat }.

Fixpoint field_of (l : layout) (name : string) (off : Z) : option field :=
  match l with
  | [] => None
  | (n, (w, k)) :: l' =>
      if String.eqb n name then Some (Field off w) else field_of l' name (off + Z.of_nat (w * k))
  end.

Definition member (l : layout) (name : string) : field :=
  default (Field 0 0) (field_of l name 0).

(** [p->f] and [p->f = v] for a structure at [base] of the object [buf]. *)
Definition getf (buf : bytes) (base : Z) (f : field) : option Z := ld buf (base + f_off f) (f_width f).
Definition setf (buf : bytes) (base : Z) (f : field) (v : Z) : option bytes :=
  st buf (base + f_off f) (f_width f) v.

Open Scope string_scope.
Definition sb_layout : layout :=
  [("s_inodes_count", (4, 1)); ("s_blocks_count", (4, 1)); ("s_r_blocks_count", (4, 1));
   ("s_free_blocks_count", (4, 1)); ("s_free_inodes_count", (4, 1));
   ("s_first_data_block", (4, 1)); ("s_log_block_size", (4, 1)); ("s_log_frag_size", (4, 1));
   ("s_blocks_per_group", (4, 1)); ("s_frags_per_group", (4, 1));
   ("s_inodes_per_group", (4, 1)); ("s_mtime", (4, 1)); ("s_wtime", (4, 1));
   ("s_mnt_count", (2, 1)); ("s_max_mnt_count", (2, 1)); ("s_magic", (2, 1));
   ("s_state", (2, 1)); ("s_errors", (2, 1)); ("s_minor_rev_level", (2, 1));
   ("s_lastcheck", (4, 1)); ("s_checkinterval", (4, 1)); ("s_creator_os", (4, 1));
   ("s_rev_level", (4, 1)); ("s_def_resuid", (2, 1)); ("s_def_resgid", (2, 1));
   ("s_first_ino", (4, 1)); ("s_inode_size", (2, 1)); ("s_block_group_nr", (2, 1));
   ("s_feature_compat", (4, 1)); ("s_feature_incompat", (4, 1));
   ("s_feature_ro_compat", (4, 1)); ("s_uuid", (1, 16)); ("s_volume_name", (1, 16));
   ("s_last_mounted", (1, 64)); ("s_algo_bitmap", (4, 1)); ("s_prealloc_blocks", (1, 1));
   ("s_prealloc_dir_blocks", (1, 1)); ("s_padding1", (2, 1)); ("s_journal_uuid", (1, 16));
   ("s_journal_inum", (4, 1)); ("s_journal_dev", (4, 1)); ("s_last_orphan", (4, 1));
   ("s_hash_seed", (4, 4)); ("s_def_hash_version", (1, 1)); ("s_reserved_char_pad", (1, 1));
   ("s_reserved_word_pad", (2, 1)); ("s_default_mount_opts", (4, 1));
   ("s_first_meta_bg", (4, 1)); ("s_reserved", (1, 760))]%nat.

Definition bg_layout : layout :=
  [("bg_block_bitmap", (4, 1)); ("bg_inode_bitmap", (4, 1)); ("bg_inode_table", (4, 1));
   ("bg_free_blocks_count", (2, 1)); ("bg_free_inodes_count", (2, 1));
   ("bg_used_dirs_count", (2, 1)); ("bg_pad", (2, 1)); ("bg_reserved", (1, 12))]%nat.

Definition inode_layout : layout :=
  [("i_mode", (2, 1)); ("i_uid", (2, 1)); ("i_size", (4, 1)); ("i_atime", (4, 1));
   ("i_ctime", (4, 1)); ("i_mtime", (4, 1)); ("i_dtime", (4, 1)); ("i_gid", (2, 1));
   ("i_links_count", (2, 1)); ("i_blocks", (4, 1)); ("i_flags", (4, 1)); ("i_osd1", (4, 1));
   ("i_block", (4, 15)); ("i_generation", (4, 1)); ("i_file_acl", (4, 1));
   ("i_dir_acl", (4, 1)); ("i_faddr", (4, 1)); ("i_osd2", (1, 12))]%nat.

Definition dirent_layout : layout :=
  [("inode", (4, 1)); ("rec_len", (2, 1)); ("name_len", (1, 1)); ("file_type", (1, 1));
   ("name", (1, 255))]%nat.

Definition s_inodes_count : field := Eval vm_compute in member sb_layout "s_inodes_count".
Definition s_blocks_count : field := Eval vm_compute in member sb_layout "s_blocks_count".
Definition s_free_blocks_count : field := Eval vm_compute in member sb_layout "s_free_blocks_count".
Definition s_free_inodes_count : field := Eval vm_compute in member sb_layout "s_free_inodes_count".
Definition s_first_data_block : field := Eval vm_compute in member sb_layout "s_first_data_block".
Definition s_log_block_size : field := Eval vm_compute in member sb_layout "s_log_block_size".
Definition s_blocks_per_group : field := Eval vm_compute in member sb_layout "s_blocks_per_group".
Definition s_inodes_per_group : field := Eval vm_compute in member sb_layout "s_inodes_per_group".
Definition s_magic : field := Eval vm_compute in member sb_layout "s_magic".
Definition s_inode_size : field := Eval vm_compute in member sb_layout "s_inode_size".
Definition bg_block_bitmap : field := Eval vm_compute in member bg_layout "bg_block_bitmap".
Definition bg_inode_bitmap : field := Eval vm_compute in member bg_layout "bg_inode_bitmap".
Definition bg_inode_table : field := Eval vm_compute in member bg_layout "bg_inode_table".
Definition bg_free_blocks_count : field := Eval vm_compute in member bg_layout "bg_free_blocks_count".
Definition bg_free_inodes_count : field := Eval vm_compute in member bg_layout "bg_free_inodes_count".
Definition i_mode : field := Eval vm_compute in member inode_layout "i_mode".
Definition i_uid : field := Eval vm_compute in member inode_layout "i_uid".
Definition i_size : field := Eval vm_compute in member inode_layout "i_size".
Definition i_atime : field := Eval vm_compute in member inode_layout "i_atime".
Definition i_ctime : field := Eval vm_compute in member inode_layout "i_ctime".
Definition i_mtime : field := Eval vm_compute in member inode_layout "i_mtime".
Definition i_gid : field := Eval vm_compute in member inode_layout "i_gid".
Definition i_links_count : field := Eval vm_compute in member inode_layout "i_links_count".
Definition i_blocks : field := Eval vm_compute in member inode_layout "i_blocks".
Definition de_inode : field := Eval vm_compute in member dirent_layout "inode".
Definition de_rec_len : field := Eval vm_compute in member dirent_layout "rec_len".
Definition de_name_len : field := Eval vm_compute in member dirent_layout "name_len".
Definition de_file_type : field := Eval vm_compute in member dirent_layout "file_type".
Definition de_name : field := Eval vm_compute in member dirent_layout "name".

Definition i_block0 : field := Eval vm_compute in member inode_layout "i_block".
Close Scope string_scope.

(** Element [k] of [i_block[15]]; an index outside the array is undefined. *)
Definition i_block (k : Z) : option field :=
  if (0 <=? k) && (k <? 15) then Some (Field (f_off i_block0 + 4 * k) 4) else None.

(** Accesses to other members, or to other structures, are independent. *)
Lemma getf_setf_other buf base f v buf' base' f' :
  setf buf base f v = Some buf' ->
  base' + f_off f' + Z.of_nat (f_width f') <= base + f_off f \/
  base + f_off f + Z.of_nat (f_width f) <= base' + f_off f' ->
  getf buf' base' f' = getf buf base' f'.
Proof. unfold getf, setf. intros H Hd. by eapply ld_st_disjoint. Qed.

Definition apart (f f' : field) : bool :=
  (f_off f' + Z.of_nat (f_width f') <=? f_off f) || (f_off f + Z.of_nat (f_width f) <=? f_off f').

(** [f] lies inside a structure of [size] bytes. *)
Definition in_struct (size : Z) (f : field) : bool :=
  (0 <=? f_off f) && (f_off f + Z.of_nat (f_width f) <=? size).

Lemma getf_setf_array buf size g f v buf' g' f' :
  setf buf (g * size) f v = Some buf' -> in_struct size f = true -> in_struct size f' = true ->
  g <> g' \/ apart f f' = true -> getf buf' (g' * size) f' = getf buf (g' * size) f'.
Proof.
  unfold in_struct, apart. intros H Hf Hf' Hd. eapply getf_setf_other; [done|].
  destruct (decide (g = g')) as [->|Hne]; [destruct Hd; [done|lia]|].
  destruct (decide (g < g')); [right|left]; nia.
Qed.

(** The sizes the comments of [ext2.h] give. *)
Definition sizeof_superblock : Z := Eval vm_compute in sizeof sb_layout.
Definition sizeof_bg : Z := Eval vm_compute in sizeof bg_layout.
Definition sizeof_inode : Z := Eval vm_compute in sizeof inode_layout.
Definition sizeof_dirent : Z := Eval vm_compute in sizeof dirent_layout.

Lemma ext2_sizes :
  sizeof_superblock = 1024 /\ sizeof_bg = 32 /\ sizeof_inode = 128 /\ sizeof_dirent = 263.
Proof. done. Qed.

(** ** The block store

    What [src/fs/ext2/] calls of the block cache: [block_cache_read],
    [block_cache_write] and [block_cache_flush], at time [now]. *)
Class BlockStore (C : Type) := {
  block_read (now : Z) (c : C) (n : Z) (buffer : bytes) : option (C * Z * bytes);
  block_write (now : Z) (c : C) (n : Z) (buffer : bytes) : option (C * Z);
  block_flush (c : C) : option (C * Z)
}.

(** The contract: an array of blocks of [bs] bytes, at the numbers [st_ok]. *)
Class BlockStoreLaws (C : Type) {B : BlockStore C} (bs : Z) := {
  st_inv : C -> Prop;
  st_ok : Z -> Prop;
  st_view : C -> Z -> bytes;
  st_view_len c n : st_inv c -> st_ok n -> lenZ (st_view c n) = bs;
  st_read_ok now c n buf : st_inv c -> st_ok n -> lenZ buf = bs ->
    exists c', block_read now c n buf = Some (c', bs, st_view c n) /\ st_inv c' /\
      forall b, st_ok b -> st_view c' b = st_view c b;
  st_write_ok now c n buf : st_inv c -> st_ok n -> lenZ buf = bs ->
    exists c', block_write now c n buf = Some (c', bs) /\ st_inv c' /\
      forall b, st_ok b -> st_view c' b = if decide (n = b) then buf else st_view c b;
  st_flush_ok c : st_inv c ->
    exists c', block_flush c = Some (c', ERR_SUCCESS) /\ st_inv c' /\
      forall b, st_ok b -> st_view c' b = st_view c b
}.

(** *** The block cache is such a store *)
#[export] Instance cache_store D : BlockStore (option (block_cache D)) := {
  block_read now c n buffer :=
    '(c, r, buf) ← block_cache_read now c n (Some buffer); buf ← buf; Some (c, r, buf);
  block_write now c n buffer := block_cache_write now c n (Some buffer);
  block_flush c := block_cache_flush c
}.

Section cache_laws.
Context {D : Type} (ops : block_device_ops D) (bs : Z) {drv : BlockDriver ops bs}.
Hypothesis bs_range : 0 < bs < 2147483648.

Lemma view_len c b : Refine.cache_ok ops bs c -> dev_ok b -> lenZ (Refine.view ops bs c b) = bs.
Proof.
  intros Hc Hb. destruct (Refine.co_dev _ _ _ Hc) as (d & Hd & Hinv & _).
  unfold Refine.view. destruct (cache_find c b) as [i|] eqn:E; cbn.
  - destruct (Reach.cache_find_lookup _ _ _ E) as (e & Ee & _). rewrite Ee.
    by eapply Refine.co_data.
  - rewrite Hd. by apply dev_block_len.
Qed.

Program Definition cache_store_laws : BlockStoreLaws (option (block_cache D)) bs := {|
  st_inv c := exists c', c = Some c' /\ Refine.cache_ok ops bs c';
  st_ok := dev_ok;
  st_view c b := match c with Some c => Refine.view ops bs c b | None => [] end
|}.
Next Obligation. intros c n (c' & -> & Hc) Hn. by apply view_len. Qed.
Next Obligation.
  intros now c n buf (c' & -> & Hc) Hn Hl.
  destruct (Refine.cache_read_ok ops bs bs_range now c' n buf) as (c2 & Hr & ? & ?); [done..|].
  exists (Some c2). cbn [block_read cache_store]. unfold block_cache_read. rewrite Hr. eauto.
Qed.
Next Obligation.
  intros now c n buf (c' & -> & Hc) Hn Hl.
  destruct (Refine.cache_write_ok ops bs bs_range now c' n buf) as (c2 & Hr & ? & ?); [done..|].
  exists (Some c2). cbn [block_write cache_store]. unfold block_cache_write. rewrite Hr. eauto.
Qed.
Next Obligation.
  intros c (c' & -> & Hc).
  destruct (Refine.cache_flush_ok ops bs bs_range c' Hc) as (c2 & d & Hr & ? & ? & _).
  exists (Some c2). cbn [block_flush cache_store]. unfold block_cache_flush. rewrite Hr. eauto.
Qed.
End cache_laws.

(** ** The mounted file system *)
Record ext2_fs (C : Type) := Fs {
  block_device : C;            (* the block cache *)
  superblock : bytes;
  block_groups : bytes;        (* the array of descriptors *)
  fs_block_size : Z;
  num_block_groups : Z;
  fs_dirty : bool;
  heap_pos : Z                 (* the kernel heap, threaded with the file system *)
}.
Arguments Fs {C}.
Arguments block_device {C}.
Arguments superblock {C}.
Arguments block_groups {C}.
Arguments fs_block_size {C}.
Arguments num_block_groups {C}.
Arguments fs_dirty {C}.
Arguments heap_pos {C}.

Section setters.
Context {C : Type}.
Implicit Types s : ext2_fs C.
Definition set_store c s : ext2_fs C :=
  Fs c (superblock s) (block_groups s) (fs_block_size s) (num_block_groups s) (fs_dirty s) (heap_pos s).
Definition set_superblock sb s : ext2_fs C :=
  Fs (block_device s) sb (block_groups s) (fs_block_size s) (num_block_groups s) (fs_dirty s) (heap_pos s).
Definition set_block_groups bg s : ext2_fs C :=
  Fs (block_device s) (superblock s) bg (fs_block_size s) (num_block_groups s) (fs_dirty s) (heap_pos s).
Definition set_fs_dirty b s : ext2_fs C :=
  Fs (block_device s) (superblock s) (block_groups s) (fs_block_size s) (num_block_groups s) b (heap_pos s).
Definition set_heap_pos h s : ext2_fs C :=
  Fs (block_device s) (superblock s) (block_groups s) (fs_block_size s) (num_block_groups s) (fs_dirty s) h.
End setters.

(** ** The error monad

    An operation on a state [S] is undefined ([None]), returns early with an
    error code ([inl]) or continues with a value ([inr]); the state changes it
    made before an error stay. *)
Definition M (S A : Type) : Type := S -> option (S * (Z + A)).

Section monad.
Context {S : Type}.
Definition ret {A} (a : A) : M S A := fun s => Some (s, inr a).
Definition err {A} (r : Z) : M S A := fun s => Some (s, inl r).
Definition bnd {A B} (m : M S A) (k : A -> M S B) : M S B := fun s =>
  match m s with
  | None => None
  | Some (s', inl r) => Some (s', inl r)
  | Some (s', inr a) => k a s'
  end.
(** A value the C code reads or computes; [None] is undefined behaviour. *)
Definition lft {A} (o : option A) : M S A := fun s => a ← o; Some (s, inr a).
Definition gets {A} (f : S -> A) : M S A := fun s => Some (s, inr (f s)).
Definition modify (f : S -> S) : M S unit := fun s => Some (f s, inr tt).
(** A call whose result the caller inspects or ignores instead of returning it. *)
Definition try {A} (m : M S A) : M S (Z + A) := fun s => '(s', r) ← m s; Some (s', inr r).

(** Total correctness: [m] from [s] is defined and ends as [Q] says. *)
Definition wp {A} (m : M S A) (s : S) (Q : S -> Z + A -> Prop) : Prop :=
  exists s' r, m s = Some (s', r) /\ Q s' r.

Lemma wp_bnd {A B} (m : M S A) (k : A -> M S B) s Q :
  wp m s (fun s' r => match r with inl e => Q s' (inl e) | inr a => wp (k a) s' Q end) ->
  wp (bnd m k) s Q.
Proof.
  intros (s' & [e|a] & Hm & HQ); unfold wp, bnd; rewrite Hm; [eauto|]. exact HQ.
Qed.

Lemma wp_mono {A} (m : M S A) s (Q Q' : S -> Z + A -> Prop) :
  wp m s Q -> (forall s' r, Q s' r -> Q' s' r) -> wp m s Q'.
Proof. intros (s1 & r & ? & ?) HQ. exists s1, r. auto. Qed.

Lemma wp_ret {A} (a : A) s (Q : S -> Z + A -> Prop) : Q s (inr a) -> wp (ret a) s Q.
Proof. intros. by exists s, (inr a). Qed.
Lemma wp_err {A} r s (Q : S -> Z + A -> Prop) : Q s (inl r) -> wp (err r) s Q.
Proof. intros. by exists s, (inl r). Qed.
Lemma wp_lft {A} (o : option A) a s (Q : S -> Z + A -> Prop) :
  o = Some a -> Q s (inr a) -> wp (lft o) s Q.
Proof. intros -> ?. by exists s, (inr a). Qed.
Lemma wp_gets {A} (f : S -> A) s (Q : S -> Z + A -> Prop) : Q s (inr (f s)) -> wp (gets f) s Q.
Proof. intros. by exists s, (inr (f s)). Qed.
Lemma wp_modify (f : S -> S) s (Q : S -> Z + unit -> Prop) : Q (f s) (inr tt) -> wp (modify f) s Q.
Proof. intros. by exists (f s), (inr tt). Qed.
Lemma wp_try {A} (m : M S A) s Q : wp m s (fun s' r => Q s' (inr r)) -> wp (try m) s Q.
Proof. intros (s' & r & Hm & HQ). exists s', (inr r). unfold try. by rewrite Hm. Qed.
End monad.

Declare Scope ext2_scope.
Delimit Scope ext2_scope with ext2.
Notation "'let*' x ':=' m 'in' k" := (bnd m (fun x => k))
  (at level 10, x name, m at level 100, k at level 200) : ext2_scope.
Notation "m ;;; k" := (bnd m (fun _ => k)) (at level 199, right associativity) : ext2_scope.

(** ** The primitives of the operations *)
Section prims.
Context {C : Type} {B : BlockStore C} (now : Z).
Abbreviation F := (M (ext2_fs C)).

(** [block_cache_read] into [buf] with the check of its result. *)
Definition bread (n : Z) (buf : bytes) : F bytes := fun s =>
  '(c, r, buf') ← block_read now (block_device s) n buf;
  Some (set_store c s, if r <? 0 then inl r else inr buf').

(** [block_cache_write] with the check of its result. *)
Definition bwrite (n : Z) (buf : bytes) : F Z := fun s =>
  '(c, r) ← block_write now (block_device s) n buf;
  Some (set_store c s, if r <? 0 then inl r else inr r).

(** [malloc(size)] and its check: memory of the heap is never given out twice,
    so the buffer is zero. *)
Definition alloc_buffer (size : Z) : F bytes := fun s =>
  let '(p, h) := malloc (heap_pos s) size in
  Some (set_heap_pos h s,
    match p with None => inl ERR_NO_MEMORY | Some _ => inr (replicate (Z.to_nat size) 0) end).

(** Members of the superblock and of the descriptor of a group. *)
Definition sbf (f : field) : F Z := fun s => v ← getf (superblock s) 0 f; Some (s, inr v).
Definition bgf (group : Z) (f : field) : F Z := fun s =>
  v ← getf (block_groups s) (group * sizeof_bg) f; Some (s, inr v).
Definition sbf_set (f : field) (v : Z) : F unit := fun s =>
  sb ← setf (superblock s) 0 f v; Some (set_superblock sb s, inr tt).
Definition bgf_set (group : Z) (f : field) (v : Z) : F unit := fun s =>
  bg ← setf (block_groups s) (group * sizeof_bg) f v; Some (set_block_groups bg s, inr tt).
End prims.

(** Unsigned division and remainder; by zero they are undefined. *)
Definition udiv (a b : Z) : option Z := if b =? 0 then None else Some (a / b).
Definition umod (a b : Z) : option Z := if b =? 0 then None else Some (a mod b).

(** ** Weakest preconditions of the primitives over a lawful store *)
Section laws.
Context {C : Type} {B : BlockStore C} {bs : Z} {L : BlockStoreLaws C bs} (now : Z).
Abbreviation F := (M (ext2_fs C)).
Implicit Types (s : ext2_fs C) (f : field).

Definition view s (b : Z) : bytes := st_view (block_device s) b.

(** The members of the in-memory superblock and descriptors, by value. *)
Definition sbv s f : Z := default 0 (getf (superblock s) 0 f).
Definition bgv s (g : Z) f : Z := default 0 (getf (block_groups s) (g * sizeof_bg) f).

(** A mounted file system over the store: buffers and blocks have the same size,
    and the in-memory copies of the metadata are complete. *)
Record fs_ok s : Prop := {
  ok_store : st_inv (block_device s);
  ok_bs : fs_block_size s = bs;
  ok_heap : heap_wf (heap_pos s);
  ok_sb : lenZ (superblock s) = sizeof_superblock;
  ok_groups : 0 <= num_block_groups s /\ num_block_groups s * sizeof_bg <= lenZ (block_groups s)
}.

(** [s'] follows [s]: it used at most [k] buffers, and its blocks are [V]. *)
Record moved s s' (k : Z) (V : Z -> bytes) : Prop := {
  mv_ok : fs_ok s';
  mv_groups : num_block_groups s' = num_block_groups s;
  mv_heap : heap_pos s <= heap_pos s' <= heap_pos s + k * bs;
  mv_view b : st_ok b -> view s' b = V b
}.

(** [s'] follows [s] without a change to blocks or metadata. *)
Record quiet s s' (k : Z) : Prop := {
  qu_moved : moved s s' k (view s);
  qu_sb : superblock s' = superblock s;
  qu_bg : block_groups s' = block_groups s;
  qu_dirty : fs_dirty s' = fs_dirty s
}.

(** [s'] follows [s] with block [n] written as [buf] and the same metadata. *)
Record wrote s s' (k n : Z) (buf : bytes) : Prop := {
  wr_moved : moved s s' k (fun b => if decide (n = b) then buf else view s b);
  wr_sb : superblock s' = superblock s;
  wr_bg : block_groups s' = block_groups s
}.

(** Room for [k] more buffers. *)
Definition room s (k : Z) : Prop := heap_pos s + k * bs <= HEAP_SIZE.

Lemma sbv_getf s f : fs_ok s -> in_struct sizeof_superblock f = true ->
  getf (superblock s) 0 f = Some (sbv s f).
Proof.
  intros Hs Hf. unfold in_struct in Hf. unfold sbv, getf.
  destruct (ld_is_Some (superblock s) (0 + f_off f) (f_width f)) as [v ->];
    [|rewrite (ok_sb _ Hs)|done]; lia.
Qed.

Lemma bgv_getf s g f : fs_ok s -> 0 <= g < num_block_groups s -> in_struct sizeof_bg f = true ->
  getf (block_groups s) (g * sizeof_bg) f = Some (bgv s g f).
Proof.
  intros Hs Hg Hf. unfold in_struct in Hf. unfold bgv, getf. destruct (ok_groups _ Hs).
  unfold sizeof_bg in *.
  destruct (ld_is_Some (block_groups s) (g * 32 + f_off f) (f_width f)) as [v ->]; [lia..|done].
Qed.

Lemma sbv_range s f : 0 <= sbv s f < 256 ^ Z.of_nat (f_width f).
Proof.
  unfold sbv, getf. destruct (ld _ _ _) as [v|] eqn:E; cbn; [by apply ld_inv in E as (_ & _ & ?)|].
  split; [done|]. apply Z.pow_pos_nonneg; lia.
Qed.
Lemma bgv_range s g f : 0 <= bgv s g f < 256 ^ Z.of_nat (f_width f).
Proof.
  unfold bgv, getf. destruct (ld _ _ _) as [v|] eqn:E; cbn; [by apply ld_inv in E as (_ & _ & ?)|].
  split; [done|]. apply Z.pow_pos_nonneg; lia.
Qed.

Lemma wp_sbf f s (Q : ext2_fs C -> Z + Z -> Prop) :
  fs_ok s -> in_struct sizeof_superblock f = true -> Q s (inr (sbv s f)) -> wp (sbf f) s Q.
Proof. intros Hs Hf HQ. exists s, (inr (sbv s f)). unfold sbf. by rewrite (sbv_getf s f). Qed.

Lemma wp_bgf g f s (Q : ext2_fs C -> Z + Z -> Prop) :
  fs_ok s -> 0 <= g < num_block_groups s -> in_struct sizeof_bg f = true ->
  Q s (inr (bgv s g f)) -> wp (bgf g f) s Q.
Proof. intros Hs Hg Hf HQ. exists s, (inr (bgv s g f)). unfold bgf. by rewrite (bgv_getf s g f). Qed.

Lemma wp_sbf_set f v s (Q : ext2_fs C -> Z + unit -> Prop) :
  fs_ok s -> in_struct sizeof_superblock f = true ->
  (forall sb, setf (superblock s) 0 f v = Some sb -> Q (set_superblock sb s) (inr tt)) ->
  wp (sbf_set f v) s Q.
Proof.
  intros Hs Hf HQ. unfold in_struct in Hf.
  destruct (st_is_Some (superblock s) (0 + f_off f) (f_width f) v) as [sb Hsb];
    [|rewrite (ok_sb _ Hs)|]; [lia..|].
  exists (set_superblock sb s), (inr tt). unfold sbf_set, setf. rewrite Hsb. split; [done|by apply HQ].
Qed.

Lemma wp_bgf_set g f v s (Q : ext2_fs C -> Z + unit -> Prop) :
  fs_ok s -> 0 <= g < num_block_groups s -> in_struct sizeof_bg f = true ->
  (forall bg, setf (block_groups s) (g * sizeof_bg) f v = Some bg -> Q (set_block_groups bg s) (inr tt)) ->
  wp (bgf_set g f v) s Q.
Proof.
  intros Hs Hg Hf HQ. unfold in_struct in Hf. destruct (ok_groups _ Hs). unfold sizeof_bg in *.
  destruct (st_is_Some (block_groups s) (g * 32 + f_off f) (f_width f) v) as [bg Hbg]; [lia..|].
  exists (set_block_groups bg s), (inr tt). unfold bgf_set, setf, sizeof_bg. rewrite Hbg.
  split; [done|by apply HQ].
Qed.

Lemma wp_bread_raw n buf s (Q : ext2_fs C -> Z + bytes -> Prop) :
  0 < bs -> st_inv (block_device s) -> st_ok n -> lenZ buf = bs ->
  (forall c, st_inv c -> (forall b, st_ok b -> st_view c b = view s b) ->
     Q (set_store c s) (inr (view s n))) ->
  wp (bread now n buf) s Q.
Proof.
  intros Hbs Hs Hn Hl HQ.
  destruct (st_read_ok now (block_device s) n buf) as (c & Hr & Hc & Hv); [done..|].
  exists (set_store c s), (inr (view s n)). unfold bread. rewrite Hr. cbn.
  rewrite (proj2 (Z.ltb_ge _ _)) by lia. split; [done|by apply HQ].
Qed.

Lemma wp_bread n buf s (Q : ext2_fs C -> Z + bytes -> Prop) :
  0 < bs -> fs_ok s -> st_ok n -> lenZ buf = bs ->
  (forall c, st_inv c -> (forall b, st_ok b -> st_view c b = view s b) ->
     Q (set_store c s) (inr (view s n))) ->
  wp (bread now n buf) s Q.
Proof. intros ? Hs. apply wp_bread_raw; [done|by apply ok_store]. Qed.

Lemma wp_bwrite n buf s (Q : ext2_fs C -> Z + Z -> Prop) :
  0 < bs -> fs_ok s -> st_ok n -> lenZ buf = bs ->
  (forall c, st_inv c ->
     (forall b, st_ok b -> st_view c b = if decide (n = b) then buf else view s b) ->
     Q (set_store c s) (inr bs)) ->
  wp (bwrite now n buf) s Q.
Proof.
  intros Hbs Hs Hn Hl HQ.
  destruct (st_write_ok now (block_device s) n buf) as (c & Hr & Hc & Hv); [by apply ok_store|done..|].
  exists (set_store c s), (inr bs). unfold bwrite. rewrite Hr. cbn.
  rewrite (proj2 (Z.ltb_ge _ _)) by lia. split; [done|by apply HQ].
Qed.

Lemma wp_alloc_raw size s (Q : ext2_fs C -> Z + bytes -> Prop) :
  heap_wf (heap_pos s) -> 0 <= size -> heap_pos s + size <= HEAP_SIZE ->
  (forall h, heap_wf h -> heap_pos s + size <= h < heap_pos s + size + 16 ->
     Q (set_heap_pos h s) (inr (replicate (Z.to_nat size) 0))) ->
  wp (alloc_buffer size) s Q.
Proof.
  intros Hw H0 Hr HQ. destruct (malloc_cases (heap_pos s) size) as [[_ ?]|(h & Hm & Hh & Hw')];
    [done|split; unfold HEAP_SIZE in *; destruct Hw; lia|lia|].
  eexists _, _. unfold alloc_buffer. rewrite Hm. split; [done|]. by apply HQ.
Qed.

Lemma wp_alloc_buffer s (Q : ext2_fs C -> Z + bytes -> Prop) :
  0 < bs < 2147483648 -> bs mod 16 = 0 -> fs_ok s -> room s 1 ->
  (forall buf, lenZ buf = bs -> buf = replicate (Z.to_nat bs) 0 ->
     Q (set_heap_pos (heap_pos s + bs) s) (inr buf)) ->
  wp (alloc_buffer bs) s Q.
Proof.
  intros Hbs H16 Hs Hr HQ. exists (set_heap_pos (heap_pos s + bs) s), (inr (replicate (Z.to_nat bs) 0)).
  split; [|apply HQ; [rewrite lenZ_replicate; lia|done]]. unfold alloc_buffer. unfold room in Hr.
  destruct (malloc_cases (heap_pos s) bs) as [[_ ?]|(h & -> & Hh & Hw)];
    [by apply ok_heap|split; unfold HEAP_SIZE; lia|lia|].
  do 4 f_equal. destruct (ok_heap _ Hs) as [_ H0]. destruct Hw as [_ Hw]. dlia.
Qed.

(** *** The invariant through state changes *)
Lemma fs_ok_store c s : st_inv c -> fs_ok s -> fs_ok (set_store c s).
Proof. by intros ? []. Qed.
Lemma fs_ok_heap h s : heap_wf h -> fs_ok s -> fs_ok (set_heap_pos h s).
Proof. by intros ? []. Qed.
Lemma fs_ok_dirty d s : fs_ok s -> fs_ok (set_fs_dirty d s).
Proof. by intros []. Qed.
Lemma fs_ok_sb sb s f v : setf (superblock s) 0 f v = Some sb -> fs_ok s -> fs_ok (set_superblock sb s).
Proof. intros H%st_length []. split; cbn; [done..| |done]. congruence. Qed.
Lemma fs_ok_bg bg s off f v : setf (block_groups s) off f v = Some bg -> fs_ok s -> fs_ok (set_block_groups bg s).
Proof. intros H%st_length []. split; cbn; [done..|]. by rewrite H. Qed.

Lemma heap_wf_grow s : 0 < bs -> bs mod 16 = 0 -> fs_ok s -> room s 1 -> heap_wf (heap_pos s + bs).
Proof. unfold room, heap_wf. intros ? ? Hs ?. destruct (ok_heap _ Hs). split; [lia|]. dlia. Qed.

Lemma quiet_refl s : fs_ok s -> quiet s s 0.
Proof. intros. split; [split; [done|done|lia|done]|done..]. Qed.

Lemma moved_quiet s s1 s2 k1 k2 V :
  quiet s s1 k1 -> moved s1 s2 k2 V -> moved s s2 (k1 + k2) V.
Proof. intros [[] _ _ _] []. split; [done|congruence|lia|done]. Qed.

Lemma moved_ext s s' k V V' :
  moved s s' k V -> (forall b, st_ok b -> V b = V' b) -> moved s s' k V'.
Proof. intros [] HV. split; [done..|]. intros b Hb. rewrite <- HV by done. auto. Qed.

Lemma quiet_trans s s1 s2 k1 k2 : quiet s s1 k1 -> quiet s1 s2 k2 -> quiet s s2 (k1 + k2).
Proof.
  intros H1 H2. pose proof (mv_view _ _ _ _ (qu_moved _ _ _ H1)) as Hv1.
  pose proof (mv_view _ _ _ _ (qu_moved _ _ _ H2)) as Hv2.
  destruct (moved_quiet _ _ _ _ _ _ H1 (qu_moved _ _ _ H2)), H1, H2.
  split; [|congruence..]. split; [done..|]. intros b Hb. by rewrite Hv2, Hv1.
Qed.

Lemma quiet_weaken s s' k k' : 0 <= bs -> quiet s s' k -> k <= k' -> quiet s s' k'.
Proof. intros ? [[] ? ? ?] ?. split; [|done..]. split; [done|done|nia|done]. Qed.

Lemma quiet_read c s k s0 :
  quiet s0 s k -> st_inv c -> (forall b, st_ok b -> st_view c b = view s b) -> quiet s0 (set_store c s) k.
Proof.
  intros [[] ? ? ?] Hc Hv. split; [|done..]. split; [by apply fs_ok_store|done|done|].
  intros b Hb. cbn. rewrite <- mv_view0 by done. by apply Hv.
Qed.

Lemma quiet_buffer s0 s k :
  0 < bs -> bs mod 16 = 0 -> room s 1 -> quiet s0 s k -> quiet s0 (set_heap_pos (heap_pos s + bs) s) (k + 1).
Proof.
  intros ? ? ? [[] ? ? ?]. split; [|done..]. split; [|done|cbn; lia|done].
  apply fs_ok_heap; [by apply heap_wf_grow|done].
Qed.

Lemma wrote_quiet s0 s k n buf c :
  quiet s0 s k -> st_inv c -> (forall b, st_ok b -> st_view c b = if decide (n = b) then buf else view s b) ->
  wrote s0 (set_store c s) k n buf.
Proof.
  intros [[Hs Hg Hh Hv] Hsb Hbg _] Hc Hvc. split; [split|done|done]; [by apply fs_ok_store|done|done|].
  intros b Hb. change (view (set_store c s) b) with (st_view c b). rewrite Hvc by done. case_decide; [done|auto].
Qed.

Lemma quiet_sbv s s' k f : quiet s s' k -> sbv s' f = sbv s f.
Proof. intros []. unfold sbv. congruence. Qed.
Lemma quiet_bgv s s' k g f : quiet s s' k -> bgv s' g f = bgv s g f.
Proof. intros []. unfold bgv. congruence. Qed.
Lemma quiet_groups s s' k : quiet s s' k -> num_block_groups s' = num_block_groups s.
Proof. by intros [[] _ _ _]. Qed.
Lemma quiet_view s s' k b : quiet s s' k -> st_ok b -> view s' b = view s b.
Proof. intros [[] _ _ _] Hb. auto. Qed.
Lemma quiet_ok s s' k : quiet s s' k -> fs_ok s'.
Proof. by intros [[] _ _ _]. Qed.
Lemma quiet_room s s' k n : quiet s s' k -> room s (k + n) -> room s' n.
Proof. intros [[] _ _ _]. unfold room. lia. Qed.

(** A block read into a new buffer, after steps that changed nothing. *)
Lemma wp_load {A} n s0 s k (K : bytes -> F A) (Q : ext2_fs C -> Z + A -> Prop) :
  0 < bs < 2147483648 -> bs mod 16 = 0 -> quiet s0 s k -> st_ok n -> room s0 (k + 1) ->
  (forall s1, quiet s0 s1 (k + 1) -> wp (K (view s0 n)) s1 Q) ->
  wp (bnd (alloc_buffer (fs_block_size s)) (fun buf => bnd (bread now n buf) K)) s Q.
Proof.
  intros Hbs H16 Hq Hn Hr HK. pose proof (quiet_ok _ _ _ Hq) as Hs. rewrite (ok_bs _ Hs).
  apply (quiet_room _ _ _ _ Hq) in Hr.
  apply wp_bnd, wp_alloc_buffer; [done..|]. intros buf Hl _.
  pose proof (quiet_buffer s0 s k ltac:(lia) H16 Hr Hq) as Hq1.
  apply wp_bnd, wp_bread; [lia|by eapply quiet_ok|done|done|]. intros c Hc Hv.
  assert (view (set_heap_pos (heap_pos s + bs) s) n = view s0 n) as -> by (by eapply quiet_view).
  apply HK. by apply quiet_read.
Qed.

End laws.
Arguments room {C} bs s k.
