(* ===== verification/Ext2Alloc.v ===== *)
(** * The ext2 allocator: [src/fs/ext2/alloc.c]

    Bitmaps, and the allocation and release of blocks and inodes. *)
From S2P Require Import Prelude KernelLib Ext2Base.
Import Memory.
Open Scope Z_scope.

(** ** Bitmaps *)
Module Bitmap.

(** The inner loop: the first [j], from [j], of [n] bits of [b] that is zero. *)
Fixpoint byte_scan (b j : Z) (n : nat) : option Z :=
  match n with
  | O => None
  | S n' => if Z.land b (Z.shiftl 1 j) =? 0 then Some j else byte_scan b (j + 1) n'
  end.

Fixpoint bitmap_scan (bitmap : bytes) (i : Z) (n : nat) : option Z :=
  match n with
  | O => Some (-1)
  | S n' =>
      b ← getZ bitmap i;
      if b =? 255 then bitmap_scan bitmap (i + 1) n'
      else
        match byte_scan b 0 8 with
        | Some j => Some (i32 (u32 (i * 8 + j)))
        | None => bitmap_scan bitmap (i + 1) n'
        end
  end.

Definition find_first_zero_bit (bitmap : bytes) (size : Z) : option Z :=
  bitmap_scan bitmap 0 (Z.to_nat size).

Definition set_bit (bitmap : bytes) (bit : Z) : option bytes :=
  b ← getZ bitmap (bit / 8);
  setZ bitmap (bit / 8) (u8 (Z.lor b (Z.shiftl 1 (bit mod 8)))).

Definition clear_bit (bitmap : bytes) (bit : Z) : option bytes :=
  b ← getZ bitmap (bit / 8);
  setZ bitmap (bit / 8) (u8 (Z.land b (Z.lnot (Z.shiftl 1 (bit mod 8))))).

Definition test_bit (bitmap : bytes) (bit : Z) : option bool :=
  b ← getZ bitmap (bit / 8);
  Some (negb (Z.land b (Z.shiftl 1 (bit mod 8)) =? 0)).

(** *** Correctness *)
Lemma land_pow2_zero b j : 0 <= j -> (Z.land b (Z.shiftl 1 j) =? 0) = negb (Z.testbit b j).
Proof.
  intros Hj. rewrite Z.shiftl_1_l. destruct (Z.testbit b j) eqn:E; cbn.
  - apply Z.eqb_neq. intros H0.
    assert (Z.testbit (Z.land b (2 ^ j)) j = true) as H1.
    { by rewrite Z.land_spec, E, Z.pow2_bits_true. }
    by rewrite H0, Z.bits_0 in H1.
  - apply Z.eqb_eq. apply Z.bits_inj'. intros n Hn. rewrite Z.land_spec, Z.bits_0.
    destruct (decide (n = j)) as [->|]; [by rewrite E|].
    rewrite Z.pow2_bits_false by done. apply andb_false_r.
Qed.

Lemma test_bit_spec bitmap bit :
  0 <= bit < 8 * lenZ bitmap ->
  exists b, getZ bitmap (bit / 8) = Some b /\ test_bit bitmap bit = Some (Z.testbit b (bit mod 8)).
Proof.
  intros Hb. destruct (getZ_is_Some bitmap (bit / 8)) as [b Eb]; [dlia|].
  exists b. split; [done|]. unfold test_bit. rewrite Eb. cbn.
  by rewrite land_pow2_zero, negb_involutive by dlia.
Qed.

Lemma byte_scan_spec b n : forall j, 0 <= j ->
  match byte_scan b j n with
  | Some k => j <= k < j + Z.of_nat n /\ Z.testbit b k = false /\
      forall i, j <= i < k -> Z.testbit b i = true
  | None => forall i, j <= i < j + Z.of_nat n -> Z.testbit b i = true
  end.
Proof.
  induction n as [|n IH]; intros j Hj; cbn [byte_scan]; [intros; lia|].
  rewrite land_pow2_zero by done. destruct (Z.testbit b j) eqn:E; cbn [negb].
  - specialize (IH (j + 1) ltac:(lia)). destruct (byte_scan b (j + 1) n) as [k|].
    + destruct IH as (? & ? & IH). split; [lia|]. split; [done|]. intros i Hi.
      destruct (decide (i = j)) as [->|]; [done|apply IH; lia].
    + intros i Hi. destruct (decide (i = j)) as [->|]; [done|apply IH; lia].
  - split; [lia|]. split; [done|]. intros; lia.
Qed.

(** Bit [i] of a full byte of [bitmap]. *)
Lemma test_bit_in bitmap i b bit :
  getZ bitmap i = Some b -> 8 * i <= bit < 8 * i + 8 ->
  test_bit bitmap bit = Some (Z.testbit b (bit - 8 * i)).
Proof.
  intros Hb Hr. unfold test_bit. replace (bit / 8) with i by dlia. rewrite Hb. cbn.
  replace (bit mod 8) with (bit - 8 * i) by dlia. by rewrite land_pow2_zero, negb_involutive by lia.
Qed.

Lemma bitmap_scan_spec bitmap n : forall i,
  0 <= i -> i + Z.of_nat n <= lenZ bitmap -> 8 * lenZ bitmap < 2147483648 ->
  exists r, bitmap_scan bitmap i n = Some r /\
    ((r = -1 /\ forall bit, 8 * i <= bit < 8 * (i + Z.of_nat n) -> test_bit bitmap bit = Some true) \/
     (8 * i <= r < 8 * (i + Z.of_nat n) /\ test_bit bitmap r = Some false /\
      forall bit, 8 * i <= bit < r -> test_bit bitmap bit = Some true)).
Proof.
  induction n as [|n IH]; intros i Hi Hn Hl; cbn [bitmap_scan].
  { exists (-1). split; [done|]. left. split; [done|]. intros; lia. }
  destruct (getZ_is_Some bitmap i) as [b Eb]; [lia|]. rewrite Eb. cbn [mbind option_bind].
  pose proof (byte_scan_spec b 8 0 ltac:(lia)) as Hs.
  assert ((b = 255 \/ byte_scan b 0 8 = None) -> forall bit, 8 * i <= bit < 8 * i + 8 ->
          test_bit bitmap bit = Some true) as Hfull.
  { intros Hb bit Hbit. rewrite (test_bit_in bitmap i b) by done. f_equal.
    destruct Hb as [->|Hb]; [|rewrite Hb in Hs; apply Hs; lia].
    change 255 with (Z.ones 8). rewrite Z.testbit_ones_nonneg by lia. lia. }
  destruct (IH (i + 1)) as (r & Hr & Hspec); [lia..|].
  assert ((b = 255 \/ byte_scan b 0 8 = None) -> exists r0, bitmap_scan bitmap (i + 1) n = Some r0 /\
    ((r0 = -1 /\ forall bit, 8 * i <= bit < 8 * (i + Z.of_nat (S n)) -> test_bit bitmap bit = Some true) \/
     (8 * i <= r0 < 8 * (i + Z.of_nat (S n)) /\ test_bit bitmap r0 = Some false /\
      forall bit, 8 * i <= bit < r0 -> test_bit bitmap bit = Some true))) as Hskip.
  { intros Hb. exists r. split; [done|]. specialize (Hfull Hb).
    destruct Hspec as [[-> Hall]|(? & ? & Hall)]; [left|right].
    - split; [done|]. intros bit ?. destruct (decide (bit < 8 * i + 8)); [apply Hfull|apply Hall]; lia.
    - split; [lia|]. split; [done|]. intros bit ?.
      destruct (decide (bit < 8 * i + 8)); [apply Hfull|apply Hall]; lia. }
  destruct (Z.eqb_spec b 255); [apply Hskip; auto|].
  destruct (byte_scan b 0 8) as [j|]; [|apply Hskip; auto].
  destruct Hs as (? & ? & Hlow). exists (i * 8 + j).
  rewrite u32_id by (red; lia). rewrite i32_id by lia. split; [done|]. right. split; [lia|]. split.
  - rewrite (test_bit_in bitmap i b) by (done || lia). f_equal.
    by replace (i * 8 + j - 8 * i) with j by lia.
  - intros bit ?. rewrite (test_bit_in bitmap i b) by (done || lia). f_equal. apply Hlow. lia.
Qed.

(** over a bitmap of [size] bytes, [find_first_zero_bit] stays inside it and
    returns the least clear bit, or -1 exactly when every bit is set. *)
Theorem find_first_zero_bit_correct bitmap size :
  0 <= size <= lenZ bitmap -> 8 * lenZ bitmap < 2147483648 ->
  exists r, find_first_zero_bit bitmap size = Some r /\
    ((r = -1 /\ forall bit, 0 <= bit < 8 * size -> test_bit bitmap bit = Some true) \/
     (0 <= r < 8 * size /\ test_bit bitmap r = Some false /\
      forall bit, 0 <= bit < r -> test_bit bitmap bit = Some true)).
Proof.
  intros Hs Hl. unfold find_first_zero_bit.
  destruct (bitmap_scan_spec bitmap (Z.to_nat size) 0) as (r & Hr & Hspec); [lia..|].
  exists r. split; [done|]. rewrite Z.add_0_l, Z2Nat.id in Hspec by lia. exact Hspec.
Qed.

Lemma find_first_zero_bit_correct_witness :
  exists r, find_first_zero_bit [255; 255; 23] 3 = Some r /\ r = 19.
Proof.
  destruct (find_first_zero_bit_correct [255; 255; 23] 3) as (r & Hr & _);
    [unfold lenZ; cbn; lia..|].
  exists r. split; [exact Hr|]. vm_compute in Hr. congruence.
Defined.

Lemma testbit_u8 b n : 0 <= n -> Z.testbit (u8 b) n = Z.testbit b n && (n <? 8).
Proof.
  intros Hn. unfold u8. change 256 with (2 ^ 8). destruct (Z.ltb_spec n 8).
  - rewrite Z.mod_pow2_bits_low by lia. by rewrite andb_true_r.
  - rewrite Z.mod_pow2_bits_high by lia. by rewrite andb_false_r.
Qed.

(** Writing one byte through [f], as [set_bit] and [clear_bit] do. *)
Lemma write_byte bitmap bit (f : Z -> Z) :
  0 <= bit < 8 * lenZ bitmap ->
  exists b, getZ bitmap (bit / 8) = Some b /\
    (b ← getZ bitmap (bit / 8); setZ bitmap (bit / 8) (f b)) =
      Some (<[Z.to_nat (bit / 8) := f b]> bitmap) /\
    forall k, 0 <= k < 8 * lenZ bitmap ->
      test_bit (<[Z.to_nat (bit / 8) := f b]> bitmap) k =
      if k / 8 =? bit / 8 then Some (Z.testbit (f b) (k mod 8)) else test_bit bitmap k.
Proof.
  intros Hbit. destruct (getZ_is_Some bitmap (bit / 8)) as [b Eb]; [dlia|].
  exists b. split; [done|]. rewrite Eb. cbn. rewrite setZ_Some by dlia. split; [done|].
  intros k Hk. unfold test_bit, getZ.
  rewrite (proj2 (Z.ltb_ge (k / 8) 0)) by dlia. destruct (Z.eqb_spec (k / 8) (bit / 8)) as [->|Hne].
  - rewrite list_lookup_insert_eq by (unfold lenZ in *; dlia). cbn.
    by rewrite land_pow2_zero, negb_involutive by dlia.
  - by rewrite list_lookup_insert_ne by dlia.
Qed.

Lemma testbit_pow2 j k : 0 <= j -> Z.testbit (Z.shiftl 1 j) k = (k =? j).
Proof.
  intros Hj. rewrite Z.shiftl_1_l. destruct (Z.eqb_spec k j) as [->|]; [by apply Z.pow2_bits_true|].
  by apply Z.pow2_bits_false.
Qed.

Lemma set_bit_spec bitmap bit :
  0 <= bit < 8 * lenZ bitmap ->
  exists bm, set_bit bitmap bit = Some bm /\ lenZ bm = lenZ bitmap /\
    forall k, 0 <= k < 8 * lenZ bitmap ->
      test_bit bm k = if k =? bit then Some true else test_bit bitmap k.
Proof.
  intros Hbit. destruct (write_byte bitmap bit (fun b => u8 (Z.lor b (Z.shiftl 1 (bit mod 8)))))
    as (b & Eb & Hs & Ht); [done|].
  eexists; split; [exact Hs|]. split; [apply lenZ_insert|]. intros k Hk. rewrite Ht by done.
  destruct (Z.eqb_spec (k / 8) (bit / 8)) as [E|E]; [|destruct (Z.eqb_spec k bit); [congruence|done]].
  rewrite testbit_u8, Z.lor_spec, testbit_pow2 by dlia.
  rewrite (proj2 (Z.ltb_lt (k mod 8) 8)) by dlia. rewrite andb_true_r.
  destruct (Z.eqb_spec k bit) as [->|Hne]; [by rewrite Z.eqb_refl, orb_true_r|].
  rewrite (proj2 (Z.eqb_neq _ _)) by dlia. rewrite orb_false_r.
  rewrite (test_bit_in bitmap (k / 8) b) by (congruence || dlia). do 2 f_equal. dlia.
Qed.

Lemma clear_bit_spec bitmap bit :
  0 <= bit < 8 * lenZ bitmap ->
  exists bm, clear_bit bitmap bit = Some bm /\ lenZ bm = lenZ bitmap /\
    forall k, 0 <= k < 8 * lenZ bitmap ->
      test_bit bm k = if k =? bit then Some false else test_bit bitmap k.
Proof.
  intros Hbit. destruct (write_byte bitmap bit (fun b => u8 (Z.land b (Z.lnot (Z.shiftl 1 (bit mod 8))))))
    as (b & Eb & Hs & Ht); [done|].
  eexists; split; [exact Hs|]. split; [apply lenZ_insert|]. intros k Hk. rewrite Ht by done.
  destruct (Z.eqb_spec (k / 8) (bit / 8)) as [E|E]; [|destruct (Z.eqb_spec k bit); [congruence|done]].
  rewrite testbit_u8, Z.land_spec, Z.lnot_spec, testbit_pow2 by dlia.
  rewrite (proj2 (Z.ltb_lt (k mod 8) 8)) by dlia. rewrite andb_true_r.
  destruct (Z.eqb_spec k bit) as [->|Hne]; [by rewrite Z.eqb_refl, andb_false_r|].
  rewrite (proj2 (Z.eqb_neq _ _)) by dlia. rewrite andb_true_r.
  rewrite (test_bit_in bitmap (k / 8) b) by (congruence || dlia). do 2 f_equal. dlia.
Qed.

(** Clearing a bit that was just set gives the bitmap back, if it was clear. *)
Lemma clear_set_bit bitmap bit bm :
  bytes_ok bitmap -> test_bit bitmap bit = Some false -> set_bit bitmap bit = Some bm ->
  clear_bit bm bit = Some bitmap.
Proof.
  intros Hok Ht. unfold set_bit, clear_bit, test_bit in *.
  destruct (getZ bitmap (bit / 8)) as [b|] eqn:Eb; [|done]. cbn in *.
  intros (Hr & ->)%setZ_inv. pose proof (getZ_lt _ _ _ Eb) as Hlt. injection Ht as Ht.
  rewrite land_pow2_zero, negb_involutive in Ht by dlia.
  assert (is_u8 b) as Hb.
  { apply getZ_Some in Eb as [_ Eb]. by eapply Forall_lookup_1 in Hok. }
  unfold getZ. rewrite (proj2 (Z.ltb_ge _ _)), list_lookup_insert_eq by (unfold lenZ in *; lia). cbn.
  rewrite setZ_Some by (rewrite lenZ_insert; lia). f_equal. rewrite list_insert_insert_eq.
  apply getZ_Some in Eb as [_ Eb]. apply list_insert_id. rewrite Eb. f_equal.
  apply Z.bits_inj'. intros n Hn. rewrite testbit_u8, Z.land_spec, Z.lnot_spec, testbit_u8, Z.lor_spec, !testbit_pow2 by dlia.
  assert (Z.testbit b n = Z.testbit b n && (n <? 8)) as ->.
  { rewrite <- testbit_u8 by done. by rewrite u8_id. }
  destruct (Z.eqb_spec n (bit mod 8)) as [->|]; [rewrite Ht; cbn; by rewrite ?andb_false_r|].
  destruct (Z.testbit b n), (n <? 8); done.
Qed.

End Bitmap.

(** ** Allocation *)
Import Bitmap.
Open Scope ext2_scope.

Section alloc.
Context {C : Type} {B : BlockStore C} (now : Z).
Abbreviation F := (M (ext2_fs C)).

(** [ext2_get_block_group] and [ext2_get_inode_group] of [superblock.c]. *)
Definition ext2_get_block_group (block_num : Z) : F Z :=
  let* first := sbf s_first_data_block in
  let* per := sbf s_blocks_per_group in
  lft (udiv (u32 (block_num - first)) per).

Definition ext2_get_inode_group (ino : Z) : F Z :=
  let* per := sbf s_inodes_per_group in
  lft (udiv (u32 (ino - 1)) per).

(** The members by which the block and the inode allocator differ. *)
Record kind := Kind {
  k_bitmap : field;      (* of the descriptor: the bitmap's block *)
  k_count : field;       (* of the descriptor: free objects *)
  k_per_group : field;   (* of the superblock *)
  k_total : field        (* of the superblock: free objects *)
}.
Definition blocks : kind :=
  Kind bg_block_bitmap bg_free_blocks_count s_blocks_per_group s_free_blocks_count.
Definition inodes : kind :=
  Kind bg_inode_bitmap bg_free_inodes_count s_inodes_per_group s_free_inodes_count.

(** The end of an allocation ([d = -1]) and of a release ([d = 1]): the bitmap is
    written back, both counters are updated, the file system is dirty. *)
Definition commit (k : kind) (group bitmap_block : Z) (bitmap : bytes) (d : Z) : F unit :=
  bwrite now bitmap_block bitmap;;;
  let* count := bgf group (k_count k) in
  bgf_set group (k_count k) (u16 (count + d));;;
  let* total := sbf (k_total k) in
  sbf_set (k_total k) (u32 (total + d));;;
  modify (set_fs_dirty true).

(** The loop over the groups, from [group], [n] of them left: the group and the
    bit it allocated. *)
Fixpoint alloc_loop (k : kind) (n : nat) (group : Z) : F (Z * Z) :=
  match n with
  | O => err ERR_NO_MEMORY
  | S n' =>
      let* count := bgf group (k_count k) in
      if count =? 0 then alloc_loop k n' (group + 1)
      else
        let* bitmap_block := bgf group (k_bitmap k) in
        let* size := gets fs_block_size in
        let* bitmap := alloc_buffer size in
        let* bitmap := bread now bitmap_block bitmap in
        let* bit := lft (find_first_zero_bit bitmap size) in
        let* per := sbf (k_per_group k) in
        if (bit <? 0) || (i32 per <=? bit) then alloc_loop k n' (group + 1)
        else
          let* bitmap := lft (set_bit bitmap bit) in
          commit k group bitmap_block bitmap (-1);;;
          ret (group, bit)
  end.

Definition ext2_alloc_block : F Z :=
  let* groups := gets num_block_groups in
  let* p := alloc_loop blocks (Z.to_nat groups) 0 in
  let* first := sbf s_first_data_block in
  let* per := sbf s_blocks_per_group in
  ret (u32 (first + p.1 * per + p.2)).

Definition ext2_alloc_inode : F Z :=
  let* groups := gets num_block_groups in
  let* p := alloc_loop inodes (Z.to_nat groups) 0 in
  let* per := sbf s_inodes_per_group in
  ret (u32 (p.1 * per + p.2 + 1)).

(** The common part of the two releases, once group and bit are known.  Freeing a
    free object only prints a warning. *)
Definition free_bit (k : kind) (group bit : Z) : F unit :=
  let* bitmap_block := bgf group (k_bitmap k) in
  let* size := gets fs_block_size in
  let* bitmap := alloc_buffer size in
  let* bitmap := bread now bitmap_block bitmap in
  lft (test_bit bitmap bit);;;
  let* bitmap := lft (clear_bit bitmap bit) in
  commit k group bitmap_block bitmap 1.

Definition ext2_free_block (block_num : Z) : F unit :=
  let* first := sbf s_first_data_block in
  let* total := sbf s_blocks_count in
  if (block_num <? first) || (total <=? block_num) then err ERR_INVALID
  else
    let* group := ext2_get_block_group block_num in
    let* groups := gets num_block_groups in
    if groups <=? group then err ERR_INVALID
    else
      let* per := sbf s_blocks_per_group in
      let* bit := lft (umod (u32 (block_num - first)) per) in
      free_bit blocks group bit.

Definition ext2_free_inode (ino : Z) : F unit :=
  let* total := sbf s_inodes_count in
  if (ino =? 0) || (total <? ino) then err ERR_INVALID
  else
    let* group := ext2_get_inode_group ino in
    let* groups := gets num_block_groups in
    if groups <=? group then err ERR_INVALID
    else
      let* per := sbf s_inodes_per_group in
      let* bit := lft (umod (u32 (ino - 1)) per) in
      free_bit inodes group bit.

End alloc.

(** ** Correctness of the allocator over a lawful store *)
Section alloc_correct.
Context {C : Type} {B : BlockStore C} {bs : Z} {L : BlockStoreLaws C bs} (now : Z).
Hypothesis bs_range : 0 < bs < 268435456.
Hypothesis bs_aligned : bs mod 16 = 0.
Implicit Types (s : ext2_fs C) (k : kind) (g bit : Z).

Definition kind_ok k : Prop := k = blocks \/ k = inodes.

(** The bitmap of group [g], as the store shows it. *)
Definition bitmap_of k s g : bytes := view s (bgv s g (k_bitmap k)).

(** Group [g] has no object to give: its counter is zero or its bitmap is full. *)
Definition exhausted k s g : Prop :=
  bgv s g (k_count k) = 0 \/
  forall bit, 0 <= bit < sbv s (k_per_group k) -> test_bit (bitmap_of k s g) bit = Some true.

(** The geometry of a mounted file system: the bitmap of every group is a block
    of the store of its own, and a bitmap covers its group. *)
Record geometry k s : Prop := {
  ge_ok g : 0 <= g < num_block_groups s -> st_ok (bgv s g (k_bitmap k));
  ge_distinct g g' : 0 <= g < num_block_groups s -> 0 <= g' < num_block_groups s ->
    bgv s g (k_bitmap k) = bgv s g' (k_bitmap k) -> g = g';
  ge_per : sbv s (k_per_group k) <= 8 * bs
}.

(** [s'] is [s] with bit [bit] of group [g] written as [bm], the counters moved
    by [d], and the file system marked dirty; [n] buffers were used at most. *)
Record counted k s s' g bm (d n : Z) : Prop := {
  ct_moved : moved s s' n (fun b => if decide (bgv s g (k_bitmap k) = b) then bm else view s b);
  ct_bg : setf (block_groups s) (g * sizeof_bg) (k_count k) (u16 (bgv s g (k_count k) + d))
            = Some (block_groups s');
  ct_sb : setf (superblock s) 0 (k_total k) (u32 (sbv s (k_total k) + d)) = Some (superblock s');
  ct_dirty : fs_dirty s' = true
}.

Lemma kind_fields k : kind_ok k ->
  in_struct sizeof_bg (k_bitmap k) = true /\ in_struct sizeof_bg (k_count k) = true /\
  in_struct sizeof_superblock (k_per_group k) = true /\ in_struct sizeof_superblock (k_total k) = true.
Proof. by intros [->| ->]. Qed.

Lemma geometry_quiet k s s' n : quiet s s' n -> geometry k s -> geometry k s'.
Proof.
  intros Hq [H1 H2 H3]. pose proof (quiet_groups _ _ _ Hq) as Hg.
  split; [intros g; rewrite Hg, (quiet_bgv _ _ _ _ _ Hq); auto
         |intros g g'; rewrite Hg, !(quiet_bgv _ _ _ _ _ Hq); auto
         |by rewrite (quiet_sbv _ _ _ _ Hq)].
Qed.

Lemma bitmap_of_quiet k s s' n g :
  quiet s s' n -> geometry k s -> 0 <= g < num_block_groups s -> bitmap_of k s' g = bitmap_of k s g.
Proof.
  intros Hq Hge Hg. unfold bitmap_of. rewrite (quiet_bgv _ _ _ _ _ Hq).
  eapply quiet_view; [done|by apply ge_ok].
Qed.

Lemma bitmap_of_len k s g :
  fs_ok s -> geometry k s -> 0 <= g < num_block_groups s -> lenZ (bitmap_of k s g) = bs.
Proof. intros Hs Hge Hg. apply st_view_len; [by apply ok_store|by apply ge_ok]. Qed.

Lemma wp_commit k s0 s n g bm d (Q : ext2_fs C -> Z + unit -> Prop) :
  kind_ok k -> quiet s0 s n -> geometry k s0 -> 0 <= g < num_block_groups s0 -> lenZ bm = bs ->
  (forall s', counted k s0 s' g bm d n -> Q s' (inr tt)) ->
  wp (commit now k g (bgv s0 g (k_bitmap k)) bm d) s Q.
Proof.
  intros Hk Hq Hge Hg Hl HQ. destruct (kind_fields k Hk) as (F1 & F2 & F3 & F4).
  pose proof (quiet_ok _ _ _ Hq) as Hs. pose proof (quiet_groups _ _ _ Hq) as Hgr.
  unfold commit. apply wp_bnd, wp_bwrite; [lia|done|by apply ge_ok|done|]. intros c Hc Hv.
  pose proof (fs_ok_store c s Hc Hs) as Hs1.
  apply wp_bnd, wp_bgf; [done|cbn; lia|done|]. apply wp_bnd.
  apply wp_bgf_set; [done|cbn; lia|done|]. intros bg Hbg.
  pose proof (fs_ok_bg _ _ _ _ _ Hbg Hs1) as Hs2.
  apply wp_bnd, wp_sbf; [done..|]. apply wp_bnd, wp_sbf_set; [done..|]. intros sb Hsb.
  pose proof (fs_ok_sb _ _ _ _ Hsb Hs2) as Hs3.
  apply wp_modify, HQ. destruct Hq as [[_ Hgr' Hh Hv0] Esb Ebg _]. cbn in Hbg, Hsb. split.
  - split; [by apply fs_ok_dirty|done|done|]. intros b Hb.
    change (st_view c b = if decide (bgv s0 g (k_bitmap k) = b) then bm else view s0 b).
    rewrite Hv by done. case_decide; [done|by apply Hv0].
  - cbn. rewrite <- Hbg, Ebg. unfold bgv. cbn. by rewrite Ebg.
  - cbn. rewrite <- Hsb, Esb. unfold sbv. cbn. by rewrite Esb.
  - done.
Qed.

(** The contract of the loop over the groups. *)
Definition alloc_post k s g0 n s' (r : Z + Z * Z) : Prop :=
  match r with
  | inr (g, bit) =>
      g0 <= g < num_block_groups s /\ 0 <= bit < sbv s (k_per_group k) /\
      test_bit (bitmap_of k s g) bit = Some false /\
      (forall b, 0 <= b < bit -> test_bit (bitmap_of k s g) b = Some true) /\
      (forall g', g0 <= g' < g -> exhausted k s g') /\
      exists bm, set_bit (bitmap_of k s g) bit = Some bm /\ counted k s s' g bm (-1) n
  | inl e => e = ERR_NO_MEMORY /\ quiet s s' n /\
      forall g', g0 <= g' < num_block_groups s -> exhausted k s g'
  end.

Lemma exhausted_quiet k s s1 n g :
  quiet s s1 n -> geometry k s -> 0 <= g < num_block_groups s -> exhausted k s1 g -> exhausted k s g.
Proof.
  intros Hq Hge Hg. unfold exhausted.
  by rewrite (quiet_bgv _ _ _ _ _ Hq), (quiet_sbv _ _ _ _ Hq), (bitmap_of_quiet _ _ _ _ _ Hq Hge Hg).
Qed.

Lemma counted_quiet k s s1 s' g bm d n n' :
  quiet s s1 n -> geometry k s -> 0 <= g < num_block_groups s ->
  counted k s1 s' g bm d n' -> counted k s s' g bm d (n + n').
Proof.
  intros Hq Hge Hg [Hm Hbg Hsb Hd].
  rewrite (quiet_bgv _ _ _ _ _ Hq), (qu_bg _ _ _ Hq) in Hbg.
  rewrite (quiet_sbv _ _ _ _ Hq), (qu_sb _ _ _ Hq) in Hsb.
  split; [|done..]. eapply moved_ext; [by eapply moved_quiet|]. intros b Hb. cbn beta.
  rewrite (quiet_bgv _ _ _ _ _ Hq). case_decide; [done|]. by eapply quiet_view.
Qed.

Lemma counted_weaken k s s' g bm d n n' : n <= n' -> counted k s s' g bm d n -> counted k s s' g bm d n'.
Proof. intros Hn [[] ? ? ?]. split; [|done..]. split; [done|done|nia|done]. Qed.

(** Groups that were skipped do not change what the loop promises. *)
Lemma alloc_post_skip k s s1 g0 n s' r :
  quiet s s1 1 -> geometry k s -> 0 <= g0 < num_block_groups s -> exhausted k s g0 ->
  alloc_post k s1 (g0 + 1) (Z.of_nat n) s' r -> alloc_post k s g0 (Z.of_nat (S n)) s' r.
Proof.
  intros Hq Hge Hg He. pose proof (quiet_groups _ _ _ Hq) as Hgr.
  replace (Z.of_nat (S n)) with (1 + Z.of_nat n) by lia.
  assert (forall e, g0 <= e -> e < num_block_groups s -> (e <> g0 -> exhausted k s1 e) -> exhausted k s e)
    as Hex.
  { intros e ? ? H1. destruct (decide (e = g0)) as [->|]; [done|].
    eapply exhausted_quiet; [done..|lia|auto]. }
  destruct r as [e|[g bit]]; cbn [alloc_post].
  - intros (-> & Hq1 & Hall). split; [done|]. split; [by eapply quiet_trans|].
    intros g' ?. apply Hex; [lia..|]. intros. apply Hall. lia.
  - intros (? & Hbit & Hfree & Hlow & Hall & bm & Hbm & Hct).
    rewrite (quiet_sbv _ _ _ _ Hq) in Hbit. rewrite (bitmap_of_quiet k s s1 1 g) in * by (done || lia).
    split; [lia|]. split; [done|]. split; [done|]. split; [done|]. split.
    + intros g' ?. apply Hex; [lia..|]. intros. apply Hall. lia.
    + exists bm. split; [done|]. eapply counted_quiet; [done..|lia|done].
Qed.

Lemma alloc_loop_spec k n : forall s g0,
  kind_ok k -> fs_ok s -> geometry k s -> 0 <= g0 -> g0 + Z.of_nat n = num_block_groups s ->
  room bs s (Z.of_nat n) ->
  wp (alloc_loop now k n g0) s (alloc_post k s g0 (Z.of_nat n)).
Proof.
  induction n as [|n IH]; intros s g0 Hk Hs Hge Hg0 Hn Hr; cbn [alloc_loop].
  { apply wp_err. split; [done|]. split; [by apply quiet_refl|]. intros; lia. }
  destruct (kind_fields k Hk) as (F1 & F2 & F3 & F4).
  assert (forall s1, quiet s s1 1 -> exhausted k s g0 ->
    wp (alloc_loop now k n (g0 + 1)) s1 (alloc_post k s g0 (Z.of_nat (S n)))) as Hskip.
  { intros s1 Hq He. eapply wp_mono; [apply IH; [done|by eapply quiet_ok|by eapply geometry_quiet|lia| |]|].
    - rewrite (quiet_groups _ _ _ Hq). lia.
    - eapply quiet_room; [done|]. by replace (1 + Z.of_nat n) with (Z.of_nat (S n)) by lia.
    - intros s' r. apply alloc_post_skip; [done|done|lia|done]. }
  apply wp_bnd, wp_bgf; [done|lia|done|]. destruct (Z.eqb_spec (bgv s g0 (k_count k)) 0) as [E0|E0].
  { apply Hskip; [|by left]. eapply quiet_weaken; [lia|by apply quiet_refl|lia]. }
  apply wp_bnd, wp_bgf; [done|lia|done|]. apply wp_bnd, wp_gets.
  eapply (wp_load now _ s s 0); [lia|done|by apply quiet_refl|apply ge_ok; [done|lia]|unfold room in *; lia|].
  fold (bitmap_of k s g0). intros s1 Hq. pose proof (bitmap_of_len k s g0 Hs Hge ltac:(lia)) as Hlen.
  destruct (bitmap_scan_spec (bitmap_of k s g0) (Z.to_nat bs) 0) as (bit & Hbit & Hspec); [lia..|].
  apply wp_bnd, wp_lft with bit; [by rewrite (ok_bs _ Hs)|].
  apply wp_bnd, wp_sbf; [by eapply quiet_ok|done|]. rewrite (quiet_sbv _ _ _ _ Hq).
  pose proof (ge_per _ _ Hge) as Hper. pose proof (sbv_range s (k_per_group k)) as Hp0.
  rewrite i32_id by lia.
  destruct ((bit <? 0) || (sbv s (k_per_group k) <=? bit)) eqn:Hfail.
  { apply Hskip; [done|]. right. intros b Hb.
    destruct Hspec as [[-> Hall]|(? & _ & Hall)]; apply Hall; lia. }
  destruct Hspec as [[-> _]|(Hr1 & Hfree & Hlow)]; [lia|].
  destruct (set_bit_spec (bitmap_of k s g0) bit) as (bm & Hbm & Hlbm & _); [lia|].
  apply wp_bnd, wp_lft with bm; [done|]. apply wp_bnd.
  eapply wp_commit; [done..|lia|congruence|]. intros s' Hct. apply wp_ret.
  split; [lia|]. split; [lia|]. split; [done|]. split; [intros; apply Hlow; lia|].
  split; [intros; lia|]. exists bm. split; [done|]. eapply counted_weaken; [|done]. lia.
Qed.

(** *** The state after an allocation or a release *)
Lemma kind_apart k : kind_ok k ->
  apart (k_count k) (k_bitmap k) = true /\ apart (k_total k) (k_per_group k) = true /\
  apart (k_total k) s_first_data_block = true /\ apart (k_total k) s_blocks_count = true /\
  apart (k_total k) s_inodes_count = true.
Proof. by intros [->| ->]. Qed.

Lemma counted_sbv k s s' g bm d n f :
  counted k s s' g bm d n -> apart (k_total k) f = true -> sbv s' f = sbv s f.
Proof.
  intros [_ _ Hsb _] Hf. unfold sbv. f_equal. unfold apart in Hf.
  eapply getf_setf_other; [exact Hsb|lia].
Qed.

Lemma counted_bitmap k s s' g bm d n g' :
  kind_ok k -> counted k s s' g bm d n -> bgv s' g' (k_bitmap k) = bgv s g' (k_bitmap k).
Proof.
  intros Hk [_ Hbg _ _]. destruct (kind_fields k Hk) as (? & ? & _). destruct (kind_apart k Hk) as (? & _).
  unfold bgv. f_equal. eapply getf_setf_array; eauto.
Qed.

Lemma counted_geometry k s s' g bm d n :
  kind_ok k -> counted k s s' g bm d n -> geometry k s -> geometry k s'.
Proof.
  intros Hk Hct [H1 H2 H3]. pose proof (mv_groups _ _ _ _ (ct_moved _ _ _ _ _ _ _ Hct)) as Hg.
  destruct (kind_apart k Hk) as (_ & Ha & _). split.
  - intros g'. rewrite Hg, (counted_bitmap _ _ _ _ _ _ _ _ Hk Hct). apply H1.
  - intros g1 g2. rewrite Hg, !(counted_bitmap _ _ _ _ _ _ _ _ Hk Hct). apply H2.
  - by rewrite (counted_sbv _ _ _ _ _ _ _ _ Hct Ha).
Qed.

Lemma counted_bitmap_of k s s' g bm d n g' :
  kind_ok k -> counted k s s' g bm d n -> geometry k s ->
  0 <= g < num_block_groups s -> 0 <= g' < num_block_groups s ->
  bitmap_of k s' g' = if decide (g = g') then bm else bitmap_of k s g'.
Proof.
  intros Hk Hct Hge Hg Hg'. unfold bitmap_of. rewrite (counted_bitmap _ _ _ _ _ _ _ _ Hk Hct).
  rewrite (mv_view _ _ _ _ (ct_moved _ _ _ _ _ _ _ Hct)) by by apply ge_ok.
  destruct (decide (g = g')) as [->|Hne]; [by rewrite decide_True|].
  rewrite decide_False; [done|]. intros E. by apply Hne, (ge_distinct _ _ Hge).
Qed.

Lemma counted_ok k s s' g bm d n : counted k s s' g bm d n -> fs_ok s'.
Proof. by intros [[] _ _ _]. Qed.

Lemma counted_heap k s s' g bm d n m : counted k s s' g bm d n -> room bs s (n + m) -> room bs s' m.
Proof. intros [[] _ _ _]. unfold room. lia. Qed.

(** *** Blocks *)

(** Block [b] is bit [bit] of group [g]. *)
Definition block_at s g bit b : Prop :=
  0 <= g < num_block_groups s /\ 0 <= bit < sbv s s_blocks_per_group /\
  b = sbv s s_first_data_block + g * sbv s s_blocks_per_group + bit.

Definition block_free s b : Prop :=
  exists g bit, block_at s g bit b /\ test_bit (bitmap_of blocks s g) bit = Some false.

(** The block numbers of all groups fit 32 bits. *)
Definition numbers_fit s : Prop :=
  sbv s s_first_data_block + num_block_groups s * sbv s s_blocks_per_group <= 4294967296.

Lemma block_at_inj s g bit b g' bit' : block_at s g bit b -> block_at s g' bit' b -> g = g' /\ bit = bit'.
Proof. intros (? & ? & ->) (? & ? & E). assert (g = g') as -> by nia. split; [done|lia]. Qed.

Lemma kind_blocks : kind_ok blocks.
Proof. by left. Qed.
#[local] Hint Resolve kind_blocks : kernel.

(** What an allocation of a block promises. *)
Definition alloc_block_post s s' (r : Z + Z) : Prop :=
  match r with
  | inr b => exists g bit bm,
      block_at s g bit b /\ test_bit (bitmap_of blocks s g) bit = Some false /\
      (forall i, 0 <= i < bit -> test_bit (bitmap_of blocks s g) i = Some true) /\
      (forall g', 0 <= g' < g -> exhausted blocks s g') /\
      set_bit (bitmap_of blocks s g) bit = Some bm /\
      counted blocks s s' g bm (-1) (num_block_groups s)
  | inl e => e = ERR_NO_MEMORY /\ quiet s s' (num_block_groups s) /\
      forall g, 0 <= g < num_block_groups s -> exhausted blocks s g
  end.

Lemma ext2_alloc_block_spec s :
  fs_ok s -> geometry blocks s -> numbers_fit s -> room bs s (num_block_groups s) ->
  wp (ext2_alloc_block now) s (alloc_block_post s).
Proof.
  intros Hs Hge Hfit Hr. unfold ext2_alloc_block. apply wp_bnd, wp_gets.
  destruct (ok_groups _ Hs) as [Hg _]. apply wp_bnd.
  eapply wp_mono; [apply alloc_loop_spec; [by left|done|done|lia|lia|by rewrite Z2Nat.id]|].
  rewrite Z2Nat.id by done. intros s' [e|[g bit]]; cbn [alloc_post]; [done|].
  intros (Hg' & Hbit & Hfree & Hlow & Hex & bm & Hbm & Hct).
  pose proof (counted_ok _ _ _ _ _ _ _ Hct) as Hs'.
  apply wp_bnd, wp_sbf; [done..|]. apply wp_bnd, wp_sbf; [done..|]. apply wp_ret.
  rewrite !(counted_sbv _ _ _ _ _ _ _ _ Hct) by done. cbn [fst snd].
  exists g, bit, bm. split; [|done]. split; [lia|]. split; [done|].
  apply u32_id. red. pose proof (sbv_range s s_first_data_block). unfold numbers_fit in Hfit.
  cbn [k_per_group blocks] in Hbit. nia.
Qed.

(** After an allocation, the allocated block and only it is no longer free. *)
Lemma counted_block_free s s' g bit b bm n :
  fs_ok s -> geometry blocks s -> block_at s g bit b -> set_bit (bitmap_of blocks s g) bit = Some bm ->
  counted blocks s s' g bm (-1) n ->
  forall b', block_free s' b' -> block_free s b' /\ b' <> b.
Proof.
  intros Hs Hge Hat Hbm Hct b' (g' & bit' & Hat' & Hfree).
  pose proof (mv_groups _ _ _ _ (ct_moved _ _ _ _ _ _ _ Hct)) as Hgr.
  unfold block_at in Hat'. rewrite Hgr, !(counted_sbv _ _ _ _ _ _ _ _ Hct) in Hat' by done.
  fold (block_at s g' bit' b') in Hat'. pose proof Hat as (Hg & Hbit & _). pose proof Hat' as (Hg' & Hbit' & _).
  rewrite (counted_bitmap_of _ _ _ _ _ _ _ _ kind_blocks Hct Hge Hg Hg') in Hfree.
  pose proof (bitmap_of_len blocks s g Hs Hge Hg) as Hlen. pose proof (ge_per _ _ Hge) as Hper.
  cbn [k_per_group blocks] in Hper.
  destruct (set_bit_spec (bitmap_of blocks s g) bit) as (bm' & Hbm' & _ & Htest); [lia|]. simplify_eq.
  destruct (decide (g = g')) as [->|Hne].
  - rewrite Htest in Hfree by lia. destruct (Z.eqb_spec bit' bit) as [->|Hb]; [done|].
    split; [by exists g', bit'|]. intros ->. by destruct (block_at_inj _ _ _ _ _ _ Hat Hat').
  - split; [by exists g', bit'|]. intros ->. by destruct (block_at_inj _ _ _ _ _ _ Hat Hat').
Qed.

(** [n] allocations in a row, as the writer of a file makes them. *)
Fixpoint alloc_blocks (n : nat) : M (ext2_fs C) (list Z) :=
  match n with
  | O => ret []
  | S n' =>
      let* b := ext2_alloc_block now in
      let* l := alloc_blocks n' in
      ret (b :: l)
  end.

(** C9: any number of block allocations in a row either succeeds with pairwise
    distinct blocks, all of which were free in the bitmaps before, or fails with
    [ERR_NO_MEMORY]; no block is handed out twice. *)
Theorem ext2_alloc_blocks_distinct n : forall s,
  fs_ok s -> geometry blocks s -> numbers_fit s -> room bs s (Z.of_nat n * num_block_groups s) ->
  wp (alloc_blocks n) s (fun s' r =>
    match r with
    | inr l => length l = n /\ NoDup l /\ Forall (block_free s) l
    | inl e => e = ERR_NO_MEMORY
    end).
Proof.
  induction n as [|n IH]; intros s Hs Hge Hfit Hr; cbn [alloc_blocks].
  { apply wp_ret. split; [done|]. split; constructor. }
  destruct (ok_groups _ Hs) as [Hg _].
  apply wp_bnd. eapply wp_mono; [apply ext2_alloc_block_spec; [done..|]|].
  { unfold room in *. nia. }
  intros s1 [e|b]; [by intros (-> & _)|]. intros (g & bit & bm & Hat & Hfree & _ & _ & Hbm & Hct).
  pose proof (mv_groups _ _ _ _ (ct_moved _ _ _ _ _ _ _ Hct)) as Hgr.
  apply wp_bnd. eapply wp_mono; [apply IH|].
  - by eapply counted_ok.
  - by eapply counted_geometry; [left|..].
  - unfold numbers_fit. by rewrite Hgr, !(counted_sbv _ _ _ _ _ _ _ _ Hct) by done.
  - eapply counted_heap; [done|]. rewrite Hgr. eapply (eq_ind _ (room bs s)); [exact Hr|lia].
  - intros s2 [e|l]; [done|]. intros (Hl & Hnd & Hall).
    pose proof (counted_block_free s s1 g bit b bm _ Hs Hge Hat Hbm Hct) as Hbf.
    apply wp_ret. split; [by f_equal/=|]. split.
    + apply list.NoDup_cons. split; [|done]. intros Hin. rewrite list.Forall_forall in Hall.
      by destruct (Hbf b (Hall b Hin)).
    + constructor; [by exists g, bit|]. eapply list.Forall_impl; [done|]. intros b' Hb'. by apply Hbf.
Qed.

(** *** The state of the allocator through the steps of a writer *)
Definition is_bitmap s b : Prop := exists g, 0 <= g < num_block_groups s /\ b = bgv s g bg_block_bitmap.

(** A file system whose free blocks are blocks of the store, and no bitmaps. *)
Record alloc_ok s : Prop := {
  ao_fs : fs_ok s;
  ao_geometry : geometry blocks s;
  ao_fit : numbers_fit s;
  ao_free b : block_free s b -> st_ok b /\ b <> 0 /\ is_u32 b /\ ~ is_bitmap s b
}.

(** [s'] follows [s] with at most [n] buffers: the blocks [X], none of which is
    free any more, and the bitmaps are all that changed. *)
Record extends s s' (n : Z) (X : Z -> Prop) : Prop := {
  ex_ok : alloc_ok s';
  ex_groups : num_block_groups s' = num_block_groups s;
  ex_heap : heap_pos s <= heap_pos s' <= heap_pos s + n * bs;
  ex_free b : block_free s' b -> block_free s b /\ ~ X b;
  ex_bitmap b : is_bitmap s' b <-> is_bitmap s b;
  ex_view b : st_ok b -> ~ is_bitmap s b -> ~ X b -> view s' b = view s b
}.

Lemma extends_trans s s1 s2 n1 n2 X Y :
  extends s s1 n1 X -> extends s1 s2 n2 Y -> extends s s2 (n1 + n2) (fun b => X b \/ Y b).
Proof.
  intros H1 H2. destruct (ex_heap _ _ _ _ H1), (ex_heap _ _ _ _ H2). split.
  - by eapply ex_ok.
  - by rewrite (ex_groups _ _ _ _ H2), (ex_groups _ _ _ _ H1).
  - lia.
  - intros b (Hf & HY)%(ex_free _ _ _ _ H2). apply (ex_free _ _ _ _ H1) in Hf as [Hf HX]. split; [done|tauto].
  - intros b. by rewrite (ex_bitmap _ _ _ _ H2), (ex_bitmap _ _ _ _ H1).
  - intros b Hb Hbm HXY. rewrite (ex_view _ _ _ _ H2), (ex_view _ _ _ _ H1); [done|done|done|tauto|done| |tauto].
    by rewrite (ex_bitmap _ _ _ _ H1).
Qed.

Lemma extends_weaken s s' n n' (X Y : Z -> Prop) :
  extends s s' n X -> n <= n' -> (forall b, X b -> Y b) -> (forall b, Y b -> ~ block_free s' b) ->
  extends s s' n' Y.
Proof.
  intros [? ? ? Hf ? Hv] Hn HXY HY. split; [done|done|nia| |done|].
  - intros b Hb. split; [by apply Hf|]. intros Hy. by eapply HY.
  - intros b Hb Hbm Hy. apply Hv; auto.
Qed.

(** States with the same descriptors, and the same bitmaps on the device, have the
    same free blocks. *)
Lemma same_free s s' :
  num_block_groups s' = num_block_groups s -> superblock s' = superblock s -> block_groups s' = block_groups s ->
  (forall g, 0 <= g < num_block_groups s -> view s' (bgv s g bg_block_bitmap) = view s (bgv s g bg_block_bitmap)) ->
  (forall b, is_bitmap s' b <-> is_bitmap s b) /\ (forall b, block_free s' b <-> block_free s b) /\
  (geometry blocks s -> geometry blocks s') /\ (numbers_fit s -> numbers_fit s').
Proof.
  intros Eg Esb Ebg Hv.
  assert (forall f, sbv s' f = sbv s f) as Hsb by (intros; unfold sbv; congruence).
  assert (forall g f, bgv s' g f = bgv s g f) as Hbg by (intros; unfold bgv; congruence).
  split; [|split; [|split]].
  - intros b. unfold is_bitmap. rewrite Eg. by setoid_rewrite Hbg.
  - intros b. unfold block_free, block_at, bitmap_of. cbn [k_bitmap blocks].
    setoid_rewrite Eg. setoid_rewrite Hsb. setoid_rewrite Hbg.
    split; intros (g & bit & Hat & Ht); exists g, bit; (split; [done|]);
      [rewrite Hv in Ht by apply Hat; done|by rewrite Hv by apply Hat].
  - intros [H1 H2 H3]. split; [intros g; rewrite Eg, Hbg; apply H1|intros g g'; rewrite Eg, !Hbg; apply H2|].
    by rewrite Hsb.
  - unfold numbers_fit. by rewrite !Hsb, Eg.
Qed.

Lemma extends_quiet s s' n : alloc_ok s -> quiet s s' n -> extends s s' n (fun _ => False).
Proof.
  intros [Hs Hge Hfit Hfr] Hq. pose proof Hq as [Hm Esb Ebg _]. pose proof Hm as [Hs' Eg Hh Hv].
  destruct (same_free s s') as (Hbm & Hf & Hg & Hn); [done..|intros g Hg; apply Hv; by apply (ge_ok _ _ Hge)|].
  split; [split; [done|auto..]|done|done| |done|].
  - intros b Hb. rewrite Hbm. apply Hfr. by apply Hf.
  - intros b Hb%Hf. tauto.
  - intros b Hb _ _. by apply Hv.
Qed.

Lemma extends_wrote s s' m n buf :
  alloc_ok s -> wrote s s' m n buf -> ~ is_bitmap s n -> ~ block_free s n -> extends s s' m (fun b => b = n).
Proof.
  intros [Hs Hge Hfit Hfr] [[Hs' Eg Hh Hv] Esb Ebg] Hnb Hnf.
  destruct (same_free s s') as (Hbm & Hf & Hg & Hn); [done..| |].
  { intros g Hg. rewrite Hv by by apply (ge_ok _ _ Hge). rewrite decide_False; [done|].
    intros ->. apply Hnb. by exists g. }
  split; [split; [done|auto..]|done|done| |done|].
  - intros b Hb. rewrite Hbm. apply Hfr. by apply Hf.
  - intros b Hb%Hf. split; [done|]. by intros ->.
  - intros b Hb _ Hne. rewrite Hv by done. by rewrite decide_False by auto.
Qed.

Lemma extends_alloc s s1 b :
  alloc_ok s -> alloc_block_post s s1 (inr b) ->
  extends s s1 (num_block_groups s) (fun b' => b' = b) /\ block_free s b.
Proof.
  intros [Hs Hge Hfit Hfr] (g & bit & bm & Hat & Hfree & _ & _ & Hbm & Hct).
  assert (block_free s b) as Hb by by exists g, bit. split; [|done].
  pose proof (ct_moved _ _ _ _ _ _ _ Hct) as [Hs1 Eg Hh Hv].
  pose proof (counted_block_free s s1 g bit b bm _ Hs Hge Hat Hbm Hct) as Hbf.
  assert (forall b', is_bitmap s1 b' <-> is_bitmap s b') as Hib.
  { intros b'. unfold is_bitmap. rewrite Eg.
    by setoid_rewrite (fun g => counted_bitmap blocks s s1 _ _ _ _ g kind_blocks Hct : bgv s1 g bg_block_bitmap = bgv s g bg_block_bitmap). }
  split; [split|done|done| |done|].
  - done.
  - by eapply counted_geometry; [left|..].
  - unfold numbers_fit. by rewrite Eg, !(counted_sbv _ _ _ _ _ _ _ _ Hct) by done.
  - intros b' [Hb' _]%Hbf. rewrite Hib. by apply Hfr.
  - exact Hbf.
  - intros b' Hb' Hnb _. rewrite Hv by done. rewrite decide_False; [done|].
    intros <-. apply Hnb. exists g. split; [apply Hat|done].
Qed.

(** *** Releasing *)
Lemma free_bit_spec k s g bit :
  kind_ok k -> fs_ok s -> geometry k s -> 0 <= g < num_block_groups s -> 0 <= bit < 8 * bs ->
  room bs s 1 ->
  wp (free_bit now k g bit) s (fun s' r => r = inr tt /\
    exists bm, clear_bit (bitmap_of k s g) bit = Some bm /\ counted k s s' g bm 1 1).
Proof.
  intros Hk Hs Hge Hg Hbit Hr. destruct (kind_fields k Hk) as (F1 & _).
  pose proof (bitmap_of_len k s g Hs Hge Hg) as Hlen.
  unfold free_bit. apply wp_bnd, wp_bgf; [done..|]. apply wp_bnd, wp_gets.
  eapply (wp_load now _ s s 0); [lia|done|by apply quiet_refl|by apply ge_ok|done|].
  fold (bitmap_of k s g). intros s1 Hq.
  destruct (test_bit_spec (bitmap_of k s g) bit) as (v & _ & Ht); [lia|].
  apply wp_bnd. eapply wp_lft; [exact Ht|].
  destruct (clear_bit_spec (bitmap_of k s g) bit) as (bm & Hbm & Hlbm & _); [lia|].
  apply wp_bnd, wp_lft with bm; [done|]. eapply wp_commit; [done..|congruence|].
  intros s' Hct. split; [done|]. by exists bm.
Qed.

Lemma ext2_free_block_spec s b :
  fs_ok s -> geometry blocks s -> is_u32 b -> 0 < sbv s s_blocks_per_group -> room bs s 1 ->
  wp (ext2_free_block now b) s (fun s' r =>
    if decide (sbv s s_first_data_block <= b < sbv s s_blocks_count /\
               (b - sbv s s_first_data_block) / sbv s s_blocks_per_group < num_block_groups s)
    then exists g bit bm, r = inr tt /\ block_at s g bit b /\
           clear_bit (bitmap_of blocks s g) bit = Some bm /\ counted blocks s s' g bm 1 1
    else r = inl ERR_INVALID /\ s' = s).
Proof.
  intros Hs Hge Hb Hper Hr. red in Hb. pose proof (ge_per _ _ Hge) as Hp8. cbn [k_per_group blocks] in Hp8.
  unfold ext2_free_block. apply wp_bnd, wp_sbf; [done..|]. apply wp_bnd, wp_sbf; [done..|].
  pose proof (sbv_range s s_first_data_block) as Hf. change (256 ^ _) with 4294967296 in Hf.
  set (first := sbv s s_first_data_block) in *. set (total := sbv s s_blocks_count) in *.
  set (per := sbv s s_blocks_per_group) in *.
  destruct ((b <? first) || (total <=? b)) eqn:E1.
  { apply wp_err. rewrite decide_False by lia. done. }
  unfold ext2_get_block_group. apply wp_bnd, wp_bnd, wp_sbf; [done..|]. apply wp_bnd, wp_sbf; [done..|].
  fold first per. rewrite (u32_id (b - first)) by (red; lia).
  eapply wp_lft; [unfold udiv; by rewrite (proj2 (Z.eqb_neq _ _)) by lia|].
  apply wp_bnd, wp_gets. destruct (num_block_groups s <=? (b - first) / per) eqn:E2.
  { apply wp_err. rewrite decide_False by lia. done. }
  apply wp_bnd, wp_sbf; [done..|]. fold per. apply wp_bnd.
  eapply wp_lft; [unfold umod; by rewrite (proj2 (Z.eqb_neq _ _)) by lia|].
  assert (block_at s ((b - first) / per) ((b - first) mod per) b) as Hat.
  { pose proof (Z.div_pos (b - first) per). pose proof (Z.mod_pos_bound (b - first) per).
    pose proof (Z.div_mod (b - first) per). split; [lia|]. split; fold first per; lia. }
  eapply wp_mono; [apply free_bit_spec; [by left|done|done|apply Hat| |done]|].
  { destruct Hat as (_ & Hm & _). fold per in Hm. lia. }
  intros s' r (-> & bm & Hbm & Hct). rewrite decide_True by lia. by exists ((b - first) / per), ((b - first) mod per), bm.
Qed.

(** A member decremented and incremented again has its old value and bytes. *)
Lemma setf_restore buf base f m v buf1 buf2 :
  bytes_ok buf -> getf buf base f = Some v -> m = 256 ^ Z.of_nat (f_width f) ->
  setf buf base f ((v - 1) mod m) = Some buf1 ->
  setf buf1 base f ((default 0 (getf buf1 base f) + 1) mod m) = Some buf2 -> buf2 = buf.
Proof.
  unfold getf, setf. intros Hok Hv Hm H1 H2. pose proof (ld_inv _ _ _ _ Hv) as (_ & _ & Hr).
  assert (0 < m) as Hm0 by (subst m; apply Z.pow_pos_nonneg; lia).
  rewrite (ld_st_same _ _ _ _ _ H1) in H2 by (rewrite <- Hm; apply Z.mod_pos_bound; lia).
  cbn in H2. rewrite <- Hm in Hr.
  replace (((v - 1) mod m + 1) mod m) with v in H2.
  - rewrite (st_restore _ _ _ _ _ _ Hok Hv H1) in H2. congruence.
  - rewrite Zplus_mod_idemp_l, Z.sub_add. symmetry. apply Z.mod_small. lia.
Qed.

(** An allocation undone by a release of the same bit. *)
Lemma counted_undo s s1 s2 g bit bm bm' n :
  fs_ok s -> geometry blocks s -> 0 <= g < num_block_groups s ->
  bytes_ok (superblock s) -> bytes_ok (block_groups s) -> bytes_ok (bitmap_of blocks s g) ->
  test_bit (bitmap_of blocks s g) bit = Some false ->
  set_bit (bitmap_of blocks s g) bit = Some bm -> counted blocks s s1 g bm (-1) n ->
  clear_bit (bitmap_of blocks s1 g) bit = Some bm' -> counted blocks s1 s2 g bm' 1 1 ->
  (forall b, st_ok b -> view s2 b = view s b) /\
  superblock s2 = superblock s /\ block_groups s2 = block_groups s.
Proof.
  intros Hs Hge Hg Ok1 Ok2 Ok3 Hfree Hbm Hct Hbm' Hct'.
  rewrite (counted_bitmap_of _ _ _ _ _ _ _ _ kind_blocks Hct Hge Hg Hg), decide_True in Hbm' by done.
  rewrite (clear_set_bit _ _ _ Ok3 Hfree Hbm) in Hbm'. injection Hbm' as <-.
  pose proof Hct as [Hm1 Hbg1 Hsb1 _]. destruct Hct' as [Hm2 Hbg2 Hsb2 _]. split; [|split].
  - intros b Hb. rewrite (mv_view _ _ _ _ Hm2) by done. rewrite (mv_view _ _ _ _ Hm1) by done.
    rewrite (counted_bitmap blocks s s1 g bm (-1) n g (or_introl eq_refl) Hct).
    case_decide as E; [|done]. unfold bitmap_of. by rewrite E.
  - exact (setf_restore _ _ _ _ _ _ _ Ok1 (sbv_getf s (k_total blocks) Hs eq_refl) eq_refl Hsb1 Hsb2).
  - exact (setf_restore _ _ _ _ _ _ _ Ok2 (bgv_getf s g (k_count blocks) Hs Hg eq_refl) eq_refl Hbg1 Hbg2).
Qed.

(** The padding of the last bitmap is set: no free bit stands for a block beyond
    the end of the file system. *)
Definition padded s : Prop := forall b, block_free s b -> b < sbv s s_blocks_count.

(** releasing the block that was just allocated undoes the allocation: the
    contents of every block (the bitmaps included), the superblock and the group
    descriptors are again what they were.  A failed allocation changes none of
    them either. *)
Theorem ext2_alloc_free_block s :
  fs_ok s -> geometry blocks s -> numbers_fit s -> padded s ->
  bytes_ok (superblock s) -> bytes_ok (block_groups s) ->
  (forall g, 0 <= g < num_block_groups s -> bytes_ok (bitmap_of blocks s g)) ->
  room bs s (num_block_groups s + 1) ->
  wp (let* b := ext2_alloc_block now in ext2_free_block now b) s (fun s' r =>
    (r = inr tt \/ r = inl ERR_NO_MEMORY) /\
    (forall b, st_ok b -> view s' b = view s b) /\
    superblock s' = superblock s /\ block_groups s' = block_groups s).
Proof.
  intros Hs Hge Hfit Hpad Ok1 Ok2 Ok3 Hr.
  apply wp_bnd. eapply wp_mono; [apply ext2_alloc_block_spec; [done..|unfold room in *; lia]|].
  intros s1 [e|b]; cbn [alloc_block_post].
  { intros (-> & Hq & _). split; [by right|]. split; [|by destruct Hq]. intros b Hb. by eapply quiet_view. }
  intros (g & bit & bm & Hat & Hfree & _ & _ & Hbm & Hct). pose proof Hat as (Hg & Hbit & Eb).
  pose proof (mv_groups _ _ _ _ (ct_moved _ _ _ _ _ _ _ Hct)) as Hgr.
  pose proof (sbv_range s s_first_data_block) as Hf. change (256 ^ _) with 4294967296 in Hf.
  pose proof (Hpad b ltac:(by exists g, bit)) as Hlt.
  pose proof (sbv_range s s_blocks_count) as Hc. change (256 ^ _) with 4294967296 in Hc.
  eapply wp_mono; [apply ext2_free_block_spec; [by eapply counted_ok|by eapply counted_geometry; [left|..]|red; nia| |]|].
  - rewrite (counted_sbv _ _ _ _ _ _ _ _ Hct) by done. lia.
  - by eapply counted_heap.
  - intros s2 r. rewrite !(counted_sbv _ _ _ _ _ _ _ _ Hct), Hgr by done.
    assert (b - sbv s s_first_data_block = g * sbv s s_blocks_per_group + bit) as -> by lia.
    rewrite Z.div_add_l, Z.div_small, Z.add_0_r by lia. rewrite decide_True by (split; [nia|lia]).
    intros (g' & bit' & bm' & -> & Hat' & Hbm' & Hct'). unfold block_at in Hat'.
    rewrite Hgr, !(counted_sbv _ _ _ _ _ _ _ _ Hct) in Hat' by done. fold (block_at s g' bit' b) in Hat'.
    destruct (block_at_inj _ _ _ _ _ _ Hat Hat') as [<- <-].
    split; [by left|]. eapply counted_undo; eauto.
Qed.

End alloc_correct.
