(* ===== verification/Ext2Inode.v ===== *)
(** * ext2 inodes: [src/fs/ext2/inode.c]

    Reading and writing inodes, and the map from the blocks of a file to the
    blocks of the device. *)
From S2P Require Import Prelude KernelLib Ext2Base Ext2Alloc.
Import Memory.
Open Scope Z_scope.
Open Scope ext2_scope.

Section inode.
Context {C : Type} {B : BlockStore C} (now : Z).
Abbreviation F := (M (ext2_fs C)).

(** The block of the inode table that holds inode [ino], and its offset there:
    the common start of [ext2_read_inode] and [ext2_write_inode]. *)
Definition locate_inode (ino : Z) : F (Z * Z) :=
  let* total := sbf s_inodes_count in
  if (ino =? 0) || (total <? ino) then err ERR_INVALID
  else
    let* group := ext2_get_inode_group ino in
    let* groups := gets num_block_groups in
    if groups <=? group then err ERR_INVALID
    else
      let* inode_table := bgf group bg_inode_table in
      let* size := sbf s_inode_size in
      let inode_size := if size =? 0 then 128 else size in
      let* block_size := gets fs_block_size in
      let* inodes_per_block := lft (udiv block_size inode_size) in
      let* per_group := sbf s_inodes_per_group in
      let* index := lft (umod (u32 (ino - 1)) per_group) in
      let* q := lft (udiv index inodes_per_block) in
      let* r := lft (umod index inodes_per_block) in
      ret (u32 (inode_table + q), u32 (r * inode_size)).

Definition ext2_read_inode (ino : Z) : F bytes :=
  let* p := locate_inode ino in
  let* size := gets fs_block_size in
  let* buffer := alloc_buffer size in
  let* buffer := bread now p.1 buffer in
  lft (slice buffer p.2 sizeof_inode).

Definition ext2_write_inode (ino : Z) (inode : bytes) : F unit :=
  let* p := locate_inode ino in
  let* size := gets fs_block_size in
  let* buffer := alloc_buffer size in
  let* buffer := bread now p.1 buffer in
  let* buffer := lft (memcpy buffer p.2 inode 0 sizeof_inode) in
  bwrite now p.1 buffer;;;
  modify (set_fs_dirty true).

(** [p->i_block[k]]. *)
Definition get_i_block (inode : bytes) (k : Z) : option Z := f ← i_block k; getf inode 0 f.
Definition set_i_block (inode : bytes) (k v : Z) : option bytes := f ← i_block k; setf inode 0 f v.

(** Element [idx] of the array of block numbers in block [n]. *)
Definition read_indirect (n idx : Z) : F Z :=
  let* size := gets fs_block_size in
  let* buf := alloc_buffer size in
  let* buf := bread now n buf in
  lft (ld buf (4 * idx) 4).

Definition ext2_get_block_num (inode : bytes) (file_block : Z) : F Z :=
  let* size := gets fs_block_size in
  let addrs_per_block := size / 4 in
  if file_block <? 12 then lft (get_i_block inode file_block)
  else
    let file_block := u32 (file_block - 12) in
    if file_block <? addrs_per_block then
      let* ind := lft (get_i_block inode 12) in
      if ind =? 0 then ret 0 else read_indirect ind file_block
    else
      let file_block := u32 (file_block - addrs_per_block) in
      if file_block <? u32 (addrs_per_block * addrs_per_block) then
        let* ind := lft (get_i_block inode 13) in
        if ind =? 0 then ret 0
        else
          let* idx1 := lft (udiv file_block addrs_per_block) in
          let* idx2 := lft (umod file_block addrs_per_block) in
          let* ind2 := read_indirect ind idx1 in
          if ind2 =? 0 then ret 0 else read_indirect ind2 idx2
      else err ERR_INVALID.

End inode.

(** ** Operations that also update an object of their caller

    [ext2_set_block_num] and [ext2_write_file] change the inode their caller
    passes, and [ext2_read_file] fills its buffer, also when they fail half way:
    the object is a second part of the state. *)
Section object_state.
Context {C : Type} {B : BlockStore C} (now : Z).
Abbreviation F := (M (ext2_fs C)).
Abbreviation FO := (M (ext2_fs C * bytes)).

(** A call that does not change the object. *)
Definition on_fs {A} (m : F A) : FO A := fun '(s, o) =>
  '(s', r) ← m s; Some ((s', o), r).

Definition get_obj : FO bytes := gets snd.
(** An assignment to the object. *)
Definition upd_obj (f : bytes -> option bytes) : FO unit := fun '(s, o) =>
  o' ← f o; Some ((s, o'), inr tt).

(** A call with an object of the caller: what it returns, and the object it leaves. *)
Definition with_obj {A} (obj : bytes) (m : FO A) : F (bytes * (Z + A)) := fun s =>
  '((s', o), r) ← m (s, obj); Some (s', inr (o, r)).

Definition ext2_set_block_num (file_block block_num : Z) : FO Z :=
  let* size := on_fs (gets fs_block_size) in
  let addrs_per_block := size / 4 in
  if file_block <? 12 then
    upd_obj (fun i => set_i_block i file_block block_num);;; ret ERR_SUCCESS
  else
    let file_block := u32 (file_block - 12) in
    if file_block <? addrs_per_block then
      let* inode := get_obj in
      let* ind := lft (get_i_block inode 12) in
      (if ind =? 0 then
         let* indirect_block := on_fs (ext2_alloc_block now) in
         upd_obj (fun i => set_i_block i 12 indirect_block);;;
         let* zero_block := on_fs (alloc_buffer size) in
         let* zero_block := lft (memset zero_block 0 0 size) in
         on_fs (bwrite now indirect_block zero_block)
       else ret ERR_SUCCESS);;;
      let* indirect := on_fs (alloc_buffer size) in
      let* inode := get_obj in
      let* ind := lft (get_i_block inode 12) in
      let* indirect := on_fs (bread now ind indirect) in
      let* indirect := lft (st indirect (4 * file_block) 4 block_num) in
      on_fs (bwrite now ind indirect)
    else err ERR_INVALID.

End object_state.

(** ** The inode table as an array of inodes *)
Section inode_correct.
Context {C : Type} {B : BlockStore C} {bs : Z} {L : BlockStoreLaws C bs} (now : Z).
Hypothesis bs_range : 0 < bs < 268435456.
Hypothesis bs_aligned : bs mod 16 = 0.
Implicit Types (s : ext2_fs C) (ino j : Z) (inode : bytes).

Definition isize s : Z := if sbv s s_inode_size =? 0 then 128 else sbv s s_inode_size.
Definition igroup s ino : Z := (ino - 1) / sbv s s_inodes_per_group.
Definition iindex s ino : Z := (ino - 1) mod sbv s s_inodes_per_group.
Definition iblock s ino : Z := bgv s (igroup s ino) bg_inode_table + iindex s ino / (bs / isize s).
Definition ioff s ino : Z := iindex s ino mod (bs / isize s) * isize s.
Definition valid_ino s ino : Prop :=
  1 <= ino <= sbv s s_inodes_count /\ igroup s ino < num_block_groups s.

(** Inode [ino] as the store shows it. *)
Definition inode_at s ino : bytes := default [] (slice (view s (iblock s ino)) (ioff s ino) sizeof_inode).

(** The geometry of the inode tables: an inode fits its slot and a slot its block,
    and the tables are blocks of the store that no two groups share. *)
Record itable s : Prop := {
  it_per : 0 < sbv s s_inodes_per_group;
  it_size : sizeof_inode <= isize s <= bs;
  it_ok ino : valid_ino s ino -> st_ok (iblock s ino) /\ iblock s ino < 4294967296;
  it_disjoint ino j : valid_ino s ino -> valid_ino s j -> iblock s ino = iblock s j ->
    igroup s ino = igroup s j
}.

Lemma itable_ipb s : itable s -> 0 < bs / isize s.
Proof. intros Ht. destruct (it_size _ Ht). unfold sizeof_inode in *. apply Z.div_str_pos. lia. Qed.

Lemma ioff_range s ino : itable s -> 0 <= ioff s ino /\ ioff s ino + isize s <= bs.
Proof.
  intros Ht. pose proof (itable_ipb s Ht). destruct (it_size _ Ht). unfold sizeof_inode in *.
  unfold ioff. pose proof (Z.mod_pos_bound (iindex s ino) (bs / isize s)).
  pose proof (Z.mul_div_le bs (isize s)). split; nia.
Qed.

Lemma locate_inode_spec s ino (Q : ext2_fs C -> Z + Z * Z -> Prop) :
  fs_ok s -> itable s -> is_u32 ino ->
  Q s (if decide (valid_ino s ino) then inr (iblock s ino, ioff s ino) else inl ERR_INVALID) ->
  wp (locate_inode ino) s Q.
Proof.
  intros Hs Ht Hi HQ. red in Hi. pose proof (it_per _ Ht) as Hper. pose proof (itable_ipb s Ht) as Hipb.
  unfold locate_inode. apply wp_bnd, wp_sbf; [done..|].
  destruct ((ino =? 0) || (sbv s s_inodes_count <? ino)) eqn:E1.
  { apply wp_err. rewrite decide_False in HQ by (unfold valid_ino; lia). done. }
  unfold ext2_get_inode_group. apply wp_bnd, wp_bnd, wp_sbf; [done..|].
  rewrite (u32_id (ino - 1)) by (red; lia). fold (igroup s ino).
  eapply wp_lft; [unfold udiv; by rewrite (proj2 (Z.eqb_neq _ _)) by lia|]. fold (igroup s ino).
  apply wp_bnd, wp_gets. destruct (Z.leb_spec (num_block_groups s) (igroup s ino)) as [E2|E2].
  { apply wp_err. rewrite decide_False in HQ by (unfold valid_ino; lia). done. }
  assert (valid_ino s ino) as Hv by (split; lia). rewrite decide_True in HQ by done.
  assert (0 <= igroup s ino) by (apply Z.div_pos; lia).
  apply wp_bnd, wp_bgf; [done|lia|done|]. apply wp_bnd, wp_sbf; [done..|]. fold (isize s).
  apply wp_bnd, wp_gets. rewrite (ok_bs _ Hs). destruct (it_size _ Ht) as [Hz1 Hz2]. unfold sizeof_inode in Hz1.
  apply wp_bnd. eapply wp_lft; [unfold udiv; by rewrite (proj2 (Z.eqb_neq _ _)) by lia|].
  apply wp_bnd, wp_sbf; [done..|].
  apply wp_bnd. eapply wp_lft; [unfold umod; by rewrite (proj2 (Z.eqb_neq _ _)) by lia|]. fold (iindex s ino).
  apply wp_bnd. eapply wp_lft; [unfold udiv; by rewrite (proj2 (Z.eqb_neq _ _)) by lia|].
  apply wp_bnd. eapply wp_lft; [unfold umod; by rewrite (proj2 (Z.eqb_neq _ _)) by lia|].
  apply wp_ret. fold (iblock s ino) (ioff s ino).
  destruct (it_ok _ Ht ino Hv) as [_ Hb]. destruct (ioff_range s ino Ht).
  assert (0 <= iblock s ino).
  { pose proof (bgv_range s (igroup s ino) bg_inode_table). unfold iblock.
    pose proof (Z.div_pos (iindex s ino) (bs / isize s)) as Hd.
    pose proof (Z.mod_pos_bound (ino - 1) (sbv s s_inodes_per_group)). unfold iindex in *. lia. }
  by rewrite !u32_id by (red; lia).
Qed.

Lemma inode_slice s ino :
  fs_ok s -> itable s -> valid_ino s ino ->
  slice (view s (iblock s ino)) (ioff s ino) sizeof_inode = Some (inode_at s ino).
Proof.
  intros Hs Ht Hv. destruct (ioff_range s ino Ht). destruct (it_size _ Ht).
  pose proof (st_view_len (block_device s) (iblock s ino) (ok_store _ Hs) (proj1 (it_ok _ Ht _ Hv))) as Hl.
  unfold inode_at. fold (view s (iblock s ino)) in Hl.
  rewrite slice_Some by (unfold sizeof_inode in *; lia). done.
Qed.

Lemma ext2_read_inode_spec s ino :
  fs_ok s -> itable s -> is_u32 ino -> room bs s 1 ->
  wp (ext2_read_inode now ino) s (fun s' r => quiet s s' 1 /\
    r = if decide (valid_ino s ino) then inr (inode_at s ino) else inl ERR_INVALID).
Proof.
  intros Hs Ht Hi Hr. unfold ext2_read_inode. apply wp_bnd, locate_inode_spec; [done..|].
  destruct (decide (valid_ino s ino)) as [Hv|Hv].
  - cbn [fst snd]. apply wp_bnd, wp_gets.
    eapply (wp_load now _ s s 0); [lia|done|by apply quiet_refl|by apply it_ok|done|]. intros s1 Hq.
    eapply wp_lft; [by apply inode_slice|]. done.
  - split; [|done]. eapply quiet_weaken; [lia|by apply quiet_refl|lia].
Qed.

(** Two inodes share a slot only if they are the same inode; other slots of the
    block do not overlap. *)
Lemma inode_slots s ino j :
  itable s -> valid_ino s ino -> valid_ino s j -> iblock s ino = iblock s j -> ino <> j ->
  ioff s j + sizeof_inode <= ioff s ino \/ ioff s ino + sizeof_inode <= ioff s j.
Proof.
  intros Ht Hi Hj Eb Hne. pose proof (it_disjoint _ Ht ino j Hi Hj Eb) as Eg.
  pose proof (itable_ipb s Ht) as Hipb. pose proof (it_per _ Ht) as Hper. destruct (it_size _ Ht) as [Hz _].
  unfold iblock in Eb. rewrite Eg in Eb. unfold ioff. set (n := bs / isize s) in *.
  assert (iindex s ino / n = iindex s j / n) as Eq by lia.
  assert (iindex s ino <> iindex s j) as Hni.
  { intros Ei. apply Hne. unfold iindex, igroup in *.
    pose proof (Z.div_mod (ino - 1) (sbv s s_inodes_per_group)).
    pose proof (Z.div_mod (j - 1) (sbv s s_inodes_per_group)). nia. }
  pose proof (Z.div_mod (iindex s ino) n). pose proof (Z.div_mod (iindex s j) n).
  assert (iindex s ino mod n <> iindex s j mod n) as Hmod by (intros E; apply Hni; nia).
  unfold sizeof_inode in *. clear - Hmod Hz. generalize dependent (iindex s ino mod n). generalize (iindex s j mod n).
  intros a b Hab. destruct (decide (b < a)); [right|left]; nia.
Qed.

(** What depends only on the in-memory metadata. *)
Lemma inode_geometry s s' :
  superblock s' = superblock s -> block_groups s' = block_groups s ->
  num_block_groups s' = num_block_groups s ->
  (forall ino, iblock s' ino = iblock s ino) /\ (forall ino, ioff s' ino = ioff s ino) /\
  (forall ino, valid_ino s' ino <-> valid_ino s ino) /\ (itable s -> itable s').
Proof.
  intros E1 E2 E3. assert (forall f, sbv s' f = sbv s f) as H1 by (intros; unfold sbv; by rewrite E1).
  assert (forall g f, bgv s' g f = bgv s g f) as H2 by (intros; unfold bgv; by rewrite E2).
  assert (forall ino, iblock s' ino = iblock s ino) as Hb.
  { intros. unfold iblock, igroup, iindex, isize. by rewrite !H1, H2. }
  assert (forall ino, igroup s' ino = igroup s ino) as Hg by (intros; unfold igroup; by rewrite H1).
  assert (forall ino, valid_ino s' ino <-> valid_ino s ino) as Hv.
  { intros. unfold valid_ino. by rewrite Hg, H1, E3. }
  split; [done|]. split; [intros; unfold ioff, iindex, isize; by rewrite !H1|]. split; [done|].
  intros [? ? Ho Hd]. split; unfold isize in *; rewrite ?H1; [done|done|..].
  - intros ino. rewrite Hv, Hb. apply Ho.
  - intros ino j. rewrite !Hv, !Hb, !Hg. apply Hd.
Qed.

Lemma lenZ_inode_at s ino : fs_ok s -> itable s -> valid_ino s ino -> lenZ (inode_at s ino) = sizeof_inode.
Proof.
  intros Hs Ht Hv. destruct (it_ok _ Ht ino Hv) as [Hok _]. destruct (ioff_range s ino Ht). destruct (it_size _ Ht).
  pose proof (st_view_len (block_device s) (iblock s ino) (ok_store _ Hs) Hok) as Hlv. fold (view s (iblock s ino)) in Hlv.
  unfold inode_at. unfold sizeof_inode in *. rewrite slice_Some by lia. cbn [default]. unfold lenZ in *.
  cbn [from_option id]. rewrite length_take, length_drop. lia.
Qed.

(** Writing an inode changes that inode and nothing else. *)
Definition inode_written s s' ino inode : Prop :=
  fs_ok s' /\ superblock s' = superblock s /\ block_groups s' = block_groups s /\
  num_block_groups s' = num_block_groups s /\ fs_dirty s' = true /\
  heap_pos s' <= heap_pos s + bs /\
  (forall j, valid_ino s j -> inode_at s' j = if decide (j = ino) then inode else inode_at s j) /\
  (forall b, st_ok b -> b <> iblock s ino -> view s' b = view s b).

Lemma ext2_write_inode_spec s ino inode :
  fs_ok s -> itable s -> is_u32 ino -> lenZ inode = sizeof_inode -> room bs s 1 ->
  wp (ext2_write_inode now ino inode) s (fun s' r =>
    if decide (valid_ino s ino) then r = inr tt /\ inode_written s s' ino inode
    else r = inl ERR_INVALID /\ s' = s).
Proof.
  intros Hs Ht Hi Hl Hr. unfold ext2_write_inode. apply wp_bnd, locate_inode_spec; [done..|].
  destruct (decide (valid_ino s ino)) as [Hv|Hv]; [|done]. cbn [fst snd]. apply wp_bnd, wp_gets.
  eapply (wp_load now _ s s 0); [lia|done|by apply quiet_refl|by apply it_ok|done|]. intros s1 Hq.
  destruct (it_ok _ Ht ino Hv) as [Hok _]. destruct (ioff_range s ino Ht). destruct (it_size _ Ht).
  pose proof (st_view_len (block_device s) (iblock s ino) (ok_store _ Hs) Hok) as Hlv.
  fold (view s (iblock s ino)) in Hlv.
  destruct (splice (view s (iblock s ino)) (ioff s ino) inode) as [buf|] eqn:Hsp;
    [|rewrite splice_Some in Hsp by (unfold sizeof_inode in *; lia); done].
  apply wp_bnd, wp_lft with buf; [unfold memcpy; by rewrite slice_full|].
  pose proof (splice_length _ _ _ _ Hsp) as Hlb.
  apply wp_bnd, wp_bwrite; [lia|by eapply quiet_ok|done|congruence|]. intros c Hc Hview.
  apply wp_modify. split; [done|]. set (s' := set_fs_dirty true (set_store c s1)).
  assert (forall b, st_ok b -> view s' b = if decide (iblock s ino = b) then buf else view s b) as Hview'.
  { intros b Hb. change (view s' b) with (st_view c b). rewrite Hview by done.
    case_decide; [done|by eapply quiet_view]. }
  pose proof (qu_sb _ _ _ Hq) as E1. pose proof (qu_bg _ _ _ Hq) as E2. pose proof (quiet_groups _ _ _ Hq) as E3.
  split; [apply fs_ok_dirty, fs_ok_store; [done|by eapply quiet_ok]|].
  split; [done|]. split; [done|]. split; [done|]. split; [done|].
  split; [change (heap_pos s1 <= heap_pos s + bs); destruct Hq as [[] _ _ _]; lia|]. split.
  - intros j Hj. destruct (inode_geometry s s' E1 E2 E3) as (Hb & Ho & _).
    unfold inode_at. rewrite Hb, Ho, Hview' by by apply it_ok.
    destruct (decide (iblock s ino = iblock s j)) as [Eb|Eb].
    + destruct (decide (j = ino)) as [->|Hne].
      * by rewrite <- Hl, (slice_splice_same _ _ _ _ Hsp).
      * rewrite Eb in Hsp. erewrite slice_splice_disjoint; [done|exact Hsp|]. rewrite Hl.
        apply inode_slots; congruence.
    + rewrite decide_False by congruence. done.
  - intros b Hb Hne. rewrite Hview' by done. by rewrite decide_False.
Qed.

(** C10: the inode tables behave as an array of inodes.  After an inode was
    written, reading it gives what was written and reading any other valid inode,
    of the same block or not, gives what it gave before. *)
Theorem ext2_inode_write_read s ino j inode :
  fs_ok s -> itable s -> is_u32 ino -> is_u32 j -> valid_ino s ino -> valid_ino s j ->
  lenZ inode = sizeof_inode -> room bs s 2 ->
  wp (ext2_read_inode now j) s (fun _ before =>
    wp (ext2_write_inode now ino inode;;; ext2_read_inode now j) s (fun _ after =>
      after = if decide (j = ino) then inr inode else before)).
Proof.
  intros Hs Ht Hi Hj Hvi Hvj Hl Hr. unfold room in Hr.
  eapply wp_mono; [apply ext2_read_inode_spec; [done..|unfold room; lia]|].
  intros s0 before [_ ->]. destruct (decide (valid_ino s j)) as [_|]; [|done].
  apply wp_bnd. eapply wp_mono; [apply ext2_write_inode_spec; [done..|unfold room; lia]|].
  intros s1 r. destruct (decide (valid_ino s ino)) as [_|]; [|done].
  intros (-> & Hs1 & E1 & E2 & E3 & _ & Hh & Hat & _).
  destruct (inode_geometry s s1 E1 E2 E3) as (_ & _ & Hv & Ht1).
  eapply wp_mono; [apply ext2_read_inode_spec; [done|by apply Ht1|done|unfold room; lia]|].
  intros s2 after [_ ->]. destruct (decide (valid_ino s1 j)) as [_|Hn]; [|by rewrite Hv in Hn]. rewrite Hat by done. by case_decide.
Qed.

End inode_correct.

(** ** The block map *)
Section bmap.
Context {C : Type} {B : BlockStore C} {bs : Z} {L : BlockStoreLaws C bs} (now : Z).
Hypothesis bs_range : 0 < bs <= 65536.
Hypothesis bs_aligned : bs mod 16 = 0.
Implicit Types (s : ext2_fs C) (inode : bytes) (fb n : Z).

Definition addrs : Z := bs / 4.

Definition iblk inode k : Z := default 0 (get_i_block inode k).
(** Entry [idx] of the indirect block [n]; the null block has null entries. *)
Definition entry s n idx : Z := if n =? 0 then 0 else default 0 (ld (view s n) (4 * idx) 4).

(** The device block of block [fb] of a file, 0 for a hole: the specification of
    [ext2_get_block_num]. *)
Definition bmap s inode fb : Z + Z :=
  if decide (fb < 12) then inr (iblk inode fb)
  else if decide (fb - 12 < addrs) then inr (entry s (iblk inode 12) (fb - 12))
  else if decide (fb - 12 - addrs < addrs * addrs) then
    let k := fb - 12 - addrs in
    inr (entry s (entry s (iblk inode 13) (k / addrs)) (k mod addrs))
  else inl ERR_INVALID.

(** Every non-null indirect block of the inode is a block of the store. *)
Definition indirects_ok s inode : Prop :=
  (iblk inode 12 <> 0 -> st_ok (iblk inode 12)) /\
  (iblk inode 13 <> 0 -> st_ok (iblk inode 13) /\
     forall idx, 0 <= idx < addrs -> entry s (iblk inode 13) idx <> 0 ->
       st_ok (entry s (iblk inode 13) idx)).

Lemma addrs_range : 4 <= addrs <= 16384 /\ 4 * addrs = bs.
Proof. unfold addrs. dlia. Qed.

Lemma get_i_block_iblk inode k :
  lenZ inode = sizeof_inode -> 0 <= k < 15 -> get_i_block inode k = Some (iblk inode k).
Proof.
  intros Hl Hk. unfold iblk, get_i_block, i_block.
  rewrite (proj2 (Z.leb_le 0 k)), (proj2 (Z.ltb_lt k 15)) by lia. cbn [andb mbind option_bind].
  unfold getf. destruct (ld_is_Some inode (0 + f_off (Field (f_off i_block0 + 4 * k) 4)) 4) as [v Hv];
    [|rewrite Hl; unfold sizeof_inode|]; cbn in *; [lia..|]. by rewrite Hv.
Qed.

Lemma iblk_range inode k : 0 <= iblk inode k < 4294967296.
Proof.
  unfold iblk, get_i_block, getf. destruct (i_block k) as [f|] eqn:Ef; cbn; [|lia].
  unfold i_block in Ef. case_match; simplify_eq. destruct (ld _ _ _) eqn:E; cbn; [|lia].
  apply ld_inv in E as (_ & _ & E). cbn in E. lia.
Qed.

Lemma read_indirect_spec s0 s n idx k (Q : ext2_fs C -> Z + Z -> Prop) :
  quiet s0 s k -> st_ok n -> n <> 0 -> 0 <= idx < addrs -> room bs s0 (k + 1) ->
  (forall s1, quiet s0 s1 (k + 1) -> Q s1 (inr (entry s0 n idx))) ->
  wp (read_indirect now n idx) s Q.
Proof.
  intros Hq Hn Hn0 Hidx Hr HQ. unfold read_indirect. apply wp_bnd, wp_gets.
  eapply wp_load; [lia|done|done|done|done|]. intros s1 Hq1.
  destruct addrs_range as [_ Ha]. pose proof (mv_ok _ _ _ _ (qu_moved _ _ _ Hq)) as Hs.
  assert (lenZ (view s0 n) = bs) as Hl.
  { rewrite <- (quiet_view _ _ _ n Hq Hn). apply st_view_len; [by apply ok_store|done]. }
  destruct (ld_is_Some (view s0 n) (4 * idx) 4) as [v Hv]; [lia..|].
  eapply wp_lft; [done|]. specialize (HQ s1 Hq1). unfold entry in HQ.
  rewrite (proj2 (Z.eqb_neq n 0)) in HQ by done. by rewrite Hv in HQ.
Qed.

(** The two levels of the double indirect case, for the [m]-th block it maps. *)
Lemma double_indirect_spec s0 s inode m k (Q : ext2_fs C -> Z + Z -> Prop) :
  quiet s0 s k -> indirects_ok s0 inode -> iblk inode 13 <> 0 -> 0 <= m < addrs * addrs -> room bs s0 (k + 2) ->
  (forall s1, quiet s0 s1 (k + 2) ->
     Q s1 (inr (entry s0 (entry s0 (iblk inode 13) (m / addrs)) (m mod addrs)))) ->
  wp (let* idx1 := lft (udiv m addrs) in
      let* idx2 := lft (umod m addrs) in
      let* ind2 := read_indirect now (iblk inode 13) idx1 in
      if ind2 =? 0 then ret 0 else read_indirect now ind2 idx2) s Q.
Proof.
  intros Hq [_ Hi13] E0 Hm Hr HQ. destruct addrs_range as [Ha1 _]. destruct (Hi13 E0) as [Hok13 Hok2].
  apply wp_bnd. eapply wp_lft; [unfold udiv; by rewrite (proj2 (Z.eqb_neq _ _)) by lia|].
  apply wp_bnd. eapply wp_lft; [unfold umod; by rewrite (proj2 (Z.eqb_neq _ _)) by lia|].
  assert (0 <= m / addrs < addrs) as Hd by (split; [apply Z.div_pos; lia|apply Z.div_lt_upper_bound; lia]).
  pose proof (Z.mod_pos_bound m addrs ltac:(lia)) as Hmod. unfold room in Hr.
  apply wp_bnd. eapply read_indirect_spec; [exact Hq|done|done|done|unfold room; lia|]. intros s1 Hq1.
  assert (quiet s0 s1 (k + 2)) as Hq1' by (eapply quiet_weaken; [lia|done|lia]).
  destruct (Z.eqb_spec (entry s0 (iblk inode 13) (m / addrs)) 0) as [E4|E4].
  { apply wp_ret. specialize (HQ s1 Hq1'). rewrite E4 in HQ. exact HQ. }
  eapply read_indirect_spec; [exact Hq1|auto|done|done|unfold room; lia|].
  intros s2 Hq2. apply HQ. eapply quiet_weaken; [lia|done|lia].
Qed.

Lemma ext2_get_block_num_spec s0 s inode fb k (Q : ext2_fs C -> Z + Z -> Prop) :
  quiet s0 s k -> lenZ inode = sizeof_inode -> indirects_ok s0 inode -> is_u32 fb -> room bs s0 (k + 2) ->
  (forall s1, quiet s0 s1 (k + 2) -> Q s1 (bmap s0 inode fb)) ->
  wp (ext2_get_block_num now inode fb) s Q.
Proof.
  intros Hq Hl Hi Hfb Hr HQ. red in Hfb. pose proof (quiet_ok _ _ _ Hq) as Hs. unfold room in Hr.
  destruct addrs_range as [Ha1 Ha2]. unfold bmap in HQ.
  assert (quiet s0 s (k + 2)) as Hq2 by (eapply quiet_weaken; [lia|done|lia]).
  unfold ext2_get_block_num. apply wp_bnd, wp_gets. rewrite (ok_bs _ Hs). fold addrs.
  destruct (Z.ltb_spec fb 12) as [E1|E1].
  { eapply wp_lft; [apply get_i_block_iblk; [done|lia]|]. rewrite decide_True in HQ by done. auto. }
  rewrite decide_False in HQ by lia. rewrite u32_id by (red; lia).
  destruct (Z.ltb_spec (fb - 12) addrs) as [E2|E2].
  { rewrite decide_True in HQ by done. apply wp_bnd.
    eapply wp_lft; [apply get_i_block_iblk; [done|lia]|].
    destruct (Z.eqb_spec (iblk inode 12) 0) as [E0|E0].
    - apply wp_ret. specialize (HQ s Hq2). unfold entry in HQ. by rewrite E0 in HQ.
    - eapply read_indirect_spec; [exact Hq|by apply Hi|done|lia|unfold room; lia|].
      intros s1 Hq1. apply HQ. eapply quiet_weaken; [lia|done|lia]. }
  rewrite decide_False in HQ by lia. rewrite u32_id by (red; lia). rewrite u32_id by (red; nia).
  destruct (Z.ltb_spec (fb - 12 - addrs) (addrs * addrs)) as [E3|E3].
  - rewrite decide_True in HQ by done. apply wp_bnd.
    eapply wp_lft; [apply get_i_block_iblk; [done|lia]|].
    destruct (Z.eqb_spec (iblk inode 13) 0) as [E0|E0].
    + apply wp_ret. specialize (HQ s Hq2). unfold entry in HQ. by rewrite E0 in HQ.
    + eapply double_indirect_spec; [exact Hq|done|done|lia|unfold room; lia|done].
  - rewrite decide_False in HQ by lia. apply wp_err. auto.
Qed.

(** [ext2_get_block_num] computes the block map: the direct, the single and
    the double indirect range, holes at either level included, and
    [ERR_INVALID] beyond them.  It changes neither blocks nor metadata. *)
Theorem ext2_get_block_num_correct s inode fb :
  fs_ok s -> lenZ inode = sizeof_inode -> indirects_ok s inode -> is_u32 fb -> room bs s 2 ->
  wp (ext2_get_block_num now inode fb) s (fun s' r => quiet s s' 2 /\ r = bmap s inode fb).
Proof.
  intros Hs Hl Hi Hfb Hr.
  eapply (ext2_get_block_num_spec s s _ _ 0); [by apply quiet_refl|done..|]. intros s1 Hq. done.
Qed.

(** *** Setting an entry of the map *)
Lemma iblk_set inode k v inode' :
  set_i_block inode k v = Some inode' -> is_u32 v ->
  lenZ inode' = lenZ inode /\
  forall j, 0 <= j < 15 -> iblk inode' j = if decide (j = k) then v else iblk inode j.
Proof.
  unfold set_i_block, i_block. destruct ((0 <=? k) && (k <? 15)) eqn:Ek; [|done]. cbn [mbind option_bind].
  intros Hs Hv. split; [by eapply st_length|]. intros j Hj. unfold iblk, get_i_block, i_block.
  rewrite (proj2 (Z.leb_le 0 j)), (proj2 (Z.ltb_lt j 15)) by lia. cbn [andb mbind option_bind].
  destruct (decide (j = k)) as [->|Hne].
  - unfold getf. rewrite (ld_st_same _ _ _ _ _ Hs); [done|]. red in Hv. cbn [f_width]. lia.
  - f_equal. eapply getf_setf_other; [exact Hs|]. cbn [f_off f_width]. lia.
Qed.

(** Members other than [i_block]. *)
Definition outside_i_block (f : field) : Prop :=
  f_off f + Z.of_nat (f_width f) <= f_off i_block0 \/ f_off i_block0 + 60 <= f_off f.

Lemma set_i_block_other inode k v inode' f :
  set_i_block inode k v = Some inode' -> outside_i_block f -> getf inode' 0 f = getf inode 0 f.
Proof.
  unfold set_i_block, i_block, outside_i_block. destruct ((0 <=? k) && (k <? 15)) eqn:Ek; [|done].
  cbn [mbind option_bind]. intros Hs Hf. eapply getf_setf_other; [exact Hs|]. cbn [f_off f_width i_block0] in *. lia.
Qed.

Lemma set_i_block_ok inode k v :
  lenZ inode = sizeof_inode -> 0 <= k < 15 -> is_Some (set_i_block inode k v).
Proof.
  intros Hl Hk. unfold set_i_block, i_block.
  rewrite (proj2 (Z.leb_le 0 k)), (proj2 (Z.ltb_lt k 15)) by lia. cbn [andb mbind option_bind].
  apply st_is_Some; cbn; rewrite ?Hl; unfold sizeof_inode; lia.
Qed.

(** The blocks [X] are none of the blocks of the double indirect tree. *)
Definition double_apart s inode (X : Z -> Prop) : Prop :=
  iblk inode 13 <> 0 -> ~ X (iblk inode 13) /\
  forall idx, 0 <= idx < addrs -> entry s (iblk inode 13) idx <> 0 -> ~ X (entry s (iblk inode 13) idx).

(** A change to the blocks [X] only does not show in the double indirect range. *)
Lemma bmap_double_frame s s' inode inode' (X : Z -> Prop) m :
  indirects_ok s inode -> double_apart s inode X -> iblk inode' 13 = iblk inode 13 ->
  (forall b, st_ok b -> ~ X b -> view s' b = view s b) -> 0 <= m < addrs * addrs ->
  entry s' (entry s' (iblk inode' 13) (m / addrs)) (m mod addrs) =
  entry s (entry s (iblk inode 13) (m / addrs)) (m mod addrs).
Proof.
  intros [_ Hi] Hd E13 Hv Hm. rewrite E13. destruct addrs_range as [Ha _].
  assert (0 <= m / addrs < addrs) as Hidx by (split; [apply Z.div_pos; lia|apply Z.div_lt_upper_bound; lia]).
  unfold entry at 2 4. destruct (Z.eqb_spec (iblk inode 13) 0) as [E0|E0]; [done|].
  destruct (Hi E0) as [Hok Hok2]. destruct (Hd E0) as [Hx Hx2].
  rewrite Hv by done. specialize (Hok2 _ Hidx). specialize (Hx2 _ Hidx). unfold entry in Hok2, Hx2.
  rewrite (proj2 (Z.eqb_neq (iblk inode 13) 0)) in Hok2, Hx2 by done.
  unfold entry. destruct (Z.eqb_spec (default 0 (ld (view s (iblk inode 13)) (4 * (m / addrs)) 4)) 0) as [E|E];
    [done|]. rewrite Hv; auto.
Qed.

(** The map of the same inode after writing [n] at index [idx] of its single
    indirect block. *)
Lemma bmap_single_set s s' inode idx n buf :
  fs_ok s -> indirects_ok s inode -> iblk inode 12 <> 0 -> is_u32 n -> 0 <= idx < addrs ->
  double_apart s inode (fun b => b = iblk inode 12) ->
  st (view s (iblk inode 12)) (4 * idx) 4 n = Some buf ->
  (forall b, st_ok b -> view s' b = if decide (iblk inode 12 = b) then buf else view s b) ->
  forall fb, is_u32 fb ->
    bmap s' inode fb = if decide (fb = 12 + idx) then inr n else bmap s inode fb.
Proof.
  intros Hs Hi H0 Hn Hidx Hd Hst Hv fb Hfb. red in Hfb, Hn. unfold bmap. destruct addrs_range as [Ha _].
  destruct (decide (fb < 12)) as [E1|E1]; [by rewrite decide_False by lia|].
  destruct (decide (fb - 12 < addrs)) as [E2|E2].
  - unfold entry. rewrite (proj2 (Z.eqb_neq (iblk inode 12) 0)) by done.
    rewrite Hv, decide_True by (done || by apply Hi). case_decide as E.
    + replace (fb - 12) with idx by lia. by rewrite (ld_st_same _ _ _ _ _ Hst) by lia.
    + f_equal. f_equal. eapply ld_st_disjoint; [exact Hst|lia].
  - destruct (decide (fb = 12 + idx)); [lia|]. case_decide as E3; [|done]. cbv zeta. f_equal.
    eapply bmap_double_frame; [done|exact Hd|done| |lia].
    intros b Hb Hne. rewrite Hv by done. rewrite decide_False by congruence. done.
Qed.

(** The first level of the double indirect tree is outside [X] too. *)
Lemma double_frame s s' inode inode' (X : Z -> Prop) :
  indirects_ok s inode -> double_apart s inode X -> iblk inode' 13 = iblk inode 13 ->
  (forall b, st_ok b -> ~ X b -> view s' b = view s b) ->
  (iblk inode' 12 <> 0 -> st_ok (iblk inode' 12)) ->
  indirects_ok s' inode' /\ forall Y : Z -> Prop, (forall b, Y b -> X b) -> double_apart s' inode' Y.
Proof.
  intros [_ Hi] Hd E13 Hv H12.
  assert (forall idx, 0 <= idx < addrs -> iblk inode 13 <> 0 ->
    entry s' (iblk inode 13) idx = entry s (iblk inode 13) idx) as He.
  { intros idx Hidx E0. unfold entry. case_match; [done|]. destruct (Hi E0), (Hd E0). by rewrite Hv. }
  split; [split; [done|]|]; unfold double_apart; rewrite E13.
  - intros E0. destruct (Hi E0) as [? Hok]. split; [done|]. intros idx Hidx. rewrite He by done. auto.
  - intros Y HY E0. destruct (Hd E0) as [Hx Hx2]. split; [by intros ?%HY|].
    intros idx Hidx. rewrite He by done. intros Hn0 Hy. eapply Hx2; eauto.
Qed.

Lemma wp_on_fs {A} (m : M (ext2_fs C) A) s inode (Q : ext2_fs C * bytes -> Z + A -> Prop) :
  wp m s (fun s' r => Q (s', inode) r) -> wp (on_fs m) (s, inode) Q.
Proof. intros (s' & r & Hm & HQ). exists (s', inode), r. cbn. rewrite Hm. done. Qed.

Lemma wp_upd_obj f s inode inode' (Q : ext2_fs C * bytes -> Z + unit -> Prop) :
  f inode = Some inode' -> Q (s, inode') (inr tt) -> wp (upd_obj f) (s, inode) Q.
Proof. intros Hf HQ. exists (s, inode'), (inr tt). cbn. by rewrite Hf. Qed.

(** The end of [ext2_set_block_num]: entry [idx] of the single indirect block. *)
Lemma set_entry_spec s inode idx n (Q : ext2_fs C * bytes -> Z + Z -> Prop) :
  fs_ok s -> lenZ inode = sizeof_inode -> st_ok (iblk inode 12) -> 0 <= idx < addrs -> room bs s 1 ->
  (forall s' buf, st (view s (iblk inode 12)) (4 * idx) 4 n = Some buf ->
     wrote s s' 1 (iblk inode 12) buf -> Q (s', inode) (inr bs)) ->
  wp (let* indirect := on_fs (alloc_buffer bs) in
      let* inode := get_obj in
      let* ind := lft (get_i_block inode 12) in
      let* indirect := on_fs (bread now ind indirect) in
      let* indirect := lft (st indirect (4 * idx) 4 n) in
      on_fs (bwrite now ind indirect)) (s, inode) Q.
Proof.
  intros Hs Hl Hok Hidx Hr HQ. destruct addrs_range as [_ Ha].
  apply wp_bnd, wp_on_fs, wp_alloc_buffer; [lia|done..|]. intros buf0 Hl0 _.
  pose proof (quiet_buffer (bs := bs) s s 0 ltac:(lia) bs_aligned Hr (quiet_refl s Hs)) as Hq.
  apply wp_bnd, wp_gets. cbn [snd]. apply wp_bnd. eapply wp_lft; [apply get_i_block_iblk; [done|lia]|].
  apply wp_bnd, wp_on_fs, wp_bread; [lia|by eapply quiet_ok|done|done|]. intros c Hc Hv.
  pose proof (quiet_read _ _ _ _ Hq Hc Hv) as Hq1.
  rewrite (quiet_view _ _ _ _ Hq) by done.
  destruct (st_is_Some (view s (iblk inode 12)) (4 * idx) 4 n) as [buf Hbuf];
    [lia|unfold view; rewrite st_view_len by (done || by apply ok_store); lia|].
  apply wp_bnd. eapply wp_lft; [done|].
  apply wp_on_fs, wp_bwrite; [lia|by eapply quiet_ok|done| |].
  { rewrite (st_length _ _ _ _ _ Hbuf). apply st_view_len; [by apply ok_store|done]. }
  intros c2 Hc2 Hv2. eapply HQ; [done|]. by apply (wrote_quiet _ _ _ _ _ _ Hq1).
Qed.

(** A block of the device that a new indirect block may come from. *)
Definition alloc_target s b : Prop :=
  block_free s b \/ exists g, 0 <= g < num_block_groups s /\ b = bgv s g bg_block_bitmap.

(** An inode consistent with the allocator: its indirect blocks are blocks of the
    store, the tree below [i_block[13]] contains neither [i_block[12]] nor a free
    block nor a bitmap, and every free block is a block of the store. *)
Record map_ok s inode : Prop := {
  mo_len : lenZ inode = sizeof_inode;
  mo_ind : indirects_ok s inode;
  mo_single : double_apart s inode (fun b => b = iblk inode 12);
  mo_free : double_apart s inode (alloc_target s);
  mo_target b : block_free s b -> st_ok b /\ b <> 0 /\ is_u32 b
}.

(** The allocation of a missing single indirect block: the map is unchanged. *)
Record grown s inode s' inode' : Prop := {
  gw_ok : fs_ok s';
  gw_len : lenZ inode' = sizeof_inode;
  gw_ind : indirects_ok s' inode';
  gw_12 : iblk inode' 12 <> 0;
  gw_apart : double_apart s' inode' (fun b => b = iblk inode' 12);
  gw_heap : heap_pos s' <= heap_pos s + (num_block_groups s + 1) * bs;
  gw_map fb : is_u32 fb -> bmap s' inode' fb = bmap s inode fb;
  gw_iblk j : 0 <= j < 15 -> j <> 12 -> iblk inode' j = iblk inode j;
  gw_other f : outside_i_block f -> getf inode' 0 f = getf inode 0 f;
  gw_old : iblk inode 12 <> 0 -> iblk inode' 12 = iblk inode 12;
  gw_new : iblk inode 12 = 0 -> block_free s (iblk inode' 12);
  gw_extends : alloc_ok s -> ~ block_free s (iblk inode 12) ->
    extends s s' (num_block_groups s + 1) (fun b => b = iblk inode' 12)
}.

Lemma entry_zero s n idx : view s n = replicate (Z.to_nat bs) 0 -> 0 <= idx < addrs -> entry s n idx = 0.
Proof.
  intros Hv Hidx. unfold entry. case_match; [done|]. rewrite Hv. destruct addrs_range as [_ Ha].
  unfold ld. rewrite slice_Some by (rewrite ?lenZ_replicate; lia). cbn -[replicate].
  rewrite drop_replicate, take_replicate. by replace (Z.to_nat 4 `min` _)%nat with 4%nat by lia.
Qed.

Lemma bmap_grown s s' inode inode' (X : Z -> Prop) :
  indirects_ok s inode -> double_apart s inode X -> iblk inode 12 = 0 ->
  view s' (iblk inode' 12) = replicate (Z.to_nat bs) 0 ->
  (forall j, 0 <= j < 15 -> j <> 12 -> iblk inode' j = iblk inode j) ->
  (forall b, st_ok b -> ~ X b -> view s' b = view s b) ->
  forall fb, is_u32 fb -> bmap s' inode' fb = bmap s inode fb.
Proof.
  intros Hi Hd E12 Hz Hj Hv fb Hfb. red in Hfb. unfold bmap.
  destruct (decide (fb < 12)); [by rewrite Hj by lia|]. destruct (decide (fb - 12 < addrs)).
  - rewrite entry_zero by (done || lia). unfold entry. by rewrite E12.
  - case_decide; [|done]. cbv zeta. f_equal. eapply bmap_double_frame; [done|exact Hd| |done|lia].
    by apply Hj.
Qed.

(** A new block, written. *)
Lemma grown_extends s s1 s2 ib buf :
  alloc_ok s -> alloc_block_post s s1 (inr ib) -> wrote s1 s2 1 ib buf ->
  extends s s2 (num_block_groups s + 1) (fun b => b = ib).
Proof.
  intros Hao Hal Hw. destruct (extends_alloc (bs := bs) ltac:(lia) s s1 ib Hao Hal) as [Hx Hf].
  pose proof (ao_free _ Hao ib Hf) as (_ & _ & _ & Hnb).
  assert (~ block_free s1 ib) as Hnf by (intros [_ H]%(ex_free _ _ _ _ Hx); done).
  assert (extends s1 s2 1 (fun b => b = ib)) as Hx2.
  { eapply extends_wrote; [by eapply ex_ok|done| |done]. by rewrite (ex_bitmap _ _ _ _ Hx). }
  eapply extends_weaken; [lia|eapply extends_trans; [lia|exact Hx|exact Hx2]|lia|by intros b [|]|].
  intros b -> [_ H]%(ex_free _ _ _ _ Hx2). done.
Qed.

Lemma grow_spec s inode (Q : ext2_fs C * bytes -> Z + Z -> Prop) :
  fs_ok s -> map_ok s inode -> geometry blocks s -> numbers_fit s -> iblk inode 12 = 0 ->
  room bs s (num_block_groups s + 1) ->
  (forall s', quiet s s' (num_block_groups s) -> Q (s', inode) (inl ERR_NO_MEMORY)) ->
  (forall s' inode' r, grown s inode s' inode' -> Q (s', inode') (inr r)) ->
  wp (let* indirect_block := on_fs (ext2_alloc_block now) in
      upd_obj (fun i => set_i_block i 12 indirect_block);;;
      let* zero_block := on_fs (alloc_buffer bs) in
      let* zero_block := lft (memset zero_block 0 0 bs) in
      on_fs (bwrite now indirect_block zero_block)) (s, inode) Q.
Proof.
  intros Hs Hm Hge Hfit E12 Hr Herr HQ. pose proof Hm as [Hlen Hi _ Hfree Htgt]. unfold room in Hr.
  destruct (ok_groups _ Hs) as [Hg0 _].
  apply wp_bnd, wp_on_fs. eapply wp_mono; [apply ext2_alloc_block_spec; [lia|done..|unfold room; lia]|].
  intros s1 [e|ib]; cbn [alloc_block_post]; [intros (-> & Hq & _); by apply Herr|].
  intros (g & bit & bm & Hat & Hbf & Hlow & Hexh & Hbm & Hct). pose proof Hct as [[Hs1 _ Hh1 Hv1] _ _ _].
  assert (block_free s ib) as Hfree_ib by by exists g, bit.
  destruct (Htgt ib Hfree_ib) as (Hok & Hne & Hu).
  destruct (set_i_block_ok inode 12 ib Hlen) as [inode1 Hset]; [lia|].
  destruct (iblk_set _ _ _ _ Hset Hu) as [Hlen1 Hiblk].
  apply wp_bnd. eapply wp_upd_obj; [done|].
  apply wp_bnd, wp_on_fs, wp_alloc_buffer; [lia|done|done|unfold room; lia|]. intros buf Hl0 ->.
  assert (room bs s1 1) as Hr1 by (unfold room; lia).
  pose proof (quiet_buffer (bs := bs) s1 s1 0 ltac:(lia) bs_aligned Hr1 (quiet_refl s1 Hs1)) as Hq.
  apply wp_bnd. eapply wp_lft; [apply splice_full; by rewrite !lenZ_replicate|].
  apply wp_on_fs, wp_bwrite; [lia|by eapply quiet_ok|done|done|]. intros c Hc Hvc.
  apply HQ. set (s' := set_store c _). set (X := alloc_target s).
  assert (forall b, st_ok b -> ~ X b -> view s' b = view s b) as Hframe.
  { intros b Hb HX. change (view s' b) with (st_view c b). rewrite Hvc by done.
    rewrite decide_False by (intros <-; apply HX; by left). rewrite (quiet_view _ _ _ b Hq) by done.
    rewrite Hv1, decide_False; [done| |done]. intros <-. apply HX. right. exists g. split; [apply Hat|done]. }
  assert (iblk inode1 12 = ib) as E12' by (rewrite Hiblk by lia; done).
  destruct (double_frame s s' inode inode1 X Hi Hfree) as [Hi' Hda];
    [by rewrite Hiblk by lia|done|by rewrite E12'|].
  assert (forall j, 0 <= j < 15 -> j <> 12 -> iblk inode1 j = iblk inode j) as Hj.
  { intros j Hj Hne12. rewrite Hiblk by done. by rewrite decide_False. }
  split; [apply fs_ok_store; [done|by eapply quiet_ok]|congruence|done|by rewrite E12'| | |
         |exact Hj|intros f; by apply (set_i_block_other _ _ _ _ _ Hset)|done|by rewrite E12'|].
  - apply Hda. intros b ->. rewrite E12'. by left.
  - change (heap_pos s1 + bs <= heap_pos s + (num_block_groups s + 1) * bs). lia.
  - eapply bmap_grown; [done|exact Hfree|done| |exact Hj|exact Hframe].
    rewrite E12'. change (view s' ib) with (st_view c ib). rewrite Hvc, decide_True by done. done.
  - intros Hao _. rewrite E12'. eapply grown_extends; [done..|by exists g, bit, bm|].
    by apply (wrote_quiet _ _ _ _ _ _ Hq).
Qed.

(** The map after a successful [ext2_set_block_num]. *)
Definition map_set s inode fb n s' inode' : Prop :=
  forall fb', is_u32 fb' -> bmap s' inode' fb' = if decide (fb' = fb) then inr n else bmap s inode fb'.

(** The state and the inode after it. *)
Record remapped s inode fb n s' inode' : Prop := {
  rm_map : map_set s inode fb n s' inode';
  rm_len : lenZ inode' = sizeof_inode;
  rm_iblk j : 13 <= j < 15 -> iblk inode' j = iblk inode j;
  rm_other f : outside_i_block f -> getf inode' 0 f = getf inode 0 f;
  rm_old : iblk inode 12 <> 0 -> iblk inode' 12 = iblk inode 12;
  rm_new : iblk inode 12 = 0 -> iblk inode' 12 = 0 \/ block_free s (iblk inode' 12);
  rm_extends : alloc_ok s -> ~ block_free s (iblk inode 12) ->
    (iblk inode 12 <> 0 -> ~ is_bitmap s (iblk inode 12)) ->
    extends s s' (num_block_groups s + 2) (fun b => b = iblk inode' 12)
}.

Lemma set_direct_spec s inode fb n (Q : ext2_fs C * bytes -> Z + Z -> Prop) :
  fs_ok s -> map_ok s inode -> 0 <= fb < 12 -> is_u32 n ->
  (forall inode', remapped s inode fb n s inode' -> Q (s, inode') (inr ERR_SUCCESS)) ->
  wp (upd_obj (fun i => set_i_block i fb n);;; ret ERR_SUCCESS) (s, inode) Q.
Proof.
  intros Hs Hm Hfb Hn HQ. destruct (set_i_block_ok inode fb n (mo_len _ _ Hm)) as [inode' Hset]; [lia|].
  destruct (iblk_set _ _ _ _ Hset Hn) as [Hl Hiblk]. apply wp_bnd. eapply wp_upd_obj; [done|].
  apply wp_ret, HQ. assert (iblk inode' 12 = iblk inode 12) as E12 by (rewrite Hiblk, decide_False by lia; done).
  destruct (ok_groups _ Hs). split; rewrite ?E12.
  - intros fb' Hfb'. red in Hfb'. unfold bmap.
    destruct (decide (fb' < 12)); [rewrite Hiblk by lia; by case_decide|].
    destruct (decide (fb' = fb)); [lia|]. rewrite !Hiblk by lia.
    destruct (decide (12 = fb)), (decide (13 = fb)); (lia || done).
  - rewrite Hl. apply Hm.
  - intros j Hj. rewrite Hiblk, decide_False by lia. done.
  - intros f. by apply (set_i_block_other _ _ _ _ _ Hset).
  - done.
  - by left.
  - intros Hao Hnf _. eapply extends_weaken; [lia|eapply extends_quiet; [lia|done|by apply quiet_refl]|lia|done|].
    by intros b ->.
Qed.

(** The single indirect block, present or new, and then its entry. *)
Lemma remapped_grown s inode fb n s1 inode1 s2 buf :
  fs_ok s -> grown s inode s1 inode1 -> is_u32 fb -> is_u32 n -> 12 <= fb < 12 + addrs ->
  st (view s1 (iblk inode1 12)) (4 * (fb - 12)) 4 n = Some buf -> wrote s1 s2 1 (iblk inode1 12) buf ->
  remapped s inode fb n s2 inode1.
Proof.
  intros Hs Hg Hfb Hn Hr Hst Hw. pose proof (wr_moved _ _ _ _ _ Hw) as [_ _ _ Hv]. split.
  - intros fb' Hfb'. rewrite (bmap_single_set s1 s2 inode1 (fb - 12) n buf); [|by apply Hg..|done|lia|by apply Hg|done|done|done].
    rewrite (gw_map _ _ _ _ Hg) by done. by replace (12 + (fb - 12)) with fb by lia.
  - by apply Hg.
  - intros j Hj. apply (gw_iblk _ _ _ _ Hg); lia.
  - by apply Hg.
  - by apply Hg.
  - right. by apply (gw_new _ _ _ _ Hg).
  - intros Hao Hnf Hnb. pose proof (gw_extends _ _ _ _ Hg Hao Hnf) as Hx.
    assert (~ block_free s1 (iblk inode1 12)) as Hnf1 by (intros [_ H]%(ex_free _ _ _ _ Hx); done).
    assert (extends s1 s2 1 (fun b => b = iblk inode1 12)) as Hx2.
    { eapply extends_wrote; [by eapply ex_ok|done| |done]. rewrite (ex_bitmap _ _ _ _ Hx).
      destruct (decide (iblk inode 12 = 0)) as [E0|E0]; [|rewrite (gw_old _ _ _ _ Hg) by done; auto].
      by apply (ao_free _ Hao), (gw_new _ _ _ _ Hg). }
    eapply extends_weaken; [lia|eapply extends_trans; [lia|exact Hx|exact Hx2]|lia|by intros b [|]|].
    intros b -> [_ H]%(ex_free _ _ _ _ Hx2). done.
Qed.

Lemma grown_refl s inode : fs_ok s -> map_ok s inode -> iblk inode 12 <> 0 -> grown s inode s inode.
Proof.
  intros Hs [] H12. destruct (ok_groups _ Hs). split; try done; [nia|]. intros Hao Hnf.
  eapply extends_weaken; [lia|eapply extends_quiet; [lia|done|by apply quiet_refl]|lia|done|]. by intros b ->.
Qed.

Lemma ext2_set_block_num_spec s inode fb n (Q : ext2_fs C * bytes -> Z + Z -> Prop) :
  fs_ok s -> map_ok s inode -> geometry blocks s -> numbers_fit s -> is_u32 fb -> is_u32 n ->
  room bs s (num_block_groups s + 2) ->
  (12 + addrs <= fb -> Q (s, inode) (inl ERR_INVALID)) ->
  (fb < 12 + addrs -> forall s', quiet s s' (num_block_groups s) -> Q (s', inode) (inl ERR_NO_MEMORY)) ->
  (fb < 12 + addrs -> forall s' inode' r, remapped s inode fb n s' inode' -> Q (s', inode') (inr r)) ->
  wp (ext2_set_block_num now fb n) (s, inode) Q.
Proof.
  intros Hs Hm Hge Hfit Hfb Hn Hr Hinv Herr HQ. pose proof Hfb as Hfb0. red in Hfb0.
  destruct addrs_range as [Ha1 Ha2]. unfold room in Hr. destruct (ok_groups _ Hs) as [Hg0 _].
  unfold ext2_set_block_num. apply wp_bnd, wp_on_fs, wp_gets. rewrite (ok_bs _ Hs). fold addrs.
  destruct (Z.ltb_spec fb 12) as [E1|E1].
  { apply set_direct_spec; [done|done|lia|done|]. intros inode'. apply HQ. lia. }
  rewrite u32_id by (red; lia). destruct (Z.ltb_spec (fb - 12) addrs) as [E2|E2];
    [|apply wp_err, Hinv; lia].
  apply wp_bnd, wp_gets. cbn [snd]. apply wp_bnd.
  eapply wp_lft; [apply get_i_block_iblk; [by apply (mo_len _ _ Hm)|lia]|].
  assert (forall s1 inode1, grown s inode s1 inode1 -> wp
    (let* indirect := on_fs (alloc_buffer bs) in
     let* inode := get_obj in
     let* ind := lft (get_i_block inode 12) in
     let* indirect := on_fs (bread now ind indirect) in
     let* indirect := lft (st indirect (4 * (fb - 12)) 4 n) in
     on_fs (bwrite now ind indirect)) (s1, inode1) Q) as Hrest.
  { intros s1 inode1 Hg. pose proof (gw_heap _ _ _ _ Hg).
    apply set_entry_spec; [by apply Hg|by apply Hg|by apply (gw_ind _ _ _ _ Hg), Hg|lia|unfold room; nia|].
    intros s' buf Hbuf Hw. apply HQ; [lia|]. eapply remapped_grown; (done || lia). }
  destruct (Z.eqb_spec (iblk inode 12) 0) as [E0|E0]; apply wp_bnd.
  - apply (grow_spec s inode); [done..|unfold room; lia| |].
    + intros s' Hq. apply Herr; [lia|done].
    + intros s' inode' r Hgr. by apply Hrest.
  - apply wp_ret, (Hrest s inode). by apply grown_refl.
Qed.

(** C8: setting block [fb] of a file to [n] and reading the map back.  For an
    inode consistent with the allocator, a successful [ext2_set_block_num] makes
    [ext2_get_block_num] return [n] for [fb] and, for every other block of the
    file, what it returned before; this includes the case where the single
    indirect block is missing and is allocated and cleared first.  The only
    failures are an exhausted device or heap, and the double indirect range, which
    the code does not support for writing. *)
Theorem ext2_set_get_block_num s inode fb n :
  fs_ok s -> map_ok s inode -> geometry blocks s -> numbers_fit s -> is_u32 fb -> is_u32 n ->
  room bs s (num_block_groups s + 2) ->
  wp (ext2_set_block_num now fb n) (s, inode) (fun p r =>
    if decide (fb < 12 + addrs)
    then match r with
         | inr _ => map_set s inode fb n p.1 p.2
         | inl e => e = ERR_NO_MEMORY
         end
    else r = inl ERR_INVALID /\ p = (s, inode)).
Proof.
  intros Hs Hm Hge Hfit Hfb Hn Hr. apply ext2_set_block_num_spec; [done..| | |].
  - intros. by rewrite decide_False by lia.
  - intros. by rewrite decide_True by lia.
  - intros ? s' inode' r Hrm. rewrite decide_True by lia. apply Hrm.
Qed.

End bmap.
