(* ===== verification/Ext2File.v ===== *)
(** * ext2 file contents: [src/fs/ext2/file.c] *)
From S2P Require Import Prelude KernelLib Ext2Base Ext2Alloc Ext2Inode.
Import Memory.
Open Scope Z_scope.
Open Scope ext2_scope.

Section file.
Context {C : Type} {B : BlockStore C} (now : Z).
Abbreviation F := (M (ext2_fs C)).
Abbreviation FO := (M (ext2_fs C * bytes)).

(** One turn of either loop: the block of the file, the offset in it, and the
    bytes of it to transfer. *)
Definition chunk (block_size offset size : Z) : option (Z * Z * Z) :=
  q ← udiv offset block_size;
  r ← umod offset block_size;
  let block_offset := u32 r in
  let n := u32 (block_size - block_offset) in
  Some (u32 q, block_offset, if size <? n then u32 size else n).

(** The loop of [ext2_read_file]; the object is the caller's buffer, written from
    [out].  Every turn transfers at least a byte, so [size] turns are enough. *)
Fixpoint read_loop (fuel : nat) (inode block_buffer : bytes) (out offset size bytes_read : Z) : FO Z :=
  if size =? 0 then ret (i32 bytes_read)
  else
    match fuel with
    | O => lft None
    | S fuel' =>
        let* block_size := on_fs (gets fs_block_size) in
        let* c := lft (chunk block_size offset size) in
        let '(file_block, block_offset, to_read) := c in
        let* block_num := on_fs (ext2_get_block_num now inode file_block) in
        let next (block_buffer : bytes) : FO Z :=
          read_loop fuel' inode block_buffer (out + to_read) (u64 (offset + to_read))
            (u64 (size - to_read)) (u64 (bytes_read + to_read)) in
        if block_num =? 0 then
          upd_obj (fun o => memset o out 0 to_read);;; next block_buffer
        else
          let* block_buffer := on_fs (bread now block_num block_buffer) in
          upd_obj (fun o => memcpy o out block_buffer block_offset to_read);;; next block_buffer
    end.

Definition ext2_read_file (inode : bytes) (offset size : Z) : FO Z :=
  let* isize := lft (getf inode 0 i_size) in
  if isize <=? offset then ret 0
  else
    let size := if isize <? u64 (offset + size) then u64 (isize - offset) else size in
    let* block_size := on_fs (gets fs_block_size) in
    let* block_buffer := on_fs (alloc_buffer block_size) in
    read_loop (Z.to_nat size) inode block_buffer 0 offset size 0.

(** The block a write goes to; a hole gets a new block. *)
Definition block_for_write (file_block : Z) : FO Z :=
  let* inode := get_obj in
  let* block_num := on_fs (ext2_get_block_num now inode file_block) in
  if block_num =? 0 then
    let* block_num := on_fs (ext2_alloc_block now) in
    let* r := try (ext2_set_block_num now file_block block_num) in
    match r with
    | inl e => on_fs (try (ext2_free_block now block_num));;; err e
    | inr _ =>
        let* block_size := on_fs (gets fs_block_size) in
        upd_obj (fun i => v ← getf i 0 i_blocks; setf i 0 i_blocks (u32 (v + block_size / 512)));;;
        ret block_num
    end
  else ret block_num.

(** The loop of [ext2_write_file]; the object is the inode.  The result is the
    final offset and the number of bytes written. *)
Fixpoint write_loop (fuel : nat) (buffer block_buffer : bytes) (in_ offset size bytes_written : Z)
  : FO (Z * Z) :=
  if size =? 0 then ret (offset, bytes_written)
  else
    match fuel with
    | O => lft None
    | S fuel' =>
        let* block_size := on_fs (gets fs_block_size) in
        let* c := lft (chunk block_size offset size) in
        let '(file_block, block_offset, to_write) := c in
        let* block_num := block_for_write file_block in
        let* block_buffer :=
          (if negb (block_offset =? 0) || negb (to_write =? block_size)
           then on_fs (bread now block_num block_buffer) else ret block_buffer) in
        let* block_buffer := lft (memcpy block_buffer block_offset buffer in_ to_write) in
        on_fs (bwrite now block_num block_buffer);;;
        write_loop fuel' buffer block_buffer (in_ + to_write) (u64 (offset + to_write))
          (u64 (size - to_write)) (u64 (bytes_written + to_write))
    end.

Definition ext2_write_file (offset size : Z) (buffer : bytes) : FO Z :=
  let* block_size := on_fs (gets fs_block_size) in
  let* block_buffer := on_fs (alloc_buffer block_size) in
  let* p := write_loop (Z.to_nat size) buffer block_buffer 0 offset size 0 in
  let* inode := get_obj in
  let* isize := lft (getf inode 0 i_size) in
  (if isize <? p.1 then upd_obj (fun i => setf i 0 i_size (u32 p.1)) else ret tt);;;
  upd_obj (fun i => setf i 0 i_mtime (u32 now));;;
  on_fs (modify (set_fs_dirty true));;;
  ret (i32 p.2).

Definition ext2_read_block (block : Z) (buffer : bytes) : F bytes := bread now block buffer.

Definition ext2_write_block (block : Z) (buffer : bytes) : F Z :=
  modify (set_fs_dirty true);;; bwrite now block buffer.

End file.

(** ** Reading: the loop against the contents of the file *)
Section read_correct.
Context {C : Type} {B : BlockStore C} {bs : Z} {L : BlockStoreLaws C bs} (now : Z).
Hypothesis bs_range : 0 < bs <= 65536.
Hypothesis bs_aligned : bs mod 16 = 0.
Implicit Types (s : ext2_fs C) (inode : bytes) (off n : Z).

(** Byte [p] of the file: zero in a hole. *)
Definition file_byte s inode (p : Z) : Z :=
  match bmap (bs := bs) s inode (p / bs) with
  | inr n => if n =? 0 then 0 else default 0 (getZ (view s n) (p mod bs))
  | inl _ => 0
  end.

(** [n] bytes of the file from [off]. *)
Definition file_range s inode off (n : nat) : bytes :=
  (fun i => file_byte s inode (off + Z.of_nat i)) <$> seq 0 n.

(** Every block of the range is mapped, to a hole or to a block of the store. *)
Definition mapped s inode off n : Prop :=
  forall p, off <= p < off + n ->
    exists b, bmap (bs := bs) s inode (p / bs) = inr b /\ (b <> 0 -> st_ok b).

Lemma lenZ_file_range s inode off (n : nat) : lenZ (file_range s inode off n) = Z.of_nat n.
Proof. unfold lenZ, file_range. by rewrite length_fmap, length_seq. Qed.

Lemma file_range_app s inode off (n m : nat) :
  file_range s inode off (n + m) = file_range s inode off n ++ file_range s inode (off + Z.of_nat n) m.
Proof.
  unfold file_range. rewrite seq_app, fmap_app. f_equal. cbn [Nat.add].
  replace (seq n m) with (Nat.add n <$> seq 0 m) by (rewrite fmap_add_seq; f_equal; lia).
  rewrite <- list_fmap_compose. apply list_fmap_ext.
  intros i x _. cbn. f_equal. lia.
Qed.

(** The bytes of one block. *)
Lemma file_range_chunk s inode off n :
  0 <= off -> 0 <= n -> off mod bs + n <= bs -> n <> 0 ->
  fs_ok s -> (exists b, bmap (bs := bs) s inode (off / bs) = inr b /\ (b <> 0 -> st_ok b)) ->
  match bmap (bs := bs) s inode (off / bs) with
  | inr b => if b =? 0 then file_range s inode off (Z.to_nat n) = replicate (Z.to_nat n) 0
             else slice (view s b) (off mod bs) n = Some (file_range s inode off (Z.to_nat n))
  | inl _ => False
  end.
Proof.
  intros Hoff Hn Hfit Hn0 Hs (b & Hb & Hok). rewrite Hb.
  assert (forall i, (i < Z.to_nat n)%nat ->
    (off + Z.of_nat i) / bs = off / bs /\ (off + Z.of_nat i) mod bs = off mod bs + Z.of_nat i) as Hdiv.
  { intros i Hi. pose proof (Z.div_mod off bs). pose proof (Z.mod_pos_bound off bs).
    split; symmetry.
    - apply Z.div_unique with (r := off mod bs + Z.of_nat i); [left; lia|lia].
    - apply Z.mod_unique with (q := off / bs); [left; lia|lia]. }
  destruct (Z.eqb_spec b 0) as [->|Hb0].
  - apply list_eq. intros i. unfold file_range. rewrite list_lookup_fmap.
    destruct (decide (i < Z.to_nat n)%nat) as [Hi|Hi].
    + rewrite lookup_seq_lt by done. cbn. destruct (Hdiv i Hi) as [E _].
      unfold file_byte. rewrite E, Hb. by rewrite lookup_replicate_2.
    + rewrite lookup_seq_ge by lia. cbn. symmetry. apply lookup_replicate_None. lia.
  - pose proof (st_view_len (block_device s) b (ok_store _ Hs) (Hok Hb0)) as Hl.
    pose proof (Z.mod_pos_bound off bs ltac:(lia)).
    fold (view s b) in Hl. rewrite slice_Some by lia. f_equal. apply list_eq. intros i.
    unfold file_range. rewrite list_lookup_fmap, lookup_take, lookup_drop. case_decide as Hi.
    + rewrite lookup_seq_lt by done. cbn. destruct (Hdiv i Hi) as [E1 E2].
      unfold file_byte. rewrite E1, E2, Hb, (proj2 (Z.eqb_neq b 0)) by done.
      unfold getZ. rewrite (proj2 (Z.ltb_ge _ _)) by lia.
      replace (Z.to_nat (off mod bs + Z.of_nat i)) with (Z.to_nat (off mod bs) + i)%nat by lia.
      destruct (lookup_lt_is_Some_2 (view s b) (Z.to_nat (off mod bs) + i)) as [x ->]; [|done].
      unfold lenZ in Hl. lia.
    + by rewrite lookup_seq_ge by lia.
Qed.

(** The number of blocks the range touches: the turns of the loop. *)
Definition turns off n : Z := if n =? 0 then 0 else (off mod bs + n + bs - 1) / bs.

Lemma turns_nonneg off n : 0 <= n -> 0 <= turns off n.
Proof.
  intros. unfold turns. case_match; [done|]. pose proof (Z.mod_pos_bound off bs ltac:(lia)).
  apply Z.div_pos; lia.
Qed.

(** The part of the range in its first block, and what is left. *)
Lemma chunk_spec off n :
  0 <= off < 4294967296 -> 0 < n -> off + n < 4294967296 ->
  exists t, chunk bs off n = Some (off / bs, off mod bs, t) /\ 0 < t <= n /\ off mod bs + t <= bs /\
    turns off n = 1 + turns (off + t) (n - t).
Proof.
  intros Hoff Hn Hon. pose proof (Z.mod_pos_bound off bs ltac:(lia)) as Hm.
  pose proof (Z.div_mod off bs ltac:(lia)). assert (0 <= off / bs <= off) as Hq.
  { split; [apply Z.div_pos; lia|apply Z.div_le_upper_bound; nia]. }
  unfold chunk, udiv, umod. rewrite (proj2 (Z.eqb_neq bs 0)) by lia. cbn [mbind option_bind].
  rewrite !u32_id by (red; lia).
  assert (n <= bs - off mod bs -> turns off n = 1) as Hlast.
  { intros. unfold turns. rewrite (proj2 (Z.eqb_neq n 0)) by lia. symmetry.
    apply Z.div_unique with (r := off mod bs + n - 1); [left; lia|lia]. }
  destruct (Z.ltb_spec n (bs - off mod bs)) as [E|E].
  - exists n. split; [done|]. split; [lia|]. split; [lia|]. rewrite Z.sub_diag, Hlast by lia. done.
  - exists (bs - off mod bs). split; [done|]. split; [lia|]. split; [lia|].
    destruct (decide (n = bs - off mod bs)) as [En|En]; [by rewrite Hlast, <- En, Z.sub_diag by lia|].
    unfold turns. rewrite (proj2 (Z.eqb_neq n 0)), (proj2 (Z.eqb_neq (n - _) 0)) by lia.
    replace (off mod bs + n + bs - 1) with (n - (bs - off mod bs) + bs - 1 + 1 * bs) by lia.
    rewrite Z.div_add by lia. rewrite Z.add_comm. f_equal. f_equal.
    assert ((off + (bs - off mod bs)) mod bs = 0) as ->; [|lia].
    symmetry. apply Z.mod_unique with (q := off / bs + 1); [left; lia|lia].
Qed.

(** The transfer of one turn: the first [t] bytes of the range, all of one block. *)
Lemma read_turn_spec s0 s k inode bb o out off t o2 b (next : bytes -> M (ext2_fs C * bytes) Z)
    (Q : ext2_fs C * bytes -> Z + Z -> Prop) :
  fs_ok s0 -> quiet s0 s k -> bmap (bs := bs) s0 inode (off / bs) = inr b -> (b <> 0 -> st_ok b) ->
  lenZ bb = bs -> 0 <= off -> 0 < t -> off mod bs + t <= bs ->
  splice o out (file_range s0 inode off (Z.to_nat t)) = Some o2 ->
  (forall s2 bb2, quiet s0 s2 k -> lenZ bb2 = bs -> wp (next bb2) (s2, o2) Q) ->
  wp (if b =? 0 then upd_obj (fun o => memset o out 0 t);;; next bb
      else let* bb := on_fs (bread now b bb) in
           upd_obj (fun o => memcpy o out bb (off mod bs) t);;; next bb) (s, o) Q.
Proof.
  intros Hs0 Hq Hb Hbok Hbb Hoff Ht Htb Hsp Hnext.
  pose proof (file_range_chunk s0 inode off t ltac:(lia) ltac:(lia) Htb ltac:(lia) Hs0 ltac:(eauto)) as Hchunk.
  rewrite Hb in Hchunk. destruct (Z.eqb_spec b 0) as [->|Hb0].
  - apply wp_bnd. eapply wp_upd_obj; [unfold memset; change (u8 0) with 0; rewrite <- Hchunk; exact Hsp|]. auto.
  - apply wp_bnd, wp_on_fs, wp_bread; [lia|by eapply quiet_ok|auto|done|]. intros c Hcinv Hv.
    rewrite (quiet_view _ _ _ _ Hq) by auto.
    apply wp_bnd. eapply wp_upd_obj; [unfold memcpy; rewrite Hchunk; exact Hsp|].
    apply Hnext; [by apply quiet_read|].
    rewrite <- (quiet_view _ _ _ _ Hq) by auto. apply st_view_len; [apply ok_store; by eapply quiet_ok|auto].
Qed.

Lemma read_loop_spec fuel : forall s0 s k inode bb o out off n read (Q : ext2_fs C * bytes -> Z + Z -> Prop),
  fs_ok s0 -> quiet s0 s k -> lenZ inode = sizeof_inode -> indirects_ok s0 inode ->
  mapped s0 inode off n -> lenZ bb = bs -> 0 <= out -> out + n <= lenZ o ->
  0 <= off -> 0 <= n <= Z.of_nat fuel -> off + n < 4294967296 -> 0 <= read -> read + n < 2147483648 ->
  room bs s0 (k + 2 * turns off n) ->
  (forall s' o', quiet s0 s' (k + 2 * turns off n) ->
     splice o out (file_range s0 inode off (Z.to_nat n)) = Some o' -> Q (s', o') (inr (read + n))) ->
  wp (read_loop now fuel inode bb out off n read) (s, o) Q.
Proof.
  induction fuel as [|fuel IH];
    intros s0 s k inode bb o out off n read Q Hs0 Hq Hl Hi Hmap Hbb Hout Hlen Hoff Hn Hmax Hr0 Hrn Hroom HQ;
    cbn [read_loop]; destruct (Z.eqb_spec n 0) as [->|Hn0].
  1,3: apply wp_ret; rewrite i32_id by lia; replace read with (read + 0) by lia; apply HQ;
    [eapply quiet_weaken; [lia|done|cbn; lia]|apply splice_nil; lia].
  { lia. }
  destruct (chunk_spec off n) as (t & Hc & Ht & Htb & Hturns); [lia..|].
  pose proof (turns_nonneg (off + t) (n - t) ltac:(lia)) as Ht0.
  apply wp_bnd, wp_on_fs, wp_gets. rewrite (ok_bs _ (quiet_ok _ _ _ Hq)).
  apply wp_bnd. eapply wp_lft; [exact Hc|]. unfold room in Hroom.
  apply wp_bnd, wp_on_fs. eapply (ext2_get_block_num_spec now bs_range bs_aligned s0 s); [done|done|done| |unfold room; nia|].
  { red. split; [apply Z.div_pos; lia|]. apply Z.le_lt_trans with off; [apply Z.div_le_upper_bound; nia|lia]. }
  intros s1 Hq1. destruct (Hmap off ltac:(lia)) as (b & Hb & Hbok). rewrite Hb.
  destruct (splice o out (file_range s0 inode off (Z.to_nat t))) as [o2|] eqn:Hsp;
    [|rewrite splice_Some in Hsp by (rewrite ?lenZ_file_range; lia); done].
  pose proof (splice_length _ _ _ _ Hsp) as Hlo.
  apply (read_turn_spec s0 s1 (k + 2) inode bb o out off t o2 b (fun bb => read_loop now fuel inode bb
    (out + t) (u64 (off + t)) (u64 (n - t)) (u64 (read + t)))); [done|done|done|done|done|lia|lia|done|done|].
  intros s2 bb2 Hq2 Hbb2. rewrite !u64_id by (red; lia).
  apply (IH s0 s2 (k + 2)); [done..| |done|lia|lia|lia|lia|lia|lia|lia|unfold room; nia|].
  - intros p Hp. apply Hmap. lia.
  - intros s' o' Hq' Hsp'. replace (read + t + (n - t)) with (read + n) by lia. apply HQ.
    + eapply quiet_weaken; [lia|done|lia].
    + replace (Z.to_nat n) with (Z.to_nat t + Z.to_nat (n - t))%nat by lia.
      rewrite file_range_app, <- (splice_app _ _ _ _ _ Hsp) by (rewrite !lenZ_file_range; lia).
      rewrite lenZ_file_range. by rewrite Z2Nat.id by lia.
Qed.

(** The number of bytes a read of [n] bytes at [off] delivers. *)
Definition read_len inode off n : Z := Z.max 0 (Z.min n (default 0 (getf inode 0 i_size) - off)).

Lemma ext2_read_file_spec s0 s k inode off n buf :
  fs_ok s0 -> quiet s0 s k -> lenZ inode = sizeof_inode -> indirects_ok s0 inode -> 0 <= k ->
  default 0 (getf inode 0 i_size) < 2147483648 -> 0 <= off -> 0 <= n -> off + n < 2 ^ 64 ->
  mapped s0 inode off (read_len inode off n) -> read_len inode off n <= lenZ buf ->
  room bs s0 (k + 1 + 2 * turns off (read_len inode off n)) ->
  wp (ext2_read_file now inode off n) (s, buf) (fun p r =>
    r = inr (read_len inode off n) /\
    quiet s0 p.1 (k + 1 + 2 * turns off (read_len inode off n)) /\
    splice buf 0 (file_range s0 inode off (Z.to_nat (read_len inode off n))) = Some p.2).
Proof.
  intros Hs Hqs Hl Hi Hk Hsz Hoff Hn Hov Hmap Hbuf Hr. change (2 ^ 64) with 18446744073709551616 in Hov.
  unfold ext2_read_file. destruct (ld_is_Some inode (0 + f_off i_size) (f_width i_size)) as [isz Hisz];
    [done|by rewrite Hl|]. fold (getf inode 0 i_size) in Hisz.
  assert (default 0 (getf inode 0 i_size) = isz) as Ed by (by rewrite Hisz).
  unfold read_len in *. rewrite Ed in *.
  destruct (ld_inv _ _ _ _ Hisz) as (_ & _ & Hiz). cbn in Hiz.
  apply wp_bnd. eapply wp_lft; [done|]. destruct (Z.leb_spec isz off) as [E|E].
  { apply wp_ret. replace (Z.max 0 (Z.min n (isz - off))) with 0 in * by lia. split; [done|].
    split; [|apply splice_nil; cbn [snd]; lia].
    eapply quiet_weaken; [lia|exact Hqs|cbn; lia]. }
  set (len := Z.max 0 (Z.min n (isz - off))) in *.
  assert ((if isz <? u64 (off + n) then u64 (isz - off) else n) = len) as ->.
  { rewrite !u64_id by (red; lia). subst len. destruct (Z.ltb_spec isz (off + n)); lia. }
  pose proof (turns_nonneg off len ltac:(lia)) as Ht. unfold room in Hr.
  assert (room bs s0 (k + 1)) as Hr1 by (unfold room; nia).
  assert (room bs s 1) as Hr2 by (eapply quiet_room; [exact Hqs|done]).
  apply wp_bnd, wp_on_fs, wp_gets. rewrite (ok_bs _ (quiet_ok _ _ _ Hqs)).
  apply wp_bnd, wp_on_fs, wp_alloc_buffer; [lia|done|by eapply quiet_ok|done|]. intros bb Hbb _.
  pose proof (quiet_buffer (bs := bs) s0 s k ltac:(lia) bs_aligned Hr2 Hqs) as Hq.
  apply (read_loop_spec _ s0 _ (k + 1)); [done|done|done|done|done|done|lia|lia|lia|lia|lia|lia|lia|done|].
  intros s' o' Hq' Hsp. cbn [fst snd]. by rewrite Z.add_0_l.
Qed.

(** C3: reading a file.  For a range whose blocks are mapped, [ext2_read_file]
    returns the number of bytes up to the end of the file, fills the caller's
    buffer with exactly the bytes of the file -- zeros for holes, through direct,
    single and double indirect blocks, at any alignment -- leaves the rest of the
    buffer alone, and changes neither blocks nor metadata.  The loop terminates. *)
Theorem ext2_read_file_correct s inode off n buf :
  fs_ok s -> lenZ inode = sizeof_inode -> indirects_ok s inode ->
  default 0 (getf inode 0 i_size) < 2147483648 -> 0 <= off -> 0 <= n -> off + n < 2 ^ 64 ->
  mapped s inode off (read_len inode off n) -> read_len inode off n <= lenZ buf ->
  room bs s (1 + 2 * turns off (read_len inode off n)) ->
  wp (ext2_read_file now inode off n) (s, buf) (fun p r =>
    r = inr (read_len inode off n) /\
    quiet s p.1 (1 + 2 * turns off (read_len inode off n)) /\
    splice buf 0 (file_range s inode off (Z.to_nat (read_len inode off n))) = Some p.2).
Proof. intros Hs Hl Hi. apply (ext2_read_file_spec s s 0); [done|by apply quiet_refl|done..]. Qed.

End read_correct.
