(* ===== verification/Ext2Write.v ===== *)
(** * Writing a file and reading it back: [ext2_write_file] of [src/fs/ext2/file.c]

    The invariant [file_ok] ties an inode to the allocator: the blocks of the file
    are in use, none of them is a bitmap, and no two places of the file share a
    block.  Every turn of the loop of [ext2_write_file] preserves it, and what was
    written is what [ext2_read_file] returns. *)
From S2P Require Import Prelude KernelLib Ext2Base Ext2Alloc Ext2Inode Ext2File.
Import Memory.
Open Scope Z_scope.
Open Scope ext2_scope.

Section write_correct.
Context {C : Type} {B : BlockStore C} {bs : Z} {L : BlockStoreLaws C bs} (now : Z).
Hypothesis bs_range : 0 < bs <= 65536.
Hypothesis bs_aligned : bs mod 16 = 0.
Implicit Types (s : ext2_fs C) (inode dat : bytes) (off n fb b p : Z).

(** The device block of block [fb] of the file; 0 is a hole. *)
Definition fblock s inode fb : Z :=
  match bmap (bs := bs) s inode fb with inr b => b | inl _ => 0 end.

(** The blocks a file can have as far as the code can write it: the direct ones
    and those of the single indirect block. *)
Definition writable fb : Prop := 0 <= fb < 12 + addrs (bs := bs).

(** A block of the store in use, and not as a bitmap. *)
Definition in_use s b : Prop := st_ok b /\ ~ block_free s b /\ ~ is_bitmap s b.

Record file_ok s inode : Prop := {
  fo_alloc : alloc_ok s;
  fo_len : lenZ inode = sizeof_inode;
  fo_double : iblk inode 13 = 0;
  fo_single : iblk inode 12 <> 0 -> in_use s (iblk inode 12);
  fo_data fb : writable fb -> fblock s inode fb <> 0 -> in_use s (fblock s inode fb) /\ fblock s inode fb <> iblk inode 12;
  fo_inj fb fb' : writable fb -> writable fb' -> fblock s inode fb <> 0 ->
    fblock s inode fb = fblock s inode fb' -> fb = fb'
}.

Lemma writable_u32 fb : writable fb -> is_u32 fb.
Proof. unfold writable. pose proof (addrs_range bs_range bs_aligned). red. lia. Qed.

Lemma bmap_data s inode fb : writable fb -> bmap (bs := bs) s inode fb = inr (fblock s inode fb).
Proof.
  unfold writable, fblock, bmap. intros Hfb. case_decide; [done|]. by rewrite decide_True by lia.
Qed.

Lemma fblock_unfold s inode fb : writable fb ->
  fblock s inode fb = if decide (fb < 12) then iblk inode fb else entry s (iblk inode 12) (fb - 12).
Proof.
  unfold writable, fblock, bmap. intros Hfb. case_decide; [done|]. by rewrite decide_True by lia.
Qed.

Lemma file_byte_data s inode p :
  file_byte (bs := bs) s inode p =
  if fblock s inode (p / bs) =? 0 then 0 else default 0 (getZ (view s (fblock s inode (p / bs))) (p mod bs)).
Proof. unfold file_byte, fblock. by destruct (bmap s inode (p / bs)). Qed.

Lemma file_ok_map s inode : file_ok s inode -> map_ok (bs := bs) s inode.
Proof.
  intros H. pose proof (fo_double _ _ H) as E13. split.
  - by apply (fo_len _ _ H).
  - split; [|by rewrite E13]. intros H12. by apply (fo_single _ _ H).
  - intros H13. done.
  - intros H13. done.
  - intros b Hb. pose proof (ao_free _ (fo_alloc _ _ H) b Hb). tauto.
Qed.

(** ** The invariant through the steps *)
Lemma in_use_extends s s' k X b : extends (bs := bs) s s' k X -> in_use s b -> in_use s' b.
Proof.
  intros Hx (H1 & H2 & H3). split; [done|]. split; [intros [? _]%(ex_free _ _ _ _ Hx); done|].
  by rewrite (ex_bitmap _ _ _ _ Hx).
Qed.

Lemma in_use_new s s' k X b : alloc_ok s -> extends (bs := bs) s s' k X -> block_free s b -> X b -> in_use s' b.
Proof.
  intros Ha Hx Hb HX. destruct (ao_free _ Ha b Hb) as (? & _ & _ & ?). split; [done|].
  split; [intros [_ ?]%(ex_free _ _ _ _ Hx); done|]. by rewrite (ex_bitmap _ _ _ _ Hx).
Qed.

(** A step that leaves the single indirect block alone. *)
Lemma fblock_extends s s' k X inode fb :
  file_ok s inode -> extends (bs := bs) s s' k X -> ~ X (iblk inode 12) \/ iblk inode 12 = 0 -> writable fb ->
  fblock s' inode fb = fblock s inode fb.
Proof.
  intros Hf Hx HX Hfb. rewrite !fblock_unfold by done. case_decide; [done|]. unfold entry.
  destruct (Z.eqb_spec (iblk inode 12) 0) as [E|E]; [done|]. destruct HX as [HX|]; [|done].
  destruct (fo_single _ _ Hf E) as (? & _ & ?). by rewrite (ex_view _ _ _ _ Hx).
Qed.

Lemma file_ok_extends s s' k X inode :
  file_ok s inode -> extends (bs := bs) s s' k X -> ~ X (iblk inode 12) \/ iblk inode 12 = 0 ->
  file_ok s' inode.
Proof.
  intros Hf Hx HX. split.
  - by eapply ex_ok.
  - by apply (fo_len _ _ Hf).
  - by apply (fo_double _ _ Hf).
  - intros E. eapply in_use_extends; [done|]. by apply (fo_single _ _ Hf).
  - intros fb Hfb. rewrite (fblock_extends _ _ _ _ _ _ Hf Hx HX Hfb). intros E.
    destruct (fo_data _ _ Hf fb Hfb E). split; [|done]. by eapply in_use_extends.
  - intros fb fb' Hfb Hfb'. rewrite !(fblock_extends _ _ _ _ _ _ Hf Hx HX) by done. by apply (fo_inj _ _ Hf).
Qed.

(** Blocks in use are not among blocks that were free. *)
Lemma in_use_not s b b' : in_use s b -> block_free s b' -> b <> b'.
Proof. intros (_ & H & _) Hb ->. done. Qed.

(** The inode with another member changed. *)
Lemma iblk_setf inode f v inode' j :
  setf inode 0 f v = Some inode' -> outside_i_block f -> iblk inode' j = iblk inode j.
Proof.
  intros Hs Hf. unfold iblk, get_i_block, i_block. destruct ((0 <=? j) && (j <? 15)) eqn:Ej; [|done].
  cbn [mbind option_bind]. f_equal.
  eapply getf_setf_other; [exact Hs|]. unfold outside_i_block in Hf. cbn [f_off f_width i_block0] in *. lia.
Qed.

Lemma fblock_setf s inode f v inode' fb :
  setf inode 0 f v = Some inode' -> outside_i_block f -> fblock s inode' fb = fblock s inode fb.
Proof.
  intros Hs Hf. pose proof (fun j => iblk_setf _ _ _ _ j Hs Hf) as E. unfold fblock, bmap. by rewrite !E.
Qed.

Lemma file_ok_setf s inode f v inode' :
  setf inode 0 f v = Some inode' -> outside_i_block f -> file_ok s inode ->
  file_ok s inode'.
Proof.
  intros Hs Hf Ho. pose proof (fun j => iblk_setf _ _ _ _ j Hs Hf) as E.
  pose proof (fun fb => fblock_setf s _ _ _ _ fb Hs Hf) as Hd.
  split; rewrite ?E; [by apply (fo_alloc _ _ Ho)| |by apply (fo_double _ _ Ho)|by apply (fo_single _ _ Ho)| |].
  - unfold setf in Hs. rewrite (st_length _ _ _ _ _ Hs). by apply (fo_len _ _ Ho).
  - intros fb Hfb. rewrite Hd. by apply (fo_data _ _ Ho).
  - intros fb fb' Hfb Hfb'. rewrite !Hd. by apply (fo_inj _ _ Ho).
Qed.

(** ** The block a write goes to *)

(** Afterwards block [fb] of the file has a device block, and nothing that the file
    had before is different. *)
Record blocked s inode fb s' inode' : Prop := {
  bl_file : file_ok s' inode';
  bl_block : fblock s' inode' fb <> 0;
  bl_keep fb' : writable fb' -> fb' <> fb -> fblock s' inode' fb' = fblock s inode fb';
  bl_same : fblock s inode fb <> 0 -> fblock s' inode' fb = fblock s inode fb;
  bl_view fb' : writable fb' -> fblock s inode fb' <> 0 -> view s' (fblock s inode fb') = view s (fblock s inode fb');
  bl_groups : num_block_groups s' = num_block_groups s;
  bl_heap : heap_pos s <= heap_pos s' <= heap_pos s + (2 * num_block_groups s + 4) * bs;
  bl_size : getf inode' 0 i_size = getf inode 0 i_size
}.

Lemma view_extends s s' k X inode fb :
  file_ok s inode -> extends (bs := bs) s s' k X -> writable fb -> fblock s inode fb <> 0 -> ~ X (fblock s inode fb) ->
  view s' (fblock s inode fb) = view s (fblock s inode fb).
Proof.
  intros Hf Hx Hfb H0 HX. destruct (fo_data _ _ Hf fb Hfb H0) as [(? & _ & ?) _]. by apply (ex_view _ _ _ _ Hx).
Qed.

(** The inode after [ext2_set_block_num] with a new block [b] for the hole [fb]. *)
Lemma file_ok_remapped s inode fb b s' inode' :
  file_ok s inode -> writable fb -> fblock s inode fb = 0 -> in_use s b -> b <> 0 -> b <> iblk inode 12 ->
  (forall fb', writable fb' -> fblock s inode fb' <> b) ->
  remapped (bs := bs) s inode fb b s' inode' ->
  file_ok s' inode' /\ extends (bs := bs) s s' (num_block_groups s + 2) (fun b' => b' = iblk inode' 12) /\
  (forall fb', writable fb' -> fblock s' inode' fb' = if decide (fb' = fb) then b else fblock s inode fb') /\
  (forall fb', writable fb' -> fblock s inode fb' <> 0 -> fblock s inode fb' <> iblk inode' 12).
Proof.
  intros Hf Hfb Hhole Hb Hb0 Hb12 Hnew Hrm. pose proof (fo_alloc _ _ Hf) as Ha.
  assert (extends (bs := bs) s s' (num_block_groups s + 2) (fun b' => b' = iblk inode' 12)) as Hx.
  { apply (rm_extends _ _ _ _ _ _ Hrm Ha); [|intros E; by apply (fo_single _ _ Hf)].
    destruct (decide (iblk inode 12 = 0)) as [->|E]; [intros H; by apply (ao_free _ Ha) in H as (_ & ? & _)|].
    by apply (fo_single _ _ Hf). }
  assert (forall fb', writable fb' -> fblock s' inode' fb' = if decide (fb' = fb) then b else fblock s inode fb') as Hd.
  { intros fb' Hfb'. unfold fblock. rewrite (rm_map _ _ _ _ _ _ Hrm) by by apply writable_u32. by case_decide. }
  (* the indirect block is the old one, none, or one that was free *)
  assert (iblk inode' 12 = iblk inode 12 \/ block_free s (iblk inode' 12)) as Hcase.
  { destruct (decide (iblk inode 12 = 0)) as [E|E]; [|left; by apply (rm_old _ _ _ _ _ _ Hrm)].
    destruct (rm_new _ _ _ _ _ _ Hrm E); [left; congruence|by right]. }
  assert (forall fb', writable fb' -> fblock s inode fb' <> 0 -> fblock s inode fb' <> iblk inode' 12) as H12.
  { intros fb' Hfb' H0. destruct (fo_data _ _ Hf fb' Hfb' H0) as [Hu Hne]. destruct Hcase as [->|Hfr]; [done|].
    by eapply in_use_not. }
  split; [|done]. split.
  - by eapply ex_ok.
  - by apply (rm_len _ _ _ _ _ _ Hrm).
  - rewrite (rm_iblk _ _ _ _ _ _ Hrm) by lia. apply (fo_double _ _ Hf).
  - intros E. destruct Hcase as [E'|Hfr]; [|by eapply in_use_new].
    eapply in_use_extends; [done|]. rewrite E' in *. by apply (fo_single _ _ Hf).
  - intros fb' Hfb'. rewrite Hd by done. case_decide as E; intros H0.
    + split; [by eapply in_use_extends|]. destruct Hcase as [->|Hfr]; [done|by eapply in_use_not].
    + split; [|by apply H12]. eapply in_use_extends; [done|]. by apply (fo_data _ _ Hf).
  - intros f1 f2 Hf1 Hf2. rewrite !Hd by done. repeat case_decide; [congruence|..].
    + intros _ E. by destruct (Hnew f2 Hf2).
    + intros _ E. by destruct (Hnew f1 Hf1).
    + by apply (fo_inj _ _ Hf).
Qed.

(** The members the writer changes. *)
Lemma getf_inode inode f : lenZ inode = sizeof_inode -> in_struct sizeof_inode f = true ->
  exists v, getf inode 0 f = Some v /\ 0 <= v < 256 ^ Z.of_nat (f_width f).
Proof.
  intros Hl Hf. unfold in_struct in Hf. unfold getf.
  destruct (ld_is_Some inode (0 + f_off f) (f_width f)) as [v Hv]; [lia..|].
  exists v. split; [done|]. by apply ld_inv in Hv as (_ & _ & ?).
Qed.

Lemma setf_inode inode f v : lenZ inode = sizeof_inode -> in_struct sizeof_inode f = true ->
  exists inode', setf inode 0 f v = Some inode'.
Proof. intros Hl Hf. unfold in_struct in Hf. apply st_is_Some; lia. Qed.

(** After the allocation of [b] the file is as it was, and [b] is nowhere in it. *)
Lemma file_alloc s1 s2 inode b :
  file_ok s1 inode -> alloc_block_post s1 s2 (inr b) ->
  file_ok s2 inode /\ extends (bs := bs) s1 s2 (num_block_groups s1) (fun b' => b' = b) /\
  block_free s1 b /\ in_use s2 b /\ b <> 0 /\ is_u32 b /\ b <> iblk inode 12 /\
  (forall fb, writable fb -> fblock s2 inode fb = fblock s1 inode fb /\ fblock s1 inode fb <> b).
Proof.
  intros Hf Hal. pose proof (fo_alloc _ _ Hf) as Ha.
  destruct (extends_alloc (bs := bs) ltac:(lia) s1 s2 b Ha Hal) as [Hx Hb].
  destruct (ao_free _ Ha b Hb) as (Hbok & Hb0 & Hbu & Hbb).
  assert (iblk inode 12 <> 0 -> iblk inode 12 <> b) as H12.
  { intros E. eapply in_use_not; [by apply (fo_single _ _ Hf)|done]. }
  assert (~ iblk inode 12 = b \/ iblk inode 12 = 0) as H12' by (destruct (decide (iblk inode 12 = 0)); auto).
  split; [by eapply file_ok_extends|]. split; [done|]. split; [done|].
  split; [by eapply in_use_new|]. split; [done|]. split; [done|].
  split; [destruct (decide (iblk inode 12 = 0)); [congruence|intros ->; by apply H12]|].
  intros fb Hfb. split; [by eapply fblock_extends|].
  destruct (decide (fblock s1 inode fb = 0)) as [->|E]; [congruence|].
  eapply in_use_not; [by apply (fo_data _ _ Hf)|done].
Qed.

(** The release of a block whose entry could not be made. *)
Lemma undo_alloc_spec s1 s2 s3 inode b (Q : ext2_fs C * bytes -> Z + Z -> Prop) :
  alloc_block_post s1 s2 (inr b) -> quiet s2 s3 (num_block_groups s2) -> geometry blocks s2 -> is_u32 b ->
  num_block_groups s2 = num_block_groups s1 -> heap_pos s1 <= heap_pos s2 <= heap_pos s1 + num_block_groups s1 * bs ->
  room bs s1 (2 * num_block_groups s1 + 1) -> (forall q, Q q (inl ERR_NO_MEMORY)) ->
  wp (on_fs (try (ext2_free_block now b));;; err ERR_NO_MEMORY) (s3, inode) Q.
Proof.
  intros Hal Hq Hge Hb Hgr Hh Hr Herr. unfold room in Hr.
  pose proof (mv_heap _ _ _ _ (qu_moved _ _ _ Hq)) as Hh3. rewrite Hgr in Hh3.
  destruct Hal as (g & bit & bm & Hat & _ & _ & _ & _ & Hct).
  apply wp_bnd, wp_on_fs, wp_try. eapply wp_mono; [apply ext2_free_block_spec|].
  - lia.
  - done.
  - by eapply quiet_ok.
  - by eapply geometry_quiet; [|done..].
  - done.
  - rewrite (quiet_sbv _ _ _ _ Hq), (counted_sbv _ _ _ _ _ _ _ _ Hct) by done. destruct Hat; lia.
  - unfold room. nia.
  - intros s4 r _. apply wp_err, Herr.
Qed.

(** A hole: the allocation, the new entry of the map, and the count of sectors. *)
Lemma fill_hole_spec s1 inode fb (Q : ext2_fs C * bytes -> Z + Z -> Prop) :
  file_ok s1 inode -> writable fb -> fblock s1 inode fb = 0 -> room bs s1 (2 * num_block_groups s1 + 3) ->
  (forall q, Q q (inl ERR_NO_MEMORY)) ->
  (forall s' inode', file_ok s' inode' -> fblock s' inode' fb <> 0 ->
     (forall fb', writable fb' -> fb' <> fb -> fblock s' inode' fb' = fblock s1 inode fb') ->
     (forall fb', writable fb' -> fblock s1 inode fb' <> 0 -> view s' (fblock s1 inode fb') = view s1 (fblock s1 inode fb')) ->
     num_block_groups s' = num_block_groups s1 ->
     heap_pos s1 <= heap_pos s' <= heap_pos s1 + (2 * num_block_groups s1 + 2) * bs ->
     getf inode' 0 i_size = getf inode 0 i_size ->
     Q (s', inode') (inr (fblock s' inode' fb))) ->
  wp (let* block_num := on_fs (ext2_alloc_block now) in
      let* r := try (ext2_set_block_num now fb block_num) in
      match r with
      | inl e => on_fs (try (ext2_free_block now block_num));;; err e
      | inr _ =>
          let* block_size := on_fs (gets fs_block_size) in
          upd_obj (fun i => v ← getf i 0 i_blocks; setf i 0 i_blocks (u32 (v + block_size / 512)));;;
          ret block_num
      end) (s1, inode) Q.
Proof.
  intros Hf Hfb Hhole Hr Herr HQ. pose proof (fo_alloc _ _ Hf) as [Hs1 Hge Hfit _].
  destruct (ok_groups _ Hs1) as [Hg0 _]. unfold room in Hr.
  apply wp_bnd, wp_on_fs. eapply wp_mono; [apply ext2_alloc_block_spec; [lia|done..|unfold room; nia]|].
  intros s2 [e|b] Hal; [destruct Hal as (-> & _); apply Herr|].
  destruct (file_alloc s1 s2 inode b Hf Hal) as (Hf2 & Hx & (g & bit & Hat & _) & Hu & Hb0 & Hbu & Hb12 & Hd).
  pose proof (fo_alloc _ _ Hf2) as [Hs2 Hge2 Hfit2 _].
  pose proof (ex_heap _ _ _ _ Hx) as Hh. pose proof (ex_groups _ _ _ _ Hx) as Hgr.
  apply wp_bnd, wp_try, ext2_set_block_num_spec; [done|done|done|by apply file_ok_map|done|done|by apply writable_u32|done
    |unfold room; rewrite Hgr; nia|unfold writable in Hfb; lia| |].
  - intros _ s3 Hq. eapply undo_alloc_spec; [exact Hal|exact Hq|done..|unfold room; nia|done].
  - intros _ s3 inode3 r Hrm.
    destruct (file_ok_remapped s2 inode fb b s3 inode3) as (Hf3 & Hx3 & Hd3 & Hv3); [done|done| |done|done|done| |done|].
    { destruct (Hd fb Hfb) as [-> _]. done. }
    { intros fb' Hfb'. destruct (Hd fb' Hfb') as [-> ?]. done. }
    apply wp_bnd, wp_on_fs, wp_gets. rewrite (ok_bs _ (ao_fs _ (fo_alloc _ _ Hf3))).
    destruct (getf_inode inode3 i_blocks (fo_len _ _ Hf3) eq_refl) as (v & Hv & _).
    destruct (setf_inode inode3 i_blocks (u32 (v + bs / 512)) (fo_len _ _ Hf3) eq_refl) as (inode4 & H4).
    apply wp_bnd. eapply wp_upd_obj; [rewrite Hv; exact H4|].
    pose proof (file_ok_setf s3 inode3 i_blocks _ inode4 H4 ltac:(by left) Hf3) as Hf4.
    pose proof (fun fb => fblock_setf s3 _ _ _ _ fb H4 ltac:(by left)) as Hd4.
    assert (fblock s3 inode4 fb = b) as Eb by (rewrite Hd4, Hd3, decide_True by done; done).
    apply wp_ret. rewrite <- Eb. pose proof (ex_heap _ _ _ _ Hx3) as Hh3.
    apply HQ; [done|by rewrite Eb| | |by rewrite (ex_groups _ _ _ _ Hx3)|rewrite Hgr in Hh3; lia|].
    + intros fb' Hfb' Hne. rewrite Hd4, Hd3, decide_False by done. by apply Hd.
    + intros fb' Hfb' H0. destruct (Hd fb' Hfb') as [E Hneb].
      rewrite <- E in H0 |- *. rewrite (view_extends _ _ _ _ _ _ Hf2 Hx3 Hfb' H0); [|by apply Hv3].
      rewrite E in *. by apply (view_extends _ _ _ _ _ _ Hf Hx).
    + rewrite <- (rm_other _ _ _ _ _ _ Hrm) by by left. eapply getf_setf_other; [exact H4|]. cbn. lia.
Qed.

Lemma block_for_write_spec s inode fb (Q : ext2_fs C * bytes -> Z + Z -> Prop) :
  file_ok s inode -> writable fb -> room bs s (2 * num_block_groups s + 5) ->
  (forall q, Q q (inl ERR_NO_MEMORY)) ->
  (forall s' inode', blocked s inode fb s' inode' -> Q (s', inode') (inr (fblock s' inode' fb))) ->
  wp (block_for_write now fb) (s, inode) Q.
Proof.
  intros Hf Hfb Hr Herr HQ. pose proof (fo_alloc _ _ Hf) as Ha. pose proof (ao_fs _ Ha) as Hs.
  destruct (ok_groups _ Hs) as [Hg0 _]. unfold room in Hr.
  unfold block_for_write. apply wp_bnd, wp_gets. cbn [snd]. apply wp_bnd, wp_on_fs.
  eapply (ext2_get_block_num_spec now bs_range bs_aligned s s inode fb 0);
    [by apply quiet_refl|by apply (fo_len _ _ Hf)|apply (mo_ind _ _ (file_ok_map _ _ Hf))|by apply writable_u32
    |unfold room; nia|].
  intros s1 Hq. rewrite bmap_data by done.
  pose proof (extends_quiet (bs := bs) ltac:(lia) s s1 2 Ha Hq) as Hx.
  pose proof (file_ok_extends _ _ _ _ _ Hf Hx ltac:(auto)) as Hf1.
  pose proof (fun fb' => fblock_extends _ _ _ _ _ fb' Hf Hx ltac:(auto)) as Hd.
  pose proof (ex_heap _ _ _ _ Hx) as Hh. pose proof (ex_groups _ _ _ _ Hx) as Hgr.
  destruct (Z.eqb_spec (fblock s inode fb) 0) as [E0|E0].
  - eapply fill_hole_spec; [exact Hf1|done|by rewrite Hd|unfold room; rewrite Hgr; nia|exact Herr|].
    intros s' inode' Hf' H0 Hk Hv Hg' Hh' Hsz. apply HQ. rewrite Hgr in *. split; [done|done| |done| |congruence|lia|done].
    + intros fb' Hfb' Hne. by rewrite Hk, Hd.
    + intros fb' Hfb' Hne. pose proof (Hd fb' Hfb') as E. rewrite <- E in Hne |- *. rewrite Hv by done.
      rewrite E in *. by apply (view_extends _ _ _ _ _ _ Hf Hx); [..|tauto].
  - apply wp_ret. rewrite <- Hd by done. apply HQ. split; rewrite ?Hd by done; [done|done| |done| |done|lia|done].
    + intros fb' Hfb' _. by apply Hd.
    + intros fb' Hfb' Hne. by apply (view_extends _ _ _ _ _ _ Hf Hx); [..|tauto].
Qed.

(** ** The loop *)

(** [dat] was written at [off]: its bytes are those of the file, and a byte of the
    file that had a block and was not written is as before; a hole the range does
    not touch is still one. *)
Record written s inode off dat s' inode' (k : Z) : Prop := {
  wn_file : file_ok s' inode';
  wn_new p : off <= p < off + lenZ dat ->
    fblock s' inode' (p / bs) <> 0 /\ file_byte (bs := bs) s' inode' p = default 0 (getZ dat (p - off));
  wn_keep p : writable (p / bs) -> ~ off <= p < off + lenZ dat -> fblock s inode (p / bs) <> 0 ->
    file_byte (bs := bs) s' inode' p = file_byte (bs := bs) s inode p;
  wn_mapped fb : writable fb -> fblock s inode fb <> 0 -> fblock s' inode' fb <> 0;
  wn_hole fb : writable fb -> fblock s inode fb = 0 ->
    (forall p, off <= p < off + lenZ dat -> p / bs <> fb) -> fblock s' inode' fb = 0;
  wn_groups : num_block_groups s' = num_block_groups s;
  wn_heap : heap_pos s <= heap_pos s' <= heap_pos s + k * bs
}.

Lemma written_nil s inode off : file_ok s inode -> written s inode off [] s inode 0.
Proof. intros Hf. split; try done; [intros p; unfold lenZ; cbn [length]; lia|lia]. Qed.

Lemma written_app s inode off d1 s1 i1 d2 s2 i2 k1 k2 :
  written s inode off d1 s1 i1 k1 -> written s1 i1 (off + lenZ d1) d2 s2 i2 k2 ->
  (forall p, off <= p < off + lenZ d1 -> writable (p / bs)) ->
  written s inode off (d1 ++ d2) s2 i2 (k1 + k2).
Proof.
  intros H1 H2 Hw. pose proof (lenZ_nonneg d1) as Hl1. pose proof (lenZ_nonneg d2) as Hl2. split.
  - apply H2.
  - intros p. rewrite lenZ_app. intros Hp. destruct (decide (p < off + lenZ d1)) as [E|E].
    + destruct (wn_new _ _ _ _ _ _ _ H1 p) as [Hne Hb]; [lia|]. split; [by apply (wn_mapped _ _ _ _ _ _ _ H2); [apply Hw; lia|]|].
      rewrite (wn_keep _ _ _ _ _ _ _ H2), Hb by (done || lia || apply Hw; lia). f_equal.
      unfold getZ, lenZ in *. case_match; [done|]. by rewrite lookup_app_l by lia.
    + destruct (wn_new _ _ _ _ _ _ _ H2 p) as [Hne Hb]; [lia|]. split; [done|]. rewrite Hb. f_equal.
      unfold getZ, lenZ in *. rewrite !(proj2 (Z.ltb_ge _ _)) by lia. rewrite lookup_app_r by lia. f_equal. lia.
  - intros p Hfb. rewrite lenZ_app. intros Hp H0.
    rewrite (wn_keep _ _ _ _ _ _ _ H2); [|done|lia|by apply (wn_mapped _ _ _ _ _ _ _ H1)].
    apply (wn_keep _ _ _ _ _ _ _ H1); [done|lia|done].
  - intros fb Hfb H0. apply (wn_mapped _ _ _ _ _ _ _ H2); [done|]. by apply (wn_mapped _ _ _ _ _ _ _ H1).
  - intros fb Hfb H0 Hp. rewrite lenZ_app in Hp. apply (wn_hole _ _ _ _ _ _ _ H2); [done| |intros p ?; apply Hp; lia].
    apply (wn_hole _ _ _ _ _ _ _ H1); [done|done|intros p ?; apply Hp; lia].
  - by rewrite (wn_groups _ _ _ _ _ _ _ H2), (wn_groups _ _ _ _ _ _ _ H1).
  - pose proof (wn_heap _ _ _ _ _ _ _ H1). pose proof (wn_heap _ _ _ _ _ _ _ H2). lia.
Qed.

(** Two positions in the same block. *)
Lemma same_block off p : p / bs = off / bs -> p mod bs - off mod bs = p - off.
Proof. intros E. pose proof (Z.div_mod p bs ltac:(lia)). pose proof (Z.div_mod off bs ltac:(lia)). lia. Qed.

Lemma in_block off n p :
  off mod bs + n <= bs -> off <= p < off + n -> p / bs = off / bs.
Proof.
  intros Hn Hp. pose proof (Z.div_mod off bs ltac:(lia)). pose proof (Z.mod_pos_bound off bs ltac:(lia)).
  symmetry. apply Z.div_unique with (r := p - bs * (off / bs)); [left|]; lia.
Qed.

(** One turn: the block, and its contents with [dat] put in. *)
Lemma written_chunk s inode off dat s1 inode1 s2 buf :
  blocked s inode (off / bs) s1 inode1 -> writable (off / bs) -> 0 < lenZ dat -> off mod bs + lenZ dat <= bs ->
  splice (view s1 (fblock s1 inode1 (off / bs))) (off mod bs) dat = Some buf ->
  wrote s1 s2 0 (fblock s1 inode1 (off / bs)) buf ->
  written s inode off dat s2 inode1 (2 * num_block_groups s + 4).
Proof.
  intros Hbl Hfb Hpos Hlen Hsp Hw. set (fb := off / bs) in *. set (b := fblock s1 inode1 fb) in *.
  pose proof (bl_file _ _ _ _ _ Hbl) as Hf1. pose proof (bl_block _ _ _ _ _ Hbl) as Hb0. fold b in Hb0.
  destruct (fo_data _ _ Hf1 fb Hfb Hb0) as [(Hbok & Hbf & Hbm) Hb12]. fold b in Hbok, Hbf, Hbm, Hb12.
  pose proof (extends_wrote (bs := bs) s1 s2 0 b buf (fo_alloc _ _ Hf1) Hw Hbm Hbf) as Hx.
  assert (~ iblk inode1 12 = b \/ iblk inode1 12 = 0) as H12 by (left; congruence).
  pose proof (fun fb' => fblock_extends _ _ _ _ _ fb' Hf1 Hx H12) as Hd.
  pose proof (wr_moved _ _ _ _ _ Hw) as [_ Hgr Hh Hv].
  assert (forall p, p / bs = fb -> file_byte (bs := bs) s2 inode1 p =
    default 0 (if decide (off <= p < off + lenZ dat) then getZ dat (p - off) else getZ (view s1 b) (p mod bs))) as Hin.
  { intros p Ep. rewrite file_byte_data, Ep, Hd, (proj2 (Z.eqb_neq _ _)) by done. fold b.
    rewrite Hv, decide_True by done. f_equal. pose proof (same_block off p Ep) as Em.
    pose proof (Z.mod_pos_bound p bs ltac:(lia)). pose proof (Z.mod_pos_bound off bs ltac:(lia)).
    unfold getZ. rewrite (proj2 (Z.ltb_ge _ _)) by lia. rewrite (splice_lookup _ _ _ _ _ Hsp). unfold lenZ in *.
    repeat case_match; try lia; f_equal; lia. }
  assert (forall p, writable (p / bs) -> p / bs <> fb -> fblock s inode (p / bs) <> 0 ->
    file_byte (bs := bs) s2 inode1 p = file_byte (bs := bs) s inode p) as Hout.
  { intros p Hp Hne H0. rewrite !file_byte_data, Hd, (bl_keep _ _ _ _ _ Hbl) by done.
    rewrite (proj2 (Z.eqb_neq _ _)) by done. f_equal. f_equal. rewrite <- (bl_view _ _ _ _ _ Hbl) by done.
    rewrite <- (bl_keep _ _ _ _ _ Hbl) by done. apply (view_extends _ _ _ _ _ _ Hf1 Hx Hp).
    - by rewrite (bl_keep _ _ _ _ _ Hbl).
    - intros E. apply Hne, (fo_inj _ _ Hf1); [done|done|congruence|done]. }
  split.
  - by eapply file_ok_extends.
  - intros p Hp. pose proof (in_block off (lenZ dat) p Hlen Hp) as Ep. fold fb in Ep. rewrite Hin by done.
    rewrite Ep, Hd, decide_True by done. done.
  - intros p Hp Hnot H0. destruct (decide (p / bs = fb)) as [Ep|Ep]; [|by apply Hout].
    rewrite Hin, decide_False, file_byte_data, (proj2 (Z.eqb_neq _ _)) by done. rewrite Ep in *.
    unfold b. rewrite (bl_same _ _ _ _ _ Hbl) by done. by rewrite (bl_view _ _ _ _ _ Hbl).
  - intros fb' Hfb' H0. rewrite Hd by done. destruct (decide (fb' = fb)) as [->|Hne]; [done|].
    by rewrite (bl_keep _ _ _ _ _ Hbl).
  - intros fb' Hfb' H0 Hp. rewrite Hd by done. destruct (decide (fb' = fb)) as [->|Hne]; [|by rewrite (bl_keep _ _ _ _ _ Hbl)].
    by destruct (Hp off); [lia|].
  - rewrite Hgr. by apply (bl_groups _ _ _ _ _ Hbl).
  - pose proof (bl_heap _ _ _ _ _ Hbl). lia.
Qed.

(** The turn: with a part of a block the rest is read first, a whole block is
    replaced; the buffer written is the same. *)
Lemma write_turn_spec s inode b bb off buffer in_ t (K : bytes -> M (ext2_fs C * bytes) (Z * Z))
    (Q : ext2_fs C * bytes -> Z + Z * Z -> Prop) :
  fs_ok s -> st_ok b -> lenZ bb = bs -> 0 <= in_ -> in_ + t <= lenZ buffer -> 0 < t -> off mod bs + t <= bs ->
  (forall s' dat buf, slice buffer in_ t = Some dat -> splice (view s b) (off mod bs) dat = Some buf ->
     wrote s s' 0 b buf -> lenZ buf = bs -> wp (K buf) (s', inode) Q) ->
  wp (let* bb := (if negb (off mod bs =? 0) || negb (t =? bs) then on_fs (bread now b bb) else ret bb) in
      let* bb := lft (memcpy bb (off mod bs) buffer in_ t) in
      on_fs (bwrite now b bb);;; K bb) (s, inode) Q.
Proof.
  intros Hs Hb Hbb Hin Hlen Ht Hfit HK. pose proof (Z.mod_pos_bound off bs ltac:(lia)) as Hm.
  pose proof (st_view_len (block_device s) b (ok_store _ Hs) Hb) as Hlv. fold (view s b) in Hlv.
  destruct (slice buffer in_ t) as [dat|] eqn:Hsl; [|rewrite slice_Some in Hsl by lia; done].
  pose proof (slice_length _ _ _ _ Hsl) as Hld.
  destruct (splice (view s b) (off mod bs) dat) as [buf|] eqn:Hsp; [|rewrite splice_Some in Hsp by lia; done].
  pose proof (splice_length _ _ _ _ Hsp) as Hlb.
  assert (forall s1 bb1, quiet s s1 0 -> memcpy bb1 (off mod bs) buffer in_ t = Some buf ->
    wp (let* bb := lft (memcpy bb1 (off mod bs) buffer in_ t) in on_fs (bwrite now b bb);;; K bb) (s1, inode) Q) as Hrest.
  { intros s1 bb1 Hq Hmc. apply wp_bnd. eapply wp_lft; [exact Hmc|].
    apply wp_bnd, wp_on_fs, wp_bwrite; [lia|by eapply quiet_ok|done|lia|]. intros c Hc Hv.
    eapply HK; [done|done| |lia]. by apply (wrote_quiet _ _ _ _ _ _ Hq). }
  apply wp_bnd. destruct (negb (off mod bs =? 0) || negb (t =? bs)) eqn:Epart.
  - apply wp_on_fs, wp_bread; [lia|done|done|done|]. intros c Hc Hv. apply Hrest.
    + apply quiet_read; [by apply quiet_refl|done|done].
    + unfold memcpy. rewrite Hsl. exact Hsp.
  - apply wp_ret, Hrest; [by apply quiet_refl|]. unfold memcpy. rewrite Hsl. cbn [mbind option_bind].
    assert (off mod bs = 0) as E0 by lia. rewrite E0 in *. rewrite splice_full in Hsp by lia.
    by rewrite splice_full by lia.
Qed.

Lemma write_loop_spec fuel : forall s inode bb buffer in_ off n done_ (Q : ext2_fs C * bytes -> Z + Z * Z -> Prop),
  file_ok s inode -> lenZ bb = bs -> 0 <= in_ -> in_ + n <= lenZ buffer -> 0 <= off ->
  off + n <= (12 + addrs (bs := bs)) * bs -> off + n < 4294967296 -> 0 <= n <= Z.of_nat fuel ->
  0 <= done_ -> done_ + n < 2147483648 ->
  room bs s (turns (bs := bs) off n * (2 * num_block_groups s + 4) + 1) ->
  (forall q, Q q (inl ERR_NO_MEMORY)) ->
  (forall s' inode' dat, slice buffer in_ n = Some dat -> getf inode' 0 i_size = getf inode 0 i_size ->
     written s inode off dat s' inode' (turns (bs := bs) off n * (2 * num_block_groups s + 4)) ->
     Q (s', inode') (inr (off + n, done_ + n))) ->
  wp (write_loop now fuel buffer bb in_ off n done_) (s, inode) Q.
Proof.
  induction fuel as [|fuel IH]; intros s inode bb buffer in_ off n done_ Q Hf Hbb Hin Hlen Hoff Hmax Hov Hn Hd0 Hdn Hr Herr HQ;
    cbn [write_loop]; destruct (Z.eqb_spec n 0) as [->|Hn0].
  1,3: apply wp_ret; rewrite <- (Z.add_0_r off), <- (Z.add_0_r done_); apply (HQ _ _ []);
    [rewrite slice_Some by lia; done|done|cbn; by apply written_nil].
  { lia. }
  destruct (chunk_spec bs_range off n) as (t & Hc & Ht & Htb & Hturns); [lia..|].
  pose proof (ao_fs _ (fo_alloc _ _ Hf)) as Hs. destruct (ok_groups _ Hs) as [Hg0 _].
  pose proof (turns_nonneg bs_range (off + t) (n - t) ltac:(lia)) as Ht0. unfold room in Hr.
  assert (forall p, off <= p < off + n -> writable (p / bs)) as Hw.
  { intros p Hp. split; [apply Z.div_pos; lia|apply Z.div_lt_upper_bound; lia]. }
  apply wp_bnd, wp_on_fs, wp_gets. rewrite (ok_bs _ Hs). apply wp_bnd. eapply wp_lft; [exact Hc|].
  apply wp_bnd, block_for_write_spec; [done|apply Hw; lia|unfold room; nia|exact Herr|].
  intros s1 inode1 Hbl. pose proof (bl_file _ _ _ _ _ Hbl) as Hf1.
  destruct (fo_data _ _ Hf1 (off / bs)) as [(Hbok & _ & _) _]; [apply Hw; lia|by apply (bl_block _ _ _ _ _ Hbl)|].
  apply write_turn_spec; [by apply (ao_fs _ (fo_alloc _ _ Hf1))|done|done|done|lia|lia|done|].
  intros s2 dat buf Hsl Hsp Hwr Hlb.
  pose proof (slice_length _ _ _ _ Hsl) as Hld.
  assert (written s inode off dat s2 inode1 (2 * num_block_groups s + 4)) as Hwn.
  { eapply written_chunk; [done|apply Hw; lia|lia|lia|done|done]. }
  pose proof (wn_heap _ _ _ _ _ _ _ Hwn) as Hh. pose proof (wn_groups _ _ _ _ _ _ _ Hwn) as Hgr.
  rewrite !u64_id by (red; lia).
  apply IH; [by apply (wn_file _ _ _ _ _ _ _ Hwn)|done|lia|lia|lia|lia|lia|lia|lia|lia|unfold room; rewrite Hgr; nia|exact Herr|].
  intros s' inode' dat2 Hsl2 Hsz2 Hwn2. replace (off + t + (n - t)) with (off + n) by lia.
  replace (done_ + t + (n - t)) with (done_ + n) by lia. apply (HQ s' inode' (dat ++ dat2)).
  - replace n with (t + (n - t)) by lia. by apply slice_app; [lia|lia|..].
  - rewrite Hsz2. by apply (bl_size _ _ _ _ _ Hbl).
  - rewrite Hturns, Hgr in *. replace ((1 + turns (off + t) (n - t)) * (2 * num_block_groups s + 4)) with
      (2 * num_block_groups s + 4 + turns (bs := bs) (off + t) (n - t) * (2 * num_block_groups s + 4)) by lia.
    eapply written_app; [done|by rewrite Hld|]. intros p Hp. apply Hw. lia.
Qed.

(** ** The whole call *)

(** Other members of the inode, and the dirty flag, are not part of the file. *)
Lemma written_setf s inode off dat s' inode' k f v inode2 :
  written s inode off dat s' inode' k -> setf inode' 0 f v = Some inode2 -> outside_i_block f ->
  written s inode off dat s' inode2 k.
Proof.
  intros [H1 H2 H3 H4 H5 H6 H7] Hs Hf. pose proof (fun fb => fblock_setf s' _ _ _ _ fb Hs Hf) as Hd.
  assert (forall p, file_byte (bs := bs) s' inode2 p = file_byte (bs := bs) s' inode' p) as Hb.
  { intros p. by rewrite !file_byte_data, Hd. }
  split; [by eapply file_ok_setf|..|done|done].
  - intros p Hp. rewrite Hd, Hb. by apply H2.
  - intros p ? ? ?. rewrite Hb. by apply H3.
  - intros fb ? ?. rewrite Hd. by apply H4.
  - intros fb ? ? ?. rewrite Hd. by apply H5.
Qed.

Lemma written_dirty s inode off dat s' inode' k :
  written s inode off dat s' inode' k -> written s inode off dat (set_fs_dirty true s') inode' k.
Proof.
  intros [[[Hs [G1 G2 G3] Hfit Hfree] F1 F2 F3 F4 F5] H2 H3 H4 H5 H6 H7]. split; [|done..]. split; [|done..].
  split; [by apply fs_ok_dirty|by split|done|done].
Qed.

Lemma written_from s1 s inode off dat s' inode' k k' :
  written s1 inode off dat s' inode' k -> extends (bs := bs) s s1 k' (fun _ => False) -> file_ok s inode ->
  written s inode off dat s' inode' (k' + k).
Proof.
  intros [H1 H2 H3 H4 H5 H6 H7] Hx Hf. pose proof (ex_heap _ _ _ _ Hx).
  pose proof (fun fb Hw => fblock_extends _ _ _ _ _ fb Hf Hx ltac:(auto) Hw) as Hd.
  split; [done|done|..|by rewrite H6, (ex_groups _ _ _ _ Hx)|lia].
  - intros p Hp Hn H0. rewrite H3; [|done|done|by rewrite Hd]. rewrite !file_byte_data, Hd by done.
    by rewrite (view_extends _ _ _ _ _ _ Hf Hx) by tauto.
  - intros fb Hfb. rewrite <- Hd by done. by apply H4.
  - intros fb Hfb. rewrite <- Hd by done. by apply H5.
Qed.

(** The size of the file after the write. *)
Definition new_size inode off n : Z := Z.max (default 0 (getf inode 0 i_size)) (off + n).

(** The end of the call: size, time and the dirty flag. *)
Lemma write_end_spec s1 inode1 s inode off dat k (Q : ext2_fs C * bytes -> Z + Z -> Prop) :
  written s1 inode1 off dat s inode k -> off + lenZ dat < 2147483648 -> 0 <= off ->
  getf inode 0 i_size = getf inode1 0 i_size ->
  (forall s' inode', written s1 inode1 off dat s' inode' k ->
     getf inode' 0 i_size = Some (new_size inode1 off (lenZ dat)) -> Q (s', inode') (inr (lenZ dat))) ->
  wp (let* inode := get_obj in
      let* isize := lft (getf inode 0 i_size) in
      (if isize <? off + lenZ dat then upd_obj (fun i => setf i 0 i_size (u32 (off + lenZ dat))) else ret tt);;;
      upd_obj (fun i => setf i 0 i_mtime (u32 now));;;
      on_fs (modify (set_fs_dirty true));;;
      ret (i32 (lenZ dat))) (s, inode) Q.
Proof.
  intros Hwn Hov Hoff Esz HQ. pose proof (lenZ_nonneg dat). pose proof (fo_len _ _ (wn_file _ _ _ _ _ _ _ Hwn)) as Hl.
  destruct (getf_inode inode i_size Hl eq_refl) as (v & Hv & Hvr). change (256 ^ _) with 4294967296 in Hvr.
  apply wp_bnd, wp_gets. cbn [snd]. apply wp_bnd. eapply wp_lft; [exact Hv|].
  assert (forall inode2, written s1 inode1 off dat s inode2 k ->
    getf inode2 0 i_size = Some (new_size inode1 off (lenZ dat)) ->
    wp (upd_obj (fun i => setf i 0 i_mtime (u32 now));;; on_fs (modify (set_fs_dirty true));;; ret (i32 (lenZ dat)))
      (s, inode2) Q) as Hrest.
  { intros inode2 Hwn2 Hsz. pose proof (fo_len _ _ (wn_file _ _ _ _ _ _ _ Hwn2)) as Hl2.
    destruct (setf_inode inode2 i_mtime (u32 now) Hl2 eq_refl) as (inode3 & H3).
    apply wp_bnd. eapply wp_upd_obj; [exact H3|]. apply wp_bnd, wp_on_fs, wp_modify, wp_ret.
    rewrite i32_id by lia. apply HQ; [eapply written_dirty, written_setf; [done|exact H3|by left]|].
    rewrite <- Hsz. eapply getf_setf_other; [exact H3|]. cbn. lia. }
  assert (new_size inode1 off (lenZ dat) = Z.max v (off + lenZ dat)) as En
    by (unfold new_size; rewrite <- Esz, Hv; done).
  apply wp_bnd. destruct (Z.ltb_spec v (off + lenZ dat)) as [E|E].
  - destruct (setf_inode inode i_size (u32 (off + lenZ dat)) Hl eq_refl) as (inode2 & H2).
    eapply wp_upd_obj; [exact H2|]. apply Hrest; [eapply written_setf; [done|exact H2|by left]|].
    rewrite u32_id in H2 by (red; lia). unfold getf, setf in *. rewrite (ld_st_same _ _ _ _ _ H2) by (cbn; lia).
    f_equal. lia.
  - apply wp_ret, Hrest; [done|]. rewrite Hv, En. f_equal. lia.
Qed.

Lemma ext2_write_file_spec s inode off dat :
  file_ok s inode -> 0 <= off -> off + lenZ dat <= (12 + addrs (bs := bs)) * bs -> off + lenZ dat < 2147483648 ->
  room bs s (turns (bs := bs) off (lenZ dat) * (2 * num_block_groups s + 4) + 2) ->
  wp (ext2_write_file now off (lenZ dat) dat) (s, inode) (fun q r =>
    match r with
    | inl e => e = ERR_NO_MEMORY
    | inr k => k = lenZ dat /\ getf q.2 0 i_size = Some (new_size inode off (lenZ dat)) /\
        written s inode off dat q.1 q.2 (1 + turns (bs := bs) off (lenZ dat) * (2 * num_block_groups s + 4))
    end).
Proof.
  intros Hf Hoff Hmax Hov Hr. pose proof (lenZ_nonneg dat) as Hl. pose proof (fo_alloc _ _ Hf) as Ha.
  pose proof (ao_fs _ Ha) as Hs. destruct (ok_groups _ Hs) as [Hg0 _]. unfold room in Hr.
  pose proof (turns_nonneg bs_range off (lenZ dat) Hl) as Ht0.
  unfold ext2_write_file. apply wp_bnd, wp_on_fs, wp_gets. rewrite (ok_bs _ Hs).
  assert (room bs s 1) as Hr1 by (unfold room; nia).
  apply wp_bnd, wp_on_fs, wp_alloc_buffer; [lia|done|done|done|]. intros bb Hbb _.
  set (s1 := set_heap_pos (heap_pos s + bs) s).
  assert (extends (bs := bs) s s1 1 (fun _ => False)) as Hx.
  { eapply extends_quiet; [lia|done|]. exact (quiet_buffer (bs := bs) s s 0 ltac:(lia) bs_aligned Hr1 (quiet_refl s Hs)). }
  assert (file_ok s1 inode) as Hf1 by (eapply file_ok_extends; [exact Hf|exact Hx|auto]).
  apply wp_bnd, (write_loop_spec _ s1); [done|done|lia|lia|done|done|lia|lia|lia|lia
    |unfold room; change (heap_pos s1) with (heap_pos s + bs); change (num_block_groups s1) with (num_block_groups s); nia|done|].
  intros s2 inode2 dat2 Hsl Hsz Hwn. rewrite slice_full in Hsl by done. injection Hsl as <-. cbn [fst snd].
  rewrite Z.add_0_l. eapply write_end_spec; [eapply written_from; [exact Hwn|exact Hx|exact Hf]|done|done|done|].
  intros s' inode' Hwn' Hsz'. done.
Qed.

Lemma file_range_written s inode off dat s' inode' k :
  written s inode off dat s' inode' k -> file_range (bs := bs) s' inode' off (length dat) = dat.
Proof.
  intros Hwn. apply list_eq. intros i. unfold file_range. rewrite list_lookup_fmap.
  destruct (decide (i < length dat)%nat) as [Hi|Hi].
  - rewrite lookup_seq_lt by done. cbn [fmap option_fmap option_map Nat.add].
    destruct (wn_new _ _ _ _ _ _ _ Hwn (off + Z.of_nat i)) as [_ ->]; [unfold lenZ; lia|].
    replace (off + Z.of_nat i - off) with (Z.of_nat i) by lia. rewrite getZ_nat.
    destruct (lookup_lt_is_Some_2 dat i Hi) as [x ->]. done.
  - rewrite lookup_seq_ge by lia. symmetry. apply lookup_ge_None_2. lia.
Qed.

(** The bytes of the range lie in other blocks than [fb]. *)
Definition untouched off n fb : Prop := forall p, off <= p < off + n -> p / bs <> fb.

Lemma file_byte_hole s inode p : fblock s inode (p / bs) = 0 -> file_byte (bs := bs) s inode p = 0.
Proof. unfold fblock, file_byte. destruct bmap as [|b]; [done|]. by intros ->. Qed.

Lemma written_keeps s inode off dat s' inode' k :
  written s inode off dat s' inode' k ->
  forall p, writable (p / bs) -> ~ off <= p < off + lenZ dat ->
    fblock s inode (p / bs) <> 0 \/ untouched off (lenZ dat) (p / bs) ->
    file_byte (bs := bs) s' inode' p = file_byte (bs := bs) s inode p.
Proof.
  intros Hwn p Hw Hp Hor. destruct (decide (fblock s inode (p / bs) = 0)) as [H0|H0].
  - destruct Hor as [?|Hu]; [done|]. rewrite !file_byte_hole by (done || by eapply wn_hole). done.
  - by eapply wn_keep.
Qed.

(** C4: what is written to a file is what is read from it.  For an inode consistent
    with the allocator and a range within the direct and single indirect blocks (the
    only ones [ext2_set_block_num] can map), [ext2_write_file] either runs out of
    blocks, or writes everything; then [ext2_read_file] of the range returns exactly
    the bytes written, whether the range lay in holes, in existing blocks or across
    the end of the file, and at any alignment.  A byte outside the range keeps its
    value when its block existed before, and also when the range has no byte in its
    block; nothing is said of the other bytes of a block that the write had to
    allocate, which keep what the device held there.  The file ends where it ended or
    at the end of the range, and the inode is again consistent with the allocator, so
    that the theorem applies to the next write. *)
Theorem ext2_write_read s inode off dat out :
  file_ok s inode -> 0 <= off -> off + lenZ dat <= (12 + addrs (bs := bs)) * bs ->
  off + lenZ dat < 2147483648 -> default 0 (getf inode 0 i_size) < 2147483648 -> lenZ dat <= lenZ out ->
  room bs s (turns (bs := bs) off (lenZ dat) * (2 * num_block_groups s + 6) + 2) ->
  wp (ext2_write_file now off (lenZ dat) dat) (s, inode) (fun q r =>
    match r with
    | inl e => e = ERR_NO_MEMORY
    | inr k => k = lenZ dat /\ file_ok q.1 q.2 /\ getf q.2 0 i_size = Some (new_size inode off (lenZ dat)) /\
        wp (ext2_read_file now q.2 off (lenZ dat)) (q.1, out) (fun q' r' =>
          r' = inr (lenZ dat) /\ splice out 0 dat = Some q'.2) /\
        (forall p, writable (p / bs) -> ~ off <= p < off + lenZ dat ->
           fblock s inode (p / bs) <> 0 \/ untouched off (lenZ dat) (p / bs) ->
           file_byte (bs := bs) q.1 q.2 p = file_byte (bs := bs) s inode p)
    end).
Proof.
  intros Hf Hoff Hmax Hov Hsz Hout Hr. pose proof (lenZ_nonneg dat) as Hl. unfold room in Hr.
  pose proof (turns_nonneg bs_range off (lenZ dat) Hl) as Ht0.
  destruct (ok_groups _ (ao_fs _ (fo_alloc _ _ Hf))) as [Hg0 _].
  eapply wp_mono; [apply ext2_write_file_spec; [done..|unfold room; nia]|].
  intros [s' inode'] [e|k]; [done|]. cbn [fst snd]. intros (-> & Hsz' & Hwn).
  pose proof (wn_file _ _ _ _ _ _ _ Hwn) as Hf'. pose proof (wn_heap _ _ _ _ _ _ _ Hwn) as Hh.
  split; [done|]. split; [done|]. split; [done|]. split; [|by eapply written_keeps].
  assert (read_len inode' off (lenZ dat) = lenZ dat) as Erl.
  { unfold read_len. rewrite Hsz'. cbn. unfold new_size. lia. }
  eapply wp_mono; [apply (ext2_read_file_spec now bs_range bs_aligned s' s' 0)|]; rewrite ?Erl.
  - by apply (ao_fs _ (fo_alloc _ _ Hf')).
  - by apply quiet_refl, (ao_fs _ (fo_alloc _ _ Hf')).
  - by apply (fo_len _ _ Hf').
  - apply (mo_ind _ _ (file_ok_map _ _ Hf')).
  - done.
  - rewrite Hsz'. cbn. unfold new_size. lia.
  - done.
  - done.
  - lia.
  - intros p Hp. assert (writable (p / bs)) as Hw.
    { split; [apply Z.div_pos; lia|apply Z.div_lt_upper_bound; lia]. }
    exists (fblock s' inode' (p / bs)). split; [by apply bmap_data|]. intros H0. by apply (fo_data _ _ Hf').
  - lia.
  - unfold room. nia.
  - intros [s2 o2] r. cbn [fst snd]. intros (-> & _ & Hsp). split; [done|].
    replace (Z.to_nat (lenZ dat)) with (length dat) in Hsp by (unfold lenZ; lia).
    by erewrite file_range_written in Hsp.
Qed.

End write_correct.
