(* ===== verification/Ext2Mount.v ===== *)
(** * Mounting, syncing, unmounting: [src/fs/ext2/superblock.c] and [ext2.c] *)
From S2P Require Import Prelude KernelLib Ext2Base Ext2Alloc.
Import Memory.
Open Scope Z_scope.
Open Scope ext2_scope.

Definition EXT2_MAGIC : Z := 61267.  (* 0xEF53 *)

Section mount.
Context {C : Type} {B : BlockStore C} (now : Z).
Abbreviation F := (M (ext2_fs C)).

(** The indeterminate initial contents of a local [u8 buffer[1024]]. *)
Context (stack_buffer : bytes).

(** ** The superblock *)
Definition ext2_read_superblock : F bytes :=
  let* buffer := bread now 1 stack_buffer in
  lft (slice buffer 0 sizeof_superblock).

Definition ext2_write_superblock (sb : bytes) : F Z :=
  let* buffer := lft (memcpy stack_buffer 0 sb 0 sizeof_superblock) in
  bwrite now 1 buffer;;; ret ERR_SUCCESS.

Definition ext2_validate_superblock (sb : bytes) : option bool :=
  magic ← getf sb 0 s_magic;
  inodes ← getf sb 0 s_inodes_count;
  blocks ← getf sb 0 s_blocks_count;
  bpg ← getf sb 0 s_blocks_per_group;
  ipg ← getf sb 0 s_inodes_per_group;
  Some (if negb (magic =? EXT2_MAGIC) then false
        else if (inodes =? 0) || (blocks =? 0) then false
        else if (bpg =? 0) || (ipg =? 0) then false
        else true).

(** ** The group descriptors *)
Definition descriptors_per_block : Z := 1024 / sizeof_bg.

(** The loop from descriptor [i], in block [bg_block]. *)
Fixpoint read_groups (fuel : nat) (bg buffer : bytes) (num_bg i bg_block : Z) : F bytes :=
  if negb (i <? num_bg) then ret bg
  else
    match fuel with
    | O => lft None
    | S fuel' =>
        let* buffer := bread now bg_block buffer in
        let count := if u32 (num_bg - i) <? descriptors_per_block then u32 (num_bg - i)
                     else descriptors_per_block in
        let* bg := lft (memcpy bg (i * sizeof_bg) buffer 0 (count * sizeof_bg)) in
        read_groups fuel' bg buffer num_bg (u32 (i + descriptors_per_block)) (u32 (bg_block + 1))
    end.

Definition ext2_read_block_groups (sb : bytes) : F (bytes * Z) :=
  let* blocks := lft (getf sb 0 s_blocks_count) in
  let* per := lft (getf sb 0 s_blocks_per_group) in
  let* num_bg := lft (udiv (u32 (blocks + per - 1)) per) in
  let* bg := alloc_buffer (u32 (num_bg * sizeof_bg)) in
  let* bg := read_groups (Z.to_nat num_bg) bg stack_buffer num_bg 0 2 in
  ret (bg, num_bg).

Fixpoint write_groups (fuel : nat) (bg buffer : bytes) (num_groups i bg_block : Z) : F Z :=
  if negb (i <? num_groups) then ret ERR_SUCCESS
  else
    match fuel with
    | O => lft None
    | S fuel' =>
        let count := if u32 (num_groups - i) <? descriptors_per_block then u32 (num_groups - i)
                     else descriptors_per_block in
        let* buffer := lft (memcpy buffer 0 bg (i * sizeof_bg) (count * sizeof_bg)) in
        bwrite now bg_block buffer;;;
        write_groups fuel' bg buffer num_groups (u32 (i + descriptors_per_block)) (u32 (bg_block + 1))
    end.

Definition ext2_write_block_groups (bg : bytes) (num_groups : Z) : F Z :=
  write_groups (Z.to_nat num_groups) bg stack_buffer num_groups 0 2.

(** ** Mount, sync, unmount *)

(** [sizeof(ext2_fs_t)]: three pointers, two [u32], a [bool], padded. *)
Definition sizeof_fs : Z := 40.

(** [1024 << s_log_block_size]: a signed shift, undefined when the result does
    not fit [int]. *)
Definition shift_block_size (log : Z) : option Z :=
  if log <=? 20 then Some (u32 (Z.shiftl 1024 log)) else None.

(** The body of [ext2_mount]: an error code where it returns [NULL]. *)
Definition mount_body : F unit :=
  alloc_buffer sizeof_fs;;;
  alloc_buffer sizeof_superblock;;;
  let* sb := ext2_read_superblock in
  modify (set_superblock sb);;;
  let* valid := lft (ext2_validate_superblock sb) in
  if negb valid then err ERR_INVALID
  else
    let* log := lft (getf sb 0 s_log_block_size) in
    let* size := lft (shift_block_size log) in
    modify (fun s => Fs (block_device s) (superblock s) (block_groups s) size
                        (num_block_groups s) (fs_dirty s) (heap_pos s));;;
    let* p := ext2_read_block_groups sb in
    modify (fun s => Fs (block_device s) (superblock s) p.1 (fs_block_size s) p.2
                        (fs_dirty s) (heap_pos s)).

(** The mounted file system or [NULL], with the store and the heap. *)
Definition ext2_mount (block_device_ptr : option C) (heap : Z)
  : option (option (ext2_fs C) * option C * Z) :=
  match block_device_ptr with
  | None => Some (None, None, heap)
  | Some device =>
      '(s, r) ← mount_body (Fs device [] [] 0 0 false heap);
      Some (match r with inl _ => None | inr _ => Some s end, Some (block_device s), heap_pos s)
  end.

Definition bflush : F Z := fun s =>
  '(c, r) ← block_flush (block_device s);
  Some (set_store c s, if r <? 0 then inl r else inr r).

(** [ext2_sync] of a file system that is not [NULL]. *)
Definition sync_body : F Z :=
  let* dirty := gets fs_dirty in
  if negb dirty then ret ERR_SUCCESS
  else
    let* sb := gets superblock in
    ext2_write_superblock sb;;;
    let* bg := gets block_groups in
    let* num := gets num_block_groups in
    ext2_write_block_groups bg num;;;
    bflush;;;
    modify (set_fs_dirty false);;;
    ret ERR_SUCCESS.

(** The result code of an operation. *)
Definition result (r : Z + Z) : Z := match r with inl e => e | inr v => v end.

Definition ext2_sync (fs : option (ext2_fs C)) : option (option (ext2_fs C) * Z) :=
  match fs with
  | None => Some (None, ERR_SUCCESS)
  | Some s => '(s', r) ← sync_body s; Some (Some s', result r)
  end.

(** A failed sync only prints a warning; the structures are released, the block
    device is what remains. *)
Definition ext2_umount (fs : option (ext2_fs C)) : option (option C * Z) :=
  match fs with
  | None => Some (None, ERR_INVALID)
  | Some s => '(s', _) ← ext2_sync (Some s); Some (option_map block_device s', ERR_SUCCESS)
  end.

End mount.

(** ** What a sync writes, the next mount reads *)
Section mount_correct.
Context {C : Type} {B : BlockStore C} {L : BlockStoreLaws C 1024} (now : Z) (stack_buffer : bytes).
Hypothesis stack_size : lenZ stack_buffer = 1024.
Implicit Types (s : ext2_fs C) (bg : bytes).

(** [s'] differs from [s] in the store only. *)
Definition store_only s s' : Prop :=
  fs_ok s' /\ superblock s' = superblock s /\ block_groups s' = block_groups s /\
  num_block_groups s' = num_block_groups s /\ fs_dirty s' = fs_dirty s /\
  heap_pos s' = heap_pos s /\ fs_block_size s' = fs_block_size s.

(** Byte [p] of the descriptor table on the device. *)
Definition table_byte s (p : Z) : option Z := getZ (view s (2 + p / 1024)) (p mod 1024).

Definition table_ok (num : Z) : Prop :=
  0 <= num <= 8388608 /\ forall j, 0 <= j -> 32 * j < num -> st_ok (2 + j).

Lemma store_only_store c s : fs_ok s -> st_inv c -> store_only s (set_store c s).
Proof. intros Hs Hc. split; [by apply fs_ok_store|done]. Qed.

Lemma store_only_trans s1 s2 s3 : store_only s1 s2 -> store_only s2 s3 -> store_only s1 s3.
Proof. unfold store_only. intros (?&?&?&?&?&?&?) (?&?&?&?&?&?&?). repeat split; try congruence; apply H6. Qed.

(** The number of descriptors in the block that starts at descriptor [i]. *)
Lemma group_count num i :
  0 <= i < num -> num <= 8388608 ->
  exists k, (if u32 (num - i) <? descriptors_per_block then u32 (num - i) else descriptors_per_block) = k /\
    0 < k <= 32 /\ (i + k = num \/ k = 32 /\ i + 32 < num).
Proof.
  intros Hi Hn. change descriptors_per_block with 32. rewrite u32_id by (red; lia).
  eexists; split; [done|]. destruct (Z.ltb_spec (num - i) 32); lia.
Qed.

Lemma write_groups_spec fuel : forall s bg buffer num j (Q : ext2_fs C -> Z + Z -> Prop),
  fs_ok s -> lenZ buffer = 1024 -> table_ok num -> num * 32 <= lenZ bg -> 0 <= j ->
  num - 32 * j <= Z.of_nat fuel ->
  (forall s', store_only s s' ->
     (forall p, 1024 * j <= p < 32 * num -> table_byte s' p = getZ bg p) ->
     (forall b, st_ok b -> b < 2 + j \/ 2 + (num + 31) / 32 <= b -> view s' b = view s b) ->
     Q s' (inr ERR_SUCCESS)) ->
  wp (write_groups now fuel bg buffer num (32 * j) (2 + j)) s Q.
Proof.
  induction fuel as [|fuel IH]; intros s bg buffer num j Q Hs Hbuf [Hnum Hok] Hbg Hj Hfuel HQ;
    cbn [write_groups]; destruct (Z.ltb_spec (32 * j) num) as [E|E]; cbn [negb].
  1: lia.
  1,3: apply wp_ret, HQ; [by repeat (split; [done|])|intros; lia|done].
  destruct (group_count num (32 * j)) as (k & -> & Hk & Hlast); [lia..|].
  change sizeof_bg with 32.
  destruct (slice bg (32 * j * 32) (k * 32)) as [src|] eqn:Hsrc;
    [|rewrite slice_Some in Hsrc by lia; done].
  pose proof (slice_length _ _ _ _ Hsrc) as Hls.
  destruct (splice buffer 0 src) as [buf|] eqn:Hbuf2; [|rewrite splice_Some in Hbuf2 by lia; done].
  pose proof (splice_length _ _ _ _ Hbuf2) as Hlb.
  apply wp_bnd. eapply wp_lft; [unfold memcpy; rewrite Hsrc; exact Hbuf2|].
  apply wp_bnd, wp_bwrite; [lia|done|apply Hok; lia|lia|]. intros c Hc Hv.
  change descriptors_per_block with 32. rewrite !u32_id by (red; lia).
  replace (32 * j + 32) with (32 * (j + 1)) by lia.
  replace (2 + j + 1) with (2 + (j + 1)) by lia.
  pose proof (store_only_store c s Hs Hc) as Hso.
  apply IH; [by apply fs_ok_store|lia|done|done|lia|lia|].
  intros s' Hso' Htab Hlow. apply HQ; [exact (store_only_trans _ _ _ Hso Hso')| |].
  - intros p Hp. destruct (decide (1024 * (j + 1) <= p)); [apply Htab; lia|].
    unfold table_byte. assert (p / 1024 = j) as -> by dlia. rewrite Hlow by (lia || apply Hok; lia).
    change (view (set_store c s) (2 + j)) with (st_view c (2 + j)).
    rewrite Hv, decide_True by (done || apply Hok; lia). unfold getZ.
    rewrite !(proj2 (Z.ltb_ge _ _)) by dlia. rewrite (splice_lookup _ _ _ _ _ Hbuf2).
    apply slice_inv in Hsrc as (_ & _ & _ & ->). unfold lenZ in Hls.
    assert (p mod 1024 < k * 32) by dlia. case_match; [|dlia].
    rewrite lookup_take, lookup_drop. case_decide; [|dlia]. f_equal. dlia.
  - intros b Hb Hlt. rewrite Hlow by (done || lia). change (view (set_store c s) b) with (st_view c b).
    rewrite Hv by done. by rewrite decide_False by dlia.
Qed.

Lemma read_groups_spec fuel : forall s bg buffer num j (Q : ext2_fs C -> Z + bytes -> Prop),
  st_inv (block_device s) -> lenZ buffer = 1024 -> table_ok num -> lenZ bg = num * 32 -> 0 <= j ->
  num - 32 * j <= Z.of_nat fuel ->
  (forall c bg', st_inv c -> (forall b, st_ok b -> st_view c b = view s b) -> lenZ bg' = num * 32 ->
     (forall p, 1024 * j <= p < 32 * num -> getZ bg' p = table_byte s p) ->
     (forall p, 0 <= p < 1024 * j -> getZ bg' p = getZ bg p) -> Q (set_store c s) (inr bg')) ->
  wp (read_groups now fuel bg buffer num (32 * j) (2 + j)) s Q.
Proof.
  induction fuel as [|fuel IH]; intros s bg buffer num j Q Hs Hbuf [Hnum Hok] Hbg Hj Hfuel HQ;
    cbn [read_groups]; destruct (Z.ltb_spec (32 * j) num) as [E|E]; cbn [negb].
  1: lia.
  1,3: apply wp_ret; replace s with (set_store (block_device s) s) by (by destruct s);
    by apply HQ; [|done|done|intros; lia|done].
  pose proof (st_view_len (block_device s) (2 + j) Hs ltac:(apply Hok; lia)) as Hlv.
  apply wp_bnd, wp_bread_raw; [lia|done|apply Hok; lia|done|]. intros c Hc Hv.
  destruct (group_count num (32 * j)) as (k & -> & Hk & Hlast); [lia..|]. change sizeof_bg with 32.
  fold (view s (2 + j)) in Hlv. set (blk := view s (2 + j)) in *.
  destruct (slice blk 0 (k * 32)) as [src|] eqn:Hsrc; [|rewrite slice_Some in Hsrc by lia; done].
  pose proof (slice_length _ _ _ _ Hsrc) as Hls.
  destruct (splice bg (32 * j * 32) src) as [bg2|] eqn:Hbg2; [|rewrite splice_Some in Hbg2 by lia; done].
  pose proof (splice_length _ _ _ _ Hbg2) as Hlb.
  apply wp_bnd. eapply wp_lft; [unfold memcpy; rewrite Hsrc; exact Hbg2|].
  change descriptors_per_block with 32. rewrite !u32_id by (red; lia).
  replace (32 * j + 32) with (32 * (j + 1)) by lia. replace (2 + j + 1) with (2 + (j + 1)) by lia.
  apply IH; [done|done|done|lia|lia|lia|]. intros c' bg' Hc' Hv' Hlen' Hhi Hlo.
  assert (forall p, getZ bg2 p = if (1024 * j <=? p) && (p <? 1024 * j + k * 32) then getZ blk (p - 1024 * j) else getZ bg p) as Hget.
  { intros p. unfold getZ. destruct (Z.ltb_spec p 0); [case_match; [lia|done]|].
    rewrite (splice_lookup _ _ _ _ _ Hbg2). apply slice_inv in Hsrc as (_ & _ & _ & ->). unfold lenZ in Hls.
    repeat case_match; try lia; [|done]. rewrite lookup_take, drop_0. case_decide; [f_equal; lia|lia]. }
  apply (HQ c'); [done|intros b Hb; by rewrite Hv' by done; apply Hv|done| |].
  - intros p Hp. destruct (decide (1024 * (j + 1) <= p)).
    + rewrite Hhi by lia. unfold table_byte. f_equal. apply Hv. apply Hok; dlia.
    + rewrite Hlo, Hget by lia. case_match; [|dlia]. unfold table_byte. subst blk.
      replace (p / 1024) with j by dlia. f_equal. dlia.
  - intros p Hp. rewrite Hlo, Hget by lia. case_match; [lia|done].
Qed.

Lemma stack_read s (Q : ext2_fs C -> Z + bytes -> Prop) :
  st_inv (block_device s) -> st_ok 1 ->
  (forall c, st_inv c -> (forall b, st_ok b -> st_view c b = view s b) ->
     Q (set_store c s) (inr (view s 1))) ->
  wp (ext2_read_superblock now stack_buffer) s Q.
Proof.
  intros Hs H1 HQ. unfold ext2_read_superblock.
  apply wp_bnd, wp_bread_raw; [lia|done|done|done|]. intros c Hc Hv.
  eapply wp_lft; [|by apply HQ]. apply slice_full. symmetry. by apply st_view_len.
Qed.

(** The blocks of the superblock and of the descriptors. *)
Definition is_meta (num b : Z) : Prop := b = 1 \/ 2 <= b < 2 + (num + 31) / 32.

Lemma sync_spec s :
  fs_ok s -> fs_dirty s = true -> st_ok 1 -> table_ok (num_block_groups s) ->
  wp (sync_body now stack_buffer) s (fun s' r => r = inr ERR_SUCCESS /\ fs_dirty s' = false /\
    st_inv (block_device s') /\ superblock s' = superblock s /\ block_groups s' = block_groups s /\
    num_block_groups s' = num_block_groups s /\
    view s' 1 = superblock s /\
    (forall p, 0 <= p < 32 * num_block_groups s -> table_byte s' p = getZ (block_groups s) p) /\
    (forall b, st_ok b -> ~ is_meta (num_block_groups s) b -> view s' b = view s b)).
Proof.
  intros Hs Hd H1 Htab. pose proof Htab as [Hnum Hok]. unfold sync_body. apply wp_bnd, wp_gets. rewrite Hd. cbn [negb].
  apply wp_bnd, wp_gets. unfold ext2_write_superblock. apply wp_bnd, wp_bnd.
  eapply wp_lft; [apply memcpy_full; [done|by apply ok_sb]|].
  apply wp_bnd, wp_bwrite; [lia|done|done|by apply ok_sb|]. intros c Hc Hv. apply wp_ret.
  apply wp_bnd, wp_gets. apply wp_bnd, wp_gets. apply wp_bnd.
  apply (write_groups_spec _ (set_store c s) (block_groups s) stack_buffer (num_block_groups s) 0);
    [by apply fs_ok_store|done|done|by apply ok_groups|lia|cbn; lia|].
  intros s' (Hs' & E1 & E2 & E3 & _) Htb Hlow.
  destruct (st_flush_ok (block_device s') (ok_store _ Hs')) as (c2 & Hfl & Hc2 & Hv2).
  apply wp_bnd. exists (set_store c2 s'), (inr ERR_SUCCESS). unfold bflush. rewrite Hfl. split; [done|].
  apply wp_bnd, wp_modify, wp_ret. set (s2 := set_fs_dirty false (set_store c2 s')).
  assert (forall b, st_ok b -> view s2 b = view s' b) as Hv2'.
  { intros b Hb. change (view s2 b) with (st_view c2 b). by apply Hv2. }
  split; [done|]. split; [done|]. split; [done|]. split; [done|]. split; [done|]. split; [done|]. split; [|split].
  - rewrite Hv2', Hlow by (done || lia). change (view (set_store c s) 1) with (st_view c 1).
    rewrite Hv, decide_True by done. done.
  - intros p Hp. rewrite <- Htb by lia. unfold table_byte. rewrite Hv2' by (apply Hok; dlia). done.
  - intros b Hb Hm. unfold is_meta in Hm. rewrite Hv2', Hlow by (done || lia).
    change (view (set_store c s) b) with (st_view c b). rewrite Hv by done. by rewrite decide_False by lia.
Qed.

(** The number of groups [ext2_read_block_groups] computes. *)
Definition groups_of (sb : bytes) : Z :=
  let blocks := default 0 (getf sb 0 s_blocks_count) in
  let per := default 0 (getf sb 0 s_blocks_per_group) in
  u32 (blocks + per - 1) / per.

(** A superblock that [ext2_mount] accepts, of a file system with blocks of 1024
    bytes. *)
Definition sb_mountable (sb : bytes) : Prop :=
  lenZ sb = sizeof_superblock /\ ext2_validate_superblock sb = Some true /\
  getf sb 0 s_log_block_size = Some 0.

Lemma sb_getf sb f : lenZ sb = sizeof_superblock -> in_struct sizeof_superblock f = true ->
  exists v, getf sb 0 f = Some v /\ 0 <= v < 256 ^ Z.of_nat (f_width f).
Proof.
  intros Hl Hf. unfold in_struct in Hf. unfold getf.
  destruct (ld_is_Some sb (0 + f_off f) (f_width f)) as [v Hv]; [lia..|].
  exists v. split; [done|]. by apply ld_inv in Hv as (_ & _ & ?).
Qed.

Lemma mountable_per sb : sb_mountable sb ->
  exists v, getf sb 0 s_blocks_per_group = Some v /\ 0 < v.
Proof.
  intros (Hl & Hval & _). destruct (sb_getf sb s_blocks_per_group Hl eq_refl) as (v & Hv & Hr).
  exists v. split; [done|]. unfold ext2_validate_superblock in Hval.
  destruct (sb_getf sb s_magic Hl eq_refl) as (v1 & E1 & _).
  destruct (sb_getf sb s_inodes_count Hl eq_refl) as (v2 & E2 & _).
  destruct (sb_getf sb s_blocks_count Hl eq_refl) as (v3 & E3 & _).
  destruct (sb_getf sb s_inodes_per_group Hl eq_refl) as (v4 & E4 & _).
  rewrite E1, E2, E3, Hv, E4 in Hval. cbn [mbind option_bind] in Hval. injection Hval as Hval.
  destruct (Z.eqb_spec v 0) as [->|]; [|lia]. repeat case_match; done.
Qed.

(** What [ext2_mount] builds from a device that shows a mountable superblock. *)
Lemma mount_spec c heap :
  st_inv c -> st_ok 1 -> heap_wf heap -> sb_mountable (st_view c 1) ->
  table_ok (groups_of (st_view c 1)) -> groups_of (st_view c 1) * 32 + heap + 1200 <= HEAP_SIZE ->
  wp (mount_body now stack_buffer) (Fs c [] [] 0 0 false heap) (fun s' r => r = inr tt /\
    st_inv (block_device s') /\ (forall b, st_ok b -> view s' b = st_view c b) /\
    superblock s' = st_view c 1 /\ num_block_groups s' = groups_of (st_view c 1) /\
    fs_block_size s' = 1024 /\ fs_dirty s' = false /\
    (heap_wf (heap_pos s') /\ heap_pos s' <= groups_of (st_view c 1) * 32 + heap + 1200) /\
    lenZ (block_groups s') = groups_of (st_view c 1) * 32 /\
    forall p, 0 <= p < 32 * groups_of (st_view c 1) -> getZ (block_groups s') p = table_byte s' p).
Proof.
  intros Hc H1 Hh Hm Htab Hroom. pose proof Htab as [Hnum Hok]. set (num := groups_of (st_view c 1)) in *.
  unfold mount_body. unfold HEAP_SIZE in Hroom.
  apply wp_bnd, wp_alloc_raw; [done|done|cbn; unfold sizeof_fs, HEAP_SIZE; lia|]. intros h1 Hw1 Hh1.
  apply wp_bnd, wp_alloc_raw; [done|done|cbn in *; unfold sizeof_fs, sizeof_superblock, HEAP_SIZE in *; lia|].
  intros h2 Hw2 Hh2. cbn in Hh1, Hh2. unfold sizeof_fs, sizeof_superblock in Hh1, Hh2.
  apply wp_bnd, stack_read; [done|done|]. intros c2 Hc2 Hv2. cbn [view block_device set_heap_pos] in *.
  set (sb := st_view c 1) in *. change (view _ 1) with sb.
  apply wp_bnd, wp_modify, wp_bnd. pose proof Hm as (Hl & Hval & Hlog).
  eapply wp_lft; [exact Hval|]. cbn [negb]. apply wp_bnd. eapply wp_lft; [exact Hlog|].
  apply wp_bnd. eapply wp_lft; [reflexivity|]. apply wp_bnd, wp_modify.
  destruct (sb_getf sb s_blocks_count Hl eq_refl) as (nb & Hnb & _).
  destruct (mountable_per sb Hm) as (per & Hper & Hper0).
  assert (u32 (nb + per - 1) / per = num) as Hgo by (subst num; unfold groups_of; by rewrite Hnb, Hper).
  apply wp_bnd. unfold ext2_read_block_groups. apply wp_bnd. eapply wp_lft; [exact Hnb|].
  apply wp_bnd. eapply wp_lft; [exact Hper|].
  apply wp_bnd. eapply wp_lft; [unfold udiv; by rewrite (proj2 (Z.eqb_neq per 0)) by lia|]. rewrite Hgo.
  rewrite u32_id by (red; unfold sizeof_bg; lia).
  apply wp_bnd, wp_alloc_raw; [done|unfold sizeof_bg; lia|cbn; unfold sizeof_bg, HEAP_SIZE; lia|].
  intros h3 Hw3 Hh3. apply wp_bnd.
  apply (read_groups_spec _ _ _ _ num 0); [done|done|done|rewrite lenZ_replicate; unfold sizeof_bg; lia|lia|lia|].
  intros c3 bg Hc3 Hv3 Hlbg Hhi _. apply wp_ret, wp_modify. cbn [fst snd].
  split; [done|]. split; [done|].
  assert (forall b, st_ok b -> st_view c3 b = st_view c b) as Hv.
  { intros b Hb. rewrite Hv3 by done. by apply Hv2. }
  split; [exact Hv|]. split; [done|]. split; [done|]. split; [done|]. split; [done|].
  split; [split; [done|]; cbn in Hh3 |- *; unfold sizeof_bg in Hh3; lia|].
  split; [done|]. intros p Hp. cbn [block_groups]. rewrite Hhi by lia.
  unfold table_byte. f_equal. symmetry. apply Hv3. apply Hok; dlia.
Qed.

(** C6: nothing is lost between a sync and the next mount.  After [ext2_sync] of a
    dirty, mountable file system, [ext2_mount] of the same device succeeds and
    rebuilds the superblock, the group descriptors, their number and the block
    size that were in memory, clean, over a store in which every block other than
    those of the superblock and of the descriptors is untouched. *)
Theorem ext2_sync_mount s heap :
  fs_ok s -> fs_dirty s = true -> sb_mountable (superblock s) ->
  num_block_groups s = groups_of (superblock s) -> st_ok 1 -> table_ok (num_block_groups s) ->
  heap_wf heap -> num_block_groups s * 32 + heap + 1200 <= HEAP_SIZE ->
  exists s1 s2 c heap',
    ext2_sync now stack_buffer (Some s) = Some (Some s1, ERR_SUCCESS) /\ fs_dirty s1 = false /\
    ext2_mount now stack_buffer (Some (block_device s1)) heap = Some (Some s2, Some c, heap') /\
    superblock s2 = superblock s /\ num_block_groups s2 = num_block_groups s /\
    fs_block_size s2 = 1024 /\ fs_dirty s2 = false /\
    block_groups s2 = take (Z.to_nat (32 * num_block_groups s)) (block_groups s) /\
    (forall b, st_ok b -> ~ is_meta (num_block_groups s) b -> view s2 b = view s b).
Proof.
  intros Hs Hd Hm Hnum H1 Htab Hw Hroom.
  destruct (sync_spec s Hs Hd H1 Htab) as (s1 & r1 & Hsync & -> & Hd1 & Hi1 & _ & _ & _ & Hv1 & Ht1 & Hf1).
  destruct (mount_spec (block_device s1) heap) as
    (s2 & r2 & Hmount & -> & _ & Hv2 & Esb & Enum & Ebs & Ed & _ & Hlen & Ht2);
    change (st_view (block_device s1) 1) with (view s1 1) in *; rewrite ?Hv1, <- ?Hnum in *; [done..|].
  exists s1, s2, (block_device s2), (heap_pos s2).
  unfold ext2_sync. rewrite Hsync. split; [done|]. split; [done|].
  unfold ext2_mount. rewrite Hmount. split; [done|]. do 4 (split; [done|]). split.
  - destruct (ok_groups _ Hs) as [Hg0 Hgl]. unfold sizeof_bg in Hgl. apply list_eq. intros i.
    rewrite lookup_take. case_decide as Hi.
    + specialize (Ht2 (Z.of_nat i) ltac:(lia)). specialize (Ht1 (Z.of_nat i) ltac:(lia)).
      rewrite !getZ_nat in *. rewrite Ht2, <- Ht1. unfold table_byte. f_equal. apply Hv2.
      apply Htab; dlia.
    + apply lookup_ge_None_2. unfold lenZ in Hlen. lia.
  - intros b Hb Hmeta. rewrite Hv2 by done. by apply Hf1.
Qed.

End mount_correct.
