(* ===== verification/Ext2Dir.v ===== *)
(** * ext2 directories: [src/fs/ext2/dir.c] *)
From S2P Require Import Prelude KernelLib Ext2Base Ext2Alloc Ext2Inode.
Import Memory CString.
Open Scope Z_scope.
Open Scope ext2_scope.

Definition EXT2_S_IFREG : Z := 32768.  (* 0x8000 *)
Definition EXT2_S_IFDIR : Z := 16384.  (* 0x4000 *)
Definition EXT2_FT_REG_FILE : Z := 1.
Definition EXT2_FT_DIR : Z := 2.

(** ** One directory block

    The records are walked by [rec_len], from [offset] up to [size]; since a
    record of length 0 ends the walk, [size] turns are enough. *)

(** Does the record at [offset] carry [name]? *)
Definition entry_matches (buf : bytes) (offset : Z) (name : bytes) : option bool :=
  inode ← getf buf offset de_inode;
  if inode =? 0 then Some false
  else
    name_len ← getf buf offset de_name_len;
    len ← strlen name;
    if negb (name_len =? len) then Some false
    else
      z ← strncmp (drop (Z.to_nat (offset + f_off de_name)) buf) name (Z.to_nat name_len);
      Some (z =? 0).

(** The inner loop of [ext2_lookup]. *)
Fixpoint dir_find (fuel : nat) (buf name : bytes) (offset size : Z) : option (option Z) :=
  if negb (offset <? size) then Some None
  else
    match fuel with
    | O => None
    | S fuel' =>
        rec_len ← getf buf offset de_rec_len;
        if rec_len =? 0 then Some None
        else
          m ← entry_matches buf offset name;
          if m : bool then inode ← getf buf offset de_inode; Some (Some inode)
          else dir_find fuel' buf name (u32 (offset + rec_len)) size
    end.

(** The inner loop of [ext2_readdir]: the entry found, or the index reached. *)
Fixpoint dir_nth (fuel : nat) (buf : bytes) (index current offset size : Z) : option (Z + bytes) :=
  if negb (offset <? size) then Some (inl current)
  else
    match fuel with
    | O => None
    | S fuel' =>
        rec_len ← getf buf offset de_rec_len;
        if rec_len =? 0 then Some (inl current)
        else
          inode ← getf buf offset de_inode;
          if inode =? 0 then dir_nth fuel' buf index current (u32 (offset + rec_len)) size
          else if current =? index then
            e ← slice buf offset sizeof_dirent; Some (inr e)
          else dir_nth fuel' buf index (u64 (current + 1)) (u32 (offset + rec_len)) size
    end.

(** The assignments that fill a record; [name_len] is [strlen(name)]. *)
Definition fill_entry (buf : bytes) (offset ino rec_len name_len file_type : Z) (name : bytes)
  : option bytes :=
  buf ← setf buf offset de_inode ino;
  buf ← setf buf offset de_rec_len (u16 rec_len);
  buf ← setf buf offset de_name_len (u8 name_len);
  buf ← setf buf offset de_file_type (u8 file_type);
  let pos := Z.to_nat (offset + f_off de_name) in
  tail ← strncpy (drop pos buf) name (Z.to_nat name_len);
  setZ (take pos buf ++ tail) (offset + f_off de_name + name_len) 0.

(** [(len + 3) & ~3]. *)
Definition align4 (len : Z) : Z := Z.land (u32 (len + 3)) (u32 (Z.lnot 3)).

(** What the inner loop of [ext2_add_dir_entry] finds: a record it could fill
    after the last one, a record it could split, or no space. *)
Inductive slot :=
  | AtEnd (offset : Z) (buf : bytes)
  | Split (buf : bytes)
  | NoSpace.

Fixpoint dir_insert (fuel : nat) (buf name : bytes) (ino file_type name_len required_len offset size : Z)
  : option slot :=
  if negb (offset <? size) then Some NoSpace
  else
    match fuel with
    | O => None
    | S fuel' =>
        rec_len ← getf buf offset de_rec_len;
        if rec_len =? 0 then
          buf ← fill_entry buf offset ino (size - offset) name_len file_type name;
          Some (AtEnd offset buf)
        else
          entry_name_len ← getf buf offset de_name_len;
          let actual_len := align4 (8 + entry_name_len) in
          let free_space := u32 (rec_len - actual_len) in
          inode ← getf buf offset de_inode;
          if negb (inode =? 0) && (required_len <=? free_space) then
            buf ← fill_entry buf (offset + actual_len) ino (rec_len - actual_len) name_len file_type name;
            buf ← setf buf offset de_rec_len (u16 actual_len);
            Some (Split buf)
          else dir_insert fuel' buf name ino file_type name_len required_len (u32 (offset + rec_len)) size
    end.

(** ** A directory block as a list of names *)
Module Chain.
Section chain.
Context (size : Z) (zero_ok : bool).
Hypothesis size_range : 0 < size < 65536.
Hypothesis size_aligned : size mod 4 = 0.
Implicit Types (buf nm : bytes) (off ino : Z) (recs : list (Z * bytes)).

(** The records of a well-formed block from [off]: they tile it up to the end, or,
    with [zero_ok], up to a record of length 0. *)
Inductive chain buf : Z -> list (Z * bytes) -> Prop :=
  | chain_full : chain buf size []
  | chain_zero off :
      zero_ok = true -> 0 <= off < size -> off mod 4 = 0 -> getf buf off de_rec_len = Some 0 -> chain buf off []
  | chain_rec off ino len nm recs :
      0 <= off < size -> off mod 4 = 0 -> len mod 4 = 0 -> off + len <= size ->
      align4 (8 + lenZ nm) <= len ->
      getf buf off de_inode = Some ino -> getf buf off de_rec_len = Some len ->
      getf buf off de_name_len = Some (lenZ nm) -> slice buf (off + 8) (lenZ nm) = Some nm ->
      chain buf (off + len) recs -> chain buf off ((ino, nm) :: recs).

(** The inode of the first live record with the name. *)
Fixpoint find_rec recs nm : option Z :=
  match recs with
  | [] => None
  | (ino, nm') :: recs' =>
      if negb (ino =? 0) && bool_decide (nm' = nm) then Some ino else find_rec recs' nm
  end.

(** No live record leaves exactly the bytes that a name of [n] characters takes without padding: then the NUL behind the
    name would be the first byte of the record that follows. *)
Fixpoint roomy (n : Z) buf off recs : Prop :=
  match recs with
  | [] => True
  | (ino, nm) :: recs' =>
      match getf buf off de_rec_len with
      | Some len => (ino <> 0 -> len - align4 (8 + lenZ nm) <> 8 + n) /\ roomy n buf (off + len) recs'
      | None => False
      end
  end.

Lemma align4_spec n : 0 <= n < 4294967290 -> align4 n = (n + 3) / 4 * 4.
Proof.
  intros Hn. unfold align4. rewrite u32_id by (red; lia). change (u32 (Z.lnot 3)) with (Z.lnot 3 mod 2 ^ 32).
  rewrite <- Z.land_ones, Z.land_assoc by lia. rewrite Z.land_ones by lia.
  assert (Z.land (n + 3) (Z.lnot 3) = (n + 3) / 4 * 4) as ->.
  { rewrite <- Z.ldiff_land. change 3 with (Z.ones 2) at 2. rewrite Z.ldiff_ones_r by lia.
    by rewrite Z.shiftr_div_pow2, Z.shiftl_mul_pow2 by lia. }
  apply Z.mod_small. dlia.
Qed.

(** Names of other lengths than the multiples of four are always padded. *)
Lemma roomy_mod n buf off recs : 0 <= n -> (8 + n) mod 4 <> 0 -> chain buf off recs -> roomy n buf off recs.
Proof.
  intros Hn Hm. induction 1 as [| |off ino len nm recs Hoff H4 Hl4 Hle Hal Hi Hr Hnl Hs Hc IH]; cbn [roomy]; [done..|].
  rewrite Hr. split; [|done]. intros _. pose proof (lenZ_nonneg nm).
  pose proof (ld_inv _ _ _ _ Hnl) as (_ & _ & Hb). change (256 ^ _) with 256 in Hb. rewrite align4_spec by lia. dlia.
Qed.

Lemma chain_len buf off recs : chain buf off recs -> 0 <= off <= size /\ off mod 4 = 0.
Proof. intros []; lia. Qed.

(** [entry_matches] on a record compares the names. *)
Lemma entry_matches_spec buf off ino nm nm' :
  getf buf off de_inode = Some ino -> getf buf off de_name_len = Some (lenZ nm') ->
  0 <= off -> slice buf (off + 8) (lenZ nm') = Some nm' -> nul_free nm ->
  entry_matches buf off (nm ++ [0]) = Some (negb (ino =? 0) && bool_decide (nm' = nm)).
Proof.
  intros Hi Hl Hoff Hs Hn. unfold entry_matches. rewrite Hi, Hl. cbn [mbind option_bind].
  destruct (ino =? 0); [done|]. cbn [negb andb]. rewrite strlen_spec by done. cbn [mbind option_bind].
  destruct (Z.eqb_spec (lenZ nm') (lenZ nm)) as [E|E]; cbn [negb].
  - apply slice_inv in Hs as (_ & ? & ? & Hs). change (f_off de_name) with 8. unfold lenZ in *.
    rewrite !Nat2Z.id in *. replace (length nm') with (length nm) in * by lia.
    destruct (strncmp_full nm (drop (Z.to_nat (off + 8)) buf) [0] Hn) as (z & -> & Hz);
      [rewrite length_drop; lia|]. cbn. rewrite <- Hs in Hz. f_equal.
    destruct (Z.eqb_spec z 0) as [Ez|Ez]; rewrite Hz in Ez;
      [by rewrite bool_decide_eq_true_2|by rewrite bool_decide_eq_false_2].
  - rewrite bool_decide_eq_false_2; [done|]. congruence.
Qed.

Lemma dir_find_chain buf off recs nm fuel :
  chain buf off recs -> nul_free nm -> size - off <= Z.of_nat fuel ->
  dir_find fuel buf (nm ++ [0]) off size = Some (find_rec recs nm).
Proof.
  intros Hc Hn. revert fuel.
  induction Hc as [|off _ Hoff _ Hr|off ino len nm' recs Hoff H4 Hl4 Hle Hal Hi Hr Hnl Hs Hc IH]; intros fuel Hf.
  - destruct fuel; cbn [dir_find]; by rewrite Z.ltb_irrefl.
  - destruct fuel as [|fuel]; [lia|]. cbn [dir_find]. rewrite (proj2 (Z.ltb_lt off size)) by lia.
    cbn [negb]. rewrite Hr. done.
  - destruct fuel as [|fuel]; [lia|]. cbn [dir_find]. rewrite (proj2 (Z.ltb_lt off size)) by lia.
    cbn [negb]. rewrite Hr. cbn [mbind option_bind].
    pose proof (lenZ_nonneg nm'). pose proof (ld_inv _ _ _ _ Hnl) as (_ & _ & Hb). change (256 ^ _) with 256 in Hb.
    rewrite align4_spec in Hal by lia.
    rewrite (proj2 (Z.eqb_neq len 0)) by dlia.
    rewrite (entry_matches_spec buf off ino nm nm') by (done || lia). cbn [mbind option_bind find_rec].
    case_match; [by rewrite Hi|]. rewrite u32_id by (red; dlia). apply IH. dlia.
Qed.

(** The record [fill_entry] leaves at [off], and the bytes it does not touch. *)
Record filled buf buf' off ino len nm : Prop := {
  fi_len : lenZ buf' = lenZ buf;
  fi_inode : getf buf' off de_inode = Some ino;
  fi_rec_len : getf buf' off de_rec_len = Some len;
  fi_name_len : getf buf' off de_name_len = Some (lenZ nm);
  fi_name : slice buf' (off + 8) (lenZ nm) = Some nm;
  fi_room : 0 <= off /\ off + 8 + lenZ nm < lenZ buf;
  fi_outside (i : nat) : Z.of_nat i < off \/ off + 8 + lenZ nm < Z.of_nat i -> buf' !! i = buf !! i
}.

(** The name and its NUL, written after the header. *)
Lemma name_written buf off nm buf' :
  0 <= off -> nul_free nm ->
  (let pos := Z.to_nat (off + f_off de_name) in
   tail ← strncpy (drop pos buf) (nm ++ [0]) (length nm);
   setZ (take pos buf ++ tail) (off + f_off de_name + lenZ nm) 0) = Some buf' ->
  lenZ buf' = lenZ buf /\ off + 8 + lenZ nm < lenZ buf /\ slice buf' (off + 8) (lenZ nm) = Some nm /\
  forall i : nat, Z.of_nat i < off + 8 \/ off + 8 + lenZ nm < Z.of_nat i -> buf' !! i = buf !! i.
Proof.
  intros Hoff Hn. change (f_off de_name) with 8. cbv zeta.
  rewrite strncpy_spec, Nat.leb_refl by done. unfold lenZ.
  destruct (Nat.leb_spec (length nm) (length (drop (Z.to_nat (off + 8)) buf))) as [Hle|]; [|done].
  rewrite length_drop in Hle. cbn [mbind option_bind]. rewrite firstn_all, drop_drop.
  intros (Hr & ->)%setZ_inv. unfold lenZ in Hr. rewrite !length_app, length_take, length_drop in Hr.
  set (pos := Z.to_nat (off + 8)) in *.
  assert (pos <= length buf)%nat as Hpos by lia.
  assert (splice buf (off + 8) nm = Some (take pos buf ++ nm ++ drop (pos + length nm) buf)) as Hsp.
  { rewrite splice_Some by (unfold lenZ; lia). done. }
  set (b1 := take pos buf ++ nm ++ drop (pos + length nm) buf) in *.
  assert (length b1 = length buf) as Hlb.
  { apply splice_length in Hsp. unfold lenZ in Hsp. lia. }
  replace (Z.to_nat (off + 8 + Z.of_nat (length nm))) with (pos + length nm)%nat by lia.
  split; [rewrite length_insert; lia|]. split; [lia|]. split.
  - rewrite (slice_agree b1); [by apply slice_splice_same in Hsp| |].
    + unfold lenZ. by rewrite length_insert.
    + intros i Hi. apply list_lookup_insert_ne. lia.
  - intros i Hi. rewrite list_lookup_insert_ne by lia.
    eapply splice_outside; [exact Hsp|]. unfold lenZ. lia.
Qed.

Lemma fill_entry_spec buf off ino len ft nm buf' :
  0 <= off -> is_u32 ino -> is_u16 len -> lenZ nm <= 255 -> nul_free nm ->
  fill_entry buf off ino len (lenZ nm) ft (nm ++ [0]) = Some buf' -> filled buf buf' off ino len nm.
Proof.
  intros Hoff Hino Hlen Hnm Hn H. unfold fill_entry in H. pose proof (lenZ_nonneg nm) as Hnm0.
  destruct (setf buf off de_inode ino) as [b1|] eqn:E1; [|done]. cbn [mbind option_bind] in H.
  destruct (setf b1 off de_rec_len (u16 len)) as [b2|] eqn:E2; [|done]. cbn [mbind option_bind] in H.
  destruct (setf b2 off de_name_len (u8 (lenZ nm))) as [b3|] eqn:E3; [|done]. cbn [mbind option_bind] in H.
  destruct (setf b3 off de_file_type (u8 ft)) as [b4|] eqn:E4; [|done]. cbn [mbind option_bind] in H.
  replace (Z.to_nat (lenZ nm)) with (length nm) in H by (unfold lenZ; lia).
  destruct (name_written b4 off nm buf' Hoff Hn H) as (Hl & Hfit & Hs & Hout).
  rewrite u16_id in E2 by done. rewrite u8_id in E3 by (red; lia).
  pose proof (st_length _ _ _ _ _ E1). pose proof (st_length _ _ _ _ _ E2).
  pose proof (st_length _ _ _ _ _ E3). pose proof (st_length _ _ _ _ _ E4).
  assert (forall f, f_off f + Z.of_nat (f_width f) <= 8 -> getf buf' off f = getf b4 off f) as Hget.
  { intros f Hf. apply ld_agree; [done|]. intros i Hi. apply Hout. lia. }
  red in Hino, Hlen. split; [congruence|..].
  - rewrite Hget by done. erewrite getf_setf_other, getf_setf_other, getf_setf_other;
      [by eapply ld_st_same|exact E2|cbn; lia|exact E3|cbn; lia|exact E4|cbn; lia].
  - rewrite Hget by done. erewrite getf_setf_other, getf_setf_other;
      [by eapply ld_st_same|exact E3|cbn; lia|exact E4|cbn; lia].
  - rewrite Hget by done. erewrite getf_setf_other; [eapply ld_st_same; [exact E3|cbn; lia]|exact E4|cbn; lia].
  - done.
  - lia.
  - intros i Hi. rewrite Hout by lia. erewrite st_outside, st_outside, st_outside, st_outside;
      [done|exact E1|cbn; lia|exact E2|cbn; lia|exact E3|cbn; lia|exact E4|cbn; lia].
Qed.

(** A chain depends only on the bytes from its start. *)
Lemma chain_agree buf buf' off recs :
  chain buf off recs -> lenZ buf' = lenZ buf ->
  (forall i : nat, off <= Z.of_nat i -> buf' !! i = buf !! i) -> chain buf' off recs.
Proof.
  intros Hc Hl. induction Hc as [|off ? ? ? Hr|off ino len nm recs ? ? ? ? Hal Hi Hr Hn Hs Hc IH]; intros Hag.
  - constructor.
  - apply chain_zero; [done|done|done|]. rewrite <- Hr. apply ld_agree; [done|]. cbn. intros; apply Hag; lia.
  - pose proof (lenZ_nonneg nm). pose proof (ld_inv _ _ _ _ Hn) as (_ & _ & Hb).
    change (256 ^ _) with 256 in Hb. rewrite align4_spec in Hal by lia.
    apply chain_rec with len; [done|done|done|done|by rewrite align4_spec by lia|..].
    + rewrite <- Hi. apply ld_agree; [done|]. cbn. intros; apply Hag; lia.
    + rewrite <- Hr. apply ld_agree; [done|]. cbn. intros; apply Hag; lia.
    + rewrite <- Hn. apply ld_agree; [done|]. cbn. intros; apply Hag; lia.
    + rewrite <- Hs. apply slice_agree; [done|]. intros; apply Hag; lia.
    + apply IH. intros i Hge. apply Hag. dlia.
Qed.

Definition slot_buf (sl : slot) : option bytes :=
  match sl with AtEnd _ buf | Split buf => Some buf | NoSpace => None end.

(** Splitting the record at [off] makes room for a new one behind it. *)
Lemma split_chain buf off ino len nm recs ino' ft nm' b1 b2 :
  chain buf off ((ino, nm) :: recs) -> getf buf off de_rec_len = Some len -> lenZ buf = size ->
  is_u32 ino' -> nul_free nm' -> lenZ nm' <= 255 -> len - align4 (8 + lenZ nm) <> 8 + lenZ nm' ->
  align4 (8 + lenZ nm') <= len - align4 (8 + lenZ nm) ->
  fill_entry buf (off + align4 (8 + lenZ nm)) ino' (len - align4 (8 + lenZ nm)) (lenZ nm') ft (nm' ++ [0]) = Some b1 ->
  setf b1 off de_rec_len (u16 (align4 (8 + lenZ nm))) = Some b2 ->
  chain b2 off ((ino, nm) :: (ino', nm') :: recs) /\ lenZ b2 = lenZ buf /\
  forall i : nat, Z.of_nat i < off -> b2 !! i = buf !! i.
Proof.
  intros Hc Hlen Hsz Hi' Hn' Hnm' Hmod Hfree Hfill Hset.
  inversion Hc as [| |? ? len0 ? ? Hoff H4 Hl4 Hle Hal Hi Hr Hn Hs Hc']; subst. assert (len0 = len) as -> by congruence.
  pose proof (lenZ_nonneg nm). pose proof (lenZ_nonneg nm').
  pose proof (ld_inv _ _ _ _ Hn) as (_ & _ & Hb). change (256 ^ _) with 256 in Hb.
  set (al := align4 (8 + lenZ nm)) in *. set (al' := align4 (8 + lenZ nm')) in *.
  assert (al mod 4 = 0 /\ 8 + lenZ nm <= al < 12 + lenZ nm) as [Hal4 Halr] by (subst al; rewrite align4_spec by lia; dlia).
  assert (8 + lenZ nm' <= al') as Hal' by (subst al'; rewrite align4_spec by lia; dlia).
  rewrite u16_id in Hset by (red; lia).
  assert (0 <= off + al) as P1 by lia. assert (is_u16 (len - al)) as P2 by (red; lia).
  destruct (fill_entry_spec _ _ _ _ _ _ _ P1 Hi' P2 Hnm' Hn' Hfill) as [F1 F2 F3 F4 F5 F6 F7].
  pose proof (st_length _ _ _ _ _ Hset) as Hl2.
  assert (forall i : nat, Z.of_nat i < off + 4 \/ off + 6 <= Z.of_nat i < off + al \/ off + len <= Z.of_nat i ->
    b2 !! i = buf !! i) as Hsame.
  { intros i Hir. rewrite (st_outside _ _ _ _ _ _ Hset) by (cbn; lia). apply F7. lia. }
  assert (forall i : nat, off + 6 <= Z.of_nat i -> b2 !! i = b1 !! i) as Hsame1.
  { intros i Hir. rewrite (st_outside _ _ _ _ _ _ Hset) by (cbn; lia). done. }
  split; [|split; [congruence|intros; apply Hsame; lia]].
  apply chain_rec with al; [done|done|done|lia|done|..].
  - rewrite <- Hi. apply ld_agree; [congruence|]. cbn. intros; apply Hsame; lia.
  - eapply ld_st_same; [exact Hset|cbn; lia].
  - rewrite <- Hn. apply ld_agree; [congruence|]. cbn. intros; apply Hsame; lia.
  - rewrite <- Hs. apply slice_agree; [congruence|]. intros; apply Hsame; lia.
  - apply chain_rec with (len - al); [lia|dlia|dlia|lia|lia|..].
    + rewrite <- F2. apply ld_agree; [congruence|]. cbn. intros; apply Hsame1; lia.
    + rewrite <- F3. apply ld_agree; [congruence|]. cbn. intros; apply Hsame1; lia.
    + rewrite <- F4. apply ld_agree; [congruence|]. cbn. intros; apply Hsame1; lia.
    + rewrite <- F5. apply slice_agree; [congruence|]. intros; apply Hsame1; lia.
    + replace (off + al + (len - al)) with (off + len) by lia.
      eapply chain_agree; [done|congruence|]. intros; apply Hsame; lia.
Qed.

Lemma insert_chain buf off recs ino ft nm fuel sl buf' :
  chain buf off recs -> lenZ buf = size -> is_u32 ino -> nul_free nm -> lenZ nm <= 255 ->
  roomy (lenZ nm) buf off recs ->
  dir_insert fuel buf (nm ++ [0]) ino ft (lenZ nm) (align4 (8 + lenZ nm)) off size = Some sl ->
  slot_buf sl = Some buf' ->
  exists l1 l2, recs = l1 ++ l2 /\ chain buf' off (l1 ++ (ino, nm) :: l2) /\ lenZ buf' = lenZ buf /\
    forall i : nat, Z.of_nat i < off -> buf' !! i = buf !! i.
Proof.
  intros Hc Hsz Hino Hn Hnm. pose proof (lenZ_nonneg nm) as Hnm0. revert fuel.
  induction Hc as [|off Hz Hoff H4 Hr|off ino1 len nm1 recs Hoff H4 Hl4 Hle Hal Hi Hr Hnl Hs Hc IH];
    intros [|fuel] Hroomy Hins Hb; cbn [dir_insert] in Hins.
  1,2: rewrite Z.ltb_irrefl in Hins; by simplify_eq/=.
  1,3: rewrite (proj2 (Z.ltb_lt off size)) in Hins by lia; done.
  - rewrite (proj2 (Z.ltb_lt off size)), Hr in Hins by lia. cbn [negb mbind option_bind Z.eqb] in Hins.
    destruct (fill_entry _ _ _ _ _ _ _) as [b1|] eqn:Hf; [|done]. cbn [mbind option_bind] in Hins.
    injection Hins as <-. injection Hb as <-.
    assert (0 <= off) as P1 by lia. assert (is_u16 (size - off)) as P2 by (red; lia).
    destruct (fill_entry_spec _ _ _ _ _ _ _ P1 Hino P2 Hnm Hn Hf) as [F1 F2 F3 F4 F5 F6 F7].
    exists [], []. split; [done|]. split; [|split; [lia|intros; apply F7; lia]].
    apply chain_rec with (size - off); [done|done|dlia|lia|rewrite align4_spec by lia; dlia|done|done|done|done|].
    replace (off + (size - off)) with size by lia. constructor.
  - cbn [roomy] in Hroomy. rewrite Hr in Hroomy. destruct Hroomy as [Hgap Hroomy].
    rewrite (proj2 (Z.ltb_lt off size)), Hr, Hnl, Hi in Hins by lia. cbn [negb mbind option_bind] in Hins.
    pose proof (lenZ_nonneg nm1). pose proof (ld_inv _ _ _ _ Hnl) as (_ & _ & Hnb).
    change (256 ^ _) with 256 in Hnb. pose proof Hal as Hal0. rewrite align4_spec in Hal0 by lia.
    rewrite (proj2 (Z.eqb_neq len 0)), (u32_id (len - _)) in Hins by (rewrite ?align4_spec by lia; red; dlia).
    destruct (negb (ino1 =? 0) && (align4 (8 + lenZ nm) <=? len - align4 (8 + lenZ nm1))) eqn:Hroom.
    + destruct (fill_entry _ _ _ _ _ _ _) as [b1|] eqn:Hf; [|done]. cbn [mbind option_bind] in Hins.
      destruct (setf b1 off de_rec_len _) as [b2|] eqn:Hset; [|done]. cbn [mbind option_bind] in Hins.
    injection Hins as <-. injection Hb as <-.
      apply andb_true_iff in Hroom as [Hi0 Hroom]. apply Z.leb_le in Hroom. apply negb_true_iff, Z.eqb_neq in Hi0.
      specialize (Hgap Hi0). destruct (split_chain buf off ino1 len nm1 recs ino ft nm b1 b2) as (Hc2 & Hl2 & Hlow);
        [by apply chain_rec with len|done..|]. by exists [(ino1, nm1)], recs.
    + rewrite u32_id in Hins by (red; dlia).
      destruct (IH fuel Hroomy Hins Hb) as (l1 & l2 & -> & Hc2 & Hl2 & Hlow).
      exists ((ino1, nm1) :: l1), l2. split; [done|]. split; [|split; [done|intros; apply Hlow; dlia]].
      cbn [app]. apply chain_rec with len; [done|done|done|done|done|..|exact Hc2].
      * rewrite <- Hi. apply ld_agree; [done|]. cbn. intros; apply Hlow; dlia.
      * rewrite <- Hr. apply ld_agree; [done|]. cbn. intros; apply Hlow; dlia.
      * rewrite <- Hnl. apply ld_agree; [done|]. cbn. intros; apply Hlow; dlia.
      * rewrite <- Hs. apply slice_agree; [done|]. intros; apply Hlow; dlia.
Qed.

Lemma find_rec_insert l1 l2 ino nm nm' :
  ino <> 0 -> find_rec (l1 ++ l2) nm = None ->
  find_rec (l1 ++ (ino, nm) :: l2) nm' = if decide (nm' = nm) then Some ino else find_rec (l1 ++ l2) nm'.
Proof.
  intros Hi. induction l1 as [|[ino1 nm1] l1 IH]; cbn [app find_rec].
  - intros _. rewrite (proj2 (Z.eqb_neq ino 0)) by done. cbn [negb andb].
    case_decide; [by rewrite bool_decide_eq_true_2|by rewrite bool_decide_eq_false_2].
  - destruct (negb (ino1 =? 0)); cbn [andb]; [|done].
    destruct (decide (nm1 = nm)) as [->|Hne]; [by rewrite bool_decide_eq_true_2|].
    rewrite (bool_decide_eq_false_2 (nm1 = nm)) by done. intros Hnone. rewrite IH by done.
    case_bool_decide as E; [|done]. subst. by rewrite decide_False.
Qed.

(** looking a name up in a well-formed directory block, of any number of
    records, finds the inode of the first live record with exactly that name, and
    nothing when there is none; the walk stays inside the block and ends. *)
Theorem dir_find_correct buf recs nm :
  chain buf 0 recs -> nul_free nm ->
  dir_find (Z.to_nat size) buf (nm ++ [0]) 0 size = Some (find_rec recs nm).
Proof. intros Hc Hn. eapply dir_find_chain; [done|done|lia]. Qed.

(** inserting a name and looking it up.  When [ext2_add_dir_entry] finds space
    in a well-formed block for a name that is not in it yet, then afterwards the
    new name is found with its inode and every other name is found exactly as
    before.  The condition [roomy] keeps the NUL the code writes behind the name
    inside the record. *)
Theorem dir_insert_find buf recs ino ft nm sl buf' nm' :
  chain buf 0 recs -> lenZ buf = size -> is_u32 ino -> ino <> 0 -> nul_free nm -> nul_free nm' ->
  lenZ nm <= 255 -> roomy (lenZ nm) buf 0 recs -> find_rec recs nm = None ->
  dir_insert (Z.to_nat size) buf (nm ++ [0]) ino ft (lenZ nm) (align4 (8 + lenZ nm)) 0 size = Some sl ->
  slot_buf sl = Some buf' ->
  dir_find (Z.to_nat size) buf' (nm' ++ [0]) 0 size =
    Some (if decide (nm' = nm) then Some ino else find_rec recs nm').
Proof.
  intros Hc Hsz Hino Hi0 Hn Hn' Hnm Hmod Hnone Hins Hb.
  destruct (insert_chain _ _ _ _ _ _ _ _ _ Hc Hsz Hino Hn Hnm Hmod Hins Hb) as (l1 & l2 & -> & Hc' & _).
  rewrite (dir_find_chain buf' 0 (l1 ++ (ino, nm) :: l2)) by (done || lia). f_equal.
  by apply find_rec_insert.
Qed.

End chain.

(** without that condition an insertion can destroy the next record.
    In this block the record of ["a"] (inode 11) leaves room for exactly the 12
    bytes of a record with a name of four characters; the NUL written behind the
    name lands on the first byte of the next record and turns its inode, 5, into 0:
    after inserting ["wxyz"], the name ["b"] is no longer found. *)
Theorem dir_insert_clobbers :
  let buf := le_bytes 4 11 ++ le_bytes 2 24 ++ [1; 1] ++ [97; 0; 0; 0] ++ replicate 12 0
          ++ le_bytes 4 5 ++ le_bytes 2 40 ++ [1; 1] ++ [98; 0; 0; 0] ++ replicate 28 0 in
  dir_find 64 buf [98; 0] 0 64 = Some (Some 5) /\
  (sl ← dir_insert 64 buf [119; 120; 121; 122; 0] 12 1 4 (align4 12) 0 64;
   buf' ← slot_buf sl; dir_find 64 buf' [98; 0] 0 64) = Some None.
Proof. cbv zeta. split; vm_compute; reflexivity. Qed.

End Chain.

(** ** Directories *)
Section dir.
Context {C : Type} {B : BlockStore C} (now : Z).
Abbreviation F := (M (ext2_fs C)).

Definition num_dir_blocks (inode : bytes) : F Z :=
  let* isize := lft (getf inode 0 i_size) in
  let* size := gets fs_block_size in
  lft (udiv (u32 (u32 (isize + size) - 1)) size).

(** The start of [ext2_lookup] and [ext2_readdir]: the inode of a directory. *)
Definition read_dir_inode (ino : Z) : F bytes :=
  let* inode := ext2_read_inode now ino in
  let* mode := lft (getf inode 0 i_mode) in
  if negb (Z.land mode 61440 =? EXT2_S_IFDIR) then err ERR_INVALID else ret inode.

Fixpoint lookup_blocks (n : nat) (inode block_buffer name : bytes) (i : Z) : F Z :=
  match n with
  | O => err ERR_NOT_FOUND
  | S n' =>
      let* r := try (ext2_get_block_num now inode i) in
      match r with
      | inl _ => lookup_blocks n' inode block_buffer name (i + 1)
      | inr block_num =>
          if block_num =? 0 then lookup_blocks n' inode block_buffer name (i + 1)
          else
            let* block_buffer := bread now block_num block_buffer in
            let* size := gets fs_block_size in
            let* found := lft (dir_find (Z.to_nat size) block_buffer name 0 size) in
            match found with
            | Some ino => ret ino
            | None => lookup_blocks n' inode block_buffer name (i + 1)
            end
      end
  end.

Definition ext2_lookup (parent_ino : Z) (name : bytes) : F Z :=
  let* inode := read_dir_inode parent_ino in
  let* size := gets fs_block_size in
  let* block_buffer := alloc_buffer size in
  let* num_blocks := num_dir_blocks inode in
  lookup_blocks (Z.to_nat num_blocks) inode block_buffer name 0.

Fixpoint readdir_blocks (n : nat) (inode block_buffer : bytes) (index current i : Z) : F bytes :=
  match n with
  | O => err ERR_NOT_FOUND
  | S n' =>
      let* r := try (ext2_get_block_num now inode i) in
      match r with
      | inl _ => readdir_blocks n' inode block_buffer index current (i + 1)
      | inr block_num =>
          if block_num =? 0 then readdir_blocks n' inode block_buffer index current (i + 1)
          else
            let* block_buffer := bread now block_num block_buffer in
            let* size := gets fs_block_size in
            let* found := lft (dir_nth (Z.to_nat size) block_buffer index current 0 size) in
            match found with
            | inr entry => ret entry
            | inl current => readdir_blocks n' inode block_buffer index current (i + 1)
            end
      end
  end.

Definition ext2_readdir (ino index : Z) : F bytes :=
  let* inode := read_dir_inode ino in
  let* size := gets fs_block_size in
  let* block_buffer := alloc_buffer size in
  let* num_blocks := num_dir_blocks inode in
  readdir_blocks (Z.to_nat num_blocks) inode block_buffer index 0 0.

(** The loop of [ext2_add_dir_entry].  When [ext2_get_block_num] fails its result
    is not looked at and [block_num] is used uninitialised: undefined. *)
Fixpoint add_blocks (n : nat) (parent_ino : Z) (inode block_buffer name : bytes)
    (ino file_type name_len required_len i : Z) : F Z :=
  match n with
  | O => err ERR_NO_MEMORY
  | S n' =>
      let* r := try (ext2_get_block_num now inode i) in
      let* block_num := lft (match r with inr b => Some b | inl _ => None end) in
      let* size := gets fs_block_size in
      let* p :=
        (if block_num =? 0 then
           let* block_num := ext2_alloc_block now in
           let* q := with_obj inode (ext2_set_block_num now i block_num) in
           match q.2 with
           | inl e => err e
           | inr _ =>
               let* block_buffer := lft (memset block_buffer 0 0 size) in
               ret (block_num, q.1, block_buffer)
           end
         else
           let* block_buffer := bread now block_num block_buffer in
           ret (block_num, inode, block_buffer)) in
      let '(block_num, inode, block_buffer) := p in
      let* found := lft (dir_insert (Z.to_nat size) block_buffer name ino file_type name_len
                           required_len 0 size) in
      match found with
      | AtEnd offset buf =>
          let* result := try (bwrite now block_num buf) in
          let* isize := lft (getf inode 0 i_size) in
          let new_size := u32 (u32 (u32 (i * size) + offset) + required_len) in
          (if isize <? new_size then
             let* inode := lft (setf inode 0 i_size new_size) in
             try (ext2_write_inode now parent_ino inode);;; ret tt
           else ret tt);;;
          match result with inl e => err e | inr v => ret v end
      | Split buf => bwrite now block_num buf
      | NoSpace =>
          add_blocks n' parent_ino inode block_buffer name ino file_type name_len required_len (i + 1)
      end
  end.

Definition ext2_add_dir_entry (parent_ino : Z) (name : bytes) (ino file_type : Z) : F Z :=
  let* inode := ext2_read_inode now parent_ino in
  let* len := lft (strlen name) in
  let name_len := u32 len in
  let required_len := align4 (u32 (8 + name_len)) in
  let* size := gets fs_block_size in
  let* block_buffer := alloc_buffer size in
  let* num := num_dir_blocks inode in
  let num_blocks := if num =? 0 then 1 else num in
  add_blocks (Z.to_nat num_blocks) parent_ino inode block_buffer name ino file_type name_len
    required_len 0.

(** ** Creating and removing *)

(** Assign [v] to member [f] of an inode. *)
Definition iset (f : field) (v : Z) (inode : bytes) : option bytes := setf inode 0 f v.

(** The inode both [ext2_create] and [ext2_mkdir] start from. *)
Definition new_inode (type mode size links blocks : Z) : option bytes :=
  i ← Some (replicate (Z.to_nat sizeof_inode) 0);
  i ← iset i_mode (u16 (Z.lor type (Z.land mode 4095))) i;
  i ← iset i_uid 0 i;
  i ← iset i_gid 0 i;
  i ← iset i_size size i;
  i ← iset i_atime (u32 now) i;
  i ← iset i_ctime (u32 now) i;
  i ← iset i_mtime (u32 now) i;
  i ← iset i_links_count links i;
  iset i_blocks blocks i.

(** [m], with [undo] (its result ignored) before a failure is returned. *)
Definition or_undo {A} (m : F A) (undo : F unit) : F A :=
  let* r := try m in
  match r with inl e => undo;;; err e | inr a => ret a end.

Definition drop_inode (ino : Z) : F unit := try (ext2_free_inode now ino);;; ret tt.
Definition drop_block (block_num : Z) : F unit := try (ext2_free_block now block_num);;; ret tt.

Definition ext2_create (parent_ino : Z) (name : bytes) (mode : Z) : F Z :=
  let* ino := ext2_alloc_inode now in
  let* inode := lft (new_inode EXT2_S_IFREG mode 0 1 0) in
  or_undo (ext2_write_inode now ino inode) (drop_inode ino);;;
  or_undo (ext2_add_dir_entry parent_ino name ino EXT2_FT_REG_FILE) (drop_inode ino);;;
  ret ino.

(** The block of an empty directory: the records of ["."] and [".."]. *)
Definition dot_block (size ino parent_ino : Z) : option bytes :=
  b ← memset (replicate (Z.to_nat size) 0) 0 0 size;
  b ← setf b 0 de_inode ino;
  b ← setf b 0 de_rec_len 12;
  b ← setf b 0 de_name_len 1;
  b ← setf b 0 de_file_type EXT2_FT_DIR;
  b ← setf b 0 de_name 46;
  b ← setf b 12 de_inode parent_ino;
  b ← setf b 12 de_rec_len (u16 (size - 12));
  b ← setf b 12 de_name_len 2;
  b ← setf b 12 de_file_type EXT2_FT_DIR;
  b ← setf b 12 de_name 46;
  setf b 13 de_name 46.

Definition ext2_mkdir (parent_ino : Z) (name : bytes) (mode : Z) : F Z :=
  let* ino := ext2_alloc_inode now in
  let* size := gets fs_block_size in
  let* inode := lft (new_inode EXT2_S_IFDIR mode size 2 (size / 512)) in
  let* block_num := or_undo (ext2_alloc_block now) (drop_inode ino) in
  let* inode := lft (set_i_block inode 0 block_num) in
  let undo := drop_block block_num;;; drop_inode ino in
  or_undo (alloc_buffer size) undo;;;
  let* block_buffer := lft (dot_block size ino parent_ino) in
  or_undo (bwrite now block_num block_buffer) undo;;;
  or_undo (ext2_write_inode now ino inode) undo;;;
  or_undo (ext2_add_dir_entry parent_ino name ino EXT2_FT_DIR) undo;;;
  let* r := try (ext2_read_inode now parent_ino) in
  match r with
  | inl _ => ret ino
  | inr parent_inode =>
      let* links := lft (getf parent_inode 0 i_links_count) in
      let* parent_inode := lft (iset i_links_count (u16 (links + 1)) parent_inode) in
      try (ext2_write_inode now parent_ino parent_inode);;;
      ret ino
  end.

(** Free the blocks [i_block[i]], [n] of them; results are ignored. *)
Fixpoint free_i_blocks (n : nat) (inode : bytes) (i : Z) : F unit :=
  match n with
  | O => ret tt
  | S n' =>
      let* b := lft (get_i_block inode i) in
      (if b =? 0 then ret tt else drop_block b);;;
      free_i_blocks n' inode (i + 1)
  end.

(** The record of the name stays in the directory. *)
Definition ext2_unlink (parent_ino : Z) (name : bytes) : F Z :=
  let* ino := ext2_lookup parent_ino name in
  let* inode := ext2_read_inode now ino in
  let* links := lft (getf inode 0 i_links_count) in
  let links := u16 (links - 1) in
  let* inode := lft (iset i_links_count links inode) in
  (if links =? 0 then free_i_blocks 15 inode 0;;; drop_inode ino
   else try (ext2_write_inode now ino inode);;; ret tt);;;
  ret ERR_SUCCESS.

End dir.
