(* ===== verification/Ext2DirProofs.v ===== *)
(** * Directories of ext2: names, added and looked up

    [ext2_lookup] and [ext2_add_dir_entry] of [src/fs/ext2/dir.c] over a whole
    directory: its inode, its blocks through the block map, and the records of the
    blocks. *)
From S2P Require Import Prelude KernelLib Ext2Base Ext2Alloc Ext2Inode Ext2File Ext2Write Ext2Dir.
Import Memory CString Chain.
Open Scope Z_scope.
Open Scope ext2_scope.

(** ** An insertion into one block is defined *)
Section insert.
Context (size : Z).
Hypothesis size_range : 0 < size < 65536.
Hypothesis size_aligned : size mod 4 = 0.

Lemma fill_entry_defined buf off ino len ft nm :
  0 <= off -> off + 8 + lenZ nm < lenZ buf -> nul_free nm ->
  is_Some (fill_entry buf off ino len (lenZ nm) ft (nm ++ [0])).
Proof.
  intros Hoff Hfit Hn. pose proof (lenZ_nonneg nm) as Hnm0. unfold fill_entry, setf.
  destruct (st_is_Some buf (off + f_off de_inode) (f_width de_inode) ino) as [b1 E1]; [cbn; lia..|].
  rewrite E1. cbn [mbind option_bind]. apply st_length in E1.
  destruct (st_is_Some b1 (off + f_off de_rec_len) (f_width de_rec_len) (u16 len)) as [b2 E2]; [cbn; lia..|].
  rewrite E2. cbn [mbind option_bind]. apply st_length in E2.
  destruct (st_is_Some b2 (off + f_off de_name_len) (f_width de_name_len) (u8 (lenZ nm))) as [b3 E3]; [cbn; lia..|].
  rewrite E3. cbn [mbind option_bind]. apply st_length in E3.
  destruct (st_is_Some b3 (off + f_off de_file_type) (f_width de_file_type) (u8 ft)) as [b4 E4]; [cbn; lia..|].
  rewrite E4. cbn [mbind option_bind]. apply st_length in E4. change (f_off de_name) with 8. unfold lenZ in *.
  rewrite strncpy_spec by done. rewrite Nat2Z.id, Nat.leb_refl, length_drop.
  rewrite (proj2 (Nat.leb_le _ _)) by lia. cbn [mbind option_bind].
  rewrite setZ_Some; [by eexists|]. unfold lenZ. rewrite !length_app, length_take, !length_take, !length_drop. lia.
Qed.

(** In a block whose records reach its end, there is a record to split or none. *)
Lemma dir_insert_defined buf off recs ino ft nm fuel :
  chain size false buf off recs -> lenZ buf = size -> is_u32 ino -> nul_free nm -> lenZ nm <= 255 ->
  roomy (lenZ nm) buf off recs -> size - off <= Z.of_nat fuel ->
  dir_insert fuel buf (nm ++ [0]) ino ft (lenZ nm) (align4 (8 + lenZ nm)) off size = Some NoSpace \/
  exists b, dir_insert fuel buf (nm ++ [0]) ino ft (lenZ nm) (align4 (8 + lenZ nm)) off size = Some (Split b).
Proof.
  intros Hc Hsz Hino Hn Hnm. pose proof (lenZ_nonneg nm) as Hnm0. revert fuel.
  induction Hc as [|off Hz|off ino1 len nm1 recs Hoff H4 Hl4 Hle Hal Hi Hr Hnl Hs Hc IH]; intros fuel Hroomy Hf.
  - left. destruct fuel; cbn [dir_insert]; by rewrite Z.ltb_irrefl.
  - done.
  - cbn [roomy] in Hroomy. rewrite Hr in Hroomy. destruct Hroomy as [Hgap Hroomy].
    destruct fuel as [|fuel]; [lia|]. cbn [dir_insert].
    rewrite (proj2 (Z.ltb_lt off size)), Hr, Hnl, Hi by lia. cbn [negb mbind option_bind].
    pose proof (lenZ_nonneg nm1). pose proof (ld_inv _ _ _ _ Hnl) as (_ & _ & Hnb). change (256 ^ _) with 256 in Hnb.
    rewrite (align4_spec (8 + lenZ nm1)) in * by lia. rewrite (align4_spec (8 + lenZ nm)) in * by lia.
    rewrite (proj2 (Z.eqb_neq len 0)), (u32_id (len - _)) by (try red; dlia).
    destruct (negb (ino1 =? 0) && _) eqn:Hroom; [|rewrite u32_id by (red; dlia); apply IH; [done|dlia]].
    right. apply andb_true_iff in Hroom as [Hi0 Hroom]. apply Z.leb_le in Hroom. apply negb_true_iff, Z.eqb_neq in Hi0.
    specialize (Hgap Hi0).
    destruct (fill_entry_defined buf (off + (8 + lenZ nm1 + 3) / 4 * 4) ino (len - (8 + lenZ nm1 + 3) / 4 * 4) ft nm)
      as [b1 Hb1]; [dlia|dlia|done|]. rewrite Hb1. cbn [mbind option_bind].
    assert (lenZ b1 = lenZ buf) as Hl1.
    { assert (0 <= off + (8 + lenZ nm1 + 3) / 4 * 4) as P1 by dlia.
      assert (is_u16 (len - (8 + lenZ nm1 + 3) / 4 * 4)) as P2 by (red; dlia).
      exact (fi_len _ _ _ _ _ _ (fill_entry_spec _ _ _ _ _ _ _ P1 Hino P2 Hnm Hn Hb1)). }
    unfold setf. destruct (st_is_Some b1 (off + f_off de_rec_len) (f_width de_rec_len)
      (u16 ((8 + lenZ nm1 + 3) / 4 * 4))) as [b2 ->]; [cbn; dlia..|]. by exists b2.
Qed.

End insert.

(** ** A directory as a list of names *)
Section dirs.
Context {C : Type} {B : BlockStore C} {bs : Z} {L : BlockStoreLaws C bs} (now : Z).
Hypothesis bs_range : 0 < bs < 65536.
Hypothesis bs_aligned : bs mod 16 = 0.
Implicit Types (s : ext2_fs C) (nm : bytes) (recs : list (Z * bytes)) (rs : list (list (Z * bytes))).

Definition size_of (inode : bytes) : Z := default 0 (getf inode 0 i_size).

(** [ino] is a directory whose blocks hold the records [rs]. *)
Record dir_ok s ino rs : Prop := {
  dr_fs : fs_ok s;
  dr_table : itable (bs := bs) s;
  dr_u32 : is_u32 ino;
  dr_valid : valid_ino s ino;
  dr_mode : exists m, getf (inode_at (bs := bs) s ino) 0 i_mode = Some m /\ Z.land m 61440 = EXT2_S_IFDIR;
  dr_ind : indirects_ok (bs := bs) s (inode_at (bs := bs) s ino);
  dr_size : size_of (inode_at (bs := bs) s ino) + bs < 4294967296;
  dr_len : lenZ rs = (size_of (inode_at (bs := bs) s ino) + bs - 1) / bs;
  dr_block i recs : rs !! i = Some recs ->
    exists b, bmap (bs := bs) s (inode_at (bs := bs) s ino) (Z.of_nat i) = inr b /\ b <> 0 /\ st_ok b /\
      chain bs false (view s b) 0 recs
}.

(** What a lookup returns. *)
Definition found recs nm : Z + Z :=
  match find_rec recs nm with Some ino => inr ino | None => inl ERR_NOT_FOUND end.

Lemma find_rec_app recs1 recs2 nm :
  find_rec (recs1 ++ recs2) nm = match find_rec recs1 nm with Some i => Some i | None => find_rec recs2 nm end.
Proof. induction recs1 as [|[i n] recs1 IH]; cbn; [done|]. destruct (negb (i =? 0) && _); [done|exact IH]. Qed.

Lemma read_dir_inode_spec s ino rs (Q : ext2_fs C -> Z + bytes -> Prop) :
  dir_ok s ino rs -> room bs s 1 ->
  (forall s', quiet s s' 1 -> Q s' (inr (inode_at (bs := bs) s ino))) -> wp (read_dir_inode now ino) s Q.
Proof.
  intros Hd Hr HQ. unfold read_dir_inode. apply wp_bnd.
  eapply wp_mono; [apply ext2_read_inode_spec; [lia|done|by apply (dr_fs _ _ _ Hd)|by apply (dr_table _ _ _ Hd)|by apply (dr_u32 _ _ _ Hd)|done]|].
  intros s' r (Hq & ->). rewrite decide_True by by apply (dr_valid _ _ _ Hd).
  destruct (dr_mode _ _ _ Hd) as (m & Hm & Em). apply wp_bnd. eapply wp_lft; [exact Hm|].
  rewrite Em. cbn [negb]. apply wp_ret. auto.
Qed.

Lemma dir_inode_len s ino rs : dir_ok s ino rs -> lenZ (inode_at (bs := bs) s ino) = sizeof_inode.
Proof.
  intros Hd. apply lenZ_inode_at; [lia|by apply (dr_fs _ _ _ Hd)|by apply (dr_table _ _ _ Hd)|by apply (dr_valid _ _ _ Hd)].
Qed.

Lemma num_dir_blocks_spec s s' k ino rs (Q : ext2_fs C -> Z + Z -> Prop) :
  dir_ok s ino rs -> quiet s s' k -> Q s' (inr (lenZ rs)) ->
  wp (num_dir_blocks (inode_at (bs := bs) s ino)) s' Q.
Proof.
  intros Hd Hq HQ. pose proof (dr_size _ _ _ Hd) as Hz. rewrite (dr_len _ _ _ Hd) in HQ. unfold size_of in *.
  destruct (getf_inode (inode_at (bs := bs) s ino) i_size) as (v & Hv & Hvr); [|done|].
  { by eapply dir_inode_len. }
  rewrite Hv in *. change (default 0 (Some v)) with v in *. change (256 ^ _) with 4294967296 in Hvr. unfold num_dir_blocks. apply wp_bnd. eapply wp_lft; [exact Hv|].
  apply wp_bnd, wp_gets. rewrite (ok_bs _ (quiet_ok _ _ _ Hq)).
  eapply wp_lft; [unfold udiv; by rewrite (proj2 (Z.eqb_neq bs 0)) by lia|].
  rewrite (u32_id (v + bs)) by (red; lia). by rewrite u32_id by (red; lia).
Qed.

Lemma dir_count s ino rs : dir_ok s ino rs -> lenZ rs < 4294967296.
Proof.
  intros Hd. rewrite (dr_len _ _ _ Hd). pose proof (dr_size _ _ _ Hd). apply Z.div_lt_upper_bound; [lia|].
  assert (0 <= size_of (inode_at (bs := bs) s ino)); [|nia].
  unfold size_of, getf. destruct (ld _ _ _) eqn:E; cbn; [|lia]. apply ld_inv in E. lia.
Qed.

Lemma lookup_blocks_spec s0 ino rs nm rs2 : forall rs1 s k bb,
  dir_ok s0 ino rs -> rs = rs1 ++ rs2 -> nul_free nm -> quiet s0 s k -> lenZ bb = bs -> 0 <= k ->
  room bs s0 (k + 2 * lenZ rs2) ->
  wp (lookup_blocks now (length rs2) (inode_at (bs := bs) s0 ino) bb (nm ++ [0]) (lenZ rs1)) s (fun s' r =>
    quiet s0 s' (k + 2 * lenZ rs2) /\ r = found (concat rs2) nm).
Proof.
  induction rs2 as [|recs rs2 IH]; intros rs1 s k bb Hd -> Hn Hq Hbb Hk Hr; cbn [length lookup_blocks].
  { apply wp_err. split; [|done]. eapply quiet_weaken; [lia|done|unfold lenZ; cbn [length]; lia]. }
  pose proof (dir_count _ _ _ Hd) as Hcnt. rewrite lenZ_app in Hcnt.
  assert (lenZ (recs :: rs2) = 1 + lenZ rs2) as El by (unfold lenZ; cbn; lia). rewrite El in *.
  pose proof (lenZ_nonneg rs1). pose proof (lenZ_nonneg rs2). unfold room in Hr.
  destruct (dr_block _ _ _ Hd (length rs1) recs) as (b & Hb & Hb0 & Hbok & Hc); [by rewrite list_lookup_middle|].
  apply wp_bnd, wp_try. eapply (ext2_get_block_num_spec now); [lia|done|exact Hq| |by apply (dr_ind _ _ _ Hd)|red; lia|unfold room; nia|].
  { by eapply dir_inode_len. }
  intros s1 Hq1. change (lenZ rs1) with (Z.of_nat (length rs1)) at 1. rewrite Hb. rewrite (proj2 (Z.eqb_neq b 0)) by done.
  apply wp_bnd, wp_bread; [lia|by eapply quiet_ok|done|done|]. intros c Hcs Hv.
  pose proof (quiet_read _ _ _ _ Hq1 Hcs Hv) as Hq2.
  apply wp_bnd, wp_gets. rewrite (ok_bs _ (quiet_ok _ _ _ Hq2)). rewrite (quiet_view _ _ _ _ Hq1) by done.
  apply wp_bnd. eapply wp_lft; [eapply (dir_find_chain bs false); [lia|dlia|done|done|lia]|].
  unfold found. cbn [concat]. rewrite find_rec_app. destruct (find_rec recs nm) as [i|].
  { apply wp_ret. split; [|done]. eapply quiet_weaken; [lia|done|lia]. }
  replace (lenZ rs1 + 1) with (lenZ (rs1 ++ [recs])) by (rewrite lenZ_app; cbn; done).
  eapply wp_mono; [eapply (IH (rs1 ++ [recs]) _ (k + 2)); [done|by rewrite <- app_assoc|done|done| |lia|unfold room; nia]|].
  { exact (st_view_len (block_device s0) b (ok_store _ (dr_fs _ _ _ Hd)) Hbok). }
  intros s' r (Hq' & ->). split; [|done]. eapply quiet_weaken; [lia|done|lia].
Qed.

Lemma ext2_lookup_spec s ino rs nm :
  dir_ok s ino rs -> nul_free nm -> room bs s (2 + 2 * lenZ rs) ->
  wp (ext2_lookup now ino (nm ++ [0])) s (fun s' r =>
    quiet s s' (2 + 2 * lenZ rs) /\ r = found (concat rs) nm).
Proof.
  intros Hd Hn Hr. pose proof (lenZ_nonneg rs). unfold room in Hr. unfold ext2_lookup.
  apply wp_bnd. eapply read_dir_inode_spec; [exact Hd|unfold room; nia|]. intros s1 Hq1.
  apply wp_bnd, wp_gets. rewrite (ok_bs _ (quiet_ok _ _ _ Hq1)).
  assert (room bs s1 1) as Hr1 by (eapply quiet_room; [exact Hq1|unfold room; nia]).
  apply wp_bnd, wp_alloc_buffer; [lia|done|by eapply quiet_ok|done|]. intros bb Hbb _.
  pose proof (quiet_buffer (bs := bs) s s1 1 ltac:(lia) bs_aligned Hr1 Hq1) as Hq2.
  apply wp_bnd. eapply num_dir_blocks_spec; [exact Hd|exact Hq2|].
  replace (Z.to_nat (lenZ rs)) with (length rs) by (unfold lenZ; lia).
  eapply (lookup_blocks_spec s ino rs nm rs []); [done|done|done|done|done|lia|done].
Qed.

(** C11: [ext2_lookup] in a directory of any number of blocks, reached through its
    inode and the block map, returns the inode of the first live record with
    exactly the given name, or [ERR_NOT_FOUND] when there is none, and changes
    neither blocks nor metadata. *)
Theorem ext2_lookup_correct s ino rs nm :
  dir_ok s ino rs -> nul_free nm -> room bs s (2 + 2 * lenZ rs) ->
  wp (ext2_lookup now ino (nm ++ [0])) s (fun s' r =>
    quiet s s' (2 + 2 * lenZ rs) /\ r = found (concat rs) nm).
Proof. apply ext2_lookup_spec. Qed.

(** ** Adding a name *)

(** The blocks through which the directory's data is found are none of [X]. *)
Definition dir_clear s ino (X : Z -> Prop) : Prop :=
  (iblk (inode_at (bs := bs) s ino) 12 <> 0 -> ~ X (iblk (inode_at (bs := bs) s ino) 12)) /\
  double_apart (bs := bs) s (inode_at (bs := bs) s ino) X.

(** The data blocks of the directory. *)
Definition dir_data s ino rs (b : Z) : Prop :=
  exists i : nat, (i < length rs)%nat /\ bmap (bs := bs) s (inode_at (bs := bs) s ino) (Z.of_nat i) = inr b.

Lemma bmap_frame s s' inode (X : Z -> Prop) fb :
  indirects_ok (bs := bs) s inode -> (iblk inode 12 <> 0 -> ~ X (iblk inode 12)) ->
  double_apart (bs := bs) s inode X -> (forall b, st_ok b -> ~ X b -> view s' b = view s b) -> is_u32 fb ->
  bmap (bs := bs) s' inode fb = bmap (bs := bs) s inode fb.
Proof.
  intros Hi H12 Hd Hv Hfb. red in Hfb. unfold bmap. case_decide; [done|]. case_decide.
  - unfold entry. case_match; [done|]. rewrite Hv; [done|apply Hi; lia|apply H12; lia].
  - case_decide; [|done]. cbv zeta. f_equal. eapply bmap_double_frame; [lia|done|done|exact Hd|done|done|lia].
Qed.

(** Steps that leave the directory's inode and indirect blocks alone. *)
Lemma dir_frame s s' ino rs rs' (X : Z -> Prop) :
  dir_ok s ino rs -> fs_ok s' -> itable (bs := bs) s' -> valid_ino s' ino ->
  inode_at (bs := bs) s' ino = inode_at (bs := bs) s ino ->
  (forall b, st_ok b -> ~ X b -> view s' b = view s b) -> dir_clear s ino X -> length rs' = length rs ->
  (forall i b recs, rs' !! i = Some recs -> bmap (bs := bs) s (inode_at (bs := bs) s ino) (Z.of_nat i) = inr b ->
     b <> 0 -> st_ok b -> chain bs false (view s' b) 0 recs) ->
  dir_ok s' ino rs'.
Proof.
  intros Hd Hs' Ht' Hv' Ei Hview [H12 Hap] Hlen Hch. pose proof (dir_count _ _ _ Hd) as Hcnt.
  destruct (double_frame (bs := bs) s s' (inode_at (bs := bs) s ino) (inode_at (bs := bs) s ino) X) as [Hi' _];
    [by apply (dr_ind _ _ _ Hd)|done|done|done|by apply (dr_ind _ _ _ Hd)|].
  split; rewrite ?Ei; try done; [by apply (dr_u32 _ _ _ Hd)|by apply (dr_mode _ _ _ Hd)|by apply (dr_size _ _ _ Hd)| |].
  - rewrite <- (dr_len _ _ _ Hd). unfold lenZ. by rewrite Hlen.
  - intros i recs Hr. pose proof (lookup_lt_Some _ _ _ Hr) as Hlt. rewrite Hlen in Hlt.
    destruct (lookup_lt_is_Some_2 rs i Hlt) as [recs0 Hr0].
    destruct (dr_block _ _ _ Hd i recs0 Hr0) as (b & Hb & Hb0 & Hok & _). exists b.
    split; [|eauto using Hch]. rewrite <- Hb. eapply bmap_frame; [by apply (dr_ind _ _ _ Hd)|done|done|done|].
    unfold lenZ in Hcnt. red. lia.
Qed.

(** No block of the directory has a gap that a name of [n] bytes fills to the last byte. *)
Definition dir_roomy s ino rs (n : Z) : Prop :=
  forall i recs b, rs !! i = Some recs -> bmap (bs := bs) s (inode_at (bs := bs) s ino) (Z.of_nat i) = inr b ->
    roomy n (view s b) 0 recs.

Lemma dir_roomy_mod s ino rs n : dir_ok s ino rs -> 0 <= n -> (8 + n) mod 4 <> 0 -> dir_roomy s ino rs n.
Proof.
  intros Hd Hn Hm i recs b Hr Hb. destruct (dr_block _ _ _ Hd i recs Hr) as (b' & Hb' & _ & _ & Hc).
  rewrite Hb in Hb'. injection Hb' as <-. eapply roomy_mod; [done|done|exact Hc].
Qed.

(** One block of a directory, with the record put in. *)
Definition record_added s ino rs s' k newino nm : Prop :=
  exists i b l1 l2 buf,
    rs !! i = Some (l1 ++ l2) /\ bmap (bs := bs) s (inode_at (bs := bs) s ino) (Z.of_nat i) = inr b /\
    b <> 0 /\ st_ok b /\
    wrote s s' k b buf /\ chain bs false buf 0 (l1 ++ (newino, nm) :: l2).

Lemma add_blocks_spec s0 pino rs nm newino ft rs2 : forall rs1 s k bb,
  dir_ok s0 pino rs -> rs = rs1 ++ rs2 -> nul_free nm -> lenZ nm <= 255 -> dir_roomy s0 pino rs (lenZ nm) ->
  is_u32 newino -> quiet s0 s k -> lenZ bb = bs -> 0 <= k -> room bs s0 (k + 2 * lenZ rs2) ->
  wp (add_blocks now (length rs2) pino (inode_at (bs := bs) s0 pino) bb (nm ++ [0]) newino ft (lenZ nm)
        (align4 (8 + lenZ nm)) (lenZ rs1)) s (fun s' r =>
    match r with
    | inl e => e = ERR_NO_MEMORY /\ quiet s0 s' (k + 2 * lenZ rs2)
    | inr _ => record_added s0 pino rs s' (k + 2 * lenZ rs2) newino nm
    end).
Proof.
  induction rs2 as [|recs rs2 IH]; intros rs1 s k bb Hd -> Hn Hnm Hmod Hino Hq Hbb Hk Hr; cbn [length add_blocks].
  { apply wp_err. split; [done|]. eapply quiet_weaken; [lia|done|unfold lenZ; cbn [length]; lia]. }
  pose proof (dir_count _ _ _ Hd) as Hcnt. rewrite lenZ_app in Hcnt.
  assert (lenZ (recs :: rs2) = 1 + lenZ rs2) as El by (unfold lenZ; cbn; lia). rewrite El in *.
  pose proof (lenZ_nonneg rs1). pose proof (lenZ_nonneg rs2). unfold room in Hr.
  destruct (dr_block _ _ _ Hd (length rs1) recs) as (b & Hb & Hb0 & Hbok & Hc); [by rewrite list_lookup_middle|].
  pose proof (Hmod (length rs1) recs b (list_lookup_middle _ _ _ _ eq_refl) Hb) as Hroomy.
  apply wp_bnd, wp_try. eapply (ext2_get_block_num_spec now); [lia|done|exact Hq| |by apply (dr_ind _ _ _ Hd)|red; lia|unfold room; nia|].
  { by eapply dir_inode_len. }
  intros s1 Hq1. change (lenZ rs1) with (Z.of_nat (length rs1)) at 1. rewrite Hb.
  apply wp_bnd. eapply wp_lft; [done|]. apply wp_bnd, wp_gets. rewrite (ok_bs _ (quiet_ok _ _ _ Hq1)).
  rewrite (proj2 (Z.eqb_neq b 0)) by done.
  apply wp_bnd, wp_bnd, wp_bread; [lia|by eapply quiet_ok|done|done|]. intros c Hcs Hv. apply wp_ret.
  pose proof (quiet_read _ _ _ _ Hq1 Hcs Hv) as Hq2. rewrite (quiet_view _ _ _ _ Hq1) by done.
  pose proof (st_view_len (block_device s0) b (ok_store _ (dr_fs _ _ _ Hd)) Hbok) as Hlv. fold (view s0 b) in Hlv.
  apply wp_bnd. destruct (dir_insert_defined bs bs_range ltac:(dlia) (view s0 b) 0 recs newino ft nm (Z.to_nat bs))
    as [Hins|[buf Hins]]; [done..|lia| |]; (eapply wp_lft; [exact Hins|]).
  - replace (lenZ rs1 + 1) with (lenZ (rs1 ++ [recs])) by (rewrite lenZ_app; done).
    eapply wp_mono; [eapply (IH (rs1 ++ [recs]) _ (k + 2)); [done|by rewrite <- app_assoc|done|done|done|done|done|done|lia|unfold room; nia]|].
    intros s' [e|v]; [intros (-> & Hq'); split; [done|]; eapply quiet_weaken; [lia|done|lia]|].
    replace (k + 2 + 2 * lenZ rs2) with (k + 2 * (1 + lenZ rs2)) by lia. done.
  - destruct (insert_chain bs false bs_range ltac:(dlia) _ _ _ _ _ _ _ _ buf Hc Hlv Hino Hn Hnm Hroomy Hins eq_refl)
      as (l1 & l2 & -> & Hc' & Hlb & _).
    apply wp_bwrite; [lia|by eapply quiet_ok|done|congruence|]. intros c2 Hc2 Hv2.
    exists (length rs1), b, l1, l2, buf. split; [by rewrite list_lookup_middle|]. split; [done|]. split; [done|]. split; [done|].
    split; [|done]. eapply wrote_quiet; [|exact Hc2|exact Hv2]. eapply quiet_weaken; [lia|exact Hq2|lia].
Qed.

Lemma ext2_add_dir_entry_spec s pino rs nm newino ft :
  dir_ok s pino rs -> nul_free nm -> lenZ nm <= 255 -> dir_roomy s pino rs (lenZ nm) -> is_u32 newino -> rs <> [] ->
  room bs s (2 + 2 * lenZ rs) ->
  wp (ext2_add_dir_entry now pino (nm ++ [0]) newino ft) s (fun s' r =>
    match r with
    | inl e => e = ERR_NO_MEMORY /\ quiet s s' (2 + 2 * lenZ rs)
    | inr _ => record_added s pino rs s' (2 + 2 * lenZ rs) newino nm
    end).
Proof.
  intros Hd Hn Hnm Hmod Hino Hne Hr. pose proof (lenZ_nonneg rs). pose proof (lenZ_nonneg nm). unfold room in Hr.
  unfold ext2_add_dir_entry. apply wp_bnd.
  eapply wp_mono; [apply ext2_read_inode_spec; [lia|done|by apply (dr_fs _ _ _ Hd)|by apply (dr_table _ _ _ Hd)|by apply (dr_u32 _ _ _ Hd)|unfold room; nia]|].
  intros s1 r (Hq1 & ->). rewrite decide_True by by apply (dr_valid _ _ _ Hd).
  apply wp_bnd. eapply wp_lft; [by apply strlen_spec|].
  apply wp_bnd, wp_gets. rewrite (ok_bs _ (quiet_ok _ _ _ Hq1)).
  assert (room bs s1 1) as Hr1 by (eapply quiet_room; [exact Hq1|unfold room; nia]).
  apply wp_bnd, wp_alloc_buffer; [lia|done|by eapply quiet_ok|done|]. intros bb Hbb _.
  pose proof (quiet_buffer (bs := bs) s s1 1 ltac:(lia) bs_aligned Hr1 Hq1) as Hq2.
  apply wp_bnd. eapply num_dir_blocks_spec; [exact Hd|exact Hq2|].
  rewrite (proj2 (Z.eqb_neq (lenZ rs) 0)) by (destruct rs; [done|unfold lenZ; cbn; lia]).
  replace (Z.to_nat (lenZ rs)) with (length rs) by (unfold lenZ; lia). rewrite (u32_id (lenZ nm)) by (red; lia).
  rewrite u32_id by (red; lia).
  eapply (add_blocks_spec s pino rs nm newino ft rs []); [done|done|done|done|done|done|done|done|lia|done].
Qed.

(** The data blocks of a directory are pairwise distinct, hold neither inodes nor
    the map of the directory. *)
Record dir_sep s ino rs : Prop := {
  ds_inj i j b : (i < length rs)%nat -> (j < length rs)%nat ->
    bmap (bs := bs) s (inode_at (bs := bs) s ino) (Z.of_nat i) = inr b ->
    bmap (bs := bs) s (inode_at (bs := bs) s ino) (Z.of_nat j) = inr b -> i = j;
  ds_table b j : dir_data s ino rs b -> valid_ino s j -> b <> iblock (bs := bs) s j;
  ds_clear : dir_clear s ino (dir_data s ino rs)
}.

Lemma find_rec_concat rs i l1 l2 ino nm nm' :
  rs !! i = Some (l1 ++ l2) -> ino <> 0 -> find_rec (concat rs) nm = None ->
  find_rec (concat (<[i := l1 ++ (ino, nm) :: l2]> rs)) nm' =
    if decide (nm' = nm) then Some ino else find_rec (concat rs) nm'.
Proof.
  intros Hi Hino Hnone. pose proof (lookup_lt_Some _ _ _ Hi) as Hlt. rewrite insert_take_drop by done.
  assert (concat rs = (concat (take i rs) ++ l1) ++ (l2 ++ concat (drop (S i) rs))) as E.
  { rewrite <- (take_drop_middle rs i _ Hi) at 1. rewrite concat_app. cbn [concat]. by rewrite <- !app_assoc. }
  rewrite E in Hnone |- *. rewrite <- (find_rec_insert _ _ ino nm nm') by done. f_equal.
  rewrite concat_app. cbn [concat]. by rewrite <- !app_assoc.
Qed.

Lemma dir_added s ino rs s' k newino nm :
  dir_ok s ino rs -> dir_sep s ino rs -> record_added s ino rs s' k newino nm -> newino <> 0 ->
  find_rec (concat rs) nm = None ->
  exists rs', dir_ok s' ino rs' /\ length rs' = length rs /\
    (forall j, valid_ino s j -> valid_ino s' j /\ inode_at (bs := bs) s' j = inode_at (bs := bs) s j) /\
    forall nm', find_rec (concat rs') nm' = if decide (nm' = nm) then Some newino else find_rec (concat rs) nm'.
Proof.
  intros Hd Hsep (i & b & l1 & l2 & buf & Hi & Hb & Hb0 & Hok & Hw & Hc) Hnew Hnone.
  pose proof (lookup_lt_Some _ _ _ Hi) as Hlt. exists (<[i := l1 ++ (newino, nm) :: l2]> rs).
  pose proof (wr_moved _ _ _ _ _ Hw) as [Hs' Eg _ Hv].
  destruct (inode_geometry (bs := bs) s s' (wr_sb _ _ _ _ _ Hw) (wr_bg _ _ _ _ _ Hw) Eg) as (Eb & Eo & Ev & Et).
  assert (dir_data s ino rs b) as Hdb by by exists i.
  assert (forall j, valid_ino s j -> inode_at (bs := bs) s' j = inode_at (bs := bs) s j) as Hat.
  { intros j Hj. unfold inode_at. rewrite Eb, Eo, Hv by by apply (it_ok _ (dr_table _ _ _ Hd)).
    rewrite decide_False; [done|]. by apply (ds_table _ _ _ Hsep). }
  split; [|split; [apply length_insert|split; [intros j Hj; split; [by apply Ev|by apply Hat]|intros nm'; by apply find_rec_concat]]].
  destruct (ds_clear _ _ _ Hsep) as [C1 C2].
  apply (dir_frame s s' ino rs _ (fun x => x = b)); [done|done| | | | |split|apply length_insert|].
  - by apply Et, (dr_table _ _ _ Hd).
  - by apply Ev, (dr_valid _ _ _ Hd).
  - by apply Hat, (dr_valid _ _ _ Hd).
  - intros b' Hb' Hne. rewrite Hv by done. by rewrite decide_False by auto.
  - intros H12 E. cbv beta in E. apply (C1 H12). by rewrite E.
  - intros H13. destruct (C2 H13) as [X1 X2]. split; [intros E; cbv beta in E; by rewrite E in X1|].
    intros idx Hidx Hn0 E. cbv beta in E. eapply X2; [done|done|by rewrite E].
  - intros i' b' recs Hr Hb' Hb0' Hok'. rewrite Hv by done. destruct (decide (i' = i)) as [->|Hne].
    + rewrite list_lookup_insert_eq in Hr by done. rewrite Hb in Hb'. injection Hb' as <-.
      rewrite decide_True by done. by injection Hr as <-.
    + rewrite list_lookup_insert_ne in Hr by done. pose proof (lookup_lt_Some _ _ _ Hr).
      rewrite decide_False; [|intros <-; by destruct Hne; eapply (ds_inj _ _ _ Hsep)].
      destruct (dr_block _ _ _ Hd i' recs Hr) as (b2 & Hb2 & _ & _ & Hc2). congruence.
Qed.

End dirs.
