(* ===== verification/Ext2Create.v ===== *)
(** * Creating a file and finding it: [ext2_create] of [src/fs/ext2/dir.c]

    The composition of the inode allocator, the inode table and the directory: a
    created file is found under its name, with the inode that was written for it,
    and every other name is found as before. *)
From S2P Require Import Prelude KernelLib Ext2Base Ext2Alloc Ext2Inode Ext2File Ext2Write Ext2Dir Ext2DirProofs.
Import Memory CString Bitmap Chain.
Open Scope Z_scope.
Open Scope ext2_scope.

Section create.
Context {C : Type} {B : BlockStore C} {bs : Z} {L : BlockStoreLaws C bs} (now : Z).
Hypothesis bs_range : 0 < bs < 65536.
Hypothesis bs_aligned : bs mod 16 = 0.
Implicit Types (s : ext2_fs C) (nm : bytes) (rs : list (list (Z * bytes))) (ino g bit : Z).

(** Inode [ino] is bit [bit] of group [g], and free. *)
Definition free_inode s g bit ino : Prop :=
  0 <= g < num_block_groups s /\ 0 <= bit < sbv s s_inodes_per_group /\
  ino = g * sbv s s_inodes_per_group + bit + 1 /\ test_bit (bitmap_of inodes s g) bit = Some false.

(** A directory on a device whose inode bitmaps, inode tables and directory blocks
    are apart. *)
Record tree_ok s pino rs : Prop := {
  tr_dir : dir_ok (bs := bs) s pino rs;
  tr_sep : dir_sep (bs := bs) s pino rs;
  tr_geometry : geometry (bs := bs) inodes s;
  tr_bitmap g : 0 <= g < num_block_groups s ->
    ~ dir_data (bs := bs) s pino rs (bgv s g bg_inode_bitmap) /\
    forall j, valid_ino s j -> bgv s g bg_inode_bitmap <> iblock (bs := bs) s j;
  tr_clear : dir_clear (bs := bs) s pino (fun b =>
    (exists g, 0 <= g < num_block_groups s /\ b = bgv s g bg_inode_bitmap) \/
    exists j, valid_ino s j /\ b = iblock (bs := bs) s j);
  tr_free g bit ino : free_inode s g bit ino -> valid_ino s ino /\ ino <> pino /\ is_u32 ino
}.

Lemma kind_inodes : kind_ok inodes.
Proof. by right. Qed.

(** ** The steps of a creation *)
Lemma ext2_alloc_inode_spec s pino rs (Q : ext2_fs C -> Z + Z -> Prop) :
  tree_ok s pino rs -> room bs s (num_block_groups s) ->
  (forall s', Q s' (inl ERR_NO_MEMORY)) ->
  (forall s' g bit bm ino, free_inode s g bit ino -> counted (bs := bs) inodes s s' g bm (-1) (num_block_groups s) -> Q s' (inr ino)) ->
  wp (ext2_alloc_inode now) s Q.
Proof.
  intros Ht Hr Herr HQ. pose proof (dr_fs _ _ _ (tr_dir _ _ _ Ht)) as Hs. destruct (ok_groups _ Hs) as [Hg _].
  unfold ext2_alloc_inode. apply wp_bnd, wp_gets. apply wp_bnd.
  eapply wp_mono; [apply alloc_loop_spec; [lia|done|by right|done|by apply (tr_geometry _ _ _ Ht)|lia|lia|by rewrite Z2Nat.id]|].
  rewrite Z2Nat.id by done. intros s' [e|[g bit]]; cbn [alloc_post]; [by intros (-> & _)|].
  intros (Hg' & Hbit & Hfree & _ & _ & bm & _ & Hct).
  apply wp_bnd, wp_sbf; [by eapply counted_ok|done|]. apply wp_ret. rewrite (counted_sbv _ _ _ _ _ _ _ _ Hct) by done.
  cbn [fst snd]. assert (free_inode s g bit (g * sbv s s_inodes_per_group + bit + 1)) as Hf by done.
  rewrite u32_id by apply (tr_free _ _ _ Ht _ _ _ Hf). by apply (HQ s' g bit bm).
Qed.

(** The allocation of an inode moves no inode and changes one bitmap. *)
Lemma counted_inodes s s' g bm d n :
  counted (bs := bs) inodes s s' g bm d n ->
  (forall j, iblock (bs := bs) s' j = iblock (bs := bs) s j) /\ (forall j, ioff (bs := bs) s' j = ioff (bs := bs) s j) /\
  (forall j, valid_ino s' j <-> valid_ino s j) /\ (itable (bs := bs) s -> itable (bs := bs) s').
Proof.
  intros Hct. pose proof (counted_sbv inodes s s' g bm d n) as Hsb.
  pose proof (mv_groups _ _ _ _ (ct_moved _ _ _ _ _ _ _ Hct)) as Eg.
  assert (forall g', bgv s' g' bg_inode_table = bgv s g' bg_inode_table) as Hbg.
  { intros g'. unfold bgv. f_equal. eapply getf_setf_array; [apply (ct_bg _ _ _ _ _ _ _ Hct)|done|done|by right]. }
  assert (forall j, igroup s' j = igroup s j) as Hig by (intros; unfold igroup; by rewrite (Hsb _ Hct)).
  assert (isize s' = isize s) as Hz by (unfold isize; by rewrite !(Hsb _ Hct)).
  assert (forall j, iblock (bs := bs) s' j = iblock (bs := bs) s j) as Hb.
  { intros. unfold iblock. rewrite Hbg, Hig, Hz. unfold iindex. by rewrite (Hsb _ Hct). }
  assert (forall j, valid_ino s' j <-> valid_ino s j) as Hv.
  { intros. unfold valid_ino. by rewrite Hig, Eg, (Hsb _ Hct). }
  split; [done|]. split; [intros; unfold ioff, iindex; by rewrite Hz, (Hsb _ Hct)|]. split; [done|].
  intros [H1 H2 H3 H4]. split; [by rewrite (Hsb _ Hct)|by rewrite Hz|..].
  - intros j. rewrite Hv, Hb. apply H3.
  - intros j j'. rewrite !Hv, !Hb, !Hig. apply H4.
Qed.

(** The bitmaps and tables an allocation and the write of an inode touch. *)
Definition meta s (b : Z) : Prop :=
  (exists g, 0 <= g < num_block_groups s /\ b = bgv s g bg_inode_bitmap) \/
  exists j, valid_ino s j /\ b = iblock (bs := bs) s j.

Lemma double_apart_or s inode (X Y : Z -> Prop) :
  double_apart (bs := bs) s inode X -> double_apart (bs := bs) s inode Y ->
  double_apart (bs := bs) s inode (fun b => X b \/ Y b).
Proof.
  intros HX HY H0. destruct (HX H0) as [X1 X2], (HY H0) as [Y1 Y2]. split; [tauto|].
  intros idx Hidx Hn [?|?]; [by eapply X2|by eapply Y2].
Qed.

(** The device after the new inode was written. *)
Record settled s s2 pino ino (inode : bytes) : Prop := {
  se_fs : fs_ok s2;
  se_view b : st_ok b -> ~ meta s b -> view s2 b = view s b;
  se_parent : inode_at (bs := bs) s2 pino = inode_at (bs := bs) s pino;
  se_inode : inode_at (bs := bs) s2 ino = inode;
  se_iblock j : iblock (bs := bs) s2 j = iblock (bs := bs) s j;
  se_valid j : valid_ino s2 j <-> valid_ino s j;
  se_table : itable (bs := bs) s2;
  se_geometry : geometry (bs := bs) inodes s2;
  se_groups : num_block_groups s2 = num_block_groups s
}.

Lemma inode_settled s s1 s2 pino rs g bit ino bm n inode :
  tree_ok s pino rs -> free_inode s g bit ino -> counted (bs := bs) inodes s s1 g bm (-1) n ->
  inode_written (bs := bs) s1 s2 ino inode -> settled s s2 pino ino inode.
Proof.
  intros Ht Hf Hct (Hs2 & E1 & E2 & E3 & _ & _ & Hat & Hv2). pose proof (tr_dir _ _ _ Ht) as Hd.
  destruct (tr_free _ _ _ Ht _ _ _ Hf) as (Hvi & Hne & _). destruct Hf as (Hg & _).
  pose proof (ct_moved _ _ _ _ _ _ _ Hct) as [Hs1 Eg1 _ Hv1].
  destruct (counted_inodes s s1 g bm (-1) n Hct) as (B1 & O1 & V1 & T1).
  destruct (inode_geometry (bs := bs) s1 s2 E1 E2 E3) as (B2 & O2 & V2 & T2).
  pose proof (dr_table _ _ _ Hd) as Hit. pose proof (dr_valid _ _ _ Hd) as Hpv.
  destruct (tr_bitmap _ _ _ Ht g Hg) as [_ Hnb].
  split; [done|..|by apply T2, T1| |congruence].
  - intros b Hb Hm. rewrite Hv2; [|done|intros ->; apply Hm; right; exists ino; by rewrite B1].
    rewrite Hv1 by done. rewrite decide_False; [done|]. intros <-. apply Hm. left. by exists g.
  - rewrite Hat by by rewrite V1. rewrite decide_False by auto. unfold inode_at. rewrite B1, O1, Hv1 by by apply (it_ok _ Hit).
    by rewrite decide_False by by apply Hnb.
  - rewrite Hat by by rewrite V1. by rewrite decide_True.
  - intros j. by rewrite B2.
  - intros j. by rewrite V2.
  - assert (geometry (bs := bs) inodes s1) as [G1 G2 G3] by (eapply counted_geometry; [by right|done|by apply (tr_geometry _ _ _ Ht)]).
    assert (forall f, sbv s2 f = sbv s1 f) as Hsb by (intros; unfold sbv; congruence).
    assert (forall g f, bgv s2 g f = bgv s1 g f) as Hbg by (intros; unfold bgv; congruence).
    split; [intros g'; rewrite E3, Hbg; apply G1|intros g1 g2; rewrite E3, !Hbg; apply G2|by rewrite Hsb].
Qed.

Lemma data_not_meta s pino rs b : tree_ok s pino rs -> dir_data (bs := bs) s pino rs b -> ~ meta s b.
Proof.
  intros Ht Hb [(g' & Hg' & ->)|(j & Hj & ->)]; [by destruct (tr_bitmap _ _ _ Ht g' Hg')|].
  by apply (ds_table _ _ _ (tr_sep _ _ _ Ht) _ j) in Hb as [].
Qed.

Lemma bmap_settled s s2 pino rs ino inode i :
  tree_ok s pino rs -> settled s s2 pino ino inode -> (i < length rs)%nat ->
  bmap (bs := bs) s2 (inode_at (bs := bs) s2 pino) (Z.of_nat i) = bmap (bs := bs) s (inode_at (bs := bs) s pino) (Z.of_nat i).
Proof.
  intros Ht Hse Hi. rewrite (se_parent _ _ _ _ _ Hse). pose proof (tr_dir _ _ _ Ht) as Hd. destruct (tr_clear _ _ _ Ht) as [C1 C2].
  pose proof (dir_count bs_range _ _ _ Hd) as Hcnt. unfold lenZ in Hcnt.
  eapply (bmap_frame bs_range bs_aligned s s2 _ (meta s)); [by apply (dr_ind _ _ _ Hd)|done|done|by apply (se_view _ _ _ _ _ Hse)|red; lia].
Qed.

Lemma roomy_settled s s2 pino rs ino inode n :
  tree_ok s pino rs -> settled s s2 pino ino inode -> dir_roomy (bs := bs) s pino rs n -> dir_roomy (bs := bs) s2 pino rs n.
Proof.
  intros Ht Hse Hro i recs b Hr. pose proof (lookup_lt_Some _ _ _ Hr) as Hi.
  rewrite (bmap_settled s s2 pino rs ino inode) by done. intros Hb.
  destruct (dr_block _ _ _ (tr_dir _ _ _ Ht) i recs Hr) as (b' & Hb' & _ & Hok & _). assert (b' = b) as -> by congruence.
  rewrite (se_view _ _ _ _ _ Hse); [by apply (Hro i)|done|]. eapply data_not_meta; [done|]. by exists i.
Qed.

(** The directory is what it was. *)
Lemma dir_settled s s2 pino rs ino inode :
  tree_ok s pino rs -> settled s s2 pino ino inode ->
  dir_ok (bs := bs) s2 pino rs /\ dir_sep (bs := bs) s2 pino rs.
Proof.
  intros Ht Hse. pose proof (tr_dir _ _ _ Ht) as Hd. pose proof (se_parent _ _ _ _ _ Hse) as Ei.
  pose proof (se_view _ _ _ _ _ Hse) as Hview. pose proof (dr_ind _ _ _ Hd) as Hind.
  destruct (tr_clear _ _ _ Ht) as [C1 C2]. destruct (ds_clear _ _ _ (tr_sep _ _ _ Ht)) as [D1 D2].
  assert (forall i, (i < length rs)%nat -> bmap (bs := bs) s2 (inode_at (bs := bs) s2 pino) (Z.of_nat i) =
    bmap (bs := bs) s (inode_at (bs := bs) s pino) (Z.of_nat i)) as Hbm.
  { intros i Hi. by eapply bmap_settled. }
  assert (forall b, dir_data (bs := bs) s2 pino rs b <-> dir_data (bs := bs) s pino rs b) as Hdd.
  { intros b. split; intros (i & Hi & Hb); exists i; (split; [done|]); [by rewrite <- Hbm|by rewrite Hbm]. }
  split.
  - eapply (dir_frame bs_range bs_aligned s s2 pino rs rs (meta s));
      [done|by apply Hse|by apply Hse|by apply (se_valid _ _ _ _ _ Hse), (dr_valid _ _ _ Hd)|done|done|done|done|].
    intros i b recs Hr Hb Hb0 Hok. destruct (dr_block _ _ _ Hd i recs Hr) as (b' & Hb' & _ & _ & Hc).
    assert (b' = b) as -> by congruence. rewrite Hview; [done|done|]. eapply data_not_meta; [done|].
    exists i. split; [|done]. by eapply lookup_lt_Some.
  - split.
    + intros i j b Hi Hj. rewrite !Hbm by done. by apply (ds_inj _ _ _ (tr_sep _ _ _ Ht)).
    + intros b j Hb. rewrite (se_valid _ _ _ _ _ Hse), (se_iblock _ _ _ _ _ Hse).
      by apply (ds_table _ _ _ (tr_sep _ _ _ Ht)), Hdd.
    + destruct (double_frame (bs := bs) s s2 (inode_at (bs := bs) s pino) (inode_at (bs := bs) s pino)
        (fun b => meta s b \/ dir_data (bs := bs) s pino rs b)) as [_ Hap];
        [done|by apply double_apart_or|done|intros b Hb Hn; apply Hview; tauto|by apply Hind|].
      split; rewrite Ei; [intros H12 Hdb; apply (D1 H12); by apply Hdd|].
      apply Hap. intros b Hb. right. by apply Hdd.
Qed.

(** ** The new inode *)
Lemma iset_ok f v inode :
  lenZ inode = sizeof_inode -> in_struct sizeof_inode f = true -> 0 <= v < 256 ^ Z.of_nat (f_width f) ->
  exists inode', iset f v inode = Some inode' /\ lenZ inode' = sizeof_inode /\ getf inode' 0 f = Some v /\
    forall f', apart f f' = true -> getf inode' 0 f' = getf inode 0 f'.
Proof.
  intros Hl Hf Hv. destruct (setf_inode inode f v Hl Hf) as [i' Hi']. exists i'. split; [done|].
  unfold setf in Hi'. split; [rewrite (st_length _ _ _ _ _ Hi'); done|]. split; [by apply (ld_st_same _ _ _ _ _ Hi')|].
  intros f' Ha. unfold apart in Ha. eapply getf_setf_other; [exact Hi'|lia].
Qed.

Lemma new_inode_ok type mode size links blocks :
  is_u32 size -> is_u16 links -> is_u32 blocks ->
  exists inode, new_inode now type mode size links blocks = Some inode /\ lenZ inode = sizeof_inode /\
    getf inode 0 i_mode = Some (u16 (Z.lor type (Z.land mode 4095))) /\ getf inode 0 i_size = Some size /\
    getf inode 0 i_links_count = Some links.
Proof.
  intros Hs Hl Hb. unfold new_inode. cbn [mbind option_bind].
  pose proof (u16_range (Z.lor type (Z.land mode 4095))) as Hm. pose proof (u32_range now) as Hn.
  destruct (iset_ok i_mode (u16 (Z.lor type (Z.land mode 4095))) (replicate (Z.to_nat sizeof_inode) 0)) as (n1 & -> & L1 & G1 & _);
    [by rewrite lenZ_replicate|done|done|]. cbn [mbind option_bind].
  destruct (iset_ok i_uid 0 n1 L1) as (n2 & -> & L2 & _ & F2); [done|done|]. cbn [mbind option_bind].
  destruct (iset_ok i_gid 0 n2 L2) as (n3 & -> & L3 & _ & F3); [done|done|]. cbn [mbind option_bind].
  destruct (iset_ok i_size size n3 L3) as (n4 & -> & L4 & G4 & F4); [done|done|]. cbn [mbind option_bind].
  destruct (iset_ok i_atime (u32 now) n4 L4) as (n5 & -> & L5 & _ & F5); [done|done|]. cbn [mbind option_bind].
  destruct (iset_ok i_ctime (u32 now) n5 L5) as (n6 & -> & L6 & _ & F6); [done|done|]. cbn [mbind option_bind].
  destruct (iset_ok i_mtime (u32 now) n6 L6) as (n7 & -> & L7 & _ & F7); [done|done|]. cbn [mbind option_bind].
  destruct (iset_ok i_links_count links n7 L7) as (n8 & -> & L8 & G8 & F8); [done|done|]. cbn [mbind option_bind].
  destruct (iset_ok i_blocks blocks n8 L8) as (n9 & -> & L9 & _ & F9); [done|done|].
  exists n9. split; [done|]. split; [done|].
  rewrite !(F9 i_mode), !(F9 i_size), !(F9 i_links_count) by done.
  rewrite (F8 i_mode), (F7 i_mode), (F6 i_mode), (F5 i_mode), (F4 i_mode), (F3 i_mode), (F2 i_mode) by done.
  by rewrite (F8 i_size), (F7 i_size), (F6 i_size), (F5 i_size) by done.
Qed.

Lemma drop_inode_ok s ino (Q : ext2_fs C -> Z + unit -> Prop) :
  fs_ok s -> geometry (bs := bs) inodes s -> 0 < sbv s s_inodes_per_group -> is_u32 ino -> room bs s 1 ->
  (forall s', Q s' (inr tt)) -> wp (drop_inode now ino) s Q.
Proof.
  intros Hs Hge Hper Hi Hr HQ. red in Hi. unfold drop_inode. apply wp_bnd, wp_try.
  apply wp_mono with (Q := fun _ _ => True); [|intros; by apply wp_ret].
  unfold ext2_free_inode. apply wp_bnd, wp_sbf; [done..|]. case_match; [by apply wp_err|].
  unfold ext2_get_inode_group. apply wp_bnd, wp_bnd, wp_sbf; [done..|].
  eapply wp_lft; [unfold udiv; by rewrite (proj2 (Z.eqb_neq _ _)) by lia|].
  apply wp_bnd, wp_gets. destruct (Z.leb_spec (num_block_groups s) (u32 (ino - 1) / sbv s s_inodes_per_group)); [by apply wp_err|].
  apply wp_bnd, wp_sbf; [done..|]. apply wp_bnd.
  eapply wp_lft; [unfold umod; by rewrite (proj2 (Z.eqb_neq _ _)) by lia|].
  pose proof (ge_per _ _ Hge) as Hp8. cbn [k_per_group inodes] in Hp8.
  pose proof (Z.mod_pos_bound (u32 (ino - 1)) (sbv s s_inodes_per_group) Hper).
  eapply wp_mono; [apply free_bit_spec; [lia|done|by right|done|done| |lia|done]|done].
  split; [apply Z.div_pos; [apply u32_range|lia]|done].
Qed.

(** ** The whole call *)
Lemma record_heap s pino rs s' k newino nm :
  record_added (bs := bs) s pino rs s' k newino nm -> heap_pos s' <= heap_pos s + k * bs.
Proof. intros (i & b & l1 & l2 & buf & _ & _ & _ & _ & Hw & _). pose proof (mv_heap _ _ _ _ (wr_moved _ _ _ _ _ Hw)). lia. Qed.

(** The names and inodes after the record was added. *)
Lemma created_found s s' pino rs nm ino :
  dir_ok (bs := bs) s pino rs -> dir_sep (bs := bs) s pino rs ->
  record_added (bs := bs) s pino rs s' (2 + 2 * lenZ rs) ino nm -> valid_ino s ino -> is_u32 ino -> ino <> 0 ->
  find_rec (concat rs) nm = None -> room bs s (4 + 4 * lenZ rs) ->
  (forall nm', nul_free nm' -> wp (ext2_lookup now pino (nm' ++ [0])) s' (fun _ r' =>
     r' = if decide (nm' = nm) then inr ino else found (concat rs) nm')) /\
  wp (ext2_read_inode now ino) s' (fun _ r' => r' = inr (inode_at (bs := bs) s ino)).
Proof.
  intros Hd Hsep Hra Hv Hu H0 Hnone Hr. pose proof (lenZ_nonneg rs) as Hl. unfold room in Hr.
  pose proof (record_heap _ _ _ _ _ _ _ Hra) as Hh.
  destruct (dir_added bs_range bs_aligned s pino rs s' _ ino nm Hd Hsep Hra) as (rs' & Hd' & Hlen & Hat & Hfind); [done|done|].
  assert (lenZ rs' = lenZ rs) as Elr by (unfold lenZ; congruence). destruct (Hat ino Hv) as [Hv' Ei]. split.
  - intros nm' Hn'. eapply wp_mono; [apply (ext2_lookup_spec now bs_range bs_aligned s' pino rs' nm' Hd' Hn'); unfold room; nia|].
    intros s4 r (_ & ->). unfold found. rewrite Hfind. by case_decide.
  - eapply wp_mono; [apply ext2_read_inode_spec; [lia|done|by apply (dr_fs _ _ _ Hd')|by apply (dr_table _ _ _ Hd')|done|unfold room; nia]|].
    intros s4 r (_ & ->). by rewrite decide_True, Ei by done.
Qed.

(** C5: a created file is found.  Let the directory have at least one block, its blocks, inode tables and
    inode bitmaps be apart, the kernel heap have room for the buffers, and the name be new, of at most 255 characters,
    and such that no gap between records has exactly its length without padding ([dir_roomy], which
    [dir_roomy_mod] gives for every name whose length is no multiple of four; without it the NUL behind the name is
    written over the next record).  Then [ext2_create] either returns [ERR_NO_MEMORY], or an inode; in that case
    [ext2_lookup] finds the new name with that inode and every other name exactly as before, and
    [ext2_read_inode] gives an empty regular file with the permissions asked for. *)
Theorem ext2_create_lookup s pino rs nm mode :
  tree_ok s pino rs -> rs <> [] -> nul_free nm -> lenZ nm <= 255 -> dir_roomy (bs := bs) s pino rs (lenZ nm) ->
  find_rec (concat rs) nm = None -> room bs s (num_block_groups s + 6 + 4 * lenZ rs) ->
  wp (ext2_create now pino (nm ++ [0]) mode) s (fun s' r =>
    match r with
    | inl e => e = ERR_NO_MEMORY
    | inr ino =>
        (forall nm', nul_free nm' -> wp (ext2_lookup now pino (nm' ++ [0])) s' (fun _ r' =>
           r' = if decide (nm' = nm) then inr ino else found (concat rs) nm')) /\
        exists inode, wp (ext2_read_inode now ino) s' (fun _ r' => r' = inr inode) /\
          getf inode 0 i_mode = Some (u16 (Z.lor EXT2_S_IFREG (Z.land mode 4095))) /\ getf inode 0 i_size = Some 0
    end).
Proof.
  intros Ht Hne Hn Hnm Hmod Hnone Hr. pose proof (lenZ_nonneg rs) as Hl. unfold room in Hr.
  destruct (ok_groups _ (dr_fs _ _ _ (tr_dir _ _ _ Ht))) as [Hg0 _].
  unfold ext2_create. apply wp_bnd. eapply ext2_alloc_inode_spec; [exact Ht|unfold room; nia|done|].
  intros s1 g bit bm ino Hfree Hct. destruct (tr_free _ _ _ Ht _ _ _ Hfree) as (Hvi & Hnp & Hiu).
  pose proof (ct_moved _ _ _ _ _ _ _ Hct) as [Hs1 Eg1 Hh1 _].
  destruct (counted_inodes s s1 g bm (-1) _ Hct) as (_ & _ & V1 & T1).
  destruct (new_inode_ok EXT2_S_IFREG mode 0 1 0) as (inode & Hni & Hli & Hmode & Hsize & _); [done..|].
  apply wp_bnd. eapply wp_lft; [exact Hni|]. apply wp_bnd. unfold or_undo at 1. apply wp_bnd, wp_try.
  eapply wp_mono; [apply ext2_write_inode_spec; [lia|done|done|by apply T1, (dr_table _ _ _ (tr_dir _ _ _ Ht))|done|done|unfold room; nia]|].
  intros s2 r. cbv beta. rewrite decide_True by by apply V1. intros (-> & Hiw). apply wp_ret.
  pose proof (inode_settled s s1 s2 pino rs g bit ino bm _ inode Ht Hfree Hct Hiw) as Hse.
  destruct Hiw as (_ & E1 & _ & _ & _ & Hh2 & _). destruct (dir_settled s s2 pino rs ino inode Ht Hse) as [Hd2 Hsep2].
  pose proof (roomy_settled _ _ _ _ _ _ _ Ht Hse Hmod) as Hro2. apply wp_bnd. unfold or_undo. apply wp_bnd, wp_try.
  eapply wp_mono; [eapply (ext2_add_dir_entry_spec now bs_range bs_aligned s2 pino rs nm ino); [done..|unfold room; nia]|].
  intros s3 [e|v].
  - intros (-> & Hq). pose proof (mv_heap _ _ _ _ (qu_moved _ _ _ Hq)).
    apply wp_bnd, drop_inode_ok; [by eapply quiet_ok|by eapply geometry_quiet; [exact Hq|by apply Hse]| |done|unfold room; nia|].
    + rewrite (quiet_sbv _ _ _ _ Hq). unfold sbv. rewrite E1. fold (sbv s1 s_inodes_per_group).
      rewrite (counted_sbv _ _ _ _ _ _ _ _ Hct) by done. destruct Hfree; lia.
    + intros s4. by apply wp_err.
  - intros Hra. apply wp_ret, wp_ret.
    destruct (created_found s2 s3 pino rs nm ino Hd2 Hsep2 Hra) as [Hf1 Hf2]; [by apply (se_valid _ _ _ _ _ Hse)|done
      |destruct Hfree as (? & ? & -> & _); nia|done|unfold room; nia|].
    split; [exact Hf1|]. exists inode. split; [|done]. by rewrite (se_inode _ _ _ _ _ Hse) in Hf2.
Qed.

End create.
