(* ===== verification/Vfs.v ===== *)
(** * The virtual file system: [src/vfs/vfs.c]

    Nodes live in an arena: a [vfs_node_t*] is an index, [NULL] is [None].  The
    operations of a file system act on its own state [FS], on the kernel heap and
    on the node they are called for; a node carries file system data of type [A]. *)
From S2P Require Import Prelude KernelLib.
Import Memory CString.
Open Scope Z_scope.

Definition MAX_STRING_LEN : Z := 256.
Definition S_IFREG : Z := 4096.
Definition S_IFDIR : Z := 8192.
Definition S_IFLNK : Z := 12288.
Definition O_WRITE : Z := 2.
Definition O_CREATE : Z := 4.
Definition slash : Z := 47.

Section vfs.
Context {FS A : Type}.

(** ** Data *)
Record vfs_node := Node {
  name : bytes;
  inode : Z;
  mode : Z;
  size : Z;
  permissions : Z;
  owner_uid : Z;
  owner_gid : Z;
  create_time : Z;
  access_time : Z;
  modify_time : Z;
  link_count : Z;
  ops : option nat;           (* index of an operations table *)
  fs_data : option A;
  mount_point : option nat;
  next : option nat;
  prev : option nat;
  parent : option nat;
  children : option nat
}.

(** The members of [vfs_ops_t] that [vfs.c] calls, on the file system's state and
    the position of the heap. *)
Record vfs_ops := Ops {
  op_open : option (FS * Z -> vfs_node -> Z -> option (FS * Z * Z));
  op_close : option (FS * Z -> vfs_node -> option (FS * Z * Z));
  op_read : option (FS * Z -> vfs_node -> Z -> Z -> bytes -> option (FS * Z * Z * bytes));
  op_write : option (FS * Z -> vfs_node -> Z -> Z -> bytes -> option (FS * Z * vfs_node * Z))
}.

Record mount := Mount {
  mp_device : bytes;
  mp_fstype : bytes;
  mp_mount_point : nat;
  mp_root : nat;
  mp_fs_data : option A
}.

Record file_descriptor := Fd {
  fd_node : option nat;
  fd_offset : Z;
  fd_flags : Z;
  fd_refs : Z
}.

Record vfs := Vfs {
  nodes : list vfs_node;
  vfs_root : option nat;
  mount_points : list mount;
  file_descriptors : list file_descriptor;
  tables : list vfs_ops;
  fs_state : FS;
  heap_pos : Z
}.

(** ** Assignments *)
Definition set_nodes ns (v : vfs) : vfs :=
  Vfs ns (vfs_root v) (mount_points v) (file_descriptors v) (tables v) (fs_state v) (heap_pos v).
Definition set_root r (v : vfs) : vfs :=
  Vfs (nodes v) r (mount_points v) (file_descriptors v) (tables v) (fs_state v) (heap_pos v).
Definition set_mounts m (v : vfs) : vfs :=
  Vfs (nodes v) (vfs_root v) m (file_descriptors v) (tables v) (fs_state v) (heap_pos v).
Definition set_fds f (v : vfs) : vfs :=
  Vfs (nodes v) (vfs_root v) (mount_points v) f (tables v) (fs_state v) (heap_pos v).
Definition set_heap h (v : vfs) : vfs :=
  Vfs (nodes v) (vfs_root v) (mount_points v) (file_descriptors v) (tables v) (fs_state v) h.

(** What the operations of a file system work on. *)
Definition world (v : vfs) : FS * Z := (fs_state v, heap_pos v).
Definition set_world (w : FS * Z) (v : vfs) : vfs :=
  Vfs (nodes v) (vfs_root v) (mount_points v) (file_descriptors v) (tables v) w.1 w.2.

Definition upd_node (i : nat) (f : vfs_node -> vfs_node) (v : vfs) : vfs :=
  set_nodes (alter f i (nodes v)) v.

Definition set_next p n := Node (name n) (inode n) (mode n) (size n) (permissions n) (owner_uid n)
  (owner_gid n) (create_time n) (access_time n) (modify_time n) (link_count n) (ops n) (fs_data n)
  (mount_point n) p (prev n) (parent n) (children n).
Definition set_prev p n := Node (name n) (inode n) (mode n) (size n) (permissions n) (owner_uid n)
  (owner_gid n) (create_time n) (access_time n) (modify_time n) (link_count n) (ops n) (fs_data n)
  (mount_point n) (next n) p (parent n) (children n).
Definition set_parent p n := Node (name n) (inode n) (mode n) (size n) (permissions n) (owner_uid n)
  (owner_gid n) (create_time n) (access_time n) (modify_time n) (link_count n) (ops n) (fs_data n)
  (mount_point n) (next n) (prev n) p (children n).
Definition set_children p n := Node (name n) (inode n) (mode n) (size n) (permissions n) (owner_uid n)
  (owner_gid n) (create_time n) (access_time n) (modify_time n) (link_count n) (ops n) (fs_data n)
  (mount_point n) (next n) (prev n) (parent n) p.
Definition set_link_count c n := Node (name n) (inode n) (mode n) (size n) (permissions n) (owner_uid n)
  (owner_gid n) (create_time n) (access_time n) (modify_time n) c (ops n) (fs_data n)
  (mount_point n) (next n) (prev n) (parent n) (children n).
Definition set_mount_point p n := Node (name n) (inode n) (mode n) (size n) (permissions n) (owner_uid n)
  (owner_gid n) (create_time n) (access_time n) (modify_time n) (link_count n) (ops n) (fs_data n)
  p (next n) (prev n) (parent n) (children n).
Definition set_size_time z t n := Node (name n) (inode n) (mode n) z (permissions n) (owner_uid n)
  (owner_gid n) (create_time n) (access_time n) t (link_count n) (ops n) (fs_data n)
  (mount_point n) (next n) (prev n) (parent n) (children n).

(** ** Nodes *)

(** The stubs at the top of the file. *)
Definition get_current_pid : Z := 0.
Definition CAP_READ : Z := 1.
Definition CAP_WRITE : Z := 2.
Definition security_check_capability (pid permissions cap : Z) : bool := true.

(** The address of the kernel heap, and [system_time]. *)
Context (heap_base now : Z).

(** [sizeof(vfs_node_t)]: 256 + 10 * 8 + 7 * 8. *)
Definition sizeof_node : Z := 392.

(** [char dst[256]; strncpy(dst, src, 255)], over the old contents [dst]. *)
Definition copy_name (dst src : bytes) : option bytes := strncpy dst src 255.

Definition vfs_create_node (v : vfs) (nm : bytes) (md uid gid : Z) : option (vfs * option nat) :=
  let '(p, h) := malloc (heap_pos v) sizeof_node in
  let v := set_heap h v in
  match p with
  | None => Some (v, None)
  | Some addr =>
      nm ← copy_name (replicate 256 0) nm;
      nm ← setZ nm 255 0;
      let n := Node nm (heap_base + addr) md 0 (Z.land md 511) uid gid now now now 1
                 None None None None None None None in
      Some (set_nodes (nodes v ++ [n]) v, Some (length (nodes v)))
  end.

Definition vfs_add_child (v : vfs) (parent child : option nat) : option vfs :=
  match parent, child with
  | Some p, Some c =>
      pn ← nodes v !! p;
      let v := upd_node c (set_next (children pn)) v in
      let v := match children pn with Some h => upd_node h (set_prev (Some c)) v | None => v end in
      let v := upd_node p (set_children (Some c)) v in
      Some (upd_node p (fun n => set_link_count (u64 (link_count n + 1)) n) v)
  | _, _ => Some v
  end.

(** The walk along [next]; a list without a cycle has at most one turn per node. *)
Fixpoint find_sibling (fuel : nat) (v : vfs) (child : option nat) (nm : bytes) : option (option nat) :=
  match child with
  | None => Some None
  | Some c =>
      match fuel with
      | O => None
      | S fuel' =>
          n ← nodes v !! c;
          z ← strcmp (name n) nm;
          if z =? 0 then Some (Some c) else find_sibling fuel' v (next n) nm
      end
  end.

Definition vfs_find_child (v : vfs) (parent : option nat) (nm : bytes) : option (option nat) :=
  match parent with
  | None => Some None
  | Some p => pn ← nodes v !! p; find_sibling (length (nodes v)) v (children pn) nm
  end.

(** ** Paths *)

(** The loop of [vfs_lookup]: [buf] is [path_copy], [token] and [nxt] what the last
    [strtok] returned and left in its static pointer. *)
Fixpoint lookup_loop (fuel : nat) (v : vfs) (current : option nat) (buf : bytes)
    (nxt token : option nat) : option (option nat) :=
  match token, current with
  | Some t, Some c =>
      match fuel with
      | O => None
      | S fuel' =>
          current ← vfs_find_child v (Some c) (drop t buf);
          '(buf, nxt, token) ← strtok buf nxt None [slash; 0];
          lookup_loop fuel' v current buf nxt token
      end
  | _, _ => Some current
  end.

(** [stack] is the indeterminate initial contents of [path_copy]. *)
Definition vfs_lookup (stack : bytes) (v : vfs) (path : bytes) : option (option nat) :=
  c ← path !! 0%nat;
  if negb (c =? slash) then Some None
  else
    path_copy ← copy_name stack path;
    '(buf, nxt, token) ← strtok path_copy None (Some 1%nat) [slash; 0];
    lookup_loop (length stack) v (vfs_root v) buf nxt token.

Definition vfs_get_parent (stack stack' : bytes) (v : vfs) (path : bytes) : option (option nat) :=
  path_copy ← copy_name stack path;
  last_slash ← strrchr path_copy slash;
  match last_slash with
  | None => Some (vfs_root v)
  | Some i =>
      if i =? 0 then Some (vfs_root v)
      else path_copy ← setZ path_copy i 0; vfs_lookup stack' v path_copy
  end.

Definition vfs_get_basename (path : bytes) : option bytes :=
  last_slash ← strrchr path slash;
  Some (match last_slash with Some i => drop (Z.to_nat (i + 1)) path | None => path end).

Definition vfs_mkdir (v : vfs) (parent : option nat) (nm : option bytes) (perms : Z) : option (vfs * Z) :=
  match parent, nm with
  | Some p, Some nm =>
      pn ← nodes v !! p;
      if negb (security_check_capability get_current_pid (permissions pn) CAP_WRITE)
      then Some (v, ERR_PERMISSION)
      else
        '(v, dir) ← vfs_create_node v nm (Z.lor S_IFDIR perms) 0 0;
        match dir with
        | None => Some (v, ERR_NO_MEMORY)
        | Some d =>
            let v := upd_node d (set_parent (Some p)) v in
            v ← vfs_add_child v (Some p) (Some d);
            Some (v, ERR_SUCCESS)
        end
  | _, _ => Some (v, ERR_INVALID)
  end.

(** ** File descriptors *)
Definition empty_fd : file_descriptor := Fd None 0 0 0.

(** [u32 vfs_alloc_fd]: the first unused descriptor; [None] is [0xFFFFFFFF]. *)
Definition vfs_alloc_fd (v : vfs) : option nat :=
  fst <$> list_find (fun f => fd_node f = None) (take 256 (file_descriptors v)).

Definition vfs_free_fd (v : vfs) (fd : Z) : vfs :=
  if (0 <=? fd) && (fd <? 256) then set_fds (<[Z.to_nat fd := empty_fd]> (file_descriptors v)) v else v.

(** The operation [f] of the node's table, if it has both. *)
Definition node_op {X} (v : vfs) (n : vfs_node) (f : vfs_ops -> option X) : option X :=
  t ← ops n; o ← tables v !! t; f o.

(** The guard of [vfs_close], [vfs_read] and [vfs_write]: the descriptor in use
    and its node. *)
Definition fd_in_use (v : vfs) (fd : Z) : option (file_descriptor * nat) :=
  if (0 <=? fd) && (fd <? 256) then
    f ← file_descriptors v !! Z.to_nat fd; n ← fd_node f; Some (f, n)
  else None.

(** What [vfs_open] does once it has a node ([None]: it has none). *)
Definition open_node (v : vfs) (node : option nat) (flags : Z) : option (vfs * Z) :=
  match node with
  | None => Some (v, ERR_INVALID)
  | Some i =>
      n ← nodes v !! i;
      if negb (Z.land flags O_WRITE =? 0) &&
         negb (security_check_capability get_current_pid (permissions n) CAP_WRITE)
      then Some (v, ERR_PERMISSION)
      else
      match vfs_alloc_fd v with
      | None => Some (v, ERR_BUSY)
      | Some fd =>
          let v := set_fds (<[fd := Fd (Some i) 0 flags 1]> (file_descriptors v)) v in
          match node_op v n op_open with
          | None => Some (v, Z.of_nat fd)
          | Some f =>
              '(s, result) ← f (world v) n flags;
              let v := set_world s v in
              if result <? 0 then Some (vfs_free_fd v (Z.of_nat fd), result)
              else Some (v, Z.of_nat fd)
          end
      end
  end.

(** [st1], [st2], [st3]: the stack contents of the three calls with a path copy. *)
Definition vfs_open (st1 st2 st3 : bytes) (v : vfs) (path : bytes) (flags : Z) : option (vfs * Z) :=
  node ← vfs_lookup st1 v path;
  match node with
  | Some i => open_node v (Some i) flags
  | None =>
      if Z.land flags O_CREATE =? 0 then Some (v, ERR_NOT_FOUND)
      else
        parent ← vfs_get_parent st2 st3 v path;
        nm ← vfs_get_basename path;
        '(v, node) ← vfs_create_node v nm (Z.lor S_IFREG 438) 0 0;
        match node with
        | None => open_node v None flags
        | Some i =>
            let v := upd_node i (set_parent parent) v in
            v ← vfs_add_child v parent (Some i);
            open_node v (Some i) flags
        end
  end.

Definition vfs_close (v : vfs) (fd : Z) : option (vfs * Z) :=
  match fd_in_use v fd with
  | None => Some (v, ERR_INVALID)
  | Some (f, i) =>
      let refs := u32 (fd_refs f - 1) in
      let put f v := set_fds (<[Z.to_nat fd := f]> (file_descriptors v)) v in
      let v := put (Fd (fd_node f) (fd_offset f) (fd_flags f) refs) v in
      if refs =? 0 then
        n ← nodes v !! i;
        v ← (match node_op v n op_close with
             | None => Some v
             | Some g => '(s, _) ← g (world v) n; Some (set_world s v)
             end);
        Some (put (Fd None 0 0 refs) v, ERR_SUCCESS)
      else Some (v, ERR_SUCCESS)
  end.

Definition advance (v : vfs) (fd : Z) (f : file_descriptor) (n : Z) : vfs :=
  set_fds (<[Z.to_nat fd := Fd (fd_node f) (u64 (fd_offset f + n)) (fd_flags f) (fd_refs f)]>
             (file_descriptors v)) v.

Definition vfs_read (v : vfs) (fd sz : Z) (buffer : bytes) : option (vfs * Z * bytes) :=
  match fd_in_use v fd with
  | None => Some (v, ERR_INVALID, buffer)
  | Some (f, i) =>
      n ← nodes v !! i;
      if negb (security_check_capability get_current_pid (permissions n) CAP_READ) then Some (v, ERR_PERMISSION, buffer)
      else
      match node_op v n op_read with
      | None => Some (v, 0, buffer)
      | Some g =>
          '(s, r, buffer) ← g (world v) n (fd_offset f) sz buffer;
          let v := set_world s v in
          Some (if 0 <? r then advance v fd f r else v, r, buffer)
      end
  end.

Definition vfs_write (v : vfs) (fd sz : Z) (buffer : bytes) : option (vfs * Z) :=
  match fd_in_use v fd with
  | None => Some (v, ERR_INVALID)
  | Some (f, i) =>
      n ← nodes v !! i;
      if negb (security_check_capability get_current_pid (permissions n) CAP_WRITE) then Some (v, ERR_PERMISSION)
      else
      match node_op v n op_write with
      | None => Some (v, 0)
      | Some g =>
          '(s, n', r) ← g (world v) n (fd_offset f) sz buffer;
          let v := upd_node i (fun _ => n') (set_world s v) in
          Some (if 0 <? r then
                  upd_node i (fun n => set_size_time (u64 (size n + r)) now n) (advance v fd f r)
                else v, r)
      end
  end.

(** ** Mounting and initialisation *)

(** [sizeof(mount_point_t)]: two names and four pointers. *)
Definition sizeof_mount : Z := 544.

(** [ext2_root] is the node [ext2_get_vfs_root()] returns. *)
Definition vfs_mount (stack : bytes) (ext2_root : option nat) (v : vfs)
    (device mnt fstype : bytes) : option (vfs * Z) :=
  mount_node ← vfs_lookup stack v mnt;
  match mount_node with
  | None => Some (v, ERR_NOT_FOUND)
  | Some m =>
      let '(p, h) := malloc (heap_pos v) sizeof_mount in
      let v := set_heap h v in
      match p with
      | None => Some (v, ERR_NO_MEMORY)
      | Some _ =>
          dev ← copy_name (replicate 256 0) device;
          fst ← copy_name (replicate 256 0) fstype;
          z ← strcmp fstype [101; 120; 116; 50; 0];
          let '(v, root) :=
            match (if z =? 0 then ext2_root else None) with
            | Some r => (upd_node m (set_mount_point (Some r)) v, r)
            | None => (v, m)
            end in
          Some (set_mounts (Mount dev fst m root None :: mount_points v) v, ERR_SUCCESS)
      end
  end.

(** The directories [dirs] made one after the other. *)
Fixpoint make_dirs (v : vfs) (dirs : list bytes) : option vfs :=
  match dirs with
  | [] => Some v
  | nm :: dirs' => '(v, _) ← vfs_mkdir v (vfs_root v) (Some nm) 493; make_dirs v dirs'
  end.

Definition vfs_init (v : vfs) : option vfs :=
  '(v, root) ← vfs_create_node v [slash; 0] (Z.lor S_IFDIR 493) 0 0;
  let v := set_root root v in
  v ← make_dirs v [[100; 101; 118; 0]; [112; 114; 111; 99; 0]; [116; 109; 112; 0];
                   [117; 115; 114; 0]; [98; 105; 110; 0]; [108; 105; 98; 0]];
  Some (set_fds (replicate 256 empty_fd) v).

End vfs.
Arguments vfs_node : clear implicits.
Arguments vfs_ops : clear implicits.
Arguments vfs : clear implicits.
