(* ===== verification/VfsProofs.v ===== *)
(** * Correctness of the virtual file system

    Path lookup against the components of the path, the tree that [vfs_mkdir]
    builds, and the table of file descriptors. *)
From S2P Require Import Prelude KernelLib Vfs.
Import Memory CString.
Open Scope Z_scope.

(** ** Tokens

    The characters of a path are non-zero bytes.  [components] is the specification
    of the tokens: the maximal runs without a slash. *)
Definition path_ok (w : bytes) : Prop := Forall (fun c => is_u8 c /\ c <> 0) w.

Fixpoint split_slash (w : bytes) : list bytes :=
  match w with
  | [] => [[]]
  | c :: w' =>
      if c =? slash then [] :: split_slash w'
      else match split_slash w' with t :: ts => (c :: t) :: ts | [] => [[c]] end
  end.

Definition components (w : bytes) : list bytes := filter (fun t => t <> []) (split_slash w).

Module Tokens.

Lemma in_set_slash c : is_u8 c -> in_set [slash; 0] c = Some (c =? slash).
Proof.
  intros Hc. unfold in_set. cbn [strchr]. change (slash =? 0) with false.
  rewrite u8_id by done. rewrite Z.eqb_sym. by destruct (c =? slash).
Qed.

Lemma path_ok_nul_free w : path_ok w -> nul_free w.
Proof. intros H. eapply list.Forall_impl; [exact H|]. by intros c []. Qed.

(** The two inner loops of [strtok]. *)
Lemma skip_slashes a u rest :
  path_ok u -> (forall c u', u = c :: u' -> c <> slash) ->
  skip_while (in_set [slash; 0]) (replicate a slash ++ u ++ 0 :: rest) = Some a.
Proof.
  intros Hu Hns. induction a as [|a IH].
  - cbn [replicate app]. destruct u as [|c u]; [done|]. inversion Hu as [|? ? [Hc Hc0] _]; subst.
    cbn [app skip_while]. rewrite (proj2 (Z.eqb_neq c 0)) by done. rewrite in_set_slash by done.
    cbn [mbind option_bind]. rewrite (proj2 (Z.eqb_neq c slash)); [done|]. by eapply Hns.
  - cbn [replicate app skip_while]. change (slash =? 0) with false. cbv iota.
    rewrite in_set_slash by done. cbn [mbind option_bind]. change (slash =? slash) with true. cbv iota.
    rewrite IH. done.
Qed.

Lemma skip_token t rest x :
  path_ok t -> Forall (fun c => c <> slash) t -> x = 0 \/ x = slash ->
  skip_while (fun c => b ← in_set [slash; 0] c; Some (negb b)) (t ++ x :: rest) = Some (length t).
Proof.
  intros Ht Hns Hx. induction t as [|c t IH]; inversion Ht as [|? ? [Hc Hc0] Ht']; inversion Hns; subst.
  - destruct Hx as [->| ->]; done.
  - cbn [app skip_while length]. rewrite (proj2 (Z.eqb_neq c 0)) by done. rewrite in_set_slash by done.
    cbn [mbind option_bind]. rewrite (proj2 (Z.eqb_neq c slash)) by done. cbn [negb].
    by rewrite IH.
Qed.

Lemma split_slash_token t w :
  Forall (fun c => c <> slash) t ->
  split_slash t = [t] /\ split_slash (t ++ slash :: w) = t :: split_slash w.
Proof.
  induction 1 as [|c t Hc _ [IH1 IH2]]; [done|]. cbn [app split_slash].
  rewrite (proj2 (Z.eqb_neq c slash)) by done. by rewrite IH1, IH2.
Qed.

Lemma components_token t w :
  Forall (fun c => c <> slash) t -> t <> [] ->
  components t = [t] /\ components (t ++ slash :: w) = t :: components w.
Proof.
  intros Ht Hne. destruct (split_slash_token t w Ht) as [E1 E2]. unfold components. rewrite E1, E2.
  by rewrite !filter_cons_True by done.
Qed.

Lemma components_slashes a w : components (replicate a slash ++ w) = components w.
Proof.
  induction a as [|a IH]; [done|]. rewrite <- IH. unfold components.
  cbn [replicate app split_slash]. change (slash =? slash) with true. cbv iota.
  rewrite filter_cons_False; [done|]. naive_solver.
Qed.

Lemma leading_slashes w :
  exists a u, w = replicate a slash ++ u /\ forall c u', u = c :: u' -> c <> slash.
Proof.
  induction w as [|c w (a & u & -> & Hu)]; [exists O, []; done|].
  destruct (decide (c = slash)) as [->|Hne]; [by exists (S a), u|].
  exists O, (c :: replicate a slash ++ u). split; [done|]. intros; by simplify_eq.
Qed.

Lemma leading_token u :
  exists t r, u = t ++ r /\ Forall (fun c => c <> slash) t /\ (r = [] \/ exists w, r = slash :: w).
Proof.
  induction u as [|c u (t & r & -> & Ht & Hr)]; [exists [], []; eauto|].
  destruct (decide (c = slash)) as [->|Hne]; [exists [], (slash :: t ++ r); eauto|].
  exists (c :: t), r. split; [done|]. split; [by constructor|done].
Qed.

Lemma drop_insert_at {A} (l : list A) (q : nat) x y r :
  drop q l = y :: r -> drop q (<[q := x]> l) = x :: r /\ drop (S q) (<[q := x]> l) = r.
Proof.
  intros H. assert (q < length l)%nat as Hq.
  { destruct (decide (q < length l)%nat); [done|]. rewrite drop_ge in H by lia. done. }
  assert (drop (S q) (<[q := x]> l) = r) as E.
  { rewrite drop_insert_lt by lia. replace (S q) with (q + 1)%nat by lia. rewrite <- drop_drop, H. done. }
  split; [|done]. rewrite (drop_S _ x) by (by apply list_lookup_insert_eq). by rewrite E.
Qed.

(** One call of [strtok] on the rest [w] of a path: no token when no component is
    left; else the first component, terminated in place, and the rest of the path
    for the next call. *)
Lemma strtok_step buf p w rest next str :
  drop p buf = w ++ 0 :: rest -> path_ok w ->
  (match str with Some q => Some q | None => next end) = Some p ->
  match components w with
  | [] => exists p', strtok buf next str [slash; 0] = Some (buf, Some p', None)
  | t :: ts => exists buf' p' q w' rest', path_ok w' /\ nul_free t /\ (length w' < length w)%nat /\
      strtok buf next str [slash; 0] = Some (buf', Some p', Some q) /\
      drop q buf' = t ++ 0 :: rest' /\ drop p' buf' = w' ++ 0 :: rest /\ components w' = ts
  end.
Proof.
  intros Hd Hw Hp. destruct (leading_slashes w) as (a & u & -> & Hu). rewrite components_slashes.
  destruct (leading_token u) as (t & r & -> & Ht & Hr). apply Forall_app in Hw as [_ Hw].
  pose proof Hw as Hw0. apply Forall_app in Hw as [Htok Hrest]. unfold strtok. rewrite Hp, Hd.
  rewrite <- app_assoc, (skip_slashes a) by done. cbn [mbind option_bind].
  assert (drop (p + a) buf = (t ++ r) ++ 0 :: rest) as Hd2.
  { rewrite <- drop_drop, Hd, <- app_assoc, drop_app_length' by (by rewrite length_replicate). done. }
  assert (forall q y l, drop q buf = y :: l -> buf !! q = Some y) as Hlook.
  { intros q y l E. rewrite <- (Nat.add_0_r q), <- lookup_drop, E. done. }
  destruct t as [|c t].
  { destruct Hr as [->|[w ->]]; [|by edestruct Hu]. cbn [app components split_slash] in *.
    unfold components. cbn. exists (p + a)%nat. rewrite (Hlook _ _ _ Hd2). done. }
  assert (c <> 0) as Hc0 by (by inversion Htok as [|? ? [_ ?]]).
  rewrite (Hlook (p + a)%nat c _ Hd2). cbn [mbind option_bind]. rewrite (proj2 (Z.eqb_neq c 0)) by done.
  rewrite Hd2. destruct (components_token (c :: t)) with (w := tail r) as [E1 E2]; [done..|].
  assert (drop (p + a + length (c :: t)) buf = r ++ 0 :: rest) as Hd3.
  { by rewrite <- drop_drop, Hd2, <- app_assoc, drop_app_length. }
  destruct Hr as [->|[w ->]].
  - rewrite app_nil_r in *. rewrite skip_token by (done || by left). cbn [mbind option_bind].
    rewrite (Hlook _ _ _ Hd3). cbn [mbind option_bind]. rewrite E1.
    eexists buf, _, _, [], rest. split; [constructor|]. split; [by apply path_ok_nul_free|].
    split; [rewrite length_app; cbn; lia|]. split; [done|]. done.
  - rewrite <- app_assoc. change ((slash :: w) ++ 0 :: rest) with (slash :: w ++ 0 :: rest). rewrite skip_token by (done || by right).
    cbn [mbind option_bind]. rewrite (Hlook _ _ _ Hd3). cbn [mbind option_bind]. change (slash =? 0) with false. cbv iota.
    cbn [tail] in E2. rewrite E2. set (q := (p + a + length (c :: t))%nat) in *.
    destruct (drop_insert_at buf q 0 slash (w ++ 0 :: rest) Hd3) as [D1 D2].
    eexists _, _, _, w, (w ++ 0 :: rest). split; [by inversion Hrest|].
    split; [by apply path_ok_nul_free|]. split; [rewrite !length_app; cbn; lia|]. split; [done|].
    split; [|split; [exact D2|done]].
    rewrite drop_insert_ge by lia. rewrite Hd2, <- app_assoc. cbn [app].
    replace (q - (p + a))%nat with (length (c :: t)) by lia.
    rewrite app_comm_cons, insert_app_r_alt by lia. by rewrite Nat.sub_diag.
Qed.

End Tokens.

(** ** The tree *)
Section tree.
Context {FS A : Type}.
Implicit Types (v : vfs FS A) (n : vfs_node A) (p i : nat) (l : list nat) (nm t : bytes).

(** The string a name buffer holds. *)
Fixpoint cstr (b : bytes) : bytes :=
  match b with
  | [] => []
  | c :: b' => if c =? 0 then [] else c :: cstr b'
  end.

(** [l] are the nodes reached from [o] along [next], in order. *)
Fixpoint linked v (o : option nat) l : Prop :=
  match l with
  | [] => o = None
  | i :: l' => o = Some i /\ exists n, nodes v !! i = Some n /\ linked v (next n) l'
  end.

(** Every name is terminated and every list of children ends without repetition. *)
Record vfs_ok v : Prop := {
  vo_name i n : nodes v !! i = Some n -> 0 ∈ name n;
  vo_children p n : nodes v !! p = Some n -> exists l, linked v (children n) l /\ NoDup l;
  vo_root p : vfs_root v = Some p -> is_Some (nodes v !! p)
}.

(** The children of [p], by the same walk. *)
Fixpoint collect (fuel : nat) v (o : option nat) : list nat :=
  match fuel, o with
  | S fuel', Some i => i :: match nodes v !! i with Some n => collect fuel' v (next n) | None => [] end
  | _, _ => []
  end.
Definition child_list v p : list nat :=
  match nodes v !! p with Some n => collect (length (nodes v)) v (children n) | None => [] end.

Definition has_name v nm i : Prop := exists n, nodes v !! i = Some n /\ cstr (name n) = nm.
#[global] Instance has_name_dec v nm i : Decision (has_name v nm i).
Proof.
  unfold has_name. destruct (nodes v !! i) as [n|]; [|by right; intros (n & ? & _)].
  destruct (decide (cstr (name n) = nm)); [left; eauto|right; intros (n' & [= <-] & ?); done].
Defined.

(** The specification of [vfs_find_child] and of [vfs_lookup]. *)
Definition child_named v p nm : option nat := snd <$> list_find (has_name v nm) (child_list v p).

Fixpoint resolve v (cur : option nat) (comps : list bytes) : option nat :=
  match comps, cur with
  | t :: ts, Some p => resolve v (child_named v p t) ts
  | _, _ => cur
  end.

Lemma cstr_split b : 0 ∈ b -> exists pad, b = cstr b ++ 0 :: pad.
Proof.
  induction b as [|c b IH]; [by intros ?%elem_of_nil|]. cbn [cstr]. intros H.
  destruct (Z.eqb_spec c 0) as [->|Hne]; [by exists b|].
  apply elem_of_cons in H as [?|H]; [done|]. destruct (IH H) as [pad E]. exists pad. cbn. congruence.
Qed.

Lemma cstr_nul_free b : nul_free (cstr b).
Proof.
  induction b as [|c b IH]; cbn; [constructor|]. destruct (Z.eqb_spec c 0); constructor; done.
Qed.

Lemma linked_lt v o l : linked v o l -> Forall (fun i => i < length (nodes v))%nat l.
Proof.
  revert o. induction l as [|i l IH]; intros o; [constructor|]. cbn. intros (_ & n & Hn & Hl).
  constructor; [by eapply lookup_lt_Some|by eapply IH].
Qed.

Lemma linked_length v o l : linked v o l -> NoDup l -> (length l <= length (nodes v))%nat.
Proof.
  intros Hl Hnd. rewrite <- (length_seq (length (nodes v)) 0). apply submseteq_length, NoDup_submseteq; [done|].
  intros i Hi. apply elem_of_seq. apply linked_lt in Hl. rewrite list.Forall_forall in Hl. specialize (Hl i Hi). lia.
Qed.

Lemma collect_linked v l : forall fuel o, linked v o l -> (length l <= fuel)%nat -> collect fuel v o = l.
Proof.
  induction l as [|i l IH]; intros fuel o; cbn.
  - intros ->. by destruct fuel.
  - intros (-> & n & Hn & Hl) Hf. destruct fuel as [|fuel]; [lia|]. cbn. rewrite Hn. f_equal. apply IH; [done|lia].
Qed.

Lemma child_list_linked v p n :
  vfs_ok v -> nodes v !! p = Some n -> linked v (children n) (child_list v p) /\ NoDup (child_list v p).
Proof.
  intros Hv Hn. destruct (vo_children _ Hv p n Hn) as (l & Hl & Hnd). unfold child_list. rewrite Hn.
  rewrite (collect_linked v l) by (done || by eapply linked_length). done.
Qed.

Lemma find_sibling_spec v l nm rest : forall fuel o,
  vfs_ok v -> linked v o l -> (length l <= fuel)%nat -> nul_free nm ->
  find_sibling fuel v o (nm ++ 0 :: rest) = Some (snd <$> list_find (has_name v nm) l).
Proof.
  induction l as [|i l IH]; intros fuel o Hv Hl Hf Hnm; cbn [linked] in Hl.
  - subst. by destruct fuel.
  - destruct Hl as (-> & n & Hn & Hl). destruct fuel as [|fuel]; [cbn in Hf; lia|]. cbn [find_sibling].
    rewrite Hn. cbn [mbind option_bind]. destruct (cstr_split (name n) (vo_name _ Hv _ _ Hn)) as [pad E].
    rewrite E. destruct (strcmp_spec (cstr (name n)) nm pad rest) as (z & -> & Hz); [apply cstr_nul_free|done|].
    cbn [mbind option_bind]. cbn [list_find]. destruct (decide (has_name v nm i)) as [Hh|Hh].
    + destruct Hh as (n' & Hn' & Hc). simplify_eq. by rewrite (proj2 Hz).
    + rewrite (proj2 (Z.eqb_neq z 0)) by (intros E0; apply Hh; exists n; tauto).
      rewrite IH by (done || cbn in Hf; lia). by destruct (list_find _ l) as [[]|].
Qed.

Lemma vfs_find_child_spec v p nm rest :
  vfs_ok v -> is_Some (nodes v !! p) -> nul_free nm ->
  vfs_find_child v (Some p) (nm ++ 0 :: rest) = Some (child_named v p nm).
Proof.
  intros Hv [n Hn] Hnm. destruct (child_list_linked v p n Hv Hn) as [Hl Hnd].
  unfold vfs_find_child. rewrite Hn. cbn [mbind option_bind].
  apply find_sibling_spec; [done|done|by eapply linked_length|done].
Qed.

Lemma child_named_valid v p nm i : child_named v p nm = Some i -> is_Some (nodes v !! i).
Proof.
  unfold child_named. intros ([k j] & Hf & ->)%fmap_Some. apply list_find_Some in Hf as (_ & (n & Hn & _) & _).
  by exists n.
Qed.

(** The loop of [vfs_lookup], on the rest [w] of the path. *)
Lemma lookup_loop_spec v : forall fuel w buf nxt token cur t ts rest tl,
  vfs_ok v -> (forall c, cur = Some c -> is_Some (nodes v !! c)) -> path_ok w -> (length w < fuel)%nat ->
  drop nxt buf = w ++ 0 :: rest -> drop token buf = t ++ 0 :: tl -> nul_free t -> components w = ts ->
  lookup_loop fuel v cur buf (Some nxt) (Some token) = Some (resolve v cur (t :: ts)).
Proof.
  induction fuel as [|fuel IH]; intros w buf nxt token cur t ts rest tl Hv Hc Hw Hf Hd Ht Hnt <-; [lia|].
  cbn [lookup_loop]. destruct cur as [p|]; [|done]. rewrite Ht, vfs_find_child_spec by auto.
  cbn [mbind option_bind resolve].
  pose proof (Tokens.strtok_step buf nxt w rest (Some nxt) None Hd Hw eq_refl) as Hs.
  destruct (components w) as [|t2 ts2].
  - destruct Hs as [p' ->]. cbn [mbind option_bind resolve]. destruct fuel, (child_named v p t); done.
  - destruct Hs as (buf' & p' & q & w' & rest' & Hw' & Hnt2 & Hlt & -> & Hq & Hd' & Hc').
    cbn [mbind option_bind]. eapply IH; [done| |done|lia|done|done|done|done].
    intros c Hcn. by eapply child_named_valid.
Qed.

(** C13: looking a path up.  In a well-formed tree, [vfs_lookup] of an absolute path
    of up to 253 characters after its first slash follows exactly the components of
    the path -- repeated, leading and trailing slashes do not matter -- from the
    root, through the first child of each name, and ends. *)
Theorem vfs_lookup_correct v stack w rest :
  vfs_ok v -> length stack = 256%nat -> path_ok w -> (length w <= 253)%nat ->
  vfs_lookup stack v (slash :: w ++ 0 :: rest) = Some (resolve v (vfs_root v) (components w)).
Proof.
  intros Hv Hst Hw Hlen. unfold vfs_lookup. cbn [lookup list_lookup mbind option_bind].
  change (negb (slash =? slash)) with false. cbv iota. unfold copy_name.
  rewrite app_comm_cons, strncpy_spec by (constructor; [done|by apply Tokens.path_ok_nul_free]).
  rewrite (proj2 (Nat.leb_gt _ _)), (proj2 (Nat.leb_le _ _)) by (cbn [length]; lia).
  cbn [mbind option_bind]. rewrite Hst. set (buf := (slash :: w) ++ _).
  assert (exists pad, buf = slash :: w ++ 0 :: pad) as [pad Eb].
  { subst buf. replace (255 + 1 - length (slash :: w))%nat with (S (254 - length w)) by (cbn; lia).
    cbn [replicate app]. eauto. }
  pose proof (Tokens.strtok_step buf 1 w pad None (Some 1%nat)) as Hs. rewrite Eb in Hs at 1.
  specialize (Hs eq_refl Hw eq_refl). destruct (components w) as [|t ts].
  - destruct Hs as [p' ->]. done.
  - destruct Hs as (buf' & p' & q & w' & rest' & Hw' & Hnt & Hlt & -> & Hq & Hd' & Hc').
    cbn [mbind option_bind]. eapply lookup_loop_spec; [done|apply Hv|done|lia|done|done|done|done].
Qed.

(** *** Adding a node *)

(** [v'] is [v] with one more node, [new], as first child of [p]. *)
Record added v v' p (nm : bytes) : Prop := {
  ad_len : length (nodes v') = S (length (nodes v));
  ad_new : exists n, nodes v' !! length (nodes v) = Some n /\ cstr (name n) = nm /\ 0 ∈ name n /\
    children n = None /\ next n = (nodes v !! p ≫= children);
  ad_parent : exists n n', nodes v !! p = Some n /\ nodes v' !! p = Some n' /\ name n' = name n /\
    next n' = next n /\ children n' = Some (length (nodes v));
  ad_other i n : i <> p -> nodes v !! i = Some n -> exists n', nodes v' !! i = Some n' /\
    name n' = name n /\ next n' = next n /\ children n' = children n;
  ad_root : vfs_root v' = vfs_root v
}.

Lemma added_old v v' p nm i n :
  added v v' p nm -> nodes v !! i = Some n ->
  exists n', nodes v' !! i = Some n' /\ name n' = name n /\ next n' = next n.
Proof.
  intros Ha Hn. destruct (decide (i = p)) as [->|Hne].
  - destruct (ad_parent _ _ _ _ Ha) as (n0 & n' & Hn0 & ? & ? & ? & _). simplify_eq. eauto.
  - destruct (ad_other _ _ _ _ Ha i n Hne Hn) as (n' & ? & ? & ? & _). eauto.
Qed.

Lemma added_linked v v' p nm o l : added v v' p nm -> linked v o l -> linked v' o l.
Proof.
  intros Ha. revert o. induction l as [|i l IH]; intros o; [done|]. cbn. intros (-> & n & Hn & Hl).
  split; [done|]. destruct (added_old _ _ _ _ _ _ Ha Hn) as (n' & Hn' & _ & Hnx). exists n'.
  split; [done|]. rewrite Hnx. by apply IH.
Qed.

Lemma added_child_list v v' p nm q :
  added v v' p nm -> vfs_ok v -> (q < length (nodes v))%nat ->
  linked v' (nodes v' !! q ≫= children) (if decide (q = p) then length (nodes v) :: child_list v q else child_list v q) /\
  NoDup (if decide (q = p) then length (nodes v) :: child_list v q else child_list v q).
Proof.
  intros Ha Hv Hq. destruct (lookup_lt_is_Some_2 _ _ Hq) as [n Hn].
  destruct (child_list_linked v q n Hv Hn) as [Hl Hnd]. pose proof (added_linked _ _ _ _ _ _ Ha Hl) as Hl'.
  case_decide as E.
  - subst. destruct (ad_parent _ _ _ _ Ha) as (n0 & n' & Hn0 & Hn' & _ & _ & Hc). simplify_eq.
    destruct (ad_new _ _ _ _ Ha) as (nw & Hnw & _ & _ & _ & Hnx). rewrite Hn in Hnx. cbn in Hnx.
    rewrite Hn'. cbn. rewrite Hc. split; [split; [done|]; exists nw; by rewrite Hnx|].
    apply list.NoDup_cons. split; [|done]. apply linked_lt in Hl. rewrite list.Forall_forall in Hl.
    intros Hin. specialize (Hl _ Hin). lia.
  - destruct (ad_other _ _ _ _ Ha q n E Hn) as (n' & -> & _ & _ & Hc). cbn. by rewrite Hc.
Qed.

Lemma added_ok v v' p nm : added v v' p nm -> vfs_ok v -> vfs_ok v'.
Proof.
  intros Ha Hv. destruct (ad_new _ _ _ _ Ha) as (nw & Hnw & _ & H0 & Hch & _).
  assert (forall i n, nodes v' !! i = Some n -> n = nw /\ i = length (nodes v) \/ (i < length (nodes v))%nat) as Hcase.
  { intros i n Hn. apply lookup_lt_Some in Hn as Hlt. rewrite (ad_len _ _ _ _ Ha) in Hlt.
    destruct (decide (i = length (nodes v))) as [->|]; [left; split; congruence|right; lia]. }
  split.
  - intros i n Hn. destruct (Hcase i n Hn) as [[-> ->]|Hlt]; [done|].
    destruct (lookup_lt_is_Some_2 _ _ Hlt) as [m Hm].
    destruct (added_old _ _ _ _ _ _ Ha Hm) as (n' & Hn' & Hnm & _). simplify_eq. rewrite Hnm. by eapply vo_name.
  - intros q n Hn. destruct (Hcase q n Hn) as [[-> ->]|Hlt]; [exists []; by rewrite Hch; split; [|constructor]|].
    destruct (added_child_list v v' p nm q Ha Hv Hlt) as [Hl Hnd]. rewrite Hn in Hl. eauto.
  - intros q Hq. rewrite (ad_root _ _ _ _ Ha) in Hq. destruct (vo_root _ Hv q Hq) as [n Hn].
    destruct (added_old _ _ _ _ _ _ Ha Hn) as (n' & Hn' & _). eauto.
Qed.

Lemma list_find_ext_in {X} (P Q : X -> Prop) `{!forall x, Decision (P x), !forall x, Decision (Q x)} (k : list X) :
  (forall x, x ∈ k -> P x <-> Q x) -> list_find P k = list_find Q k.
Proof.
  induction k as [|x k IH]; intros HPQ; [done|]. cbn. specialize (HPQ x) as Hx. rewrite elem_of_cons in Hx.
  rewrite IH by (intros y Hy; apply HPQ, elem_of_cons; auto).
  destruct (decide (P x)), (decide (Q x)); tauto.
Qed.

(** Names in the extended tree. *)
Lemma added_child_named v v' p nm q t :
  added v v' p nm -> vfs_ok v -> (q < length (nodes v))%nat ->
  child_named v' q t =
    if decide (q = p /\ t = nm) then Some (length (nodes v)) else child_named v q t.
Proof.
  intros Ha Hv Hq. destruct (added_child_list v v' p nm q Ha Hv Hq) as [Hl Hnd].
  assert (child_list v' q = if decide (q = p) then length (nodes v) :: child_list v q else child_list v q) as E.
  { unfold child_list at 1. destruct (nodes v' !! q) as [n'|] eqn:Hn'.
    - eapply collect_linked; [exact Hl|]. by eapply linked_length.
    - apply lookup_ge_None in Hn'. rewrite (ad_len _ _ _ _ Ha) in Hn'. lia. }
  assert (list_find (has_name v' t) (child_list v q) = list_find (has_name v t) (child_list v q)) as Ef.
  { apply list_find_ext_in. intros i Hi. destruct (lookup_lt_is_Some_2 _ _ Hq) as [n Hn].
    destruct (child_list_linked v q n Hv Hn) as [Hlk _]. apply linked_lt in Hlk.
    rewrite list.Forall_forall in Hlk. specialize (Hlk _ Hi). destruct (lookup_lt_is_Some_2 _ _ Hlk) as [m Hm].
    destruct (added_old _ _ _ _ _ _ Ha Hm) as (m' & Hm' & Hname & _). unfold has_name. rewrite Hm, Hm'.
    split; intros (x & [= <-] & Hx); eexists; (split; [done|congruence]). }
  unfold child_named. rewrite E. destruct (decide (q = p)) as [->|Hne];
    [|rewrite Ef; by rewrite decide_False by tauto].
  cbn [list_find]. destruct (ad_new _ _ _ _ Ha) as (nw & Hnw & Hnm & _).
  destruct (decide (has_name v' t (length (nodes v)))) as [Hh|Hh].
  - destruct Hh as (x & Hx & <-). simplify_eq. by rewrite decide_True.
  - rewrite decide_False by (intros [_ ->]; apply Hh; by exists nw). rewrite Ef.
    by destruct (list_find (has_name v t) (child_list v p)) as [[]|].
Qed.

Lemma cstr_app nm b : nul_free nm -> cstr (nm ++ 0 :: b) = nm.
Proof.
  induction 1 as [|c nm Hc _ IH]; [done|]. cbn. rewrite (proj2 (Z.eqb_neq c 0)) by done. by rewrite IH.
Qed.

(** A name of up to 255 characters is stored whole and terminated. *)
Lemma node_name_spec nm rest :
  nul_free nm -> (length nm <= 255)%nat ->
  (b ← copy_name (replicate 256 0) (nm ++ 0 :: rest); setZ b 255 0) =
    Some (nm ++ replicate (256 - length nm) 0).
Proof.
  intros Hn Hl. unfold copy_name. rewrite strncpy_spec by done. rewrite length_replicate.
  assert ((if (255 <=? length nm)%nat then if (255 <=? 256)%nat then Some (take 255 nm ++ drop 255 (replicate 256 0)) else None
    else if (255 + 1 <=? 256)%nat then Some (nm ++ replicate (255 + 1 - length nm) 0 ++ drop (255 + 1) (replicate 256 0)) else None)
    = Some (nm ++ replicate (256 - length nm) 0)) as ->.
  { destruct (Nat.leb_spec 255 (length nm)).
    - rewrite take_ge by lia. change (255 <=? 256)%nat with true. do 2 f_equal.
      replace (256 - length nm)%nat with 1%nat by lia. done.
    - change (255 + 1 <=? 256)%nat with true. rewrite drop_replicate.
      replace (256 - (255 + 1))%nat with 0%nat by lia. cbn [replicate]. by rewrite app_nil_r. }
  cbn [mbind option_bind]. unfold setZ, lenZ. rewrite length_app, length_replicate.
  replace (length nm + (256 - length nm))%nat with 256%nat by lia. cbn [Z.leb Z.ltb andb]. change (_ && _) with true. cbv iota.
  f_equal. apply list_insert_id. change (Z.to_nat 255) with 255%nat. rewrite lookup_app_r by lia.
  apply lookup_replicate_2. lia.
Qed.

Context (heap_base now : Z).

Lemma vfs_create_node_spec v nm rest md uid gid :
  nul_free nm -> (length nm <= 255)%nat -> heap_wf (heap_pos v) -> heap_pos v + sizeof_node <= HEAP_SIZE ->
  exists h n, vfs_create_node heap_base now v (nm ++ 0 :: rest) md uid gid =
      Some (set_nodes (nodes v ++ [n]) (set_heap h v), Some (length (nodes v))) /\
    cstr (name n) = nm /\ 0 ∈ name n /\ children n = None /\ next n = None /\
    heap_wf h /\ h <= heap_pos v + 408.
Proof.
  intros Hn Hl Hw Hr. unfold vfs_create_node.
  destruct (malloc_cases (heap_pos v) sizeof_node) as [[_ ?]|(h & -> & Hh & Hwf)];
    [done|split; unfold sizeof_node, HEAP_SIZE; lia|lia|].
  pose proof (node_name_spec nm rest Hn Hl) as Hs.
  destruct (copy_name _ _) as [b|]; [|done]. cbn [mbind option_bind] in *. rewrite Hs. cbn [mbind option_bind].
  eexists h, _. split; [done|]. cbn [name children next].
  replace (256 - length nm)%nat with (S (255 - length nm)) by lia. cbn [replicate].
  split; [by apply cstr_app|]. split; [apply elem_of_app; right; by left|].
  split; [done|]. split; [done|]. split; [done|]. unfold sizeof_node in Hh. lia.
Qed.

(** Assignments to members that the tree does not depend on. *)
Definition keeps_links (f : vfs_node A -> vfs_node A) : Prop :=
  forall n, name (f n) = name n /\ next (f n) = next n /\ children (f n) = children n.

Lemma keeps_links_alter (f : vfs_node A -> vfs_node A) i (ns : list (vfs_node A)) j n :
  keeps_links f -> ns !! j = Some n ->
  exists n', alter f i ns !! j = Some n' /\ name n' = name n /\ next n' = next n /\ children n' = children n.
Proof.
  intros Hf Hn. destruct (decide (i = j)) as [<-|Hne].
  - rewrite list_lookup_alter_eq, Hn. cbn. eexists; split; [done|]. apply Hf.
  - rewrite list_lookup_alter_ne, Hn by done. eauto.
Qed.

Lemma vfs_add_child_added v p n n0 nm h :
  nodes v !! p = Some n -> cstr (name n0) = nm -> 0 ∈ name n0 -> children n0 = None ->
  exists v', vfs_add_child (set_nodes (nodes v ++ [n0]) (set_heap h v)) (Some p) (Some (length (nodes v))) = Some v' /\
    added v v' p nm /\ heap_pos v' = h.
Proof.
  intros Hp Hnm H0 Hc. assert (p < length (nodes v))%nat as Hlt by by eapply lookup_lt_Some.
  unfold vfs_add_child. cbn [nodes set_nodes]. rewrite lookup_app_l, Hp by done. cbn [mbind option_bind].
  eexists. split; [done|].
  set (new := length (nodes v)). set (ns1 := alter (set_next (children n)) new (nodes v ++ [n0])).
  set (ns2 := match children n with Some c => alter (set_prev (Some new)) c ns1 | None => ns1 end).
  assert (forall w : vfs FS A, nodes (upd_node p (fun n => set_link_count (u64 (link_count n + 1)) n)
     (upd_node p (set_children (Some new)) (match children n with Some c => upd_node c (set_prev (Some new)) w | None => w end)))
     = alter (fun n => set_link_count (u64 (link_count n + 1)) n) p (alter (set_children (Some new)) p
         (match children n with Some c => alter (set_prev (Some new)) c (nodes w) | None => nodes w end))) as Hns
    by (intros w; by destruct (children n)).
  assert (forall i m, ns1 !! i = Some m -> exists m', ns2 !! i = Some m' /\ name m' = name m /\ next m' = next m /\
    children m' = children m) as H2.
  { intros i m Hm. subst ns2. destruct (children n) as [c|]; [|eauto]. by apply keeps_links_alter. }
  assert (ns1 !! new = Some (set_next (children n) n0)) as Hnew.
  { subst ns1 new. rewrite list_lookup_alter_eq, lookup_app_r, Nat.sub_diag by lia. done. }
  assert (forall i m, nodes v !! i = Some m -> ns1 !! i = Some m) as Hold.
  { intros i m Hm. apply lookup_lt_Some in Hm as Hi. subst ns1 new.
    rewrite list_lookup_alter_ne by lia. by rewrite lookup_app_l. }
  split; [|by destruct (children n)].
  split; rewrite ?Hns; cbn [nodes upd_node set_nodes]; fold new; fold ns1; fold ns2.
  5: by destruct (children n).
  - rewrite !length_alter. subst ns2 ns1. destruct (children n); rewrite !length_alter, length_app; cbn; lia.
  - destruct (H2 _ _ Hnew) as (m & Hm & E1 & E2 & E3). exists m.
    rewrite !list_lookup_alter_ne by lia. rewrite Hp. cbn in *. rewrite E1, E2, E3. by rewrite Hm.
  - destruct (H2 _ _ (Hold _ _ Hp)) as (m & Hm & E1 & E2 & E3). exists n. eexists. split; [done|].
    rewrite !list_lookup_alter_eq, Hm. cbn. split; [done|]. cbn. done.
  - intros i m Hne Hm. destruct (H2 _ _ (Hold _ _ Hm)) as (m' & Hm' & E). exists m'.
    by rewrite !list_lookup_alter_ne by done.
Qed.

Lemma vfs_mkdir_added v p nm rest perms :
  is_Some (nodes v !! p) -> nul_free nm -> (length nm <= 255)%nat ->
  heap_wf (heap_pos v) -> heap_pos v + sizeof_node <= HEAP_SIZE ->
  exists v', vfs_mkdir heap_base now v (Some p) (Some (nm ++ 0 :: rest)) perms = Some (v', ERR_SUCCESS) /\
    added v v' p nm /\ heap_wf (heap_pos v') /\ heap_pos v' <= heap_pos v + 408.
Proof.
  intros [n Hp] Hn Hl Hw Hr. unfold vfs_mkdir. rewrite Hp. cbn [mbind option_bind negb security_check_capability].
  destruct (vfs_create_node_spec v nm rest (Z.lor S_IFDIR perms) 0 0 Hn Hl Hw Hr)
    as (h & n0 & -> & Hnm & H0 & Hc & _ & Hh).
  cbn [mbind option_bind].
  assert (upd_node (length (nodes v)) (set_parent (Some p)) (set_nodes (nodes v ++ [n0]) (set_heap h v)) =
          set_nodes (nodes v ++ [set_parent (Some p) n0]) (set_heap h v)) as ->.
  { unfold upd_node, set_nodes. cbn. f_equal. by rewrite alter_app_r_alt, Nat.sub_diag by lia. }
  destruct (vfs_add_child_added v p n (set_parent (Some p) n0) nm h) as (v' & -> & Ha & Eh); [done..|].
  cbn [mbind option_bind]. exists v'. by rewrite Eh.
Qed.

(** C14: making a directory.  In a well-formed tree with room in the heap, [vfs_mkdir]
    of a name of up to 255 characters succeeds and keeps the tree well formed; the
    new directory is then the one found under its parent by its name, it is empty,
    and every other name in every directory is found as before. *)
Theorem vfs_mkdir_correct v p nm rest perms :
  vfs_ok v -> is_Some (nodes v !! p) -> nul_free nm -> (length nm <= 255)%nat ->
  heap_wf (heap_pos v) -> heap_pos v + sizeof_node <= HEAP_SIZE ->
  exists v', vfs_mkdir heap_base now v (Some p) (Some (nm ++ 0 :: rest)) perms = Some (v', ERR_SUCCESS) /\
    vfs_ok v' /\
    (forall t, child_named v' (length (nodes v)) t = None) /\
    forall q t, is_Some (nodes v !! q) -> child_named v' q t =
      if decide (q = p /\ t = nm) then Some (length (nodes v)) else child_named v q t.
Proof.
  intros Hv Hp Hn Hl Hw Hr. destruct (vfs_mkdir_added v p nm rest perms Hp Hn Hl Hw Hr) as (v' & Hm & Ha & _).
  exists v'. split; [done|]. split; [by eapply added_ok|]. split.
  - intros t. unfold child_named, child_list. destruct (ad_new _ _ _ _ Ha) as (nw & -> & _ & _ & -> & _).
    by destruct (length (nodes v')).
  - intros q t [m Hm']. apply added_child_named; [done|done|]. by eapply lookup_lt_Some.
Qed.

Lemma make_dirs_spec dirs : forall v p,
  vfs_ok v -> vfs_root v = Some p -> Forall (fun nm => nul_free nm /\ (length nm <= 255)%nat) dirs ->
  heap_wf (heap_pos v) -> heap_pos v + 408 * Z.of_nat (length dirs) <= HEAP_SIZE ->
  exists v', make_dirs heap_base now v ((fun nm => nm ++ [0]) <$> dirs) = Some v' /\
    vfs_ok v' /\ vfs_root v' = Some p /\
    forall t, is_Some (child_named v' p t) <-> t ∈ dirs \/ is_Some (child_named v p t).
Proof.
  induction dirs as [|nm dirs IH]; intros v p Hv Hroot Hall Hw Hr; cbn [make_dirs fmap list_fmap].
  - exists v. do 3 (split; [done|]). intros t. rewrite elem_of_nil. tauto.
  - apply list.Forall_cons in Hall as [[Hn Hl] Hall]. cbn [length] in Hr. pose proof (vo_root _ Hv p Hroot) as Hp.
    destruct (vfs_mkdir_added v p nm [] 493) as (v1 & Hm & Ha & Hw1 & Hh1);
      [done..|unfold sizeof_node; lia|]. rewrite Hroot, Hm. cbn [mbind option_bind].
    destruct (IH v1 p) as (v' & -> & Hv' & Hr' & Hc); [by eapply added_ok|by rewrite (ad_root _ _ _ _ Ha)|done|done|lia|].
    exists v'. split; [done|]. split; [done|]. split; [done|]. intros t. rewrite Hc, elem_of_cons.
    destruct Hp as [n Hp]. rewrite (added_child_named v v1 p nm) by (done || by eapply lookup_lt_Some).
    case_decide as E; [destruct E as [_ ->]|].
    + split; intros _; [left; by left|right; by eexists].
    + assert (t <> nm) by (intros ->; by apply E). tauto.
Qed.

(** The tree does not depend on the descriptor table. *)
Lemma linked_ext v v' o l : nodes v' = nodes v -> linked v o l -> linked v' o l.
Proof.
  intros E. revert o. induction l as [|i l IH]; intros o; [done|]. cbn. rewrite E.
  intros (-> & n & Hn & Hl). split; [done|]. exists n. auto.
Qed.

Lemma collect_ext v v' : nodes v' = nodes v -> forall fuel o, collect fuel v' o = collect fuel v o.
Proof.
  intros E. induction fuel as [|fuel IH]; intros [i|]; [done..| |done]. cbn. rewrite E.
  destruct (nodes v !! i); [by rewrite IH|done].
Qed.

Lemma vfs_ok_ext v v' : nodes v' = nodes v -> vfs_root v' = vfs_root v -> vfs_ok v -> vfs_ok v'.
Proof.
  intros E Er [H1 H2 H3]. split; rewrite ?E, ?Er; [done| |done].
  intros p n Hp. destruct (H2 p n Hp) as (l & Hl & Hd). exists l. split; [by eapply linked_ext|done].
Qed.

Lemma child_named_ext v v' p t : nodes v' = nodes v -> child_named v' p t = child_named v p t.
Proof.
  intros E. unfold child_named. assert (child_list v' p = child_list v p) as ->.
  { unfold child_list. rewrite E. destruct (nodes v !! p); [|done]. by rewrite (collect_ext v v'). }
  f_equal. apply list_find_ext. intros i. unfold has_name. by rewrite E.
Qed.

(** The directories [vfs_init] makes. *)
Definition std_dirs : list bytes :=
  [[100; 101; 118]; [112; 114; 111; 99]; [116; 109; 112]; [117; 115; 114]; [98; 105; 110]; [108; 105; 98]].

Lemma vfs_init_spec v :
  nodes v = [] -> heap_wf (heap_pos v) -> heap_pos v + 7 * 408 <= HEAP_SIZE ->
  exists v', vfs_init heap_base now v = Some v' /\ vfs_ok v' /\ vfs_root v' = Some 0%nat /\
    (forall t, is_Some (child_named v' 0 t) <-> t ∈ std_dirs) /\
    file_descriptors v' = replicate 256 empty_fd.
Proof.
  intros Hn Hw Hr. unfold vfs_init.
  destruct (vfs_create_node_spec v [slash] [] (Z.lor S_IFDIR 493) 0 0) as (h & n0 & Hc & _ & H0 & Hch & _ & Hh & Hle);
    [by repeat constructor|cbn; lia|done|unfold sizeof_node; lia|].
  change ([slash] ++ [0]) with [slash; 0] in Hc. rewrite Hc, Hn. cbn [mbind option_bind app length].
  set (v0 := set_root (Some 0%nat) _).
  assert (vfs_ok v0) as Hv0.
  { split; cbn [nodes vfs_root v0 set_root set_nodes set_heap].
    - intros [|i] n E; [|done]. by injection E as <-.
    - intros [|i] n E; [|done]. injection E as <-. exists []. rewrite Hch. split; [done|constructor].
    - intros p E. injection E as <-. by eexists. }
  destruct (make_dirs_spec std_dirs v0 0 Hv0 eq_refl) as (v1 & Hm & Hv1 & Hr1 & Hc1);
    [by repeat constructor; cbn; lia|done|cbn; lia|].
  cbn [fmap list_fmap std_dirs app] in Hm. rewrite Hm. cbn [mbind option_bind]. eexists. split; [done|].
  split; [by eapply vfs_ok_ext; [| |exact Hv1]|].
  split; [done|]. split; [|done]. intros t.
  rewrite (child_named_ext v1) by done. rewrite Hc1.
  assert (child_named v0 0 t = None) as ->.
  { unfold child_named, child_list. cbn. rewrite Hch. done. }
  split; [intros [?|[? [=]]]; done|by left].
Qed.

(** initialisation.  From nothing, with room for seven nodes in the heap,
    [vfs_init] makes a well-formed tree whose root holds exactly the six standard
    directories, and a descriptor table in which every descriptor is unused. *)
Theorem vfs_init_correct v :
  nodes v = [] -> heap_wf (heap_pos v) -> heap_pos v + 7 * 408 <= HEAP_SIZE ->
  exists v', vfs_init heap_base now v = Some v' /\ vfs_ok v' /\ vfs_root v' = Some 0%nat /\
    (forall t, is_Some (child_named v' 0 t) <-> t ∈ std_dirs) /\
    file_descriptors v' = replicate 256 empty_fd.
Proof. apply vfs_init_spec. Qed.

(** ** File descriptors *)

Definition used v (k : nat) : Prop := exists f, file_descriptors v !! k = Some f /\ fd_node f <> None.

(** 256 descriptors, and an unused one is cleared. *)
Definition fds_ok v : Prop :=
  length (file_descriptors v) = 256%nat /\
  forall k f, file_descriptors v !! k = Some f -> fd_node f = None -> f = empty_fd.

Lemma vfs_alloc_fd_spec v :
  length (file_descriptors v) = 256%nat ->
  match vfs_alloc_fd v with
  | None => forall k, (k < 256)%nat -> used v k
  | Some fd => (fd < 256)%nat /\ ~ used v fd /\ forall k, (k < fd)%nat -> used v k
  end.
Proof.
  intros Hl. unfold vfs_alloc_fd. rewrite take_ge by lia.
  destruct (list_find _ _) as [[fd f]|] eqn:E; cbn.
  - apply list_find_Some in E as (Hf & Hn & Hb). split; [apply lookup_lt_Some in Hf; lia|]. split.
    + intros (f' & Hf' & Hu). simplify_eq.
    + intros k Hk. destruct (lookup_lt_is_Some_2 (file_descriptors v) k) as [f' Hf'];
        [apply lookup_lt_Some in Hf; lia|]. exists f'. split; [done|]. by eapply Hb.
  - apply list_find_None in E. intros k Hk.
    destruct (lookup_lt_is_Some_2 (file_descriptors v) k) as [f Hf]; [lia|].
    exists f. split; [done|]. eapply (proj1 (list.Forall_forall _ _) E). by eapply list_elem_of_lookup_2.
Qed.

Lemma fd_in_use_set v fd f i w :
  (fd < length (file_descriptors v))%nat -> (fd < 256)%nat -> fd_node f = Some i ->
  fd_in_use (set_world w (set_fds (<[fd := f]> (file_descriptors v)) v)) (Z.of_nat fd) = Some (f, i).
Proof.
  intros Hl Hk Hn. unfold fd_in_use. rewrite (proj2 (Z.leb_le 0 _)), (proj2 (Z.ltb_lt _ 256)) by lia.
  cbn [andb file_descriptors set_world set_fds]. rewrite Nat2Z.id, list_lookup_insert_eq by lia. cbn. by rewrite Hn.
Qed.

(** The file system accepts the node: its open operation, if there is one, does not fail,
    and its close operation, if there is one, returns. *)
Definition accepts v (n : vfs_node A) flags : Prop :=
  (forall f, node_op v n op_open = Some f -> exists w r, f (world v) n flags = Some (w, r) /\ 0 <= r) /\
  (forall f w, node_op v n op_close = Some f -> is_Some (f w n)).

Lemma open_node_spec v i n flags fd :
  vfs_alloc_fd v = Some fd -> nodes v !! i = Some n -> accepts v n flags ->
  exists w, open_node v (Some i) flags =
    Some (set_world w (set_fds (<[fd := Fd (Some i) 0 flags 1]> (file_descriptors v)) v), Z.of_nat fd).
Proof.
  intros Ha Hn [Ho _]. unfold open_node. rewrite Hn, Ha. cbn [mbind option_bind].
  cbn [negb security_check_capability]. rewrite andb_false_r.
  change (node_op (set_fds ?l v) n op_open) with (node_op v n op_open).
  destruct (node_op v n op_open) as [f|]; [|by exists (world v)].
  destruct (Ho f eq_refl) as (w & r & Hf & Hr). exists w.
  change (world (set_fds ?l v)) with (world v). rewrite Hf. cbn [mbind option_bind].
  by rewrite (proj2 (Z.ltb_ge r 0)) by lia.
Qed.

Lemma vfs_close_last v fd i n flags w :
  fds_ok v -> (fd < 256)%nat -> ~ used v fd -> nodes v !! i = Some n -> accepts v n flags ->
  exists v', vfs_close (set_world w (set_fds (<[fd := Fd (Some i) 0 flags 1]> (file_descriptors v)) v)) (Z.of_nat fd)
      = Some (v', ERR_SUCCESS) /\ file_descriptors v' = file_descriptors v /\ nodes v' = nodes v.
Proof.
  intros [Hl He] Hk Hu Hn [_ Hc]. unfold vfs_close.
  rewrite (fd_in_use_set v fd _ i) by (done || lia). cbn [fd_refs fd_node fd_offset fd_flags].
  change (u32 (1 - 1)) with 0. cbn [Z.eqb nodes set_world set_fds]. rewrite Hn. cbn [mbind option_bind]. rewrite Nat2Z.id.
  assert (<[fd := empty_fd]> (file_descriptors v) = file_descriptors v) as Hback.
  { destruct (lookup_lt_is_Some_2 (file_descriptors v) fd) as [f Hf]; [lia|].
    rewrite (He fd f Hf) in Hf; [by apply list_insert_id|].
    destruct (fd_node f) eqn:E; [|done]. destruct Hu. exists f. by rewrite E. }
  match goal with |- context [node_op ?x n op_close] => change (node_op x n op_close) with (node_op v n op_close) end.
  destruct (node_op v n op_close) as [f|].
  - match goal with |- context [f ?x n] => destruct (Hc f x eq_refl) as [[s' r] ->] end. cbn [mbind option_bind].
    eexists. split; [done|]. cbn. by rewrite !list_insert_insert_eq.
  - cbn [mbind option_bind]. eexists. split; [done|]. cbn. by rewrite !list_insert_insert_eq.
Qed.

(** The three descriptors reserved for the standard streams are open. *)
Definition std_open v : Prop := forall k, (k < 3)%nat -> used v k.

(** C15: opening and closing, once the standard streams are open on the descriptors 0 to 2.  Opening a path that
    resolves to a node whose file system accepts it either reports [ERR_BUSY] and changes nothing, exactly when all
    256 descriptors are in use, or returns the least unused descriptor, which is none of the standard ones, at
    offset 0 of that node, every other descriptor untouched; closing that descriptor then gives the descriptor
    table back as it was.  Without open standard streams [vfs_alloc_fd] would hand out one of their descriptors. *)
Theorem vfs_open_close st1 st2 st3 v path flags i n :
  fds_ok v -> std_open v -> vfs_lookup st1 v path = Some (Some i) -> nodes v !! i = Some n -> accepts v n flags ->
  ((forall k, (k < 256)%nat -> used v k) /\
   vfs_open heap_base now st1 st2 st3 v path flags = Some (v, ERR_BUSY)) \/
  exists fd v1 v2, (3 <= fd < 256)%nat /\ ~ used v fd /\ (forall k, (k < fd)%nat -> used v k) /\
    vfs_open heap_base now st1 st2 st3 v path flags = Some (v1, Z.of_nat fd) /\
    file_descriptors v1 = <[fd := Fd (Some i) 0 flags 1]> (file_descriptors v) /\ nodes v1 = nodes v /\
    vfs_close v1 (Z.of_nat fd) = Some (v2, ERR_SUCCESS) /\
    file_descriptors v2 = file_descriptors v /\ nodes v2 = nodes v.
Proof.
  intros Hok Hstd Hlk Hn Hacc. unfold vfs_open. rewrite Hlk. cbn [mbind option_bind].
  pose proof (vfs_alloc_fd_spec v (proj1 Hok)) as Ha. destruct (vfs_alloc_fd v) as [fd|] eqn:E.
  - right. destruct Ha as (Hk & Hu & Hb). destruct (open_node_spec v i n flags fd E Hn Hacc) as [w Ho].
    destruct (vfs_close_last v fd i n flags w Hok Hk Hu Hn Hacc) as (v2 & Hcl & Hf & Hnn).
    assert (3 <= fd)%nat by (destruct (decide (fd < 3)%nat) as [H3|]; [by destruct (Hu (Hstd fd H3))|lia]).
    exists fd. eexists _, v2. repeat (split; [eassumption || done || lia|]). done.
  - left. split; [done|]. unfold open_node. rewrite Hn, E. cbn [mbind option_bind negb security_check_capability].
    by rewrite andb_false_r.
Qed.

End tree.

(** ** Examples: the initial tree *)
Module VfsExamples.

Definition empty_vfs : vfs unit Z := Vfs [] None [] [] [] tt 4096.
Definition init_nodes : list (vfs_node Z) := Eval vm_compute in
  match vfs_init 0 7 empty_vfs with Some v => nodes v | None => [] end.
Definition init_heap : Z := Eval vm_compute in
  match vfs_init 0 7 empty_vfs with Some v => heap_pos v | None => 0 end.
Definition init_vfs : vfs unit Z :=
  Vfs init_nodes (Some 0%nat) [] (replicate 256 empty_fd) [] tt init_heap.

Lemma init_vfs_eq : vfs_init 0 7 empty_vfs = Some init_vfs.
Proof. vm_compute. reflexivity. Qed.

Lemma init_vfs_ok : vfs_ok init_vfs.
Proof.
  destruct (vfs_init_spec 0 7 empty_vfs) as (v' & Hv & Hok & _); [done|done|done|].
  rewrite init_vfs_eq in Hv. by injection Hv as <-.
Qed.

Lemma vfs_init_correct_witness :
  exists v', vfs_init 0 7 empty_vfs = Some v' /\ vfs_ok v' /\ vfs_root v' = Some 0%nat /\
    (forall t, is_Some (child_named v' 0 t) <-> t ∈ std_dirs) /\ file_descriptors v' = replicate 256 empty_fd.
Proof. apply (vfs_init_correct 0 7 empty_vfs); done. Defined.

(** "/dev//" is the first node made after the root. *)
Lemma vfs_lookup_correct_witness :
  vfs_lookup (replicate 256 0) init_vfs [47; 100; 101; 118; 47; 47; 0] = Some (Some 1%nat).
Proof.
  etransitivity; [apply (vfs_lookup_correct init_vfs (replicate 256 0) [100; 101; 118; 47; 47] [])|].
  - exact init_vfs_ok.
  - done.
  - by repeat constructor.
  - cbn. lia.
  - vm_compute. reflexivity.
Defined.

Lemma vfs_mkdir_correct_witness :
  exists v', vfs_mkdir 0 7 init_vfs (Some 1%nat) (Some [97; 0]) 493 = Some (v', ERR_SUCCESS) /\
    vfs_ok v' /\ child_named v' 1 [97] = Some 7%nat.
Proof.
  destruct (vfs_mkdir_correct 0 7 init_vfs 1 [97] [] 493) as (v' & Hm & Hok & _ & Hc);
    [exact init_vfs_ok|by eexists|by repeat constructor|cbn; lia|done|done|].
  exists v'. split; [exact Hm|]. split; [done|]. rewrite Hc by (by eexists). by rewrite decide_True.
Defined.

(** The descriptors 0 to 2 opened on a node *)
Definition std_vfs : vfs unit Z :=
  set_fds (replicate 3 (Fd (Some 1%nat) 0 1 1) ++ replicate 253 empty_fd) init_vfs.

Lemma std_vfs_eq : match vfs_open 0 7 (replicate 256 0) [] [] init_vfs [47; 100; 101; 118; 0] 1 with
  | Some (v, _) => match vfs_open 0 7 (replicate 256 0) [] [] v [47; 100; 101; 118; 0] 1 with
    | Some (v, _) => match vfs_open 0 7 (replicate 256 0) [] [] v [47; 100; 101; 118; 0] 1 with
      | Some (v, _) => v = std_vfs | None => False end
    | None => False end
  | None => False end.
Proof. vm_compute. reflexivity. Qed.

Lemma std_fds_ok : fds_ok std_vfs.
Proof.
  split; [done|]. intros k f Hf Hn. cbn [file_descriptors set_fds std_vfs] in Hf.
  apply lookup_app_Some in Hf as [Hf|[_ Hf]]; apply lookup_replicate in Hf as [-> _]; done.
Qed.

Lemma std_vfs_open : std_open std_vfs.
Proof. intros [|[|[|k]]] Hk; [by eexists..|lia]. Qed.

Lemma vfs_open_close_witness :
  exists v1 v2, vfs_open 0 7 (replicate 256 0) [] [] std_vfs [47; 100; 101; 118; 0] 1 = Some (v1, 3) /\
    vfs_close v1 3 = Some (v2, ERR_SUCCESS) /\ file_descriptors v2 = file_descriptors std_vfs.
Proof.
  assert (exists n, nodes std_vfs !! 1%nat = Some n /\ ops n = None) as (n & Hn & Ho) by (by eexists).
  destruct (vfs_open_close 0 7 (replicate 256 0) [] [] std_vfs [47; 100; 101; 118; 0] 1 1 n)
    as [[Hfull _]|(fd & v1 & v2 & Hr & _ & Hleast & H1 & _ & _ & H2 & H3 & _)].
  - exact std_fds_ok.
  - exact std_vfs_open.
  - vm_compute. reflexivity.
  - done.
  - unfold accepts, node_op. rewrite Ho. by split.
  - destruct (Hfull 3%nat) as (f & Hf & Hne); [lia|]. injection Hf as <-. by destruct Hne.
  - destruct (decide (fd = 3%nat)) as [->|]; [by exists v1, v2|]. destruct (Hleast 3%nat) as (f & Hf & Hne); [lia|].
    injection Hf as <-. by destruct Hne.
Defined.

End VfsExamples.
