(* ===== verification/Ext2Vfs.v ===== *)
(** * ext2 under the VFS: [src/fs/ext2/vfs_integration.c]

    The callbacks of the operations table and the root node.  There is one mounted
    file system, the [FS] of the VFS state; [fs_data] of a node is the inode number
    of its [ext2_vfs_data_t].  The kernel heap is one: it is handed to the file
    system with each call and taken back. *)
From S2P Require Import Prelude KernelLib Ext2Base Ext2Alloc Ext2Inode Ext2File Ext2Mount Ext2Dir Vfs VfsProofs.
Import Memory CString.
Open Scope Z_scope.

(** ** Modes *)
Definition EXT2_S_IFLNK : Z := 40960.

Definition ext2_mode_to_vfs (ext2_mode : Z) : Z :=
  let vfs_mode := Z.land ext2_mode 4095 in
  let t := Z.land ext2_mode 61440 in
  if t =? EXT2_S_IFREG then Z.lor vfs_mode S_IFREG
  else if t =? EXT2_S_IFDIR then Z.lor vfs_mode S_IFDIR
  else if t =? EXT2_S_IFLNK then Z.lor vfs_mode S_IFLNK
  else vfs_mode.

Definition vfs_mode_to_ext2 (vfs_mode : Z) : Z :=
  let ext2_mode := Z.land vfs_mode 4095 in
  let t := Z.land vfs_mode 61440 in
  if t =? S_IFREG then Z.lor ext2_mode EXT2_S_IFREG
  else if t =? S_IFDIR then Z.lor ext2_mode EXT2_S_IFDIR
  else if t =? S_IFLNK then Z.lor ext2_mode EXT2_S_IFLNK
  else ext2_mode.

Section integration.
Context {C : Type} {B : BlockStore C} (heap_base now : Z).
Abbreviation FS := (ext2_fs C).
Abbreviation F := (M FS).
Abbreviation node := (vfs_node Z).

(** Run [m] on the file system, with the kernel heap. *)
Definition run {A} (m : F A) (w : FS * Z) : option (FS * Z * (Z + A)) :=
  '(s, r) ← m (set_heap_pos w.2 w.1); Some (s, Ext2Base.heap_pos s, r).

Definition or_code {A} (r : Z + A) (f : A -> Z) : Z := match r with inl e => e | inr a => f a end.

(** ** Callbacks on files *)
Definition ext2_vfs_open (w : FS * Z) (n : node) (flags : Z) : option (FS * Z * Z) :=
  Some (w, ERR_SUCCESS).

Definition ext2_vfs_close (w : FS * Z) (n : node) : option (FS * Z * Z) := Some (w, ERR_SUCCESS).

Definition ext2_vfs_read (w : FS * Z) (n : node) (offset sz : Z) (buffer : bytes) :
    option (FS * Z * Z * bytes) :=
  match fs_data n with
  | None => Some (w, ERR_INVALID, buffer)
  | Some ino =>
      '(w, r) ← run (let* inode := ext2_read_inode now ino in
                     with_obj buffer (ext2_read_file now inode offset sz)) w;
      Some (match r with
            | inl e => (w, e, buffer)
            | inr (buffer, r) => (w, result r, buffer)
            end)
  end.

Definition set_size z (n : node) : node := set_size_time z (modify_time n) n.

Definition ext2_vfs_write (w : FS * Z) (n : node) (offset sz : Z) (buffer : bytes) :
    option (FS * Z * node * Z) :=
  match fs_data n with
  | None => Some (w, n, ERR_INVALID)
  | Some ino =>
      '(w, r) ← run (let* inode := ext2_read_inode now ino in
                     let* p := with_obj inode (ext2_write_file now offset sz buffer) in
                     let res := result p.2 in
                     if 0 <? res then
                       try (ext2_write_inode now ino p.1);;;
                       let* isize := lft (getf p.1 0 i_size) in
                       ret (res, Some isize)
                     else ret (res, None)) w;
      Some (match r with
            | inl e => (w, n, e)
            | inr (res, Some isize) => (w, set_size isize n, res)
            | inr (res, None) => (w, n, res)
            end)
  end.

Definition ext2_vfs_ops : vfs_ops FS Z :=
  Ops (Some ext2_vfs_open) (Some ext2_vfs_close) (Some ext2_vfs_read) (Some ext2_vfs_write).

(** ** Callbacks on directories *)
Abbreviation vfs := (vfs FS Z).

(** Run [m] from the VFS. *)
Definition run_vfs {A} (m : F A) (v : vfs) : option (vfs * (Z + A)) :=
  '(w, r) ← run m (world v); Some (set_world w v, r).

(** [sizeof(ext2_vfs_data_t)]. *)
Definition sizeof_vfs_data : Z := 16.

Definition set_fs_data d o z ino (n : node) : node :=
  Node (name n) ino (mode n) z (permissions n) (owner_uid n) (owner_gid n) (create_time n)
    (access_time n) (modify_time n) (link_count n) o d (mount_point n) (next n) (prev n)
    (parent n) (children n).

(** The end of [ext2_vfs_lookup] and of [ext2_create_vfs_root]: a node for inode
    [ino], with operations [o]. *)
Definition inode_node (v : vfs) (nm : bytes) (o : option nat) (ino : Z) (inode : bytes) :
    option (vfs * option nat) :=
  md ← getf inode 0 i_mode;
  uid ← getf inode 0 i_uid;
  gid ← getf inode 0 i_gid;
  '(v, n) ← vfs_create_node heap_base now v nm (ext2_mode_to_vfs md) uid gid;
  match n with
  | None => Some (v, None)
  | Some i =>
      let '(d, h) := malloc (heap_pos v) sizeof_vfs_data in
      let v := set_heap h v in
      match d with
      | None => Some (v, None)
      | Some _ =>
          isize ← getf inode 0 i_size;
          Some (upd_node i (set_fs_data (Some ino) o isize ino) v, Some i)
      end
  end.

Definition ext2_vfs_lookup (v : vfs) (parent : option nat) (nm : option bytes) : option (vfs * option nat) :=
  match parent, nm with
  | Some p, Some nm =>
      pn ← nodes v !! p;
      match fs_data pn with
      | None => Some (v, None)
      | Some dir =>
          '(v, r) ← run_vfs (let* ino := ext2_lookup now dir nm in
                             let* inode := ext2_read_inode now ino in ret (ino, inode)) v;
          match r with
          | inl _ => Some (v, None)
          | inr (ino, inode) => inode_node v nm None ino inode
          end
      end
  | _, _ => Some (v, None)
  end.

(** The assignments [ext2_vfs_readdir] makes to [result]. *)
Definition fill_result (entry inode : bytes) (n : node) : option node :=
  len ← getf entry 0 de_name_len;
  nm ← strncpy (name n) (drop (Z.to_nat (f_off de_name)) entry) (Z.to_nat len);
  nm ← setZ nm len 0;
  md ← getf inode 0 i_mode;
  isize ← getf inode 0 i_size;
  ino ← getf entry 0 de_inode;
  uid ← getf inode 0 i_uid;
  gid ← getf inode 0 i_gid;
  Some (Node nm ino (ext2_mode_to_vfs md) isize (permissions n) uid gid (create_time n)
    (access_time n) (modify_time n) (link_count n) (ops n) (fs_data n) (mount_point n) (next n)
    (prev n) (parent n) (children n)).

Definition ext2_vfs_readdir (v : vfs) (dir : option nat) (index : Z) (res : option nat) : option (vfs * Z) :=
  match dir, res with
  | Some d, Some i =>
      dn ← nodes v !! d;
      match fs_data dn with
      | None => Some (v, ERR_INVALID)
      | Some ino =>
          '(v, r) ← run_vfs (let* entry := ext2_readdir now ino index in
                             let* child := lft (getf entry 0 de_inode) in
                             let* inode := ext2_read_inode now child in ret (entry, inode)) v;
          match r with
          | inl e => Some (v, e)
          | inr (entry, inode) =>
              rn ← nodes v !! i;
              rn' ← fill_result entry inode rn;
              Some (upd_node i (fun _ => rn') v, ERR_SUCCESS)
          end
      end
  | _, _ => Some (v, ERR_INVALID)
  end.

(** The inode number of a node that exists and belongs to the file system. *)
Definition ino_of (v : vfs) (n : option nat) : option Z := i ← n; n ← nodes v !! i; fs_data n.

Definition ext2_vfs_mkdir (v : vfs) (parent : option nat) (nm : option bytes) (perms : Z) : option (vfs * Z) :=
  match ino_of v parent, nm with
  | Some dir, Some nm =>
      '(v, r) ← run_vfs (ext2_mkdir now dir nm (u16 perms)) v; Some (v, or_code r (fun _ => ERR_SUCCESS))
  | _, _ => Some (v, ERR_INVALID)
  end.

Definition ext2_vfs_create (v : vfs) (parent : option nat) (nm : option bytes) (perms : Z) : option (vfs * Z) :=
  match ino_of v parent, nm with
  | Some dir, Some nm =>
      '(v, r) ← run_vfs (ext2_create now dir nm (u16 perms)) v; Some (v, or_code r (fun _ => ERR_SUCCESS))
  | _, _ => Some (v, ERR_INVALID)
  end.

Definition ext2_vfs_unlink (v : vfs) (i : option nat) : option (vfs * Z) :=
  match i ≫= (fun k => nodes v !! k) with
  | Some n =>
      match fs_data n, ino_of v (parent n) with
      | Some _, Some dir => '(v, r) ← run_vfs (ext2_unlink now dir (name n)) v; Some (v, result r)
      | _, _ => Some (v, ERR_INVALID)
      end
  | None => Some (v, ERR_INVALID)
  end.

(** [stack]: the indeterminate contents of the local buffers. *)
Definition ext2_vfs_sync (stack : bytes) (v : vfs) (i : option nat) : option (vfs * Z) :=
  match ino_of v i with
  | None => Some (v, ERR_INVALID)
  | Some _ => '(v, r) ← run_vfs (sync_body now stack) v; Some (v, result r)
  end.

Definition ext2_vfs_mount (v : vfs) (mnt : option nat) : Z :=
  match mnt with None => ERR_INVALID | Some _ => ERR_SUCCESS end.

Definition EXT2_ROOT_INO : Z := 2.

(** [ops] is the index of [ext2_vfs_ops] among the operations tables. *)
Definition ext2_create_vfs_root (v : vfs) (ops : nat) : option (vfs * option nat) :=
  '(v, r) ← run_vfs (ext2_read_inode now EXT2_ROOT_INO) v;
  match r with
  | inl _ => Some (v, None)
  | inr inode => inode_node v [slash; 0] (Some ops) EXT2_ROOT_INO inode
  end.

End integration.

(** ** Modes round trip *)

Lemma land_split m : 0 <= m < 65536 -> Z.lor (Z.land m 4095) (Z.land m 61440) = m.
Proof.
  intros Hm. rewrite <- Z.land_lor_distr_r. change (Z.lor 4095 61440) with (Z.ones 16).
  rewrite Z.land_ones by lia. change (2 ^ 16) with 65536. apply Z.mod_small. lia.
Qed.

(** The parts of a mode put together from permissions and a type. *)
Lemma land_parts p t : Z.land t 61440 = t ->
  Z.land (Z.lor (Z.land p 4095) t) 4095 = Z.land p 4095 /\ Z.land (Z.lor (Z.land p 4095) t) 61440 = t.
Proof.
  intros Ht. rewrite !Z.land_lor_distr_l, <- !Z.land_assoc. rewrite <- Ht at 1. rewrite <- Z.land_assoc.
  change (Z.land 61440 4095) with 0. change (Z.land 4095 4095) with 4095. change (Z.land 4095 61440) with 0.
  rewrite !Z.land_0_r, Z.lor_0_r, Z.lor_0_l. done.
Qed.

(** file modes.  For regular files, directories and symbolic links the two mode
    conversions are inverse: the VFS mode gives back the ext2 mode, all sixteen bits. *)
Theorem mode_roundtrip m :
  0 <= m < 65536 -> Z.land m 61440 ∈ [EXT2_S_IFREG; EXT2_S_IFDIR; EXT2_S_IFLNK] ->
  vfs_mode_to_ext2 (ext2_mode_to_vfs m) = m.
Proof.
  intros Hm Ht. rewrite <- (land_split m Hm) at 2. unfold ext2_mode_to_vfs. rewrite !elem_of_cons, elem_of_nil in Ht.
  destruct Ht as [E | [E | [E | []]]]; rewrite E;
    unfold EXT2_S_IFREG, EXT2_S_IFDIR, EXT2_S_IFLNK; cbn [Z.eqb Pos.eqb]; unfold vfs_mode_to_ext2;
    match goal with |- context [Z.lor (Z.land m 4095) ?t] => destruct (land_parts m t eq_refl) as [-> ->] end; done.
Qed.

Lemma mode_roundtrip_witness : 33188 = 33188 /\ vfs_mode_to_ext2 (ext2_mode_to_vfs 33188) = 33188.
Proof. split; [done|]. apply (mode_roundtrip 33188); [lia|]. vm_compute. left. Defined.

(** ** Reading through the descriptor table *)
Section vfs_read.
Context {C : Type} {B : BlockStore C} {bs : Z} {L : BlockStoreLaws C bs} (now : Z).
Hypothesis bs_range : 0 < bs <= 65536.
Hypothesis bs_aligned : bs mod 16 = 0.
Implicit Types (v : vfs (ext2_fs C) Z).

(** The file system as its operations find it. *)
Definition mounted v : ext2_fs C := set_heap_pos (heap_pos v) (fs_state v).

Lemma ext2_vfs_read_spec v n ino off sz buf :
  let s := mounted v in let inode := inode_at s ino in let len := read_len inode off sz in
  fs_data n = Some ino -> fs_ok s -> itable s -> is_u32 ino -> valid_ino s ino -> indirects_ok s inode ->
  default 0 (getf inode 0 i_size) < 2147483648 -> 0 <= off -> 0 <= sz -> off + sz < 2 ^ 64 ->
  mapped s inode off len -> len <= lenZ buf -> room bs s (2 + 2 * turns (bs := bs) off len) ->
  exists s' buf', ext2_vfs_read now (world v) n off sz buf = Some (s', Ext2Base.heap_pos s', len, buf') /\
    quiet s s' (2 + 2 * turns (bs := bs) off len) /\
    splice buf 0 (file_range s inode off (Z.to_nat len)) = Some buf'.
Proof.
  intros s inode len Hd Hs Ht Hu Hv Hi Hsz Hoff Hn Hov Hmap Hbuf Hr.
  assert (0 <= turns (bs := bs) off len) as Htn by (apply turns_nonneg; [done|subst len; unfold read_len; lia]).
  assert (wp (let* inode := ext2_read_inode now ino in with_obj buf (ext2_read_file now inode off sz)) s
    (fun s' r => exists buf', r = inr (buf', inr len) /\ quiet s s' (2 + 2 * turns (bs := bs) off len) /\
       splice buf 0 (file_range s inode off (Z.to_nat len)) = Some buf')) as (s' & r & Hm & buf' & -> & Hq & Hsp).
  { apply wp_bnd. eapply wp_mono; [apply ext2_read_inode_spec; [lia|done..|unfold room in *; nia]|].
    intros s1 r [Hq ->]. destruct (decide (valid_ino s ino)) as [_|]; [|done].
    destruct (ext2_read_file_spec now bs_range bs_aligned s s1 1 inode off sz buf) as ([s' o'] & r & Hm & -> & Hq' & Hsp);
      [done|done|apply lenZ_inode_at; [lia|done..]|done|lia|done..|]. fold inode.
    exists s'. eexists. unfold with_obj. rewrite Hm. cbn. split; [done|]. eauto. }
  exists s', buf'. split; [|done]. unfold ext2_vfs_read, run. rewrite Hd. cbn [fst snd world]. fold (mounted v). fold s.
  rewrite Hm. done.
Qed.

(** C2: reading through the whole stack.  Reading from a descriptor that is open on an
    ext2 file returns the number of bytes up to the end of the file, puts exactly the
    bytes of the file from the descriptor's offset into the buffer, advances that
    descriptor by as much and touches no other one, no node and no block. *)
Theorem vfs_read_ext2_correct v fd sz buf f i n t ino :
  let s := mounted v in let inode := inode_at s ino in
  let off := fd_offset f in let len := read_len inode off sz in
  fd_in_use v fd = Some (f, i) -> nodes v !! i = Some n -> ops n = Some t ->
  tables v !! t = Some (ext2_vfs_ops now) -> fs_data n = Some ino ->
  fs_ok s -> itable s -> is_u32 ino -> valid_ino s ino -> indirects_ok s inode ->
  default 0 (getf inode 0 i_size) < 2147483648 -> 0 <= off -> 0 <= sz -> off + sz < 2 ^ 64 ->
  mapped s inode off len -> len <= lenZ buf -> room bs s (2 + 2 * turns (bs := bs) off len) ->
  exists v' buf', vfs_read v fd sz buf = Some (v', len, buf') /\
    splice buf 0 (file_range s inode off (Z.to_nat len)) = Some buf' /\
    file_descriptors v' = <[Z.to_nat fd := Fd (Some i) (off + len) (fd_flags f) (fd_refs f)]> (file_descriptors v) /\
    nodes v' = nodes v /\ quiet s (mounted v') (2 + 2 * turns (bs := bs) off len).
Proof.
  intros s inode off len Hfd Hnode Hops Htab Hd Hs Ht Hu Hv Hi Hsz Hoff Hn Hov Hmap Hbuf Hr.
  destruct (ext2_vfs_read_spec v n ino off sz buf Hd Hs Ht Hu Hv Hi Hsz Hoff Hn Hov Hmap Hbuf Hr)
    as (s' & buf' & Hrd & Hq & Hsp).
  unfold vfs_read. rewrite Hfd, Hnode. cbn [mbind option_bind negb security_check_capability].
  unfold node_op. rewrite Hops. cbn [mbind option_bind]. rewrite Htab. cbn [mbind option_bind op_read ext2_vfs_ops].
  fold off. rewrite Hrd. cbn [mbind option_bind]. fold s inode len. eexists _, buf'. split; [done|]. split; [done|].
  assert (fd_node f = Some i) as Hfi.
  { unfold fd_in_use in Hfd. destruct (_ && _); [|done]. destruct (_ !! _) as [g|]; [|done].
    cbn in Hfd. destruct (fd_node g) eqn:E; [|done]. cbn in Hfd. by simplify_eq. }
  assert (mounted (set_world (s', Ext2Base.heap_pos s') v) = s') as Hm by by destruct s'.
  destruct (Z.ltb_spec 0 len) as [Hpos|Hz].
  - unfold advance. rewrite Hfi. fold off. rewrite u64_id.
    + split; [done|]. split; [done|]. change (mounted (set_fds ?l ?x)) with (mounted x). by rewrite Hm.
    + split; [subst len; unfold read_len in *; lia|]. subst len. unfold read_len. change (2 ^ 64) with 18446744073709551616 in *. lia.
  - rewrite Hm. split; [|by split]. cbn [file_descriptors set_world]. symmetry. apply list_insert_id.
    replace len with 0 by (subst len; unfold read_len in *; lia). rewrite Z.add_0_r.
    unfold fd_in_use in Hfd. destruct (_ && _); [|done]. destruct (_ !! _) as [g|]; [|done].
    cbn in Hfd. destruct (fd_node g) eqn:E; [|done]. cbn in Hfd. simplify_eq. subst off. by destruct f; cbn in *; simplify_eq.
Qed.

End vfs_read.

(** ** Nodes found by the lookup callback *)
Section vfs_lookup.
Context {C : Type} {B : BlockStore C} (heap_base now : Z).
Implicit Types (v : vfs (ext2_fs C) Z).

Lemma inode_node_ops v nm o ino inode v' i :
  inode_node heap_base now v nm o ino inode = Some (v', Some i) ->
  exists n, nodes v' !! i = Some n /\ ops n = o /\ fs_data n = Some ino.
Proof.
  unfold inode_node. destruct (getf inode 0 i_mode) as [md|]; cbn [mbind option_bind]; [|done].
  destruct (getf inode 0 i_uid) as [uid|]; cbn [mbind option_bind]; [|done].
  destruct (getf inode 0 i_gid) as [gid|]; cbn [mbind option_bind]; [|done].
  unfold vfs_create_node. destruct (malloc _ _) as [[a|] h]; cbn [mbind option_bind]; [|done].
  destruct (copy_name _ _) as [b|]; cbn [mbind option_bind]; [|done].
  destruct (setZ _ _ _) as [b'|]; cbn [mbind option_bind]; [|done].
  destruct (malloc _ _) as [[d|] h']; [|done].
  destruct (getf _ _ _) as [z|]; [|done]. cbn [mbind option_bind]. intros H. injection H as <- <-.
  eexists. cbn [nodes set_heap set_nodes upd_node].
  rewrite list_lookup_alter_eq, lookup_app_r, Nat.sub_diag by done. cbn. done.
Qed.

(** files found by the lookup callback cannot be read.  [ext2_vfs_lookup] gives the
    node it creates the inode but no operations table, so every read of a descriptor on
    that node delivers nothing, whatever the file holds. *)
Theorem ext2_vfs_lookup_inert v parent nm v' i :
  ext2_vfs_lookup heap_base now v parent nm = Some (v', Some i) ->
  exists n, nodes v' !! i = Some n /\ ops n = None /\
    forall fd f sz buf, fd_in_use v' fd = Some (f, i) -> vfs_read v' fd sz buf = Some (v', 0, buf).
Proof.
  unfold ext2_vfs_lookup. destruct parent as [p|]; [|done]. destruct nm as [nm|]; [|done].
  destruct (nodes v !! p) as [pn|]; [|done]. cbn [mbind option_bind]. destruct (fs_data pn) as [dir|]; [|done].
  destruct (run_vfs _ _) as [[v1 [e|[ino inode]]]|]; [done| |done]. cbn [mbind option_bind]. intros H.
  apply inode_node_ops in H as (n & Hn & Ho & _). exists n. split; [done|]. split; [done|].
  intros fd f sz buf Hf. unfold vfs_read. rewrite Hf, Hn.
  cbn [mbind option_bind negb security_check_capability]. unfold node_op. by rewrite Ho.
Qed.

End vfs_lookup.
