(* ===== verification/Ext2Image.v ===== *)
(** * A concrete file system

    A 16-block image with a root directory and a file, on a RAM disk below a new
    block cache: the hypotheses of the ext2 and VFS theorems hold of it. *)
From S2P Require Import Prelude KernelLib Device BlockDev BlockCache BlockCacheProofs.
From S2P Require Import Ext2Base Ext2Alloc Ext2Inode Ext2File Ext2Write Ext2Mount Ext2Dir Ext2DirProofs Ext2Create Vfs VfsProofs Ext2Vfs.
Import Memory Ramdisk RamdiskProofs.
Open Scope Z_scope.
Open Scope ext2_scope.

(** ** The image *)
Fixpoint sets (base : Z) (l : list (field * Z)) (buf : bytes) : bytes :=
  match l with
  | [] => buf
  | (f, v) :: l' => sets base l' (default [] (setf buf base f v))
  end.

Definition zeros (n : nat) : bytes := replicate n 0.
Definition iblk_field (k : Z) : field := Field (f_off i_block0 + 4 * k) 4.

Definition sb0 : bytes := Eval vm_compute in
  sets 0 [(s_inodes_count, 8); (s_blocks_count, 16); (s_free_blocks_count, 6); (s_free_inodes_count, 4);
          (s_first_data_block, 1); (s_blocks_per_group, 16); (s_inodes_per_group, 8);
          (s_magic, EXT2_MAGIC); (s_inode_size, 128)] (zeros 1024).
Definition bg0 : bytes := Eval vm_compute in
  sets 0 [(bg_block_bitmap, 3); (bg_inode_bitmap, 4); (bg_inode_table, 5);
          (bg_free_blocks_count, 6); (bg_free_inodes_count, 4)] (zeros 32).

(** Inode 2 is the root directory, in block 6; inode 3 a file of 13000 bytes, in
    block 7 and, as its block 12, through the indirect block 9 in block 8. *)
Definition root_inode : bytes := Eval vm_compute in
  sets 0 [(i_mode, 16877); (i_size, 1024); (i_links_count, 2); (iblk_field 0, 6)] (zeros 128).
Definition file_inode : bytes := Eval vm_compute in
  sets 0 [(i_mode, 33188); (i_size, 13000); (i_links_count, 1); (iblk_field 0, 7); (iblk_field 12, 9)] (zeros 128).

(** The records of the root directory: ["."], [".."] and the file ["ab"]. *)
Definition dir_block : bytes := Eval vm_compute in
  sets 0 [(de_inode, 2); (de_rec_len, 12); (de_name_len, 1); (de_file_type, 2); (de_name, 46)]
  (sets 12 [(de_inode, 2); (de_rec_len, 12); (de_name_len, 2); (de_file_type, 2); (de_name, 46)]
  (sets 13 [(de_name, 46)]
  (sets 24 [(de_inode, 3); (de_rec_len, 1000); (de_name_len, 2); (de_file_type, 1); (de_name, 97)]
  (sets 25 [(de_name, 98)] (zeros 1024))))).

Definition image : list bytes :=
  [zeros 1024; sb0; bg0 ++ zeros 992; [255; 129] ++ zeros 1022; 15 :: zeros 1023;
   zeros 128 ++ root_inode ++ file_inode ++ zeros 640; dir_block;
   replicate 1024 65; replicate 1024 66; 8 :: zeros 1023;
   zeros 1024; zeros 1024; zeros 1024; zeros 1024; zeros 1024; zeros 1024].

(** ** The mounted file system *)
Definition disk0 : option ramdisk := Some (RamDisk 16384 (concat image) 1024).
Definition dev0 : option (BlockDev.block_device (option ramdisk)) := Some (BlockDevice disk0 (Some ramdisk_block_ops)).
Definition cache0 : block_cache (option ramdisk) :=
  Cache (replicate BLOCK_CACHE_SIZE (fresh_entry 1024)) None None dev0 0 0 1024.
Definition heap0 : Z := Eval vm_compute in (block_cache_create 0 dev0 1024).2.

Abbreviation store := (option (block_cache (option ramdisk))).
Definition fs0 : ext2_fs store := Fs (Some cache0) sb0 bg0 1024 1 true heap0.

#[export] Instance driver0 : BlockDriver ramdisk_block_ops 1024 :=
  ramdisk_driver 16 1024 ltac:(lia) ltac:(lia).
#[export] Instance laws0 : BlockStoreLaws store 1024 := cache_store_laws ramdisk_block_ops 1024 ltac:(lia).

Lemma create0 : block_cache_create 0 dev0 1024 = (Some cache0, heap0).
Proof.
  assert (match block_cache_create 0 dev0 1024 with (Some _, h) => h =? heap0 | _ => false end = true)
    by (vm_compute; reflexivity).
  destruct (block_cache_create 0 dev0 1024) as [[c|] h] eqn:E; [|done].
  apply Reach.block_cache_create_eq in E as ->. by replace h with heap0 by lia.
Qed.

Lemma disk0_inv : disk_inv 16 1024 disk0.
Proof. eexists. split; [done|]. split; [done|]. split; [done|]. vm_compute. reflexivity. Qed.

Lemma st_ok0 b : st_ok (C := store) b <-> 0 <= b < 16.
Proof. done. Qed.

Lemma image_blocks : forallb (fun k => bool_decide (disk_block 1024 disk0 (Z.of_nat k) = nth k image [])) (seq 0 16) = true.
Proof. vm_compute. reflexivity. Qed.

Lemma cache0_shows : Refine.shows ramdisk_block_ops 1024 cache0 (disk_block 1024 disk0).
Proof. exact (Refine.create_shows ramdisk_block_ops 1024 ltac:(lia) 0 disk0 cache0 heap0 disk0_inv create0). Qed.

Lemma view0 b : 0 <= b < 16 -> view fs0 b = nth (Z.to_nat b) image [].
Proof.
  intros Hb. destruct cache0_shows as [_ Hv]. change (view fs0 b) with (Refine.view ramdisk_block_ops 1024 cache0 b).
  rewrite Hv by done. pose proof (proj1 (forallb_forall _ _) image_blocks (Z.to_nat b)) as H. cbv beta in H.
  rewrite Z2Nat.id in H by lia. eapply bool_decide_eq_true_1, H. rewrite in_seq. lia.
Qed.

Lemma fs0_ok : fs_ok fs0.
Proof.
  split; [|done|done|vm_compute; reflexivity|].
  - exists cache0. split; [done|]. apply cache0_shows.
  - split; [done|]. vm_compute. discriminate.
Qed.

(** Its superblock and its descriptor, evaluated. *)
Lemma sbv0 f v : getf sb0 0 f = Some v -> sbv fs0 f = v.
Proof. unfold sbv. cbn [superblock fs0]. by intros ->. Qed.
Lemma bgv0 f v : getf bg0 0 f = Some v -> bgv fs0 0 f = v.
Proof. unfold bgv. cbn [block_groups fs0]. rewrite Z.mul_0_l. by intros ->. Qed.

Ltac sbv_eval := repeat match goal with
  | |- context [sbv fs0 ?f] => rewrite (sbv0 f _ ltac:(vm_compute; reflexivity))
  | |- context [bgv fs0 0 ?f] => rewrite (bgv0 f _ ltac:(vm_compute; reflexivity))
  | H : context [sbv fs0 ?f] |- _ => rewrite (sbv0 f _ ltac:(vm_compute; reflexivity)) in H
  | H : context [bgv fs0 0 ?f] |- _ => rewrite (bgv0 f _ ltac:(vm_compute; reflexivity)) in H
  end.

Lemma one_group g : 0 <= g < num_block_groups fs0 -> g = 0.
Proof. cbn [num_block_groups fs0]. lia. Qed.

Lemma geometry0 : geometry blocks fs0.
Proof.
  split.
  - intros g ->%one_group. cbn [k_bitmap blocks]. sbv_eval. by apply st_ok0.
  - intros g g' ->%one_group ->%one_group. done.
  - cbn [k_per_group blocks]. sbv_eval. lia.
Qed.

Lemma numbers_fit0 : numbers_fit fs0.
Proof. unfold numbers_fit. sbv_eval. cbn [num_block_groups fs0]. lia. Qed.

(** The free blocks are 10 to 15. *)
Lemma free_bits : forallb (fun k => implb (bool_decide (Bitmap.test_bit (nth 3 image []) (Z.of_nat k) = Some false))
  ((8 <? Z.of_nat k) && (Z.of_nat k <? 15))) (seq 0 16) = true.
Proof. vm_compute. reflexivity. Qed.

Lemma free0 b : block_free fs0 b -> 10 <= b < 16.
Proof.
  intros (g & bit & (->%one_group & Hbit & ->) & Ht). unfold bitmap_of in Ht. cbn [k_bitmap blocks] in Ht. sbv_eval.
  rewrite view0 in Ht by lia. pose proof (proj1 (forallb_forall _ _) free_bits (Z.to_nat bit)) as H. cbv beta in H.
  rewrite Z2Nat.id in H by lia. change (Z.to_nat 3) with 3%nat in Ht. rewrite in_seq, bool_decide_eq_true_2 in H by done.
  specialize (H ltac:(lia)). cbn in H. lia.
Qed.

Lemma padded0 : padded fs0.
Proof. intros b Hb%free0. sbv_eval. lia. Qed.

Lemma bytes_ok_forallb (l : bytes) : forallb (fun b => (0 <=? b) && (b <? 256)) l = true -> bytes_ok l.
Proof.
  intros H. apply list.Forall_forall. intros x Hx. rewrite forallb_forall in H.
  specialize (H x (proj1 (list_elem_of_In _ _) Hx)). red. lia.
Qed.

Lemma inode3 : inode_at fs0 3 = file_inode.
Proof.
  unfold inode_at, iblock, ioff, iindex, igroup, isize. sbv_eval.
  change ((3 - 1) / 8) with 0. sbv_eval. change (5 + _) with 5. rewrite view0 by lia. vm_compute. reflexivity.
Qed.

Lemma indirects0 : indirects_ok fs0 file_inode.
Proof.
  split.
  - intros _. by apply st_ok0.
  - intros H. by destruct H.
Qed.

Lemma itable0 : itable fs0.
Proof.
  assert (forall ino, valid_ino fs0 ino -> igroup fs0 ino = 0 /\ iblock (bs := 1024) fs0 ino = 5) as H.
  { intros ino [H _]. unfold iblock, igroup, iindex, isize in *. sbv_eval. 
    assert ((ino - 1) / 8 = 0) as -> by dlia. sbv_eval. cbn [Z.eqb]. split; [done|]. change (1024 / 128) with 8. dlia. }
  split.
  - sbv_eval. lia.
  - unfold isize. sbv_eval. done.
  - intros ino [_ ->]%H. by split.
  - intros ino j [-> _]%H [-> _]%H. done.
Qed.

Lemma map0 : map_ok fs0 file_inode.
Proof.
  split; [vm_compute; reflexivity|exact indirects0|..].
  - intros H. by destruct H.
  - intros H. by destruct H.
  - intros b Hb%free0. split; [apply st_ok0; lia|]. split; [lia|]. red. lia.
Qed.

(** Blocks 11 and 12 of the file: a hole, and the first entry of the indirect block. *)
Lemma mapped0 : mapped fs0 file_inode 12280 16.
Proof.
  intros p Hp. assert (p / 1024 = 11 \/ p / 1024 = 12) as [-> | ->] by dlia; unfold bmap; cbn [decide decide_rel].
  - destruct (decide (11 < 12)); [|lia]. exists 0. split; [done|]. lia.
  - destruct (decide (12 < 12)); [lia|]. destruct (decide _) as [_|Hno]; [|by destruct Hno].
    exists 8. split; [|by intros; apply st_ok0]. unfold entry. change (iblk file_inode 12) with 9. cbn [Z.eqb].
    rewrite view0 by lia. vm_compute. reflexivity.
Qed.

(** ** The theorems at the image *)

Lemma ext2_alloc_blocks_distinct_witness :
  wp (alloc_blocks 0 3) fs0 (fun s' r =>
    match r with
    | inr l => length l = 3%nat /\ NoDup l /\ Forall (block_free fs0) l
    | inl e => e = ERR_NO_MEMORY
    end).
Proof.
  apply (ext2_alloc_blocks_distinct (bs := 1024) 0 ltac:(lia) ltac:(done) 3 fs0);
    [exact fs0_ok|exact geometry0|exact numbers_fit0|vm_compute; discriminate].
Defined.

Lemma ext2_alloc_free_block_witness :
  wp (let* b := ext2_alloc_block 0 in ext2_free_block 0 b) fs0 (fun s' r =>
    (r = inr tt \/ r = inl ERR_NO_MEMORY) /\ (forall b, st_ok b -> view s' b = view fs0 b) /\
    superblock s' = sb0 /\ block_groups s' = bg0).
Proof.
  apply (ext2_alloc_free_block (bs := 1024) 0 ltac:(lia) ltac:(done) fs0);
    [exact fs0_ok|exact geometry0|exact numbers_fit0|exact padded0| | | |vm_compute; discriminate].
  - apply bytes_ok_forallb. vm_compute. reflexivity.
  - apply bytes_ok_forallb. vm_compute. reflexivity.
  - intros g ->%one_group. apply bytes_ok_forallb. unfold bitmap_of. cbn [k_bitmap blocks]. sbv_eval.
    rewrite view0 by lia. vm_compute. reflexivity.
Defined.

Lemma ext2_inode_write_read_witness :
  wp (ext2_read_inode 0 2) fs0 (fun _ before =>
    wp (ext2_write_inode 0 3 root_inode;;; ext2_read_inode 0 2) fs0 (fun _ after =>
      after = if decide (2 = 3) then inr root_inode else before)).
Proof.
  apply (ext2_inode_write_read (bs := 1024) 0 ltac:(lia) ltac:(done) fs0 3 2 root_inode);
    [exact fs0_ok|exact itable0|done|done| | |done|vm_compute; discriminate];
    (split; [sbv_eval; lia|unfold igroup; sbv_eval; done]).
Defined.

Lemma ext2_get_block_num_correct_witness :
  wp (ext2_get_block_num 0 file_inode 12) fs0 (fun s' r => quiet fs0 s' 2 /\ r = bmap fs0 file_inode 12).
Proof.
  apply (ext2_get_block_num_correct (bs := 1024) 0 ltac:(lia) ltac:(done) fs0 file_inode 12);
    [exact fs0_ok|done|exact indirects0|done|vm_compute; discriminate].
Defined.

Lemma ext2_set_get_block_num_witness :
  wp (ext2_set_block_num 0 13 10) (fs0, file_inode) (fun p r =>
    match r with inr _ => map_set fs0 file_inode 13 10 p.1 p.2 | inl e => e = ERR_NO_MEMORY end).
Proof.
  exact (ext2_set_get_block_num (bs := 1024) 0 ltac:(lia) ltac:(done) fs0 file_inode 13 10 fs0_ok map0 geometry0 numbers_fit0
    ltac:(done) ltac:(done) ltac:(vm_compute; discriminate)).
Defined.

Lemma ext2_read_file_correct_witness :
  wp (ext2_read_file 0 file_inode 12280 16) (fs0, zeros 16) (fun p r =>
    r = inr 16 /\ quiet fs0 p.1 5 /\ splice (zeros 16) 0 (file_range fs0 file_inode 12280 16) = Some p.2).
Proof.
  exact (ext2_read_file_correct (bs := 1024) 0 ltac:(lia) ltac:(done) fs0 file_inode 12280 16 (zeros 16) fs0_ok eq_refl indirects0
    ltac:(done) ltac:(done) ltac:(done) ltac:(done) mapped0 ltac:(done) ltac:(vm_compute; discriminate)).
Defined.

(** The blocks of the file: 7 and 8, at 0 and 12. *)
Lemma fblock0 fb : writable (bs := 1024) fb ->
  fblock (bs := 1024) fs0 file_inode fb = if decide (fb = 0) then 7 else if decide (fb = 12) then 8 else 0.
Proof.
  intros Hfb. rewrite fblock_unfold by done. destruct Hfb as [H0 H1]. change (12 + addrs) with 268 in H1.
  assert (forallb (fun k => iblk file_inode (Z.of_nat k) =? if decide (Z.of_nat k = 0) then 7 else 0) (seq 0 12) = true) as Hd
    by (vm_compute; reflexivity).
  assert (forallb (fun k => default 0 (ld (nth 9 image []) (4 * Z.of_nat k) 4) =? if decide (Z.of_nat k = 0) then 8 else 0)
    (seq 0 256) = true) as Hi by (vm_compute; reflexivity).
  case_decide as E.
  - pose proof (proj1 (forallb_forall _ _) Hd (Z.to_nat fb)) as H. rewrite in_seq, Z2Nat.id in H by lia.
    specialize (H ltac:(lia)). repeat case_decide; lia.
  - unfold entry. change (iblk file_inode 12) with 9. cbn [Z.eqb]. rewrite view0 by lia. change (Z.to_nat 9) with 9%nat.
    pose proof (proj1 (forallb_forall _ _) Hi (Z.to_nat (fb - 12))) as H. rewrite in_seq, Z2Nat.id in H by lia.
    specialize (H ltac:(lia)). repeat case_decide; lia.
Qed.

Lemma is_bitmap0 b : is_bitmap fs0 b -> b = 3.
Proof. intros (g & ->%one_group & ->). by sbv_eval. Qed.

Lemma in_use0 b : 4 <= b < 10 -> in_use fs0 b.
Proof. intros Hb. split; [apply st_ok0; lia|]. split; [intros ?%free0; lia|intros ?%is_bitmap0; lia]. Qed.

Lemma file_ok0 : file_ok (bs := 1024) fs0 file_inode.
Proof.
  split; [split; [exact fs0_ok|exact geometry0|exact numbers_fit0|]|done|done|..].
  - intros b Hb%free0. split; [apply st_ok0; lia|]. split; [lia|]. split; [red; lia|]. intros ?%is_bitmap0. lia.
  - intros _. by apply in_use0.
  - intros fb Hfb. rewrite fblock0 by done. change (iblk file_inode 12) with 9.
    repeat case_decide; intros Hn0; [split; [by apply in_use0|done]..|done].
  - intros fb fb' Hfb Hfb'. rewrite !fblock0 by done. repeat case_decide; congruence.
Qed.

(** A write across the hole 11 and the block 12. *)
Lemma ext2_write_read_witness :
  wp (ext2_write_file 0 12280 (lenZ (replicate 16 90)) (replicate 16 90)) (fs0, file_inode) (fun q r =>
    match r with
    | inl e => e = ERR_NO_MEMORY
    | inr k => k = lenZ (replicate 16 90) /\ file_ok (bs := 1024) q.1 q.2 /\
        getf q.2 0 i_size = Some (new_size file_inode 12280 (lenZ (replicate 16 90))) /\
        wp (ext2_read_file 0 q.2 12280 (lenZ (replicate 16 90))) (q.1, zeros 16) (fun q' r' =>
          r' = inr (lenZ (replicate 16 90)) /\ splice (zeros 16) 0 (replicate 16 90) = Some q'.2) /\
        (forall p, writable (bs := 1024) (p / 1024) -> ~ 12280 <= p < 12280 + lenZ (replicate 16 90) ->
           fblock (bs := 1024) fs0 file_inode (p / 1024) <> 0 \/ untouched (bs := 1024) 12280 (lenZ (replicate 16 90)) (p / 1024) ->
           file_byte (bs := 1024) q.1 q.2 p = file_byte (bs := 1024) fs0 file_inode p)
    end).
Proof.
  exact (ext2_write_read (bs := 1024) 0 ltac:(lia) ltac:(done) fs0 file_inode 12280 (replicate 16 90) (zeros 16) file_ok0
    ltac:(lia) ltac:(vm_compute; discriminate) ltac:(vm_compute; reflexivity) ltac:(vm_compute; reflexivity)
    ltac:(vm_compute; discriminate) ltac:(vm_compute; discriminate)).
Defined.

Lemma ext2_sync_mount_witness : exists s1 s2 c heap',
  ext2_sync 0 (zeros 1024) (Some fs0) = Some (Some s1, ERR_SUCCESS) /\
  ext2_mount 0 (zeros 1024) (Some (block_device s1)) heap0 = Some (Some s2, Some c, heap') /\
  superblock s2 = sb0 /\ block_groups s2 = bg0.
Proof.
  destruct (ext2_sync_mount 0 (zeros 1024) eq_refl fs0 heap0) as (s1 & s2 & c & h & H1 & _ & H2 & H3 & _ & _ & _ & H4 & _);
    [exact fs0_ok|done| |vm_compute; reflexivity|by apply st_ok0| |done|vm_compute; discriminate|].
  - split; [done|]. split; vm_compute; reflexivity.
  - split; [done|]. intros j Hj. cbn [num_block_groups fs0]. intros. apply st_ok0. lia.
  - exists s1, s2, c, h. split; [exact H1|]. split; [exact H2|]. by split.
Defined.

(** *** The root directory *)
Definition root_recs : list (Z * bytes) := [(2, [46]); (2, [46; 46]); (3, [97; 98])].

Lemma dir_chain : Chain.chain 1024 false dir_block 0 root_recs.
Proof.
  eapply (Chain.chain_rec _ _ _ 0 2 12 [46]); [done..|].
  eapply (Chain.chain_rec _ _ _ 12 2 12 [46; 46]); [done..|].
  eapply (Chain.chain_rec _ _ _ 24 3 1000 [97; 98]); [done..|].
  apply Chain.chain_full.
Qed.

Lemma dir_find_correct_witness : Chain.find_rec root_recs [97; 98] = Some 3 /\
  dir_find 1024 dir_block ([97; 98] ++ [0]) 0 1024 = Some (Some 3).
Proof.
  split; [done|].
  exact (Chain.dir_find_correct 1024 false ltac:(lia) ltac:(done) dir_block root_recs [97; 98] dir_chain ltac:(by repeat constructor)).
Defined.

Lemma dir_insert_find_witness : exists sl buf',
  dir_insert 1024 dir_block ([120; 121; 122] ++ [0]) 4 1 3 12 0 1024 = Some sl /\ Chain.slot_buf sl = Some buf' /\
  dir_find 1024 buf' ([97; 98] ++ [0]) 0 1024 = Some (Some 3).
Proof.
  destruct (dir_insert 1024 dir_block ([120; 121; 122] ++ [0]) 4 1 3 12 0 1024) as [sl|] eqn:E; [|by vm_compute in E].
  destruct (Chain.slot_buf sl) as [buf'|] eqn:E';
    [|by vm_compute in E; injection E as <-].
  exists sl, buf'. split; [done|]. split; [done|].
  exact (Chain.dir_insert_find 1024 false ltac:(lia) eq_refl dir_block root_recs 4 1 [120; 121; 122] sl buf' [97; 98]
    dir_chain eq_refl ltac:(done) ltac:(done) ltac:(by repeat constructor) ltac:(by repeat constructor)
    ltac:(done) ltac:(done) eq_refl E E').
Defined.

(** The root directory as [ext2_lookup] and [ext2_create] use it. *)
Lemma inode2 : inode_at fs0 2 = root_inode.
Proof.
  unfold inode_at, iblock, ioff, iindex, igroup, isize. sbv_eval.
  change ((2 - 1) / 8) with 0. sbv_eval. change (5 + _) with 5. rewrite view0 by lia. vm_compute. reflexivity.
Qed.

Lemma valid2 : valid_ino fs0 2.
Proof. split; [sbv_eval; lia|unfold igroup; sbv_eval; done]. Qed.

Lemma dir_ok0 : dir_ok (bs := 1024) fs0 2 [root_recs].
Proof.
  split; rewrite ?inode2; [exact fs0_ok|exact itable0|done|exact valid2|..].
  - eexists. split; [vm_compute; reflexivity|done].
  - split; intros H; by destruct H.
  - vm_compute. reflexivity.
  - vm_compute. reflexivity.
  - intros [|i] recs Hr; [|done]. injection Hr as <-. exists 6. split; [done|]. split; [done|]. split; [by apply st_ok0|].
    rewrite view0 by lia. exact dir_chain.
Qed.

Lemma dir_data0 b : dir_data (bs := 1024) fs0 2 [root_recs] b -> b = 6.
Proof.
  intros (i & Hi & Hb). cbn in Hi. assert (i = 0%nat) as -> by lia. rewrite inode2 in Hb. vm_compute in Hb. by injection Hb.
Qed.

Lemma iblock0 j : valid_ino fs0 j -> iblock (bs := 1024) fs0 j = 5.
Proof.
  intros [H _]. unfold iblock, igroup, iindex, isize in *. sbv_eval.
  assert ((j - 1) / 8 = 0) as -> by dlia. sbv_eval. cbn [Z.eqb]. change (1024 / 128) with 8. dlia.
Qed.

Lemma tree_ok0 : tree_ok (bs := 1024) fs0 2 [root_recs].
Proof.
  split; [exact dir_ok0|split|split|..].
  - intros i j b Hi Hj _ _. cbn in Hi, Hj. lia.
  - intros b j ->%dir_data0 Hj. by rewrite iblock0.
  - unfold dir_clear. rewrite inode2. split; intros H; by destruct H.
  - intros g ->%one_group. cbn [k_bitmap inodes]. sbv_eval. by apply st_ok0.
  - intros g g' ->%one_group ->%one_group. done.
  - cbn [k_per_group inodes]. sbv_eval. lia.
  - intros g ->%one_group. sbv_eval. split; [by intros ?%dir_data0|]. intros j Hj. by rewrite iblock0.
  - unfold dir_clear. rewrite inode2. split; intros H; by destruct H.
  - intros g bit ino (->%one_group & Hbit & -> & Htest). unfold bitmap_of in Htest. cbn [k_bitmap inodes] in Htest. sbv_eval.
    rewrite view0 in Htest by lia.
    assert (bit <> 1) by (intros ->; vm_compute in Htest; done).
    split; [split; [sbv_eval; lia|unfold igroup; sbv_eval; cbn [num_block_groups fs0]; dlia]|]. split; [lia|red; lia].
Qed.

Lemma ext2_lookup_correct_witness :
  wp (ext2_lookup 0 2 ([97; 98] ++ [0])) fs0 (fun s' r => quiet fs0 s' 4 /\ r = found (concat [root_recs]) [97; 98]).
Proof.
  exact (ext2_lookup_correct (bs := 1024) 0 ltac:(lia) ltac:(done) fs0 2 [root_recs] [97; 98] dir_ok0
    ltac:(by repeat constructor) ltac:(vm_compute; discriminate)).
Defined.

Lemma roomy0 : dir_roomy (bs := 1024) fs0 2 [root_recs] 4.
Proof.
  intros [|i] recs b Hr Hb; [|done]. injection Hr as <-. rewrite inode2 in Hb. vm_compute in Hb. injection Hb as <-.
  rewrite view0 by lia. vm_compute. repeat split; intros; discriminate.
Qed.

Lemma ext2_create_lookup_witness :
  wp (ext2_create 0 2 ([119; 120; 121; 122] ++ [0]) 420) fs0 (fun s' r =>
    match r with
    | inl e => e = ERR_NO_MEMORY
    | inr ino =>
        (forall nm', CString.nul_free nm' -> wp (ext2_lookup 0 2 (nm' ++ [0])) s' (fun _ r' =>
           r' = if decide (nm' = [119; 120; 121; 122]) then inr ino else found (concat [root_recs]) nm')) /\
        exists inode, wp (ext2_read_inode 0 ino) s' (fun _ r' => r' = inr inode) /\
          getf inode 0 i_mode = Some (u16 (Z.lor EXT2_S_IFREG (Z.land 420 4095))) /\ getf inode 0 i_size = Some 0
    end).
Proof.
  exact (ext2_create_lookup (bs := 1024) 0 ltac:(lia) ltac:(done) fs0 2 [root_recs] [119; 120; 121; 122] 420 tree_ok0
    ltac:(done) ltac:(by repeat constructor) ltac:(vm_compute; discriminate) roomy0 eq_refl
    ltac:(vm_compute; discriminate)).
Defined.

(** *** The file system under the VFS *)
Definition file_node : vfs_node Z :=
  Node (97 :: 98 :: zeros 254) 3 4516 13000 420 0 0 0 0 0 1 (Some 0%nat) (Some 3) None None None None None.
Definition root_node : vfs_node Z :=
  Node (47 :: zeros 255) 2 8685 1024 493 0 0 0 0 0 1 (Some 0%nat) (Some 2) None None None None None.
Definition vfs0 : vfs (ext2_fs store) Z :=
  Vfs [file_node; root_node] (Some 1%nat) [] (<[0%nat := Fd (Some 0%nat) 12280 1 1]> (replicate 256 empty_fd))
    [ext2_vfs_ops 0] fs0 heap0.

Lemma vfs_read_ext2_correct_witness : exists v' buf',
  vfs_read vfs0 0 16 (zeros 16) = Some (v', 16, buf') /\
  splice (zeros 16) 0 (file_range fs0 (inode_at fs0 3) 12280 16) = Some buf' /\
  file_descriptors v' !! 0%nat = Some (Fd (Some 0%nat) 12296 1 1).
Proof.
  assert (mounted vfs0 = fs0) as Em by done.
  destruct (vfs_read_ext2_correct (bs := 1024) 0 ltac:(lia) eq_refl vfs0 0 16 (zeros 16) (Fd (Some 0%nat) 12280 1 1) 0
    file_node 0 3) as (v' & buf' & Hr & Hs & Hf & _); rewrite ?Em, ?inode3;
    [done|done|done|done|done|exact fs0_ok|exact itable0|red; lia| |exact indirects0|done|done|done|done
    |exact mapped0|done|vm_compute; discriminate|].
  - split; [sbv_eval; lia|unfold igroup; sbv_eval; done].
  - rewrite Em, inode3 in *. exists v', buf'. split; [exact Hr|]. split; [exact Hs|]. by rewrite Hf.
Defined.

Lemma ext2_vfs_lookup_inert_witness : exists v' i n,
  ext2_vfs_lookup 0 0 vfs0 (Some 1%nat) (Some [97; 98; 0]) = Some (v', Some i) /\
  nodes v' !! i = Some n /\ ops n = None.
Proof.
  assert (match ext2_vfs_lookup 0 0 vfs0 (Some 1%nat) (Some [97; 98; 0]) with Some (_, Some _) => true | _ => false end
    = true) as Hb by (vm_compute; reflexivity).
  destruct (ext2_vfs_lookup 0 0 vfs0 (Some 1%nat) (Some [97; 98; 0])) as [[v' [i|]]|] eqn:E; [|done..].
  destruct (ext2_vfs_lookup_inert 0 0 vfs0 (Some 1%nat) (Some [97; 98; 0]) v' i E) as (n & Hn & Ho & _).
  exists v', i, n. split; [reflexivity|]. split; [exact Hn|exact Ho].
Defined.
