(* ===== verification/Ext2Readdir.v ===== *)
(** * Enumerating a directory: [ext2_readdir] of [src/fs/ext2/dir.c]

    [ext2_readdir] over a whole directory: the entry with a given number among the live records of its
    blocks.  It copies the 263 bytes of a full [ext2_dir_entry_t], however long the record is, so what it
    returns is defined for records that start at least that far from the end of their block. *)
From S2P Require Import Prelude KernelLib Ext2Base Ext2Alloc Ext2Inode Ext2File Ext2Write Ext2Dir Ext2DirProofs Ext2Image.
Import Memory CString Chain.
Open Scope Z_scope.
Open Scope ext2_scope.

(** The records in use, in order *)
Definition live (recs : list (Z * bytes)) : list (Z * bytes) := filter (fun r => r.1 <> 0) recs.

(** The live records from [off] start at least 263 bytes before the end of the block. *)
Fixpoint spaced (size : Z) (buf : bytes) (off : Z) (recs : list (Z * bytes)) : Prop :=
  match recs with
  | [] => True
  | (ino, _) :: recs' =>
      (ino <> 0 -> off + sizeof_dirent <= size) /\ spaced size buf (off + default 0 (getf buf off de_rec_len)) recs'
  end.

(** The live record with the number [n], if there is one, starts at least 263 bytes before the end of the block. *)
Fixpoint spaced_at (n : nat) (size : Z) (buf : bytes) (off : Z) (recs : list (Z * bytes)) : Prop :=
  match recs with
  | [] => True
  | (ino, _) :: recs' =>
      let next := off + default 0 (getf buf off de_rec_len) in
      if ino =? 0 then spaced_at n size buf next recs'
      else match n with O => off + sizeof_dirent <= size | S n' => spaced_at n' size buf next recs' end
  end.

Lemma spaced_nth size buf off recs n : spaced size buf off recs -> spaced_at n size buf off recs.
Proof.
  revert off n. induction recs as [|[ino nm] recs IH]; intros off n; cbn [spaced spaced_at]; [done|]. intros [H1 H2].
  destruct (Z.eqb_spec ino 0); [by apply IH|]. destruct n; [by apply H1|by apply IH].
Qed.

(** The structure [e] holds the record: its inode, and its name with its length. *)
Definition entry_is (e : bytes) (r : Z * bytes) : Prop :=
  lenZ e = sizeof_dirent /\ getf e 0 de_inode = Some r.1 /\ getf e 0 de_name_len = Some (lenZ r.2) /\ slice e 8 (lenZ r.2) = Some r.2.

Lemma live_cons ino nm recs : live ((ino, nm) :: recs) = if ino =? 0 then live recs else (ino, nm) :: live recs.
Proof.
  unfold live. destruct (Z.eqb_spec ino 0) as [->|H]; [by rewrite filter_cons_False by (cbn; congruence)|by rewrite filter_cons_True].
Qed.

Lemma live_app recs1 recs2 : live (recs1 ++ recs2) = live recs1 ++ live recs2.
Proof. unfold live. induction recs1 as [|r recs1 IH]; [done|]. cbn [app]. rewrite !filter_cons, IH. by case_decide. Qed.

(** Members and names of a record are those of the copy of its structure. *)
Lemma slice_slice (buf : bytes) off n e pos k : slice buf off n = Some e -> 0 <= pos -> 0 <= k -> pos + k <= n -> slice e pos k = slice buf (off + pos) k.
Proof.
  intros (? & ? & ? & ->)%slice_inv Hp Hk Hn. unfold slice, lenZ in *. rewrite length_take, length_drop.
  case_match; case_match; try done; try lia. f_equal.
  rewrite skipn_firstn_comm, take_take, drop_drop. f_equal; [lia|]. f_equal. lia.
Qed.

Lemma entry_copied buf off ino nm e :
  slice buf off sizeof_dirent = Some e -> getf buf off de_inode = Some ino -> getf buf off de_name_len = Some (lenZ nm) ->
  slice buf (off + 8) (lenZ nm) = Some nm -> entry_is e (ino, nm).
Proof.
  intros He Hi Hn Hs. pose proof (ld_inv _ _ _ _ Hn) as (_ & _ & Hb). change (256 ^ _) with 256 in Hb.
  pose proof (slice_inv _ _ _ _ He) as (Ho & ? & ? & E). split; [|split; [|split]]; cbn [fst snd].
  - subst e. unfold lenZ in *. rewrite length_take, length_drop. change sizeof_dirent with 263 in *. lia.
  - rewrite <- Hi. unfold getf, ld. rewrite (slice_slice _ _ _ _ _ _ He); [done|cbn; try lia; try (change sizeof_dirent with 263; lia)..].
  - rewrite <- Hn. unfold getf, ld. rewrite (slice_slice _ _ _ _ _ _ He); [done|cbn; try lia; try (change sizeof_dirent with 263; lia)..].
  - rewrite <- Hs. apply (slice_slice _ _ _ _ _ _ He); [lia|lia|change sizeof_dirent with 263; lia].
Qed.

(** The inner loop: it stops at the live record with the number [index], or passes all of them. *)
Lemma dir_nth_chain size buf index off recs fuel : 0 < size < 65536 -> size mod 4 = 0 -> lenZ buf = size ->
  chain size false buf off recs -> size - off <= Z.of_nat fuel -> forall current,
  0 <= current <= index -> is_u64 index -> spaced_at (Z.to_nat (index - current)) size buf off recs ->
  match live recs !! Z.to_nat (index - current) with
  | Some r => exists e, dir_nth fuel buf index current off size = Some (inr e) /\ entry_is e r
  | None => dir_nth fuel buf index current off size = Some (inl (current + lenZ (live recs)))
  end.
Proof.
  intros Hsize Hal Hlen Hc. revert fuel.
  induction Hc as [|off Hz|off ino len nm recs Hoff H4 Hl4 Hle Hal4 Hi Hr Hnl Hs Hc IH]; intros fuel Hf current Hcur Hidx Hsp; [|done|].
  { cbn. change (lenZ (@nil (Z * bytes))) with 0. rewrite Z.add_0_r. destruct fuel; cbn [dir_nth]; by rewrite Z.ltb_irrefl. }
  destruct fuel as [|fuel]; [lia|]. cbn [spaced_at] in Hsp. rewrite Hr in Hsp. cbn [default] in Hsp.
  cbn [dir_nth]. rewrite (proj2 (Z.ltb_lt off size)), Hr, Hi by lia. cbn [negb mbind option_bind].
  pose proof (lenZ_nonneg nm). pose proof (ld_inv _ _ _ _ Hnl) as (_ & _ & Hb). change (256 ^ _) with 256 in Hb.
  rewrite (align4_spec size) in Hal4 by lia. rewrite (proj2 (Z.eqb_neq len 0)), (u32_id (off + len)) by (try red; dlia).
  rewrite live_cons. revert Hsp. destruct (Z.eqb_spec ino 0) as [->|Hino]; intros Hsp; [apply IH; [dlia|lia|done|done]|].
  destruct (Z.eqb_spec current index) as [->|Hne].
  { rewrite Z.sub_diag in Hsp |- *. cbn [lookup list_lookup Z.to_nat]. destruct (slice buf off sizeof_dirent) as [e|] eqn:Ee.
    - exists e. split; [done|]. by eapply entry_copied.
    - exfalso. change (off + 263 <= size) in Hsp. rewrite slice_Some in Ee by (change sizeof_dirent with 263; lia). done. }
  replace (Z.to_nat (index - current)) with (S (Z.to_nat (index - (current + 1)))) in Hsp |- * by lia. cbn [lookup list_lookup].
  red in Hidx. rewrite u64_id by (red; lia). specialize (IH fuel ltac:(dlia) (current + 1) ltac:(lia) Hidx Hsp).
  destruct (live recs !! _) as [r|]; [done|]. rewrite IH. do 2 f_equal. unfold lenZ. cbn [length]. lia.
Qed.

(** ** A whole directory *)
Section readdir.
Context {C : Type} {B : BlockStore C} {bs : Z} {L : BlockStoreLaws C bs} (now : Z).
Hypothesis bs_range : 0 < bs < 65536.
Hypothesis bs_aligned : bs mod 16 = 0.
Implicit Types (s : ext2_fs C) (rs : list (list (Z * bytes))).

(** Every block of the directory is spaced. *)
Definition dir_spaced s ino rs : Prop := forall i recs b, rs !! i = Some recs ->
  bmap (bs := bs) s (inode_at (bs := bs) s ino) (Z.of_nat i) = inr b -> spaced bs (view s b) 0 recs.

(** The live record with the number [index] of the whole directory, if there is one, is that far from the end of its block. *)
Definition entry_spaced s ino rs (index : Z) : Prop := forall i recs b n, rs !! i = Some recs ->
  bmap (bs := bs) s (inode_at (bs := bs) s ino) (Z.of_nat i) = inr b -> index = lenZ (live (concat (take i rs))) + Z.of_nat n ->
  spaced_at n bs (view s b) 0 recs.

Lemma dir_entry_spaced s ino rs index : dir_spaced s ino rs -> entry_spaced s ino rs index.
Proof. intros Hs i recs b n Hr Hb _. by apply spaced_nth, (Hs i). Qed.

(** What [ext2_readdir] returns for the number [n] of the records *)
Definition nth_entry (recs : list (Z * bytes)) (n : Z) (r : Z + bytes) : Prop :=
  match live recs !! Z.to_nat n with
  | Some x => exists e, r = inr e /\ entry_is e x
  | None => r = inl ERR_NOT_FOUND
  end.

Lemma readdir_blocks_spec s0 ino rs index rs2 : is_u64 index -> forall rs1 s k bb current,
  dir_ok (bs := bs) s0 ino rs -> entry_spaced s0 ino rs index -> rs = rs1 ++ rs2 -> quiet s0 s k -> lenZ bb = bs -> 0 <= k ->
  room bs s0 (k + 2 * lenZ rs2) -> 0 <= current <= index -> current = lenZ (live (concat rs1)) ->
  wp (readdir_blocks now (length rs2) (inode_at (bs := bs) s0 ino) bb index current (lenZ rs1)) s (fun s' r =>
    quiet s0 s' (k + 2 * lenZ rs2) /\ nth_entry (concat rs2) (index - current) r).
Proof.
  intros Hidx. induction rs2 as [|recs rs2 IH]; intros rs1 s k bb current Hd Hsp -> Hq Hbb Hk Hr Hcur Ecur; cbn [length readdir_blocks].
  { apply wp_err. split; [|done]. eapply quiet_weaken; [lia|done|unfold lenZ; cbn [length]; lia]. }
  pose proof (dir_count bs_range _ _ _ Hd) as Hcnt. rewrite lenZ_app in Hcnt.
  assert (lenZ (recs :: rs2) = 1 + lenZ rs2) as El by (unfold lenZ; cbn; lia). rewrite El in *.
  pose proof (lenZ_nonneg rs1). pose proof (lenZ_nonneg rs2). unfold room in Hr.
  assert ((rs1 ++ recs :: rs2) !! length rs1 = Some recs) as Hlk by by rewrite list_lookup_middle.
  destruct (dr_block _ _ _ Hd (length rs1) recs) as (b & Hb & Hb0 & Hbok & Hc); [done|].
  assert (spaced_at (Z.to_nat (index - current)) bs (view s0 b) 0 recs) as Hspb.
  { apply (Hsp (length rs1) recs b); [done|done|]. rewrite take_app_length. lia. }
  apply wp_bnd, wp_try. eapply (ext2_get_block_num_spec now); [lia|done|exact Hq| |by apply (dr_ind _ _ _ Hd)|red; lia|unfold room; nia|].
  { by eapply dir_inode_len. }
  intros s1 Hq1. change (lenZ rs1) with (Z.of_nat (length rs1)) at 1. rewrite Hb. rewrite (proj2 (Z.eqb_neq b 0)) by done.
  apply wp_bnd, wp_bread; [lia|by eapply quiet_ok|done|done|]. intros c Hcs Hv.
  pose proof (quiet_read _ _ _ _ Hq1 Hcs Hv) as Hq2.
  apply wp_bnd, wp_gets. rewrite (ok_bs _ (quiet_ok _ _ _ Hq2)). rewrite (quiet_view _ _ _ _ Hq1) by done.
  pose proof (st_view_len (block_device s0) b (ok_store _ (dr_fs _ _ _ Hd)) Hbok) as Hlb.
  pose proof (dir_nth_chain bs (view s0 b) index 0 recs (Z.to_nat bs) bs_range ltac:(dlia) Hlb Hc ltac:(lia) current Hcur Hidx Hspb) as Hn.
  unfold nth_entry. cbn [concat]. rewrite live_app. destruct (live recs !! Z.to_nat (index - current)) as [x|] eqn:Ex.
  { destruct Hn as (e & Hn & He). apply wp_bnd. eapply wp_lft; [exact Hn|]. apply wp_ret.
    rewrite (lookup_app_l_Some _ _ _ _ Ex). split; [|by exists e]. eapply quiet_weaken; [lia|done|lia]. }
  apply wp_bnd. eapply wp_lft; [exact Hn|]. apply lookup_ge_None in Ex as Hge.
  replace (lenZ rs1 + 1) with (lenZ (rs1 ++ [recs])) by (rewrite lenZ_app; cbn; done).
  eapply wp_mono; [eapply (IH (rs1 ++ [recs]) _ (k + 2)); [done|done|by rewrite <- app_assoc|done|exact Hlb|lia|unfold room; nia|unfold lenZ; lia|]|].
  { rewrite concat_app, live_app, lenZ_app. cbn [concat]. rewrite app_nil_r. lia. }
  intros s' r (Hq' & Hr'). split; [eapply quiet_weaken; [lia|done|lia]|]. rewrite lookup_app_r by lia.
  unfold nth_entry in Hr'. by replace (Z.to_nat (index - current) - length (live recs))%nat with (Z.to_nat (index - (current + Z.of_nat (length (live recs))))) by lia.
Qed.

Lemma ext2_readdir_spec s ino rs index :
  dir_ok (bs := bs) s ino rs -> entry_spaced s ino rs index -> is_u64 index -> room bs s (2 + 2 * lenZ rs) ->
  wp (ext2_readdir now ino index) s (fun s' r => quiet s s' (2 + 2 * lenZ rs) /\ nth_entry (concat rs) index r).
Proof.
  intros Hd Hsp Hidx Hr. pose proof (lenZ_nonneg rs). unfold room in Hr. unfold ext2_readdir.
  apply wp_bnd. eapply (read_dir_inode_spec now bs_range bs_aligned); [exact Hd|unfold room; nia|]. intros s1 Hq1.
  apply wp_bnd, wp_gets. rewrite (ok_bs _ (quiet_ok _ _ _ Hq1)).
  assert (room bs s1 1) as Hr1 by (eapply quiet_room; [exact Hq1|unfold room; nia]).
  apply wp_bnd, wp_alloc_buffer; [lia|done|by eapply quiet_ok|done|]. intros bb Hbb _.
  pose proof (quiet_buffer (bs := bs) s s1 1 ltac:(lia) bs_aligned Hr1 Hq1) as Hq2.
  apply wp_bnd. eapply (num_dir_blocks_spec bs_range); [exact Hd|exact Hq2|].
  replace (Z.to_nat (lenZ rs)) with (length rs) by (unfold lenZ; lia). red in Hidx.
  eapply wp_mono; [eapply (readdir_blocks_spec s ino rs index rs Hidx []); [done|done|done|done|done|lia|done|lia|done]|].
  intros s' r [Hq Hn]. by rewrite Z.sub_0_r in Hn.
Qed.

(** A step that changes neither blocks nor metadata keeps a directory. *)
Lemma quiet_dir s s' k ino rs : quiet s s' k -> dir_ok (bs := bs) s ino rs -> dir_spaced s ino rs ->
  dir_ok (bs := bs) s' ino rs /\ dir_spaced s' ino rs.
Proof.
  intros Hq Hd Hsp. destruct (inode_geometry (bs := bs) s s' (qu_sb _ _ _ Hq) (qu_bg _ _ _ Hq) (quiet_groups _ _ _ Hq)) as (Bk & Ok & Vk & Tk).
  assert (inode_at (bs := bs) s' ino = inode_at (bs := bs) s ino) as Ei.
  { unfold inode_at. rewrite Bk, Ok, (quiet_view _ _ _ _ Hq); [done|]. apply (it_ok _ (dr_table _ _ _ Hd)), (dr_valid _ _ _ Hd). }
  assert (dir_clear (bs := bs) s ino (fun _ => False)) as Hcl by (split; [auto|intros _; split; auto]).
  assert (forall b, st_ok b -> ~ False -> view s' b = view s b) as Hv by (intros; by eapply quiet_view).
  assert (dir_ok (bs := bs) s' ino rs) as Hd'.
  { eapply (dir_frame bs_range bs_aligned s s' ino rs rs (fun _ => False)); [done|by eapply quiet_ok|by apply Tk, (dr_table _ _ _ Hd)|by apply Vk, (dr_valid _ _ _ Hd)|done|done|done|done|].
    intros i b recs Hr Hb Hb0 Hok. destruct (dr_block _ _ _ Hd i recs Hr) as (b' & Hb' & _ & _ & Hc).
    rewrite Hb in Hb'. injection Hb' as <-. by rewrite (quiet_view _ _ _ _ Hq). }
  split; [done|]. intros i recs b Hr. destruct (dr_block _ _ _ Hd' i recs Hr) as (b' & Hb' & _ & Hok & _). intros Hb.
  rewrite Hb in Hb'. injection Hb' as <-. rewrite (quiet_view _ _ _ _ Hq) by done. apply (Hsp i); [done|].
  destruct (dr_block _ _ _ Hd i recs Hr) as (b2 & Hb2 & _). rewrite Ei in Hb.
  pose proof (dir_count bs_range _ _ _ Hd) as Hcnt. apply lookup_lt_Some in Hr. unfold lenZ in Hcnt. rewrite <- Hb. symmetry.
  destruct Hcl as [H12 Hap]. eapply (bmap_frame bs_range bs_aligned s s' _ (fun _ => False)); [by apply (dr_ind _ _ _ Hd)|exact H12|exact Hap|exact Hv|red; lia].
Qed.

(** C12: enumerating a directory.  [ext2_readdir] with the number [index] returns the live record with that number, counted over
    all blocks of the directory in order: its inode, and its name with its length; from the number of live records on it returns
    [ERR_NOT_FOUND].  Neither blocks nor metadata change.  The record asked for, if there is one, must start at least 263 bytes
    before the end of its block ([entry_spaced]): the code copies a full [ext2_dir_entry_t], and the copy of a record nearer to the
    end reads past the block buffer ([dir_nth_undefined]).  The kernel heap has room for the buffers. *)
Theorem ext2_readdir_correct s ino rs index :
  dir_ok (bs := bs) s ino rs -> entry_spaced s ino rs index -> is_u64 index -> room bs s (2 + 2 * lenZ rs) ->
  wp (ext2_readdir now ino index) s (fun s' r => quiet s s' (2 + 2 * lenZ rs) /\ nth_entry (concat rs) index r).
Proof. apply ext2_readdir_spec. Qed.

End readdir.

(** A record in the last 262 bytes of a block makes the copy leave the block, whatever the record holds. *)
Lemma dir_nth_undefined size buf index fuel off ino len :
  off < size -> lenZ buf = size -> size < off + sizeof_dirent -> getf buf off de_inode = Some ino -> getf buf off de_rec_len = Some len ->
  ino <> 0 -> len <> 0 -> dir_nth (S fuel) buf index index off size = None.
Proof.
  intros Ho Hl Hs Hi Hr Hino Hlen. cbn [dir_nth]. rewrite (proj2 (Z.ltb_lt off size)), Hr, Hi by lia. cbn [negb mbind option_bind].
  rewrite (proj2 (Z.eqb_neq len 0)), (proj2 (Z.eqb_neq ino 0)), Z.eqb_refl by done.
  destruct (slice buf off sizeof_dirent) as [e|] eqn:E; [|done]. apply slice_inv in E. lia.
Qed.

Lemma spaced0 : dir_spaced (bs := 1024) fs0 2 [root_recs].
Proof.
  intros [|i] recs b Hr Hb; [|done]. injection Hr as <-. rewrite inode2 in Hb. vm_compute in Hb. injection Hb as <-.
  rewrite view0 by lia. vm_compute. repeat split; intros; discriminate.
Qed.

Lemma ext2_readdir_correct_witness :
  wp (ext2_readdir 0 2 2) fs0 (fun s' r => quiet fs0 s' 4 /\ nth_entry (concat [root_recs]) 2 r).
Proof.
  exact (ext2_readdir_correct (bs := 1024) 0 ltac:(lia) ltac:(done) fs0 2 [root_recs] 2 dir_ok0 (dir_entry_spaced _ _ _ _ spaced0) ltac:(done) ltac:(vm_compute; discriminate)).
Defined.
