(* ===== verification/Mm.v ===== *)
(** * Pages and page tables: [src/mm/mm.c]

    Memory is the array of bytes the code addresses; a [page_entry_t*] is an
    address, [NULL] is 0.  TLB invalidation has no state here. *)
From S2P Require Import Prelude KernelLib.
Open Scope Z_scope.

(** ** Memory *)
Definition mem : Type := Z -> Z.

Fixpoint peek (m : mem) (a : Z) (n : nat) : bytes :=
  match n with O => [] | S n' => m a :: peek m (a + 1) n' end.

Definition poke (m : mem) (a : Z) (l : bytes) : mem := fun x => default (m x) (getZ l (x - a)).

(** [memset(a, v, n)] *)
Definition fill (m : mem) (a v n : Z) : mem := fun x => if (a <=? x) && (x <? a + n) then v else m x.

(** ** Page entries

    A [page_entry_t] is a packed bit-field of 52 bits in 7 bytes, of which the
    code uses five members. *)
Record bits := Bits { b_lo : Z; b_width : Z }.
Definition present : bits := Bits 0 1.
Definition rw : bits := Bits 1 1.
Definition user : bits := Bits 2 1.
Definition accessed : bits := Bits 5 1.
Definition frame : bits := Bits 12 40.
Definition sizeof_entry : Z := 7.

Definition get_bits (v : Z) (b : bits) : Z := Z.land (Z.shiftr v (b_lo b)) (Z.ones (b_width b)).
Definition set_bits (v : Z) (b : bits) (x : Z) : Z :=
  Z.lor (Z.ldiff v (Z.shiftl (Z.ones (b_width b)) (b_lo b)))
        (Z.shiftl (Z.land x (Z.ones (b_width b))) (b_lo b)).

Definition rd_entry (m : mem) (a : Z) : Z := le_val (peek m a 7).
Definition rd_field (m : mem) (a : Z) (b : bits) : Z := get_bits (rd_entry m a) b.
Definition wr_field (m : mem) (a : Z) (b : bits) (x : Z) : mem :=
  poke m a (le_bytes 7 (set_bits (rd_entry m a) b x)).

(** ** State *)
Definition PAGE_SIZE : Z := 4096.
Definition KERNEL_PHYS_START : Z := 1048576.
Definition KERNEL_VIRT_START : Z := 18446603336221196288.  (* 0xFFFF800000000000 *)
Definition PAGE_ALLOC_START : Z := 1048576.
Definition page_dir : Z := 4294963200.                      (* 0xFFFFF000 *)
Definition MEMORY_AVAILABLE : Z := 1.
Definition MEMORY_RESERVED : Z := 2.

Definition PD_INDEX (vaddr : Z) : Z := Z.land (Z.shiftr vaddr 22) 1023.
Definition PT_INDEX (vaddr : Z) : Z := Z.land (Z.shiftr vaddr 12) 1023.

Record memory_map_entry := MapEntry { base : Z; len : Z; type : Z }.

Record mm := Mm {
  memory : mem;
  memory_map : list memory_map_entry;   (* its first [memory_map_count] entries *)
  free_pages : Z;
  total_pages : Z;
  free_pages_count : Z;
  cr3 : Z;
  cr0 : Z
}.

Definition set_memory m s : mm := Mm m (memory_map s) (free_pages s) (total_pages s) (free_pages_count s) (cr3 s) (cr0 s).
Definition set_map l t s : mm := Mm (memory s) l (free_pages s) t (free_pages_count s) (cr3 s) (cr0 s).
Definition set_free p n s : mm := Mm (memory s) (memory_map s) p (total_pages s) n (cr3 s) (cr0 s).
Definition set_regs c3 c0 s : mm :=
  Mm (memory s) (memory_map s) (free_pages s) (total_pages s) (free_pages_count s) c3 c0.

(** ** The page allocator *)
Definition mm_free_page (s : mm) (page : Z) : mm :=
  let m := wr_field (memory s) page frame 0 in
  let m := wr_field m page present 0 in
  let old_free := free_pages s in
  let m := wr_field m page rw (Z.shiftr old_free 12) in
  set_free page (u64 (free_pages_count s + 1)) (set_memory m s).

Definition mm_alloc_page (s : mm) : mm * Z :=
  if free_pages s =? 0 then (s, 0)
  else
    let page := free_pages s in
    let s := set_free (Z.land page (Z.lnot 4095)) (u64 (free_pages_count s - 1)) s in
    (set_memory (fill (memory s) page 0 PAGE_SIZE) s, page).

Definition available_pages (e : memory_map_entry) : Z :=
  if type e =? MEMORY_AVAILABLE then len e / PAGE_SIZE else 0.

Definition mm_setup_memory_map (s : mm) : mm :=
  let l := [MapEntry 0 4096 MEMORY_RESERVED; MapEntry 4096 651264 MEMORY_AVAILABLE;
            MapEntry 1048576 134152192 MEMORY_AVAILABLE; MapEntry 134217728 125763584 MEMORY_RESERVED] in
  set_map l (foldl (fun t e => u64 (t + available_pages e)) 0 l) s.

(** The inner loop of [mm_init_page_allocator]: [n] pages from page [j] of a region. *)
Fixpoint free_range (n : nat) (bs j : Z) (s : mm) : mm :=
  match n with
  | O => s
  | S n' =>
      let page_addr := u64 (bs + j * PAGE_SIZE) in
      free_range n' bs (j + 1) (if PAGE_ALLOC_START <=? page_addr then mm_free_page s page_addr else s)
  end.

Definition mm_init_page_allocator (s : mm) : mm :=
  foldl (fun s e => free_range (Z.to_nat (available_pages e)) (base e) 0 s)
    (set_free 0 (total_pages s) s) (memory_map s).

(** ** Mapping *)
Definition pt_addr (pd_index : Z) : Z := pd_index * 4194304 + KERNEL_VIRT_START.
Definition bit_of (b : bool) : Z := if b then 1 else 0.

Definition mm_map_page (s : mm) (phys virt : Z) (usr readonly : bool) : mm :=
  let pd := page_dir + PD_INDEX virt * sizeof_entry in
  let pt := pt_addr (PD_INDEX virt) in
  let s :=
    if rd_field (memory s) pd present =? 0 then
      let '(s, page) := mm_alloc_page s in
      let m := wr_field (memory s) pd frame (Z.shiftr page 12) in
      let m := wr_field m pd present 1 in
      let m := wr_field m pd rw 1 in
      let m := wr_field m pd user (bit_of usr) in
      set_memory (fill m pt 0 PAGE_SIZE) s
    else s in
  let pe := pt + PT_INDEX virt * sizeof_entry in
  let m := wr_field (memory s) pe frame (Z.shiftr phys 12) in
  let m := wr_field m pe present 1 in
  let m := wr_field m pe rw (bit_of (negb readonly)) in
  let m := wr_field m pe user (bit_of usr) in
  let m := wr_field m pe accessed 1 in
  set_memory m s.

(** 0 is [NULL].  [w] is the width at which the compiler evaluates [frame << 12], a
    shift of a 40-bit member of type [u64]: 40 bits for GCC, 64 for Clang. *)
Definition mm_virt_to_phys (w : Z) (s : mm) (addr : Z) : Z :=
  if KERNEL_VIRT_START <=? addr then u64 (addr - KERNEL_VIRT_START + KERNEL_PHYS_START)
  else
    let pd := page_dir + PD_INDEX addr * sizeof_entry in
    if rd_field (memory s) pd present =? 0 then 0
    else
      let pe := pt_addr (PD_INDEX addr) + PT_INDEX addr * sizeof_entry in
      if rd_field (memory s) pe present =? 0 then 0
      else Z.lor (Z.shiftl (rd_field (memory s) pe frame) 12 mod 2 ^ w) (Z.land addr 4095).

(** [n] pages from page [i], mapped at [virt + i * PAGE_SIZE]. *)
Fixpoint map_range (n : nat) (i virt : Z) (usr : bool) (s : mm) : mm :=
  match n with
  | O => s
  | S n' => map_range n' (i + 1) virt usr (mm_map_page s (i * PAGE_SIZE) (virt + i * PAGE_SIZE) usr false)
  end.

Definition mm_setup_kernel_vm (s : mm) : mm :=
  map_range 256 0 0 false (map_range 512 0 KERNEL_VIRT_START true s).

(** [(1 << 31) | (1 << 16)] is an [int]: it is negative and sign-extended. *)
Definition mm_enable_paging (s : mm) : mm :=
  set_regs (u64 (page_dir - KERNEL_VIRT_START)) (Z.lor (cr0 s) (u64 (Z.lor (i32 (Z.shiftl 1 31)) (Z.shiftl 1 16)))) s.

Definition mm_init (s : mm) : mm :=
  mm_enable_paging (mm_setup_kernel_vm (mm_init_page_allocator (mm_setup_memory_map s))).

(** ** Bit-fields and bytes *)
Definition bits_ok (b : bits) : Prop := 0 <= b_lo b /\ 0 < b_width b /\ b_lo b + b_width b <= 52.
Definition bits_apart (b c : bits) : Prop := b_lo b + b_width b <= b_lo c \/ b_lo c + b_width c <= b_lo b.

Lemma testbit_get v b n : bits_ok b -> 0 <= n ->
  Z.testbit (get_bits v b) n = Z.testbit v (n + b_lo b) && (n <? b_width b).
Proof. intros (? & ? & ?) Hn. unfold get_bits. by rewrite Z.land_spec, Z.shiftr_spec, Z.testbit_ones_nonneg by lia. Qed.

Lemma testbit_set v b x n : bits_ok b -> 0 <= n ->
  Z.testbit (set_bits v b x) n =
    if (b_lo b <=? n) && (n <? b_lo b + b_width b) then Z.testbit x (n - b_lo b) else Z.testbit v n.
Proof.
  intros (? & ? & ?) Hn. unfold set_bits. rewrite Z.lor_spec, Z.ldiff_spec.
  destruct (Z.leb_spec (b_lo b) n); cbn [andb].
  - rewrite !Z.shiftl_spec, Z.land_spec, !Z.testbit_ones_nonneg by lia.
    destruct (Z.ltb_spec n (b_lo b + b_width b)).
    + rewrite (proj2 (Z.ltb_lt _ _)) by lia. cbn. by rewrite andb_false_r, andb_true_r.
    + rewrite (proj2 (Z.ltb_ge _ _)) by lia. cbn. by rewrite andb_true_r, andb_false_r, orb_false_r.
  - rewrite !Z.shiftl_spec_low by lia. cbn. by rewrite andb_true_r, orb_false_r.
Qed.

Lemma get_set_same v b x : bits_ok b -> get_bits (set_bits v b x) b = Z.land x (Z.ones (b_width b)).
Proof.
  intros Hb. pose proof Hb as (? & ? & ?). apply Z.bits_inj'. intros n Hn.
  rewrite testbit_get, testbit_set, Z.land_spec, Z.testbit_ones_nonneg by (done || lia).
  destruct (Z.ltb_spec n (b_width b)); [|by rewrite !andb_false_r].
  rewrite (proj2 (Z.leb_le _ _)), (proj2 (Z.ltb_lt _ _)) by lia. cbn. do 2 f_equal. lia.
Qed.

Lemma get_set_other v b c x : bits_ok b -> bits_ok c -> bits_apart b c -> get_bits (set_bits v b x) c = get_bits v c.
Proof.
  intros Hb Hc Ha. pose proof Hb as (? & ? & ?). pose proof Hc as (? & ? & ?). apply Z.bits_inj'. intros n Hn.
  rewrite !testbit_get, testbit_set by (done || lia).
  destruct (Z.ltb_spec n (b_width c)); [|by rewrite !andb_false_r]. f_equal.
  destruct (Z.leb_spec (b_lo b) (n + b_lo c)), (Z.ltb_spec (n + b_lo c) (b_lo b + b_width b)); cbn; try done.
  destruct Ha; lia.
Qed.

Lemma le_val_bytes_mod n : forall z, le_val (le_bytes n z) = z mod 256 ^ Z.of_nat n.
Proof.
  induction n as [|n IH]; intros z; cbn [le_bytes le_val]; [by rewrite Z.mod_1_r|].
  rewrite IH, Nat2Z.inj_succ, Z.pow_succ_r, Z.rem_mul_r by lia. unfold u8. by rewrite Z.mod_mod by lia.
Qed.

Lemma get_bits_mod v b : bits_ok b -> get_bits (v mod 256 ^ 7) b = get_bits v b.
Proof.
  intros Hb. pose proof Hb as (? & ? & ?). apply Z.bits_inj'. intros n Hn. rewrite !testbit_get by done.
  destruct (Z.ltb_spec n (b_width b)); [|by rewrite !andb_false_r].
  change (256 ^ 7) with (2 ^ 56). by rewrite Z.mod_pow2_bits_low by lia.
Qed.

Lemma peek_poke_same l : forall m a, peek (poke m a l) a (length l) = l.
Proof.
  assert (forall k m a b, (forall i x, k !! i = Some x -> m (a + Z.of_nat i) = x) -> b = length k -> peek m a b = k) as H.
  { induction k as [|x k IH]; intros m a b Hk ->; [done|]. cbn [length peek].
    f_equal; [replace a with (a + Z.of_nat 0) by lia; by apply Hk|]. apply IH; [|done].
    intros i y Hy. replace (a + 1 + Z.of_nat i) with (a + Z.of_nat (S i)) by lia. by apply Hk. }
  intros m a. apply H; [|done]. intros i x Hx. unfold poke, getZ.
  rewrite (proj2 (Z.ltb_ge _ _)) by lia. replace (Z.to_nat (a + Z.of_nat i - a)) with i by lia. by rewrite Hx.
Qed.

Lemma peek_ext m m' n : forall a, (forall x, a <= x < a + Z.of_nat n -> m' x = m x) -> peek m' a n = peek m a n.
Proof.
  induction n as [|n IH]; intros a Hx; cbn; [done|]. rewrite Hx by lia. f_equal. apply IH. intros. apply Hx. lia.
Qed.

Lemma poke_outside m a l x : x < a \/ a + lenZ l <= x -> poke m a l x = m x.
Proof.
  intros Hx. unfold poke, getZ, lenZ in *. destruct (Z.ltb_spec (x - a) 0); [done|].
  rewrite lookup_ge_None_2 by lia. done.
Qed.

(** Entries at [a] and [a'] do not overlap. *)
Definition entries_apart (a a' : Z) : Prop := a + 7 <= a' \/ a' + 7 <= a.

Lemma rd_wr_same m a b x : bits_ok b -> rd_field (wr_field m a b x) a b = Z.land x (Z.ones (b_width b)).
Proof.
  intros Hb. unfold rd_field, rd_entry, wr_field.
  change 7%nat with (length (le_bytes 7 (set_bits (rd_entry m a) b x))) at 1. rewrite peek_poke_same, le_val_bytes_mod.
  change (Z.of_nat 7) with 7. by rewrite get_bits_mod, get_set_same.
Qed.

Lemma rd_wr_other m a b c x : bits_ok b -> bits_ok c -> bits_apart b c ->
  rd_field (wr_field m a b x) a c = rd_field m a c.
Proof.
  intros Hb Hc Ha. unfold rd_field, rd_entry at 1, wr_field.
  change 7%nat with (length (le_bytes 7 (set_bits (rd_entry m a) b x))) at 1. rewrite peek_poke_same, le_val_bytes_mod.
  change (Z.of_nat 7) with 7. by rewrite get_bits_mod, get_set_other.
Qed.

Lemma rd_wr_apart m a a' b c x : entries_apart a a' -> rd_field (wr_field m a b x) a' c = rd_field m a' c.
Proof.
  intros Ha. unfold rd_field, rd_entry, wr_field. do 2 f_equal. apply peek_ext. intros y Hy.
  apply poke_outside. rewrite lenZ_le_bytes. red in Ha. lia.
Qed.

Lemma rd_fill_apart m a v n a' c : a' + 7 <= a \/ a + n <= a' -> rd_field (fill m a v n) a' c = rd_field m a' c.
Proof.
  intros Ha. unfold rd_field, rd_entry. do 2 f_equal. apply peek_ext. intros y Hy. unfold fill.
  destruct (Z.leb_spec a y), (Z.ltb_spec y (a + n)); cbn; try done. lia.
Qed.

(** ** Mapping and translating *)
Lemma frame_ok : bits_ok frame. Proof. unfold bits_ok; cbn; lia. Qed.
Lemma present_ok : bits_ok present. Proof. unfold bits_ok; cbn; lia. Qed.
Lemma rw_ok : bits_ok rw. Proof. unfold bits_ok; cbn; lia. Qed.
Lemma user_ok : bits_ok user. Proof. unfold bits_ok; cbn; lia. Qed.
Lemma accessed_ok : bits_ok accessed. Proof. unfold bits_ok; cbn; lia. Qed.
#[local] Hint Resolve frame_ok present_ok rw_ok user_ok accessed_ok : kernel.

Lemma index_range a k : 0 <= Z.land (Z.shiftr a k) 1023 < 1024.
Proof. change 1023 with (Z.ones 10). rewrite Z.land_ones by lia. apply Z.mod_pos_bound. lia. Qed.

(** The entries of the directory and of the tables. *)
Definition pd_entry (virt : Z) : Z := page_dir + PD_INDEX virt * sizeof_entry.
Definition pt_entry (virt : Z) : Z := pt_addr (PD_INDEX virt) + PT_INDEX virt * sizeof_entry.

Lemma pd_pt_apart v v' : entries_apart (pt_entry v) (pd_entry v').
Proof.
  pose proof (index_range v 22). pose proof (index_range v 12). pose proof (index_range v' 22).
  unfold entries_apart, pt_entry, pd_entry, pt_addr, PD_INDEX, PT_INDEX, page_dir, KERNEL_VIRT_START, sizeof_entry. lia.
Qed.

Lemma pt_entries_apart v v' : PD_INDEX v <> PD_INDEX v' \/ PT_INDEX v <> PT_INDEX v' -> entries_apart (pt_entry v) (pt_entry v').
Proof.
  pose proof (index_range v 22). pose proof (index_range v 12). pose proof (index_range v' 22). pose proof (index_range v' 12).
  unfold entries_apart, pt_entry, pt_addr, sizeof_entry, PD_INDEX, PT_INDEX in *. lia.
Qed.

(** The last five assignments of [mm_map_page]. *)
Definition wr_pte (m : mem) (pe phys : Z) (usr readonly : bool) : mem :=
  let m := wr_field m pe frame (Z.shiftr phys 12) in
  let m := wr_field m pe present 1 in
  let m := wr_field m pe rw (bit_of (negb readonly)) in
  let m := wr_field m pe user (bit_of usr) in
  wr_field m pe accessed 1.

Lemma wr_pte_apart m pe phys usr ro a c : entries_apart pe a -> rd_field (wr_pte m pe phys usr ro) a c = rd_field m a c.
Proof. intros. unfold wr_pte. by rewrite !rd_wr_apart. Qed.

Lemma wr_pte_same m pe phys usr ro :
  rd_field (wr_pte m pe phys usr ro) pe present = 1 /\
  rd_field (wr_pte m pe phys usr ro) pe frame = Z.land (Z.shiftr phys 12) (Z.ones 40).
Proof.
  unfold wr_pte. split.
  - rewrite 3!rd_wr_other by (auto with kernel || (red; cbn; lia)). by rewrite rd_wr_same by auto with kernel.
  - rewrite 4!rd_wr_other by (auto with kernel || (red; cbn; lia)). by rewrite rd_wr_same by auto with kernel.
Qed.

(** The state before those: the directory entry is present. *)
Lemma mm_map_page_eq s phys virt usr ro : exists s1,
  mm_map_page s phys virt usr ro = set_memory (wr_pte (memory s1) (pt_entry virt) phys usr ro) s1 /\
  rd_field (memory s1) (pd_entry virt) present <> 0 /\
  (rd_field (memory s) (pd_entry virt) present <> 0 -> s1 = s).
Proof.
  unfold mm_map_page. fold (pd_entry virt) (pt_entry virt).
  destruct (Z.eqb_spec (rd_field (memory s) (pd_entry virt) present) 0) as [E|E]; [|by exists s].
  destruct (mm_alloc_page s) as [s0 page]. eexists. split; [reflexivity|]. split; [|done].
  cbn [memory set_memory]. rewrite rd_fill_apart.
  - rewrite 2!rd_wr_other by (auto with kernel || (red; cbn; lia)). by rewrite rd_wr_same by auto with kernel.
  - pose proof (index_range virt 22). pose proof (index_range virt 12).
    unfold pd_entry, pt_addr, PD_INDEX, page_dir, KERNEL_VIRT_START, sizeof_entry. lia.
Qed.

Lemma shift_page phys w : 0 <= phys < 2 ^ 40 -> 40 <= w ->
  Z.shiftl (Z.land (Z.shiftr phys 12) (Z.ones 40)) 12 mod 2 ^ w = phys / 4096 * 4096.
Proof.
  intros Hp Hw. change (2 ^ 40) with 1099511627776 in Hp. rewrite Z.shiftr_div_pow2, Z.land_ones, Z.shiftl_mul_pow2 by lia.
  change (2 ^ 12) with 4096. change (2 ^ 40) with 1099511627776.
  rewrite (Z.mod_small (phys / 4096)) by dlia. apply Z.mod_small.
  pose proof (Z.pow_le_mono_r 2 40 w ltac:(lia) Hw) as Hpow. change (2 ^ 40) with 1099511627776 in Hpow. dlia.
Qed.

(** The page number that selects an entry: 20 bits of the address. *)
Definition page_number (v : Z) : Z := v / 4096 mod 2 ^ 20.

Lemma page_number_indices v : page_number v = PD_INDEX v * 1024 + PT_INDEX v /\ 0 <= PT_INDEX v < 1024.
Proof.
  unfold page_number, PD_INDEX, PT_INDEX. change 1023 with (Z.ones 10). rewrite !Z.land_ones, !Z.shiftr_div_pow2 by lia.
  change (2 ^ 22) with 4194304. change (2 ^ 12) with 4096. change (2 ^ 20) with 1048576. change (2 ^ 10) with 1024. dlia.
Qed.

(** C34: a mapping is what the translation finds.  Pages are told apart by 20 bits
    of the address.  After [mm_map_page] every user address (one below
    KERNEL_VIRT_START) whose page number is that of [virt] translates to the
    physical page with the offset of the address: [virt] itself and its aliases
    2^32 apart.  If the page directory had the page table already, every address with
    another page number translates as before, and so does every kernel address,
    whose translation never looks at a table.  Physical addresses are below 2^40,
    where compilers agree on the width [w] of the frame. *)
Theorem mm_map_page_correct w s phys virt usr ro :
  40 <= w -> 0 <= phys < 2 ^ 40 ->
  let s' := mm_map_page s phys virt usr ro in
  (forall v, v < KERNEL_VIRT_START -> page_number v = page_number virt ->
   mm_virt_to_phys w s' v = Z.lor (phys / 4096 * 4096) (Z.land v 4095)) /\
  (forall v, KERNEL_VIRT_START <= v \/ rd_field (memory s) (pd_entry virt) present <> 0 /\ page_number v <> page_number virt ->
   mm_virt_to_phys w s' v = mm_virt_to_phys w s v).
Proof.
  intros Hw Hp s'. destruct (mm_map_page_eq s phys virt usr ro) as (s1 & E & Hpd & Hs1). subst s'. rewrite E.
  destruct (wr_pte_same (memory s1) (pt_entry virt) phys usr ro) as [E1 E2].
  destruct (page_number_indices virt) as [N1 R1]. split; intros v; destruct (page_number_indices v) as [N2 R2].
  - intros Hv Hn. assert (PD_INDEX v = PD_INDEX virt /\ PT_INDEX v = PT_INDEX virt) as [Ed Et] by lia.
    unfold mm_virt_to_phys. rewrite (proj2 (Z.leb_gt _ _)), Ed, Et by lia. cbn [memory set_memory].
    fold (pd_entry virt) (pt_entry virt). rewrite wr_pte_apart by apply pd_pt_apart.
    rewrite (proj2 (Z.eqb_neq _ 0)) by done. rewrite E1, E2. cbn [Z.eqb]. by rewrite shift_page.
  - intros [Hk|[Hpres Hne]]; unfold mm_virt_to_phys; [by rewrite (proj2 (Z.leb_le _ _)) by done|].
    rewrite (Hs1 Hpres) in *. cbn [memory set_memory]. fold (pd_entry v) (pt_entry v).
    assert (PD_INDEX virt <> PD_INDEX v \/ PT_INDEX virt <> PT_INDEX v) as Hd by lia.
    pose proof (pt_entries_apart virt v Hd) as Hap. rewrite (wr_pte_apart _ _ _ _ _ (pd_entry v)) by apply pd_pt_apart.
    by rewrite !(wr_pte_apart _ _ _ _ _ (pt_entry v)) by exact Hap.
Qed.

(** ** The allocator does not allocate *)
Lemma page_round p : p mod 4096 = 0 -> Z.land p (Z.lnot 4095) = p.
Proof.
  intros Hp. change (Z.lnot 4095) with (Z.lnot (Z.ones 12)). rewrite <- Z.ldiff_land, Z.ldiff_ones_r by lia.
  rewrite Z.shiftr_div_pow2, Z.shiftl_mul_pow2 by lia. change (2 ^ 12) with 4096. dlia.
Qed.

Fixpoint alloc_pages (n : nat) (s : mm) : mm * list Z :=
  match n with
  | O => (s, [])
  | S n' => let '(s, p) := mm_alloc_page s in let '(s, l) := alloc_pages n' s in (s, p :: l)
  end.

(** every call of [mm_alloc_page] returns the same page.  The head of the free
    list is replaced by itself rounded to a page, so however many pages are asked
    for, the page last freed is handed out each time, cleared. *)
Theorem mm_alloc_page_repeats n s :
  0 < free_pages s -> free_pages s mod 4096 = 0 -> (alloc_pages n s).2 = replicate n (free_pages s).
Proof.
  intros Hp Ha. revert s Hp Ha. induction n as [|n IH]; intros s Hp Ha; [done|]. cbn [alloc_pages].
  unfold mm_alloc_page. rewrite (proj2 (Z.eqb_neq _ 0)) by lia.
  match goal with |- context [alloc_pages n ?x] => set (s1 := x) end.
  assert (free_pages s1 = free_pages s) as E.
  { cbn [free_pages set_memory set_free]. by apply page_round. }
  specialize (IH s1). rewrite E in IH. specialize (IH Hp Ha). destruct (alloc_pages n s1) as [s2 l].
  cbn in *. by rewrite IH.
Qed.

Lemma free_range_skip n : forall bs j s, 0 <= bs -> 0 <= j -> bs + (j + Z.of_nat n) * PAGE_SIZE <= PAGE_ALLOC_START ->
  free_range n bs j s = s.
Proof.
  unfold PAGE_SIZE, PAGE_ALLOC_START. induction n as [|n IH]; intros bs j s Hb Hj Hle; cbn [free_range]; [done|].
  unfold PAGE_SIZE, PAGE_ALLOC_START. rewrite u64_id by (red; lia). rewrite (proj2 (Z.leb_gt _ _)) by lia. apply IH; lia.
Qed.

Lemma free_range_count n : forall bs j s, PAGE_ALLOC_START <= bs -> 0 <= j -> bs + (j + Z.of_nat n) * PAGE_SIZE < 2 ^ 63 ->
  0 <= free_pages_count s -> free_pages_count s + Z.of_nat n < 2 ^ 63 ->
  free_pages_count (free_range n bs j s) = free_pages_count s + Z.of_nat n /\
  total_pages (free_range n bs j s) = total_pages s.
Proof.
  unfold PAGE_SIZE, PAGE_ALLOC_START. change (2 ^ 63) with 9223372036854775808.
  induction n as [|n IH]; intros bs j s Hb Hj Hle Hc0 Hc; cbn [free_range]; [split; lia|].
  unfold PAGE_SIZE, PAGE_ALLOC_START. rewrite u64_id by (red; lia). rewrite (proj2 (Z.leb_le _ _)) by lia.
  set (s1 := mm_free_page s (bs + j * 4096)).
  assert (free_pages_count s1 = free_pages_count s + 1) as E by (subst s1; cbn; apply u64_id; red; lia).
  destruct (IH bs (j + 1) s1) as [-> ->]; [lia..|]. rewrite E. split; [lia|done].
Qed.

(** The pages of a region that go on the list, when the region is on one side of
    [PAGE_ALLOC_START]. *)
Definition freed (e : memory_map_entry) : Z := if PAGE_ALLOC_START <=? base e then available_pages e else 0.
Definition region_ok (e : memory_map_entry) : Prop :=
  0 <= base e /\ 0 <= available_pages e < 2 ^ 40 /\
  (if PAGE_ALLOC_START <=? base e then base e + available_pages e * PAGE_SIZE < 2 ^ 63
   else base e + available_pages e * PAGE_SIZE <= PAGE_ALLOC_START).

Lemma free_region_count e s :
  region_ok e -> 0 <= free_pages_count s < 2 ^ 60 ->
  let s' := free_range (Z.to_nat (available_pages e)) (base e) 0 s in
  free_pages_count s' = free_pages_count s + freed e /\ total_pages s' = total_pages s.
Proof.
  intros (Hb & Ha & Hr) Hc s'. subst s'. unfold freed. change (2 ^ 40) with 1099511627776 in Ha.
  change (2 ^ 60) with 1152921504606846976 in Hc. destruct (Z.leb_spec PAGE_ALLOC_START (base e)).
  - destruct (free_range_count (Z.to_nat (available_pages e)) (base e) 0 s) as [-> ->];
      rewrite ?Z2Nat.id by lia; try done; lia.
  - rewrite free_range_skip by (rewrite ?Z2Nat.id by lia; lia). split; [lia|done].
Qed.

Lemma free_regions_count l : forall s,
  Forall region_ok l -> 0 <= free_pages_count s -> free_pages_count s + Z.of_nat (length l) * 2 ^ 40 < 2 ^ 60 ->
  let s' := foldl (fun s e => free_range (Z.to_nat (available_pages e)) (base e) 0 s) s l in
  free_pages_count s' = foldl (fun n e => n + freed e) (free_pages_count s) l /\ total_pages s' = total_pages s.
Proof.
  change (2 ^ 60) with 1152921504606846976. change (2 ^ 40) with 1099511627776.
  induction l as [|e l IH]; intros s Hall H0 Hc; cbn [foldl]; [done|].
  apply list.Forall_cons in Hall as [He Hall]. cbn [length] in Hc.
  destruct (free_region_count e s He) as [E1 E2]; [change (2 ^ 60) with 1152921504606846976; lia|].
  destruct He as (_ & Ha & _). change (2 ^ 40) with 1099511627776 in Ha. assert (0 <= freed e < 1099511627776).
  { unfold freed. case_match; lia. }
  specialize (IH (free_range (Z.to_nat (available_pages e)) (base e) 0 s) Hall).
  rewrite E1, E2 in IH. apply IH; lia.
Qed.

(** the count of free pages after initialisation is wrong.  It starts at the
    number of available pages and is incremented again for each page put on the
    list, and it includes low memory, which is not on the list: 65663 instead of
    the 32752 pages freed. *)
Theorem mm_init_page_allocator_counts s :
  let s' := mm_init_page_allocator (mm_setup_memory_map s) in
  total_pages s' = 32911 /\ free_pages_count s' = 32911 + 32752.
Proof.
  intros s'. subst s'. unfold mm_init_page_allocator. set (s0 := set_free _ _ _).
  assert (Forall region_ok (memory_map (mm_setup_memory_map s))) as Hall.
  { repeat (apply list.Forall_cons; split; [vm_compute; done|]). constructor. }
  destruct (free_regions_count _ s0 Hall) as [-> ->]; [done|done|]. done.
Qed.

(** [CR0] gets its reserved upper half set together with the two flags. *)
Lemma mm_enable_paging_cr0 s : forall k, 31 <= k < 64 -> Z.testbit (cr0 (mm_enable_paging s)) k = true.
Proof.
  intros k Hk. cbn [cr0 mm_enable_paging set_regs]. rewrite Z.lor_spec.
  change (u64 _) with (Z.lor (Z.shiftl (Z.ones 33) 31) 65536). rewrite Z.lor_spec, Z.shiftl_spec, Z.testbit_ones_nonneg, (proj2 (Z.ltb_lt _ _)) by lia.
  by rewrite orb_true_r.
Qed.

(** ** Examples *)
Definition mm0 : mm := Mm (fun _ => 0) [] 1048576 0 1 0 0.

Lemma mm_map_page_correct_witness :
  mm_virt_to_phys 40 (mm_map_page mm0 20480 4198404 true false) 4198404 = 20484.
Proof. exact (proj1 (mm_map_page_correct 40 mm0 20480 4198404 true false ltac:(lia) ltac:(done)) 4198404 ltac:(done) eq_refl). Defined.

Lemma mm_alloc_page_repeats_witness : (alloc_pages 3 mm0).2 = [1048576; 1048576; 1048576].
Proof. exact (mm_alloc_page_repeats 3 mm0 ltac:(done) ltac:(done)). Defined.
