(* ===== verification/Security.v ===== *)
(** * Contexts and capabilities: [src/security/security.c]

    The two singly linked lists are lists in list order.  [now] is [system_time]. *)
From S2P Require Import Prelude KernelLib.
Import Memory.
Open Scope Z_scope.

Module Security.

(** ** Data *)
Record capability := Capability {
  cap_id : Z;
  owner_pid : Z;
  target_pid : Z;
  permissions : Z;
  resource_type : Z;
  resource_id : Z;
  create_time : Z;
  expire_time : Z
}.

Record security_context := Context_ {
  task_pid : Z;
  user_id : Z;
  group_id : Z;
  privilege_level : Z;
  umask : Z;
  capabilities : list capability
}.

Record security := Sec {
  security_contexts : list security_context;
  global_capabilities : list capability;
  next_capability_id : Z;
  heap_pos : Z
}.

Definition PRIV_RING_0 : Z := 0.
Definition default_umask : Z := 18.   (* 022 *)

Definition set_contexts l s : security := Sec l (global_capabilities s) (next_capability_id s) (heap_pos s).
Definition set_capabilities l s : security := Sec (security_contexts s) l (next_capability_id s) (heap_pos s).
Definition set_heap h s : security := Sec (security_contexts s) (global_capabilities s) (next_capability_id s) h.
Definition set_mask m c : security_context :=
  Context_ (task_pid c) (user_id c) (group_id c) (privilege_level c) m (capabilities c).

(** ** Contexts *)
Definition sizeof_context : Z := 56.

(** The new context is the head of the list; [false] is [NULL]. *)
Definition security_create_context (s : security) (pid uid priv : Z) : security * bool :=
  let '(p, h) := malloc (heap_pos s) sizeof_context in
  let s := set_heap h s in
  match p with
  | None => (s, false)
  | Some _ => (set_contexts (Context_ pid uid uid priv default_umask [] :: security_contexts s) s, true)
  end.

(** The context returned is dereferenced without a check. *)
Definition security_init (s : security) : option security :=
  match security_create_context s 0 0 PRIV_RING_0 with
  | (s, true) => Some (set_contexts (alter (set_mask default_umask) 0%nat (security_contexts s)) s)
  | (_, false) => None
  end.

Definition security_find_context (s : security) (pid : Z) : option (nat * security_context) :=
  list_find (fun c => task_pid c = pid) (security_contexts s).

Definition security_set_umask (s : security) (pid m : Z) : security :=
  match security_find_context s pid with
  | Some (i, _) => set_contexts (alter (set_mask (Z.land m 511)) i (security_contexts s)) s
  | None => s
  end.

Definition security_get_umask (s : security) (pid : Z) : Z :=
  match security_find_context s pid with Some (_, c) => umask c | None => default_umask end.

(** ** Checks *)
Definition security_check_capability (s : security) (pid target_permissions required : Z) : bool :=
  match security_find_context s pid with
  | None => false
  | Some (_, c) =>
      if privilege_level c =? PRIV_RING_0 then true
      else
        let granted := Z.land target_permissions 511 in
        Z.land granted required =? required
  end.

Definition security_check_privilege (s : security) (pid required_ring : Z) : bool :=
  match security_find_context s pid with
  | None => false
  | Some (_, c) => privilege_level c <=? required_ring
  end.

Definition USER_END : Z := 140737488355328.                 (* 0x0000800000000000 *)
Definition KERNEL_START : Z := 18446603336221196288.        (* 0xFFFF800000000000 *)

Definition security_validate_memory_access (s : security) (pid addr size access_type : Z) : bool :=
  match security_find_context s pid with
  | None => false
  | Some (_, c) =>
      if privilege_level c =? PRIV_RING_0 then true
      else if (USER_END <=? addr) && (addr <? KERNEL_START) then false
      else (access_type =? 0) || (access_type =? 1) || (access_type =? 2)
  end.

(** ** Capabilities *)
Definition sizeof_capability : Z := 72.

Definition security_create_capability (now : Z) (s : security)
    (owner target perms rtype rid expire : Z) : security * Z :=
  let '(p, h) := malloc (heap_pos s) sizeof_capability in
  let s := set_heap h s in
  match p with
  | None => (s, 0)
  | Some _ =>
      let id := next_capability_id s in
      (Sec (security_contexts s)
         (Capability id owner target perms rtype rid now expire :: global_capabilities s)
         (u64 (id + 1)) (heap_pos s), id)
  end.

(** The walk of [security_revoke_capability]: [prev] are the elements up to [prev],
    [cap] those from [cap] on. *)
Fixpoint revoke_loop (prev cap : list capability) (id : Z) : option (list capability) :=
  match cap with
  | [] => None
  | c :: next => if negb (cap_id c =? id) then revoke_loop (prev ++ [c]) next id else Some (prev ++ next)
  end.

Definition security_revoke_capability (s : security) (id : Z) : security * Z :=
  match revoke_loop [] (global_capabilities s) id with
  | None => (s, ERR_NOT_FOUND)
  | Some l => (set_capabilities l s, ERR_SUCCESS)
  end.

Definition expired (now : Z) (c : capability) : bool := negb (expire_time c =? 0) && (expire_time c <? now).

Fixpoint cleanup_loop (now : Z) (prev cap : list capability) : list capability :=
  match cap with
  | [] => prev
  | c :: next => if expired now c then cleanup_loop now prev next else cleanup_loop now (prev ++ [c]) next
  end.

Definition security_cleanup_capabilities (now : Z) (s : security) : security :=
  set_capabilities (cleanup_loop now [] (global_capabilities s)) s.

Definition security_get_stats (s : security) : Z * Z :=
  (lenZ (security_contexts s), lenZ (global_capabilities s)).

(** ** Capability identifiers *)

(** Identifiers are distinct, not 0, and below the next one. *)
Definition caps_ok (s : security) : Prop :=
  NoDup (cap_id <$> global_capabilities s) /\
  (forall c, c ∈ global_capabilities s -> 1 <= cap_id c < next_capability_id s) /\
  1 <= next_capability_id s < 2 ^ 63.

Lemma revoke_loop_spec id : forall cap prev,
  NoDup (cap_id <$> cap) ->
  revoke_loop prev cap id =
    if decide (id ∈ cap_id <$> cap) then Some (prev ++ filter (fun c => cap_id c <> id) cap) else None.
Proof.
  induction cap as [|c cap IH]; intros prev Hnd; cbn [revoke_loop fmap list_fmap].
  - by rewrite decide_False by apply not_elem_of_nil.
  - cbn in Hnd. apply list.NoDup_cons in Hnd as [Hc Hnd]. destruct (Z.eqb_spec (cap_id c) id) as [E|E]; cbn [negb].
    + rewrite decide_True by (rewrite E; by left). rewrite filter_cons_False by (intros H; by apply H).
      f_equal. f_equal. clear IH. rewrite E in Hc. clear E. revert Hc. induction cap as [|d cap IH]; intros Hc; [done|].
      cbn in Hc, Hnd. apply not_elem_of_cons in Hc as [Hd Hc]. apply list.NoDup_cons in Hnd as [_ Hnd].
      rewrite filter_cons_True by congruence. f_equal. by apply IH.
    + rewrite IH, filter_cons_True by done.
      assert (id ∈ cap_id c :: (cap_id <$> cap) <-> id ∈ cap_id <$> cap) as Hiff.
      { rewrite elem_of_cons. split; [intros [?|?]; [congruence|done]|by right]. }
      destruct (decide (id ∈ cap_id <$> cap)) as [H1|H1].
      * rewrite decide_True by by apply Hiff. by rewrite <- app_assoc.
      * by rewrite decide_False by (rewrite Hiff; done).
Qed.

(** C35: the life of a capability.  With room in the heap, creating a capability
    returns a nonzero identifier no capability has and keeps identifiers distinct;
    revoking it gives back the list there was; revoking it once more reports
    [ERR_NOT_FOUND] and changes nothing. *)
Theorem security_capability_lifecycle now s owner target perms rtype rid expire :
  caps_ok s -> next_capability_id s + 1 < 2 ^ 63 -> is_Some (malloc (heap_pos s) sizeof_capability).1 ->
  exists s1 s2 id,
    security_create_capability now s owner target perms rtype rid expire = (s1, id) /\
    id <> 0 /\ ~ id ∈ (cap_id <$> global_capabilities s) /\ caps_ok s1 /\
    security_revoke_capability s1 id = (s2, ERR_SUCCESS) /\
    global_capabilities s2 = global_capabilities s /\
    security_revoke_capability s2 id = (s2, ERR_NOT_FOUND).
Proof.
  intros (Hnd & Hid & Hn) Hnext [p Hp]. change (2 ^ 63) with 9223372036854775808 in *.
  unfold security_create_capability. destruct (malloc _ _) as [q h]. cbn in Hp. subst q.
  cbn [next_capability_id security_contexts global_capabilities heap_pos set_heap].
  set (id := next_capability_id s). assert (id ∉ cap_id <$> global_capabilities s) as Hfresh.
  { intros (c & Ec & Hc)%list_elem_of_fmap. specialize (Hid c Hc). subst id. lia. }
  assert (u64 (id + 1) = id + 1) as Eu by (apply u64_id; subst id; red; lia).
  rewrite Eu. eexists _, _, id. split; [done|]. split; [subst id; lia|]. split; [done|]. split; [|split; [|split]].
  - split; [by constructor|]. cbn [global_capabilities next_capability_id]. split; [|change (2 ^ 63) with 9223372036854775808; subst id; lia].
    intros c [->|Hc]%elem_of_cons; cbn [cap_id]; [subst id; lia|]. specialize (Hid c Hc). subst id. lia.
  - unfold security_revoke_capability. cbn [global_capabilities revoke_loop cap_id].
    rewrite Z.eqb_refl. reflexivity.
  - done.
  - unfold security_revoke_capability. cbn [global_capabilities set_capabilities app].
    by rewrite revoke_loop_spec, decide_False.
Qed.

Lemma cleanup_loop_filter now : forall cap prev,
  cleanup_loop now prev cap = prev ++ filter (fun c => expired now c = false) cap.
Proof.
  induction cap as [|c cap IH]; intros prev; cbn [cleanup_loop]; [by rewrite app_nil_r|].
  destruct (expired now c) eqn:E; rewrite IH.
  - by rewrite filter_cons_False by congruence.
  - by rewrite filter_cons_True, <- app_assoc by done.
Qed.

(** cleaning up removes exactly the expired capabilities, keeps the others in
    their order, and every capability without an expiry time. *)
Theorem security_cleanup_filter now s :
  global_capabilities (security_cleanup_capabilities now s) =
    filter (fun c => expire_time c = 0 \/ now <= expire_time c) (global_capabilities s).
Proof.
  cbn [global_capabilities security_cleanup_capabilities set_capabilities]. rewrite cleanup_loop_filter. cbn [app].
  apply list_filter_iff. intros c. unfold expired.
  destruct (Z.eqb_spec (expire_time c) 0), (Z.ltb_spec (expire_time c) now); cbn; split; intros; (lia || done).
Qed.

(** what [security_validate_memory_access] refuses.  For a task that is not in
    ring 0, an access of a known type is allowed exactly when the address lies
    outside the non-canonical range: every kernel address is accepted, and the
    size of the access does not matter. *)
Theorem security_memory_access_kernel s pid i c addr size access_type :
  security_find_context s pid = Some (i, c) -> privilege_level c <> PRIV_RING_0 -> 0 <= access_type <= 2 ->
  security_validate_memory_access s pid addr size access_type = true <-> addr < USER_END \/ KERNEL_START <= addr.
Proof.
  intros Hf Hp Ha. unfold security_validate_memory_access. rewrite Hf, (proj2 (Z.eqb_neq _ _)) by done.
  destruct (Z.leb_spec USER_END addr), (Z.ltb_spec addr KERNEL_START); cbn; split; intros; try lia; done.
Qed.

(** permissions.  A task outside ring 0 passes the check exactly when every
    required bit is among the low nine permission bits of the object. *)
Theorem security_check_capability_bits s pid i c perms required :
  security_find_context s pid = Some (i, c) -> privilege_level c <> PRIV_RING_0 -> 0 <= required ->
  security_check_capability s pid perms required = true <->
    forall k, 0 <= k -> Z.testbit required k = true -> k < 9 /\ Z.testbit perms k = true.
Proof.
  intros Hf Hp Hr. unfold security_check_capability. rewrite Hf, (proj2 (Z.eqb_neq _ _)) by done.
  rewrite Z.eqb_eq. change 511 with (Z.ones 9). split.
  - intros E k Hk Ht. rewrite <- E, !Z.land_spec, Z.testbit_ones_nonneg in Ht by lia.
    destruct (Z.ltb_spec k 9); [|by rewrite andb_false_r in Ht]. split; [done|].
    by destruct (Z.testbit perms k).
  - intros H. apply Z.bits_inj'. intros k Hk. rewrite !Z.land_spec, Z.testbit_ones_nonneg by lia.
    destruct (Z.testbit required k) eqn:E; [|by rewrite andb_false_r].
    destruct (H k Hk E) as [H9 ->]. by rewrite (proj2 (Z.ltb_lt _ _)).
Qed.

(** ** Examples: a kernel task and a user task *)
Definition sec0 : security :=
  Sec [Context_ 7 1000 1000 3 default_umask []; Context_ 0 0 0 PRIV_RING_0 default_umask []] [] 1 112.

Lemma security_capability_lifecycle_witness :
  exists s1 s2 id,
    security_create_capability 5 sec0 7 0 6 1 42 0 = (s1, id) /\
    id <> 0 /\ ~ id ∈ (cap_id <$> global_capabilities sec0) /\ caps_ok s1 /\
    security_revoke_capability s1 id = (s2, ERR_SUCCESS) /\
    global_capabilities s2 = global_capabilities sec0 /\
    security_revoke_capability s2 id = (s2, ERR_NOT_FOUND).
Proof.
  apply security_capability_lifecycle.
  - split; [constructor|]. split; [intros c Hc; by apply elem_of_nil in Hc|]. split; reflexivity || discriminate.
  - reflexivity.
  - by exists 112.
Defined.

Lemma security_memory_access_kernel_witness :
  security_validate_memory_access sec0 7 (2 ^ 64 - 4096) 8 1 = true <->
    2 ^ 64 - 4096 < USER_END \/ KERNEL_START <= 2 ^ 64 - 4096.
Proof. by apply (security_memory_access_kernel sec0 7 0 (Context_ 7 1000 1000 3 default_umask [])). Defined.

Lemma security_check_capability_bits_witness :
  security_check_capability sec0 7 420 4 = true <->
    forall k, 0 <= k -> Z.testbit 4 k = true -> k < 9 /\ Z.testbit 420 k = true.
Proof. by apply (security_check_capability_bits sec0 7 0 (Context_ 7 1000 1000 3 default_umask [])). Defined.

End Security.
