(* ===== verification/Scheduler.v ===== *)
(** * The task scheduler: [src/cpu/scheduler.c]

    Task control blocks live in an arena: a [tcb_t*] is an index, [NULL] is [None].
    A walk along [next] has fuel: an operation returns a value, is undefined, or
    has not ended within its fuel.  The processor is its general registers, stack
    pointer and flags; the assembly that switches tasks is modelled move by move. *)
From S2P Require Import Prelude KernelLib.
Import Memory CString.
Open Scope Z_scope.

Module Scheduler.

(** ** Data *)
Definition TIME_SLICE_TICKS : Z := 10.
Definition MAX_PRIORITY : Z := 255.
Definition MIN_PRIORITY : Z := 0.
Definition TASK_READY : Z := 0.
Definition TASK_RUNNING : Z := 1.
Definition TASK_WAITING : Z := 2.
Definition STACK_SIZE : Z := 8192.

Record context := Ctx {
  registers : list Z;            (* sixteen in a task; the processor has the fifteen the assembly moves *)
  stack_pointer : Z;
  flags : Z
}.

Record tcb := Tcb {
  task_id : Z;
  name : bytes;
  state : Z;
  priority : Z;
  time_slice : Z;
  total_time : Z;
  wake_time : Z;
  ctx : context;
  instruction_pointer : Z;
  stack_base : Z;
  stack_top : Z;
  user_id : Z;
  group_id : Z;
  privilege_level : Z;
  message_queue : Z;
  waiting_for : Z;
  next : option nat;
  prev : option nat
}.

Record sched := Sched {
  tasks : list tcb;
  ready_queue : option nat;
  waiting_queue : option nat;
  current_task : option nat;
  idle_task : option nat;
  next_task_id : Z;
  system_ticks : Z;
  heap_pos : Z;
  cpu : context
}.

(** ** Assignments *)
Definition set_state v t := Tcb (task_id t) (name t) v (priority t) (time_slice t) (total_time t) (wake_time t)
  (ctx t) (instruction_pointer t) (stack_base t) (stack_top t) (user_id t) (group_id t) (privilege_level t)
  (message_queue t) (waiting_for t) (next t) (prev t).
Definition set_slice v t := Tcb (task_id t) (name t) (state t) (priority t) v (total_time t) (wake_time t)
  (ctx t) (instruction_pointer t) (stack_base t) (stack_top t) (user_id t) (group_id t) (privilege_level t)
  (message_queue t) (waiting_for t) (next t) (prev t).
Definition set_total v t := Tcb (task_id t) (name t) (state t) (priority t) (time_slice t) v (wake_time t)
  (ctx t) (instruction_pointer t) (stack_base t) (stack_top t) (user_id t) (group_id t) (privilege_level t)
  (message_queue t) (waiting_for t) (next t) (prev t).
Definition set_wake v t := Tcb (task_id t) (name t) (state t) (priority t) (time_slice t) (total_time t) v
  (ctx t) (instruction_pointer t) (stack_base t) (stack_top t) (user_id t) (group_id t) (privilege_level t)
  (message_queue t) (waiting_for t) (next t) (prev t).
Definition set_ctx v t := Tcb (task_id t) (name t) (state t) (priority t) (time_slice t) (total_time t) (wake_time t)
  v (instruction_pointer t) (stack_base t) (stack_top t) (user_id t) (group_id t) (privilege_level t)
  (message_queue t) (waiting_for t) (next t) (prev t).
Definition set_next v t := Tcb (task_id t) (name t) (state t) (priority t) (time_slice t) (total_time t) (wake_time t)
  (ctx t) (instruction_pointer t) (stack_base t) (stack_top t) (user_id t) (group_id t) (privilege_level t)
  (message_queue t) (waiting_for t) v (prev t).
Definition set_prev v t := Tcb (task_id t) (name t) (state t) (priority t) (time_slice t) (total_time t) (wake_time t)
  (ctx t) (instruction_pointer t) (stack_base t) (stack_top t) (user_id t) (group_id t) (privilege_level t)
  (message_queue t) (waiting_for t) (next t) v.

Definition set_tasks l s : sched := Sched l (ready_queue s) (waiting_queue s) (current_task s) (idle_task s)
  (next_task_id s) (system_ticks s) (heap_pos s) (cpu s).
Definition set_ready q s : sched := Sched (tasks s) q (waiting_queue s) (current_task s) (idle_task s)
  (next_task_id s) (system_ticks s) (heap_pos s) (cpu s).
Definition set_current c s : sched := Sched (tasks s) (ready_queue s) (waiting_queue s) c (idle_task s)
  (next_task_id s) (system_ticks s) (heap_pos s) (cpu s).
Definition set_idle i s : sched := Sched (tasks s) (ready_queue s) (waiting_queue s) (current_task s) i
  (next_task_id s) (system_ticks s) (heap_pos s) (cpu s).
Definition set_ticks t s : sched := Sched (tasks s) (ready_queue s) (waiting_queue s) (current_task s) (idle_task s)
  (next_task_id s) t (heap_pos s) (cpu s).
Definition set_heap n h s : sched := Sched (tasks s) (ready_queue s) (waiting_queue s) (current_task s) (idle_task s)
  n (system_ticks s) h (cpu s).
Definition set_cpu c s : sched := Sched (tasks s) (ready_queue s) (waiting_queue s) (current_task s) (idle_task s)
  (next_task_id s) (system_ticks s) (heap_pos s) c.

Definition upd (i : nat) (f : tcb -> tcb) (s : sched) : sched := set_tasks (alter f i (tasks s)) s.

(** ** Creating tasks *)
Definition sizeof_tcb : Z := 536.
Definition heap_addr (heap_base : Z) (p : option Z) : Z := match p with Some a => heap_base + a | None => 0 end.

(** The allocation of the stack is not checked. *)
Definition scheduler_create_task (heap_base : Z) (s : sched) (nm : bytes) (prio : Z) : option (sched * option nat) :=
  let '(p, h) := malloc (heap_pos s) sizeof_tcb in
  match p with
  | None => Some (set_heap (next_task_id s) h s, None)
  | Some _ =>
      let id := next_task_id s in
      nm ← strncpy (replicate 256 0) nm 255;
      nm ← setZ nm 255 0;
      let '(stk, h) := malloc h STACK_SIZE in
      let sb := heap_addr heap_base stk in
      let top := u64 (sb + STACK_SIZE) in
      let t := Tcb id nm TASK_READY prio TIME_SLICE_TICKS 0 0 (Ctx (replicate 16 0) top 2) 0 sb top 0 0 3 0 0 None None in
      Some (set_heap (u64 (id + 1)) h (set_tasks (tasks s ++ [t]) s), Some (length (tasks s)))
  end.

(** ** The ready queue *)
Definition scheduler_add_to_queue (s : sched) (task : option nat) : sched :=
  match task with
  | None => s
  | Some t =>
      let s := upd t (set_state TASK_READY) s in
      let s := upd t (set_next (ready_queue s)) s in
      let s := match ready_queue s with Some q => upd q (set_prev (Some t)) s | None => s end in
      set_ready (Some t) s
  end.

Definition scheduler_remove_from_queue (s : sched) (task : option nat) : option sched :=
  match task, ready_queue s with
  | Some t, Some _ =>
      tc ← tasks s !! t;
      let s := match prev tc with
               | Some p => upd p (set_next (next tc)) s
               | None => set_ready (next tc) s
               end in
      tc ← tasks s !! t;
      let s := match next tc with Some n => upd n (set_prev (prev tc)) s | None => s end in
      Some (upd t (fun x => set_prev None (set_next None x)) s)
  | _, _ => Some s
  end.

Fixpoint select_loop (fuel : nat) (s : sched) (task best : option nat) : outcome (option nat) :=
  match task with
  | None => Ret best
  | Some t =>
      match fuel with
      | O => More
      | S fuel' =>
          tc ← need (tasks s !! t);
          better ← (match best with
                    | None => Ret true
                    | Some b => bc ← need (tasks s !! b); Ret (priority tc <? priority bc)
                    end);
          select_loop fuel' s (next tc) (if better : bool then Some t else best)
      end
  end.

Definition scheduler_select_next_task (fuel : nat) (s : sched) : outcome (option nat) :=
  best ← select_loop fuel s (ready_queue s) None;
  Ret (match best with Some b => Some b | None => idle_task s end).

Fixpoint find_loop (fuel : nat) (s : sched) (task : option nat) (id : Z) : outcome (option nat) :=
  match task with
  | None => Ret None
  | Some t =>
      match fuel with
      | O => More
      | S fuel' =>
          tc ← need (tasks s !! t);
          if negb (task_id tc =? id) then find_loop fuel' s (next tc) id else Ret (Some t)
      end
  end.

Definition scheduler_find_task (fuel : nat) (s : sched) (id : Z) : outcome (option nat) :=
  find_loop fuel s (ready_queue s) id.

Definition get_task_priority (fuel : nat) (s : sched) (id : Z) : outcome Z :=
  t ← scheduler_find_task fuel s id;
  match t with Some t => tc ← need (tasks s !! t); Ret (priority tc) | None => Ret MAX_PRIORITY end.

Definition get_current_pid (s : sched) : option Z :=
  match current_task s with None => Some 0 | Some t => tc ← tasks s !! t; Some (task_id tc) end.

(** ** Switching

    Each [asm volatile] statement is one move between a register and a field of
    [task].  The compiler addresses the field through a register that holds
    [task], and takes it to be unchanged, since the statements declare no register
    they overwrite: [base] is that register ([rdi] is the one of the argument),
    [addr] gives the address of a block.  A move through an address that is not one
    of a task control block is undefined.  The instruction pointer is not moved by
    either function. *)
Inductive reg := RAX | RBX | RCX | RDX | RSI | RDI | RBP | R8 | R9 | R10 | R11 | R12 | R13 | R14 | R15.

(** The place of a register in the processor *)
Definition num (r : reg) : nat :=
  match r with
  | RAX => 0 | RBX => 1 | RCX => 2 | RDX => 3 | RSI => 4 | RDI => 5 | RBP => 6 | R8 => 7 | R9 => 8 | R10 => 9
  | R11 => 10 | R12 => 11 | R13 => 12 | R14 => 13 | R15 => 14
  end.

(** The moves of [scheduler_save_context], register to [task->registers[i]], and those of
    [scheduler_restore_context] back *)
Definition saves : list (reg * nat) :=
  [(RAX, 0); (RBX, 1); (RCX, 2); (RDX, 3); (RSI, 4); (RDI, 5); (RBP, 6); (R8, 7); (R9, 8); (R10, 9);
   (R11, 10); (R12, 11); (R13, 12); (R14, 13); (R15, 14)]%nat.
Definition restores : list (reg * nat) :=
  [(RAX, 0); (RBX, 1); (RCX, 2); (RDX, 3); (RSI, 4); (RDI, 5); (RBP, 6); (R8, 7); (R9, 8); (R10, 9);
   (R11, 10); (R12, 11); (R13, 12); (R14, 13); (R15, 14)]%nat.

Section switching.
Context (base : reg) (addr : nat -> Z).

Definition set_reg (i : nat) (v : Z) (c : context) : context := Ctx (<[i := v]> (registers c)) (stack_pointer c) (flags c).
Definition set_sp (v : Z) (c : context) : context := Ctx (registers c) v (flags c).
Definition set_flags (v : Z) (c : context) : context := Ctx (registers c) (stack_pointer c) v.

(** The block that a memory operand [task->...] accesses. *)
Definition operand (s : sched) : option nat :=
  v ← registers (cpu s) !! num base;
  fst <$> list_find (fun i => addr i = v) (seq 0 (length (tasks s))).

Definition upd_ctx (t : nat) (f : context -> context) (s : sched) : sched := upd t (fun x => set_ctx (f (ctx x)) x) s.

(** [movq %reg, task->registers[i]] and back *)
Definition save_register (s : sched) (m : reg * nat) : option sched :=
  t ← operand s; v ← registers (cpu s) !! num m.1; Some (upd_ctx t (set_reg m.2 v) s).
Definition restore_register (s : sched) (m : reg * nat) : option sched :=
  t ← operand s; tc ← tasks s !! t; v ← registers (ctx tc) !! m.2; Some (set_cpu (set_reg (num m.1) v (cpu s)) s).

Definition moves (f : sched -> reg * nat -> option sched) (l : list (reg * nat)) (s : sched) : option sched :=
  foldl (fun o m => s ← o; f s m) (Some s) l.

(** The call: [task] is in its register. *)
Definition pass (t : nat) (s : sched) : sched := set_cpu (set_reg (num base) (addr t) (cpu s)) s.

Definition scheduler_save_context (s : sched) (t : nat) : option sched :=
  s ← moves save_register saves (pass t s);
  t ← operand s;
  let s := upd_ctx t (set_sp (stack_pointer (cpu s))) s in
  Some (upd_ctx t (set_flags (flags (cpu s))) s).

Definition scheduler_restore_context (s : sched) (t : nat) : option sched :=
  s ← moves restore_register restores (pass t s);
  t ← operand s;
  tc ← tasks s !! t;
  let s := set_cpu (set_sp (stack_pointer (ctx tc)) (cpu s)) s in
  Some (set_cpu (set_flags (flags (ctx tc)) (cpu s)) s).

Definition scheduler_switch_to (s : sched) (t : nat) : option sched :=
  if decide (current_task s = Some t) then Some s
  else
    let old := current_task s in
    let s := set_current (Some t) s in
    s ← (match old with
         | None => Some s
         | Some o => oc ← tasks s !! o; Some (if state oc =? TASK_RUNNING then upd o (set_state TASK_READY) s else s)
         end);
    let s := upd t (fun x => set_slice TIME_SLICE_TICKS (set_state TASK_RUNNING x)) s in
    s ← (match old with Some o => scheduler_save_context s o | None => Some s end);
    scheduler_restore_context s t.

Definition scheduler_schedule (fuel : nat) (s : sched) : outcome sched :=
  next ← scheduler_select_next_task fuel s;
  match next with Some t => need (scheduler_switch_to s t) | None => Ret s end.

Definition scheduler_start := scheduler_schedule.

Definition scheduler_yield (fuel : nat) (s : sched) : outcome sched :=
  s ← (match current_task s with
       | None => Ret s
       | Some c =>
           tc ← need (tasks s !! c);
           if state tc =? TASK_RUNNING then
             let s := upd c (fun x => set_slice TIME_SLICE_TICKS (set_state TASK_READY x)) s in
             Ret (if decide (current_task s = idle_task s) then s else scheduler_add_to_queue s (current_task s))
           else Ret s
       end);
  scheduler_schedule fuel s.

Definition scheduler_tick (fuel : nat) (s : sched) : outcome sched :=
  let s := set_ticks (u64 (system_ticks s + 1)) s in
  match current_task s with
  | None => Ret s
  | Some c =>
      let s := upd c (fun x => set_total (u64 (total_time x + 1)) (set_slice (u64 (time_slice x - 1)) x)) s in
      tc ← need (tasks s !! c);
      if time_slice tc =? 0 then scheduler_yield fuel s else Ret s
  end.

End switching.

(** ** Sleeping and waking *)
Definition scheduler_sleep_task (fuel : nat) (s : sched) (id : Z) : outcome sched :=
  t ← scheduler_find_task fuel s id;
  match t with
  | None => Ret s
  | Some t =>
      tc ← need (tasks s !! t);
      Ret (if state tc =? TASK_RUNNING
           then upd t (fun x => set_wake (u64 (system_ticks s + 100)) (set_state TASK_WAITING x)) s else s)
  end.

Definition scheduler_wake_task (fuel : nat) (s : sched) (id : Z) : outcome sched :=
  t ← scheduler_find_task fuel s id;
  match t with
  | None => Ret s
  | Some t =>
      tc ← need (tasks s !! t);
      Ret (if state tc =? TASK_WAITING
           then scheduler_add_to_queue (upd t (fun x => set_wake 0 (set_state TASK_READY x)) s) (Some t) else s)
  end.

Fixpoint wakeups_loop (fuel : nat) (s : sched) (task : option nat) : outcome sched :=
  match task with
  | None => Ret s
  | Some t =>
      match fuel with
      | O => More
      | S fuel' =>
          tc ← need (tasks s !! t);
          s ← (if negb (wake_time tc =? 0) && (wake_time tc <=? system_ticks s)
               then scheduler_wake_task fuel' s (task_id tc) else Ret s);
          tc ← need (tasks s !! t);
          wakeups_loop fuel' s (next tc)
      end
  end.

Definition scheduler_check_wakeups (fuel : nat) (s : sched) : outcome sched :=
  wakeups_loop fuel s (waiting_queue s).

(** ** Initialisation: [idle_task] is dereferenced without a check. *)
Definition scheduler_init (heap_base : Z) (s : sched) : option sched :=
  '(s, idle) ← scheduler_create_task heap_base s [105; 100; 108; 101; 0] MIN_PRIORITY;
  let s := set_idle idle s in
  i ← idle;
  let s := upd i (set_state TASK_READY) s in
  '(s, init) ← scheduler_create_task heap_base s [105; 110; 105; 116; 0] MIN_PRIORITY;
  let s := scheduler_add_to_queue s init in
  Some (set_current (idle_task s) s).

(** ** The ready queue as a list *)

(** The nodes of [l] are linked both ways, with [pv] before them and [nx] after. *)
Fixpoint dll (s : sched) (pv : option nat) (l : list nat) (nx : option nat) : Prop :=
  match l with
  | [] => True
  | i :: l' => (exists t, tasks s !! i = Some t /\ prev t = pv /\
                  next t = match l' with [] => nx | j :: _ => Some j end) /\ dll s (Some i) l' nx
  end.

Record queue (s : sched) (l : list nat) : Prop := {
  q_nodup : NoDup l;
  q_head : ready_queue s = list.head l;
  q_links : dll s None l None
}.

Definition or_else (a b : option nat) : option nat := match a with Some x => Some x | None => b end.

Lemma tasks_upd_eq i f s t : tasks s !! i = Some t -> tasks (upd i f s) !! i = Some (f t).
Proof. intros H. cbn. by rewrite list_lookup_alter_eq, H. Qed.

Lemma tasks_upd_ne i f s j : i <> j -> tasks (upd i f s) !! j = tasks s !! j.
Proof. intros H. cbn. by rewrite list_lookup_alter_ne. Qed.

Lemma dll_frame s s' l : forall pv nx,
  (forall i, i ∈ l -> tasks s' !! i = tasks s !! i) -> dll s pv l nx -> dll s' pv l nx.
Proof.
  induction l as [|i l IH]; intros pv nx Hf; cbn; [done|]. intros [(t & Ht & Hp & Hn) Hd]. split.
  - exists t. rewrite Hf by by left. done.
  - apply IH; [|done]. intros j Hj. apply Hf. by right.
Qed.

Lemma dll_upd s i f l pv nx : i ∉ l -> dll s pv l nx -> dll (upd i f s) pv l nx.
Proof. intros Hi. apply dll_frame. intros j Hj. apply tasks_upd_ne. by intros ->. Qed.

Lemma dll_app s l1 l2 : forall pv nx,
  dll s pv (l1 ++ l2) nx <-> dll s pv l1 (or_else (list.head l2) nx) /\ dll s (or_else (list.last l1) pv) l2 nx.
Proof.
  induction l1 as [|i l1 IH]; intros pv nx; [by split; [|intros [_ ?]]|]. cbn [app dll]. rewrite IH.
  replace (or_else (list.last (i :: l1)) pv) with (or_else (list.last l1) (Some i)).
  - destruct l1 as [|j l1]; [destruct l2 as [|j l2]|]; cbn; tauto.
  - rewrite last_cons. by destruct (list.last l1).
Qed.

Lemma dll_set_prev s i l pv pv' nx :
  i ∉ l -> dll s pv (i :: l) nx -> dll (upd i (set_prev pv') s) pv' (i :: l) nx.
Proof.
  intros Hi [(t & Ht & _ & Hn) Hd]. split.
  - eexists. split; [by apply tasks_upd_eq|]. done.
  - by apply dll_upd.
Qed.

Lemma dll_set_next s i l pv nx nx' :
  i ∉ l -> dll s pv (l ++ [i]) nx -> dll (upd i (set_next nx') s) pv (l ++ [i]) nx'.
Proof.
  intros Hi. rewrite !dll_app. intros [Hl [(t & Ht & Hp & _) _]]. split; [by apply dll_upd|]. split; [|done].
  eexists. split; [by apply tasks_upd_eq|]. done.
Qed.

(** The queue a walk from [o] sees. *)
Fixpoint chain (s : sched) (o : option nat) (l : list nat) : Prop :=
  match l with
  | [] => o = None
  | i :: l' => o = Some i /\ exists t, tasks s !! i = Some t /\ chain s (next t) l'
  end.

Lemma queue_chain s l : queue s l -> chain s (ready_queue s) l.
Proof.
  intros [_ -> Hl]. revert Hl. generalize (@None nat) at 1 as pv. induction l as [|i l IH]; intros pv Hl; [done|].
  destruct Hl as [(t & Ht & _ & Hn) Hl]. split; [done|]. exists t. split; [done|].
  replace (next t) with (list.head l) by (rewrite Hn; by destruct l). by apply (IH (Some i)).
Qed.

(** *** Selection *)
Definition prio_of (s : sched) (i : nat) : Z := match tasks s !! i with Some t => priority t | None => 0 end.

(** [b] is the first task of [l] with the least priority value. *)
Definition first_least (s : sched) (l : list nat) (b : nat) : Prop :=
  exists l1 l2, l = l1 ++ b :: l2 /\ Forall (fun i => prio_of s b < prio_of s i) l1 /\
    Forall (fun i => prio_of s b <= prio_of s i) l2.

Definition pick (s : sched) (best : option nat) (i : nat) : option nat :=
  match best with None => Some i | Some b => if prio_of s i <? prio_of s b then Some i else best end.

Lemma select_loop_pick s l : forall fuel o best,
  chain s o l -> (forall b, best = Some b -> is_Some (tasks s !! b)) -> (length l <= fuel)%nat ->
  select_loop fuel s o best = Ret (foldl (pick s) best l).
Proof.
  induction l as [|i l IH]; intros fuel o best Hc Hb Hf; cbn [foldl].
  - cbn in Hc. subst o. by destruct fuel.
  - destruct Hc as (-> & t & Ht & Hc). cbn in Hf. destruct fuel as [|fuel]; [lia|]. cbn [select_loop].
    rewrite Ht. cbn [need mbind outcome_bind]. unfold pick at 2. unfold prio_of at 1. rewrite Ht.
    destruct best as [b|]; cbn [mbind outcome_bind].
    + destruct (Hb b eq_refl) as [tb Htb]. rewrite Htb. cbn [need mbind outcome_bind]. unfold prio_of. rewrite Htb.
      apply IH; [done| |lia]. intros b' Hb'. destruct (priority t <? priority tb); simplify_eq; eauto.
    + apply IH; [done| |lia]. intros b' [= <-]. eauto.
Qed.

Lemma foldl_pick s : forall l l0 b,
  first_least s l0 b -> exists b', foldl (pick s) (Some b) l = Some b' /\ first_least s (l0 ++ l) b'.
Proof.
  induction l as [|i l IH]; intros l0 b Hb; cbn [foldl].
  - exists b. by rewrite app_nil_r.
  - replace (l0 ++ i :: l) with ((l0 ++ [i]) ++ l) by by rewrite <- app_assoc. apply IH || unfold pick at 2.
    destruct Hb as (l1 & l2 & -> & H1 & H2). destruct (Z.ltb_spec (prio_of s i) (prio_of s b)).
    + apply IH. exists (l1 ++ b :: l2), []. split; [done|]. split; [|constructor].
      apply Forall_app. split; [eapply list.Forall_impl; [exact H1|cbn; lia]|].
      constructor; [lia|]. eapply list.Forall_impl; [exact H2|cbn; lia].
    + apply IH. exists l1, (l2 ++ [i]). split; [by rewrite <- app_assoc|]. split; [done|].
      apply Forall_app. split; [done|]. by constructor.
Qed.

(** C25: selecting the next task.  In a well-formed ready queue the search ends, and
    gives the first of the tasks with the least priority value, or the idle task when
    the queue is empty. *)
Theorem scheduler_select_correct fuel s l :
  queue s l -> (length l <= fuel)%nat ->
  exists r, scheduler_select_next_task fuel s = Ret r /\
    match l with [] => r = idle_task s | _ => exists b, r = Some b /\ first_least s l b end.
Proof.
  intros Hq Hf. unfold scheduler_select_next_task.
  rewrite (select_loop_pick s l) by (done || by apply queue_chain). cbn [mbind outcome_bind].
  destruct l as [|i l]; [by eexists|]. cbn [foldl].
  destruct (foldl_pick s l [i] i) as (b & E & Hb).
  { exists [], []. by repeat split; constructor. }
  change (pick s None i) with (Some i). rewrite E. eexists. split; [done|]. by exists b.
Qed.

(** *** Adding and removing *)
Lemma add_to_queue_spec s l t tc :
  queue s l -> t ∉ l -> tasks s !! t = Some tc -> prev tc = None ->
  queue (scheduler_add_to_queue s (Some t)) (t :: l).
Proof.
  intros [Hnd Hh Hl] Ht Htc Hp. unfold scheduler_add_to_queue. set (s1 := upd t (set_next _) _).
  assert (tasks s1 !! t = Some (set_next (list.head l) (set_state TASK_READY tc))) as H1.
  { subst s1. erewrite tasks_upd_eq by by apply tasks_upd_eq. cbn [ready_queue upd set_tasks]. by rewrite Hh. }
  assert (dll s1 None l None) as Hd by (subst s1; apply dll_upd, dll_upd; done).
  change (ready_queue s1) with (ready_queue s). rewrite Hh. split; [by constructor|done|].
  destruct l as [|q l]; cbn [list.head].
  - split; [|done]. eexists. split; [exact H1|]. done.
  - apply list.NoDup_cons in Hnd as [Hq _]. split.
    + eexists. split; [cbn [tasks set_ready]; rewrite tasks_upd_ne; [exact H1|]|done].
      intros ->. apply Ht. by left.
    + apply (dll_frame (upd q (set_prev (Some t)) s1)); [done|]. by apply (dll_set_prev s1 q l None).
Qed.

(** What the unlinking does to the neighbours. *)
Lemma unlink_left s l1 t l2 :
  queue s (l1 ++ t :: l2) ->
  let s1 := match list.last l1 with Some p => upd p (set_next (list.head l2)) s | None => set_ready (list.head l2) s end in
  ready_queue s1 = list.head (l1 ++ l2) /\ dll s1 None l1 (list.head l2) /\ dll s1 (Some t) l2 None /\
  tasks s1 !! t = tasks s !! t.
Proof.
  intros [Hnd Hh Hl] s1. subst s1. apply dll_app in Hl as [H1 [_ H2]]. cbn in H1.
  destruct l1 as [|p l1 _] using rev_ind.
  { split; [done|]. split; [done|]. split; [by apply (dll_frame s)|done]. }
  rewrite last_snoc. rewrite <- app_assoc in *. cbn [app] in Hnd.
  apply list.NoDup_app in Hnd as (_ & Hdis & Hnd). apply list.NoDup_cons in Hnd as [Hp _].
  split; [|split; [|split]].
  - cbn [ready_queue upd set_tasks]. rewrite Hh. by destruct l1.
  - apply (dll_set_next s p l1 None (Some t)); [|done]. intros Hpl. apply (Hdis p Hpl). by left.
  - apply dll_upd; [|done]. intros Hpl. apply Hp. by right.
  - apply tasks_upd_ne. intros ->. apply Hp. by left.
Qed.

Lemma unlink_right s t l1 l2 nx :
  NoDup (l1 ++ t :: l2) -> dll s None l1 nx -> dll s (Some t) l2 None ->
  let s2 := match list.head l2 with Some n => upd n (set_prev (list.last l1)) s | None => s end in
  ready_queue s2 = ready_queue s /\ dll s2 None l1 nx /\ dll s2 (list.last l1) l2 None /\ tasks s2 !! t = tasks s !! t.
Proof.
  intros Hnd H1 H2 s2. subst s2. destruct l2 as [|n l2]; [done|]. cbn [list.head].
  apply list.NoDup_app in Hnd as (_ & Hdis & Hnd). apply list.NoDup_cons in Hnd as [Ht Hnd].
  apply list.NoDup_cons in Hnd as [Hn _]. split; [done|]. split; [|split].
  - apply dll_upd; [|done]. intros Hl. apply (Hdis n Hl). right. by left.
  - by apply (dll_set_prev s n l2 (Some t)).
  - apply tasks_upd_ne. intros ->. apply Ht. by left.
Qed.

Lemma remove_from_queue_spec s l1 t l2 :
  queue s (l1 ++ t :: l2) ->
  exists s' tc, scheduler_remove_from_queue s (Some t) = Some s' /\ queue s' (l1 ++ l2) /\
    tasks s' !! t = Some tc /\ next tc = None /\ prev tc = None.
Proof.
  intros Hq. destruct (unlink_left s l1 t l2 Hq) as (Hr1 & Hd1 & Hd2 & Ht1). destruct Hq as [Hnd Hh Hl].
  destruct (unlink_right _ t l1 l2 _ Hnd Hd1 Hd2) as (Hr2 & Hd3 & Hd4 & Ht2).
  apply dll_app in Hl as [_ [(tc & Htc & Hp & Hn) _]].
  assert (prev tc = list.last l1) as Hp' by (rewrite Hp; by destruct (list.last l1)).
  assert (next tc = list.head l2) as Hn' by (rewrite Hn; by destruct l2).
  unfold scheduler_remove_from_queue. rewrite Hh, Htc.
  destruct (list.head (l1 ++ t :: l2)) eqn:E; [clear E|by destruct l1]. cbn [mbind option_bind].
  rewrite Hp', Hn', Ht1, Htc. cbn [mbind option_bind]. rewrite Hp', Hn'. do 2 eexists. split; [done|].
  assert ((t ∉ l1 ++ l2) /\ NoDup (l1 ++ l2)) as [Hnot Hnd'].
  { apply list.NoDup_cons. by rewrite (Permutation_middle l1 l2 t). }
  rewrite not_elem_of_app in Hnot. destruct Hnot as [Hnot1 Hnot2]. split; [split|].
  - done.
  - cbn [ready_queue upd set_tasks]. by rewrite Hr2.
  - apply dll_app. split; apply dll_upd; try done; [by destruct (list.head l2)|by destruct (list.last l1)].
  - split; [apply tasks_upd_eq; by rewrite Ht2, Ht1|done].
Qed.

(** C26: adding and removing.  In a well linked ready queue, a task outside it that
    has no predecessor becomes the head when it is added.  After that any task [u] of
    the queue can be removed: it is unlinked, and the others keep their order. *)
Theorem scheduler_queue_add_remove s l t tc u l1 l2 :
  queue s l -> t ∉ l -> tasks s !! t = Some tc -> prev tc = None -> t :: l = l1 ++ u :: l2 ->
  queue (scheduler_add_to_queue s (Some t)) (t :: l) /\
  exists s' uc, scheduler_remove_from_queue (scheduler_add_to_queue s (Some t)) (Some u) = Some s' /\
    queue s' (l1 ++ l2) /\ tasks s' !! u = Some uc /\ next uc = None /\ prev uc = None.
Proof.
  intros Hq Ht Htc Hp E. pose proof (add_to_queue_spec s l t tc Hq Ht Htc Hp) as H. split; [done|].
  rewrite E in H. by apply remove_from_queue_spec.
Qed.

(** ** Switching *)
Lemma upd_upd t f g s : upd t f (upd t g s) = upd t (fun x => f (g x)) s.
Proof.
  unfold upd, set_tasks. cbn. f_equal. generalize (tasks s). revert t.
  induction t as [|t IH]; intros [|x l]; cbn; f_equal; auto.
Qed.

Lemma upd_same t tc f s : tasks s !! t = Some tc -> f tc = tc -> upd t f s = s.
Proof.
  destruct s as [l ????????]. unfold upd, set_tasks. cbn. intros Ht Hf. f_equal. revert t Ht.
  induction l as [|x l IH]; intros [|t] Ht; cbn in *; f_equal; auto. congruence.
Qed.

Lemma insert_take_drop (l m : list Z) k v : l !! k = Some v -> (k < length m)%nat ->
  <[k := v]> (take k l ++ drop k m) = take (S k) l ++ drop (S k) m.
Proof.
  intros Hl Hm. pose proof (lookup_lt_Some _ _ _ Hl). rewrite insert_app_r_alt, length_take_le, Nat.sub_diag by (rewrite ?length_take; lia).
  rewrite (take_S_r _ _ _ Hl), <- app_assoc. f_equal. destruct (lookup_lt_is_Some_2 m k Hm) as [x Hx].
  by rewrite (drop_S _ _ _ Hx).
Qed.

(** Both tables move the register with the number [k] at the [k]-th place. *)
Lemma saves_at k : (k < 15)%nat -> exists r, saves !! k = Some (r, k) /\ num r = k.
Proof. intros Hk. do 15 (destruct k as [|k]; [by eexists|]). lia. Qed.

Lemma restores_at k : (k < 15)%nat -> exists r, restores !! k = Some (r, k) /\ num r = k.
Proof. intros Hk. do 15 (destruct k as [|k]; [by eexists|]). lia. Qed.

Lemma moves_S f l k m s : l !! k = Some m -> moves f (take (S k) l) s = s ← moves f (take k l) s; f s m.
Proof. intros Hm. unfold moves. by rewrite (take_S_r _ _ _ Hm), foldl_app. Qed.

Lemma moves_None f l s k k' : moves f (take k l) s = None -> (k <= k')%nat -> moves f (take k' l) s = None.
Proof.
  intros H Hle. replace (take k l) with (take k (take k' l)) in H by (rewrite take_take; f_equal; lia).
  unfold moves in *. rewrite <- (take_drop k (take k' l)), foldl_app, H. induction (drop k (take k' l)); done.
Qed.

Lemma num_lt r : (num r < 15)%nat.
Proof. destruct r; cbn; lia. Qed.

Section switched.
Context (base : reg) (addr : nat -> Z).
Hypothesis addr_inj : forall i j, addr i = addr j -> i = j.

Let base_moved : (num base < 15)%nat := num_lt base.

Lemma operand_at s t : registers (cpu s) !! num base = Some (addr t) -> (t < length (tasks s))%nat -> operand base addr s = Some t.
Proof.
  intros Hr Ht. unfold operand. rewrite Hr. cbn [mbind option_bind].
  rewrite (proj2 (list_find_Some _ _ t t)); [done|]. rewrite lookup_seq. split; [lia|]. split; [done|].
  intros j y Hj Hlt E. apply lookup_seq in Hj as [-> _]. apply addr_inj in E. lia.
Qed.

(** What a task that was saved holds: sixteen registers, and its own address in the
    register that held it. *)
Definition saved (t : nat) (c : context) : Prop := length (registers c) = 16%nat /\ registers c !! num base = Some (addr t).

Definition passed (t : nat) (c : context) : context := set_reg (num base) (addr t) c.

Lemma save_moves s t tc k :
  (k <= 15)%nat -> length (registers (cpu s)) = 15%nat -> registers (cpu s) !! num base = Some (addr t) ->
  tasks s !! t = Some tc -> length (registers (ctx tc)) = 16%nat ->
  moves (save_register base addr) (take k saves) s = Some (upd t (set_ctx
    (Ctx (take k (registers (cpu s)) ++ drop k (registers (ctx tc))) (stack_pointer (ctx tc)) (flags (ctx tc)))) s).
Proof.
  intros Hk Hl Hb Ht Hm. induction k as [|k IH].
  - cbn [take moves foldl]. f_equal. symmetry. apply (upd_same _ tc); [done|]. by destruct tc as [???????[]].
  - destruct (saves_at k) as (r & Hk' & Er); [lia|]. rewrite (moves_S _ _ _ _ _ Hk'), IH by lia. cbn [mbind option_bind]. unfold save_register. cbn [fst snd].
    rewrite (operand_at _ t) by (cbn; rewrite ?length_alter; eauto using lookup_lt_Some). cbn [mbind option_bind cpu upd set_tasks].
    destruct (lookup_lt_is_Some_2 (registers (cpu s)) k ltac:(lia)) as [v Hv]. rewrite Er, Hv. cbn [mbind option_bind].
    unfold upd_ctx. fold (upd t (set_ctx (Ctx (take k (registers (cpu s)) ++ drop k (registers (ctx tc)))
      (stack_pointer (ctx tc)) (flags (ctx tc)))) s). rewrite upd_upd. cbn. unfold set_reg. cbn.
    rewrite <- (insert_take_drop _ _ _ _ Hv) by lia. done.
Qed.

Lemma passed_base t c : length (registers c) = 15%nat -> registers (passed t c) !! num base = Some (addr t).
Proof. intros Hl. cbn. apply list_lookup_insert_eq. lia. Qed.

Lemma passed_length t c : length (registers c) = 15%nat -> length (registers (passed t c)) = 15%nat.
Proof. intros Hl. cbn. by rewrite length_insert. Qed.

Lemma save_spec s t tc :
  length (registers (cpu s)) = 15%nat -> tasks s !! t = Some tc -> length (registers (ctx tc)) = 16%nat ->
  scheduler_save_context base addr s t = Some (upd t (set_ctx
    (Ctx (registers (passed t (cpu s)) ++ drop 15 (registers (ctx tc))) (stack_pointer (cpu s)) (flags (cpu s)))) (pass base addr t s)).
Proof.
  intros Hl Ht Hm. unfold scheduler_save_context.
  rewrite <- (firstn_all saves : take 15 saves = saves).
  rewrite (save_moves (pass base addr t s) t tc 15) by (done || by apply passed_length || by apply passed_base).
  cbn [mbind option_bind]. rewrite (operand_at _ t)
    by (by apply passed_base || (cbn; rewrite length_alter; by eapply lookup_lt_Some)). cbn [mbind option_bind].
  unfold upd_ctx. rewrite !upd_upd. cbn. unfold set_sp, set_flags. cbn. rewrite (take_ge (<[num base := _]> _)) by (rewrite length_insert; lia).
  done.
Qed.

Lemma restore_moves s t tc k :
  (k <= 15)%nat -> length (registers (cpu s)) = 15%nat -> registers (cpu s) !! num base = Some (addr t) ->
  tasks s !! t = Some tc -> length (registers (ctx tc)) = 16%nat ->
  registers (ctx tc) !! num base = Some (addr t) \/ (k <= S (num base))%nat ->
  moves (restore_register base addr) (take k restores) s = Some (set_cpu
    (Ctx (take k (registers (ctx tc)) ++ drop k (registers (cpu s))) (stack_pointer (cpu s)) (flags (cpu s))) s).
Proof.
  intros Hk Hl Hb Ht Hm Hs. induction k as [|k IH].
  - by destruct s as [????????[]].
  - destruct (restores_at k) as (r & Hk' & Er); [lia|]. rewrite (moves_S _ _ _ _ _ Hk'), IH by (lia || (destruct Hs; [by left|right; lia])).
    cbn [mbind option_bind]. unfold restore_register. cbn [fst snd].
    rewrite (operand_at _ t); [|cbn|by eapply lookup_lt_Some].
    + cbn [mbind option_bind tasks set_cpu]. rewrite Ht. cbn [mbind option_bind].
      destruct (lookup_lt_is_Some_2 (registers (ctx tc)) k ltac:(lia)) as [v Hv]. rewrite Hv. cbn.
      unfold set_reg. cbn. rewrite Er. by rewrite <- (insert_take_drop _ _ _ _ Hv) by lia.
    + destruct (decide (num base < k)%nat).
      * destruct Hs as [Hs|]; [|lia]. by rewrite lookup_app_l, lookup_take_lt by (rewrite ?length_take; lia).
      * rewrite lookup_app_r, length_take_le, lookup_drop by (rewrite ?length_take; lia). by rewrite Nat.add_comm, Nat.sub_add by lia.
Qed.

(** What the processor gets from a saved task. *)
Definition loaded (c : context) : context := Ctx (take 15 (registers c)) (stack_pointer c) (flags c).

Lemma restore_spec s t tc :
  length (registers (cpu s)) = 15%nat -> tasks s !! t = Some tc -> saved t (ctx tc) ->
  scheduler_restore_context base addr s t = Some (set_cpu (loaded (ctx tc)) s).
Proof.
  intros Hl Ht [Hm Hs]. unfold scheduler_restore_context.
  rewrite <- (firstn_all restores : take 15 restores = restores).
  rewrite (restore_moves (pass base addr t s) t tc 15)
    by (done || by apply passed_length || by apply passed_base || by left). cbn [mbind option_bind]. rewrite (operand_at _ t); [|cbn|by eapply lookup_lt_Some].
  - cbn. rewrite Ht. cbn. unfold loaded, set_sp, set_flags. cbn. rewrite (drop_ge (<[num base := _]> _)) by (rewrite length_insert; lia).
    by rewrite app_nil_r.
  - by rewrite lookup_app_l, lookup_take_lt by (rewrite ?length_take; lia).
Qed.

Lemma switch_to_spec s a b ta tb :
  current_task s = Some a -> a <> b -> tasks s !! a = Some ta -> tasks s !! b = Some tb ->
  length (registers (cpu s)) = 15%nat -> length (registers (ctx ta)) = 16%nat -> saved b (ctx tb) ->
  exists s' ta' tb',
    scheduler_switch_to base addr s b = Some s' /\ current_task s' = Some b /\ cpu s' = loaded (ctx tb) /\
    tasks s' !! a = Some ta' /\ state ta' <> TASK_RUNNING /\ loaded (ctx ta') = passed a (cpu s) /\ saved a (ctx ta') /\
    tasks s' !! b = Some tb' /\ state tb' = TASK_RUNNING /\ time_slice tb' = TIME_SLICE_TICKS /\ ctx tb' = ctx tb.
Proof.
  intros Hc Hab Ha Hb Hl Hm Hsv. unfold scheduler_switch_to. rewrite decide_False by congruence. rewrite Hc.
  cbn [tasks set_current mbind option_bind]. rewrite Ha. cbn [mbind option_bind].
  set (s0 := if state ta =? TASK_RUNNING then _ else _).
  assert (exists ta0, tasks s0 !! a = Some ta0 /\ state ta0 <> TASK_RUNNING /\ ctx ta0 = ctx ta /\ tasks s0 !! b = Some tb /\
    current_task s0 = Some b /\ cpu s0 = cpu s) as (ta0 & Ha0 & Hs0 & Hx0 & Hb0 & Hc0 & Hp0).
  { subst s0. destruct (Z.eqb_spec (state ta) TASK_RUNNING).
    - eexists. split; [by apply tasks_upd_eq|]. split; [discriminate|]. split; [done|]. by rewrite tasks_upd_ne.
    - exists ta. by repeat split. }
  clearbody s0. set (s1 := upd b _ s0). assert (tasks s1 !! a = Some ta0) as Ha1 by (subst s1; by rewrite tasks_upd_ne).
  rewrite (save_spec s1 a ta0) by (done || (cbn; congruence)). cbn [mbind option_bind].
  erewrite restore_spec; [|cbn; by rewrite length_insert, Hp0|rewrite tasks_upd_ne by done; by apply tasks_upd_eq|exact Hsv].
  do 3 eexists. split; [done|]. split; [exact Hc0|]. split; [done|]. split; [by apply tasks_upd_eq|]. split; [done|].
  cbn [ctx set_ctx]. rewrite (eq_refl : cpu s1 = cpu s0), Hp0. split; [|split; [split|]].
  - unfold loaded, passed, set_reg. cbn. f_equal. rewrite take_app_length'; [done|]. by rewrite length_insert.
  - cbn. rewrite length_app, length_insert, length_drop. rewrite Hx0. lia.
  - cbn. rewrite lookup_app_l by (rewrite length_insert; lia). apply list_lookup_insert_eq. lia.
  - cbn [tasks set_cpu]. rewrite tasks_upd_ne by done. split; [by apply tasks_upd_eq|done].
Qed.

(** a switch away and back.  Switching from [a] to [b], which was saved before, saves the
    processor in [a] and loads what [b] saved; whatever [b] computes meanwhile, switching back
    to [a] gives the registers, stack pointer and flags [a] had, but for the register that
    addresses the task, which holds the address of [a]. *)
Theorem scheduler_switch_back s a b ta tb c :
  current_task s = Some a -> a <> b -> tasks s !! a = Some ta -> tasks s !! b = Some tb ->
  length (registers (cpu s)) = 15%nat -> length (registers (ctx ta)) = 16%nat -> saved b (ctx tb) ->
  length (registers c) = 15%nat ->
  exists s1 s2 tb2,
    scheduler_switch_to base addr s b = Some s1 /\ current_task s1 = Some b /\ cpu s1 = loaded (ctx tb) /\
    scheduler_switch_to base addr (set_cpu c s1) a = Some s2 /\ current_task s2 = Some a /\ cpu s2 = passed a (cpu s) /\
    tasks s2 !! b = Some tb2 /\ loaded (ctx tb2) = passed b c /\ state tb2 <> TASK_RUNNING.
Proof.
  intros Hc Hab Ha Hb Hl Hm Hsv Hlc. destruct (switch_to_spec s a b ta tb Hc Hab Ha Hb Hl Hm Hsv)
    as (s1 & ta1 & tb1 & E1 & Hc1 & Hp1 & Ha1 & Hs1 & Hx1 & Hsa & Hb1 & Hr1 & Ht1 & Hy1).
  destruct (switch_to_spec (set_cpu c s1) b a tb1 ta1) as (s2 & tb2 & ta2 & E2 & Hc2 & Hp2 & Hb2 & Hs2 & Hx2 & _);
    [done..|rewrite Hy1; apply Hsv|done|]. exists s1, s2, tb2. rewrite Hx1 in Hp2. by repeat split.
Qed.

Lemma operand_nowhere s v :
  registers (cpu s) !! num base = Some v -> (forall i, addr i <> v) -> operand base addr s = None.
Proof.
  intros Hr Ha. unfold operand. rewrite Hr. cbn [mbind option_bind].
  rewrite (proj2 (list_find_None _ _)); [done|]. apply list.Forall_true. exact Ha.
Qed.

(** the first switch to a task is undefined.  The registers of a new task are zeros, so once
    the register that addresses it is loaded the next operand is not in its block. *)
Theorem scheduler_first_switch_undefined s t tc :
  length (registers (cpu s)) = 15%nat -> tasks s !! t = Some tc ->
  registers (ctx tc) = replicate 16 0 -> (forall i, addr i <> 0) ->
  scheduler_restore_context base addr s t = None.
Proof.
  intros Hl Ht Hz Ha. unfold scheduler_restore_context. rewrite <- (firstn_all restores : take 15 restores = restores).
  assert (length (registers (ctx tc)) = 16%nat) as Hm by (by rewrite Hz).
  pose proof (restore_moves (pass base addr t s) t tc (S (num base)) ltac:(lia) (passed_length _ _ Hl) (passed_base _ _ Hl) Ht Hm
    ltac:(by right)) as Hmv.
  match type of Hmv with _ = Some ?x => set (s1 := x) in Hmv end.
  assert (operand base addr s1 = None) as Ho.
  { apply (operand_nowhere _ 0); [|done]. cbn [s1 cpu set_cpu registers]. rewrite Hz.
    rewrite lookup_app_l by (rewrite length_take, length_replicate; lia).
    rewrite lookup_take_lt by lia. apply lookup_replicate_2. lia. }
  destruct (decide (num base = 14%nat)) as [Hb|Hb].
  - rewrite Hb in Hmv. rewrite Hmv. cbn [mbind option_bind]. by rewrite Ho.
  - rewrite (moves_None _ _ _ (S (S (num base)))); [done| |lia]. destruct (restores_at (S (num base))) as (r & Hr & _); [lia|].
    rewrite (moves_S _ _ _ _ _ Hr), Hmv. cbn [mbind option_bind]. unfold restore_register. by rewrite Ho.
Qed.

End switched.
(** ** The end of a time slice *)
Section ticking.
Context (base : reg) (addr : nat -> Z).

Fixpoint ticks (n : nat) (fuel : nat) (s : sched) : outcome sched :=
  match n with O => Ret s | S n' => s ← scheduler_tick base addr fuel s; ticks n' fuel s end.

(** A task that is the head of the ready queue while it runs. *)
Definition runs_queued (s : sched) (c : nat) (slice : Z) : Prop :=
  ready_queue s = Some c /\ current_task s = Some c /\ idle_task s <> Some c /\
  exists tc, tasks s !! c = Some tc /\ state tc = TASK_RUNNING /\ time_slice tc = slice.

Lemma select_loop_self s c tc :
  tasks s !! c = Some tc -> next tc = Some c ->
  forall fuel best, best = None \/ best = Some c -> select_loop fuel s (Some c) best = More.
Proof.
  intros Hc Hn fuel. induction fuel as [|fuel IH]; intros best Hb; [done|]. cbn [select_loop]. rewrite Hc.
  cbn [need mbind outcome_bind]. destruct Hb as [->| ->]; cbn [mbind outcome_bind].
  - rewrite Hn. apply IH. by right.
  - rewrite Hc, Hn. cbn [need mbind outcome_bind]. apply IH. by destruct (_ <? _); right.
Qed.

Lemma yield_hangs s c k fuel : runs_queued s c k -> scheduler_yield base addr fuel s = More.
Proof.
  intros (Hr & Hc & Hi & tc & Htc & Hs & _). unfold scheduler_yield. rewrite Hc, Htc. cbn [need mbind outcome_bind].
  rewrite Hs, Z.eqb_refl. cbn [mbind outcome_bind]. cbn [current_task upd set_tasks idle_task]. rewrite Hc.
  rewrite decide_False by congruence. unfold scheduler_schedule, scheduler_select_next_task. cbv beta.
  set (s1 := scheduler_add_to_queue _ _).
  assert (exists t1, tasks s1 !! c = Some t1 /\ next t1 = Some c) as (t1 & H1 & Hn1).
  { subst s1. unfold scheduler_add_to_queue. cbn [ready_queue upd set_tasks]. rewrite Hr.
    eexists. split; [cbn [tasks set_ready]; do 4 (erewrite tasks_upd_eq; [done|])|]; [|done]. exact Htc. }
  cbn [mbind outcome_bind]. fold s1. change (ready_queue s1) with (Some c).
  by rewrite (select_loop_self s1 c t1) by (done || by left).
Qed.

Lemma tick_running s c k fuel :
  runs_queued s c k -> 1 < k < 2 ^ 64 -> exists s', scheduler_tick base addr fuel s = Ret s' /\ runs_queued s' c (k - 1).
Proof.
  intros (Hr & Hc & Hi & tc & Htc & Hs & Hk) Hb. unfold scheduler_tick. cbn [current_task set_ticks]. rewrite Hc.
  erewrite tasks_upd_eq by exact Htc. cbn [need mbind outcome_bind time_slice set_total set_slice].
  assert (u64 (time_slice tc - 1) = k - 1) as Ek by (rewrite Hk; apply Z.mod_small; lia).
  rewrite Ek, (proj2 (Z.eqb_neq (k - 1) 0)) by lia. eexists. split; [done|]. split; [done|]. split; [done|].
  split; [done|]. eexists. split; [by apply tasks_upd_eq|]. done.
Qed.

Lemma ticks_running n fuel : forall s c k,
  runs_queued s c k -> Z.of_nat n < k < 2 ^ 64 -> exists s', ticks n fuel s = Ret s' /\ runs_queued s' c (k - Z.of_nat n).
Proof.
  induction n as [|n IH]; intros s c k Hs Hb; cbn [ticks].
  - exists s. by rewrite Z.sub_0_r.
  - destruct (tick_running s c k fuel Hs) as (s1 & E & Hs1); [lia|]. rewrite E. cbn [mbind outcome_bind].
    destruct (IH s1 c (k - 1) Hs1) as (s2 & E2 & Hs2); [lia|]. exists s2. split; [done|].
    by replace (k - Z.of_nat (S n)) with (k - 1 - Z.of_nat n) by lia.
Qed.

(** the end of a time slice.  A task keeps its place in the ready queue while it runs, so
    when the head of the queue has used its [k] ticks, the yield queues it a second time, behind itself, and
    the search for the next task does not end, whatever the number of its steps. *)
Theorem scheduler_slice_end_hangs s c k :
  runs_queued s c k -> 0 < k < 2 ^ 64 ->
  forall fuel, exists s', ticks (Z.to_nat (k - 1)) fuel s = Ret s' /\ forall fuel', scheduler_tick base addr fuel' s' = More.
Proof.
  intros Hs Hk fuel. destruct (ticks_running (Z.to_nat (k - 1)) fuel s c k Hs) as (s' & E & Hs'); [lia|].
  exists s'. split; [done|]. intros fuel'. replace (k - _) with 1 in Hs' by lia. clear E Hs s.
  destruct Hs' as (Hr & Hc & Hi & tc & Htc & Hst & H1). unfold scheduler_tick. cbn [current_task set_ticks]. rewrite Hc.
  erewrite tasks_upd_eq by exact Htc. cbn [need mbind outcome_bind time_slice set_total set_slice]. rewrite H1.
  cbn [Z.sub u64]. apply (yield_hangs _ c 0). split; [done|]. split; [done|]. split; [done|].
  eexists. split; [by apply tasks_upd_eq|]. split; [done|]. cbn. by rewrite H1.
Qed.

End ticking.

(** ** Examples: the tasks of a boot *)
Definition sched0 : sched := Sched [] None None None None 1 0 0 (Ctx (replicate 15 7) 4096 2).

(** After [scheduler_init]; the blocks are 1024 bytes apart. *)
Definition boot_state : sched := match scheduler_init 1048576 sched0 with Some s => s | None => sched0 end.
Definition addr0 (i : nat) : Z := 1048576 + 1024 * Z.of_nat i.

(** Two more tasks, one of them queued behind [init]. *)
Definition three : sched :=
  match scheduler_create_task 1048576 boot_state [97; 0] 3 with
  | Some (s, t) => scheduler_add_to_queue s t
  | None => boot_state
  end.
Definition four : sched :=
  match scheduler_create_task 1048576 three [98; 0] 9 with Some (s, _) => s | None => three end.

Lemma three_queue : queue three [2%nat; 1%nat].
Proof.
  split; [by apply (bool_decide_unpack _); vm_compute|by vm_compute|].
  split; [|split; [|done]]; (eexists; split; [by vm_compute|]; split; by vm_compute).
Qed.

Lemma scheduler_select_correct_witness :
  exists r, scheduler_select_next_task 5 three = Ret r /\ exists b, r = Some b /\ first_least three [2%nat; 1%nat] b.
Proof. apply (scheduler_select_correct 5 three [2%nat; 1%nat]); [exact three_queue|cbn; lia]. Defined.

Lemma scheduler_queue_add_remove_witness :
  queue (scheduler_add_to_queue four (Some 3%nat)) [3%nat; 2%nat; 1%nat] /\
  exists s' uc, scheduler_remove_from_queue (scheduler_add_to_queue four (Some 3%nat)) (Some 2%nat) = Some s' /\
    queue s' [3%nat; 1%nat] /\ tasks s' !! 2%nat = Some uc /\ next uc = None /\ prev uc = None.
Proof.
  eapply (scheduler_queue_add_remove four [2%nat; 1%nat] 3 _ 2 [3%nat] [1%nat]).
  - split; [by apply (bool_decide_unpack _); vm_compute|by vm_compute|].
    split; [|split; [|done]]; (eexists; split; [by vm_compute|]; split; by vm_compute).
  - by apply (bool_decide_unpack _); vm_compute.
  - vm_compute. reflexivity.
  - reflexivity.
  - reflexivity.
Defined.

(** Task 1 runs, task 2 was saved. *)
Definition switching : sched := upd 2 (fun x => set_ctx (Ctx (<[5%nat := addr0 2]> (replicate 16 9)) 77 2) x) (set_current (Some 1%nat) three).

Lemma addr0_inj i j : addr0 i = addr0 j -> i = j.
Proof. unfold addr0. lia. Qed.

Lemma scheduler_switch_back_witness :
  exists tb, tasks switching !! 2%nat = Some tb /\ exists s1 s2 tb2,
    scheduler_switch_to RDI addr0 switching 2 = Some s1 /\ current_task s1 = Some 2%nat /\ cpu s1 = loaded (ctx tb) /\
    scheduler_switch_to RDI addr0 (set_cpu (Ctx (replicate 15 3) 0 0) s1) 1 = Some s2 /\ current_task s2 = Some 1%nat /\
    cpu s2 = passed RDI addr0 1 (cpu switching) /\
    tasks s2 !! 2%nat = Some tb2 /\ loaded (ctx tb2) = passed RDI addr0 2 (Ctx (replicate 15 3) 0 0) /\ state tb2 <> TASK_RUNNING.
Proof.
  eexists. split; [vm_compute; reflexivity|]. eapply (scheduler_switch_back RDI addr0 addr0_inj switching 1 2).
  all: try done. all: try (split; reflexivity). all: vm_compute; reflexivity.
Defined.

Lemma scheduler_first_switch_undefined_witness : scheduler_restore_context RDI addr0 boot_state 1 = None.
Proof.
  eapply (scheduler_first_switch_undefined RDI addr0 addr0_inj boot_state 1); [done|by vm_compute|done|].
  intros i. unfold addr0. lia.
Defined.

(** A running task that is the head of the queue. *)
Definition head_runs : sched := upd 1 (set_state TASK_RUNNING) (set_current (Some 1%nat) boot_state).

Lemma scheduler_slice_end_hangs_witness :
  exists s', ticks RDI addr0 9 2 head_runs = Ret s' /\ forall fuel', scheduler_tick RDI addr0 fuel' s' = More.
Proof.
  apply (scheduler_slice_end_hangs RDI addr0 head_runs 1 10); [|split; reflexivity].
  split; [by vm_compute|]. split; [by vm_compute|]. split; [by vm_compute|].
  eexists. split; [by vm_compute|]. split; by vm_compute.
Defined.

End Scheduler.
