(* ===== verification/Ipc.v ===== *)
(** * Inter-process communication: [src/ipc/ipc.c]

    The structures live in memory, at the offsets the compiler gives them, because
    the pages they are in come from [mm_alloc_page] and may coincide; a pointer is an
    address, [NULL] is 0.  Permission checks are those of [Security], waking and
    sleeping those of [Scheduler]; walks along [next] and the wait for a message
    have fuel. *)
From S2P Require Import Prelude KernelLib Mm Security Scheduler.
Import Memory.
Open Scope Z_scope.

Module Ipc.
Import Scheduler.

(** ** Loads, stores and copies *)
Definition ld64 (m : mem) (a : Z) : Z := le_val (peek m a 8).
Definition ld32 (m : mem) (a : Z) : Z := le_val (peek m a 4).
Definition st64 (m : mem) (a v : Z) : mem := poke m a (le_bytes 8 v).
Definition st32 (m : mem) (a v : Z) : mem := poke m a (le_bytes 4 v).

(** [memcpy]: byte by byte, upwards. *)
Fixpoint copy (n : nat) (m : mem) (dest src : Z) : mem :=
  match n with O => m | S n' => copy n' (poke m dest [m src]) (dest + 1) (src + 1) end.

(** ** Data *)
(** [ipc_message_t] *)
Definition msg_sender_pid : Z := 0.
Definition msg_receiver_pid : Z := 8.
Definition msg_message_type : Z := 16.
Definition msg_message_size : Z := 24.
Definition msg_timestamp : Z := 32.
Definition msg_data : Z := 40.
Definition sizeof_message : Z := 40.

(** [message_queue_t] *)
Definition mq_queue_id : Z := 0.
Definition mq_owner_pid : Z := 8.
Definition mq_permissions : Z := 16.
Definition mq_messages : Z := 24.
Definition mq_message_count : Z := 32.
Definition mq_max_messages : Z := 36.
Definition mq_max_message_size : Z := 40.
Definition mq_next : Z := 48.
Definition mq_prev : Z := 56.

(** [shm_channel_t] *)
Definition sc_channel_id : Z := 0.
Definition sc_owner_pid : Z := 8.
Definition sc_permissions : Z := 16.
Definition sc_shared_memory : Z := 24.
Definition sc_size : Z := 32.
Definition sc_ref_count : Z := 40.
Definition sc_next : Z := 48.
Definition sc_prev : Z := 56.

(** [signal_t] *)
Definition sg_signal_number : Z := 0.
Definition sg_sender_pid : Z := 8.
Definition sg_receiver_pid : Z := 16.
Definition sg_timestamp : Z := 24.
Definition sg_next : Z := 32.
Definition sizeof_signal : Z := 40.

(** [waiting_tasks] is never used. *)
Record priority_inheritance := Pi {
  task_pid : Z;
  base_priority : Z;
  current_priority : Z;
  resource_held : Z;
  waiting_count : Z
}.

Record ipc := Ipc {
  pages : mm;
  heap : Z;                 (* the address of the kernel heap *)
  heap_pos : Z;
  message_queues : Z;
  shm_channels : Z;
  signals : Z;
  pi_table : list priority_inheritance;
  sched_ : sched;
  sec : Security.security;
  system_time : Z
}.

Definition IPC_READ : Z := 1.
Definition IPC_WRITE : Z := 2.
Definition MAX_CPUS : Z := 64.

Definition mem_of (s : ipc) : mem := memory (pages s).
Definition set_pages p s : ipc := Ipc p (heap s) (heap_pos s) (message_queues s) (shm_channels s) (signals s)
  (pi_table s) (sched_ s) (sec s) (system_time s).
Definition set_mem m s : ipc := set_pages (set_memory m (pages s)) s.
Definition set_heap_pos h s : ipc := Ipc (pages s) (heap s) h (message_queues s) (shm_channels s) (signals s)
  (pi_table s) (sched_ s) (sec s) (system_time s).
Definition set_queues q s : ipc := Ipc (pages s) (heap s) (heap_pos s) q (shm_channels s) (signals s)
  (pi_table s) (sched_ s) (sec s) (system_time s).
Definition set_channels c s : ipc := Ipc (pages s) (heap s) (heap_pos s) (message_queues s) c (signals s)
  (pi_table s) (sched_ s) (sec s) (system_time s).
Definition set_signals g s : ipc := Ipc (pages s) (heap s) (heap_pos s) (message_queues s) (shm_channels s) g
  (pi_table s) (sched_ s) (sec s) (system_time s).
Definition set_pi t s : ipc := Ipc (pages s) (heap s) (heap_pos s) (message_queues s) (shm_channels s) (signals s)
  t (sched_ s) (sec s) (system_time s).
Definition set_sched c s : ipc := Ipc (pages s) (heap s) (heap_pos s) (message_queues s) (shm_channels s) (signals s)
  (pi_table s) c (sec s) (system_time s).

(** ** Initialisation *)
Definition ipc_init (s : ipc) : ipc :=
  set_pi ((fun _ => Pi 0 0 0 0 0) <$> pi_table s) (set_signals 0 (set_channels 0 (set_queues 0 s))).

(** ** Searching *)
Fixpoint find_from (fuel : nat) (m : mem) (p id : Z) : outcome Z :=
  if p =? 0 then Ret 0
  else
    match fuel with
    | O => More
    | S fuel' => if negb (ld64 m (p + mq_queue_id) =? id) then find_from fuel' m (ld64 m (p + mq_next)) id else Ret p
    end.

Definition ipc_find_queue (fuel : nat) (s : ipc) (id : Z) : outcome Z := find_from fuel (mem_of s) (message_queues s) id.

(** The identifier and the link of a channel are where those of a queue are. *)
Definition ipc_find_shm_channel (fuel : nat) (s : ipc) (id : Z) : outcome Z :=
  find_from fuel (mem_of s) (shm_channels s) id.

(** ** Message queues *)
(** The result is a [u64]: so are its error codes. *)
Definition ipc_create_message_queue (s : ipc) (permissions : Z) : outcome (ipc * Z) :=
  let '(p, queue) := mm_alloc_page (pages s) in
  let s := set_pages p s in
  if queue =? 0 then Ret (s, u64 ERR_NO_MEMORY)
  else
    pid ← need (get_current_pid (sched_ s));
    let m := mem_of s in
    let m := st64 m (queue + mq_queue_id) queue in
    let m := st64 m (queue + mq_owner_pid) pid in
    let m := st64 m (queue + mq_permissions) permissions in
    let m := st32 m (queue + mq_message_count) 0 in
    let m := st32 m (queue + mq_max_messages) 256 in
    let m := st32 m (queue + mq_max_message_size) 1024 in
    let '(b, h) := malloc (heap_pos s) (ld32 m (queue + mq_max_messages) * ld32 m (queue + mq_max_message_size)) in
    let s := set_heap_pos h s in
    let m := st64 m (queue + mq_messages) (heap_addr (heap s) b) in
    let s := set_mem m s in
    match b with
    | None => Ret (set_pages (mm_free_page (pages s) queue) s, u64 ERR_NO_MEMORY)
    | Some _ =>
        let m := st64 m (queue + mq_next) (message_queues s) in
        let m := if message_queues s =? 0 then m else st64 m (message_queues s + mq_prev) queue in
        Ret (set_queues queue (set_mem m s), ld64 m (queue + mq_queue_id))
    end.

Definition ipc_send_message (fuel : nat) (s : ipc) (queue_id receiver_pid message_type data size : Z) : outcome (ipc * Z) :=
  queue ← ipc_find_queue fuel s queue_id;
  if queue =? 0 then Ret (s, ERR_NOT_FOUND)
  else
    pid ← need (get_current_pid (sched_ s));
    let m := mem_of s in
    if negb (Security.security_check_capability (sec s) pid (ld64 m (queue + mq_permissions)) IPC_WRITE)
    then Ret (s, ERR_PERMISSION)
    else if ld32 m (queue + mq_max_messages) <=? ld32 m (queue + mq_message_count) then Ret (s, ERR_BUSY)
    else if ld32 m (queue + mq_max_message_size) <? size then Ret (s, ERR_INVALID)
    else
      let msg := ld64 m (queue + mq_messages)
                 + u32 (ld32 m (queue + mq_message_count) * ld32 m (queue + mq_max_message_size)) in
      let m := st64 m (msg + msg_sender_pid) pid in
      let m := st64 m (msg + msg_receiver_pid) receiver_pid in
      let m := st64 m (msg + msg_message_type) message_type in
      let m := st64 m (msg + msg_message_size) size in
      let m := st64 m (msg + msg_timestamp) (system_time s) in
      let m := copy (Z.to_nat size) m (msg + msg_data) data in
      let m := st32 m (queue + mq_message_count) (u32 (ld32 m (queue + mq_message_count) + 1)) in
      let s := set_mem m s in
      c ← scheduler_wake_task fuel (sched_ s) receiver_pid;
      Ret (set_sched c s, ERR_SUCCESS).

(** The wait for a message. *)
Fixpoint wait_message (fuel : nat) (s : ipc) (queue : Z) : outcome ipc :=
  if negb (ld32 (mem_of s) (queue + mq_message_count) =? 0) then Ret s
  else
    match fuel with
    | O => More
    | S fuel' =>
        pid ← need (get_current_pid (sched_ s));
        c ← scheduler_sleep_task fuel' (sched_ s) pid;
        wait_message fuel' (set_sched c s) queue
    end.

(** [messages[i] = messages[i + 1]] for the [n] indices from [i]: an element is a header. *)
Fixpoint shift_messages (n : nat) (i : Z) (m : mem) (queue : Z) : mem :=
  match n with
  | O => m
  | S n' =>
      let messages := ld64 m (queue + mq_messages) in
      let m := copy 40 m (messages + i * sizeof_message) (messages + (i + 1) * sizeof_message) in
      shift_messages n' (i + 1) m queue
  end.

(** The three results are returned; [buffer] is an address, or 0. *)
Definition ipc_receive_message (fuel : nat) (s : ipc) (queue_id buffer : Z) : outcome (ipc * Z * option (Z * Z * Z)) :=
  queue ← ipc_find_queue fuel s queue_id;
  if queue =? 0 then Ret (s, ERR_NOT_FOUND, None)
  else
    pid ← need (get_current_pid (sched_ s));
    if negb (Security.security_check_capability (sec s) pid (ld64 (mem_of s) (queue + mq_permissions)) IPC_READ)
    then Ret (s, ERR_PERMISSION, None)
    else
      s ← wait_message fuel s queue;
      let m := mem_of s in
      let msg := ld64 m (queue + mq_messages) in
      let sender_pid := ld64 m (msg + msg_sender_pid) in
      let message_type := ld64 m (msg + msg_message_type) in
      let size := ld64 m (msg + msg_message_size) in
      let m := if negb (buffer =? 0) && (0 <? size) then copy (Z.to_nat size) m buffer (msg + msg_data) else m in
      let count := u32 (ld32 m (queue + mq_message_count) - 1) in
      let m := st32 m (queue + mq_message_count) count in
      let m := shift_messages (Z.to_nat count) 0 m queue in
      Ret (set_mem m s, ERR_SUCCESS, Some (sender_pid, message_type, size)).

(** ** Shared memory *)
Definition ipc_create_shm_channel (s : ipc) (size permissions : Z) : outcome (ipc * Z) :=
  let '(p, channel) := mm_alloc_page (pages s) in
  let s := set_pages p s in
  if channel =? 0 then Ret (s, u64 ERR_NO_MEMORY)
  else
    pid ← need (get_current_pid (sched_ s));
    let m := mem_of s in
    let m := st64 m (channel + sc_channel_id) channel in
    let m := st64 m (channel + sc_owner_pid) pid in
    let m := st64 m (channel + sc_permissions) permissions in
    let m := st64 m (channel + sc_size) (Z.land (u64 (size + 4095)) (u64 (Z.lnot 4095))) in
    let m := st32 m (channel + sc_ref_count) 0 in
    let '(p, page) := mm_alloc_page (pages (set_mem m s)) in
    let s := set_pages p s in
    let s := set_mem (st64 (mem_of s) (channel + sc_shared_memory) page) s in
    if page =? 0 then Ret (set_pages (mm_free_page (pages s) channel) s, u64 ERR_NO_MEMORY)
    else
      let m := st64 (mem_of s) (channel + sc_next) (shm_channels s) in
      let m := if shm_channels s =? 0 then m else st64 m (shm_channels s + sc_prev) channel in
      Ret (set_channels channel (set_mem m s), ld64 m (channel + sc_channel_id)).

(** [*addr] is the second result. *)
Definition ipc_attach_shm_channel (fuel : nat) (s : ipc) (channel_id : Z) : outcome (ipc * Z * option Z) :=
  channel ← ipc_find_shm_channel fuel s channel_id;
  if channel =? 0 then Ret (s, ERR_NOT_FOUND, None)
  else
    pid ← need (get_current_pid (sched_ s));
    let m := mem_of s in
    if negb (Security.security_check_capability (sec s) pid (ld64 m (channel + sc_permissions)) IPC_READ)
    then Ret (s, ERR_PERMISSION, None)
    else
      let addr := ld64 m (channel + sc_shared_memory) in
      let m := st32 m (channel + sc_ref_count) (u32 (ld32 m (channel + sc_ref_count) + 1)) in
      Ret (set_mem m s, ERR_SUCCESS, Some addr).

(** ** Signals *)
Definition ipc_send_signal (fuel : nat) (s : ipc) (receiver_pid signal_number : Z) : outcome (ipc * Z) :=
  let '(p, h) := malloc (heap_pos s) sizeof_signal in
  let s := set_heap_pos h s in
  match p with
  | None => Ret (s, ERR_NO_MEMORY)
  | Some _ =>
      let sig := heap_addr (heap s) p in
      pid ← need (get_current_pid (sched_ s));
      let m := mem_of s in
      let m := st64 m (sig + sg_signal_number) signal_number in
      let m := st64 m (sig + sg_sender_pid) pid in
      let m := st64 m (sig + sg_receiver_pid) receiver_pid in
      let m := st64 m (sig + sg_timestamp) (system_time s) in
      let m := st64 m (sig + sg_next) (signals s) in
      let s := set_signals sig (set_mem m s) in
      c ← scheduler_wake_task fuel (sched_ s) receiver_pid;
      Ret (set_sched c s, ERR_SUCCESS)
  end.

(** ** Priority inheritance: [cpu_id] is the number [get_cpu_id] returns. *)
Definition ipc_handle_priority_inheritance (cpu_id : Z) (fuel : nat) (s : ipc) (pid resource_id operation : Z) : outcome ipc :=
  e ← need (pi_table s !! Z.to_nat cpu_id);
  if operation =? 0 then
    prio ← get_task_priority fuel (sched_ s) pid;
    Ret (set_pi (<[Z.to_nat cpu_id := Pi pid (base_priority e) prio resource_id (waiting_count e)]> (pi_table s)) s)
  else if resource_held e =? resource_id then
    Ret (set_pi (<[Z.to_nat cpu_id := Pi (task_pid e) (base_priority e) (base_priority e) 0 (waiting_count e)]> (pi_table s)) s)
  else Ret s.

(** ** Memory *)
Definition ranges_apart (a n b k : Z) : Prop := a + n <= b \/ b + k <= a.

Lemma mem_ld_st_same n m a v : 0 <= v < 256 ^ Z.of_nat n -> le_val (peek (poke m a (le_bytes n v)) a n) = v.
Proof.
  intros Hv. replace (peek _ a n) with (le_bytes n v); [rewrite le_val_bytes_mod; by apply Z.mod_small|].
  replace n with (length (le_bytes n v)) at 3 by (pose proof (lenZ_le_bytes n v); unfold lenZ in *; lia).
  by rewrite peek_poke_same.
Qed.

Lemma peek_poke_apart m a l b n : ranges_apart a (lenZ l) b (Z.of_nat n) -> peek (poke m a l) b n = peek m b n.
Proof. intros H. apply peek_ext. intros x Hx. apply poke_outside. red in H. lia. Qed.

Lemma poke_byte m d v x : poke m d [v] x = if x =? d then v else m x.
Proof.
  destruct (Z.eqb_spec x d) as [->|Hx]; [unfold poke, getZ; by rewrite Z.sub_diag|].
  apply poke_outside. change (lenZ [v]) with 1. lia.
Qed.

Lemma copy_spec n : forall m d s x, ranges_apart d (Z.of_nat n) s (Z.of_nat n) ->
  copy n m d s x = if (d <=? x) && (x <? d + Z.of_nat n) then m (s + (x - d)) else m x.
Proof.
  unfold ranges_apart. induction n as [|n IH]; intros m d s x Ha; cbn [copy].
  - destruct (Z.leb_spec d x), (Z.ltb_spec x (d + Z.of_nat 0)); cbn; try done. lia.
  - rewrite IH, !poke_byte by lia. destruct (Z.leb_spec (d + 1) x) as [H1|H1]; cbn [andb].
    + rewrite (proj2 (Z.leb_le d x)) by lia. replace (d + Z.of_nat (S n)) with (d + 1 + Z.of_nat n) by lia. cbn [andb].
      destruct (Z.ltb_spec x (d + 1 + Z.of_nat n)); rewrite (proj2 (Z.eqb_neq _ d)) by lia; [|done]. f_equal. lia.
    + destruct (Z.eqb_spec x d) as [->|Hx].
      * rewrite Z.leb_refl, (proj2 (Z.ltb_lt _ _)) by lia. cbn. f_equal. lia.
      * by rewrite (proj2 (Z.leb_gt d x)) by lia.
Qed.

Lemma copy_outside n m d s x : ranges_apart d (Z.of_nat n) s (Z.of_nat n) ->
  x < d \/ d + Z.of_nat n <= x -> copy n m d s x = m x.
Proof.
  intros Ha Hx. rewrite copy_spec by done. destruct (Z.leb_spec d x), (Z.ltb_spec x (d + Z.of_nat n)); cbn; try done. lia.
Qed.

Lemma peek_shift m m' k : forall a b,
  (forall i, 0 <= i < Z.of_nat k -> m' (a + i) = m (b + i)) -> peek m' a k = peek m b k.
Proof.
  induction k as [|k IH]; intros a b Hm; cbn [peek]; [done|]. f_equal.
  - rewrite <- (Z.add_0_r a), <- (Z.add_0_r b). apply Hm. lia.
  - apply IH. intros i Hi. rewrite <- !Z.add_assoc. apply Hm. lia.
Qed.

Lemma peek_copy n m d s : ranges_apart d (Z.of_nat n) s (Z.of_nat n) -> peek (copy n m d s) d n = peek m s n.
Proof.
  intros Ha. apply peek_shift. intros i Hi. rewrite copy_spec by done. rewrite (proj2 (Z.leb_le _ _)), (proj2 (Z.ltb_lt _ _)) by lia.
  cbn. f_equal. lia.
Qed.

Lemma peek_copy_apart n m d s b k : ranges_apart d (Z.of_nat n) s (Z.of_nat n) ->
  ranges_apart d (Z.of_nat n) b (Z.of_nat k) -> peek (copy n m d s) b k = peek m b k.
Proof.
  intros Ha Hb. apply peek_ext. intros x Hx. rewrite copy_spec by done. red in Hb.
  destruct (Z.leb_spec d x), (Z.ltb_spec x (d + Z.of_nat n)); cbn; try done. lia.
Qed.

Ltac offsets := unfold ranges_apart, msg_sender_pid, msg_receiver_pid, msg_message_type, msg_message_size, msg_timestamp,
  msg_data, sizeof_message, mq_queue_id, mq_owner_pid, mq_permissions, mq_messages, mq_message_count, mq_max_messages,
  mq_max_message_size, mq_next, mq_prev, sc_channel_id, sc_owner_pid, sc_permissions, sc_shared_memory, sc_size,
  sc_ref_count, sc_next, sc_prev in *.

(** Goes back through the stores and copies that do not touch what is read. *)
Ltac mem_simp := unfold ld64, ld32, st64, st32 in *; repeat match goal with
  | |- context [le_val (peek (poke ?m ?a (le_bytes ?n ?v)) ?a ?n)] => rewrite (mem_ld_st_same n m a v) by (cbn; lia)
  | |- context [peek (copy ?n ?m ?d ?s) ?d ?n] => rewrite (peek_copy n m d s) by (offsets; lia)
  | |- context [peek (poke ?m ?a ?l) ?b ?n] =>
      rewrite (peek_poke_apart m a l b n) by (offsets; rewrite ?lenZ_le_bytes; lia)
  | |- context [peek (copy ?n ?m ?d ?s) ?b ?k] => rewrite (peek_copy_apart n m d s b k) by (offsets; lia)
  end.

Ltac byte_simp := unfold st64, st32 in *; repeat match goal with
  | |- context [poke ?m ?a ?l ?x] => rewrite (poke_outside m a l x) by (offsets; rewrite ?lenZ_le_bytes; lia)
  | |- context [copy ?n ?m ?d ?s ?x] => rewrite (copy_outside n m d s x) by (offsets; lia)
  end.

(** ** Message queues *)
(** The queue [q] is the head of the list, its slots start at [b], and [k] of them are used. *)
Record queue_at (s : ipc) (q b k : Z) : Prop := {
  at_head : message_queues s = q;
  at_q : q <> 0;
  at_id : ld64 (mem_of s) (q + mq_queue_id) = q;
  at_messages : ld64 (mem_of s) (q + mq_messages) = b;
  at_count : ld32 (mem_of s) (q + mq_message_count) = k;
  at_max : ld32 (mem_of s) (q + mq_max_messages) = 256;
  at_max_size : ld32 (mem_of s) (q + mq_max_message_size) = 1024;
  at_apart : ranges_apart q 64 b 263208;
  at_count_range : 0 <= k <= 256
}.

(** The current task may use the queue. *)
Definition may (s : ipc) (q right : Z) : Prop :=
  exists pid, get_current_pid (sched_ s) = Some pid /\
    Security.security_check_capability (sec s) pid (ld64 (mem_of s) (q + mq_permissions)) right = true.

(** The message at [a]. *)
Definition msg_at (m : mem) (a pid type size : Z) (l : bytes) : Prop :=
  ld64 m (a + msg_sender_pid) = pid /\ ld64 m (a + msg_message_type) = type /\ ld64 m (a + msg_message_size) = size /\
  peek m (a + msg_data) (Z.to_nat size) = l.

Lemma find_queue_at fuel s q b k : queue_at s q b k -> ipc_find_queue (S fuel) s q = Ret q.
Proof.
  intros H. unfold ipc_find_queue. rewrite (at_head _ _ _ _ H). cbn [find_from].
  rewrite (proj2 (Z.eqb_neq q 0)) by apply (at_q _ _ _ _ H). by rewrite (at_id _ _ _ _ H), Z.eqb_refl.
Qed.

Lemma send_spec fuel s q b k pid receiver type data size c :
  queue_at s q b k -> k < 256 -> get_current_pid (sched_ s) = Some pid -> is_u64 pid -> may s q IPC_WRITE ->
  is_u64 type -> 0 <= size <= 1024 ->
  ranges_apart (b + 1024 * k) (40 + size) data size ->
  scheduler_wake_task (S fuel) (sched_ s) receiver = Ret c ->
  exists s', ipc_send_message (S fuel) s q receiver type data size = Ret (s', ERR_SUCCESS) /\
    queue_at s' q b (k + 1) /\ sched_ s' = c /\ sec s' = sec s /\
    msg_at (mem_of s') (b + 1024 * k) pid type size (peek (mem_of s) data (Z.to_nat size)) /\
    (forall x, ~ (b + 1024 * k <= x < b + 1024 * k + 40 + size) -> ~ (q + 32 <= x < q + 36) -> mem_of s' x = mem_of s x).
Proof.
  intros Hq Hk Hpid Hu (pid' & Hpid' & Hcap) Ht Hs Hd Hw. rewrite Hpid in Hpid'. injection Hpid' as <-.
  unfold ipc_send_message. rewrite (find_queue_at fuel s q b k Hq). cbn [mbind outcome_bind].
  destruct Hq as [Hh Hq Hid Hb Hc Hm Hms Hap Hcr]. rewrite (proj2 (Z.eqb_neq q 0)) by done.
  rewrite Hpid. cbn [need mbind outcome_bind]. rewrite Hcap. cbn [negb].
  rewrite Hm, Hc, Hms, Hb, (proj2 (Z.leb_gt _ _)), (proj2 (Z.ltb_ge _ _)) by lia.
  assert (u32 (k * 1024) = 1024 * k) as -> by (unfold u32; rewrite Z.mod_small; lia).
  set (a := b + 1024 * k) in *. set (m := copy _ _ _ _). cbn [sched_ set_mem set_pages]. rewrite Hw. cbn [mbind outcome_bind].
  assert (ld32 m (q + mq_message_count) = k) as Hcm.
  { subst m a. unfold is_u64 in *. rewrite <- Hc. mem_simp. done. }
  rewrite Hcm. assert (u32 (k + 1) = k + 1) as -> by (apply u32_id; red; lia).
  eexists. split; [done|]. unfold mem_of. cbn [sched_ set_sched sec set_mem set_pages pages memory set_memory].
  clear Hcap Hw. subst m. unfold is_u64 in *. split; [|split; [done|split; [done|split]]].
  - split; unfold mem_of; cbn [message_queues set_sched set_mem set_pages pages memory set_memory]; subst a; try done; try lia;
      try (mem_simp; done).
  - subst a. repeat split; mem_simp; done.
  - intros x Hx1 Hx2. subst a. byte_simp. done.
Qed.

Lemma receive_eq fuel s q b k buffer :
  queue_at s q b k -> 0 < k -> may s q IPC_READ ->
  let m := mem_of s in
  let size := ld64 m (b + msg_message_size) in
  let m1 := if negb (buffer =? 0) && (0 <? size) then copy (Z.to_nat size) m buffer (b + msg_data) else m in
  (buffer <> 0 -> ranges_apart buffer size q 64 /\ ranges_apart buffer size (b + msg_data) size) ->
  ipc_receive_message (S fuel) s q buffer =
    Ret (set_mem (shift_messages (Z.to_nat (k - 1)) 0 (st32 m1 (q + mq_message_count) (k - 1)) q) s, ERR_SUCCESS,
         Some (ld64 m (b + msg_sender_pid), ld64 m (b + msg_message_type), size)).
Proof.
  intros Hq Hk (pid & Hpid & Hcap) m size m1 Hbuf. unfold ipc_receive_message.
  rewrite (find_queue_at fuel s q b k Hq). cbn [mbind outcome_bind]. destruct Hq as [Hh Hq Hid Hb Hc Hm Hms Hap Hcr].
  rewrite (proj2 (Z.eqb_neq q 0)) by done. rewrite Hpid. cbn [need mbind outcome_bind]. rewrite Hcap. cbn [negb].
  cbn [wait_message]. rewrite Hc, (proj2 (Z.eqb_neq k 0)) by lia. cbn [negb mbind outcome_bind]. rewrite Hb.
  fold m. fold size. fold m1.
  assert (ld32 m1 (q + mq_message_count) = k) as Hcm.
  { subst m1. destruct (Z.eqb_spec buffer 0) as [|Hnz]; [done|]. cbn [negb andb]. destruct (Z.ltb_spec 0 size); [|done].
    destruct (Hbuf Hnz). rewrite <- Hc. mem_simp. done. }
  rewrite Hcm. by rewrite u32_id by (red; lia).
Qed.

(** The queue and the rights only depend on memory outside the slots. *)
Lemma queue_at_sched c s q b k : queue_at s q b k -> queue_at (set_sched c s) q b k.
Proof. by intros []. Qed.

Lemma may_frame s s' q right : (forall x, q + 16 <= x < q + 24 -> mem_of s' x = mem_of s x) -> sched_ s' = sched_ s ->
  sec s' = sec s -> may s q right -> may s' q right.
Proof.
  intros Hm Hc Hs (pid & Hp & Hcap). exists pid. rewrite Hc, Hs. split; [done|]. unfold ld64 in *.
  rewrite (peek_ext (mem_of s)); [done|]. intros x Hx. apply Hm. offsets. lia.
Qed.

(** C27: a message goes through.  A message sent to an empty queue that the sender may write and
    the receiver may read arrives: the receive returns the sender, the type and the size,
    the buffer gets the bytes that were sent, and the queue is empty again. *)
Theorem ipc_send_receive fuel s q b pid receiver type data size c c' buffer :
  queue_at s q b 0 -> get_current_pid (sched_ s) = Some pid -> is_u64 pid -> is_u64 type -> 0 < size <= 1024 ->
  may s q IPC_WRITE -> may (set_sched c' s) q IPC_READ ->
  ranges_apart b (40 + size) data size -> buffer <> 0 ->
  ranges_apart buffer size q 64 -> ranges_apart buffer size b (40 + size) ->
  scheduler_wake_task (S fuel) (sched_ s) receiver = Ret c ->
  exists s1 s2, ipc_send_message (S fuel) s q receiver type data size = Ret (s1, ERR_SUCCESS) /\
    ipc_receive_message (S fuel) (set_sched c' s1) q buffer = Ret (s2, ERR_SUCCESS, Some (pid, type, size)) /\
    peek (mem_of s2) buffer (Z.to_nat size) = peek (mem_of s) data (Z.to_nat size) /\ queue_at s2 q b 0.
Proof.
  intros Hq Hpid Hu Ht Hs Hw Hr Hd Hnz Hbq Hbb Hwake.
  destruct (send_spec fuel s q b 0 pid receiver type data size c) as (s1 & E1 & Hq1 & Hc1 & Hsec & Hmsg & Hfr);
    [done|lia|done|done|done|done|lia|by rewrite Z.add_0_r|done|].
  exists s1. eexists. split; [done|]. rewrite Z.mul_0_r, Z.add_0_r in *. destruct Hmsg as (M1 & M2 & M3 & M4).
  assert (may (set_sched c' s1) q IPC_READ) as Hr1.
  { apply (may_frame (set_sched c' s)); [|done|done|done]. intros x Hx. destruct Hq1. offsets. apply Hfr; lia. }
  rewrite (receive_eq fuel (set_sched c' s1) q b 1 buffer (queue_at_sched _ _ _ _ _ Hq1)) by
    (done || (change (mem_of (set_sched c' s1)) with (mem_of s1); rewrite M3; offsets; lia)).
  change (mem_of (set_sched c' s1)) with (mem_of s1). rewrite M1, M2, M3. split; [done|].
  rewrite (proj2 (Z.eqb_neq buffer 0)), (proj2 (Z.ltb_lt 0 size)) by lia. cbn [negb andb].
  change (1 - 1) with 0. change (Z.to_nat 0) with 0%nat. cbn [shift_messages]. unfold mem_of at 1.
  cbn [set_mem pages set_pages memory set_memory set_sched]. split.
  - rewrite <- M4. mem_simp. done.
  - destruct Hq1 as [Hh Hq1 Hid Hb Hc Hm Hms Hap Hcr].
    split; unfold mem_of; cbn [message_queues set_sched set_mem set_pages pages memory set_memory]; try done; try lia; mem_simp; done.
Qed.

Lemma peek_take m n : forall k a, (k <= n)%nat -> take k (peek m a n) = peek m a k.
Proof.
  induction n as [|n IH]; intros [|k] a Hk; cbn; try done; [lia|]. f_equal. apply IH. lia.
Qed.

Lemma peek_drop m n : forall k a, drop k (peek m a (k + n)) = peek m (a + Z.of_nat k) n.
Proof.
  intros k. induction k as [|k IH]; intros a; [by rewrite Z.add_0_r|]. cbn [Nat.add peek drop]. rewrite IH. f_equal. lia.
Qed.

Lemma ld64_payload m a n (k : nat) : (k + 8 <= n)%nat ->
  ld64 m (a + Z.of_nat k) = le_val (take 8 (drop k (peek m a n))).
Proof.
  intros Hk. replace n with (k + (n - k))%nat by lia. rewrite peek_drop, peek_take by lia. done.
Qed.

Lemma shift_messages_one m q b : ld64 m (q + mq_messages) = b -> shift_messages 1 0 m q = copy 40 m b (b + 40).
Proof.
  intros Hb. cbn [shift_messages]. rewrite Hb, Z.mul_0_l, Z.add_0_r, Z.add_0_l, Z.mul_1_l. reflexivity.
Qed.

Lemma receive_two fuel s q b :
  queue_at s q b 2 -> may s q IPC_READ ->
  let m := mem_of s in
  exists s1 s2,
    ipc_receive_message (S fuel) s q 0 = Ret (s1, ERR_SUCCESS,
      Some (ld64 m (b + msg_sender_pid), ld64 m (b + msg_message_type), ld64 m (b + msg_message_size))) /\
    ipc_receive_message (S fuel) s1 q 0 = Ret (s2, ERR_SUCCESS, Some (ld64 m (b + 40), ld64 m (b + 56), ld64 m (b + 64))).
Proof.
  intros Hq Hr m. pose proof (receive_eq fuel s q b 2 0 Hq ltac:(lia) Hr (fun H => match H eq_refl with end)) as E1.
  cbv zeta in E1. rewrite Z.eqb_refl in E1. cbn [negb andb] in E1. destruct Hq as [Hh Hq Hid Hb Hc Hm Hms Hap Hcr].
  assert (ld64 (st32 m (q + mq_message_count) (2 - 1)) (q + mq_messages) = b) as Eb by (rewrite <- Hb; subst m; mem_simp; done).
  fold m in E1. replace (Z.to_nat (2 - 1)) with 1%nat in E1 by reflexivity. rewrite (shift_messages_one _ q b Eb) in E1.
  set (s1 := set_mem _ s) in E1. rewrite E1. exists s1. eexists. split; [reflexivity|]. clear E1.
  assert (mem_of s1 = copy 40 (st32 m (q + mq_message_count) (2 - 1)) b (b + 40)) as Em by reflexivity.
  assert (message_queues s1 = q /\ sched_ s1 = sched_ s /\ sec s1 = sec s) as (Hh1 & Hc1 & Hs1)
    by exact (conj Hh (conj eq_refl eq_refl)).
  clearbody s1. assert (queue_at s1 q b 1) as Hq1.
  { split; rewrite ?Em; subst m; [exact Hh1|exact Hq| | | | | |exact Hap|lia]; mem_simp; assumption || reflexivity. }
  assert (may s1 q IPC_READ) as Hr1.
  { apply (may_frame s); [|assumption..]. intros x Hx. rewrite Em. subst m. offsets. byte_simp. done. }
  assert (forall o, 0 <= o <= 32 -> ld64 (mem_of s1) (b + o) = ld64 m (b + (40 + o))) as E.
  { intros o Ho. rewrite Em, Z.add_assoc. unfold ld64. apply (f_equal le_val).
    transitivity (peek (st32 m (q + mq_message_count) (2 - 1)) (b + 40 + o) 8); [|mem_simp; done].
    apply peek_shift. intros i Hi. rewrite copy_spec by (offsets; lia).
    rewrite (proj2 (Z.leb_le _ _)), (proj2 (Z.ltb_lt _ _)) by lia. cbn [andb]. f_equal. lia. }
  rewrite (receive_eq fuel s1 q b 1 0 Hq1 ltac:(lia) Hr1 (fun H => match H eq_refl with end)).
  unfold msg_sender_pid, msg_message_type, msg_message_size. rewrite !E by lia. reflexivity.
Qed.

(** the second message.  When two messages are queued, receiving the first moves the others
    up by the size of a header instead of the size of a slot: the second receive
    reports a sender, a type and a size that are bytes 0 to 31 of the payload of the
    first message, whatever the second message is. *)
Theorem ipc_second_message_forged fuel s q b pid receiver t1 d1 n1 t2 d2 n2 c :
  queue_at s q b 0 -> get_current_pid (sched_ s) = Some pid -> is_u64 pid -> is_u64 t1 -> is_u64 t2 ->
  40 <= n1 <= 1024 -> 0 <= n2 <= 1024 ->
  may s q IPC_WRITE -> may (set_sched c s) q IPC_READ ->
  ranges_apart b (40 + n1) d1 n1 -> ranges_apart (b + 1024) (40 + n2) d2 n2 ->
  scheduler_wake_task (S fuel) (sched_ s) receiver = Ret (sched_ s) ->
  let payload := peek (mem_of s) d1 (Z.to_nat n1) in
  exists s1 s2 s3 s4,
    ipc_send_message (S fuel) s q receiver t1 d1 n1 = Ret (s1, ERR_SUCCESS) /\
    ipc_send_message (S fuel) s1 q receiver t2 d2 n2 = Ret (s2, ERR_SUCCESS) /\
    ipc_receive_message (S fuel) (set_sched c s2) q 0 = Ret (s3, ERR_SUCCESS, Some (pid, t1, n1)) /\
    ipc_receive_message (S fuel) s3 q 0 = Ret (s4, ERR_SUCCESS,
      Some (le_val (take 8 payload), le_val (take 8 (drop 16 payload)), le_val (take 8 (drop 24 payload)))).
Proof.
  intros Hq Hpid Hu Ht1 Ht2 H1 H2 Hw Hr Hd1 Hd2 Hwake payload.
  destruct (send_spec fuel s q b 0 pid receiver t1 d1 n1 (sched_ s)) as (s1 & E1 & Hq1 & Hc1 & Hsec1 & Hmsg1 & Hfr1);
    [done|lia|done|done|done|done|lia|by rewrite Z.add_0_r|done|].
  rewrite Z.mul_0_r, Z.add_0_r in *. change (0 + 1) with 1 in *. pose proof (at_apart _ _ _ _ Hq) as Hap.
  assert (may s1 q IPC_WRITE) as Hw1.
  { apply (may_frame s); [|done|done|done]. intros x Hx. offsets. apply Hfr1; lia. }
  destruct (send_spec fuel s1 q b 1 pid receiver t2 d2 n2 (sched_ s)) as (s2 & E2 & Hq2 & Hc2 & Hsec2 & _ & Hfr2);
    [done|lia|by rewrite Hc1|done|done|done|lia|done|by rewrite Hc1|].
  change (1024 * 1) with 1024 in *. change (1 + 1) with 2 in *.
  assert (may (set_sched c s2) q IPC_READ) as Hr2.
  { apply (may_frame (set_sched c s)); [|done|cbn; congruence|done]. intros x Hx. offsets. 
    change (mem_of (set_sched c s2) x) with (mem_of s2 x). rewrite Hfr2, Hfr1 by lia. done. }
  assert (forall o n, 0 <= o -> o + Z.of_nat n <= 80 -> peek (mem_of s2) (b + o) n = peek (mem_of s1) (b + o) n) as Hsame.
  { intros o n Ho Hn. apply peek_ext. intros x Hx. apply Hfr2; offsets; lia. }
  destruct Hmsg1 as (M1 & M2 & M3 & M4).
  assert (forall k, (k + 8 <= 40)%nat -> ld64 (mem_of s2) (b + 40 + Z.of_nat k) = le_val (take 8 (drop k payload))) as Hpay.
  { intros k Hk. subst payload. rewrite <- M4, <- ld64_payload by lia. unfold ld64, msg_data.
    rewrite <- Z.add_assoc, (Hsame (40 + Z.of_nat k)) by lia. by rewrite Z.add_assoc. }
  destruct (receive_two fuel (set_sched c s2) q b (queue_at_sched _ _ _ _ _ Hq2) Hr2) as (s3 & s4 & E3 & E4).
  change (mem_of (set_sched c s2)) with (mem_of s2) in *. exists s1, s2, s3, s4. split; [done|]. split; [done|]. split.
  - rewrite E3. do 3 f_equal. unfold ld64 in *. unfold msg_sender_pid, msg_message_type, msg_message_size in *.
    rewrite !Hsame by lia. by rewrite M1, M2, M3.
  - rewrite E4. do 2 f_equal. pose proof (Hpay 0%nat) as P0. pose proof (Hpay 16%nat) as P1. pose proof (Hpay 24%nat) as P2.
    rewrite drop_0 in P0. rewrite <- !Z.add_assoc in P0, P1, P2. rewrite <- P0, <- P1, <- P2 by lia. done.
Qed.

(** ** Creating queues and channels *)
(** The page allocator hands out the page [p], and goes on doing so. *)
Definition gives (s : ipc) (p : Z) : Prop := free_pages (pages s) = p /\ 0 < p < 2 ^ 63 /\ p mod 4096 = 0.

Lemma alloc_page_gives s p : free_pages s = p -> 0 < p -> p mod 4096 = 0 ->
  exists s', mm_alloc_page s = (s', p) /\ free_pages s' = p /\ memory s' = fill (memory s) p 0 PAGE_SIZE.
Proof.
  intros Hf H0 Ha. unfold mm_alloc_page. rewrite Hf, (proj2 (Z.eqb_neq p 0)) by lia. eexists. split; [done|]. split; [|done].
  cbn [free_pages set_memory set_free]. by apply page_round.
Qed.

Lemma malloc_room h n : heap_wf h -> 0 <= n -> h + n <= HEAP_SIZE ->
  exists h', malloc h n = (Some h, h') /\ h + n <= h' < h + n + 16 /\ heap_wf h'.
Proof.
  intros Hw Hn Hr. destruct (malloc_cases h n Hw) as [[_ ?]|?]; [|lia|done]. split; [done|]. unfold HEAP_SIZE in *.
  destruct Hw. lia.
Qed.

Lemma create_spec s p perms pid :
  gives s p -> get_current_pid (sched_ s) = Some pid -> heap_wf (heap_pos s) -> heap_pos s + 262144 <= HEAP_SIZE ->
  0 <= heap s -> heap s + HEAP_SIZE < 2 ^ 63 -> message_queues s = 0 \/ message_queues s = p ->
  exists s', ipc_create_message_queue s perms = Ret (s', p) /\ gives s' p /\ sched_ s' = sched_ s /\ sec s' = sec s /\
    heap s' = heap s /\ heap_wf (heap_pos s') /\ heap_pos s' < heap_pos s + 262160 /\ message_queues s' = p /\
    ld64 (mem_of s') (p + mq_queue_id) = p /\ ld64 (mem_of s') (p + mq_next) = message_queues s /\
    ld64 (mem_of s') (p + mq_messages) = heap s + heap_pos s /\ ld32 (mem_of s') (p + mq_message_count) = 0 /\
    ld32 (mem_of s') (p + mq_max_messages) = 256 /\ ld32 (mem_of s') (p + mq_max_message_size) = 1024.
Proof.
  intros (Hf & Hp & Hp4) Hpid Hw Hr Hh0 Hh Hmq. destruct (alloc_page_gives (pages s) p) as (g & Eg & Hfg & _); [done|lia|done|].
  change (2 ^ 63) with 9223372036854775808 in *. unfold ipc_create_message_queue. rewrite Eg, (proj2 (Z.eqb_neq p 0)) by lia.
  cbn [sched_ set_pages]. rewrite Hpid. cbn [need mbind outcome_bind]. set (m := st32 _ (p + mq_max_message_size) _).
  assert (ld32 m (p + mq_max_messages) * ld32 m (p + mq_max_message_size) = 262144) as -> by (subst m; mem_simp; done).
  cbn [heap_pos set_pages]. destruct (malloc_room (heap_pos s) 262144) as (h & -> & Hh' & Hwh); [done|lia|done|].
  cbn [heap_addr message_queues set_mem set_heap_pos set_pages heap]. destruct Hw as [Hw16 Hw].
  destruct Hmq as [-> | ->]; [rewrite Z.eqb_refl|rewrite (proj2 (Z.eqb_neq p 0)) by lia].
  all: eexists; split; [do 2 f_equal; subst m; mem_simp; done|]; unfold mem_of;
    cbn [pages set_queues set_mem set_pages memory set_memory sched_ sec heap heap_pos set_heap_pos message_queues].
  all: split; [done|]; do 3 (split; [done|]); split; [done|]; split; [lia|]; split; [done|]; subst m.
  all: repeat split; mem_simp; done.
Qed.

Lemma find_from_self m p id : p <> 0 -> ld64 m (p + mq_next) = p -> ld64 m (p + mq_queue_id) <> id ->
  forall fuel, find_from fuel m p id = More.
Proof.
  intros Hp Hn Hid fuel. induction fuel as [|fuel IH]; cbn [find_from]; rewrite (proj2 (Z.eqb_neq p 0)) by done; [done|].
  by rewrite (proj2 (Z.eqb_neq _ id)), Hn.
Qed.

(** creating message queues.  With a page and room in the heap, the first queue is well formed and
    empty, and its identifier finds it.  The second is created in the same page, has
    the same identifier and becomes its own successor: the search for any
    other identifier does not end. *)
Theorem ipc_create_queues s p perms1 perms2 pid :
  gives s p -> get_current_pid (sched_ s) = Some pid -> heap_wf (heap_pos s) -> heap_pos s + 524304 <= HEAP_SIZE ->
  0 <= heap s -> heap s + HEAP_SIZE < 2 ^ 63 -> ranges_apart p 64 (heap s) (HEAP_SIZE + 1064) -> message_queues s = 0 ->
  exists s1 s2,
    ipc_create_message_queue s perms1 = Ret (s1, p) /\ queue_at s1 p (heap s + heap_pos s) 0 /\
    (forall fuel, ipc_find_queue (S fuel) s1 p = Ret p) /\
    ipc_create_message_queue s1 perms2 = Ret (s2, p) /\
    forall id fuel, id <> p -> ipc_find_queue fuel s2 id = More.
Proof.
  intros Hg Hpid Hw Hr Hh0 Hh Hap Hmq. pose proof Hg as (_ & Hp & _).
  destruct (create_spec s p perms1 pid) as (s1 & E1 & Hg1 & Hs1 & _ & Hh1 & Hw1 & Hhp & Hq1 & Hid & Hn & Hm & Hc & Hx & Hy); try done; [lia|by left|].
  assert (queue_at s1 p (heap s + heap_pos s) 0) as Hq.
  { split; try done; try lia. destruct Hw. unfold ranges_apart, HEAP_SIZE in *. lia. }
  destruct (create_spec s1 p perms2 pid) as (s2 & E2 & _ & _ & _ & _ & _ & _ & Hq2 & Hid2 & Hn2 & _);
    [done|by rewrite Hs1|done|lia|by rewrite Hh1|by rewrite Hh1|by right|].
  exists s1, s2. split; [done|]. split; [done|]. split; [intros fuel; by eapply find_queue_at|]. split; [done|].
  intros id fuel Hne. unfold ipc_find_queue. rewrite Hq2. apply find_from_self; [lia|by rewrite Hn2|].
  rewrite Hid2. congruence.
Qed.

Lemma fill_inside m a n x : a <= x < a + n -> fill m a 0 n x = 0.
Proof. intros Hx. unfold fill. by rewrite (proj2 (Z.leb_le _ _)), (proj2 (Z.ltb_lt _ _)) by lia. Qed.

Lemma peek_fill m a n b k : a <= b -> b + Z.of_nat k <= a + n -> peek (fill m a 0 n) b k = replicate k 0.
Proof.
  revert b. induction k as [|k IH]; intros b Hb Hk; [done|]. cbn [peek replicate]. rewrite fill_inside by lia. f_equal.
  apply IH; lia.
Qed.

Lemma le_val_zeros k : le_val (replicate k 0) = 0.
Proof. induction k as [|k IH]; [done|]. cbn [replicate le_val]. by rewrite IH. Qed.

(** a shared memory channel is its own memory.  The page for the shared memory is the page
    of the channel, cleared again: the identifier returned is 0, the channel has no owner, no
    permissions and size 0, and the memory handed to those who attach is the channel itself. *)
Theorem ipc_shm_channel_overlaps fuel s p size perms pid :
  gives s p -> get_current_pid (sched_ s) = Some pid -> shm_channels s = 0 ->
  Security.security_check_capability (sec s) pid 0 IPC_READ = true ->
  exists s1 s2, ipc_create_shm_channel s size perms = Ret (s1, 0) /\
    ld64 (mem_of s1) (p + sc_permissions) = 0 /\ ld64 (mem_of s1) (p + sc_size) = 0 /\
    ipc_attach_shm_channel (S fuel) s1 0 = Ret (s2, ERR_SUCCESS, Some p).
Proof.
  intros (Hf & Hp & Hp4) Hpid Hsc Hcap. change (2 ^ 63) with 9223372036854775808 in *.
  destruct (alloc_page_gives (pages s) p) as (g & Eg & Hfg & _); [done|lia|done|].
  unfold ipc_create_shm_channel. rewrite Eg, (proj2 (Z.eqb_neq p 0)) by lia. cbn [sched_ set_pages]. rewrite Hpid.
  cbn [need mbind outcome_bind]. set (m := st32 _ _ _).
  destruct (alloc_page_gives (pages (set_mem m (set_pages g s))) p) as (g2 & Eg2 & _ & Hm2); [done|lia|done|].
  rewrite Eg2, (proj2 (Z.eqb_neq p 0)) by lia. cbn [shm_channels set_pages set_mem]. rewrite Hsc, Z.eqb_refl.
  unfold mem_of. cbn [pages set_pages set_mem memory set_memory]. rewrite Hm2. clear Eg2 Hm2. cbn [memory pages set_mem set_pages set_memory].
  clearbody m. set (m1 := st64 (st64 _ _ _) _ _).
  assert (forall o, o = sc_channel_id \/ o = sc_permissions \/ o = sc_size -> ld64 m1 (p + o) = 0) as Hz.
  { intros o Ho. subst m1. destruct Ho as [->|[->| ->]]; mem_simp; unfold PAGE_SIZE; rewrite peek_fill by (offsets; lia); apply le_val_zeros. }
  assert (ld64 m1 (p + sc_shared_memory) = p) as Hsm by (subst m1; mem_simp; done). clearbody m1.
  rewrite (Hz sc_channel_id) by auto. do 2 eexists. split; [reflexivity|]. cbn [memory pages set_channels set_mem set_pages set_memory].
  split; [apply Hz; auto|]. split; [apply Hz; auto|].
  unfold ipc_attach_shm_channel, ipc_find_shm_channel, mem_of. cbn [shm_channels set_channels memory pages set_mem set_pages set_memory find_from sched_ sec].
  rewrite (proj2 (Z.eqb_neq p 0)) by lia. change mq_queue_id with sc_channel_id. rewrite (Hz sc_channel_id) by auto.
  cbn [Z.eqb negb mbind outcome_bind]. rewrite (proj2 (Z.eqb_neq p 0)) by lia. rewrite Hpid. cbn [need mbind outcome_bind].
  rewrite (Hz sc_permissions), Hcap, Hsm by auto. cbn [negb]. reflexivity.
Qed.

(** ** Examples: one page, a heap at 4 MB, and the tasks of a boot in ring 0 *)
Definition ipc0 : ipc :=
  Ipc mm0 4194304 0 0 0 0 [] head_runs (Security.Sec [Security.Context_ 2 0 0 0 18 []] [] 1 0) 77.
Definition ipc1 : ipc := match ipc_create_message_queue ipc0 3 with Ret (s, _) => s | _ => ipc0 end.

Lemma ipc1_queue : queue_at ipc1 1048576 4194304 0.
Proof.
  split; [by vm_compute|done|by vm_compute..| |lia]. left. done.
Qed.

Lemma ipc1_may right : may (set_sched head_runs ipc1) 1048576 right.
Proof. exists 2. split; by vm_compute. Qed.

Lemma ipc1_may_now right : may ipc1 1048576 right.
Proof. exists 2. split; by vm_compute. Qed.

Lemma ipc_create_queues_witness :
  exists s1 s2,
    ipc_create_message_queue ipc0 3 = Ret (s1, 1048576) /\ queue_at s1 1048576 (heap ipc0 + heap_pos ipc0) 0 /\
    (forall fuel, ipc_find_queue (S fuel) s1 1048576 = Ret 1048576) /\
    ipc_create_message_queue s1 3 = Ret (s2, 1048576) /\
    forall id fuel, id <> 1048576 -> ipc_find_queue fuel s2 id = More.
Proof.
  apply (ipc_create_queues ipc0 1048576 3 3 2); try done. left. done.
Defined.

Lemma ipc_send_receive_witness :
  exists s1 s2, ipc_send_message (S 2) ipc1 1048576 9 5 8192 6 = Ret (s1, ERR_SUCCESS) /\
    ipc_receive_message (S 2) (set_sched head_runs s1) 1048576 12288 = Ret (s2, ERR_SUCCESS, Some (2, 5, 6)) /\
    peek (mem_of s2) 12288 (Z.to_nat 6) = peek (mem_of ipc1) 8192 (Z.to_nat 6) /\ queue_at s2 1048576 4194304 0.
Proof.
  apply (ipc_send_receive 2 ipc1 1048576 4194304 2 9 5 8192 6 head_runs head_runs 12288).
  - exact ipc1_queue.
  - by vm_compute.
  - red; lia.
  - red; lia.
  - lia.
  - exact (ipc1_may_now IPC_WRITE).
  - exact (ipc1_may IPC_READ).
  - red; lia.
  - lia.
  - red; lia.
  - red; lia.
  - by vm_compute.
Defined.

Lemma ipc_second_message_forged_witness :
  let payload := peek (mem_of ipc1) 8192 (Z.to_nat 48) in
  exists s1 s2 s3 s4,
    ipc_send_message (S 2) ipc1 1048576 9 5 8192 48 = Ret (s1, ERR_SUCCESS) /\
    ipc_send_message (S 2) s1 1048576 9 6 8192 4 = Ret (s2, ERR_SUCCESS) /\
    ipc_receive_message (S 2) (set_sched head_runs s2) 1048576 0 = Ret (s3, ERR_SUCCESS, Some (2, 5, 48)) /\
    ipc_receive_message (S 2) s3 1048576 0 = Ret (s4, ERR_SUCCESS,
      Some (le_val (take 8 payload), le_val (take 8 (drop 16 payload)), le_val (take 8 (drop 24 payload)))).
Proof.
  apply (ipc_second_message_forged 2 ipc1 1048576 4194304 2 9 5 8192 48 6 8192 4 head_runs).
  - exact ipc1_queue.
  - by vm_compute.
  - red; lia.
  - red; lia.
  - red; lia.
  - lia.
  - lia.
  - exact (ipc1_may_now IPC_WRITE).
  - exact (ipc1_may IPC_READ).
  - red; lia.
  - red; lia.
  - by vm_compute.
Defined.

Lemma ipc_shm_channel_overlaps_witness :
  exists s1 s2, ipc_create_shm_channel ipc0 8192 3 = Ret (s1, 0) /\
    ld64 (mem_of s1) (1048576 + sc_permissions) = 0 /\ ld64 (mem_of s1) (1048576 + sc_size) = 0 /\
    ipc_attach_shm_channel 1 s1 0 = Ret (s2, ERR_SUCCESS, Some 1048576).
Proof. apply (ipc_shm_channel_overlaps 0 ipc0 1048576 8192 3 2); [done|by vm_compute..]. Defined.

End Ipc.
