(* ===== verification/Ring.v ===== *)
(** * Ring buffers

    The buffers of the terminal layer and of the serial drivers are arrays with a head and
    a tail counter of 32 bits that run freely; the position of a byte is its
    counter modulo the size.  The operations here are the statements the drivers share; they
    implement a bounded queue, also when the counters wrap around. *)
From S2P Require Import Prelude.
Open Scope Z_scope.

Module Ring.

Record ring := Ring { buf : bytes; head : Z; tail : Z }.

(** [tail - head] *)
Definition used (r : ring) : Z := u32 (tail r - head r).

(** [buf[tail % size] = b; tail++] *)
Definition push (size : Z) (r : ring) (b : Z) : option ring :=
  l ← setZ (buf r) (tail r mod size) b;
  Some (Ring l (head r) (u32 (tail r + 1))).

(** [b = buf[head % size]; head++] *)
Definition pop (size : Z) (r : ring) : option (Z * ring) :=
  b ← getZ (buf r) (head r mod size);
  Some (b, Ring (buf r) (u32 (head r + 1)) (tail r)).

(** A loop of pushes. *)
Fixpoint push_all (size : Z) (r : ring) (l : bytes) : option ring :=
  match l with [] => Some r | b :: l' => r ← push size r b; push_all size r l' end.

(** ** The queue a ring buffer stands for *)
Definition at_ (size : Z) (r : ring) (i : Z) : Z := default 0 (getZ (buf r) ((head r + i) mod size)).
Definition contents (size : Z) (r : ring) : bytes := (fun k : nat => at_ size r (Z.of_nat k)) <$> seq 0 (Z.to_nat (used r)).

Record ring_ok (size : Z) (r : ring) : Prop := {
  ok_length : lenZ (buf r) = size;
  ok_size : 0 < size < 4294967296;
  ok_divides : (size | 4294967296);
  ok_head : is_u32 (head r);
  ok_tail : is_u32 (tail r);
  ok_used : used r <= size
}.

Lemma used_range r : 0 <= used r < 4294967296.
Proof. apply u32_range. Qed.

Lemma length_contents size r : lenZ (contents size r) = used r.
Proof. unfold lenZ, contents. rewrite length_fmap, length_seq. pose proof (used_range r). lia. Qed.

(** A counter that wraps around designates the same place. *)
Lemma mod_u32 size z : 0 < size -> (size | 4294967296) -> u32 z mod size = z mod size.
Proof.
  intros Hs [k Hk]. unfold u32. rewrite (Z.div_mod z 4294967296) at 2 by lia. rewrite Hk at 2.
  rewrite Z.add_comm, (Z.mul_comm (k * size)), Z.mul_assoc, Z_mod_plus_full by lia. done.
Qed.

Lemma tail_mod size r : ring_ok size r -> tail r mod size = (head r + used r) mod size.
Proof.
  intros [_ Hs Hd Hh Ht Hu]. rewrite <- (mod_u32 size (head r + used r)) by (done || lia). f_equal.
  unfold used, u32, is_u32 in *. rewrite Zplus_mod_idemp_r. replace (head r + (tail r - head r)) with (tail r) by lia.
  by rewrite Z.mod_small.
Qed.

Lemma used_push r l : is_u32 (head r) -> is_u32 (tail r) -> used r < 4294967295 ->
  used (Ring l (head r) (u32 (tail r + 1))) = used r + 1.
Proof.
  unfold used, is_u32, u32. cbn. intros Hh Ht Hu. rewrite Zminus_mod_idemp_l.
  replace (tail r + 1 - head r) with (tail r - head r + 1) by lia. rewrite <- Zplus_mod_idemp_l. apply Z.mod_small.
  pose proof (Z.mod_pos_bound (tail r - head r) 4294967296 ltac:(lia)). lia.
Qed.

Lemma used_pop r l : used r <> 0 -> used (Ring l (u32 (head r + 1)) (tail r)) = used r - 1.
Proof.
  unfold used, u32. cbn. intros Hu. rewrite Zminus_mod_idemp_r.
  replace (tail r - (head r + 1)) with (tail r - head r - 1) by lia. rewrite <- Zminus_mod_idemp_l. apply Z.mod_small.
  pose proof (Z.mod_pos_bound (tail r - head r) 4294967296 ltac:(lia)). lia.
Qed.

Lemma index_neq size h i j : 0 < size -> 0 <= i < size -> 0 <= j < size -> i <> j -> (h + i) mod size <> (h + j) mod size.
Proof.
  intros Hs Hi Hj Hne E. apply Hne.
  assert ((i - j) mod size = 0) as E0.
  { replace (i - j) with ((h + i) - (h + j)) by lia. rewrite Zminus_mod, E, Z.sub_diag. by apply Z.mod_0_l; lia. }
  apply Z.mod_divide in E0 as [k Hk]; [|lia]. destruct (Z.lt_trichotomy k 0) as [?|[->|?]]; nia.
Qed.

Lemma at_insert size r b i : ring_ok size r -> used r < size -> 0 <= i <= used r ->
  at_ size (Ring (<[Z.to_nat (tail r mod size) := b]> (buf r)) (head r) (u32 (tail r + 1))) i =
    if i =? used r then b else at_ size r i.
Proof.
  intros Hok Hu Hi. pose proof Hok as [Hl [Hs _] _ _ _ _]. pose proof (used_range r).
  pose proof (Z.mod_pos_bound (head r + i) size Hs). unfold at_, getZ. cbn [buf head].
  rewrite (proj2 (Z.ltb_ge _ 0)), (tail_mod size r Hok) by lia. destruct (Z.eqb_spec i (used r)) as [->|Hne].
  - rewrite list_lookup_insert_eq; [done|]. unfold lenZ in Hl. lia.
  - rewrite list_lookup_insert_ne; [done|]. pose proof (index_neq size (head r) (used r) i).
    pose proof (Z.mod_pos_bound (head r + used r) size Hs). lia.
Qed.

(** Adding to a buffer that is not full adds at the end. *)
Lemma push_spec size r b : ring_ok size r -> used r < size ->
  exists r', push size r b = Some r' /\ ring_ok size r' /\ contents size r' = contents size r ++ [b] /\ head r' = head r.
Proof.
  intros Hok Hu. pose proof Hok as [Hl Hs Hd Hh Ht _]. pose proof (used_range r) as Hr.
  pose proof (Z.mod_pos_bound (tail r) size ltac:(lia)) as Hm.
  unfold push. rewrite setZ_Some by (rewrite Hl; done). cbn [mbind option_bind].
  pose proof (used_push r (<[Z.to_nat (tail r mod size) := b]> (buf r)) Hh Ht ltac:(lia)) as Hup.
  eexists. split; [done|]. split; [|split; [|done]].
  - split; cbn [buf head tail]; [by rewrite lenZ_insert|done..|apply u32_range|lia].
  - unfold contents. rewrite Hup, Z2Nat.inj_add, seq_app, fmap_app by lia. f_equal.
    + apply list_fmap_ext. intros k x [Hx1 Hx2]%lookup_seq. cbn in Hx1. subst x. rewrite at_insert by (done || lia).
      by rewrite (proj2 (Z.eqb_neq _ _)) by lia.
    + change (Z.to_nat 1) with 1%nat. cbn [seq fmap list_fmap Nat.add]. rewrite Z2Nat.id, at_insert, Z.eqb_refl by (done || lia). done.
Qed.

Lemma at_pop size r i l : ring_ok size r -> at_ size (Ring (buf r) (u32 (head r + 1)) l) i = at_ size r (i + 1).
Proof.
  intros [_ Hs Hd _ _ _]. unfold at_. cbn [buf head]. do 2 f_equal.
  rewrite <- Zplus_mod_idemp_l, mod_u32, Zplus_mod_idemp_l by (done || lia). f_equal. lia.
Qed.

(** Removing from a buffer that is not empty removes the oldest byte. *)
Lemma pop_spec size r b l : ring_ok size r -> contents size r = b :: l ->
  exists r', pop size r = Some (b, r') /\ ring_ok size r' /\ contents size r' = l /\ tail r' = tail r.
Proof.
  intros Hok Hc. pose proof Hok as [Hl Hs Hd Hh Ht Hu]. pose proof (used_range r) as Hr.
  pose proof (length_contents size r) as Hlen. rewrite Hc in Hlen. unfold lenZ in Hlen. cbn [length] in Hlen.
  pose proof (used_pop r (buf r) ltac:(lia)) as Hup.
  pose proof (Z.mod_pos_bound (head r) size ltac:(lia)) as Hm.
  destruct (getZ_is_Some (buf r) (head r mod size)) as [x Hx]; [lia|].
  unfold contents in Hc. replace (Z.to_nat (used r)) with (S (Z.to_nat (used r - 1))) in Hc by lia.
  cbn [seq] in Hc. rewrite fmap_cons in Hc. injection Hc as Hb Hrest. unfold at_ in Hb. rewrite Z.add_0_r, Hx in Hb. cbn in Hb. subst x.
  unfold pop. rewrite Hx. cbn [mbind option_bind]. eexists. split; [done|]. split; [|split; [|done]].
  - split; cbn [buf head tail]; [done..|apply u32_range|done|lia].
  - unfold contents. rewrite Hup, <- Hrest, <- fmap_S_seq, <- list_fmap_compose. apply list_fmap_ext.
    intros k x _. rewrite at_pop by done. cbn. f_equal. lia.
Qed.

(** The buffer is empty exactly when the counters agree. *)
Lemma empty_iff size r : ring_ok size r -> contents size r = [] <-> head r = tail r.
Proof.
  intros [_ _ _ Hh Ht _]. pose proof (length_contents size r) as Hl. unfold used, u32, is_u32, lenZ in *. split.
  - intros E. rewrite E in Hl. cbn in Hl. dlia.
  - intros E. rewrite E, Z.sub_diag in Hl. change (0 mod 4294967296) with 0 in Hl. destruct (contents size r); [done|].
    cbn in Hl. lia.
Qed.

Lemma push_all_spec size l : forall r, ring_ok size r -> used r + lenZ l <= size ->
  exists r', push_all size r l = Some r' /\ ring_ok size r' /\ contents size r' = contents size r ++ l /\ head r' = head r.
Proof.
  induction l as [|b l IH]; intros r Hok Hu; cbn [push_all].
  - exists r. by rewrite app_nil_r.
  - unfold lenZ in *. cbn [length] in Hu. destruct (push_spec size r b Hok) as (r1 & -> & Hok1 & Hc1 & Hh1); [lia|].
    cbn [mbind option_bind]. pose proof (length_contents size r1) as Hl1. pose proof (length_contents size r) as Hl.
    rewrite Hc1, lenZ_app in Hl1. change (lenZ [b]) with 1 in Hl1.
    destruct (IH r1 Hok1) as (r2 & -> & Hok2 & Hc2 & Hh2); [lia|]. exists r2. split; [done|]. split; [done|].
    rewrite Hc2, Hc1, <- app_assoc, Hh2. done.
Qed.

End Ring.
