(* ===== verification/Tty.v ===== *)
(** * The terminal layer: [src/drivers/tty/tty_core.c], [string_utils.c], [src/include/tty.h]

    A [tty_t*] that an operation receives is [None] for [NULL] or the structure
    it points to; the operations return the new structure.  [W] is the state of the
    drivers behind the callbacks; like the callbacks of the two serial drivers, a callback
    changes the state of its driver and not the terminal.  Messages on the console are left out, so the
    signal handlers, which only print, are recorded as the value returned. *)
From S2P Require Import Prelude KernelLib Device Ring.
Import CString Memory Ring.
Open Scope Z_scope.

Module Tty.

(** ** Constants *)
Definition TTY_INPUT_BUFFER : Z := 256.
Definition TTY_OUTPUT_BUFFER : Z := 256.
Definition VINTR : Z := 0.
Definition VQUIT : Z := 1.
Definition VEOF : Z := 4.
Definition VSUSP : Z := 10.
Definition B9600 : Z := 13.
Definition B38400 : Z := 15.
Definition ISIG : Z := 1.
Definition ICANON : Z := 2.
Definition ECHO : Z := 8.
Definition ECHOCTL : Z := 1024.
Definition N_TTY : Z := 0.
Definition SIGINT : Z := 2.
Definition SIGTSTP : Z := 20.

(** [IGNBRK | BRKINT | PARMRK | ISTRIP | INLCR | IGNCR | ICRNL | IXON] and the like *)
Definition TTY_DEF_IFLAG : Z := Z.lor 1 (Z.lor 2 (Z.lor 8 (Z.lor 32 (Z.lor 64 (Z.lor 128 (Z.lor 256 512)))))).
Definition TTY_DEF_OFLAG : Z := Z.lor 1 4.
Definition TTY_DEF_CFLAG : Z := Z.lor B9600 (Z.lor 48 128).
Definition TTY_DEF_LFLAG : Z :=
  Z.lor ISIG (Z.lor ICANON (Z.lor ECHO (Z.lor 16 (Z.lor 32 (Z.lor 64 (Z.lor 128 512)))))).

Definition TCGETS : Z := 21505.
Definition TCSETS : Z := 21506.
Definition TCSETSW : Z := 21507.
Definition TCSETSF : Z := 21508.
Definition TCSBRK : Z := 21513.
Definition TCXONC : Z := 21514.
Definition TCFLSH : Z := 21515.
Definition TIOCGPGRP : Z := 21519.
Definition TIOCSPGRP : Z := 21520.
Definition TIOCGWINSZ : Z := 21523.
Definition TIOCSWINSZ : Z := 21524.

(** ** Data *)
Record termios := Termios {
  c_iflag : Z; c_oflag : Z; c_cflag : Z; c_lflag : Z; c_cc : bytes; c_ispeed : Z; c_ospeed : Z
}.

Record winsize := Winsize { ws_row : Z; ws_col : Z; ws_xpixel : Z; ws_ypixel : Z }.

Definition tty_def_termios : termios :=
  Termios TTY_DEF_IFLAG TTY_DEF_OFLAG TTY_DEF_CFLAG TTY_DEF_LFLAG
    ([127; 92; 8; 21; 4; 0; 1; 0; 19; 17; 26] ++ replicate 21 0) B9600 B9600.

(** Which of the three signal functions is called. *)
Inductive signal_call := CallIntr (signal : Z) | CallQuit | CallSusp.

Section tty.
Context {W : Type}.

(** [driver] and [ldisc] are indices of driver and line discipline structures; the callbacks
    are those the core calls. *)
Record tty := Tty {
  major : Z;
  minor : Z;
  name : bytes;
  driver : option nat;
  ldisc : option nat;
  op_write : option (W -> bytes -> Z -> option (W * Z));
  op_put_char : option (W -> Z -> option (W * Z));
  op_set_termios : option (W -> termios -> option (W * Z));
  flags : Z;
  capabilities : Z;
  input : ring;
  output : ring;
  tios : termios;
  wsize : winsize;
  session_leader : Z;
  foreground_group : Z;
  process_group : Z;
  have_signals : bool;
  ref_count : Z
}.

Record ldisc_t := Ldisc {
  l_num : Z;
  l_name : bytes;
  l_receive_buf : option (tty -> bytes -> Z -> option (tty * Z));
  l_close : option (tty -> tty * Z);
  l_ioctl : option (tty -> Z -> Z -> tty * Z)
}.

(** ** Assignments *)
Definition set_ids ma mi nm t := Tty ma mi nm (driver t) (ldisc t) (op_write t) (op_put_char t) (op_set_termios t)
  (flags t) (capabilities t) (input t) (output t) (tios t) (wsize t) (session_leader t) (foreground_group t)
  (process_group t) (have_signals t) (ref_count t).
Definition set_ldisc l t := Tty (major t) (minor t) (name t) (driver t) l (op_write t) (op_put_char t) (op_set_termios t)
  (flags t) (capabilities t) (input t) (output t) (tios t) (wsize t) (session_leader t) (foreground_group t)
  (process_group t) (have_signals t) (ref_count t).
Definition set_flags f t := Tty (major t) (minor t) (name t) (driver t) (ldisc t) (op_write t) (op_put_char t) (op_set_termios t)
  f (capabilities t) (input t) (output t) (tios t) (wsize t) (session_leader t) (foreground_group t)
  (process_group t) (have_signals t) (ref_count t).
Definition set_rings i o t := Tty (major t) (minor t) (name t) (driver t) (ldisc t) (op_write t) (op_put_char t) (op_set_termios t)
  (flags t) (capabilities t) i o (tios t) (wsize t) (session_leader t) (foreground_group t)
  (process_group t) (have_signals t) (ref_count t).
Definition set_line tio ws t := Tty (major t) (minor t) (name t) (driver t) (ldisc t) (op_write t) (op_put_char t) (op_set_termios t)
  (flags t) (capabilities t) (input t) (output t) tio ws (session_leader t) (foreground_group t)
  (process_group t) (have_signals t) (ref_count t).
Definition set_procs sl fg pg rc t := Tty (major t) (minor t) (name t) (driver t) (ldisc t) (op_write t) (op_put_char t) (op_set_termios t)
  (flags t) (capabilities t) (input t) (output t) (tios t) (wsize t) sl fg pg (have_signals t) rc.
Definition set_ops w p st c t := Tty (major t) (minor t) (name t) (driver t) (ldisc t) w p st
  (flags t) c (input t) (output t) (tios t) (wsize t) (session_leader t) (foreground_group t)
  (process_group t) (have_signals t) (ref_count t).

Definition set_input r t := set_rings r (output t) t.
Definition set_output r t := set_rings (input t) r t.

(** ** Echo *)
Definition tty_char_is_control (ch : Z) : bool := (ch <? 32) || (ch =? 127).
Definition tty_char_is_printable (ch : Z) : bool := (32 <=? ch) && negb (ch =? 127).

Definition on (fl mode : Z) : bool := negb (Z.land fl mode =? 0).

Definition tty_echo_char (w : W) (t : option tty) (ch : Z) : option W :=
  match t with
  | None => Some w
  | Some t =>
      if negb (on (c_lflag (tios t)) ECHO) then Some w
      else if tty_char_is_control ch then
        if on (c_lflag (tios t)) ECHOCTL then
          let ctrl := if ch =? 127 then 63 else u8 (ch + 64) in
          match op_put_char t with
          | Some put_char => '(w, _) ← put_char w 94; '(w, _) ← put_char w ctrl; Some w
          | None => Some w
          end
        else Some w
      else
        match op_put_char t with Some put_char => '(w, _) ← put_char w ch; Some w | None => Some w end
  end.

Fixpoint echo_loop (w : W) (t : tty) (l : bytes) : option W :=
  match l with [] => Some w | ch :: l' => w ← tty_echo_char w (Some t) ch; echo_loop w t l' end.

Definition tty_echo_chars (w : W) (t : option tty) (buf : option bytes) (count : Z) : option W :=
  match t, buf with
  | Some t, Some buf =>
      if negb (on (c_lflag (tios t)) ECHO) then Some w else l ← slice buf 0 count; echo_loop w t l
  | _, _ => Some w
  end.

(** ** Output *)
Definition tty_write_room (t : option tty) : Z :=
  match t with None => 0 | Some t => u32 (TTY_OUTPUT_BUFFER - used (output t)) end.

Definition tty_write (w : W) (t : option tty) (buf : option bytes) (count : Z) : option (W * option tty * Z) :=
  match t, buf with
  | Some t', Some buf' =>
      if count =? 0 then Some (w, t, ERR_INVALID)
      else
        let room := tty_write_room t in
        if room =? 0 then Some (w, t, 0)
        else
          let count := if count <? room then count else room in
          l ← slice buf' 0 count;
          out ← push_all TTY_OUTPUT_BUFFER (output t') l;
          let t' := set_output out t' in
          w ← (if on (c_lflag (tios t')) ECHO then tty_echo_chars w (Some t') (Some buf') count else Some w);
          w ← (match op_write t' with
               | Some f => if 0 <? count then '(w, _) ← f w buf' count; Some w else Some w
               | None => Some w
               end);
          Some (w, Some t', i32 count)
  | _, _ => Some (w, t, ERR_INVALID)
  end.

Definition tty_put_char (w : W) (t : option tty) (ch : Z) : option (W * option tty * Z) := tty_write w t (Some [ch]) 1.

Definition tty_handle_output_interrupt (w : W) (t : option tty) : option (W * option tty) :=
  match t with
  | None => Some (w, t)
  | Some t' =>
      match op_put_char t' with
      | Some put_char =>
          if negb (head (output t') =? tail (output t')) then
            '(b, out) ← pop TTY_OUTPUT_BUFFER (output t');
            '(w, _) ← put_char w b;
            Some (w, Some (set_output out t'))
          else Some (w, t)
      | None => Some (w, t)
      end
  end.

(** ** The standard line discipline *)
(** Every branch of the loop goes on to the next byte. *)
Definition n_tty_receive_buf (t : tty) (buf : bytes) (count : Z) : option (tty * Z) :=
  _ ← slice buf 0 count; Some (t, i32 count).

Definition n_tty_receive_room (t : tty) : Z := i32 (u32 (TTY_INPUT_BUFFER - used (input t))).
Definition n_tty_write_wakeup (t : tty) : Z := 0.
Definition n_tty_close (t : tty) : tty * Z := (t, 0).
Definition n_tty_ioctl (t : tty) (cmd arg : Z) : tty * Z := (t, 0).

(** "n_tty" *)
Definition n_tty_ldisc : ldisc_t :=
  Ldisc N_TTY [110; 95; 116; 116; 121; 0] (Some n_tty_receive_buf) (Some n_tty_close) (Some n_tty_ioctl).

(** ** Input.  [lds] are the line discipline structures. *)
Definition ldisc_of (lds : list ldisc_t) (t : tty) : option ldisc_t := i ← ldisc t; lds !! i.

Definition receive_buf (lds : list ldisc_t) (t : tty) (buf : bytes) (count : Z) : option tty :=
  match ldisc_of lds t with
  | Some l => match l_receive_buf l with Some f => '(t, _) ← f t buf count; Some t | None => Some t end
  | None => Some t
  end.

Definition tty_handle_input_interrupt (lds : list ldisc_t) (w : W) (t : option tty) (byte : Z)
  : option (W * option tty * option signal_call) :=
  match t with
  | None => Some (w, None, None)
  | Some t =>
      inp ← (if used (input t) <? TTY_INPUT_BUFFER then push TTY_INPUT_BUFFER (input t) byte else Some (input t));
      let t := set_input inp t in
      w ← (if on (c_lflag (tios t)) ECHO then tty_echo_char w (Some t) byte else Some w);
      t ← receive_buf lds t [byte] 1;
      if on (c_lflag (tios t)) ISIG then
        intr ← getZ (c_cc (tios t)) VINTR;
        quit ← getZ (c_cc (tios t)) VQUIT;
        susp ← getZ (c_cc (tios t)) VSUSP;
        Some (w, Some t, if byte =? intr then Some (CallIntr SIGINT) else if byte =? quit then Some CallQuit
                         else if byte =? susp then Some CallSusp else None)
      else Some (w, Some t, None)
  end.

Definition tty_ldisc_receive (lds : list ldisc_t) (t : option tty) (buf : option bytes) (count : Z) : option (option tty) :=
  match t, buf with
  | Some t', Some buf' =>
      if count =? 0 then Some t
      else
        let available_space := u32 (TTY_INPUT_BUFFER - used (input t')) in
        let to_copy := if count <? available_space then count else available_space in
        l ← slice buf' 0 to_copy;
        inp ← push_all TTY_INPUT_BUFFER (input t') l;
        t' ← receive_buf lds (set_input inp t') buf' to_copy;
        Some (Some t')
  | _, _ => Some t
  end.

Definition flush_ring (r : ring) : ring := Ring (buf r) 0 0.

Definition tty_ldisc_flush_buffer (t : option tty) : option tty :=
  match t with
  | None => None
  | Some t => Some (set_rings (flush_ring (input t)) (flush_ring (output t)) t)
  end.

(** Compares the counters. *)
Definition tty_check_data_ready (t : option tty) : Z :=
  match t with None => 0 | Some t => if head (input t) <? tail (input t) then 1 else 0 end.

(** ** Settings *)
Definition tty_get_termios (t : option tty) (to : bool) : Z * option termios :=
  match t with Some t => if to then (0, Some (tios t)) else (ERR_INVALID, None) | None => (ERR_INVALID, None) end.

Definition tty_set_termios (w : W) (t : option tty) (tio : option termios) : option (W * option tty * Z) :=
  match t, tio with
  | Some t', Some tio =>
      let t' := set_line tio (wsize t') t' in
      match op_set_termios t' with
      | Some f => '(w, r) ← f w tio; Some (w, Some t', r)
      | None => Some (w, Some t', 0)
      end
  | _, _ => Some (w, t, ERR_INVALID)
  end.

Definition tty_get_winsize (t : option tty) (to : bool) : Z * option winsize :=
  match t with Some t => if to then (0, Some (wsize t)) else (ERR_INVALID, None) | None => (ERR_INVALID, None) end.

Definition tty_set_winsize (t : option tty) (ws : option winsize) : option tty * Z :=
  match t, ws with Some t, Some ws => (Some (set_line (tios t) ws t), 0) | _, _ => (t, ERR_INVALID) end.

Definition tty_set_process_group (t : option tty) (pgrp : Z) : option tty * Z :=
  match t with
  | Some t => (Some (set_procs (session_leader t) (foreground_group t) pgrp (ref_count t) t), 0)
  | None => (None, ERR_INVALID)
  end.

Definition tty_get_process_group (t : option tty) (to : bool) : Z * option Z :=
  match t with Some t => if to then (0, Some (process_group t)) else (ERR_INVALID, None) | None => (ERR_INVALID, None) end.

Definition tty_session_set_leader (t : option tty) (pid : Z) : option tty :=
  (fun t => set_procs pid (foreground_group t) (process_group t) (ref_count t) t) <$> t.

Definition tty_foreground_set_group (t : option tty) (pgrp : Z) : option tty :=
  (fun t => set_procs (session_leader t) pgrp (process_group t) (ref_count t) t) <$> t.

Definition tty_set_flags (t : option tty) (f : Z) : option tty := (fun t => set_flags (Z.lor (flags t) f) t) <$> t.
Definition tty_clear_flags (t : option tty) (f : Z) : option tty :=
  (fun t => set_flags (Z.land (flags t) (u32 (Z.lnot f))) t) <$> t.

Definition tty_kref_put (t : option tty) : option tty :=
  (fun t => if 0 <? ref_count t
            then set_procs (session_leader t) (foreground_group t) (process_group t) (u32 (ref_count t - 1)) t else t) <$> t.

(** The process group [tty_signal_stop] delivers [SIGTSTP] to. *)
Definition tty_signal_stop (t : tty) : option (Z * Z) :=
  if 0 <? foreground_group t then Some (SIGTSTP, foreground_group t) else None.

(** The structure an [ioctl] argument points to, when it is not [NULL]. *)
Inductive ioctl_out := NoOut | OutTermios (t : termios) | OutWinsize (w : winsize) | OutPgrp (p : Z).

Definition tty_ioctl (lds : list ldisc_t) (w : W) (t : option tty) (cmd arg : Z) (at_tio : option termios) (at_ws : option winsize)
  : option (W * option tty * Z * ioctl_out) :=
  match t with
  | None => Some (w, t, ERR_INVALID, NoOut)
  | Some t' =>
      let nonnull := negb (arg =? 0) in
      if cmd =? TCGETS then
        let '(r, o) := tty_get_termios t nonnull in
        Some (w, t, r, match o with Some x => OutTermios x | None => NoOut end)
      else if (cmd =? TCSETS) || (cmd =? TCSETSW) || (cmd =? TCSETSF) then
        '(w, t, r) ← tty_set_termios w t at_tio; Some (w, t, r, NoOut)
      else if cmd =? TIOCGWINSZ then
        let '(r, o) := tty_get_winsize t nonnull in
        Some (w, t, r, match o with Some x => OutWinsize x | None => NoOut end)
      else if cmd =? TIOCSWINSZ then let '(t, r) := tty_set_winsize t at_ws in Some (w, t, r, NoOut)
      else if cmd =? TIOCGPGRP then
        let '(r, o) := tty_get_process_group t nonnull in
        Some (w, t, r, match o with Some x => OutPgrp x | None => NoOut end)
      else if cmd =? TIOCSPGRP then let '(t, r) := tty_set_process_group t (u32 arg) in Some (w, t, r, NoOut)
      else if (cmd =? TCSBRK) || (cmd =? TCXONC) then Some (w, t, 0, NoOut)
      else if cmd =? TCFLSH then
        let t' := if (arg =? 0) || (arg =? 1) then set_input (flush_ring (input t')) t' else t' in
        let t' := if (arg =? 0) || (arg =? 2) then set_output (flush_ring (output t')) t' else t' in
        Some (w, Some t', 0, NoOut)
      else
        match ldisc_of lds t' with
        | Some l =>
            match l_ioctl l with
            | Some f => let '(t', r) := f t' cmd arg in Some (w, Some t', r, NoOut)
            | None => Some (w, t, ERR_INVALID, NoOut)
            end
        | None => Some (w, t, ERR_INVALID, NoOut)
        end
  end.

(** ** The subsystem *)
Record tty_driver := TtyDriver {
  d_major : Z;
  d_num : Z;
  d_name : option bytes;
  d_ttys : option (list (option nat));
  d_next : option nat
}.

(** Terminals, drivers and line disciplines live in arenas; [registry_] is that of
    [device.c], with the terminal as the data of a device. *)
Record ttys := Ttys {
  arena : list tty;
  drivers : list tty_driver;
  ldiscs : list ldisc_t;
  tty_list : list nat;
  tty_drivers : option nat;
  tty_ldiscs : list nat;
  tty_line_count : Z;
  console_ttys : list nat;
  registry_ : @registry unit nat;
  heap_pos : Z
}.

Definition set_arena a l n h s : ttys := Ttys a (drivers s) (ldiscs s) l (tty_drivers s) (tty_ldiscs s) n (console_ttys s) (registry_ s) h.
Definition upd_tty i f s : ttys := Ttys (alter f i (arena s)) (drivers s) (ldiscs s) (tty_list s) (tty_drivers s) (tty_ldiscs s)
  (tty_line_count s) (console_ttys s) (registry_ s) (heap_pos s).
Definition set_drivers d h p s : ttys := Ttys (arena s) d (ldiscs s) (tty_list s) h (tty_ldiscs s) (tty_line_count s)
  (console_ttys s) (registry_ s) p.
Definition set_ldiscs l s : ttys := Ttys (arena s) (drivers s) (ldiscs s) (tty_list s) (tty_drivers s) l (tty_line_count s)
  (console_ttys s) (registry_ s) (heap_pos s).
Definition set_consoles c s : ttys := Ttys (arena s) (drivers s) (ldiscs s) (tty_list s) (tty_drivers s) (tty_ldiscs s)
  (tty_line_count s) c (registry_ s) (heap_pos s).
Definition set_registry r h s : ttys := Ttys (arena s) (drivers s) (ldiscs s) (tty_list s) (tty_drivers s) (tty_ldiscs s)
  (tty_line_count s) (console_ttys s) r h.

(** [strncpy] and [snprintf] of [string_utils.c]; [snprintf] copies its format. *)
Fixpoint tty_strncpy (dest src : bytes) (n : nat) : option bytes :=
  match n with
  | O => Some dest
  | S n' =>
      match dest, src with
      | _ :: dest', c :: src' =>
          if c =? 0 then (d ← tty_strncpy dest' [0] n'; Some (0 :: d)) else (d ← tty_strncpy dest' src' n'; Some (c :: d))
      | _, _ => None
      end
  end.

Definition snprintf (str : bytes) (size : Z) (format : bytes) : option (bytes * Z) :=
  if size =? 0 then Some (str, 0)
  else
    len ← strlen format;
    let to_copy := if len <? size - 1 then len else size - 1 in
    str ← tty_strncpy str format (Z.to_nat to_copy);
    str ← setZ str to_copy 0;
    Some (str, i32 to_copy).

(** "tty%d" *)
Definition tty_format : bytes := [116; 116; 121; 37; 100; 0].
Definition sizeof_tty : Z := 992.

(** The loop of [tty_allocate_driver]: [n] terminals from index [i] of the block. *)
Fixpoint init_lines (n : nat) (i ma : Z) (s : ttys) : option ttys :=
  match n with
  | O => Some s
  | S n' =>
      '(nm, _) ← snprintf (replicate 256 0) 256 tty_format;
      let t := Tty ma i nm None None None None None 0 0 (Ring (replicate 256 0) 0 0) (Ring (replicate 256 0) 0 0)
                 tty_def_termios (Winsize 24 80 0 0) 0 0 0 true 0 in
      init_lines n' (i + 1) ma
        (set_arena (arena s ++ [t]) (length (arena s) :: tty_list s) (u32 (tty_line_count s + 1)) (heap_pos s) s)
  end.

(** The first terminal of the block, or [NULL]. *)
Definition tty_allocate_driver (s : ttys) (lines ma : Z) : option (ttys * option nat) :=
  let '(p, h) := malloc (heap_pos s) (u64 (sizeof_tty * lines)) in
  match p with
  | None => Some (s, None)
  | Some _ =>
      let first := length (arena s) in
      s ← init_lines (Z.to_nat lines) 0 ma (set_arena (arena s) (tty_list s) (tty_line_count s) h s);
      Some (s, Some first)
  end.

(** ** Drivers *)
Definition tty_register_driver (s : ttys) (d : option nat) : option (ttys * Z) :=
  match d with
  | None => Some (s, ERR_INVALID)
  | Some i =>
      dr ← drivers s !! i;
      match d_name dr with
      | None => Some (s, ERR_INVALID)
      | Some _ =>
          if d_major dr =? 0 then Some (s, ERR_INVALID)
          else
            let '(p, h) := malloc (heap_pos s) (8 * d_num dr) in
            match p with
            | None =>
                Some (set_drivers (<[i := TtyDriver (d_major dr) (d_num dr) (d_name dr) None (d_next dr)]> (drivers s))
                        (tty_drivers s) h s, ERR_NO_MEMORY)
            | Some _ =>
                let dr := TtyDriver (d_major dr) (d_num dr) (d_name dr)
                            (Some (replicate (Z.to_nat (d_num dr)) None)) (tty_drivers s) in
                Some (set_drivers (<[i := dr]> (drivers s)) (Some i) h s, 0)
            end
      end
  end.

(** The driver before [i] in the list. *)
Fixpoint find_prev (fuel : nat) (s : ttys) (p : option nat) (i : nat) : outcome (option nat) :=
  match p with
  | None => Ret None
  | Some j =>
      match fuel with
      | O => More
      | S fuel' =>
          dr ← need (drivers s !! j);
          if decide (d_next dr = Some i) then Ret (Some j) else find_prev fuel' s (d_next dr) i
      end
  end.

Definition set_next_driver n (d : tty_driver) : tty_driver := TtyDriver (d_major d) (d_num d) (d_name d) (d_ttys d) n.

Definition tty_unregister_driver (fuel : nat) (s : ttys) (d : option nat) : outcome (ttys * Z) :=
  match d with
  | None => Ret (s, ERR_INVALID)
  | Some i =>
      dr ← need (drivers s !! i);
      if decide (tty_drivers s = Some i) then Ret (set_drivers (drivers s) (d_next dr) (heap_pos s) s, 0)
      else
        prev ← find_prev fuel s (tty_drivers s) i;
        Ret (match prev with
             | Some j => set_drivers (alter (set_next_driver (d_next dr)) j (drivers s)) (tty_drivers s) (heap_pos s) s
             | None => s
             end, 0)
  end.

Fixpoint find_major (fuel : nat) (s : ttys) (p : option nat) (ma : Z) : outcome (option tty_driver) :=
  match p with
  | None => Ret None
  | Some j =>
      match fuel with
      | O => More
      | S fuel' => dr ← need (drivers s !! j); if d_major dr =? ma then Ret (Some dr) else find_major fuel' s (d_next dr) ma
      end
  end.

Definition tty_open_by_driver (fuel : nat) (s : ttys) (ma mi : Z) : outcome Z :=
  dr ← find_major fuel s (tty_drivers s) ma;
  match dr with
  | None => Ret ERR_NOT_FOUND
  | Some dr =>
      if mi <? d_num dr then
        match d_ttys dr with
        | None => Ret ERR_NOT_FOUND
        | Some l => e ← need (getZ l mi); Ret (match e with Some _ => 0 | None => ERR_NOT_FOUND end)
        end
      else Ret ERR_NOT_FOUND
  end.

(** [tty->driver] is dereferenced without a check. *)
Definition tty_register_device (s : ttys) (t : option nat) (mi : Z) : option (ttys * Z) :=
  match t with
  | None => Some (s, ERR_INVALID)
  | Some i =>
      tc ← arena s !! i;
      d ← driver tc;
      dr ← drivers s !! d;
      if d_num dr <=? mi then Some (s, ERR_INVALID)
      else
        '(r, reg, h) ← device_register (heap_pos s) (registry_ s) (name tc) DEVICE_CHAR tt i;
        let s := set_registry reg h s in
        if r <? 0 then Some (s, r) else Some (upd_tty i (fun t => set_ids r (minor t) (name t) t) s, 0)
  end.

Definition tty_unregister_device (s : ttys) (t : option nat) (mi : Z) : ttys * Z := (s, 0).

(** ** Line disciplines *)
(** The duplicate check: by number or by name. *)
Fixpoint ldisc_taken (s : ttys) (l : list nat) (d : ldisc_t) : option bool :=
  match l with
  | [] => Some false
  | i :: l' =>
      e ← ldiscs s !! i;
      if l_num e =? l_num d then Some true
      else r ← strcmp (l_name e) (l_name d); if r =? 0 then Some true else ldisc_taken s l' d
  end.

Definition tty_register_ldisc (s : ttys) (d : option nat) : option (ttys * Z) :=
  match d with
  | None => Some (s, ERR_INVALID)
  | Some i =>
      l ← ldiscs s !! i;
      if 16 <=? l_num l then Some (s, ERR_INVALID)
      else
        taken ← ldisc_taken s (tty_ldiscs s) l;
        Some (if taken : bool then (s, ERR_INVALID) else (set_ldiscs (i :: tty_ldiscs s) s, 0))
  end.

Fixpoint find_ldisc (s : ttys) (l : list nat) (num : Z) : option (option nat) :=
  match l with
  | [] => Some None
  | i :: l' => e ← ldiscs s !! i; if negb (l_num e =? num) then find_ldisc s l' num else Some (Some i)
  end.

Definition tty_get_ldisc (s : ttys) (num : Z) : option (option nat) := find_ldisc s (tty_ldiscs s) num.

Definition tty_set_ldisc (s : ttys) (t : option nat) (num : Z) : option (ttys * Z) :=
  match t with
  | None => Some (s, ERR_INVALID)
  | Some i =>
      l ← tty_get_ldisc s num;
      match l with
      | None => Some (s, ERR_INVALID)
      | Some j =>
          tc ← arena s !! i;
          let close tc :=
            match ldisc_of (ldiscs s) tc with
            | Some old => match l_close old with Some f => (f tc).1 | None => tc end
            | None => tc
            end in
          Some (upd_tty i (fun tc => set_ldisc (Some j) (close tc)) s, 0)
      end
  end.

(** The static structure of N_TTY is the line discipline 0; the result is not looked at. *)
Definition tty_register_default_ldiscs (s : ttys) : option ttys := '(s, _) ← tty_register_ldisc s (Some 0%nat); Some s.

(** ** Consoles *)
Definition tty_create_console (s : ttys) (console_id : Z) : option (ttys * Z) :=
  if (32 <=? console_id) || (32 <=? lenZ (console_ttys s)) then Some (s, ERR_INVALID)
  else
    '(s, t) ← tty_allocate_driver s 1 0;
    match t with
    | None => Some (s, ERR_NO_MEMORY)
    | Some i =>
        tc ← arena s !! i;
        '(nm, _) ← snprintf (name tc) 256 tty_format;
        let tio := Termios (c_iflag tty_def_termios) (c_oflag tty_def_termios) (Z.lor (c_cflag tty_def_termios) B38400)
                     (c_lflag tty_def_termios) (c_cc tty_def_termios) (c_ispeed tty_def_termios) (c_ospeed tty_def_termios) in
        let s := upd_tty i (fun tc => set_line tio (wsize tc) (set_ids (major tc) console_id nm tc)) s in
        Some (set_consoles (console_ttys s ++ [i]) s, 0)
    end.

(** The alias itself is a call of [vfs_create_device_node], which prints. *)
Definition tty_create_console_alias (s : ttys) (console_id : Z) : Z :=
  if lenZ (console_ttys s) <=? console_id then ERR_INVALID else 0.

Definition tty_multiplex_init (s : ttys) : option ttys :=
  '(s, _) ← tty_create_console s 0;
  '(s, _) ← tty_create_console s 1;
  Some s.

Definition tty_init (s : ttys) : option ttys :=
  let s := Ttys (arena s) (drivers s) (ldiscs s) [] None [] 0 (console_ttys s) (registry_ s) (heap_pos s) in
  s ← tty_register_default_ldiscs s;
  tty_multiplex_init s.

Definition on_console (s : ttys) (tty_id : Z) (f : tty -> tty) : option (ttys * Z) :=
  if lenZ (console_ttys s) <=? tty_id then Some (s, ERR_INVALID)
  else i ← getZ (console_ttys s) tty_id; Some (upd_tty i f s, 0).

Definition tty_assign_controlling_terminal (s : ttys) (pid tty_id : Z) : option (ttys * Z) :=
  on_console s tty_id (fun t => default t (tty_session_set_leader (Some t) pid)).

Definition tty_set_foreground_process_group (s : ttys) (pgrp tty_id : Z) : option (ttys * Z) :=
  on_console s tty_id (fun t => default t (tty_foreground_set_group (Some t) pgrp)).

End tty.
Arguments tty W : clear implicits.
Arguments ttys W : clear implicits.
Arguments ldisc_t W : clear implicits.

(** ** The queues *)
Section queues.
Context {W : Type}.
Implicit Types (t : tty W) (w : W) (l : bytes).

(** Nothing but the output queue takes part in a write. *)
Definition plain t : Prop := on (c_lflag (tios t)) ECHO = false /\ op_write t = None.

(** A [put_char] that always succeeds. *)
Definition puts t (f : W -> Z -> W) : Prop := op_put_char t = Some (fun w b => Some (f w b, 0)).

Lemma slice_take {A} (l : list A) n : 0 <= n <= lenZ l -> slice l 0 n = Some (take (Z.to_nat n) l).
Proof. intros H. rewrite slice_Some by lia. done. Qed.

Lemma room_eq t : ring_ok 256 (output t) -> tty_write_room (Some t) = 256 - used (output t).
Proof.
  intros Hr. cbn [tty_write_room]. unfold TTY_OUTPUT_BUFFER. pose proof (used_range (output t)).
  pose proof (ok_used _ _ Hr). apply u32_id. red. lia.
Qed.

Lemma tty_write_spec w t l count :
  ring_ok 256 (output t) -> plain t -> 0 < count <= lenZ l -> count < 2 ^ 31 ->
  let n := Z.min count (256 - used (output t)) in
  exists out, tty_write w (Some t) (Some l) count = Some (w, if n =? 0 then Some t else Some (set_output out t), n) /\
    (n <> 0 -> ring_ok 256 out /\ contents 256 out = contents 256 (output t) ++ take (Z.to_nat n) l).
Proof.
  intros Hr [He Hw] Hc Hc31 n. change (2 ^ 31) with 2147483648 in *. cbn [tty_write]. rewrite (proj2 (Z.eqb_neq count 0)) by lia.
  rewrite room_eq by done. pose proof (used_range (output t)). pose proof (ok_used _ _ Hr).
  destruct (Z.eqb_spec (256 - used (output t)) 0) as [E|E].
  - exists (output t). subst n. rewrite (proj2 (Z.eqb_eq _ 0)) by lia. split; [do 3 f_equal; lia|lia].
  - replace (if count <? _ then count else _) with n by (subst n; destruct (Z.ltb_spec count (256 - used (output t))); lia).
    assert (0 < n <= lenZ l /\ n <= count) as Hn by (subst n; lia).
    rewrite slice_take by lia. cbn [mbind option_bind]. unfold TTY_OUTPUT_BUFFER.
    destruct (push_all_spec 256 (take (Z.to_nat n) l) (output t) Hr) as (out & -> & Hok & Hcon & _).
    { unfold lenZ in *. rewrite length_take. subst n. lia. }
    exists out. cbn [mbind option_bind tios set_output set_rings op_write]. rewrite He, Hw. cbn [mbind option_bind].
    rewrite (proj2 (Z.eqb_neq n 0)), i32_id by lia. done.
Qed.

(** [n] transmit interrupts *)
Fixpoint drain (n : nat) w t : option (W * tty W) :=
  match n with
  | O => Some (w, t)
  | S n' => '(w, t) ← tty_handle_output_interrupt w (Some t); match t with Some t => drain n' w t | None => None end
  end.

Lemma drain_spec f n : forall w t, ring_ok 256 (output t) -> puts t f -> (n <= length (contents 256 (output t)))%nat ->
  exists t', drain n w t = Some (foldl f w (take n (contents 256 (output t))), t') /\
    ring_ok 256 (output t') /\ contents 256 (output t') = drop n (contents 256 (output t)).
Proof.
  induction n as [|n IH]; intros w t Hr Hp Hn; cbn [drain]; [by exists t|].
  destruct (contents 256 (output t)) as [|b l] eqn:Ec; [cbn in Hn; lia|]. cbn [tty_handle_output_interrupt].
  rewrite Hp. destruct (Z.eqb_spec (head (output t)) (tail (output t))) as [E|E].
  { apply (empty_iff 256) in E; [|done]. by rewrite Ec in E. }
  cbn [negb]. destruct (pop_spec 256 (output t) b l Hr Ec) as (out & Hpop & Hok & Hcon & _). unfold TTY_OUTPUT_BUFFER.
  rewrite Hpop. cbn [mbind option_bind]. destruct (IH (f w b) (set_output out t)) as (t' & E1 & E2 & E3);
    [done|done|cbn [output set_output set_rings]; rewrite Hcon; cbn in Hn; lia|].
  exists t'. rewrite E1. cbn [output set_output set_rings] in *. rewrite Hcon in *. by cbn.
Qed.

(** the output queue.  With echo off and no write callback, [tty_write] accepts as many bytes as
    there is room for and reports their number; the transmit interrupts then send, in order, what was queued before
    and the accepted bytes, and nothing is left.  The counters may wrap around at any point. *)
Theorem tty_output_fifo f w t l count :
  ring_ok 256 (output t) -> plain t -> puts t f -> 0 < count <= lenZ l -> count < 2 ^ 31 ->
  let n := Z.min count (256 - used (output t)) in
  exists t1 t2, tty_write w (Some t) (Some l) count = Some (w, Some t1, n) /\
    drain (length (contents 256 (output t)) + Z.to_nat n) w t1 =
      Some (foldl f w (contents 256 (output t) ++ take (Z.to_nat n) l), t2) /\
    contents 256 (output t2) = [].
Proof.
  intros Hr Hpl Hp Hc Hc31 n. destruct (tty_write_spec w t l count Hr Hpl Hc Hc31) as (out & E & Hout). fold n in E, Hout.
  set (t1 := if n =? 0 then t else set_output out t).
  assert (tty_write w (Some t) (Some l) count = Some (w, Some t1, n)) as E' by (rewrite E; subst t1; by destruct (n =? 0)).
  assert (ring_ok 256 (output t1) /\ contents 256 (output t1) = contents 256 (output t) ++ take (Z.to_nat n) l /\ puts t1 f) as (Hr1 & Hc1 & Hp1).
  { subst t1. destruct (Z.eqb_spec n 0) as [En|En].
    - rewrite En. change (Z.to_nat 0) with 0%nat. by rewrite take_0, app_nil_r.
    - destruct (Hout En). split; [done|by split]. }
  clearbody t1. assert (0 <= n <= lenZ l) as Hn by (pose proof (ok_used _ _ Hr); subst n; lia). unfold lenZ in Hn.
  assert (length (contents 256 (output t1)) = (length (contents 256 (output t)) + Z.to_nat n)%nat) as Hlen.
  { rewrite Hc1, length_app, length_take. lia. }
  destruct (drain_spec f (length (contents 256 (output t)) + Z.to_nat n) w t1 Hr1 Hp1) as (t2 & E2 & _ & E3); [lia|].
  exists t1, t2. split; [done|]. rewrite <- Hlen in *. rewrite E2, E3, firstn_all, drop_all, Hc1. done.
Qed.

(** *** Input *)
Definition calm (lds : list (ldisc_t W)) t : Prop :=
  (ldisc t = None \/ ldisc_of lds t = Some n_tty_ldisc) /\ (op_put_char t = None \/ exists f, puts t f) /\ 11 <= lenZ (c_cc (tios t)).

Lemma receive_buf_calm lds t b : calm lds t -> receive_buf lds t [b] 1 = Some t.
Proof.
  intros [[H|H] _]; unfold receive_buf.
  - unfold ldisc_of. by rewrite H.
  - rewrite H. cbn [l_receive_buf n_tty_ldisc n_tty_receive_buf]. done.
Qed.

Lemma echo_calm lds w t b : calm lds t ->
  exists w', tty_echo_char w (Some t) b = Some w' /\ (op_put_char t = None -> w' = w).
Proof.
  intros (_ & Hp & _). cbn [tty_echo_char]. destruct Hp as [Hp|[f Hp]]; rewrite Hp; repeat case_match; cbn;
    (eexists; split; [done|done || intros [=]]).
Qed.

Lemma take_take_app {A} n (a l : list A) : take n (take n a ++ l) = take n (a ++ l).
Proof. rewrite !take_app, take_take, Nat.min_id, length_take. f_equal. f_equal. lia. Qed.

Lemma input_step lds w t b : ring_ok 256 (input t) -> calm lds t ->
  exists w' t' sig, tty_handle_input_interrupt lds w (Some t) b = Some (w', Some t', sig) /\ ring_ok 256 (input t') /\ calm lds t' /\
    contents 256 (input t') = take 256 (contents 256 (input t) ++ [b]) /\ output t' = output t /\
    (op_put_char t = None -> w' = w) /\ op_put_char t' = op_put_char t /\
    (on (c_lflag (tios t)) ISIG = true -> sig = Some (CallIntr SIGINT) <-> getZ (c_cc (tios t)) VINTR = Some b).
Proof.
  intros Hr Hc. pose proof (length_contents 256 (input t)) as Hl. pose proof (used_range (input t)). pose proof (ok_used _ _ Hr).
  cbn [tty_handle_input_interrupt]. unfold TTY_INPUT_BUFFER.
  assert (exists inp, (if used (input t) <? 256 then push 256 (input t) b else Some (input t)) = Some inp /\ ring_ok 256 inp /\
    contents 256 inp = take 256 (contents 256 (input t) ++ [b])) as (inp & -> & Hok & Hcon).
  { unfold lenZ in Hl. destruct (Z.ltb_spec (used (input t)) 256).
    - destruct (push_spec 256 (input t) b Hr) as (inp & -> & ? & Ec & _); [done|]. exists inp. split; [done|]. split; [done|].
      rewrite Ec, take_ge; [done|]. rewrite length_app. cbn. lia.
    - exists (input t). split; [done|]. split; [done|]. rewrite take_app_le, take_ge by lia. done. }
  cbn [mbind option_bind]. set (t1 := set_input inp t). assert (calm lds t1) as Hc1 by exact Hc.
  change (tios t1) with (tios t). destruct (echo_calm lds w t1 b Hc1) as (w' & Ew & Hw').
  assert (exists w'', (if on (c_lflag (tios t)) ECHO then tty_echo_char w (Some t1) b else Some w) = Some w'' /\
    (op_put_char t = None -> w'' = w)) as (w'' & -> & Hw'') by (destruct (on _ _); eauto).
  cbn [mbind option_bind]. rewrite receive_buf_calm by done. cbn [mbind option_bind]. change (tios t1) with (tios t).
  destruct Hc as (_ & _ & Hcc). unfold VINTR, VQUIT, VSUSP.
  destruct (getZ_is_Some (c_cc (tios t)) 0) as [i0 E0]; [lia|]. destruct (getZ_is_Some (c_cc (tios t)) 1) as [i1 E1]; [lia|].
  destruct (getZ_is_Some (c_cc (tios t)) 10) as [i2 E2]; [lia|]. rewrite E0, E1, E2. cbn [mbind option_bind].
  destruct (on (c_lflag (tios t)) ISIG); (do 3 eexists; split; [done|]; split; [exact Hok|]; split; [exact Hc1|]; split; [exact Hcon|];
    split; [done|]; split; [exact Hw''|]; split; [done|]); [|done]. intros _. destruct (Z.eqb_spec b i0) as [->|]; [done|].
  split; [destruct (b =? i1), (b =? i2); discriminate|congruence].
Qed.

Fixpoint feed (lds : list (ldisc_t W)) w t l : option (W * tty W) :=
  match l with
  | [] => Some (w, t)
  | b :: l' =>
      '(w, t, _) ← tty_handle_input_interrupt lds w (Some t) b;
      match t with Some t => feed lds w t l' | None => None end
  end.

(** C28: the input queue.  For a terminal without line discipline or with N_TTY, and without a [put_char] or with one
    that always succeeds ([calm]): however many bytes arrive, the input queue is the first 256 of the bytes it had followed
    by those that arrived, in order: none is overwritten, later ones are dropped.  Echo, the line discipline and
    signals do not disturb it, nor does a counter that wraps around; the output queue is untouched. *)
Theorem tty_input_fifo lds w t l :
  ring_ok 256 (input t) -> calm lds t ->
  exists w' t', feed lds w t l = Some (w', t') /\ ring_ok 256 (input t') /\ output t' = output t /\
    contents 256 (input t') = take 256 (contents 256 (input t) ++ l).
Proof.
  revert w t. induction l as [|b l IH]; intros w t Hr Hc; cbn [feed].
  - exists w, t. split; [done|]. split; [done|]. split; [done|]. rewrite app_nil_r, take_ge; [done|].
    pose proof (length_contents 256 (input t)) as Hl. pose proof (ok_used _ _ Hr). unfold lenZ in Hl. lia.
  - destruct (input_step lds w t b Hr Hc) as (w1 & t1 & sig & -> & Hr1 & Hc1 & Hcon1 & Ho1 & _). cbn [mbind option_bind].
    destruct (IH w1 t1 Hr1 Hc1) as (w2 & t2 & E & Hr2 & Ho2 & Hcon2). exists w2, t2. split; [done|]. split; [done|].
    split; [congruence|]. rewrite Hcon2, Hcon1. replace (b :: l) with ([b] ++ l) by done.
    rewrite app_assoc. apply take_take_app.
Qed.

(** a byte written goes out three times.  With the default settings, which echo, a printable byte written to a
    terminal with both callbacks is sent by the echo and by the write callback, and stays in the
    output queue, from which the next transmit interrupt sends it again. *)
Theorem tty_write_repeats f g w t b :
  ring_ok 256 (output t) -> contents 256 (output t) = [] -> tios t = tty_def_termios -> puts t f ->
  op_write t = Some (fun w l n => Some (g w (take (Z.to_nat n) l), n)) -> tty_char_is_printable b = true ->
  exists t1 t2, tty_write w (Some t) (Some [b]) 1 = Some (g (f w b) [b], Some t1, 1) /\
    tty_handle_output_interrupt (g (f w b) [b]) (Some t1) = Some (f (g (f w b) [b]) b, Some t2).
Proof.
  intros Hr Hc Ht Hp Hw Hb. pose proof (length_contents 256 (output t)) as Hl. rewrite Hc in Hl. change (lenZ []) with 0 in Hl.
  destruct (push_spec 256 (output t) b Hr) as (out & Epush & Hok & Hcon & _); [lia|].
  assert (tty_char_is_control b = false) as Hctl.
  { unfold tty_char_is_printable, tty_char_is_control in *. destruct (Z.leb_spec 32 b), (Z.ltb_spec b 32), (b =? 127); done || lia. }
  set (t1 := set_output out t). destruct (drain_spec f 1 (g (f w b) [b]) t1) as (t2 & E2 & _).
  { exact Hok. }
  { exact Hp. }
  { cbn [output t1 set_output set_rings]. rewrite Hcon, Hc. cbn. lia. }
  exists t1, t2. split.
  - cbn [tty_write]. rewrite room_eq by done. rewrite <- Hl. change (256 - 0 =? 0) with false. change (1 <? 256 - 0) with true.
    change (1 =? 0) with false. cbv iota. change (slice [b] 0 1) with (Some [b]). cbn [mbind option_bind push_all].
    unfold TTY_OUTPUT_BUFFER. rewrite Epush. cbn [mbind option_bind]. fold t1. change (tios t1) with (tios t).
    change (op_write t1) with (op_write t). rewrite Ht, Hw. change (on (c_lflag tty_def_termios) ECHO) with true. cbv iota.
    cbn [tty_echo_chars]. change (tios t1) with (tios t). rewrite Ht. change (on (c_lflag tty_def_termios) ECHO) with true. cbn [negb].
    change (slice [b] 0 1) with (Some [b]). cbn [mbind option_bind echo_loop tty_echo_char].
    change (tios t1) with (tios t). rewrite Ht. change (on (c_lflag tty_def_termios) ECHO) with true. cbn [negb]. rewrite Hctl.
    change (op_put_char t1) with (op_put_char t). rewrite Hp. done.
  - cbn [drain] in E2. destruct (tty_handle_output_interrupt _ _) as [[w' [t'|]]|]; [|done|done]. cbn [mbind option_bind] in E2.
    injection E2 as -> ->. do 3 f_equal. cbn [output t1 set_output set_rings]. by rewrite Hcon, Hc.
Qed.

End queues.

Lemma init_lines_keeps {W} n : forall i ma (s s' : ttys W) j t,
  init_lines n i ma s = Some s' -> arena s !! j = Some t -> arena s' !! j = Some t.
Proof.
  induction n as [|n IH]; intros i ma s s' j t E Hj; cbn [init_lines] in E; [by injection E as <-|].
  destruct (snprintf _ _ _) as [[nm r]|]; [|done]. cbn [mbind option_bind] in E. eapply IH; [exact E|].
  cbn [arena set_arena]. by apply lookup_app_l_Some.
Qed.

Lemma tty_allocate_driver_null {W} (s s' : ttys W) lines ma i :
  0 < lines -> tty_allocate_driver s lines ma = Some (s', Some i) -> exists t, arena s' !! i = Some t /\ driver t = None.
Proof.
  intros Hl. unfold tty_allocate_driver. destruct (malloc _ _) as [[p|] h]; [|done]. set (s0 := set_arena _ _ _ _ _).
  destruct (init_lines _ _ _ _) as [s1|] eqn:E; [|done]. intros [= <- <-].
  change (length (arena s)) with (length (arena s0)).
  destruct (Z.to_nat lines) as [|n] eqn:En; [lia|]. cbn [init_lines] in E.
  destruct (snprintf _ _ _) as [[nm r]|]; [|done]. cbn [mbind option_bind] in E.
  eexists. split; [eapply init_lines_keeps; [exact E|]|]; [cbn [arena set_arena]; by apply list_lookup_middle|done].
Qed.

(** registering a terminal.  [tty_allocate_driver] leaves the [driver] of a terminal [NULL], and
    [tty_register_device] dereferences it: no terminal fresh from the allocation can be registered. *)
Theorem tty_register_device_null {W} (s s' : ttys W) lines ma i :
  0 < lines -> tty_allocate_driver s lines ma = Some (s', Some i) -> tty_register_device s' (Some i) 0 = None.
Proof.
  intros Hl E. destruct (tty_allocate_driver_null s s' lines ma i Hl E) as (t & Ht & Hd).
  unfold tty_register_device. rewrite Ht. cbn [mbind option_bind]. by rewrite Hd.
Qed.

(** ** Examples: a terminal whose counters are about to wrap around *)
Definition wrap_ring : ring := Ring (replicate 256 7) 4294967294 4294967295.
Definition log (w : bytes) (b : Z) : bytes := w ++ [b].
Definition tty0 (lflag : Z) (wr : option (bytes -> bytes -> Z -> option (bytes * Z))) (out : ring) : tty bytes :=
  Tty 4 0 [116; 0] None None wr (Some (fun w b => Some (log w b, 0))) None 0 0 wrap_ring out
    (Termios TTY_DEF_IFLAG TTY_DEF_OFLAG TTY_DEF_CFLAG lflag (c_cc tty_def_termios) B9600 B9600) (Winsize 24 80 0 0) 0 0 0 true 0.

Lemma wrap_ring_ok : ring_ok 256 wrap_ring.
Proof. split; [done|lia|by exists 16777216|unfold is_u32; cbn; lia..|by vm_compute]. Qed.

Lemma empty_ring_ok : ring_ok 256 (Ring (replicate 256 0) 0 0).
Proof. split; [done|lia|by exists 16777216|unfold is_u32; cbn; lia..|by vm_compute]. Qed.

Lemma tty_output_fifo_witness :
  let t := tty0 0 None wrap_ring in let l := [65; 66; 67] in let n := Z.min 3 (256 - used (output t)) in
  exists t1 t2, tty_write [] (Some t) (Some l) 3 = Some ([], Some t1, n) /\
    drain (length (contents 256 (output t)) + Z.to_nat n) [] t1 =
      Some (foldl log [] (contents 256 (output t) ++ take (Z.to_nat n) l), t2) /\
    contents 256 (output t2) = [].
Proof.
  intros t l. apply (tty_output_fifo log [] t l 3).
  - exact wrap_ring_ok.
  - by split.
  - reflexivity.
  - by vm_compute.
  - reflexivity.
Defined.

Lemma tty_input_fifo_witness :
  let t := tty0 1 None wrap_ring in let l := [65; 127; 66] in
  exists w' t', feed [] [] t l = Some (w', t') /\ ring_ok 256 (input t') /\ output t' = output t /\
    contents 256 (input t') = take 256 (contents 256 (input t) ++ l).
Proof.
  intros t l. apply (tty_input_fifo [] [] t l).
  - exact wrap_ring_ok.
  - split; [by left|]. split; [right; by exists log|]. by vm_compute.
Defined.

Lemma tty_write_repeats_witness :
  let g (w l : bytes) := w ++ l in
  let t := tty0 TTY_DEF_LFLAG (Some (fun w l n => Some (g w (take (Z.to_nat n) l), n))) (Ring (replicate 256 0) 0 0) in
  exists t1 t2, tty_write [] (Some t) (Some [65]) 1 = Some (g (log [] 65) [65], Some t1, 1) /\
    tty_handle_output_interrupt (g (log [] 65) [65]) (Some t1) = Some (log (g (log [] 65) [65]) 65, Some t2).
Proof. intros g t. apply (tty_write_repeats log g [] t 65 empty_ring_ok); reflexivity. Defined.

Lemma tty_register_device_null_witness :
  exists s' : ttys bytes,
    tty_allocate_driver (Ttys [] [] [] [] None [] 0 [] (Registry [] 1) 0) 1 0 = Some (s', Some 0%nat) /\
    tty_register_device s' (Some 0%nat) 0 = None.
Proof.
  eexists. split; [vm_compute; reflexivity|].
  apply (tty_register_device_null (Ttys [] [] [] [] None [] 0 [] (Registry [] 1) 0) _ 1 0); [done|vm_compute; reflexivity].
Defined.

End Tty.
