(* ===== verification/Uart.v ===== *)
(** * The 16550 serial driver: [src/drivers/tty/uart16550.c]

    The chip behind the ports is not part of the sources: it is a state [H] with the
    effect of reading and writing a port.  Polling loops have fuel.  The driver is the
    state behind the callbacks of its terminal; the two macros the file uses and no header defines
    are parameters. *)
From S2P Require Import Prelude KernelLib Ring Tty.
Import Memory Ring.
Open Scope Z_scope.

(** What the code can do to a port. *)
Class Ports (H : Type) := { inb : H -> Z -> H * Z; outb : H -> Z -> Z -> H }.

Module Uart16550.
Import Tty.

Definition UART_PORT_COM1 : Z := 1016.   (* 0x3F8 *)
Definition UART_DATA : Z := 0.
Definition UART_INT_ENABLE : Z := 1.
Definition UART_FIFO_CTRL : Z := 2.
Definition UART_LINE_CTRL : Z := 3.
Definition UART_MODEM_CTRL : Z := 4.
Definition UART_LINE_STATUS : Z := 5.
Definition UART_LSR_DATA_READY : Z := 1.
Definition UART_LSR_THR_EMPTY : Z := 32.
Definition UART_INT_ID : Z := 10.
Definition UART_INT_ID_THR_EMPTY : Z := 2.
Definition UART_INT_ID_DATA_READY : Z := 4.
Definition UART_INT_ID_LINE_STATUS : Z := 6.

Definition TTY_CAP_HAVE_CTS : Z := 8.
Definition TTY_CAP_HAVE_DSR : Z := 16.
Definition TTY_CAP_HAVE_DCD : Z := 64.
Definition TTY_CAP_HAVE_RTSCTS : Z := 128.

Definition IXON : Z := 512.
Definition IXOFF : Z := 2048.
Definition CBAUD : Z := 15.
Definition CSIZE : Z := 48.
Definition CSTOPB : Z := 64.
Definition PARENB : Z := 256.
Definition PARODD : Z := 512.

(** [use_tty] and [tty] are set together; whether they are is [attached]. *)
Record uart := Uart {
  port : Z;
  attached : bool;
  rx : ring;
  tx : ring;
  baud_rate : Z;
  data_bits : Z;
  stop_bits : Z;
  parity : Z;
  flow_control : bool;
  interrupt_enabled : bool;
  interrupt_mask : Z;
  capabilities : Z;
  initialized : bool
}.

Definition set_attached u : uart := Uart (port u) true (rx u) (tx u) (baud_rate u) (data_bits u) (stop_bits u) (parity u)
  (flow_control u) (interrupt_enabled u) (interrupt_mask u) (capabilities u) (initialized u).
Definition set_rx r u : uart := Uart (port u) (attached u) r (tx u) (baud_rate u) (data_bits u) (stop_bits u) (parity u)
  (flow_control u) (interrupt_enabled u) (interrupt_mask u) (capabilities u) (initialized u).
Definition set_tx r u : uart := Uart (port u) (attached u) (rx u) r (baud_rate u) (data_bits u) (stop_bits u) (parity u)
  (flow_control u) (interrupt_enabled u) (interrupt_mask u) (capabilities u) (initialized u).
Definition set_format b d s p f u : uart := Uart (port u) (attached u) (rx u) (tx u) b d s p
  f (interrupt_enabled u) (interrupt_mask u) (capabilities u) (initialized u).
Definition set_caps c u : uart := Uart (port u) (attached u) (rx u) (tx u) (baud_rate u) (data_bits u) (stop_bits u) (parity u)
  (flow_control u) (interrupt_enabled u) (interrupt_mask u) c (initialized u).
Definition set_initialized u : uart := Uart (port u) (attached u) (rx u) (tx u) (baud_rate u) (data_bits u) (stop_bits u) (parity u)
  (flow_control u) (interrupt_enabled u) (interrupt_mask u) (capabilities u) true.

Section driver.
Context {H : Type} `{!Ports H}.
Variables (UART_BUFFER_SIZE TTY_CAP_HARDWARE_SPEED : Z).

(** The driver and its chip *)
Definition dev : Type := H * uart.

Definition uart_write_reg (d : dev) (reg value : Z) : dev := (outb d.1 (u16 (port d.2 + reg)) value, d.2).
Definition uart_read_reg (d : dev) (reg : Z) : dev * Z := let '(h, v) := inb d.1 (u16 (port d.2 + reg)) in ((h, d.2), v).

Definition uart_can_transmit (d : dev) : dev * bool :=
  let '(d, v) := uart_read_reg d UART_LINE_STATUS in (d, negb (Z.land v UART_LSR_THR_EMPTY =? 0)).
Definition uart_has_data (d : dev) : dev * bool :=
  let '(d, v) := uart_read_reg d UART_LINE_STATUS in (d, negb (Z.land v UART_LSR_DATA_READY =? 0)).

Fixpoint uart_write_byte (fuel : nat) (d : dev) (byte : Z) : outcome dev :=
  match fuel with
  | O => More
  | S fuel' =>
      let '(d, ready) := uart_can_transmit d in
      if negb ready then uart_write_byte fuel' d byte else Ret (uart_write_reg d UART_DATA byte)
  end.

Fixpoint uart_read_byte (fuel : nat) (d : dev) : outcome (dev * Z) :=
  match fuel with
  | O => More
  | S fuel' =>
      let '(d, ready) := uart_has_data d in
      if negb ready then uart_read_byte fuel' d else Ret (uart_read_reg d UART_DATA)
  end.

(** ** Configuration: [None] is a division by zero *)
Definition uart_configure (d : dev) (baud data stop par : Z) (flow : bool) : option dev :=
  if baud =? 0 then None
  else
    let divisor := u16 (115200 / baud) in
    let d := uart_write_reg d UART_LINE_CTRL 128 in
    let d := uart_write_reg d UART_DATA (Z.land divisor 255) in
    let d := uart_write_reg d UART_INT_ENABLE (Z.land (Z.shiftr divisor 8) 255) in
    let lcr := if data =? 6 then 1 else if data =? 7 then 2 else if data =? 8 then 3 else 0 in
    let lcr := if stop =? 2 then Z.lor lcr 4 else lcr in
    let lcr := if negb (par =? 0) then
                 let lcr := Z.lor lcr 8 in
                 if (par =? 79) || (par =? 111) then Z.lor lcr 16 else lcr
               else lcr in
    let d := uart_write_reg d UART_LINE_CTRL lcr in
    let d := (d.1, set_format baud data stop par flow d.2) in
    let d := uart_write_reg d UART_FIFO_CTRL 199 in
    let d := if interrupt_enabled d.2
             then uart_write_reg d UART_INT_ENABLE (if attached d.2 then Z.lor 1 2 else 0) else d in
    Some (uart_write_reg d UART_MODEM_CTRL (if flow then Z.lor 11 32 else 11)).

Definition uart_detect_capabilities (d : dev) : dev :=
  let caps := Z.lor TTY_CAP_HAVE_CTS (Z.lor TTY_CAP_HAVE_DSR TTY_CAP_HAVE_DCD) in
  let d := uart_write_reg d UART_FIFO_CTRL 0 in
  let d := uart_write_reg d UART_FIFO_CTRL 199 in
  let '(d, test) := uart_read_reg d UART_FIFO_CTRL in
  let caps := if Z.land test 192 =? 192 then Z.lor caps TTY_CAP_HARDWARE_SPEED else caps in
  (d.1, set_caps (Z.lor caps TTY_CAP_HAVE_RTSCTS) d.2).

(** ** The device operations.  [None] as a device or buffer is [NULL]. *)
Fixpoint read_loop (fuel : nat) (d : dev) (buf : bytes) (bytes_read size : Z) : outcome (dev * bytes * Z) :=
  if negb (bytes_read <? size) then Ret (d, buf, bytes_read)
  else
    match fuel with
    | O => More
    | S fuel' =>
        let '(d, stop) := if head (rx d.2) =? tail (rx d.2) then let '(d, ready) := uart_has_data d in (d, negb ready)
                          else (d, false) in
        if stop : bool then Ret (d, buf, bytes_read)
        else
          d ← (if head (rx d.2) =? tail (rx d.2) then
                 '(d, byte) ← uart_read_byte fuel' d;
                 r ← need (push UART_BUFFER_SIZE (rx d.2) byte);
                 Ret (d.1, set_rx r d.2)
               else Ret d);
          if negb (head (rx d.2) =? tail (rx d.2)) then
            '(byte, r) ← need (pop UART_BUFFER_SIZE (rx d.2));
            buf ← need (setZ buf bytes_read byte);
            read_loop fuel' (d.1, set_rx r d.2) buf (bytes_read + 1) size
          else read_loop fuel' d buf bytes_read size
    end.

Definition uart16550_read (fuel : nat) (d : dev) (size : Z) (buffer : option bytes) : outcome (dev * option bytes * Z) :=
  match buffer with
  | None => Ret (d, None, ERR_INVALID)
  | Some buf =>
      if negb (initialized d.2) then Ret (d, buffer, ERR_INVALID)
      else '(d, buf, n) ← read_loop fuel d buf 0 size; Ret (d, Some buf, i32 n)
  end.

Fixpoint write_loop (fuel : nat) (d : dev) (l : bytes) : outcome dev :=
  match l with [] => Ret d | b :: l' => d ← uart_write_byte fuel d b; write_loop fuel d l' end.

(** Each byte is polled for with its own [fuel]. *)
Definition uart16550_write (fuel : nat) (d : dev) (size : Z) (buffer : option bytes) : outcome (dev * Z) :=
  match buffer with
  | None => Ret (d, ERR_INVALID)
  | Some buf =>
      if negb (initialized d.2) then Ret (d, ERR_INVALID)
      else l ← need (slice buf 0 size); d ← write_loop fuel d l; Ret (d, i32 size)
  end.

Definition uart16550_ioctl (cmd arg : Z) : Z := ERR_INVALID.

(** ** The callbacks of the terminal *)
Definition uart16550_open (d : dev) : option (dev * Z) :=
  d ← uart_configure (d.1, set_attached d.2) 9600 8 1 0 false;
  Some (uart_detect_capabilities d, 0).

(** The bytes that fit go to the transmit buffer. *)
Fixpoint fill_tx (r : ring) (l : bytes) : option ring :=
  match l with
  | [] => Some r
  | b :: l' => if used r <? UART_BUFFER_SIZE then r ← push UART_BUFFER_SIZE r b; fill_tx r l' else Some r
  end.

Definition uart16550_write_tty (d : dev) (buf : bytes) (count : Z) : option (dev * Z) :=
  if count =? 0 then Some (d, ERR_INVALID)
  else
    l ← slice buf 0 count;
    r ← fill_tx (tx d.2) l;
    let d := (d.1, set_tx r d.2) in
    if interrupt_enabled d.2 && negb (head (tx d.2) =? tail (tx d.2)) then
      '(byte, r) ← pop UART_BUFFER_SIZE (tx d.2);
      Some (uart_write_reg (d.1, set_tx r d.2) UART_DATA byte, i32 count)
    else Some (d, i32 count).

(** The speed a code of [c_cflag] stands for; 0 is not among the cases, and
    leaves the initial value, which is the code [B9600] itself. *)
Definition baud_of (code : Z) : Z :=
  default B9600 ([B9600; 50; 75; 110; 134; 150; 200; 300; 600; 1200; 1800; 2400; 4800; 9600; 19200; 38400] !! Z.to_nat code).

Definition uart16550_set_termios (d : dev) (tio : termios) : option (dev * Z) :=
  let cf := c_cflag tio in
  let baud := baud_of (Z.land cf CBAUD) in
  let data := 5 + Z.shiftr (Z.land cf CSIZE) 4 in
  let stop := if negb (Z.land cf CSTOPB =? 0) then 2 else 1 in
  let par := if negb (Z.land cf PARENB =? 0) then (if negb (Z.land cf PARODD =? 0) then 79 else 69) else 0 in
  let flow := negb (Z.land (c_iflag tio) IXON =? 0) || negb (Z.land (c_iflag tio) IXOFF =? 0) in
  d ← uart_configure d baud data stop par flow;
  Some (d, 0).

(** ** Interrupts: [t] is the terminal [dev->tty] points to *)
Fixpoint receive_loop (fuel : nat) (lds : list (ldisc_t dev)) (d : dev) (t : tty dev) : outcome (dev * tty dev) :=
  match fuel with
  | O => More
  | S fuel' =>
      let '(d, ready) := uart_has_data d in
      if negb ready then Ret (d, t)
      else
        '(d, byte) ← uart_read_byte fuel' d;
        if attached d.2 then
          '(d, t, _) ← need (tty_handle_input_interrupt lds d (Some t) byte);
          t ← need t;
          receive_loop fuel' lds d t
        else
          r ← need (push UART_BUFFER_SIZE (rx d.2) byte);
          receive_loop fuel' lds (d.1, set_rx r d.2) t
  end.

Fixpoint transmit_loop (fuel : nat) (d : dev) : outcome dev :=
  match fuel with
  | O => More
  | S fuel' =>
      let '(d, ready) := uart_can_transmit d in
      if ready && negb (head (tx d.2) =? tail (tx d.2)) then
        '(byte, r) ← need (pop UART_BUFFER_SIZE (tx d.2));
        let d := uart_write_reg d UART_DATA byte in
        transmit_loop fuel' (d.1, set_tx r d.2)
      else Ret d
  end.

Definition uart16550_interrupt_handler (fuel : nat) (lds : list (ldisc_t dev)) (d : dev) (t : tty dev) : outcome (dev * tty dev) :=
  let '(d, int_id) := uart_read_reg d UART_INT_ID in
  let id := Z.land int_id 15 in
  if id =? UART_INT_ID_DATA_READY then receive_loop fuel lds d t
  else if id =? UART_INT_ID_THR_EMPTY then
    if attached d.2 then '(d, t) ← need (tty_handle_output_interrupt d (Some t)); t ← need t; Ret (d, t)
    else d ← transmit_loop fuel d; Ret (d, t)
  else if id =? UART_INT_ID_LINE_STATUS then Ret ((uart_read_reg d UART_LINE_STATUS).1, t)
  else Ret (d, t).

(** ** Initialisation.  The registration dereferences the [driver] of the terminal, which nobody sets. *)
Definition sizeof_uart : Z := 56 + 2 * UART_BUFFER_SIZE.

Definition uart16550_init (h : H) (s : ttys dev) : option (option dev * ttys dev) :=
  let '(p, hp) := malloc (heap_pos s) sizeof_uart in
  match p with
  | None => Some (None, s)
  | Some _ =>
      let s := set_arena (arena s) (tty_list s) (tty_line_count s) hp s in
      let empty := Ring (replicate (Z.to_nat UART_BUFFER_SIZE) 0) 0 0 in
      let d := (h, Uart UART_PORT_COM1 false empty empty 9600 8 1 0 false true 15 0 false) in
      let d := uart_write_reg d UART_INT_ENABLE 0 in
      let d := uart_write_reg d UART_LINE_CTRL 128 in
      let d := uart_write_reg d UART_DATA 3 in
      let d := uart_write_reg d UART_INT_ENABLE 0 in
      let d := uart_write_reg d UART_LINE_CTRL 3 in
      let d := uart_write_reg d UART_FIFO_CTRL 199 in
      let d := uart_write_reg d UART_MODEM_CTRL 11 in
      let d := uart_write_reg d UART_INT_ENABLE 1 in
      let d := uart_detect_capabilities d in
      let d := (d.1, set_initialized d.2) in
      '(s, t) ← tty_allocate_driver s 1 0;
      match t with
      | None => Some (None, s)
      | Some i =>
          let s := upd_tty i (fun t => set_ops (Some uart16550_write_tty) (op_put_char t) (Some uart16550_set_termios)
                                         (capabilities d.2) t) s in
          '(s, result) ← tty_register_device s (Some i) 0;
          if result <? 0 then Some (None, s) else Some (Some d, s)
      end
  end.

(** ** Polled output *)
End driver.

(** What a 16550 at [base] promises: reading the line status leaves alone what was sent, and reports an empty
    transmitter truthfully and within [delay_bound] polls; a byte written to an empty transmitter, with the divisor
    latch closed, is sent. *)
Class Chip (H : Type) `{!Ports H} (base : Z) := {
  sent : H -> bytes;
  thr_empty : H -> bool;
  latch : H -> bool;
  delay : H -> nat;
  delay_bound : nat;
  chip_delay h : (delay h <= delay_bound)%nat;
  chip_status h : let '(h', v) := inb h (u16 (base + UART_LINE_STATUS)) in
    sent h' = sent h /\ latch h' = latch h /\
    (Z.land v UART_LSR_THR_EMPTY <> 0 -> thr_empty h' = true) /\
    (Z.land v UART_LSR_THR_EMPTY = 0 -> (delay h' < delay h)%nat);
  chip_data h b : thr_empty h = true -> latch h = false ->
    sent (outb h (u16 (base + UART_DATA)) b) = sent h ++ [b] /\ latch (outb h (u16 (base + UART_DATA)) b) = false
}.

Section polled.
Context {H : Type} `{!Ports H} {base : Z} `{!Chip H base}.

Lemma write_byte_sends fuel : forall (d : dev) b,
  port d.2 = base -> latch d.1 = false -> (delay d.1 < fuel)%nat ->
  exists d', uart_write_byte fuel d b = Ret d' /\ sent d'.1 = sent d.1 ++ [b] /\ latch d'.1 = false /\ d'.2 = d.2.
Proof.
  induction fuel as [|fuel IH]; intros [h u] b Hp Hl Hf; [lia|]. cbn [fst snd] in *. cbn [uart_write_byte].
  unfold uart_can_transmit, uart_read_reg. cbn [fst snd]. rewrite Hp. pose proof (chip_status h) as Hs.
  destruct (inb h _) as [h' v]. destruct Hs as (Hs1 & Hs2 & Hs3 & Hs4).
  destruct (Z.eqb_spec (Z.land v UART_LSR_THR_EMPTY) 0) as [E|E]; cbn [negb].
  - destruct (IH (h', u) b Hp) as (d' & -> & H1 & H2 & H3); [cbn; congruence|cbn; specialize (Hs4 E); lia|].
    exists d'. cbn in *. rewrite <- Hs1. done.
  - eexists. split; [done|]. unfold uart_write_reg. cbn [fst snd]. rewrite Hp.
    destruct (chip_data h' b (Hs3 E)) as [H1 H2]; [congruence|]. rewrite H1, Hs1. done.
Qed.

(** C29: polled output.  On a chip that keeps its promises [uart16550_write] ends, provided it may
    poll longer than the chip takes for a byte, and sends exactly the bytes of the buffer, in order. *)
Theorem uart16550_write_sends fuel (d : dev) size buf :
  port d.2 = base -> initialized d.2 = true -> latch d.1 = false -> (delay_bound < fuel)%nat -> 0 <= size <= lenZ buf ->
  exists d', uart16550_write fuel d size (Some buf) = Ret (d', i32 size) /\
    sent d'.1 = sent d.1 ++ take (Z.to_nat size) buf /\ d'.2 = d.2.
Proof.
  intros Hp Hi Hl Hf Hs. unfold uart16550_write. rewrite Hi, slice_take by lia. cbn [negb need mbind outcome_bind].
  assert (forall l d, port d.2 = base -> latch d.1 = false ->
    exists d', write_loop fuel d l = Ret d' /\ sent d'.1 = sent d.1 ++ l /\ d'.2 = d.2) as Hloop.
  { induction l as [|b l IH]; intros d0 Hp0 Hl0; cbn [write_loop]; [exists d0; by rewrite app_nil_r|].
    destruct (write_byte_sends fuel d0 b Hp0 Hl0) as (d1 & -> & H1 & H2 & H3); [pose proof (chip_delay d0.1); lia|].
    cbn [mbind outcome_bind]. destruct (IH d1) as (d2 & -> & H4 & H5); [congruence|done|]. exists d2.
    rewrite H4, H1, <- app_assoc, H5, H3. done. }
  destruct (Hloop (take (Z.to_nat size) buf) d Hp Hl) as (d' & -> & H1 & H2). by exists d'.
Qed.

End polled.

(** ** Output through the terminal *)
Section stall.
Context {H : Type} `{!Ports H}.
Variable (N : Z).

Lemma fill_tx_spec l : forall r, ring_ok N r ->
  exists r', fill_tx N r l = Some r' /\ ring_ok N r' /\ contents N r' = take (Z.to_nat N) (contents N r ++ l).
Proof.
  induction l as [|b l IH]; intros r Hr; cbn [fill_tx]; pose proof (length_contents N r) as Hl; pose proof (ok_used _ _ Hr);
    pose proof (used_range r); unfold lenZ in Hl.
  - exists r. rewrite app_nil_r, take_ge by lia. done.
  - destruct (Z.ltb_spec (used r) N).
    + destruct (push_spec N r b Hr) as (r1 & -> & Hr1 & Hc1 & _); [done|]. cbn [mbind option_bind].
      destruct (IH r1 Hr1) as (r2 & -> & Hr2 & Hc2). exists r2. split; [done|]. split; [done|].
      by rewrite Hc2, Hc1, <- app_assoc.
    + exists r. split; [done|]. split; [done|]. rewrite take_app_le, take_ge by lia. done.
Qed.

(** output through the terminal stalls.  The write callback queues what fits, sends the oldest queued byte and
    leaves the rest to the transmit interrupt; but that asks the terminal for the next byte, and a terminal of
    this driver has no [put_char]: the handler reads the interrupt number and changes nothing, so what is queued stays. *)
Theorem uart16550_tty_stalls (d : dev) (t : tty dev) l count :
  ring_ok N (tx d.2) -> interrupt_enabled d.2 = true -> attached d.2 = true -> op_put_char t = None -> 0 < count <= lenZ l ->
  exists b q u, take (Z.to_nat N) (contents N (tx d.2) ++ take (Z.to_nat count) l) = b :: q /\
    uart16550_write_tty N d l count = Some ((outb d.1 (u16 (port d.2 + UART_DATA)) b, u), i32 count) /\
    contents N (tx u) = q /\ attached u = true /\
    forall h fuel lds, Z.land (uart_read_reg (h, u) UART_INT_ID).2 15 = UART_INT_ID_THR_EMPTY ->
      uart16550_interrupt_handler N fuel lds (h, u) t = Ret ((uart_read_reg (h, u) UART_INT_ID).1, t) /\
      (uart_read_reg (h, u) UART_INT_ID).1.2 = u.
Proof.
  intros Hr Hi Ha Hp Hc. unfold uart16550_write_tty. rewrite (proj2 (Z.eqb_neq count 0)), slice_take by lia. cbn [mbind option_bind].
  destruct (fill_tx_spec (take (Z.to_nat count) l) (tx d.2) Hr) as (r & -> & Hok & Hcon). cbn [mbind option_bind fst snd interrupt_enabled set_tx tx].
  assert (exists b q, contents N r = b :: q) as (b & q & Ec).
  { rewrite Hcon. pose proof (ok_size _ _ Hr). destruct (contents N (tx d.2) ++ take (Z.to_nat count) l) as [|b q] eqn:E.
    - apply app_eq_nil in E as [_ E]. apply (f_equal length) in E. unfold lenZ in Hc. rewrite length_take in E. cbn in E. lia.
    - destruct (Z.to_nat N) as [|n] eqn:En; [lia|]. by exists b, (take n q). }
  destruct (Z.eqb_spec (head r) (tail r)) as [E|E]; [apply (empty_iff N) in E; [by rewrite Ec in E|done]|].
  rewrite Hi. cbn [andb negb]. destruct (pop_spec N r b q Hok Ec) as (r' & -> & _ & Hc' & _). cbn [mbind option_bind].
  exists b, q, (set_tx r' (set_tx r d.2)). split; [by rewrite <- Hcon|]. split; [done|]. split; [done|]. split; [done|].
  intros h fuel lds Hid. unfold uart16550_interrupt_handler. unfold uart_read_reg in *. cbn [fst snd] in *.
  destruct (inb h _) as [h' v]. cbn [fst snd] in *. rewrite Hid. cbn [Z.eqb UART_INT_ID_THR_EMPTY UART_INT_ID_DATA_READY].
  change (attached (set_tx r' (set_tx r d.2))) with (attached d.2). rewrite Ha.
  cbn [Pos.eqb need tty_handle_output_interrupt]. rewrite Hp. done.
Qed.

(** the driver cannot be initialised.  With room in the heap for its structure and its terminal, [uart16550_init]
    runs into the [NULL] driver of the terminal. *)
Theorem uart16550_init_null cap (h : H) (s : ttys dev) :
  0 <= N -> heap_wf (heap_pos s) -> heap_pos s + 56 + 2 * N + 16 + 992 <= HEAP_SIZE -> uart16550_init N cap h s = None.
Proof.
  intros HN Hw Hr. unfold uart16550_init.
  destruct (malloc_cases (heap_pos s) (sizeof_uart N) Hw) as [[_ ?]|(hp & -> & Hhp & Hwp)].
  { unfold size_ok, sizeof_uart, HEAP_SIZE in *. destruct Hw. lia. }
  { unfold sizeof_uart in *. lia. }
  match goal with |- context [tty_allocate_driver ?x 1 0] => set (s0 := x) end.
  destruct (tty_allocate_driver s0 1 0) as [[s1 [i|]]|] eqn:E; cbn [mbind option_bind]; [|exfalso|done].
  - unfold tty_register_device. cbn [arena upd_tty].
    pose proof (tty_allocate_driver_null s0 s1 1 0 i ltac:(lia) E) as (t & Ht & Hd).
    rewrite list_lookup_alter_eq, Ht. cbn [fmap option_fmap option_map mbind option_bind driver set_ops]. by rewrite Hd.
  - unfold tty_allocate_driver in E. change (u64 (sizeof_tty * 1)) with 992 in E.
    destruct (malloc_cases (heap_pos s0) 992) as [[_ ?]|(hp2 & Em & _)]; [exact Hwp|unfold size_ok, HEAP_SIZE; lia| |].
    + cbn [heap_pos s0 set_arena] in *. unfold sizeof_uart in *. lia.
    + rewrite Em in E. by destruct (init_lines _ _ _ _).
Qed.

End stall.

(** ** Examples: a chip that needs three polls for each byte *)
Definition chip : Type := bytes * nat.

#[local] Instance chip_ports : Ports chip := {
  inb h p := if p =? 1021 then ((h.1, Nat.pred (Nat.min h.2 3)), if Nat.eqb h.2 0 then 96 else 0) else (h, 2);
  outb h p v := if p =? 1016 then (h.1 ++ [v], 3%nat) else h
}.

#[local] Instance chip_chip : Chip chip 1016.
Proof.
  refine {| sent := fst; thr_empty h := Nat.eqb h.2 0; latch _ := false; delay h := Nat.min h.2 3; delay_bound := 3 |}.
  - intros h. lia.
  - intros [l n].
    change (inb (l, n) (u16 (1016 + UART_LINE_STATUS))) with ((l, Nat.pred (Nat.min n 3)), if Nat.eqb n 0 then 96 else 0).
    split; [done|]. split; [done|]. cbn [snd]. destruct n as [|n]; cbn [Nat.eqb]; [done|]. split; [done|]. intros _. lia.
  - intros h b _ _. done.
Defined.

Definition uart0 : uart :=
  Uart 1016 true (Ring (replicate 16 0) 0 0) (Ring (replicate 16 0) 4294967295 4294967295) 9600 8 1 0 false true 15 0 true.

Lemma uart0_tx : ring_ok 16 (tx uart0).
Proof. split; [done|lia|by exists 268435456|unfold is_u32; cbn; lia..|by vm_compute]. Qed.

Lemma uart16550_write_sends_witness :
  let d : dev := (([1], 2%nat) : chip, uart0) in
  exists d', uart16550_write 4 d 3 (Some [65; 66; 67; 68]) = Ret (d', i32 3) /\
    sent d'.1 = sent d.1 ++ take (Z.to_nat 3) [65; 66; 67; 68] /\ d'.2 = d.2.
Proof.
  intros d. apply (uart16550_write_sends 4 d 3 [65; 66; 67; 68]).
  - reflexivity.
  - reflexivity.
  - reflexivity.
  - cbn. lia.
  - by vm_compute.
Defined.

Lemma uart16550_tty_stalls_witness :
  let t := Tty.Tty 4 0 [116; 0] None None (Some (uart16550_write_tty 16)) None None 0 0 (tx uart0) (tx uart0)
    tty_def_termios (Winsize 24 80 0 0) 0 0 0 true 0 in
  let d : dev (H := chip) := (([], 0%nat), uart0) in
  exists b q u, take (Z.to_nat 16) (contents 16 (tx d.2) ++ take (Z.to_nat 3) [65; 66; 67]) = b :: q /\
    uart16550_write_tty 16 d [65; 66; 67] 3 = Some ((outb d.1 (u16 (port d.2 + UART_DATA)) b, u), i32 3) /\
    contents 16 (tx u) = q /\ attached u = true /\
    forall h fuel lds, Z.land (uart_read_reg (h, u) UART_INT_ID).2 15 = UART_INT_ID_THR_EMPTY ->
      uart16550_interrupt_handler 16 fuel lds (h, u) t = Ret ((uart_read_reg (h, u) UART_INT_ID).1, t) /\
      (uart_read_reg (h, u) UART_INT_ID).1.2 = u.
Proof.
  intros t d. apply (uart16550_tty_stalls 16 d t [65; 66; 67] 3).
  - exact uart0_tx.
  - reflexivity.
  - reflexivity.
  - reflexivity.
  - by vm_compute.
Defined.

Lemma uart16550_init_null_witness :
  uart16550_init 1024 512 (([], 0%nat) : chip) (Ttys [] [] [] [] None [] 0 [] (Device.Registry [] 1) 0) = None.
Proof. apply uart16550_init_null; [lia|done|done]. Defined.

End Uart16550.
