(* ===== verification/Pl011.v ===== *)
(** * The PL011 serial driver: [src/drivers/tty/pl011.c]

    The registers of the chip are memory mapped: the chip is a state [H] with the effect of a
    32-bit read and write at an address.  Otherwise as the 16550 driver. *)
From S2P Require Import Prelude KernelLib Ring Tty.
Import Memory Ring.
Open Scope Z_scope.

Class Mmio (H : Type) := { read32 : H -> Z -> H * Z; write32 : H -> Z -> Z -> H }.

Module Pl011.
Import Tty.

Definition PL011_DR : Z := 0.
Definition PL011_FR : Z := 24.
Definition PL011_IBRD : Z := 36.
Definition PL011_FBRD : Z := 40.
Definition PL011_LCRH : Z := 44.
Definition PL011_CR : Z := 48.
Definition PL011_IMSC : Z := 56.
Definition PL011_MIS : Z := 64.
Definition PL011_ICR : Z := 68.

Definition PL011_FR_RXFE : Z := 16.
Definition PL011_FR_TXFF : Z := 32.
Definition PL011_CR_UARTEN : Z := 1.
Definition PL011_CR_TXE : Z := 256.
Definition PL011_CR_RXE : Z := 512.
Definition PL011_LCRH_PEN : Z := 2.
Definition PL011_LCRH_EPS : Z := 4.
Definition PL011_LCRH_STP2 : Z := 8.
Definition PL011_LCRH_FEN : Z := 16.
Definition PL011_LCRH_WLEN_8 : Z := 96.
Definition PL011_IMSC_RXIM : Z := 16.
Definition PL011_IMSC_TXIM : Z := 32.
Definition PL011_IMSC_RTIM : Z := 64.
(** [PL011_IMSC_FEIM | PL011_IMSC_PEIM | PL011_IMSC_BEIM | PL011_IMSC_OEIM] *)
Definition PL011_IMSC_ERRORS : Z := Z.lor 128 (Z.lor 256 (Z.lor 512 1024)).
(** [PL011_DR_FE | PL011_DR_PE | PL011_DR_BE | PL011_DR_OE] *)
Definition PL011_DR_ERRORS : Z := Z.lor 256 (Z.lor 512 (Z.lor 1024 2048)).
Definition PL011_DR_DATA_MASK : Z := 255.
Definition UART_BUFFER_SIZE : Z := 1024.

Definition TTY_CAP_SOFTWARE_FLOW : Z := 2.
Definition TTY_CAP_HAVE_CTS : Z := 8.
Definition TTY_CAP_HAVE_DSR : Z := 16.
Definition TTY_CAP_HAVE_DCD : Z := 64.
Definition TTY_CAP_HAVE_RTSCTS : Z := 128.

Record pl011_device := Pl011Device {
  base_addr : Z;
  attached : bool;           (* [use_tty] and [tty], set together *)
  rx : ring;
  tx : ring;
  baud_rate : Z;
  data_bits : Z;
  stop_bits : Z;
  parity : Z;
  flow_control : bool;
  dma_enabled : bool;
  interrupt_enabled : bool;
  interrupt_mask : Z;
  capabilities : Z;
  initialized : bool
}.

Definition set_attached u := Pl011Device (base_addr u) true (rx u) (tx u) (baud_rate u) (data_bits u) (stop_bits u) (parity u)
  (flow_control u) (dma_enabled u) (interrupt_enabled u) (interrupt_mask u) (capabilities u) (initialized u).
Definition set_rx r u := Pl011Device (base_addr u) (attached u) r (tx u) (baud_rate u) (data_bits u) (stop_bits u) (parity u)
  (flow_control u) (dma_enabled u) (interrupt_enabled u) (interrupt_mask u) (capabilities u) (initialized u).
Definition set_tx r u := Pl011Device (base_addr u) (attached u) (rx u) r (baud_rate u) (data_bits u) (stop_bits u) (parity u)
  (flow_control u) (dma_enabled u) (interrupt_enabled u) (interrupt_mask u) (capabilities u) (initialized u).
Definition set_format b d s p f u := Pl011Device (base_addr u) (attached u) (rx u) (tx u) b d s p
  f (dma_enabled u) (interrupt_enabled u) (interrupt_mask u) (capabilities u) (initialized u).
Definition set_dma b u := Pl011Device (base_addr u) (attached u) (rx u) (tx u) (baud_rate u) (data_bits u) (stop_bits u) (parity u)
  (flow_control u) b (interrupt_enabled u) (interrupt_mask u) (capabilities u) (initialized u).
Definition set_caps c u := Pl011Device (base_addr u) (attached u) (rx u) (tx u) (baud_rate u) (data_bits u) (stop_bits u) (parity u)
  (flow_control u) (dma_enabled u) (interrupt_enabled u) (interrupt_mask u) c (initialized u).
Definition set_initialized u := Pl011Device (base_addr u) (attached u) (rx u) (tx u) (baud_rate u) (data_bits u) (stop_bits u) (parity u)
  (flow_control u) (dma_enabled u) (interrupt_enabled u) (interrupt_mask u) (capabilities u) true.

(** ** The baud rate divisors.  The computation is in 32 bits; [None] is a division by zero. *)
Definition divisors (baud : Z) : option (Z * Z) :=
  let clock := 24000000 in
  let b := u32 (16 * baud) in
  if b =? 0 then None else Some (clock / b, u32 (clock mod b * 64) / b).

Definition line_control (data stop par : Z) : Z :=
  let lcrh := if data =? 6 then 32 else if data =? 7 then 64 else if data =? 8 then 96 else 0 in
  let lcrh := if stop =? 2 then Z.lor lcrh PL011_LCRH_STP2 else lcrh in
  let lcrh := if negb (par =? 0) then
                let lcrh := Z.lor lcrh PL011_LCRH_PEN in
                if (par =? 79) || (par =? 111) then lcrh else Z.lor lcrh PL011_LCRH_EPS
              else lcrh in
  Z.lor lcrh PL011_LCRH_FEN.

Section driver.
Context {H : Type} `{!Mmio H}.
Variables (TTY_CAP_HARDWARE_SPEED : Z).

Definition dev : Type := H * pl011_device.

Definition pl011_write_reg (d : dev) (reg value : Z) : dev := (write32 d.1 (u64 (base_addr d.2 + reg)) value, d.2).
Definition pl011_read_reg (d : dev) (reg : Z) : dev * Z :=
  let '(h, v) := read32 d.1 (u64 (base_addr d.2 + reg)) in ((h, d.2), v).

Definition pl011_can_transmit (d : dev) : dev * bool :=
  let '(d, v) := pl011_read_reg d PL011_FR in (d, Z.land v PL011_FR_TXFF =? 0).
Definition pl011_has_data (d : dev) : dev * bool :=
  let '(d, v) := pl011_read_reg d PL011_FR in (d, Z.land v PL011_FR_RXFE =? 0).

Fixpoint pl011_write_byte (fuel : nat) (d : dev) (byte : Z) : outcome dev :=
  match fuel with
  | O => More
  | S fuel' =>
      let '(d, ready) := pl011_can_transmit d in
      if negb ready then pl011_write_byte fuel' d byte else Ret (pl011_write_reg d PL011_DR byte)
  end.

Fixpoint pl011_read_byte (fuel : nat) (d : dev) : outcome (dev * Z) :=
  match fuel with
  | O => More
  | S fuel' =>
      let '(d, ready) := pl011_has_data d in
      if negb ready then pl011_read_byte fuel' d
      else let '(d, v) := pl011_read_reg d PL011_DR in Ret (d, Z.land v PL011_DR_DATA_MASK)
  end.

Definition pl011_configure (d : dev) (baud data stop par : Z) (flow : bool) : option dev :=
  '(ibrd, fbrd) ← divisors baud;
  let d := pl011_write_reg d PL011_CR 0 in
  let d := pl011_write_reg d PL011_IBRD ibrd in
  let d := pl011_write_reg d PL011_FBRD fbrd in
  let d := pl011_write_reg d PL011_LCRH (line_control data stop par) in
  let d := (d.1, set_format baud data stop par flow d.2) in
  let d := if interrupt_enabled d.2 then
             let imsc := Z.lor PL011_IMSC_RXIM PL011_IMSC_TXIM in
             pl011_write_reg d PL011_IMSC (if flow then Z.lor imsc PL011_IMSC_RTIM else imsc)
           else d in
  Some (pl011_write_reg d PL011_CR (Z.lor PL011_CR_UARTEN (Z.lor PL011_CR_TXE PL011_CR_RXE))).

Definition pl011_enable_dma (d : dev) : dev := (d.1, set_dma true d.2).
Definition pl011_disable_dma (d : dev) : dev := (d.1, set_dma false d.2).

Definition pl011_detect_capabilities (d : dev) : dev :=
  let caps := Z.lor TTY_CAP_HAVE_CTS (Z.lor TTY_CAP_HAVE_DSR (Z.lor TTY_CAP_HAVE_DCD TTY_CAP_HAVE_RTSCTS)) in
  let '(d, fr) := pl011_read_reg d PL011_FR in
  let caps := if negb (Z.land fr (Z.lor PL011_FR_TXFF PL011_FR_RXFE) =? 0) then Z.lor caps TTY_CAP_HARDWARE_SPEED else caps in
  (d.1, set_caps (Z.lor caps TTY_CAP_SOFTWARE_FLOW) d.2).

(** ** The device operations *)
Fixpoint read_loop (fuel : nat) (d : dev) (buf : bytes) (bytes_read size : Z) : outcome (dev * bytes * Z) :=
  if negb (bytes_read <? size) then Ret (d, buf, bytes_read)
  else
    match fuel with
    | O => More
    | S fuel' =>
        let '(d, stop) := if head (rx d.2) =? tail (rx d.2) then let '(d, ready) := pl011_has_data d in (d, negb ready)
                          else (d, false) in
        if stop : bool then Ret (d, buf, bytes_read)
        else
          d ← (if head (rx d.2) =? tail (rx d.2) then
                 '(d, byte) ← pl011_read_byte fuel' d;
                 r ← need (push UART_BUFFER_SIZE (rx d.2) byte);
                 Ret (d.1, set_rx r d.2)
               else Ret d);
          if negb (head (rx d.2) =? tail (rx d.2)) then
            '(byte, r) ← need (pop UART_BUFFER_SIZE (rx d.2));
            buf ← need (setZ buf bytes_read byte);
            read_loop fuel' (d.1, set_rx r d.2) buf (bytes_read + 1) size
          else read_loop fuel' d buf bytes_read size
    end.

Definition pl011_read (fuel : nat) (d : dev) (size : Z) (buffer : option bytes) : outcome (dev * option bytes * Z) :=
  match buffer with
  | None => Ret (d, None, ERR_INVALID)
  | Some buf =>
      if negb (initialized d.2) then Ret (d, buffer, ERR_INVALID)
      else '(d, buf, n) ← read_loop fuel d buf 0 size; Ret (d, Some buf, i32 n)
  end.

Fixpoint write_loop (fuel : nat) (d : dev) (l : bytes) : outcome dev :=
  match l with [] => Ret d | b :: l' => d ← pl011_write_byte fuel d b; write_loop fuel d l' end.

Definition pl011_write (fuel : nat) (d : dev) (size : Z) (buffer : option bytes) : outcome (dev * Z) :=
  match buffer with
  | None => Ret (d, ERR_INVALID)
  | Some buf =>
      if negb (initialized d.2) then Ret (d, ERR_INVALID)
      else l ← need (slice buf 0 size); d ← write_loop fuel d l; Ret (d, i32 size)
  end.

Definition pl011_ioctl (cmd arg : Z) : Z := ERR_INVALID.

(** ** The callbacks of the terminal *)
Definition pl011_open (d : dev) : option (dev * Z) :=
  d ← pl011_configure (d.1, set_attached d.2) 9600 8 1 0 false;
  Some (pl011_detect_capabilities d, 0).

Fixpoint fill_tx (r : ring) (l : bytes) : option ring :=
  match l with
  | [] => Some r
  | b :: l' => if used r <? UART_BUFFER_SIZE then r ← push UART_BUFFER_SIZE r b; fill_tx r l' else Some r
  end.

Definition pl011_write_tty (d : dev) (buf : bytes) (count : Z) : option (dev * Z) :=
  if count =? 0 then Some (d, ERR_INVALID)
  else
    l ← slice buf 0 count;
    r ← fill_tx (tx d.2) l;
    let d := (d.1, set_tx r d.2) in
    if interrupt_enabled d.2 && negb (head (tx d.2) =? tail (tx d.2)) then
      '(byte, r) ← pop UART_BUFFER_SIZE (tx d.2);
      Some (pl011_write_reg (d.1, set_tx r d.2) PL011_DR byte, i32 count)
    else Some (d, i32 count).

(** No case for code 0: the speed stays [B9600], the number 13. *)
Definition baud_of (code : Z) : Z :=
  default B9600 ([B9600; 50; 75; 110; 134; 150; 200; 300; 600; 1200; 1800; 2400; 4800; 9600; 19200; 38400] !! Z.to_nat code).

Definition pl011_set_termios (d : dev) (tio : termios) : option (dev * Z) :=
  let cf := c_cflag tio in
  let baud := baud_of (Z.land cf 15) in
  let data := 5 + Z.shiftr (Z.land cf 48) 4 in
  let stop := if negb (Z.land cf 64 =? 0) then 2 else 1 in
  let par := if negb (Z.land cf 256 =? 0) then (if negb (Z.land cf 512 =? 0) then 79 else 69) else 0 in
  let flow := negb (Z.land (c_iflag tio) 512 =? 0) || negb (Z.land (c_iflag tio) 2048 =? 0) in
  d ← pl011_configure d baud data stop par flow;
  Some (d, 0).

(** ** Interrupts *)
Fixpoint receive_loop (fuel : nat) (lds : list (ldisc_t dev)) (d : dev) (t : tty dev) : outcome (dev * tty dev) :=
  match fuel with
  | O => More
  | S fuel' =>
      let '(d, ready) := pl011_has_data d in
      if negb ready then Ret (d, t)
      else
        let '(d, dr) := pl011_read_reg d PL011_DR in
        if Z.land dr PL011_DR_ERRORS =? 0 then
          let byte := Z.land dr PL011_DR_DATA_MASK in
          if attached d.2 then
            '(d, t, _) ← need (tty_handle_input_interrupt lds d (Some t) byte);
            t ← need t;
            receive_loop fuel' lds d t
          else
            r ← need (push UART_BUFFER_SIZE (rx d.2) byte);
            receive_loop fuel' lds (d.1, set_rx r d.2) t
        else receive_loop fuel' lds d t
  end.

Definition pl011_interrupt_handler (fuel : nat) (lds : list (ldisc_t dev)) (d : dev) (t : tty dev) : outcome (dev * tty dev) :=
  let '(d, mis) := pl011_read_reg d PL011_MIS in
  '(d, t) ← (if negb (Z.land mis PL011_IMSC_RXIM =? 0) then
               '(d, t) ← receive_loop fuel lds d t; Ret (pl011_write_reg d PL011_ICR PL011_IMSC_RXIM, t)
             else Ret (d, t));
  '(d, t) ← (if negb (Z.land mis PL011_IMSC_TXIM =? 0) then
               '(d, t) ← (if attached d.2 then '(d, t) ← need (tty_handle_output_interrupt d (Some t)); t ← need t; Ret (d, t)
                          else if negb (head (tx d.2) =? tail (tx d.2)) then
                            '(byte, r) ← need (pop UART_BUFFER_SIZE (tx d.2));
                            let d := pl011_write_reg d PL011_DR byte in
                            Ret ((d.1, set_tx r d.2), t)
                          else Ret (d, t));
               Ret (pl011_write_reg d PL011_ICR PL011_IMSC_TXIM, t)
             else Ret (d, t));
  Ret (if negb (Z.land mis PL011_IMSC_ERRORS =? 0) then pl011_write_reg d PL011_ICR PL011_IMSC_ERRORS else d, t).

(** ** Initialisation *)
Definition sizeof_pl011 : Z := 2120.

Definition pl011_init (h : H) (s : ttys dev) : option (option dev * ttys dev) :=
  let '(p, hp) := malloc (heap_pos s) sizeof_pl011 in
  match p with
  | None => Some (None, s)
  | Some _ =>
      let s := set_arena (arena s) (tty_list s) (tty_line_count s) hp s in
      let empty := Ring (replicate 1024 0) 0 0 in
      let d := (h, Pl011Device 150994944 false empty empty 9600 8 1 0 false false true 15 0 false) in
      let d := pl011_write_reg d PL011_CR 0 in
      let d := pl011_write_reg d PL011_IBRD 1 in
      let d := pl011_write_reg d PL011_FBRD 40 in
      let d := pl011_write_reg d PL011_LCRH (Z.lor PL011_LCRH_WLEN_8 PL011_LCRH_FEN) in
      let d := pl011_write_reg d PL011_CR (Z.lor PL011_CR_UARTEN (Z.lor PL011_CR_TXE PL011_CR_RXE)) in
      let d := pl011_detect_capabilities d in
      let d := (d.1, set_initialized d.2) in
      '(s, t) ← tty_allocate_driver s 1 0;
      match t with
      | None => Some (None, s)
      | Some i =>
          let s := upd_tty i (fun t => set_ops (Some pl011_write_tty) (op_put_char t) (Some pl011_set_termios)
                                         (capabilities d.2) t) s in
          '(s, result) ← tty_register_device s (Some i) 0;
          if result <? 0 then Some (None, s) else Some (Some d, s)
      end
  end.

End driver.

(** ** Baud rate and format *)
(** the divisors.  For every baud rate that does not overflow, the integer and the fractional divisor are
    the quotient of the clock and 16 times the rate to 6 binary digits, rounded down, and the fraction fits its 6 bits. *)
Theorem pl011_divisors_correct baud :
  0 < baud < 268435456 ->
  exists i f, divisors baud = Some (i, f) /\ 64 * i + f = 24000000 * 64 / (16 * baud) /\ 0 <= f < 64.
Proof.
  intros Hb. unfold divisors. rewrite u32_id by (red; lia). rewrite (proj2 (Z.eqb_neq _ 0)) by lia. set (b := 16 * baud).
  assert (0 < b) as Hb0 by lia. pose proof (Z.mod_pos_bound 24000000 b Hb0) as Hr. pose proof (Z.mod_le 24000000 b ltac:(lia) Hb0).
  pose proof (Z.div_mod 24000000 b ltac:(lia)) as Hd. rewrite u32_id by (red; lia). eexists _, _. split; [done|]. split.
  - rewrite Hd at 3. replace ((b * (24000000 / b) + 24000000 mod b) * 64) with (64 * (24000000 / b) * b + 24000000 mod b * 64) by lia.
    by rewrite Z.div_add_l by lia.
  - split; [apply Z.div_pos; lia|]. apply Z.div_lt_upper_bound; lia.
Qed.

(** the line format.  The control word says, in the bits the manual gives them, the word length, the number of stop
    bits, whether there is parity and whether it is even, and enables the FIFOs. *)
Theorem pl011_line_control_correct data stop par :
  5 <= data <= 8 ->
  let v := line_control data stop par in
  Z.land (Z.shiftr v 5) 3 = data - 5 /\ Z.testbit v 4 = true /\ Z.testbit v 3 = (stop =? 2) /\
  Z.testbit v 1 = negb (par =? 0) /\ Z.testbit v 2 = negb (par =? 0) && negb ((par =? 79) || (par =? 111)).
Proof.
  intros Hd v. assert (data = 5 \/ data = 6 \/ data = 7 \/ data = 8) as Hc by lia. subst v. unfold line_control.
  destruct (stop =? 2), (par =? 0), ((par =? 79) || (par =? 111)); destruct Hc as [->|[->|[->| ->]]]; by vm_compute.
Qed.

(** ** Reception *)
(** What a PL011 at [base] promises for its receive queue: the flag register says whether it is empty, reading
    the data register takes its head, and reading flags or interrupt state leaves it alone. *)
Class RxChip (H : Type) `{!Mmio H} (base : Z) := {
  fifo : H -> list Z;
  rx_flags h : let '(h', v) := read32 h (u64 (base + PL011_FR)) in
    fifo h' = fifo h /\ (Z.land v PL011_FR_RXFE = 0 <-> fifo h <> []);
  rx_data h w l : fifo h = w :: l -> let '(h', v) := read32 h (u64 (base + PL011_DR)) in v = w /\ fifo h' = l;
  rx_mis h : fifo (read32 h (u64 (base + PL011_MIS))).1 = fifo h
}.

Section reception.
Context {H : Type} `{!Mmio H} {base : Z} `{!RxChip H base}.

(** The bytes of the words received without error *)
Definition good (l : list Z) : bytes :=
  (fun w => Z.land w PL011_DR_DATA_MASK) <$> filter (fun w => Z.land w PL011_DR_ERRORS = 0) l.

Lemma receive_loop_spec lds fuel : forall (d : dev) (t : tty dev),
  base_addr d.2 = base -> attached d.2 = true -> op_put_char t = None -> ring_ok 256 (input t) -> calm lds t ->
  (length (fifo d.1) < fuel)%nat ->
  exists d' t', receive_loop fuel lds d t = Ret (d', t') /\ fifo d'.1 = [] /\ d'.2 = d.2 /\ output t' = output t /\
    op_put_char t' = None /\ contents 256 (input t') = take 256 (contents 256 (input t) ++ good (fifo d.1)).
Proof.
  induction fuel as [|fuel IH]; intros [h u] t Hb Ha Hp Hr Hc Hf; [lia|]. cbn [fst snd] in *. cbn [receive_loop].
  unfold pl011_has_data, pl011_read_reg. cbn [fst snd]. rewrite Hb. pose proof (rx_flags h) as Hfl.
  destruct (read32 h _) as [h1 v]. destruct Hfl as [Hf1 Hf2]. destruct (fifo h) as [|w l] eqn:Ef.
  - destruct (Z.eqb_spec (Z.land v PL011_FR_RXFE) 0) as [E|E]; [by apply Hf2 in E|]. cbn [negb].
    exists (h1, u), t. split; [done|]. split; [done|]. split; [done|]. split; [done|]. split; [done|].
    cbn. rewrite app_nil_r, take_ge; [done|]. pose proof (length_contents 256 (input t)). pose proof (ok_used _ _ Hr). unfold lenZ in *. lia.
  - rewrite (proj2 (Z.eqb_eq _ 0)) by by apply Hf2. cbn [negb fst snd]. rewrite Hb. pose proof (rx_data h1 w l Hf1) as Hdr.
    destruct (read32 h1 _) as [h2 v2]. destruct Hdr as [-> Hf3]. cbn [length] in Hf. cbn [fst snd].
    destruct (Z.eqb_spec (Z.land w PL011_DR_ERRORS) 0) as [E|E].
    + rewrite Ha. destruct (input_step lds (h2, u) t (Z.land w PL011_DR_DATA_MASK) Hr Hc)
        as (w' & t1 & sig & -> & Hr1 & Hc1 & Hcon & Ho & Hw & Hp1 & _). rewrite (Hw Hp). cbn [need mbind outcome_bind].
      destruct (IH (h2, u) t1) as (d' & t' & -> & H1 & H2 & H3 & H4 & H5); cbn [fst snd]; try done; [congruence|rewrite Hf3; lia|].
      exists d', t'. split; [done|]. split; [done|]. split; [done|]. split; [congruence|]. split; [done|].
      rewrite H5, Hcon, take_take_app, <- app_assoc. cbn [fst]. rewrite Hf3. unfold good. by rewrite filter_cons_True.
    + destruct (IH (h2, u) t) as (d' & t' & -> & H1 & H2 & H3 & H4 & H5); cbn [fst snd]; try done; [rewrite Hf3; lia|].
      exists d', t'. split; [done|]. split; [done|]. split; [done|]. split; [done|]. split; [done|].
      rewrite H5. cbn [fst]. rewrite Hf3. unfold good. by rewrite filter_cons_False.
Qed.

(** C30: reception.  A receive interrupt of the driver of an opened terminal empties the receive queue of the chip
    and ends; the bytes received without error are added to the input queue of the terminal in order, up to its capacity,
    and the others are dropped. *)
Theorem pl011_receive_delivers lds fuel (d : dev) (t : tty dev) :
  base_addr d.2 = base -> attached d.2 = true -> op_put_char t = None -> ring_ok 256 (input t) -> calm lds t ->
  (pl011_read_reg d PL011_MIS).2 = PL011_IMSC_RXIM -> (length (fifo d.1) < fuel)%nat ->
  exists d1 t', pl011_interrupt_handler fuel lds d t = Ret (pl011_write_reg d1 PL011_ICR PL011_IMSC_RXIM, t') /\
    fifo d1.1 = [] /\ d1.2 = d.2 /\ output t' = output t /\
    contents 256 (input t') = take 256 (contents 256 (input t) ++ good (fifo d.1)).
Proof.
  intros Hb Ha Hp Hr Hc Hm Hf. unfold pl011_interrupt_handler. pose proof (rx_mis d.1) as Hf1. destruct d as [h u]. cbn [fst snd] in *.
  unfold pl011_read_reg in *. cbn [fst snd] in *. rewrite Hb in *. destruct (read32 h _) as [h1 v]. cbn [fst snd] in *. subst v.
  destruct (receive_loop_spec lds fuel (h1, u) t) as (d1 & t' & E & H1 & H2 & H3 & _ & H5); cbn [fst snd]; try done; [by rewrite Hf1|].
  change (Z.land PL011_IMSC_RXIM PL011_IMSC_RXIM =? 0) with false. cbn [negb]. rewrite E. cbn [mbind outcome_bind].
  change (Z.land PL011_IMSC_RXIM PL011_IMSC_TXIM =? 0) with true. change (Z.land PL011_IMSC_RXIM PL011_IMSC_ERRORS =? 0) with true.
  cbn [negb mbind outcome_bind]. exists d1, t'. split; [done|]. cbn [fst] in H5. rewrite Hf1 in H5. done.
Qed.

End reception.

(** ** Examples: a chip that is its receive queue *)
Definition chip : Type := list Z.

#[local] Instance chip_mmio : Mmio chip := {
  read32 h a := if a =? 150994944 + 24 then (h, if decide (h = []) then 16 else 0)
                else if a =? 150994944 then match h with [] => (h, 0) | w :: l => (l, w) end
                else (h, 16);
  write32 h a v := h
}.

#[local] Instance chip_rx : RxChip chip 150994944.
Proof.
  refine {| fifo h := h |}.
  - intros h. change (read32 h (u64 (150994944 + PL011_FR))) with (h, if decide (h = []) then 16 else 0).
    split; [done|]. destruct (decide (h = [])); split; done.
  - intros h w l ->. done.
  - intros h. done.
Defined.

Lemma pl011_divisors_correct_witness :
  exists i f, divisors 115200 = Some (i, f) /\ 64 * i + f = 24000000 * 64 / (16 * 115200) /\ 0 <= f < 64.
Proof. apply (pl011_divisors_correct 115200). lia. Defined.

Lemma pl011_line_control_correct_witness :
  let v := line_control 7 2 69 in
  Z.land (Z.shiftr v 5) 3 = 7 - 5 /\ Z.testbit v 4 = true /\ Z.testbit v 3 = (2 =? 2) /\
  Z.testbit v 1 = negb (69 =? 0) /\ Z.testbit v 2 = negb (69 =? 0) && negb ((69 =? 79) || (69 =? 111)).
Proof. apply (pl011_line_control_correct 7 2 69). lia. Defined.

Definition dev0 : dev :=
  ([65; 322; 67] : chip, Pl011Device 150994944 true wrap_ring wrap_ring 9600 8 1 0 false false true 15 0 true).
Definition term0 : tty (dev (H := chip)) :=
  Tty.Tty 4 0 [116; 0] None None (Some pl011_write_tty) None None 0 0 wrap_ring wrap_ring
    tty_def_termios (Winsize 24 80 0 0) 0 0 0 true 0.

Lemma pl011_receive_delivers_witness :
  exists d1 t', pl011_interrupt_handler 4 [] dev0 term0 = Ret (pl011_write_reg d1 PL011_ICR PL011_IMSC_RXIM, t') /\
    fifo d1.1 = [] /\ d1.2 = dev0.2 /\ output t' = output term0 /\
    contents 256 (input t') = take 256 (contents 256 (input term0) ++ good (fifo dev0.1)).
Proof.
  apply (pl011_receive_delivers [] 4 dev0 term0).
  - reflexivity.
  - reflexivity.
  - reflexivity.
  - exact wrap_ring_ok.
  - split; [by left|]. split; [by left|]. by vm_compute.
  - reflexivity.
  - cbn. lia.
Defined.

End Pl011.
