(* ===== verification/Console.v ===== *)
(** * The text console: [src/lib_core/console.c]

    The screen is the 2000 cells of the VGA text buffer; [None] is an access outside them or
    outside a digit buffer. *)
From S2P Require Import Prelude.
Open Scope Z_scope.

Module Console.

Definition VGA_WIDTH : Z := 80.
Definition VGA_HEIGHT : Z := 25.
Definition VGA_COLOR_BLACK : Z := 0.
Definition VGA_COLOR_LIGHT_GREY : Z := 7.

Record console := Cons { vga_buffer : list Z; vga_row : Z; vga_column : Z }.

Definition vga_entry (ch color : Z) : Z := Z.lor (u8 ch) (u16 (Z.shiftl (u16 color) 8)).

Definition newline (c : console) : console :=
  let row := u32 (vga_row c + 1) in
  if VGA_HEIGHT <=? row then Cons (vga_buffer c) 0 0 else Cons (vga_buffer c) row 0.

Definition console_putchar (c : console) (ch : Z) : option console :=
  if ch =? 10 then Some (newline c)
  else if ch =? 13 then Some (Cons (vga_buffer c) (vga_row c) 0)
  else
    let c := if VGA_WIDTH <=? vga_column c then newline c else c in
    b ← setZ (vga_buffer c) (u32 (vga_row c * VGA_WIDTH + vga_column c)) (vga_entry ch VGA_COLOR_LIGHT_GREY);
    Some (Cons b (vga_row c) (u32 (vga_column c + 1))).

(** The two loops of [console_clear] write every cell once. *)
Fixpoint clear_row (n : nat) (b : list Z) (i j : Z) : option (list Z) :=
  match n with
  | O => Some b
  | S n' => b ← setZ b (u32 (i * VGA_WIDTH + j)) (vga_entry 32 VGA_COLOR_BLACK); clear_row n' b i (j + 1)
  end.

Fixpoint clear_rows (n : nat) (b : list Z) (i : Z) : option (list Z) :=
  match n with O => Some b | S n' => b ← clear_row (Z.to_nat VGA_WIDTH) b i 0; clear_rows n' b (i + 1) end.

Definition console_clear (c : console) : option console :=
  b ← clear_rows (Z.to_nat VGA_HEIGHT) (vga_buffer c) 0; Some (Cons b 0 0).

Fixpoint console_print (c : console) (str : bytes) : option console :=
  match str with
  | [] => None
  | ch :: str' => if ch =? 0 then Some c else c ← console_putchar c ch; console_print c str'
  end.

(** The characters put out one after the other *)
Fixpoint put_all (c : console) (l : bytes) : option console :=
  match l with [] => Some c | ch :: l' => c ← console_putchar c ch; put_all c l' end.

(** The digit loop: [buffer] has room for 32 characters, [n] of which are left. *)
Fixpoint digits (n : nat) (base : Z) (char : Z -> Z) (num : Z) : option bytes :=
  if num <=? 0 then Some []
  else
    match n with
    | O => None
    | S n' => l ← digits n' base char (num / base); Some (char (num mod base) :: l)
    end.

(** [0123456789ABCDEF] *)
Definition hex_char (d : Z) : Z := if d <? 10 then 48 + d else 55 + d.
Definition dec_char (d : Z) : Z := 48 + d.

(** The loop after it puts them out last first. *)
Definition print_number (base : Z) (char : Z -> Z) (c : console) (num : Z) : option console :=
  if num =? 0 then console_print c [48; 0] else l ← digits 32 base char num; put_all c (reverse l).

Definition console_print_hex (c : console) (num : Z) : option console := print_number 16 hex_char c num.
Definition console_print_dec (c : console) (num : Z) : option console := print_number 10 dec_char c num.

(** ** The console as a sequence of characters

    The users of the console are modelled by the characters they hand to it: what
    [console_print] and the number printers put out, one character after the other. *)
Fixpoint chars (str : bytes) : option bytes :=
  match str with
  | [] => None
  | ch :: str' => if ch =? 0 then Some [] else l ← chars str'; Some (ch :: l)
  end.

Definition number_text (base : Z) (char : Z -> Z) (num : Z) : option bytes :=
  if num =? 0 then Some [48] else l ← digits 32 base char num; Some (reverse l).
Definition hex_text : Z -> option bytes := number_text 16 hex_char.
Definition dec_text : Z -> option bytes := number_text 10 dec_char.

Lemma chars_spec l rest : Forall (fun ch => ch <> 0) l -> chars (l ++ 0 :: rest) = Some l.
Proof. induction 1 as [|c l Hc _ IH]; [done|]. cbn. rewrite (proj2 (Z.eqb_neq c 0)) by done. by rewrite IH. Qed.

Lemma print_chars str l : chars str = Some l -> forall c, console_print c str = put_all c l.
Proof.
  revert l. induction str as [|ch str IH]; intros l; cbn [chars console_print]; [done|].
  destruct (ch =? 0); [by intros [= <-]|]. destruct (chars str) as [l'|]; [|done]. cbn. intros [= <-] c. cbn [put_all].
  destruct (console_putchar c ch); cbn; [by apply IH|done].
Qed.

Lemma print_number_text base char num l c : number_text base char num = Some l -> print_number base char c num = put_all c l.
Proof.
  unfold number_text, print_number. destruct (num =? 0); [intros [= <-]; by apply (print_chars [48; 0])|].
  destruct (digits 32 base char num) as [l'|]; [|done]. by intros [= <-].
Qed.

(** ** The cursor

    Column 80 is the state after the last cell of a row was written: the line is broken
    only when the next character comes ([vga_column >= VGA_WIDTH] in [console_putchar]). *)
Definition on_screen (c : console) : Prop :=
  lenZ (vga_buffer c) = 2000 /\ 0 <= vga_row c < 25 /\ 0 <= vga_column c <= 80.

Lemma newline_ok c : on_screen c -> on_screen (newline c) /\ vga_column (newline c) = 0.
Proof.
  intros (Hl & Hr & Hc). unfold newline, on_screen, VGA_HEIGHT. rewrite u32_id by (red; lia).
  destruct (Z.leb_spec 25 (vga_row c + 1)); cbn; lia.
Qed.

Lemma putchar_ok c ch : on_screen c -> exists c', console_putchar c ch = Some c' /\ on_screen c'.
Proof.
  intros Hs. unfold console_putchar. destruct (newline_ok c Hs) as [Hn Hn0]. destruct (ch =? 10); [by eexists|].
  destruct (ch =? 13); [eexists; split; [done|]; destruct Hs as (? & ? & ?); unfold on_screen; cbn; lia|].
  assert (on_screen (if VGA_WIDTH <=? vga_column c then newline c else c) /\
    vga_column (if VGA_WIDTH <=? vga_column c then newline c else c) < 80) as [(Hl & Hr & Hc) Hlt].
  { unfold VGA_WIDTH. destruct (Z.leb_spec 80 (vga_column c)); [split; [done|lia]|done]. }
  set (c1 := if VGA_WIDTH <=? vga_column c then newline c else c) in *. unfold VGA_WIDTH. rewrite !u32_id by (red; lia).
  rewrite setZ_Some by lia. eexists. split; [done|]. unfold on_screen. cbn. rewrite lenZ_insert. lia.
Qed.

Lemma put_all_ok l : forall c, on_screen c -> exists c', put_all c l = Some c' /\ on_screen c'.
Proof.
  induction l as [|ch l IH]; intros c Hc; cbn [put_all]; [by exists c|].
  destruct (putchar_ok c ch Hc) as (c1 & -> & H1). by apply IH.
Qed.

Lemma print_put_all l : forall c rest, Forall (fun ch => ch <> 0) l -> console_print c (l ++ 0 :: rest) = put_all c l.
Proof.
  induction l as [|ch l IH]; intros c rest Hl; cbn [app console_print put_all]; [done|].
  apply list.Forall_cons in Hl as [Hch Hl]. rewrite (proj2 (Z.eqb_neq ch 0)) by done.
  destruct (console_putchar c ch); cbn; [by apply IH|done].
Qed.

(** ** Numbers *)
Definition value (base : Z) (l : list Z) : Z := foldl (fun a d => a * base + d) 0 l.

Lemma value_snoc base l d : value base (l ++ [d]) = value base l * base + d.
Proof. unfold value. by rewrite foldl_app. Qed.

Lemma digits_spec base char n : 1 < base -> forall num, 0 <= num < base ^ Z.of_nat n ->
  exists l, digits n base char num = Some (char <$> l) /\ value base (reverse l) = num /\ Forall (fun d => 0 <= d < base) l /\
    list.last l <> Some 0.
Proof.
  intros Hb. induction n as [|n IH]; intros num Hn; cbn [digits].
  - change (base ^ Z.of_nat 0) with 1 in Hn. rewrite (proj2 (Z.leb_le num 0)) by lia. exists []. cbn. split; [done|]. split; [lia|done].
  - destruct (Z.leb_spec num 0); [exists []; cbn; split; [done|]; split; [lia|done]|].
    rewrite Nat2Z.inj_succ, Z.pow_succ_r in Hn by lia.
    destruct (IH (num / base)) as (l & -> & Hv & Hd & Hz); [split; [apply Z.div_pos; lia|apply Z.div_lt_upper_bound; lia]|].
    exists (num mod base :: l). split; [done|]. rewrite reverse_cons, value_snoc, Hv.
    pose proof (Z.mod_pos_bound num base ltac:(lia)). pose proof (Z.div_mod num base ltac:(lia)).
    split; [lia|]. split; [by constructor|]. rewrite last_cons. destruct (list.last l) as [x|] eqn:E; [done|].
    apply last_None in E as ->. cbn in Hv. intros [=]. lia.
Qed.

Lemma print_number_spec base char c num : on_screen c -> is_u64 num -> 9 < base -> char 0 = 48 ->
  exists l c', print_number base char c num = put_all c (char <$> l) /\ print_number base char c num = Some c' /\ on_screen c' /\
    value base l = num /\ Forall (fun d => 0 <= d < base) l /\ (list.head l = Some 0 -> num = 0).
Proof.
  intros Hs Hn Hb H0. unfold print_number. destruct (Z.eqb_spec num 0) as [->|Hz].
  - exists [0]. destruct (put_all_ok [48] c Hs) as (c' & E & Hc'). exists c'. change [48; 0] with ([48] ++ 0 :: []). rewrite print_put_all by by repeat constructor.
    cbn [fmap list_fmap]. rewrite H0. split; [done|]. split; [done|]. split; [done|]. split; [done|]. split; [|done]. constructor; [lia|constructor].
  - destruct (digits_spec base char 32 ltac:(lia) num) as (l & -> & Hv & Hd & Hl).
    { split; [apply Hn|]. apply Z.lt_le_trans with (9 ^ 32); [destruct Hn; change (9 ^ 32) with 3433683820292512484657849089281; lia|].
      change (Z.of_nat 32) with 32. apply Z.pow_le_mono_l. lia. }
    cbn [mbind option_bind]. exists (reverse l). destruct (put_all_ok (reverse (char <$> l)) c Hs) as (c' & E & Hc').
    exists c'. rewrite <- fmap_reverse in *. split; [done|]. split; [done|]. split; [done|]. split; [done|].
    split; [by rewrite reverse_Permutation|]. intros Hh. by rewrite head_reverse in Hh.
Qed.

(** printing a number.  On a console with its cursor on the screen, [console_print_dec] and [console_print_hex] succeed for
    every 64-bit number: they put out the characters of digits whose value in base 10 or 16 is the number, without a leading
    zero, and the cursor stays on the screen. *)
Theorem console_print_number c num :
  on_screen c -> is_u64 num ->
  (exists l c', console_print_dec c num = put_all c (dec_char <$> l) /\ console_print_dec c num = Some c' /\ on_screen c' /\
     value 10 l = num /\ Forall (fun d => 0 <= d < 10) l /\ (list.head l = Some 0 -> num = 0)) /\
  (exists l c', console_print_hex c num = put_all c (hex_char <$> l) /\ console_print_hex c num = Some c' /\ on_screen c' /\
     value 16 l = num /\ Forall (fun d => 0 <= d < 16) l /\ (list.head l = Some 0 -> num = 0)).
Proof. intros Hs Hn. split; [apply (print_number_spec 10 dec_char)|apply (print_number_spec 16 hex_char)]; done || lia. Qed.

Lemma console_print_number_witness :
  let c := Cons (replicate 2000 0) 24 79 in
  (exists l c', console_print_dec c 1234 = put_all c (dec_char <$> l) /\ console_print_dec c 1234 = Some c' /\ on_screen c' /\
     value 10 l = 1234 /\ Forall (fun d => 0 <= d < 10) l /\ (list.head l = Some 0 -> 1234 = 0)) /\
  (exists l c', console_print_hex c 1234 = put_all c (hex_char <$> l) /\ console_print_hex c 1234 = Some c' /\ on_screen c' /\
     value 16 l = 1234 /\ Forall (fun d => 0 <= d < 16) l /\ (list.head l = Some 0 -> 1234 = 0)).
Proof.
  intros c. apply (console_print_number c 1234); [|red; lia]. split; [apply lenZ_replicate|]. cbn. lia.
Defined.

(** ** The whole interface *)
Inductive op := Clear | Putchar (ch : Z) | Puts (str : bytes) | Hex (num : Z) | Dec (num : Z).

Definition run_op (c : console) (o : op) : option console :=
  match o with
  | Clear => console_clear c
  | Putchar ch => console_putchar c ch
  | Puts str => console_print c str
  | Hex num => console_print_hex c num
  | Dec num => console_print_dec c num
  end.

Fixpoint run_ops (c : console) (l : list op) : option console :=
  match l with [] => Some c | o :: l' => c ← run_op c o; run_ops c l' end.

(** The arguments a caller can pass: strings that end, and 64-bit numbers *)
Definition arguments (o : op) : Prop :=
  match o with Puts str => 0 ∈ str | Hex num | Dec num => is_u64 num | _ => True end.

(** The types of the static variables: 2000 cells of 16 bits, and a cursor on the screen *)
Definition typed (c : console) : Prop := on_screen c /\ Forall is_u16 (vga_buffer c).

Lemma vga_entry_u16 ch color : is_u16 (vga_entry ch color).
Proof.
  unfold vga_entry. pose proof (u16_range (Z.shiftl (u16 color) 8)) as H1. pose proof (u8_range ch) as H2.
  split; [apply Z.lor_nonneg; unfold_ints; lia|].
  destruct (Z.eq_dec (Z.lor (u8 ch) (u16 (Z.shiftl (u16 color) 8))) 0) as [->|Hz]; [lia|].
  assert (0 <= Z.lor (u8 ch) (u16 (Z.shiftl (u16 color) 8))) by (apply Z.lor_nonneg; unfold_ints; lia).
  change 65536 with (2 ^ 16). apply Z.log2_lt_pow2; [lia|]. rewrite Z.log2_lor by (unfold_ints; lia).
  apply Z.max_lub_lt; apply Z.le_lt_trans with (Z.log2 65535); try (apply Z.log2_le_mono; unfold_ints; lia); by vm_compute.
Qed.

Lemma putchar_typed c ch : typed c -> exists c', console_putchar c ch = Some c' /\ typed c'.
Proof.
  intros [Hs Hu]. destruct (putchar_ok c ch Hs) as (c' & E & Hs'). exists c'. split; [done|]. split; [done|]. revert E.
  assert (Forall is_u16 (vga_buffer (newline c))) as Hn by (unfold newline; by case_match).
  unfold console_putchar. destruct (ch =? 10); [by intros [= <-]|]. destruct (ch =? 13); [by intros [= <-]|].
  destruct (setZ _ _ _) as [b|] eqn:E; [|done]. intros [= <-]. apply setZ_inv in E as [_ ->]. cbn [vga_buffer].
  apply Forall_insert; [by destruct (VGA_WIDTH <=? vga_column c)|apply vga_entry_u16].
Qed.

Lemma put_all_typed l : forall c, typed c -> exists c', put_all c l = Some c' /\ typed c'.
Proof.
  induction l as [|ch l IH]; intros c Hc; cbn [put_all]; [by exists c|]. destruct (putchar_typed c ch Hc) as (c1 & -> & H1). by apply IH.
Qed.

Lemma clear_row_typed n i : 0 <= i < 25 -> forall b j, 0 <= j -> j + Z.of_nat n <= 80 -> lenZ b = 2000 -> Forall is_u16 b ->
  exists b', clear_row n b i j = Some b' /\ lenZ b' = 2000 /\ Forall is_u16 b'.
Proof.
  intros Hi. induction n as [|n IH]; intros b j Hj Hn Hb Hu; cbn [clear_row]; [by exists b|].
  unfold VGA_WIDTH. rewrite u32_id by (red; lia). rewrite setZ_Some by lia. cbn [mbind option_bind].
  apply IH; [lia|lia|by rewrite lenZ_insert|]. apply Forall_insert; [done|apply vga_entry_u16].
Qed.

Lemma clear_rows_typed n : forall b i, 0 <= i -> i + Z.of_nat n <= 25 -> lenZ b = 2000 -> Forall is_u16 b ->
  exists b', clear_rows n b i = Some b' /\ lenZ b' = 2000 /\ Forall is_u16 b'.
Proof.
  induction n as [|n IH]; intros b i Hi Hn Hb Hu; cbn [clear_rows]; [by exists b|].
  destruct (clear_row_typed (Z.to_nat VGA_WIDTH) i ltac:(lia) b 0) as (b1 & -> & H1 & H2); [lia|done|done|done|]. apply IH; [lia|lia|done|done].
Qed.

Lemma run_op_typed o c : typed c -> arguments o -> exists c', run_op c o = Some c' /\ typed c'.
Proof.
  intros Hc. destruct o as [|ch|str|num|num]; cbn [run_op arguments]; intros Ha.
  - unfold console_clear. destruct Hc as [(Hl & _) Hu]. destruct (clear_rows_typed (Z.to_nat VGA_HEIGHT) (vga_buffer c) 0) as (b & -> & H1 & H2); [lia|done|done|done|].
    eexists. split; [done|]. split; [|done]. split; [done|]. cbn. lia.
  - by apply putchar_typed.
  - assert (exists l, chars str = Some l) as [l El].
    { clear -Ha. induction str as [|x str IH]; [by apply not_elem_of_nil in Ha|]. cbn. destruct (Z.eqb_spec x 0) as [->|Hx]; [by eexists|].
      apply elem_of_cons in Ha as [Ha|Ha]; [by destruct Hx|]. destruct (IH Ha) as [l ->]. by eexists. }
    rewrite (print_chars str l El c). by apply put_all_typed.
  - destruct (print_number_spec 16 hex_char c num) as (l & c' & E & _); [apply Hc|done|done|done|]. unfold console_print_hex. rewrite E. by apply put_all_typed.
  - destruct (print_number_spec 10 dec_char c num) as (l & c' & E & _); [apply Hc|done|done|done|]. unfold console_print_dec. rewrite E. by apply put_all_typed.
Qed.

(** C36: the console is type safe.  Every sequence of calls, with strings that end and 64-bit numbers, succeeds from a console
    whose cursor is on the screen: no access leaves the 2000 cells of the text buffer or a digit buffer, every cell still holds
    16 bits and the cursor is on the screen again. *)
Theorem console_ops_typed l : forall c, typed c -> Forall arguments l -> exists c', run_ops c l = Some c' /\ typed c'.
Proof.
  induction l as [|o l IH]; intros c Hc Hl; cbn [run_ops]; [by exists c|]. apply list.Forall_cons in Hl as [Ho Hl].
  destruct (run_op_typed o c Hc Ho) as (c1 & -> & H1). by apply IH.
Qed.

Lemma console_ops_typed_witness :
  let c := Cons (replicate 2000 0) 24 79 in
  exists c', run_ops c [Putchar 72; Puts [105; 10; 0]; Hex 48879; Clear; Dec 18446744073709551615] = Some c' /\ typed c'.
Proof.
  intros c. apply (console_ops_typed _ c).
  - split; [split; [apply lenZ_replicate|]; cbn; lia|]. apply Forall_replicate. red; lia.
  - repeat (apply list.Forall_cons; split; [|]); cbn; try (red; lia); try done. apply list_elem_of_lookup. by exists 2%nat.
Defined.

End Console.
