(* ===== verification/Ext2Demo.v ===== *)
(** * The ext2 demonstrations: [src/fs/ext2_demo.c]

    What the demonstrations do to the mounted file system, and the characters they print.  [console_putc], which the
    source calls and does not define, is a parameter: the characters it puts out for one. *)
From Stdlib Require Import String.
From S2P Require Import Prelude KernelLib Console BlockDev BlockCache Ext2Base Ext2Alloc Ext2Inode Ext2File Ext2Write Ext2Mount Ext2Dir Ext2DirProofs Ext2Image Ext2Readdir.
Import Memory CString Chain.
Open Scope list_scope.
Open Scope Z_scope.
Open Scope ext2_scope.

Module Demo.

Section demo.
Context {C : Type} {B : BlockStore C} (now : Z) (stack_buffer : bytes).
Context (console_putc : Z -> bytes) (block_cache_stats : C -> option (Z * Z)).
Abbreviation FS := (ext2_fs C).

(** The state of a demonstration: the file system and what was printed *)
Abbreviation D := (M (FS * bytes)).

Definition put (l : bytes) : D unit := upd_obj (fun o => Some (o ++ l)).
Definition say (t : string) : D unit := put (str t).
Definition endl : D unit := put [10].
Definition console_print_dec (n : Z) : D unit := let* l := lft (Console.dec_text n) in put l.

Definition cname (t : string) : bytes := str t ++ [0].
Definition ROOT_INO : Z := 2.

Definition create_file : D unit :=
  let* r := on_fs (try (ext2_create now ROOT_INO (cname "test.txt") 420)) in
  match r with
  | inl e => say "  Failed to create file: ";;; console_print_dec (u64 e);;; endl
  | inr file_ino =>
      say "  File created with inode: ";;; console_print_dec file_ino;;; endl;;;
      let* r := on_fs (try (ext2_read_inode now file_ino)) in
      match r with
      | inl _ => say "  Failed to read inode";;; endl
      | inr inode =>
          let data := str "Hello from ext2 filesystem!" ++ [10; 0] in
          let* data_len := lft (strlen data) in
          let* p := on_fs (with_obj inode (ext2_write_file now 0 data_len data)) in
          match p with
          | (_, inl _) => say "  Failed to write to file";;; endl
          | (inode, inr result) =>
              say "  Wrote ";;; console_print_dec (u64 result);;; say " bytes to file";;; endl;;;
              on_fs (try (ext2_write_inode now file_ino inode));;;
              let* size := lft (getf inode 0 i_size) in
              say "  File size: ";;; console_print_dec size;;; say " bytes";;; endl
          end
      end
  end.

(** [buffer] is the array of 256 characters on the stack. *)
Definition read_file (buffer : bytes) : D unit :=
  let* r := on_fs (try (ext2_lookup now ROOT_INO (cname "test.txt"))) in
  match r with
  | inl _ => say "  File not found";;; endl
  | inr file_ino =>
      say "  Found file with inode: ";;; console_print_dec file_ino;;; endl;;;
      let* r := on_fs (try (ext2_read_inode now file_ino)) in
      match r with
      | inl _ => say "  Failed to read inode";;; endl
      | inr inode =>
          let* size := lft (getf inode 0 i_size) in
          say "  File size: ";;; console_print_dec size;;; say " bytes";;; endl;;;
          let* p := on_fs (with_obj buffer (ext2_read_file now inode 0 size)) in
          match p with
          | (_, inl _) => say "  Failed to read file";;; endl
          | (buffer, inr result) =>
              let* buffer := lft (setZ buffer result 0) in
              say "  File content: ";;;
              let* l := lft (Console.chars buffer) in put l
          end
      end
  end.

Definition printable (c : Z) : bool := (32 <=? c) && (c <=? 126).

(** The characters of a name that the loop over [entry.name] puts out *)
Definition name_text (name : bytes) : bytes := concat (console_putc <$> filter (fun c => printable c = true) name).

Definition entry_line (entry : bytes) : D unit :=
  let* inode := lft (getf entry 0 de_inode) in
  let* name_len := lft (getf entry 0 de_name_len) in
  let* file_type := lft (getf entry 0 de_file_type) in
  let* name := lft (slice entry (f_off de_name) (Z.min name_len 255)) in
  say "  ";;; console_print_dec inode;;; say ": ";;; put (name_text name);;;
  say " (type=";;; console_print_dec file_type;;; say ")";;; endl.

(** The loop [while (1)]; it gives the number of entries. *)
Fixpoint list_loop (fuel : nat) (index : Z) : D Z :=
  match fuel with
  | O => lft None
  | S fuel' =>
      let* r := on_fs (try (ext2_readdir now ROOT_INO index)) in
      match r with
      | inl _ => ret index
      | inr entry => entry_line entry;;; list_loop fuel' (u64 (index + 1))
      end
  end.

Definition list_dir (fuel : nat) : D unit :=
  let* index := list_loop fuel 0 in
  say "  Total entries: ";;; console_print_dec index;;; endl.

Definition create_dir : D unit :=
  let* r := on_fs (try (ext2_mkdir now ROOT_INO (cname "mydir") 493)) in
  match r with
  | inl e => say "  Failed to create directory: ";;; console_print_dec (u64 e);;; endl
  | inr dir_ino => say "  Directory created with inode: ";;; console_print_dec dir_ino;;; endl
  end.

Definition cache_stats : D unit :=
  let* c := on_fs (gets block_device) in
  let* p := lft (block_cache_stats c) in
  let '(hits, misses) := p in
  say "  Cache hits: ";;; console_print_dec hits;;; endl;;;
  say "  Cache misses: ";;; console_print_dec misses;;; endl;;;
  if 0 <? u64 (hits + misses) then
    say "  Hit rate: ";;; console_print_dec (u64 (hits * 100) / u64 (hits + misses));;; say "%";;; endl
  else ret tt.

(** A demonstration: its title, and its body when a file system is mounted.  [g_ext2_fs] is what [ext2_get_instance] returns. *)
Abbreviation world := (option FS * bytes)%type.

Definition demo (title : string) (body : D unit) (w : world) : option world :=
  let '(g_ext2_fs, o) := w in
  let o := o ++ 10 :: str title ++ [10] in
  match g_ext2_fs with
  | None => Some (None, o ++ str "  ext2 filesystem not mounted" ++ [10])
  | Some fs => '((fs, o), _) ← body (fs, o); Some (Some fs, o)
  end.

Definition ext2_demo_create_file : world -> option world := demo "=== ext2 Demo: Create File ===" create_file.
Definition ext2_demo_read_file (buffer : bytes) : world -> option world := demo "=== ext2 Demo: Read File ===" (read_file buffer).
Definition ext2_demo_list_dir (fuel : nat) : world -> option world := demo "=== ext2 Demo: List Root Directory ===" (list_dir fuel).
Definition ext2_demo_create_dir : world -> option world := demo "=== ext2 Demo: Create Directory ===" create_dir.
Definition ext2_demo_cache_stats : world -> option world := demo "=== ext2 Demo: Cache Statistics ===" cache_stats.

Definition bar : bytes := str "========================================" ++ [10].

Definition ext2_run_demos (fuel : nat) (buffer : bytes) (w : world) : option world :=
  let '(fs, o) := w in
  w ← ext2_demo_list_dir fuel (fs, o ++ 10 :: bar ++ str "=== ext2 Filesystem Demos ===" ++ 10 :: bar);
  w ← ext2_demo_create_file w;
  w ← ext2_demo_read_file buffer w;
  w ← ext2_demo_create_dir w;
  w ← ext2_demo_list_dir fuel w;
  '(fs, o) ← ext2_demo_cache_stats w;
  '(fs, o) ← match fs with
             | Some _ => '(fs, _) ← ext2_sync now stack_buffer fs; Some (fs, o ++ 10 :: str "Syncing filesystem..." ++ [10])
             | None => Some (fs, o)
             end;
  Some (fs, o ++ 10 :: bar ++ str "=== ext2 Demos Complete ===" ++ 10 :: bar ++ [10]).

End demo.

(** ** What is printed *)
Definition dec (n : Z) : bytes := default [] (Console.dec_text n).

Lemma dec_text_dec n : is_u64 n -> Console.dec_text n = Some (dec n).
Proof.
  intros Hn. unfold dec, Console.dec_text, Console.number_text. destruct (n =? 0); [done|].
  destruct (Console.digits_spec 10 Console.dec_char 32 ltac:(lia) n) as (l & -> & _); [|done].
  red in Hn. change (10 ^ Z.of_nat 32) with 100000000000000000000000000000000. lia.
Qed.

(** The line for a record, with the type [t] *)
Definition listing_line (console_putc : Z -> bytes) (r : Z * bytes) (t : Z) : bytes :=
  str "  " ++ dec r.1 ++ str ": " ++ name_text console_putc r.2 ++ str " (type=" ++ dec t ++ str ")" ++ [10].

Section listing.
Context {C : Type} {B : BlockStore C} {bs : Z} {L : BlockStoreLaws C bs} (now : Z) (console_putc : Z -> bytes).
Hypothesis bs_range : 0 < bs < 65536.
Hypothesis bs_aligned : bs mod 16 = 0.
Implicit Types (s : ext2_fs C) (o : bytes) (rs : list (list (Z * bytes))).

Lemma wp_put s o l (Q : ext2_fs C * bytes -> Z + unit -> Prop) : Q (s, o ++ l) (inr tt) -> wp (put l) (s, o) Q.
Proof. intros HQ. by exists (s, o ++ l), (inr tt). Qed.

Lemma wp_dec s o n (Q : ext2_fs C * bytes -> Z + unit -> Prop) : is_u64 n -> Q (s, o ++ dec n) (inr tt) -> wp (console_print_dec n) (s, o) Q.
Proof. intros Hn HQ. apply wp_bnd. eapply wp_lft; [by apply dec_text_dec|]. by apply wp_put. Qed.

Lemma entry_line_spec e r s o : entry_is e r -> exists t, is_u8 t /\
  wp (entry_line console_putc e) (s, o) (fun w x => w = (s, o ++ listing_line console_putc r t) /\ x = inr tt).
Proof.
  intros (Hl & Hi & Hn & Hs). pose proof (ld_inv _ _ _ _ Hi) as (_ & _ & Hib). pose proof (ld_inv _ _ _ _ Hn) as (_ & _ & Hnb).
  change (256 ^ _) with 4294967296 in Hib. change (256 ^ _) with 256 in Hnb.
  destruct (ld_is_Some e (0 + f_off de_file_type) (f_width de_file_type)) as [t Ht]; [cbn; lia|rewrite Hl; done|].
  pose proof (ld_inv _ _ _ _ Ht) as (_ & _ & Htb). change (256 ^ _) with 256 in Htb. exists t. split; [red; lia|]. unfold entry_line.
  apply wp_bnd. eapply wp_lft; [exact Hi|]. apply wp_bnd. eapply wp_lft; [exact Hn|]. apply wp_bnd. eapply wp_lft; [exact Ht|].
  apply wp_bnd. eapply wp_lft; [rewrite Z.min_l by lia; exact Hs|].
  apply wp_bnd, wp_put, wp_bnd, wp_dec; [red; lia|]. apply wp_bnd, wp_put, wp_bnd, wp_put, wp_bnd, wp_put, wp_bnd, wp_dec; [red; lia|].
  apply wp_bnd, wp_put, wp_put. split; [|done]. f_equal. unfold listing_line. by rewrite <- !app_assoc.
Qed.

(** The loop from entry [index] on prints the records from there. *)
Lemma list_loop_spec s0 rs n : lenZ (live (concat rs)) <= 1048576 -> forall fuel s k index o,
  dir_ok (bs := bs) s0 2 rs -> dir_spaced (bs := bs) s0 2 rs -> quiet s0 s k -> 0 <= k -> 0 <= index ->
  Z.of_nat n = lenZ (live (concat rs)) - index -> (n < fuel)%nat -> room bs s0 (k + (Z.of_nat n + 1) * (2 + 2 * lenZ rs)) ->
  wp (list_loop now console_putc fuel index) (s, o) (fun w r => exists ts, r = inr (lenZ (live (concat rs))) /\ length ts = n /\ Forall is_u8 ts /\
    quiet s0 w.1 (k + (Z.of_nat n + 1) * (2 + 2 * lenZ rs)) /\
    w.2 = o ++ concat (zip_with (listing_line console_putc) (drop (Z.to_nat index) (live (concat rs))) ts)).
Proof.
  intros Hmax. pose proof (lenZ_nonneg rs) as Hrs. induction n as [|n IH]; intros fuel s k index o Hd Hsp Hq Hk Hi Hn Hf Hr;
    (destruct fuel as [|fuel]; [lia|]); cbn [list_loop];
    destruct (quiet_dir bs_range bs_aligned s0 s k 2 rs Hq Hd Hsp) as [Hd1 Hsp1];
    (assert (room bs s (2 + 2 * lenZ rs)) as Hr1 by (eapply quiet_room; [exact Hq|unfold room in *; nia]));
    apply wp_bnd, wp_on_fs, wp_try;
    (eapply wp_mono; [apply (ext2_readdir_spec now bs_range bs_aligned s 2 rs index Hd1 (dir_entry_spaced _ _ _ _ Hsp1)); [red; lia|done]|]);
    intros s1 r [Hq1 Hnth]; unfold nth_entry in Hnth; pose proof (quiet_trans _ _ _ _ _ Hq Hq1) as Hq2.
  - rewrite lookup_ge_None_2 in Hnth by (unfold lenZ in Hn; lia). subst r. apply wp_ret. exists []. cbn [fst snd].
    split; [f_equal; lia|]. split; [done|]. split; [done|]. split; [eapply quiet_weaken; [lia|exact Hq2|lia]|].
    rewrite drop_ge by (unfold lenZ in Hn; lia). by rewrite app_nil_r.
  - destruct (live (concat rs) !! Z.to_nat index) as [x|] eqn:Ex; [|apply lookup_ge_None in Ex; unfold lenZ in Hn; lia].
    destruct Hnth as (e & -> & He). destruct (entry_line_spec e x s1 o He) as (t & Ht & Hline). apply wp_bnd.
    eapply wp_mono; [exact Hline|]. intros w y [-> ->]. rewrite u64_id by (red; lia).
    eapply wp_mono; [eapply (IH fuel s1 (k + (2 + 2 * lenZ rs)) (index + 1)); [done|done|done|lia|lia|lia|lia|unfold room in *; nia]|].
    intros w r (ts & -> & Hlt & Hts & Hq3 & Ho). exists (t :: ts). split; [done|]. split; [cbn; lia|]. split; [by constructor|].
    split; [eapply quiet_weaken; [lia|exact Hq3|nia]|]. rewrite Ho. rewrite (drop_S _ _ _ Ex).
    replace (Z.to_nat (index + 1)) with (S (Z.to_nat index)) by lia. cbn [zip_with concat]. by rewrite <- app_assoc.
Qed.

(** listing the root directory.  With a mounted file system whose root directory is well formed, and room in the heap for the
    buffers of all calls, the demonstration terminates and prints, after its title, one line for each live record of the
    directory, in order, with its inode and its name, and then their number; blocks and metadata are unchanged. *)
Theorem ext2_demo_list_dir_correct s rs o fuel :
  let n := lenZ (live (concat rs)) in
  dir_ok (bs := bs) s 2 rs -> dir_spaced (bs := bs) s 2 rs -> n < Z.of_nat fuel ->
  room bs s ((n + 1) * (2 + 2 * lenZ rs)) ->
  exists s' ts, length ts = length (live (concat rs)) /\ Forall is_u8 ts /\ quiet s s' ((n + 1) * (2 + 2 * lenZ rs)) /\
    ext2_demo_list_dir now console_putc fuel (Some s, o) = Some (Some s',
      o ++ 10 :: str "=== ext2 Demo: List Root Directory ===" ++ 10 :: concat (zip_with (listing_line console_putc) (live (concat rs)) ts) ++
      str "  Total entries: " ++ dec n ++ [10]).
Proof.
  intros n Hd Hsp Hf Hr. pose proof (lenZ_nonneg (live (concat rs))) as Hn0. fold n in Hn0. pose proof (lenZ_nonneg rs) as Hrs.
  pose proof (ok_heap _ (dr_fs _ _ _ Hd)) as Hh.
  assert (n <= 1048576) as Hmax by (unfold room, heap_wf, HEAP_SIZE in *; nia).
  destruct (list_loop_spec s rs (Z.to_nat n) Hmax fuel s 0 0 (o ++ 10 :: str "=== ext2 Demo: List Root Directory ===" ++ [10])
    Hd Hsp (quiet_refl s (dr_fs _ _ _ Hd)) ltac:(lia) ltac:(lia) ltac:(fold n; lia) ltac:(lia)) as ([s' o'] & r & E & ts & -> & Hlt & Hts & Hq & Ho).
  { rewrite Z2Nat.id by lia. by rewrite Z.add_0_l. }
  cbn [fst snd] in *. rewrite Z2Nat.id in Hq by lia. exists s', ts. split; [unfold n, lenZ in Hlt; lia|]. split; [done|]. split; [done|].
  unfold ext2_demo_list_dir, demo, list_dir. unfold bnd at 1. rewrite E. cbv beta iota. fold n.
  assert (wp (say "  Total entries: ";;; console_print_dec n;;; endl) (s', o') (fun w r =>
    w = (s', ((o' ++ str "  Total entries: ") ++ dec n) ++ [10]) /\ r = inr tt)) as (w & r & -> & -> & ->).
  { apply wp_bnd, wp_put, wp_bnd, wp_dec; [red; lia|]. by apply wp_put. }
  cbn [mbind option_bind]. rewrite Ho. change (Z.to_nat 0) with 0%nat. rewrite drop_0. do 2 f_equal.
  by rewrite <- !app_assoc.
Qed.
End listing.

Lemma ext2_demo_list_dir_correct_witness : exists s' ts, length ts = 3%nat /\ Forall is_u8 ts /\ quiet fs0 s' 16 /\
  ext2_demo_list_dir 0 (fun c => [c]) 10 (Some fs0, []) = Some (Some s',
    [] ++ 10 :: str "=== ext2 Demo: List Root Directory ===" ++ 10 :: concat (zip_with (listing_line (fun c => [c])) root_recs ts) ++
    str "  Total entries: " ++ dec 3 ++ [10]).
Proof.
  exact (ext2_demo_list_dir_correct (bs := 1024) 0 (fun c => [c]) ltac:(lia) ltac:(done) fs0 [root_recs] [] 10 dir_ok0 spaced0 ltac:(done)
    ltac:(vm_compute; discriminate)).
Defined.

(** The whole program on the file system of [Ext2Image.v], a disk under the block cache: what the demonstrations print between
    the bars, up to the statistics of the cache. *)
Definition expected : list string :=
  ["========================================"; "=== ext2 Filesystem Demos ==="; "========================================"; "";
   "=== ext2 Demo: List Root Directory ==="; "  2: . (type=2)"; "  2: .. (type=2)"; "  3: ab (type=1)"; "  Total entries: 3"; "";
   "=== ext2 Demo: Create File ==="; "  File created with inode: 5"; "  Wrote 28 bytes to file"; "  File size: 28 bytes"; "";
   "=== ext2 Demo: Read File ==="; "  Found file with inode: 5"; "  File size: 28 bytes"; "  File content: Hello from ext2 filesystem!"; "";
   "=== ext2 Demo: Create Directory ==="; "  Directory created with inode: 6"; "";
   "=== ext2 Demo: List Root Directory ==="; "  2: . (type=2)"; "  2: .. (type=2)"; "  3: ab (type=1)"; "  5: test.txt (type=1)"; "  6: mydir (type=2)";
   "  Total entries: 5"; ""; "=== ext2 Demo: Cache Statistics ==="; "  Cache hits: 5"; "  Cache misses: 34"; "  Hit rate: 12%"; "";
   "Syncing filesystem..."; ""; "========================================"; "=== ext2 Demos Complete ==="; "========================================"; ""]%string.

Example ext2_run_demos_example :
  snd <$> ext2_run_demos 0 (zeros 1024) (fun c => [c]) block_cache_stats 10 (zeros 256) (Some fs0, []) =
  Some (10 :: concat ((fun t => str t ++ [10]) <$> expected)).
Proof. vm_compute. reflexivity. Qed.

End Demo.
