(* ===== verification/Ext2Init.v ===== *)
(** * Bringing up ext2: [src/fs/ext2_init.c], and the test of the block cache: [tests/test_ext2.c]

    [ext2_init] composes the device registry, the adapter, the block cache, the mount and the root node of the VFS.
    The statics of the file are a record.  Since [free] does nothing, a structure that was released still holds what it
    held; the pointers to it are not cleared. *)
From Stdlib Require Import String.
From S2P Require Import Prelude KernelLib Device BlockDev BlockCache BlockCacheProofs Ext2Base Ext2Mount Vfs Ext2Vfs Console.
Import Memory CString.
Open Scope list_scope.
Open Scope Z_scope.

Module Init.

Section init.
Context {A : Type} (heap_base now : Z) (stack_buffer : bytes).

(** The device behind the cache, the cache behind the file system *)
Abbreviation dev := (option (Wrapper.device A)).
Abbreviation store := (option (block_cache dev)).
Abbreviation FS := (ext2_fs store).

(** [g_block_cache] is the cache while no file system is mounted; a mounted file system holds it. *)
Record globals := Globals {
  g_ext2_fs : option FS;
  g_block_cache : store;
  g_block_device : option (BlockDev.block_device dev);
  g_ext2_root : option nat;
  vfs_nodes : list (vfs_node Z);
  heap : Z;
  screen : bytes
}.

Definition say (t : string) (g : globals) : globals :=
  Globals (g_ext2_fs g) (g_block_cache g) (g_block_device g) (g_ext2_root g) (vfs_nodes g) (heap g) (screen g ++ str t).
Definition say_line (t : string) (g : globals) : globals :=
  Globals (g_ext2_fs g) (g_block_cache g) (g_block_device g) (g_ext2_root g) (vfs_nodes g) (heap g) (screen g ++ str t ++ [10]).
Definition say_dec (n : Z) (g : globals) : option globals :=
  l ← Console.dec_text n;
  Some (Globals (g_ext2_fs g) (g_block_cache g) (g_block_device g) (g_ext2_root g) (vfs_nodes g) (heap g) (screen g ++ l)).

Definition set_fs fs h (g : globals) : globals :=
  Globals fs (g_block_cache g) (g_block_device g) (g_ext2_root g) (vfs_nodes g) h (screen g).
Definition set_cache c h (g : globals) : globals :=
  Globals (g_ext2_fs g) c (g_block_device g) (g_ext2_root g) (vfs_nodes g) h (screen g).
Definition set_device d h (g : globals) : globals :=
  Globals (g_ext2_fs g) (g_block_cache g) d (g_ext2_root g) (vfs_nodes g) h (screen g).
Definition set_root fs r ns h (g : globals) : globals :=
  Globals fs (g_block_cache g) (g_block_device g) r ns h (screen g).

(** A registered device as the adapter reads it *)
Definition as_wrapper (d : Device.device (Wrapper.driver_ops A) A) : Wrapper.device A :=
  Wrapper.Device (Device.data d) (Some (Wrapper.wrapper_view (Device.ops d))).

(** [block_cache_destroy(g_block_cache); block_device_destroy(g_block_device)] *)
Definition release (c : store) (g : globals) : option globals :=
  '(c', _) ← match c with Some _ => block_cache_flush c | None => Some (None, 0) end;
  '(_, h) ← block_cache_destroy (heap g) c;
  Some (set_cache c' (Wrapper.block_device_destroy h (g_block_device g)) g).

Definition sync_fs (fs : option FS) : option (option FS * Z) := ext2_sync now stack_buffer fs.
Definition umount_fs (fs : option FS) : option (option store * Z) := ext2_umount now stack_buffer fs.
Definition mount_cache (c : store) (h : Z) : option (option FS * option store * Z) := ext2_mount now stack_buffer (Some c) h.

(** [if (g_ext2_fs) ext2_umount(g_ext2_fs)], with the cache that is left *)
Definition unmount (g : globals) : option (globals * store) :=
  match g_ext2_fs g with
  | Some _ =>
      '(fs', _) ← sync_fs (g_ext2_fs g);
      '(c, _) ← umount_fs (g_ext2_fs g);
      Some (set_fs fs' (heap g) g, default None c)
  | None => Some (g, g_block_cache g)
  end.

Definition create_root (fs : FS) (g : globals) : option globals :=
  let g := say "Creating VFS root node... " g in
  '(v, r) ← ext2_create_vfs_root heap_base now (Vfs.Vfs (vfs_nodes g) None [] [] [] fs (heap g)) 0;
  let g := set_root (Some (Vfs.fs_state v)) r (Vfs.nodes v) (Vfs.heap_pos v) g in
  match r with
  | None =>
      '(g, c) ← unmount (say_line "FAIL" g); release c g
  | Some _ =>
      let g := say_line "OK" g in
      '(hits, misses) ← block_cache_stats (block_device (Vfs.fs_state v));
      g ← say_dec hits (say "Block cache: hits=" g);
      g ← say_dec misses (say ", misses=" g);
      Some (say_line "=== ext2 Filesystem Ready ===" (say_line "" g))
  end.

Definition ext2_init (reg : registry (Wrapper.driver_ops A) A) (g : globals) : option globals :=
  let g := say "Looking for ramdisk device... " (say_line "=== ext2 Filesystem Initialization ===" (say_line "" g)) in
  ramdisk ← device_find reg (str "ramdisk" ++ [0]);
  match ramdisk with
  | None => Some (say_line "  ramdisk device not found" (say_line "FAIL" g))
  | Some ramdisk =>
      let g := say "Creating block device wrapper... " (say_line "OK" g) in
      let '(bd, h) := Wrapper.block_device_create (heap g) (Some (as_wrapper ramdisk)) in
      let g := set_device bd h g in
      match bd with
      | None => Some (say_line "FAIL" g)
      | Some _ =>
          let g := say "Creating block cache... " (say_line "OK" g) in
          let '(c, h) := block_cache_create (heap g) bd 1024 in
          let g := set_cache c h g in
          match c with
          | None => let g := say_line "FAIL" g in Some (set_device bd (Wrapper.block_device_destroy (heap g) bd) g)
          | Some _ =>
              let g := say_line "Mounting ext2 filesystem..." (say_line "OK" g) in
              '(fs, c, h) ← mount_cache c (heap g);
              let g := set_fs fs h g in
              match fs with
              | None => release (default None c) (say_line "  This is expected if no ext2 image is loaded" (say_line "FAIL: Could not mount ext2 filesystem" g))
              | Some fs => create_root fs g
              end
          end
      end
  end.

Definition ext2_cleanup (g : globals) : option globals :=
  '(g, c) ← unmount g;
  match g_block_cache g with
  | Some _ => release c g
  | None => Some (set_device (g_block_device g) (Wrapper.block_device_destroy (heap g) (g_block_device g)) g)
  end.

Definition ext2_get_instance (g : globals) : option FS := g_ext2_fs g.
Definition ext2_get_vfs_root (g : globals) : option nat := g_ext2_root g.

End init.

(** ** The RAM disk is never mounted *)
Section never.
Context (heap_base now : Z) (stack_buffer : bytes).
Abbreviation disk := (option Ramdisk.ramdisk).
Abbreviation dev := (option (Wrapper.device disk)).

(** No entry of the cache is in use. *)
Definition unused (c : block_cache dev) : Prop := (256 <= length (entries c))%nat /\ Forall (fun e => valid e = false) (entries c).

Lemma flush_unused c : unused c -> cache_flush c = Some (c, ERR_SUCCESS).
Proof.
  intros [Hl Hu]. unfold cache_flush.
  assert (forall l k, Forall (fun i => i < 256)%nat l -> flush_loop l c k = Some (c, k)) as H.
  { induction l as [|i l IH]; intros k Hk; cbn [flush_loop]; [done|]. apply list.Forall_cons in Hk as [Hi Hk].
    destruct (lookup_lt_is_Some_2 (entries c) i ltac:(lia)) as [e He]. rewrite He. cbn [mbind option_bind].
    rewrite list.Forall_lookup in Hu. rewrite (Hu _ _ He). cbn [andb]. by apply IH. }
  rewrite H; [done|]. apply list.Forall_forall. intros x Hx. apply elem_of_seq in Hx. unfold BLOCK_CACHE_SIZE in Hx. lia.
Qed.

(** A RAM disk behind the adapter, with the table of its driver *)
Definition adapted (d : disk) : BlockDev.block_device dev :=
  BlockDevice (Some (Wrapper.Device d (Some (Wrapper.wrapper_view ramdisk_ops)))) (Some Wrapper.wrapper_ops).

(** Reading any block through the new cache fails, and leaves the cache unused. *)
Lemma read_fails d n buf : exists c',
  block_cache_read now (Some (Cache (replicate 256 (fresh_entry 1024)) None None (Some (adapted d)) 0 0 1024)) n (Some buf) =
    Some (Some c', ERR_INVALID, Some buf) /\ unused c'.
Proof.
  set (c := Cache _ _ _ _ _ _ _). cbn [block_cache_read]. unfold cache_read.
  assert (cache_find c n = None) as ->.
  { unfold cache_find. destruct (list_find _ (entries c)) as [[i e]|] eqn:E; [|done]. apply list_find_Some in E as (He & [Hv _] & _).
    apply lookup_replicate in He as [-> _]. done. }
  unfold cache_read_miss. eexists. split; [reflexivity|]. unfold unused. cbn [entries upd BlockCache.set_device add_miss]. split.
  - rewrite length_alter. unfold c. cbn [entries]. by rewrite length_replicate.
  - apply Forall_alter; [|by intros]. by apply Forall_replicate.
Qed.

(** The mount on it fails: the superblock cannot be read, or there is no memory. *)
Lemma mount_fails d h : exists c' h',
  mount_cache now stack_buffer (Some (Cache (replicate 256 (fresh_entry 1024)) None None (Some (adapted d)) 0 0 1024)) h =
    Some (None, Some (Some c'), h') /\ unused c'.
Proof.
  set (c := Cache _ _ _ _ _ _ _). assert (unused c) as Hc by (split; [by unfold c; cbn [entries]; rewrite length_replicate|by apply Forall_replicate]).
  unfold mount_cache, ext2_mount, mount_body, bnd, alloc_buffer. cbn [Ext2Base.heap_pos].
  destruct (malloc h sizeof_fs) as [[p|] h1]; [|by exists c, h1]. cbn [Ext2Base.heap_pos set_heap_pos].
  destruct (malloc h1 sizeof_superblock) as [[p2|] h2]; [|by exists c, h2].
  unfold ext2_read_superblock, bnd, bread. cbn [Ext2Base.block_device set_heap_pos block_read cache_store].
  destruct (read_fails d 1 stack_buffer) as (c' & E & Hc'). fold c in E. rewrite E. cbn [mbind option_bind].
  exists c', h2. by split.
Qed.

Lemma release_unused c (g : @globals disk) : unused c -> exists g', release (Some c) g = Some g' /\ g_ext2_fs g' = g_ext2_fs g /\
  g_ext2_root g' = g_ext2_root g /\ screen g' = screen g.
Proof.
  intros Hc. unfold release, block_cache_flush, block_cache_destroy. rewrite (flush_unused c Hc). cbn [mbind option_bind].
  eexists. split; [reflexivity|]. done.
Qed.

(** the RAM disk is never mounted.  Whatever a registered RAM disk holds, and whatever the state of the heap, [ext2_init]
    returns without a mounted file system and without a root node: the adapter finds no [read_block] in the table of the driver,
    so that the superblock cannot be read.  The same holds when there is no RAM disk. *)
Theorem ext2_init_never_mounts (reg : registry (Wrapper.driver_ops disk) disk) g ramdisk :
  device_find reg (str "ramdisk" ++ [0]) = Some ramdisk -> (forall d, ramdisk = Some d -> Device.ops d = ramdisk_ops) ->
  g_ext2_fs g = None ->
  exists g', ext2_init heap_base now stack_buffer reg g = Some g' /\ ext2_get_instance g' = None /\ ext2_get_vfs_root g' = ext2_get_vfs_root g.
Proof.
  intros Hf Ho Hg. unfold ext2_init, ext2_get_instance, ext2_get_vfs_root. rewrite Hf. cbn [mbind option_bind].
  destruct ramdisk as [d|]; [|by eexists]. specialize (Ho d eq_refl).
  assert (as_wrapper d = Wrapper.Device (Device.data d) (Some (Wrapper.wrapper_view ramdisk_ops))) as -> by (unfold as_wrapper; by rewrite Ho).
  unfold Wrapper.block_device_create. destruct (malloc _ _) as [[p|] h1]; [|by eexists].
  destruct (block_cache_create _ _ _) as [[c|] h2] eqn:Ec; [|by eexists]. apply Reach.block_cache_create_eq in Ec as ->.
  destruct (mount_fails (Device.data d) h2) as (c' & h' & E & Hc'). unfold adapted in E. cbn [heap say_line say set_cache]. unfold BLOCK_CACHE_SIZE. rewrite E.
  cbn [mbind option_bind default from_option id]. unfold id.
  match goal with |- context [release (Some c') ?x] => destruct (release_unused c' x Hc') as (g' & -> & H1 & H2 & _) end.
  exists g'. split; [done|]. by rewrite H1, H2.
Qed.
End never.

Definition ramdisk0 : Device.device (Wrapper.driver_ops (option Ramdisk.ramdisk)) (option Ramdisk.ramdisk) :=
  Device.Device (str "ramdisk" ++ replicate 249 0) 1 0 DEVICE_BLOCK 0 (Some (Ramdisk.RamDisk 4096 (replicate 4096 7) 512)) ramdisk_ops.
Definition reg0 := Registry [ramdisk0] 2.
Definition globals0 : @globals (option Ramdisk.ramdisk) := Globals None None None None [] 0 [].

Lemma find0 : device_find reg0 (str "ramdisk" ++ [0]) = Some (Some ramdisk0).
Proof. unfold device_find, reg0. cbn [devices find_by_name]. assert (strcmp (Device.name ramdisk0) (str "ramdisk" ++ [0]) = Some 0) as -> by (vm_compute; reflexivity). reflexivity. Qed.

Lemma ext2_init_never_mounts_witness : exists g', ext2_init 0 0 (replicate 1024 0) reg0 globals0 = Some g' /\
  ext2_get_instance g' = None /\ ext2_get_vfs_root g' = ext2_get_vfs_root globals0.
Proof.
  exact (ext2_init_never_mounts 0 0 (replicate 1024 0) reg0 globals0 (Some ramdisk0) find0
    (fun d H => f_equal (fun x => match x with Some x => Device.ops x | None => ramdisk_ops end) (eq_sym H)) eq_refl).
Defined.

End Init.

(** ** The test of the block cache *)
Module CacheTest.

Record test_block_device := TestDevice { data : bytes; size : Z; block_size : Z }.

Definition test_device_read_block (dev : test_block_device) (block_num : Z) (buffer : bytes) : option (test_block_device * Z * bytes) :=
  let offset := u64 (block_num * block_size dev) in
  if size dev <=? offset then Some (dev, ERR_INVALID, buffer)
  else buffer ← memcpy buffer 0 (data dev) offset (block_size dev); Some (dev, i32 (block_size dev), buffer).

Definition test_device_write_block (dev : test_block_device) (block_num : Z) (buffer : bytes) : option (test_block_device * Z) :=
  let offset := u64 (block_num * block_size dev) in
  if size dev <=? offset then Some (dev, ERR_INVALID)
  else d ← memcpy (data dev) offset buffer 0 (block_size dev); Some (TestDevice d (size dev) (block_size dev), i32 (block_size dev)).

Definition test_device_get_block_size (dev : test_block_device) : option (test_block_device * Z) := Some (dev, i32 (block_size dev)).
Definition test_device_get_num_blocks (dev : test_block_device) : option (test_block_device * Z) :=
  if block_size dev =? 0 then None else Some (dev, i32 (size dev / block_size dev)).

Definition test_device_ops : block_device_ops test_block_device :=
  BlockDeviceOps (Some test_device_read_block) (Some test_device_write_block) (Some test_device_get_block_size) (Some test_device_get_num_blocks).

Definition line (t : string) : bytes := str t ++ [10].

(** [write_buffer] *)
Definition pattern : bytes := (fun i => Z.land (Z.of_nat i) 255) <$> seq 0 1024.

(** The test from the creation of the cache on; [read_buffer] is the array on the stack. *)
Definition test_cache (now : Z) (read_buffer : bytes) (dev : test_block_device) (heap : Z) : option bytes :=
  let '(cache, heap) := block_cache_create heap (Some (BlockDevice dev (Some test_device_ops))) (block_size dev) in
  match cache with
  | None => Some (line "  FAIL: Failed to create block cache")
  | Some _ =>
      '(cache, result) ← block_cache_write now cache 10 (Some pattern);
      if result <? 0 then Some (line "  FAIL: Cache write failed")
      else
        '(cache, result, buf) ← block_cache_read now cache 10 (Some read_buffer);
        if result <? 0 then Some (line "  FAIL: Cache read failed")
        else
          buf ← buf;
          if negb (bool_decide (buf = pattern)) then Some (line "  FAIL: Data mismatch")
          else
            '(hits, misses) ← block_cache_stats cache;
            h ← Console.dec_text hits;
            m ← Console.dec_text misses;
            '(cache, _) ← block_cache_flush cache;
            '(_, _) ← block_cache_destroy heap cache;
            Some (str "  Cache hits: " ++ h ++ str ", misses: " ++ m ++ [10] ++ line "  PASS: Block cache test passed")
  end.

(** The structures are used without a look at what [malloc] returned. *)
Definition test_block_cache (now : Z) (read_buffer : bytes) (heap : Z) : option bytes :=
  let '(dev, heap) := malloc heap 24 in
  match dev with
  | None => None
  | Some _ =>
      let sz := 1024 * 1024 in
      let '(mem, heap) := malloc heap sz in
      match mem with
      | None => None
      | Some _ => l ← test_cache now read_buffer (TestDevice (replicate (Z.to_nat sz) 0) sz 1024) heap; Some (line "Testing block cache..." ++ l)
      end
  end.

Definition test_ext2_basic : bytes := line "Testing ext2 basic operations..." ++ line "  (This requires a pre-created ext2 image)".

Definition run_ext2_tests (now : Z) (read_buffer : bytes) (heap : Z) : option bytes :=
  l ← test_block_cache now read_buffer heap;
  Some (line "=== ext2 Filesystem Tests ===" ++ l ++ test_ext2_basic ++ line "=== Tests Complete ===").

(** the tests do not run.  From every state of the heap of 1 MB, the test of the block cache asks for a device of 1 MB, does
    not get it, and clears the memory at [NULL]. *)
Theorem run_ext2_tests_undefined now read_buffer heap : heap_wf heap -> run_ext2_tests now read_buffer heap = None.
Proof.
  intros Hh. unfold run_ext2_tests, test_block_cache.
  destruct (malloc_cases heap 24 Hh) as [[-> _]|(h1 & -> & H1 & Hw)]; [unfold size_ok, HEAP_SIZE; lia|done|].
  destruct (malloc_cases h1 (1024 * 1024) Hw) as [[-> _]|(h2 & -> & H2 & Hw2)]; [unfold size_ok, HEAP_SIZE; lia|done|].
  unfold heap_wf, HEAP_SIZE in *. lia.
Qed.

Lemma run_ext2_tests_undefined_witness : run_ext2_tests 0 (replicate 1024 0) 4096 = None.
Proof. apply (run_ext2_tests_undefined 0 (replicate 1024 0) 4096). split; done. Defined.

(** With a device that fits, the cache passes the test: one hit and no miss. *)
Example test_cache_passes :
  test_cache 0 (replicate 1024 0) (TestDevice (replicate (Z.to_nat 16384) 0) 16384 1024) 0 =
  Some (str "  Cache hits: 1, misses: 0" ++ [10] ++ line "  PASS: Block cache test passed").
Proof. vm_compute. reflexivity. Qed.

End CacheTest.
