(* ===== verification/Gdbstub.v ===== *)
(** * The remote debugging stub: [src/kernel/gdbstub.c]

    Input comes character by character, output are the characters handed to the
    console.  Nothing in the sources calls [gdbstub_input_char], so the loop of
    [gdbstub_breakpoint] is the bare loop it is written as. *)
From Stdlib Require Import String.
From S2P Require Import Prelude KernelLib Console.
Import CString.
Open Scope list_scope.
Open Scope Z_scope.

Module Gdbstub.

Definition GDB_BUFFER_SIZE : Z := 1024.

Record gdbstub_state := State { buffer : bytes; pos : Z; enabled : bool; connected : bool }.

(** The state and what the console was given. *)
Record stub := Stub { gdb_state : gdbstub_state; out : bytes }.

Definition initial : gdbstub_state := State (replicate 1024 0) 0 false false.

Definition set_pos (p : Z) (g : gdbstub_state) := State (buffer g) p (enabled g) (connected g).
Definition set_connected (b : bool) (g : gdbstub_state) := State (buffer g) (pos g) (enabled g) b.
Definition on_state (f : gdbstub_state -> gdbstub_state) (s : stub) : stub := Stub (f (gdb_state s)) (out s).

Definition console_putchar (c : Z) (s : stub) : stub := Stub (gdb_state s) (out s ++ [c]).

Definition console_print (str : bytes) (s : stub) : option stub :=
  l ← Console.chars str; Some (Stub (gdb_state s) (out s ++ l)).

Definition hex_to_int (c : Z) : Z :=
  if (48 <=? c) && (c <=? 57) then c - 48
  else if (97 <=? c) && (c <=? 102) then c - 97 + 10
  else if (65 <=? c) && (c <=? 70) then c - 65 + 10
  else 0.

Definition int_to_hex (val : Z) : Z := if val <? 10 then 48 + val else 97 + (val - 10).

Fixpoint checksum_loop (n : nat) (data : bytes) (i checksum : Z) : option Z :=
  match n with
  | O => Some checksum
  | S n' => c ← getZ data i; checksum_loop n' data (i + 1) (u8 (checksum + u8 c))
  end.
Definition compute_checksum (data : bytes) (len : Z) : option Z := checksum_loop (Z.to_nat len) data 0 0.

Definition gdb_send_packet (data : bytes) (s : stub) : option stub :=
  len ← strlen data;
  checksum ← compute_checksum data len;
  let s := console_putchar 36 s in
  s ← console_print data s;
  let s := console_putchar 35 s in
  let s := console_putchar (int_to_hex (Z.land (Z.shiftr checksum 4) 15)) s in
  Some (console_putchar (int_to_hex (Z.land checksum 15)) s).

(** A literal of the source is followed by its NUL. *)
Definition lit (s : string) : bytes := str s ++ [0].

Definition gdb_send_ok : stub -> option stub := gdb_send_packet (lit "OK").

Definition gdb_send_error (error_code : Z) : stub -> option stub :=
  gdb_send_packet [69; int_to_hex (Z.land (Z.shiftr error_code 4) 15); int_to_hex (Z.land error_code 15); 0].

Definition gdb_handle_query (query : bytes) (s : stub) : option stub :=
  q0 ← getZ query 0;
  sup ← (if q0 =? 83 then
           q1 ← getZ query 1;
           if q1 =? 117 then q2 ← getZ query 2; Some (q2 =? 112) else Some false
         else Some false);
  if sup : bool then gdb_send_packet (lit "") s
  else if q0 =? 67 then gdb_send_packet (lit "QC1") s
  else gdb_send_packet (lit "") s.

(** The target of the build. *)
Inductive arch := X86_64 | AARCH64 | OTHER.

(** Sixteen digits of each register. *)
Fixpoint put_digits (n : nat) (reg j : Z) (buf : bytes) (pos : Z) : option (bytes * Z) :=
  match n with
  | O => Some (buf, pos)
  | S n' =>
      buf ← setZ buf pos (int_to_hex (Z.land (Z.shiftr reg (j * 4)) 15));
      put_digits n' reg (j + 1) buf (pos + 1)
  end.
Fixpoint put_registers (regs : list Z) (buf : bytes) (pos : Z) : option (bytes * Z) :=
  match regs with
  | [] => Some (buf, pos)
  | reg :: regs' => r ← put_digits 16 reg 0 buf pos; put_registers regs' r.1 r.2
  end.

Section stub.
(** The target, and what the stack holds where [buf] of 512 bytes is. *)
Context (target : arch) (stack_buf : bytes).

Definition registers : list Z :=
  match target with X86_64 => replicate 16 0 | AARCH64 => replicate 32 0 | OTHER => [] end.

Definition gdb_handle_read_registers (s : stub) : option stub :=
  r ← put_registers registers stack_buf 0;
  buf ← setZ r.1 r.2 0;
  gdb_send_packet buf s.

Definition gdb_handle_read_memory (args : bytes) : stub -> option stub := gdb_send_packet (lit "00000000").

Definition gdb_handle_continue (s : stub) : option stub :=
  s ← console_print (str "[GDB] Continue requested" ++ [10; 0]) s;
  Some (on_state (set_connected false) s).

Definition gdb_handle_step (s : stub) : option stub :=
  s ← console_print (str "[GDB] Step requested" ++ [10; 0]) s;
  gdb_send_packet (lit "S05") s.

Definition gdb_handle_packet (packet : bytes) (s : stub) : option stub :=
  c ← getZ packet 0;
  if c =? 0 then Some s
  else if c =? 63 then gdb_send_packet (lit "S05") s
  else if c =? 113 then gdb_handle_query (drop 1 packet) s
  else if c =? 103 then gdb_handle_read_registers s
  else if c =? 109 then gdb_handle_read_memory (drop 1 packet) s
  else if c =? 99 then gdb_handle_continue s
  else if c =? 115 then gdb_handle_step s
  else if c =? 107 then console_print (str "[GDB] Kill requested" ++ [10; 0]) s
  else if c =? 68 then s ← gdb_send_ok s; Some (on_state (set_connected false) s)
  else gdb_send_packet (lit "") s.

Definition gdbstub_init (s : stub) : option stub :=
  let s := on_state (fun g => State (buffer g) (pos g) true false) s in
  console_print (str "GDB stub initialized. Waiting for connection on QEMU serial..." ++ [10; 0]) s.

Definition gdbstub_input_char (c : Z) (s : stub) : option stub :=
  let g := gdb_state s in
  if negb (enabled g) then Some s
  else if c =? 36 then Some (on_state (fun g => set_connected true (set_pos 0 g)) s)
  else if c =? 35 then
    buf ← setZ (buffer g) (pos g) 0;
    s ← gdb_handle_packet buf (Stub (State buf (pos g) (enabled g) (connected g)) (out s));
    Some (on_state (set_pos 0) s)
  else if c =? 43 then Some s
  else if c =? 45 then Some s
  else if pos g <? GDB_BUFFER_SIZE - 1 then
    buf ← setZ (buffer g) (pos g) c;
    Some (Stub (State buf (u32 (pos g + 1)) (enabled g) (connected g)) (out s))
  else Some s.

Definition gdbstub_is_enabled (s : stub) : bool := enabled (gdb_state s).
Definition gdbstub_is_connected (s : stub) : bool := connected (gdb_state s).

(** [while (connected) nop] *)
Fixpoint wait_loop (fuel : nat) (s : stub) : outcome stub :=
  if connected (gdb_state s) then match fuel with O => More | S fuel => wait_loop fuel s end else Ret s.

Definition gdbstub_breakpoint (fuel : nat) (s : stub) : outcome stub :=
  if negb (enabled (gdb_state s)) then Ret s
  else
    match (s ← console_print (str "[GDB] Breakpoint hit" ++ [10; 0]) s; gdb_send_packet (lit "S05") s) with
    | None => Undef
    | Some s => wait_loop fuel (on_state (set_connected true) s)
    end.

(** A sequence of characters. *)
Fixpoint gdbstub_input (l : bytes) (s : stub) : option stub :=
  match l with [] => Some s | c :: l' => s ← gdbstub_input_char c s; gdbstub_input l' s end.

End stub.

(** ** Packets *)
Definition sum (l : bytes) : Z := foldl (fun a c => u8 (a + u8 c)) 0 l.

(** The packet with the text [l]. *)
Definition framed (l : bytes) : bytes :=
  36 :: l ++ [35; int_to_hex (Z.land (Z.shiftr (sum l) 4) 15); int_to_hex (Z.land (sum l) 15)].

Lemma checksum_loop_app l : forall pre rest c,
  checksum_loop (length l) (pre ++ l ++ rest) (lenZ pre) c = Some (foldl (fun a x => u8 (a + u8 x)) c l).
Proof.
  induction l as [|x l IH]; intros pre rest c; [done|]. cbn [length checksum_loop foldl].
  rewrite (getZ_nat _ (length pre) : getZ _ (lenZ pre) = _), lookup_app_r, Nat.sub_diag by lia. cbn [lookup list_lookup app mbind option_bind].
  specialize (IH (pre ++ [x]) rest (u8 (c + u8 x))). rewrite lenZ_app, <- app_assoc in IH. exact IH.
Qed.

Lemma print_spec l rest s : nul_free l -> console_print (l ++ 0 :: rest) s = Some (Stub (gdb_state s) (out s ++ l)).
Proof. intros Hl. unfold console_print. by rewrite Console.chars_spec. Qed.

Lemma send_packet_spec l rest s : nul_free l ->
  gdb_send_packet (l ++ 0 :: rest) s = Some (Stub (gdb_state s) (out s ++ framed l)).
Proof.
  intros Hl. unfold gdb_send_packet, compute_checksum. rewrite strlen_spec by done. cbn [mbind option_bind].
  unfold lenZ. rewrite Nat2Z.id. rewrite (checksum_loop_app l [] (0 :: rest) 0 : checksum_loop _ (l ++ 0 :: rest) 0 0 = _). cbn [mbind option_bind]. fold (sum l).
  rewrite print_spec by done. cbn [mbind option_bind console_putchar out gdb_state]. unfold framed, console_putchar.
  cbn [out gdb_state]. by rewrite <- !app_assoc.
Qed.

Lemma hex_round v : 0 <= v < 16 -> hex_to_int (int_to_hex v) = v.
Proof.
  intros Hv. unfold hex_to_int, int_to_hex. destruct (Z.ltb_spec v 10); repeat case_match; lia.
Qed.

(** A receiver of packets: the text up to the number sign, if the checksum is right. *)
Fixpoint until_hash (l : bytes) : option (bytes * bytes) :=
  match l with
  | [] => None
  | c :: l' => if c =? 35 then Some ([], l') else r ← until_hash l'; Some (c :: r.1, r.2)
  end.
Definition receive (p : bytes) : option (bytes * bytes) :=
  match p with
  | 36 :: p' =>
      match until_hash p' with
      | Some (l, h :: h' :: rest) => if 16 * hex_to_int h + hex_to_int h' =? sum l then Some (l, rest) else None
      | _ => None
      end
  | _ => None
  end.

Lemma until_hash_app l rest : ~ In 35 l -> until_hash (l ++ 35 :: rest) = Some (l, rest).
Proof.
  induction l as [|c l IH]; [done|]. intros Hn. cbn. rewrite (proj2 (Z.eqb_neq c 35)) by (intros ->; apply Hn; by left).
  rewrite IH; [done|]. intros ?. apply Hn. by right.
Qed.

Lemma sum_range l : 0 <= sum l < 256.
Proof.
  unfold sum. induction l as [|x l IH] using rev_ind; [done|]. rewrite foldl_app. apply u8_range.
Qed.

Lemma receive_framed l rest : ~ In 35 l -> receive (framed l ++ rest) = Some (l, rest).
Proof.
  intros Hl. unfold framed, receive. cbn [app]. rewrite <- app_assoc. cbn [app]. rewrite until_hash_app by done.
  pose proof (sum_range l). rewrite Z.shiftr_div_pow2, !(Z.land_ones _ 4 ltac:(lia) : Z.land _ 15 = _) by lia.
  change (2 ^ 4) with 16. rewrite !hex_round by dlia. rewrite (proj2 (Z.eqb_eq _ _)) by dlia. done.
Qed.

(** ** The handler *)
Lemma put_digits_zero n : forall j (a b : bytes), (n <= length b)%nat ->
  put_digits n 0 j (a ++ b) (lenZ a) = Some (a ++ replicate n 48 ++ drop n b, lenZ a + Z.of_nat n).
Proof.
  induction n as [|n IH]; intros j a b Hb; cbn [put_digits].
  { by rewrite Z.add_0_r, drop_0. }
  destruct b as [|x b]; [cbn in Hb; lia|]. rewrite setZ_Some by (rewrite lenZ_app; unfold lenZ; cbn [length]; lia).
  cbn [mbind option_bind]. rewrite Z.shiftr_0_l. change (int_to_hex (Z.land 0 15)) with 48. unfold lenZ at 1. rewrite Nat2Z.id.
  rewrite insert_app_r_alt, Nat.sub_diag by lia. cbn [insert list_insert].
  specialize (IH (j + 1) (a ++ [48]) b ltac:(cbn in Hb; lia)). rewrite lenZ_app, <- app_assoc in IH. cbn [app] in IH.
  rewrite (IH : put_digits n 0 (j + 1) (a ++ 48 :: b) (lenZ a + 1) = _). rewrite <- app_assoc. unfold lenZ. cbn [length].
  do 2 f_equal. lia.
Qed.

Lemma put_registers_zero n : forall (a b : bytes), (16 * n <= length b)%nat ->
  put_registers (replicate n 0) (a ++ b) (lenZ a) =
    Some (a ++ replicate (16 * n) 48 ++ drop (16 * n) b, lenZ a + 16 * Z.of_nat n).
Proof.
  induction n as [|n IH]; intros a b Hb; cbn [replicate put_registers].
  { by rewrite Z.add_0_r, drop_0. }
  rewrite put_digits_zero by lia. cbn [mbind option_bind fst snd]. rewrite app_assoc.
  replace (lenZ a + Z.of_nat 16) with (lenZ (a ++ replicate 16 48)) by (rewrite lenZ_app, lenZ_replicate; done).
  rewrite IH by (rewrite length_drop; lia). rewrite drop_drop, <- app_assoc, (app_assoc (replicate 16 48)), <- replicate_add.
  rewrite lenZ_app, lenZ_replicate. replace (16 + 16 * n)%nat with (16 * S n)%nat by lia. do 2 f_equal. lia.
Qed.

Section correct.
Context (target : arch) (stack_buf : bytes).
Hypothesis stack_size : lenZ stack_buf = 512.

(** The registers of a build for ARM do not fit. *)
Lemma read_registers_x86 s : target = X86_64 ->
  gdb_handle_read_registers target stack_buf s = Some (Stub (gdb_state s) (out s ++ framed (replicate 256 48))).
Proof.
  intros ->. unfold gdb_handle_read_registers, registers, lenZ in *.
  rewrite (put_registers_zero 16 [] stack_buf ltac:(lia) : put_registers _ stack_buf 0 = _). cbn [mbind option_bind fst snd].
  change (16 * 16)%nat with 256%nat. destruct (drop 256 stack_buf) as [|x rest] eqn:E.
  { apply (f_equal length) in E. rewrite length_drop in E. cbn in E. lia. }
  change ([] ++ ?l) with l. rewrite setZ_Some by (unfold lenZ; rewrite length_app, length_replicate; cbn [length]; lia).
  cbn [mbind option_bind]. change (Z.to_nat _) with 256%nat. rewrite insert_app_r_alt by (rewrite length_replicate; lia).
  rewrite length_replicate. change (_ - 256)%nat with 0%nat. cbn [insert list_insert].
  apply send_packet_spec. apply list.Forall_replicate. lia.
Qed.

(** What the stub answers to the request [p]: a line on the console, and the text
    of a packet, if it sends one. *)
Definition log (p : bytes) : bytes :=
  match p with
  | [] => []
  | c :: _ =>
      if c =? 99 then str "[GDB] Continue requested" ++ [10]
      else if c =? 115 then str "[GDB] Step requested" ++ [10]
      else if c =? 107 then str "[GDB] Kill requested" ++ [10]
      else []
  end.
Definition reply (p : bytes) : option bytes :=
  match p with
  | [] => None
  | c :: q =>
      if (c =? 99) || (c =? 107) then None
      else if (c =? 63) || (c =? 115) then Some (str "S05")
      else if c =? 113 then Some (if decide (head q = Some 67) then str "QC1" else [])
      else if c =? 103 then Some (replicate 256 48)
      else if c =? 109 then Some (str "00000000")
      else if c =? 68 then Some (str "OK")
      else Some []
  end.
Definition packet (t : option bytes) : bytes := match t with Some l => framed l | None => [] end.
Definition answer (p : bytes) : bytes := log p ++ packet (reply p).

(** Continue and detach end the connection. *)
Definition ends (p : bytes) : bool := match p with c :: _ => (c =? 99) || (c =? 68) | [] => false end.

Lemma send_lit t s : forallb (fun c => negb (c =? 0)) (str t) = true ->
  gdb_send_packet (lit t) s = Some (Stub (gdb_state s) (out s ++ framed (str t))).
Proof. intros H. apply send_packet_spec, nul_free_lit, H. Qed.

Lemma print_line t s : forallb (fun c => negb (c =? 0)) (str t) = true ->
  console_print (str t ++ [10; 0]) s = Some (Stub (gdb_state s) (out s ++ str t ++ [10])).
Proof.
  intros H. change ([10; 0]) with ([10] ++ [0]). rewrite app_assoc. apply print_spec. apply list.Forall_app.
  split; [by apply nul_free_lit|by constructor].
Qed.

Lemma handle_query_spec q rest s : nul_free q ->
  gdb_handle_query (q ++ 0 :: rest) s =
    Some (Stub (gdb_state s) (out s ++ framed (if decide (head q = Some 67) then str "QC1" else []))).
Proof.
  intros Hq. unfold gdb_handle_query. destruct q as [|c q]; cbn [app].
  { cbn -[gdb_send_packet]. by rewrite (send_lit ""). }
  change (getZ (c :: q ++ 0 :: rest) 0) with (Some c). cbn [mbind option_bind]. cbn [head].
  destruct (Z.eqb_spec c 83) as [->|Hc].
  { assert (exists b : bool, (q1 ← getZ (83 :: q ++ 0 :: rest) 1;
      if q1 =? 117 then q2 ← getZ (83 :: q ++ 0 :: rest) 2; Some (q2 =? 112) else Some false) = Some b) as [b ->].
    { destruct q as [|c1 q]; [by exists false|]. change (getZ (83 :: (c1 :: q) ++ 0 :: rest) 1) with (Some c1).
      cbn [mbind option_bind]. destruct (c1 =? 117); [|by exists false].
      destruct (getZ_is_Some (83 :: (c1 :: q) ++ 0 :: rest) 2) as [x ->]; [|by exists (x =? 112)].
      unfold lenZ. cbn [app length]. rewrite length_app. cbn [length]. lia. }
    cbn [mbind option_bind]. rewrite decide_False by done. destruct b; by rewrite (send_lit ""). }
  cbn [mbind option_bind]. destruct (Z.eqb_spec c 67) as [->|Hc'].
  - rewrite decide_True by done. by rewrite (send_lit "QC1").
  - rewrite decide_False by congruence. by rewrite (send_lit "").
Qed.

Lemma handle_packet_spec p rest s : target = X86_64 -> nul_free p ->
  gdb_handle_packet target stack_buf (p ++ 0 :: rest) s =
    Some (Stub (if ends p then set_connected false (gdb_state s) else gdb_state s) (out s ++ answer p)).
Proof.
  intros Ht Hp. unfold gdb_handle_packet. destruct p as [|c q]; cbn [app].
  { change (getZ (0 :: rest) 0) with (Some 0). cbn [mbind option_bind Z.eqb ends answer]. rewrite app_nil_r. by destruct s. }
  change (getZ (c :: q ++ 0 :: rest) 0) with (Some c). cbn [mbind option_bind]. change (drop 1 (c :: q ++ 0 :: rest)) with (q ++ 0 :: rest).
  apply list.Forall_cons in Hp as [Hc Hq]. rewrite (proj2 (Z.eqb_neq c 0)) by done. unfold answer, log, reply. cbn [ends].
  repeat match goal with |- context [c =? ?k] => destruct (Z.eqb_spec c k) as [->|]; cbn [orb] end;
    rewrite ?read_registers_x86, ?handle_query_spec by done;
    unfold gdb_handle_read_memory, gdb_handle_continue, gdb_handle_step, gdb_send_ok;
    rewrite ?print_line by done; cbn [mbind option_bind]; rewrite ?send_lit by done; cbn [mbind option_bind out gdb_state];
    rewrite <- ?app_assoc; done.
Qed.

(** ** Input *)
Record stub_ok (s : stub) : Prop := {
  so_len : lenZ (buffer (gdb_state s)) = GDB_BUFFER_SIZE;
  so_pos : 0 <= pos (gdb_state s) <= GDB_BUFFER_SIZE - 1
}.

(** The text collected so far is [acc]. *)
Definition collected (s : stub) (acc : bytes) : Prop :=
  enabled (gdb_state s) = true /\ pos (gdb_state s) = lenZ acc /\ take (length acc) (buffer (gdb_state s)) = acc.

(** The characters of a packet that have no meaning of their own to the receiver. *)
Definition plain (c : Z) : Prop := c <> 0 /\ c <> 36 /\ c <> 35 /\ c <> 43 /\ c <> 45.

Lemma input_plain c s acc : stub_ok s -> collected s acc -> plain c -> lenZ acc < 1023 ->
  exists s', gdbstub_input_char target stack_buf c s = Some s' /\ stub_ok s' /\ out s' = out s /\
    connected (gdb_state s') = connected (gdb_state s) /\ collected s' (acc ++ [c]).
Proof.
  intros [Hl Hp] (He & Hpos & Hacc) (H0 & H1 & H2 & H3 & H4) Hlt. unfold GDB_BUFFER_SIZE in *.
  unfold gdbstub_input_char. rewrite He. cbn [negb]. rewrite !(proj2 (Z.eqb_neq c _)) by done.
  unfold GDB_BUFFER_SIZE. rewrite (proj2 (Z.ltb_lt _ _)) by lia. rewrite setZ_Some by lia. cbn [mbind option_bind].
  eexists. split; [reflexivity|]. rewrite u32_id by (red; lia).
  split; [split; cbn [gdb_state buffer pos]; [by rewrite lenZ_insert|unfold GDB_BUFFER_SIZE; lia]|].
  split; [done|]. split; [done|]. split; [done|]. cbn [gdb_state pos buffer]. rewrite lenZ_app.
  split; [unfold lenZ in *; cbn [length]; lia|]. rewrite length_app. cbn [length]. rewrite Hpos. unfold lenZ in *.
  rewrite Nat2Z.id, Nat.add_1_r. erewrite take_S_r by (apply list_lookup_insert_eq; lia).
  rewrite take_insert_ge by lia. by rewrite Hacc.
Qed.

Lemma input_text l : forall s acc, stub_ok s -> collected s acc -> Forall plain l -> lenZ acc + lenZ l <= 1023 ->
  exists s', gdbstub_input target stack_buf l s = Some s' /\ stub_ok s' /\ out s' = out s /\
    connected (gdb_state s') = connected (gdb_state s) /\ collected s' (acc ++ l).
Proof.
  induction l as [|c l IH]; intros s acc Hs Hc Hl Hn; cbn [gdbstub_input].
  { exists s. by rewrite app_nil_r. }
  apply list.Forall_cons in Hl as [Hc1 Hl]. destruct (input_plain c s acc Hs Hc Hc1 ltac:(unfold lenZ in *; cbn [length] in Hn; lia)) as (s1 & -> & Hs1 & O1 & N1 & C1).
  cbn [mbind option_bind]. destruct (IH s1 _ Hs1 C1 Hl) as (s' & E & Hs' & O' & N' & C').
  { unfold lenZ in *. rewrite length_app. cbn [length] in *. lia. }
  exists s'. split; [done|]. split; [done|]. split; [congruence|]. split; [congruence|]. by rewrite <- app_assoc in C'.
Qed.

Lemma split_at_pos (buf acc : bytes) : lenZ buf = 1024 -> (length acc <= 1023)%nat -> take (length acc) buf = acc ->
  exists rest, setZ buf (lenZ acc) 0 = Some (acc ++ 0 :: rest).
Proof.
  intros Hl Ha Ht. rewrite setZ_Some by (unfold lenZ in *; lia). rewrite <- (take_drop (length acc) buf), Ht.
  destruct (drop (length acc) buf) as [|x rest] eqn:E.
  { apply (f_equal length) in E. rewrite length_drop in E. unfold lenZ in *. cbn in E. lia. }
  exists rest. unfold lenZ. rewrite Nat2Z.id, insert_app_r_alt, Nat.sub_diag by lia. done.
Qed.

Lemma gdbstub_input_app l1 l2 s :
  gdbstub_input target stack_buf (l1 ++ l2) s = s1 ← gdbstub_input target stack_buf l1 s; gdbstub_input target stack_buf l2 s1.
Proof.
  revert s. induction l1 as [|c l1 IH]; intros s; [done|]. cbn [app gdbstub_input].
  destruct (gdbstub_input_char target stack_buf c s) as [s1|]; [|done]. cbn [mbind option_bind]. apply IH.
Qed.

Lemma input_hash s acc : target = X86_64 -> stub_ok s -> collected s acc -> nul_free acc ->
  exists s', gdbstub_input_char target stack_buf 35 s = Some s' /\ stub_ok s' /\ enabled (gdb_state s') = true /\
    out s' = out s ++ answer acc /\ connected (gdb_state s') = (if ends acc then false else connected (gdb_state s)) /\
    collected s' [].
Proof.
  intros Ht Hs (He & Hp & Hb) Hn. pose proof (so_len _ Hs) as Hl. pose proof (so_pos _ Hs) as Hr. unfold GDB_BUFFER_SIZE in *.
  destruct (split_at_pos _ acc Hl ltac:(unfold lenZ in *; lia) Hb) as [rest Hset].
  unfold gdbstub_input_char. rewrite He. cbn [negb]. change (35 =? 36) with false. change (35 =? 35) with true. cbv iota.
  rewrite Hp, Hset. cbn [mbind option_bind]. rewrite handle_packet_spec by done. cbn [mbind option_bind].
  assert (lenZ (acc ++ 0 :: rest) = 1024) as Hl'.
  { rewrite <- Hl. apply setZ_inv in Hset as [_ ->]. by rewrite lenZ_insert. }
  eexists. split; [reflexivity|]. unfold on_state, set_pos, set_connected. cbn [gdb_state out].
  destruct (ends acc); cbn [buffer pos connected enabled gdb_state];
    (split; [split; cbn; [done|unfold GDB_BUFFER_SIZE; lia]|done]).
Qed.

(** ** Any input *)
Lemma handle_query_ok q s : 3 <= lenZ q -> exists o, gdb_handle_query q s = Some (Stub (gdb_state s) o).
Proof.
  intros Hq. unfold gdb_handle_query. destruct (getZ_is_Some q 0) as [q0 ->]; [lia|]. destruct (getZ_is_Some q 1) as [q1 ->]; [lia|].
  destruct (getZ_is_Some q 2) as [q2 ->]; [lia|]. cbn [mbind option_bind].
  destruct (q0 =? 83); [destruct (q1 =? 117); [destruct (q2 =? 112)|]|]; cbn [mbind option_bind]; try destruct (q0 =? 67);
    rewrite send_lit by done; eauto.
Qed.

Lemma handle_packet_ok packet s : target = X86_64 -> lenZ packet = 1024 ->
  exists o b, gdb_handle_packet target stack_buf packet s = Some (Stub (set_connected b (gdb_state s)) o).
Proof.
  intros Ht Hl. destruct (getZ_is_Some packet 0) as [c Hc]; [lia|]. unfold gdb_handle_packet. rewrite Hc. cbn [mbind option_bind].
  destruct (handle_query_ok (drop 1 packet) s) as [o Hq]; [unfold lenZ in *; rewrite length_drop; lia|].
  assert (gdb_state s = set_connected (connected (gdb_state s)) (gdb_state s)) as Es by (destruct s as [[] ?]; done).
  repeat match goal with |- context [c =? ?k] => destruct (Z.eqb_spec c k) as [->|] end;
    rewrite ?read_registers_x86, ?Hq by done;
    unfold gdb_handle_read_memory, gdb_handle_continue, gdb_handle_step, gdb_send_ok;
    rewrite ?print_line by done; cbn [mbind option_bind]; rewrite ?send_lit by done; cbn [mbind option_bind];
    unfold on_state; cbn [gdb_state out].
  1: { exists (out s), (connected (gdb_state s)). rewrite <- Es. by destruct s. }
  all: first [eexists _, (connected (gdb_state s)); rewrite <- Es; reflexivity|eexists _, false; reflexivity].
Qed.

(** Any character is taken without an access outside the buffers. *)
Lemma input_char_ok c s : target = X86_64 -> stub_ok s -> enabled (gdb_state s) = true ->
  exists s', gdbstub_input_char target stack_buf c s = Some s' /\ stub_ok s' /\ enabled (gdb_state s') = true.
Proof.
  intros Ht Hs He. pose proof (so_len _ Hs) as Hl. pose proof (so_pos _ Hs) as Hr. unfold GDB_BUFFER_SIZE in *.
  unfold gdbstub_input_char. rewrite He. cbn [negb]. destruct (Z.eqb_spec c 36) as [->|].
  { eexists. split; [done|]. split; [split; cbn; [done|unfold GDB_BUFFER_SIZE; lia]|done]. }
  destruct (Z.eqb_spec c 35) as [->|].
  { rewrite setZ_Some by lia. cbn [mbind option_bind]. set (buf := <[_ := _]> (buffer _)).
    assert (lenZ buf = 1024) as Hb by (unfold buf; by rewrite lenZ_insert).
    destruct (handle_packet_ok buf (Stub (State buf (pos (gdb_state s)) true (connected (gdb_state s))) (out s)) Ht Hb)
      as (o & b & ->).
    cbn [mbind option_bind]. eexists. split; [reflexivity|]. cbn. split; [split; cbn; [done|unfold GDB_BUFFER_SIZE; lia]|done]. }
  destruct (c =? 43); [by exists s|]. destruct (c =? 45); [by exists s|].
  unfold GDB_BUFFER_SIZE. destruct (Z.ltb_spec (pos (gdb_state s)) (1024 - 1)); [|by exists s].
  rewrite setZ_Some by lia. cbn [mbind option_bind]. eexists. split; [reflexivity|]. cbn.
  split; [split; cbn; [by rewrite lenZ_insert|rewrite u32_id by (red; lia); unfold GDB_BUFFER_SIZE in *; lia]|done].
Qed.

Lemma input_ok l : forall s, target = X86_64 -> stub_ok s -> enabled (gdb_state s) = true ->
  exists s', gdbstub_input target stack_buf l s = Some s' /\ stub_ok s' /\ enabled (gdb_state s') = true.
Proof.
  induction l as [|c l IH]; intros s Ht Hs He; cbn [gdbstub_input]; [by exists s|].
  destruct (input_char_ok c s Ht Hs He) as (s1 & -> & Hs1 & He1). by apply IH.
Qed.

(** ** Packets *)
Lemma hex_plain v : 0 <= v < 16 -> plain (int_to_hex v).
Proof. intros Hv. unfold int_to_hex, plain. case_match; lia. Qed.

Lemma framed_plain l : exists h h', framed l = 36 :: l ++ [35; h; h'] /\ plain h /\ plain h'.
Proof.
  unfold framed. do 2 eexists. split; [reflexivity|]. pose proof (sum_range l).
  split; apply hex_plain; change 15 with (Z.ones 4); rewrite Z.land_ones by lia; apply Z.mod_pos_bound; lia.
Qed.

Lemma input_framed s payload :
  target = X86_64 -> stub_ok s -> enabled (gdb_state s) = true -> Forall plain payload -> lenZ payload <= 1023 ->
  exists s', gdbstub_input target stack_buf (framed payload) s = Some s' /\ stub_ok s' /\
    enabled (gdb_state s') = true /\ out s' = out s ++ answer payload /\ connected (gdb_state s') = negb (ends payload).
Proof.
  intros Ht Hs He Hp Hn. destruct (framed_plain payload) as (h & h' & -> & Hh & Hh').
  cbn [gdbstub_input]. unfold gdbstub_input_char at 1. rewrite He. cbn [negb].
  change (36 =? 36) with true. cbn [mbind option_bind]. set (s1 := on_state _ s).
  assert (stub_ok s1) as Hs1. { split; [apply (so_len _ Hs)|cbn; unfold GDB_BUFFER_SIZE; lia]. }
  destruct (input_text payload s1 [] Hs1 ltac:(done) Hp Hn) as (s2 & E2 & Hs2 & O2 & N2 & C2).
  assert (nul_free payload) as Hz. { eapply list.Forall_impl; [exact Hp|]. by intros c [? _]. }
  destruct (input_hash s2 _ Ht Hs2 C2 Hz) as (s3 & E3 & Hs3 & He3 & O3 & N3 & P3).
  destruct (input_text [h; h'] s3 [] Hs3 P3) as (s4 & E4 & Hs4 & O4 & N4 & (He4 & _)); [do 2 (constructor; [done|]); constructor|done|].
  exists s4. rewrite gdbstub_input_app, E2. cbn [mbind option_bind]. change (35 :: _) with ([35] ++ [h; h']).
  rewrite gdbstub_input_app. cbn [gdbstub_input] in *. rewrite E3. cbn [mbind option_bind]. split; [exact E4|].
  split; [done|]. split; [done|]. rewrite O4, N4, O3, N3, O2, N2. split; [done|]. by destruct (ends _).
Qed.

Lemma reply_plain p t : reply p = Some t -> ~ In 35 t.
Proof.
  destruct p as [|c q]; [done|]. unfold reply. repeat case_match; intros [= <-]; try (vm_compute; intuition discriminate).
Qed.

Lemma log_plain p : ~ In 36 (log p).
Proof. destruct p as [|c q]; unfold log; repeat case_match; vm_compute; intuition discriminate. Qed.

(** C24: the stub of an x86-64 build takes any input and answers with packets.
    Whatever characters [before] arrive at an enabled stub, no access is outside
    the buffers.  A packet that then arrives complete, dollar, text, hash and
    checksum, is handled with exactly its text, for a text of at most 1023
    characters without NUL and [$ # + -].  What the stub writes is a log line
    without a dollar and at most one packet; a receiver that verifies the
    checksum reads [reply payload] from it.  The stub is disconnected exactly
    after a continue or a detach.  (The replies to [g] and [m] are constants, and
    no packet is acknowledged; the model follows the code in both.) *)
Theorem gdb_packet_correct s before payload :
  target = X86_64 -> stub_ok s -> enabled (gdb_state s) = true -> Forall plain payload -> lenZ payload <= 1023 ->
  exists s1 s2 pkt, gdbstub_input target stack_buf before s = Some s1 /\ stub_ok s1 /\
    gdbstub_input target stack_buf (framed payload) s1 = Some s2 /\ stub_ok s2 /\
    enabled (gdb_state s2) = true /\ connected (gdb_state s2) = negb (ends payload) /\
    out s2 = out s1 ++ log payload ++ pkt /\ ~ In 36 (log payload) /\
    match reply payload with Some t => receive pkt = Some (t, []) | None => pkt = [] end.
Proof.
  intros Ht Hs He Hp Hn. destruct (input_ok before s Ht Hs He) as (s1 & E1 & Hs1 & He1).
  destruct (input_framed s1 payload Ht Hs1 He1 Hp Hn) as (s2 & E2 & Hs2 & He2 & O2 & N2).
  exists s1, s2, (packet (reply payload)). do 7 (split; [done|]). split; [apply log_plain|].
  destruct (reply payload) as [t|] eqn:Er; [|done]. cbn [packet]. rewrite <- (app_nil_r (framed t)).
  apply receive_framed. by eapply reply_plain.
Qed.

(** Nothing leaves the loop of a breakpoint. *)
Lemma wait_loop_hangs fuel s : connected (gdb_state s) = true -> wait_loop fuel s = More.
Proof. intros Hc. induction fuel as [|fuel IH]; cbn [wait_loop]; by rewrite Hc. Qed.

Lemma gdbstub_breakpoint_hangs fuel s : enabled (gdb_state s) = true -> gdbstub_breakpoint fuel s = More.
Proof.
  intros He. unfold gdbstub_breakpoint. rewrite He. cbn [negb]. rewrite print_line by done. cbn [mbind option_bind].
  rewrite send_lit by done. by apply wait_loop_hangs.
Qed.

(** a build for ARM answers the request for the registers by writing the NUL
    behind the 512 digits of its 32 registers outside the buffer. *)
Theorem gdb_registers_overflow s : target = AARCH64 -> gdb_handle_packet target stack_buf [103; 0] s = None.
Proof.
  intros ->. unfold gdb_handle_packet. change (getZ [103; 0] 0) with (Some 103). cbn [mbind option_bind].
  repeat match goal with |- context [103 =? ?k] => let v := eval vm_compute in (103 =? k) in change (103 =? k) with v end. cbv iota.
  unfold gdb_handle_read_registers, registers, lenZ in *.
  rewrite (put_registers_zero 32 [] stack_buf ltac:(lia) : put_registers _ stack_buf 0 = _). cbn [mbind option_bind fst snd].
  rewrite drop_ge, app_nil_r by lia. reflexivity.
Qed.

End correct.

Definition stub0 : stub := Stub (State (replicate 1024 0) 7 true false) [].

Lemma stub0_ok : stub_ok stub0.
Proof. split; [done|vm_compute; split; discriminate]. Qed.

Lemma gdb_packet_correct_witness :
  exists s1 s2 pkt, gdbstub_input X86_64 (replicate 512 0) [43; 35; 36; 103] stub0 = Some s1 /\ stub_ok s1 /\
    gdbstub_input X86_64 (replicate 512 0) (framed [113; 67]) s1 = Some s2 /\ stub_ok s2 /\
    enabled (gdb_state s2) = true /\ connected (gdb_state s2) = negb (ends [113; 67]) /\
    out s2 = out s1 ++ log [113; 67] ++ pkt /\ ~ In 36 (log [113; 67]) /\
    match reply [113; 67] with Some t => receive pkt = Some (t, []) | None => pkt = [] end.
Proof.
  apply (gdb_packet_correct X86_64 (replicate 512 0) eq_refl stub0 [43; 35; 36; 103] [113; 67] eq_refl stub0_ok eq_refl);
    [by repeat constructor|done].
Defined.

Lemma gdb_registers_overflow_witness : gdb_handle_packet AARCH64 (replicate 512 0) [103; 0] stub0 = None.
Proof. exact (gdb_registers_overflow AARCH64 (replicate 512 0) eq_refl stub0 eq_refl). Defined.

End Gdbstub.
