(* ===== verification/Debugger.v ===== *)
(** * The serial debugger: [src/kernel/debugger.c]

    A command line over the console: the state of the line buffer and the
    characters handed to the console.  The values that the inline assembly of
    [cmd_regs] reads are those of a parameter. *)
From Stdlib Require Import String.
From S2P Require Import Prelude KernelLib Console.
Import CString.
Open Scope list_scope.
Open Scope Z_scope.

Module Debugger.

Definition CMD_BUFFER_SIZE : Z := 128.

Record debugger_state := State { buffer : bytes; pos : Z; enabled : bool }.
Record dbg := Dbg { state : debugger_state; out : bytes }.

Definition initial : debugger_state := State (replicate 128 0) 0 false.

Definition put (l : bytes) (d : dbg) : dbg := Dbg (state d) (out d ++ l).

(** [console_print] of a literal, and of one with a line end. *)
Definition print (t : string) : dbg -> dbg := put (str t).
Definition println (t : string) : dbg -> dbg := put (str t ++ [10]).
Definition console_print (s : bytes) (d : dbg) : option dbg := l ← Console.chars s; Some (put l d).
Definition console_print_hex (n : Z) (d : dbg) : option dbg := l ← Console.hex_text n; Some (put l d).

Definition set_enabled (b : bool) (d : dbg) : dbg := Dbg (State (buffer (state d)) (pos (state d)) b) (out d).

Definition debugger_init (d : dbg) : dbg :=
  println "Serial debugger initialized. Type 'help' for commands." (set_enabled true d).

Definition debugger_prompt (d : dbg) : dbg := if negb (enabled (state d)) then d else print "> " d.

Definition cmd_help (d : dbg) : dbg :=
  let d := println "Available commands:" d in
  let d := println "  help     - Show this help" d in
  let d := println "  regs     - Display CPU registers" d in
  let d := println "  mem      - Display memory (mem <addr> <len>)" d in
  let d := println "  break    - Set breakpoint (break <addr>)" d in
  let d := println "  cont     - Continue execution" d in
  let d := println "  step     - Single-step execution" d in
  let d := println "  bt       - Show backtrace" d in
  let d := println "  info     - Show system information" d in
  println "  devices  - List registered devices" d.

(** The target of the build. *)
Inductive arch := X86_64 | AARCH64 | OTHER.

Section debugger.
Context (target : arch) (reg : string -> Z).

(** One line of the dump: the label and the register. *)
Definition print_reg (label r : string) (d : dbg) : option dbg :=
  d ← console_print_hex (reg r) (print label d); Some (put [10] d).

Fixpoint print_regs (l : list (string * string)) (d : dbg) : option dbg :=
  match l with [] => Some d | (label, r) :: l' => d ← print_reg label r d; print_regs l' d end.

Open Scope string_scope.
Definition cmd_regs (d : dbg) : option dbg :=
  let d := println "CPU Registers:" d in
  match target with
  | X86_64 => print_regs [("  RAX: 0x", "rax"); ("  RBX: 0x", "rbx"); ("  RCX: 0x", "rcx"); ("  RDX: 0x", "rdx");
                          ("  RSI: 0x", "rsi"); ("  RDI: 0x", "rdi"); ("  RSP: 0x", "rsp"); ("  RBP: 0x", "rbp")] d
  | AARCH64 => print_regs [("  X0:  0x", "x0"); ("  X1:  0x", "x1"); ("  X2:  0x", "x2"); ("  X3:  0x", "x3");
                           ("  SP:  0x", "sp"); ("  LR:  0x", "x30")] d
  | OTHER => Some (println "  Register dump not supported on this architecture" d)
  end.
Close Scope string_scope.

Definition cmd_mem (args : bytes) (d : dbg) : option dbg :=
  d ← console_print args (print "Memory dump: " d);
  Some (println "(Not yet implemented)" (put [10] d)).

Definition cmd_break (args : bytes) (d : dbg) : option dbg :=
  d ← console_print args (print "Set breakpoint at: " d);
  Some (println "(Not yet implemented)" (put [10] d)).

Definition cmd_cont : dbg -> dbg := println "Continuing execution...".
Definition cmd_step (d : dbg) : dbg := println "(Not yet implemented)" (println "Single-stepping..." d).
Definition cmd_bt (d : dbg) : dbg := println "(Not yet implemented)" (println "Backtrace:" d).

Definition cmd_info (d : dbg) : dbg :=
  let d := println "  Kernel: Devine OS" (println "System Information:" d) in
  println match target with
          | X86_64 => "  Architecture: x86_64"
          | AARCH64 => "  Architecture: ARM64"
          | OTHER => "  Architecture: Unknown"
          end d.

Definition cmd_devices (d : dbg) : dbg :=
  println "(Device list will be shown here)" (println "Registered Devices:" d).

(** The prefix is a literal, the string is read up to the first difference. *)
Fixpoint str_starts_with (s prefix : bytes) {struct prefix} : option bool :=
  match prefix with
  | [] => Some true
  | p :: prefix' =>
      match s with
      | [] => None
      | c :: s' => if negb (c =? p) then Some false else str_starts_with s' prefix'
      end
  end.

Fixpoint skip_whitespace (s : bytes) : option bytes :=
  match s with
  | [] => None
  | c :: s' => if (c =? 32) || (c =? 9) then skip_whitespace s' else Some s
  end.

(** The loop over the characters of the first word. *)
Fixpoint skip_word (s : bytes) : option bytes :=
  match s with
  | [] => None
  | c :: s' => if negb (c =? 0) && negb (c =? 32) && negb (c =? 9) then skip_word s' else Some s
  end.

Definition debugger_handle_command (cmd : bytes) (d : dbg) : option dbg :=
  if negb (enabled (state d)) then Some d
  else
    args ← skip_word cmd;
    args ← skip_whitespace args;
    b ← str_starts_with cmd (str "help");
    if b : bool then Some (cmd_help d)
    else b ← str_starts_with cmd (str "regs");
    if b : bool then cmd_regs d
    else b ← str_starts_with cmd (str "mem");
    if b : bool then cmd_mem args d
    else b ← str_starts_with cmd (str "break");
    if b : bool then cmd_break args d
    else b ← str_starts_with cmd (str "cont");
    if b : bool then Some (cmd_cont d)
    else b ← str_starts_with cmd (str "step");
    if b : bool then Some (cmd_step d)
    else b ← str_starts_with cmd (str "bt");
    if b : bool then Some (cmd_bt d)
    else b ← str_starts_with cmd (str "info");
    if b : bool then Some (cmd_info d)
    else b ← str_starts_with cmd (str "devices");
    if b : bool then Some (cmd_devices d)
    else
      c ← getZ cmd 0;
      if negb (c =? 0) then
        d ← console_print cmd (print "Unknown command: " d);
        Some (println "Type 'help' for available commands." (put [10] d))
      else Some d.

Definition debugger_input_char (c : Z) (d : dbg) : option dbg :=
  if negb (enabled (state d)) then Some d
  else if (c =? 10) || (c =? 13) then
    let d := put [10] d in
    buf ← setZ (buffer (state d)) (pos (state d)) 0;
    d ← debugger_handle_command buf (Dbg (State buf (pos (state d)) (enabled (state d))) (out d));
    Some (debugger_prompt (Dbg (State (buffer (state d)) 0 (enabled (state d))) (out d)))
  else if (c =? 8) || (c =? 127) then
    if 0 <? pos (state d) then
      Some (put [8; 32; 8] (Dbg (State (buffer (state d)) (u32 (pos (state d) - 1)) (enabled (state d))) (out d)))
    else Some d
  else if pos (state d) <? CMD_BUFFER_SIZE - 1 then
    buf ← setZ (buffer (state d)) (pos (state d)) c;
    Some (put [c] (Dbg (State buf (u32 (pos (state d) + 1)) (enabled (state d))) (out d)))
  else Some d.

Definition debugger_is_enabled (d : dbg) : bool := enabled (state d).
Definition debugger_enable : dbg -> dbg := set_enabled true.
Definition debugger_disable : dbg -> dbg := set_enabled false.

Fixpoint debugger_input (l : bytes) (d : dbg) : option dbg :=
  match l with [] => Some d | c :: l' => d ← debugger_input_char c d; debugger_input l' d end.

(** ** Commands *)
Hypothesis reg_ok : forall r, is_u64 (reg r).

(** What a command without arguments puts out. *)
Definition text (f : dbg -> dbg) : bytes := out (f (Dbg initial [])).
Definition reg_line (e : string * string) : bytes := str e.1 ++ default [] (Console.hex_text (reg e.2)) ++ [10].
Definition regs_text : bytes := match cmd_regs (Dbg initial []) with Some d => out d | None => [] end.

Fixpoint drop_while (p : Z -> bool) (l : bytes) : bytes :=
  match l with [] => [] | c :: l' => if p c then drop_while p l' else l end.
Definition blank (c : Z) : bool := (c =? 32) || (c =? 9).
Definition args_of (l : bytes) : bytes := drop_while blank (drop_while (fun c => negb (blank c)) l).

Definition starts (l p : bytes) : bool := bool_decide (take (length p) l = p).

Definition table : list (bytes * (bytes -> bytes)) :=
  [(str "help", fun _ => text cmd_help); (str "regs", fun _ => regs_text);
   (str "mem", fun a => str "Memory dump: " ++ a ++ [10] ++ str "(Not yet implemented)" ++ [10]);
   (str "break", fun a => str "Set breakpoint at: " ++ a ++ [10] ++ str "(Not yet implemented)" ++ [10]);
   (str "cont", fun _ => text cmd_cont); (str "step", fun _ => text cmd_step); (str "bt", fun _ => text cmd_bt);
   (str "info", fun _ => text cmd_info); (str "devices", fun _ => text cmd_devices)].

(** The answer to the command line [l]: of the first command of the table whose name it starts with. *)
Definition response (l : bytes) : bytes :=
  match List.find (fun e => starts l e.1) table with
  | Some e => e.2 (args_of l)
  | None =>
      match l with
      | [] => []
      | _ => str "Unknown command: " ++ l ++ [10] ++ str "Type 'help' for available commands." ++ [10]
      end
  end.

Lemma put_put a b d : put b (put a d) = put (a ++ b) d.
Proof. unfold put. cbn. by rewrite app_assoc. Qed.

Lemma starts_with_spec l rest p : nul_free p -> str_starts_with (l ++ 0 :: rest) p = Some (starts l p).
Proof.
  intros Hp. revert l. induction Hp as [|x p Hx Hp IH]; intros l; cbn [str_starts_with]; [done|].
  unfold starts. destruct l as [|c l]; cbn [app length firstn].
  { rewrite (proj2 (Z.eqb_neq 0 x)) by done. by rewrite bool_decide_eq_false_2. }
  destruct (Z.eqb_spec c x) as [->|Hc]; cbn [negb].
  - rewrite IH. unfold starts. f_equal. apply bool_decide_ext. split; [by intros ->|by intros [=]].
  - rewrite bool_decide_eq_false_2; [done|]. by intros [=].
Qed.

Lemma skip_word_spec l rest : nul_free l ->
  skip_word (l ++ 0 :: rest) = Some (drop_while (fun c => negb (blank c)) l ++ 0 :: rest).
Proof.
  induction 1 as [|c l Hc Hl IH]; [done|]. cbn [app skip_word drop_while]. rewrite (proj2 (Z.eqb_neq c 0)) by done.
  unfold blank in *. rewrite negb_orb. cbn [negb andb]. by destruct (negb (c =? 32) && negb (c =? 9)).
Qed.

Lemma skip_whitespace_spec l rest : nul_free l -> skip_whitespace (l ++ 0 :: rest) = Some (drop_while blank l ++ 0 :: rest).
Proof. induction 1 as [|c l Hc Hl IH]; [done|]. cbn [app skip_whitespace drop_while]. unfold blank in *. by destruct (_ || _). Qed.

Lemma drop_while_nul_free p l : nul_free l -> nul_free (drop_while p l).
Proof. induction 1 as [|c l Hc Hl IH]; cbn; [by constructor|]. destruct (p c); [done|by constructor]. Qed.

Lemma hex_text_total r : exists l, Console.hex_text (reg r) = Some l.
Proof.
  unfold Console.hex_text, Console.number_text. destruct (reg r =? 0); [eauto|].
  destruct (Console.digits_spec 16 Console.hex_char 32 ltac:(lia) (reg r)) as (l & -> & _); [|cbn; eauto].
  pose proof (reg_ok r) as H. red in H. change (16 ^ Z.of_nat 32) with 340282366920938463463374607431768211456. lia.
Qed.

Lemma print_regs_spec l d : print_regs l d = Some (put (concat (reg_line <$> l)) d).
Proof.
  revert d. induction l as [|[label r] l IH]; intros d; cbn [print_regs].
  { unfold put. cbn. rewrite app_nil_r. by destruct d. }
  unfold print_reg, console_print_hex. destruct (hex_text_total r) as [h Hh]. rewrite Hh. cbn [mbind option_bind].
  rewrite IH. unfold print. rewrite !put_put. cbn [fmap list_fmap concat]. unfold reg_line. cbn [fst snd]. rewrite Hh. cbn [default from_option id].
  by rewrite <- !app_assoc.
Qed.

Lemma cmd_regs_spec d : cmd_regs d = Some (put regs_text d).
Proof.
  unfold regs_text, cmd_regs. destruct target; rewrite ?print_regs_spec; unfold println; rewrite !put_put; done.
Qed.

Lemma console_print_spec l rest d : nul_free l -> console_print (l ++ 0 :: rest) d = Some (put l d).
Proof. intros Hl. unfold console_print. by rewrite Console.chars_spec. Qed.

Lemma handle_command_spec l rest d : nul_free l -> enabled (state d) = true ->
  debugger_handle_command (l ++ 0 :: rest) d = Some (put (response l) d).
Proof.
  intros Hl He. unfold debugger_handle_command. rewrite He. cbn [negb]. rewrite skip_word_spec by done. cbn [mbind option_bind].
  rewrite skip_whitespace_spec by by apply drop_while_nul_free. cbn [mbind option_bind]. fold (args_of l).
  assert (nul_free (args_of l)) as Ha by by apply drop_while_nul_free, drop_while_nul_free.
  unfold response, table. cbn [List.find fst snd].
  rewrite !starts_with_spec by by apply nul_free_lit. cbn [mbind option_bind].
  destruct (starts l (str "help")); [cbn [snd]; unfold text, cmd_help, println; by rewrite !put_put|].
  destruct (starts l (str "regs")); [apply cmd_regs_spec|].
  destruct (starts l (str "mem")).
  { unfold cmd_mem, print. rewrite console_print_spec by done. cbn [mbind option_bind snd]. unfold println. by rewrite !put_put, <- ?app_assoc. }
  destruct (starts l (str "break")).
  { unfold cmd_break, print. rewrite console_print_spec by done. cbn [mbind option_bind snd]. unfold println. by rewrite !put_put, <- ?app_assoc. }
  destruct (starts l (str "cont")); [done|].
  destruct (starts l (str "step")); [cbn [snd]; unfold text, cmd_step, println; by rewrite !put_put|].
  destruct (starts l (str "bt")); [cbn [snd]; unfold text, cmd_bt, println; by rewrite !put_put|].
  destruct (starts l (str "info")); [cbn [snd]; unfold text, cmd_info, println; by rewrite !put_put|].
  destruct (starts l (str "devices")); [cbn [snd]; unfold text, cmd_devices, println; by rewrite !put_put|].
  destruct l as [|c l]; cbn [app].
  { change (getZ (0 :: rest) 0) with (Some 0). cbn. unfold put. rewrite app_nil_r. by destruct d. }
  change (getZ (c :: l ++ 0 :: rest) 0) with (Some c). cbn [mbind option_bind]. pose proof Hl as [Hc _]%list.Forall_cons.
  rewrite (proj2 (Z.eqb_neq c 0)) by done. cbn [negb]. change (c :: l ++ 0 :: rest) with ((c :: l) ++ 0 :: rest).
  rewrite console_print_spec by done. cbn [mbind option_bind]. unfold print, println. by rewrite !put_put, <- ?app_assoc.
Qed.

(** ** The line *)

(** The line after a key, and what the key shows on the screen. *)
Definition rubout (c : Z) : bool := (c =? 8) || (c =? 127).
Definition edit (l : bytes) (c : Z) : bytes :=
  if rubout c then removelast l else if lenZ l <? 127 then l ++ [c] else l.
Definition echo (l : bytes) (c : Z) : bytes :=
  if rubout c then match l with [] => [] | _ => [8; 32; 8] end else if lenZ l <? 127 then [c] else [].
Fixpoint echoes (l keys : bytes) : bytes :=
  match keys with [] => [] | c :: keys' => echo l c ++ echoes (edit l c) keys' end.

Record holds_line (d : dbg) (l : bytes) : Prop := {
  hl_enabled : enabled (state d) = true;
  hl_len : lenZ (buffer (state d)) = CMD_BUFFER_SIZE;
  hl_pos : pos (state d) = lenZ l;
  hl_max : lenZ l <= 127;
  hl_line : take (length l) (buffer (state d)) = l;
  hl_nul : nul_free l
}.

Lemma removelast_take (l : bytes) : removelast l = take (length l - 1) l.
Proof.
  destruct l as [|x l] using rev_ind; [done|]. rewrite removelast_last, length_app. cbn [length].
  rewrite Nat.add_sub, take_app_length. done.
Qed.

Lemma input_key c d l : c <> 0 -> c <> 10 -> c <> 13 -> holds_line d l ->
  exists d', debugger_input_char c d = Some d' /\ holds_line d' (edit l c) /\ out d' = out d ++ echo l c.
Proof.
  intros H0 H1 H2 [He Hl Hp Hm Ht Hn]. unfold debugger_input_char, edit, echo. rewrite He. cbn [negb].
  rewrite (proj2 (Z.eqb_neq c 10)), (proj2 (Z.eqb_neq c 13)) by done. cbn [orb]. fold (rubout c). unfold CMD_BUFFER_SIZE in *.
  destruct (rubout c).
  - destruct l as [|x l].
    { rewrite Hp. change (0 <? lenZ []) with false. exists d. split; [done|]. rewrite app_nil_r. done. }
    rewrite Hp, (proj2 (Z.ltb_lt 0 _)) by (unfold lenZ; cbn [length]; lia). eexists. split; [reflexivity|].
    split; [|done]. rewrite removelast_take. set (k := (length (x :: l) - 1)%nat).
    assert (k < length (x :: l))%nat as Hk by (unfold k; cbn [length]; lia).
    split; cbn [state enabled buffer pos put]; try done.
    + rewrite u32_id by (red; unfold lenZ in *; cbn [length] in *; lia). unfold lenZ. rewrite length_take. unfold k. cbn [length] in *. lia.
    + unfold lenZ in *. rewrite length_take. lia.
    + rewrite length_take, Nat.min_l by lia. rewrite <- Ht, take_take. f_equal. lia.
    + by apply Forall_take.
  - rewrite Hp. change (128 - 1) with 127. destruct (Z.ltb_spec (lenZ l) 127) as [Hlt|Hge].
    + rewrite setZ_Some by (unfold lenZ in *; lia). cbn [mbind option_bind]. eexists. split; [reflexivity|].
      split; [|done]. split; cbn [state enabled buffer pos put]; try done.
      * by rewrite lenZ_insert.
      * rewrite lenZ_app, u32_id by (red; unfold lenZ in *; lia). done.
      * rewrite lenZ_app. unfold lenZ in *. cbn [length]. lia.
      * rewrite length_app. cbn [length]. unfold lenZ in *. rewrite Nat2Z.id, Nat.add_1_r.
        erewrite take_S_r by (apply list_lookup_insert_eq; lia). rewrite take_insert_ge by lia. by rewrite Ht.
      * apply list.Forall_app. split; [done|]. by constructor.
    + exists d. split; [done|]. rewrite app_nil_r. done.
Qed.

Definition key (c : Z) : Prop := c <> 0 /\ c <> 10 /\ c <> 13.

Lemma input_keys keys : forall d l, Forall key keys -> holds_line d l ->
  exists d', debugger_input keys d = Some d' /\ holds_line d' (foldl edit l keys) /\ out d' = out d ++ echoes l keys.
Proof.
  induction keys as [|c keys IH]; intros d l Hk Hd; cbn [debugger_input foldl echoes].
  { exists d. by rewrite app_nil_r. }
  apply list.Forall_cons in Hk as [(H0 & H1 & H2) Hk]. destruct (input_key c d l H0 H1 H2 Hd) as (d1 & -> & Hd1 & O1).
  cbn [mbind option_bind]. destruct (IH d1 _ Hk Hd1) as (d' & E & Hd' & O'). exists d'. split; [done|]. split; [done|].
  by rewrite O', O1, app_assoc.
Qed.

Lemma debugger_input_app l1 l2 d :
  debugger_input (l1 ++ l2) d = d1 ← debugger_input l1 d; debugger_input l2 d1.
Proof.
  revert d. induction l1 as [|c l1 IH]; intros d; [done|]. cbn [app debugger_input].
  destruct (debugger_input_char c d) as [d1|]; [|done]. cbn [mbind option_bind]. apply IH.
Qed.

Lemma input_return c d l : c = 10 \/ c = 13 -> holds_line d l ->
  exists d', debugger_input_char c d = Some d' /\ holds_line d' [] /\ out d' = out d ++ [10] ++ response l ++ str "> ".
Proof.
  intros Hc [He Hl Hp Hm Ht Hn]. unfold debugger_input_char. rewrite He. cbn [negb]. unfold CMD_BUFFER_SIZE in *.
  rewrite (proj2 (orb_true_iff _ _)) by lia. cbn [put state buffer pos].
  assert (exists rest, setZ (buffer (state d)) (pos (state d)) 0 = Some (l ++ 0 :: rest)) as [rest Hs].
  { rewrite setZ_Some by (unfold lenZ in *; lia). rewrite <- (take_drop (length l) (buffer (state d))), Ht.
    destruct (drop (length l) (buffer (state d))) as [|x rest] eqn:E.
    { apply (f_equal length) in E. rewrite length_drop in E. unfold lenZ in *. cbn in E. lia. }
    exists rest. rewrite Hp. unfold lenZ. rewrite Nat2Z.id, insert_app_r_alt, Nat.sub_diag by lia. done. }
  rewrite Hs. cbn [mbind option_bind]. rewrite handle_command_spec by done. cbn [mbind option_bind].
  unfold debugger_prompt. cbn [state enabled put]. rewrite He. cbn [negb]. eexists. split; [reflexivity|].
  apply setZ_inv in Hs as [_ Hs]. split; [|cbn [print put out]; by rewrite <- !app_assoc].
  split; cbn [print put state enabled buffer pos]; [done| |done|done|done|by constructor].
  rewrite Hs. by rewrite lenZ_insert.
Qed.

(** the command line of the debugger.  Whatever keys are typed before the
    return key, the command that runs is the line as edited -- each backspace
    takes one character off the end, keys beyond 127 characters are ignored --,
    the screen shows the echo of every key, and the command is the first one of
    the table whose name begins the line; then the prompt and an empty line. *)
Theorem debugger_line_correct d keys c :
  holds_line d [] -> Forall key keys -> c = 10 \/ c = 13 ->
  exists d', debugger_input (keys ++ [c]) d = Some d' /\ holds_line d' [] /\
    out d' = out d ++ echoes [] keys ++ [10] ++ response (foldl edit [] keys) ++ str "> ".
Proof.
  intros Hd Hk Hc. destruct (input_keys keys d [] Hk Hd) as (d1 & E1 & Hd1 & O1).
  destruct (input_return c d1 _ Hc Hd1) as (d2 & E2 & Hd2 & O2). exists d2.
  rewrite debugger_input_app, E1. cbn [mbind option_bind debugger_input]. rewrite E2. split; [done|]. split; [done|].
  by rewrite O2, O1, <- !app_assoc.
Qed.

End debugger.

Definition dbg0 : dbg := debugger_init (Dbg initial []).

Lemma dbg0_ok : holds_line dbg0 [].
Proof. split; [done|done|done|done|done|by constructor]. Qed.

(** The keys [hex], rubout, [lp]. *)
Lemma debugger_line_correct_witness :
  exists d', debugger_input X86_64 (fun _ => 0) ([104; 101; 120; 127; 108; 112] ++ [13]) dbg0 = Some d' /\ holds_line d' [] /\
    out d' = out dbg0 ++ echoes [] [104; 101; 120; 127; 108; 112] ++ [10] ++
      response X86_64 (fun _ => 0) (foldl edit [] [104; 101; 120; 127; 108; 112]) ++ str "> ".
Proof.
  apply (debugger_line_correct X86_64 (fun _ => 0) ltac:(intros; red; lia) dbg0 _ 13 dbg0_ok); [|by right].
  by repeat constructor.
Defined.

End Debugger.
