(* ===== verification/Virtio.v ===== *)
(** * The virtio drivers: [src/drivers/block/virtio_blk.c] and [src/drivers/net/virtio_net.c]

    Both drivers keep one device in a static pointer and register it.  The data
    pointer of a registered device is its heap address; an object of the heap starts
    as zeros, since the heap is a static array and is never reused.  Messages are
    left out. *)
From Stdlib Require Import String.
From S2P Require Import Prelude KernelLib Device.
Import CString Memory.
Open Scope list_scope.
Open Scope Z_scope.

Module Virtio.

(** ** Block device *)
Definition VIRTIO_BLK_T_IN : Z := 0.
Definition VIRTIO_BLK_T_OUT : Z := 1.

Record virtio_blk_req := BlkReq { req_type : Z; reserved : Z; sector : Z; req_data : bytes; req_status : Z }.

Record virtio_blk_device := BlkDevice {
  base_addr : Z;
  capacity : Z;
  block_size : Z;
  readonly : bool;
  blk_pci_dev : option Z
}.
Definition sizeof_blk : Z := 32.

(** The request is a local variable; [undef] is what it holds before. *)
Definition virtio_blk_read_block (device : option virtio_blk_device) (block_num : Z) (buffer : option bytes)
    : option (Z * option bytes) :=
  match device, buffer with
  | Some dev, Some buf =>
      if capacity dev <=? block_num then Some (ERR_INVALID, buffer)
      else
        let req := BlkReq VIRTIO_BLK_T_IN 0 block_num (replicate 512 0) 255 in
        buf ← memcpy_loop 512 buf 0 (req_data req) 0;
        Some (512, Some buf)
  | _, _ => Some (ERR_INVALID, buffer)
  end.

(** The request is filled in, and nothing is done with it. *)
Definition virtio_blk_write_block (undef : bytes) (device : option virtio_blk_device) (block_num : Z) (buffer : option bytes)
    : option Z :=
  match device, buffer with
  | Some dev, Some buf =>
      if readonly dev then Some ERR_PERMISSION
      else if capacity dev <=? block_num then Some ERR_INVALID
      else
        data ← memcpy_loop 512 undef 0 buf 0;
        let req := BlkReq VIRTIO_BLK_T_OUT 0 block_num data 255 in
        Some 512
  | _, _ => Some ERR_INVALID
  end.

Definition virtio_blk_ioctl (device : option virtio_blk_device) (cmd : Z) : Z := ERR_INVALID.

(** ** Network device *)
Definition VIRTIO_NET_S_LINK_UP : Z := 1.
Definition MAX_PACKET_SIZE : Z := 1514.
Definition RX_RING_SIZE : Z := 128.
Definition TX_RING_SIZE : Z := 128.

Record virtio_net_hdr := NetHdr {
  flags : Z; gso_type : Z; hdr_len : Z; gso_size : Z; csum_start : Z; csum_offset : Z
}.
Record virtio_net_packet := NetPacket { hdr : virtio_net_hdr; data : bytes }.

Record virtio_net_device := NetDevice {
  net_base_addr : Z;
  mac_addr : bytes;
  status : Z;
  link_up : bool;
  net_pci_dev : option Z;
  rx_ring : list virtio_net_packet;
  tx_ring : list virtio_net_packet;
  rx_head : Z;
  rx_tail : Z;
  tx_head : Z;
  tx_tail : Z
}.

(** 32 bytes, two rings of 128 packets of 1524 bytes and four counters. *)
Definition sizeof_net : Z := 390192.

Definition set_rx_head (h : Z) (d : virtio_net_device) : virtio_net_device :=
  NetDevice (net_base_addr d) (mac_addr d) (status d) (link_up d) (net_pci_dev d) (rx_ring d) (tx_ring d)
    h (rx_tail d) (tx_head d) (tx_tail d).
Definition set_tx (ring : list virtio_net_packet) (tail : Z) (d : virtio_net_device) : virtio_net_device :=
  NetDevice (net_base_addr d) (mac_addr d) (status d) (link_up d) (net_pci_dev d) (rx_ring d) ring
    (rx_head d) (rx_tail d) (tx_head d) tail.

Definition virtio_net_read (device : option virtio_net_device) (offset size : Z) (buffer : option bytes)
    : option (Z * option virtio_net_device * option bytes) :=
  match device, buffer with
  | Some dev, Some buf =>
      if negb (link_up dev) then Some (ERR_AGAIN, device, buffer)
      else if rx_head dev =? rx_tail dev then Some (0, device, buffer)
      else
        let idx := rx_head dev mod RX_RING_SIZE in
        pkt ← getZ (rx_ring dev) idx;
        let copy_size := if size <? MAX_PACKET_SIZE then size else MAX_PACKET_SIZE in
        buf ← memcpy_loop (Z.to_nat copy_size) buf 0 (data pkt) 0;
        Some (i32 copy_size, Some (set_rx_head (u32 (rx_head dev + 1)) dev), Some buf)
  | _, _ => Some (ERR_INVALID, device, buffer)
  end.

Definition virtio_net_write (device : option virtio_net_device) (offset size : Z) (buffer : option bytes)
    : option (Z * option virtio_net_device) :=
  match device, buffer with
  | Some dev, Some buf =>
      if negb (link_up dev) then Some (ERR_AGAIN, device)
      else if MAX_PACKET_SIZE <? size then Some (ERR_INVALID, device)
      else
        let idx := tx_tail dev mod TX_RING_SIZE in
        if TX_RING_SIZE <=? u32 (tx_tail dev - tx_head dev) then Some (ERR_BUSY, device)
        else
          pkt ← getZ (tx_ring dev) idx;
          d ← memcpy_loop (Z.to_nat size) (data pkt) 0 buf 0;
          ring ← setZ (tx_ring dev) idx (NetPacket (NetHdr 0 0 0 0 0 0) d);
          Some (i32 size, Some (set_tx ring (u32 (tx_tail dev + 1)) dev))
  | _, _ => Some (ERR_INVALID, device)
  end.

Definition virtio_net_ioctl (device : option virtio_net_device) (cmd : Z) (arg : option bytes) : option (Z * option bytes) :=
  match device with
  | None => Some (ERR_INVALID, arg)
  | Some dev =>
      if cmd =? 1 then
        match arg with
        | Some a => a ← memcpy_loop 6 a 0 (mac_addr dev) 0; Some (ERR_SUCCESS, Some a)
        | None => Some (ERR_INVALID, arg)
        end
      else if cmd =? 2 then Some (if link_up dev then 1 else 0, arg)
      else Some (ERR_INVALID, arg)
  end.

(** ** Initialisation *)
Inductive table := virtio_blk_ops | virtio_net_ops.

(** The heap, the registry and the two statics. *)
Record drivers := Drivers {
  heap_pos : Z;
  reg : registry table Z;
  virtio_blk_dev : option virtio_blk_device;
  virtio_net_dev : option virtio_net_device
}.

(** [virtio_blk_init] and [virtio_mmio_init], which stores no device. *)
Definition init_blk (pci_dev : option Z) (w : drivers) : option drivers :=
  let '(p, h) := malloc (heap_pos w) sizeof_blk in
  match p with
  | None => Some (Drivers h (reg w) None (virtio_net_dev w))
  | Some p =>
      let dev := BlkDevice 0 (1024 * 1024) 512 false pci_dev in
      '(major, reg, h) ← device_register h (reg w) (str "virtio-blk" ++ [0]) DEVICE_BLOCK virtio_blk_ops p;
      if major <? 0 then Some (Drivers (free h (Some p)) reg None (virtio_net_dev w))
      else Some (Drivers h reg (Some dev) (virtio_net_dev w))
  end.
Definition virtio_blk_init (pci_dev : Z) : drivers -> option drivers := init_blk (Some pci_dev).
Definition virtio_mmio_init (dt_dev : Z) : drivers -> option drivers := init_blk None.

Definition zero_packet : virtio_net_packet := NetPacket (NetHdr 0 0 0 0 0 0) (replicate 1514 0).

(** The members as they are assigned; the rings are as the heap was. *)
Definition fresh_net (pci_dev : Z) : virtio_net_device :=
  NetDevice 0 [82; 84; 0; 18; 52; 86] VIRTIO_NET_S_LINK_UP true (Some pci_dev)
    (replicate 128 zero_packet) (replicate 128 zero_packet) 0 0 0 0.

Definition virtio_net_init (pci_dev : Z) (w : drivers) : option drivers :=
  let '(p, h) := malloc (heap_pos w) sizeof_net in
  match p with
  | None => Some (Drivers h (reg w) (virtio_blk_dev w) None)
  | Some p =>
      let dev := fresh_net pci_dev in
      '(major, reg, h) ← device_register h (reg w) (str "virtio-net" ++ [0]) DEVICE_NETWORK virtio_net_ops p;
      if major <? 0 then Some (Drivers (free h (Some p)) reg (virtio_blk_dev w) None)
      else Some (Drivers h reg (virtio_blk_dev w) (Some dev))
  end.

(** ** The queue of packets to send *)
Record queue (dev : virtio_net_device) (q : list bytes) : Prop := {
  qu_up : link_up dev = true;
  qu_ring : length (tx_ring dev) = 128%nat;
  qu_data i pkt : tx_ring dev !! i = Some pkt -> lenZ (data pkt) = MAX_PACKET_SIZE;
  qu_head : is_u32 (tx_head dev);
  qu_tail : tx_tail dev = u32 (tx_head dev + lenZ q);
  qu_len : (length q <= 128)%nat;
  qu_slot (k : nat) p : q !! k = Some p ->
    exists pkt, getZ (tx_ring dev) ((tx_head dev + Z.of_nat k) mod 128) = Some pkt /\ take (length p) (data pkt) = p
}.

Lemma u32_mod128 n : u32 n mod 128 = n mod 128.
Proof. unfold u32. dlia. Qed.

Lemma queue_count dev q : queue dev q -> u32 (tx_tail dev - tx_head dev) = lenZ q.
Proof.
  intros Hq. rewrite (qu_tail _ _ Hq). pose proof (qu_head _ _ Hq). pose proof (qu_len _ _ Hq). unfold lenZ in *.
  unfold u32, is_u32 in *. dlia.
Qed.

Lemma virtio_net_write_spec dev q offset p buf :
  queue dev q -> lenZ p <= MAX_PACKET_SIZE -> take (length p) buf = p ->
  if decide (length q = 128%nat) then virtio_net_write (Some dev) offset (lenZ p) (Some buf) = Some (ERR_BUSY, Some dev)
  else exists dev', virtio_net_write (Some dev) offset (lenZ p) (Some buf) = Some (lenZ p, Some dev') /\ queue dev' (q ++ [p]).
Proof.
  intros Hq Hp Hb. pose proof (queue_count _ _ Hq) as Hc. destruct Hq as [Hup Hring Hdata Hh Ht Hl Hs].
  unfold virtio_net_write, MAX_PACKET_SIZE in *. rewrite Hup. cbn [negb]. rewrite (proj2 (Z.ltb_ge 1514 _)) by lia.
  rewrite Hc. unfold TX_RING_SIZE. case_decide as Hd; [by rewrite (proj2 (Z.leb_le 128 _)) by (unfold lenZ; lia)|].
  rewrite (proj2 (Z.leb_gt 128 _)) by (unfold lenZ; lia). rewrite Ht, u32_mod128.
  set (idx := (tx_head dev + lenZ q) mod 128). assert (0 <= idx < 128) as Hidx by (unfold idx; dlia).
  destruct (getZ_is_Some (tx_ring dev) idx) as [pkt Hpkt]; [unfold lenZ; lia|]. rewrite Hpkt. cbn [mbind option_bind].
  assert (lenZ (data pkt) = 1514) as Hdl by (apply getZ_Some in Hpkt as [_ Hpkt]; eauto).
  assert (memcpy_loop (Z.to_nat (lenZ p)) (data pkt) 0 buf 0 = Some (p ++ drop (length p) (data pkt))) as ->.
  { unfold lenZ. rewrite Nat2Z.id. apply memcpy_loop_prefix; [done|]. unfold lenZ in *. lia. }
  cbn [mbind option_bind]. rewrite setZ_Some by (unfold lenZ; lia). cbn [mbind option_bind].
  eexists. split; [by rewrite i32_id by (unfold lenZ in *; lia)|].
  split; cbn [set_tx link_up tx_ring tx_head tx_tail]; [done|by rewrite length_insert| |done| |rewrite length_app; cbn [length]; lia|].
  - intros i pk Hi. apply list_lookup_insert_Some in Hi as [(_ & <- & _)|[_ Hi]]; [|by eapply Hdata].
    cbn [data]. rewrite lenZ_app. unfold MAX_PACKET_SIZE, lenZ in *. rewrite length_drop. lia.
  - rewrite lenZ_app. unfold u32, lenZ. cbn [length]. dlia.
  - intros k pk Hk. apply lookup_app_Some in Hk as [Hk|[Hk1 Hk2]].
    + destruct (Hs k pk Hk) as (pkt' & Hg & Ht'). exists pkt'. split; [|done]. apply lookup_lt_Some in Hk.
      apply getZ_Some in Hg as [Hr Hg]. apply getZ_Some. split; [done|]. rewrite list_lookup_insert_ne; [done|].
      unfold idx, lenZ. intros E%Z2Nat.inj; dlia.
    + apply list_lookup_singleton_Some in Hk2 as [Hk2 <-]. eexists. split.
      * replace (Z.of_nat k) with (lenZ q) by (unfold lenZ; lia). fold idx. apply getZ_Some. split; [lia|].
        apply list_lookup_insert_eq. lia.
      * cbn [data]. by rewrite take_app_length.
Qed.

(** Packets written one after the other, and the results. *)
Fixpoint write_all (dev : option virtio_net_device) (ps : list bytes) : option (list Z * option virtio_net_device) :=
  match ps with
  | [] => Some ([], dev)
  | p :: ps' =>
      '(r, dev) ← virtio_net_write dev 0 (lenZ p) (Some p);
      '(rs, dev) ← write_all dev ps';
      Some (r :: rs, dev)
  end.

Lemma write_all_spec ps : forall dev q, queue dev q -> Forall (fun p => lenZ p <= MAX_PACKET_SIZE) ps ->
  let n := (128 - length q)%nat in
  exists dev', write_all (Some dev) ps = Some ((lenZ <$> take n ps) ++ replicate (length ps - n) ERR_BUSY, Some dev') /\
    queue dev' (q ++ take n ps).
Proof.
  induction ps as [|p ps IH]; intros dev q Hq Hps n; cbn [write_all].
  { exists dev. rewrite take_nil. cbn. rewrite app_nil_r. done. }
  apply list.Forall_cons in Hps as [Hp Hps]. pose proof (virtio_net_write_spec dev q 0 p p Hq Hp ltac:(by rewrite take_ge)) as Hw.
  pose proof (qu_len _ _ Hq) as Hl. case_decide as Hd.
  - rewrite Hw. cbn [mbind option_bind]. destruct (IH dev q Hq Hps) as (dev' & E & Hq'). unfold n in *. rewrite Hd in *.
    rewrite Nat.sub_diag in *. rewrite E. cbn [mbind option_bind take fmap list_fmap app]. exists dev'. split; [|done].
    cbn [length]. rewrite !Nat.sub_0_r. done.
  - destruct Hw as (dev1 & -> & Hq1). cbn [mbind option_bind]. destruct (IH dev1 _ Hq1 Hps) as (dev' & E & Hq').
    rewrite length_app in E, Hq'. cbn [length] in E, Hq'. rewrite E. cbn [mbind option_bind]. exists dev'.
    replace n with (S (128 - (length q + 1))) by (unfold n; lia). cbn [take fmap list_fmap app length].
    split; [done|]. by rewrite <- app_assoc in Hq'.
Qed.

Lemma fresh_net_queue pci_dev : queue (fresh_net pci_dev) [].
Proof.
  split; [done|done| |done|done|cbn; lia|done]. intros i pkt [-> _]%lookup_replicate. done.
Qed.

(** sending stops after 128 packets.  Of any packets written to a new network
    device the first 128 are accepted and wait in the ring, in order and
    unchanged; since nothing takes packets from the ring, every further write
    returns [ERR_BUSY]. *)
Theorem virtio_net_stalls pci_dev ps :
  Forall (fun p => lenZ p <= MAX_PACKET_SIZE) ps ->
  exists dev, write_all (Some (fresh_net pci_dev)) ps =
      Some ((lenZ <$> take 128 ps) ++ replicate (length ps - 128) ERR_BUSY, Some dev) /\
    queue dev (take 128 ps).
Proof. intros Hps. apply (write_all_spec ps (fresh_net pci_dev) [] (fresh_net_queue pci_dev) Hps). Qed.

Lemma virtio_net_stalls_witness :
  exists dev, write_all (Some (fresh_net 0)) (replicate 130 [1; 2; 3]) =
      Some ((lenZ <$> take 128 (replicate 130 [1; 2; 3])) ++ replicate (length (replicate 130 [1; 2; 3]) - 128) ERR_BUSY, Some dev) /\
    queue dev (take 128 (replicate 130 [1; 2; 3])).
Proof. apply (virtio_net_stalls 0 (replicate 130 [1; 2; 3])). apply list.Forall_replicate. vm_compute. discriminate. Defined.

(** the block device keeps nothing.  For every block of the device a write of
    any data succeeds with 512 bytes, and a read of it gives 512 zeros. *)
Theorem virtio_blk_forgets dev undef block_num (buf out : bytes) :
  readonly dev = false -> 0 <= block_num < capacity dev -> lenZ undef = 512 -> 512 <= lenZ buf -> 512 <= lenZ out ->
  virtio_blk_write_block undef (Some dev) block_num (Some buf) = Some 512 /\
  virtio_blk_read_block (Some dev) block_num (Some out) = Some (512, Some (replicate 512 0 ++ drop 512 out)).
Proof.
  intros Hro Hb Hu Hbuf Hout. unfold virtio_blk_write_block, virtio_blk_read_block. rewrite Hro, (proj2 (Z.leb_gt _ _)) by lia. split.
  - pose proof (memcpy_loop_prefix (take 512 buf) buf undef) as H. rewrite length_take, Nat.min_l in H by (unfold lenZ in *; lia).
    rewrite H; [done|done|unfold lenZ in *; lia].
  - pose proof (memcpy_loop_prefix (replicate 512 0) (replicate 512 0) out) as H. rewrite length_replicate in H.
    cbn [req_data]. rewrite H; [done|done|unfold lenZ in *; lia].
Qed.

Lemma virtio_blk_forgets_witness :
  virtio_blk_write_block (replicate 512 7) (Some (BlkDevice 0 1024 512 false None)) 3 (Some (replicate 512 9)) = Some 512 /\
  virtio_blk_read_block (Some (BlkDevice 0 1024 512 false None)) 3 (Some (replicate 600 9)) =
    Some (512, Some (replicate 512 0 ++ drop 512 (replicate 600 9))).
Proof.
  apply (virtio_blk_forgets (BlkDevice 0 1024 512 false None) (replicate 512 7) 3 (replicate 512 9) (replicate 600 9));
    vm_compute; first [reflexivity|discriminate|split; [discriminate|reflexivity]].
Defined.

(** ** The heap the drivers use *)
(** [w'] is [w] with at most [n] bytes of the heap used. *)
Definition used (w w' : drivers) (n : Z) : Prop :=
  heap_wf (heap_pos w') /\ heap_pos w <= heap_pos w' <= heap_pos w + n.

Lemma malloc_bound hp size : heap_wf hp -> size_ok size -> size mod 16 = 0 ->
  exists p hp', malloc hp size = (p, hp') /\ heap_wf hp' /\ hp <= hp' <= hp + size.
Proof.
  intros Hw Hs Hm. destruct (malloc_cases hp size Hw Hs) as [[-> _]|(hp' & -> & Hh & Hw')].
  - exists None, hp. split; [done|]. split; [done|]. destruct Hs. lia.
  - exists (Some hp), hp'. split; [done|]. split; [done|]. destruct Hw as [_ Hw], Hw' as [_ Hw'], Hs. split; [lia|]. dlia.
Qed.

Lemma register_bound hp (rg : registry table Z) nm ty (o : table) p : heap_wf hp -> nul_free nm ->
  exists mj rg' hp', device_register hp rg (nm ++ [0]) ty o p = Some (mj, rg', hp') /\ heap_wf hp' /\ hp <= hp' <= hp + 304.
Proof.
  intros Hw Hn. unfold device_register.
  destruct (malloc_bound hp sizeof_device Hw) as (q & hp' & -> & Hw' & Hh'); [unfold size_ok, sizeof_device, HEAP_SIZE; lia|done|].
  destruct q as [q|]; [|by eauto 10]. destruct (store_name_spec nm [] Hn) as (buf & -> & _). cbn [mbind option_bind]. eauto 10.
Qed.

Lemma init_blk_bound pci w : heap_wf (heap_pos w) -> exists w', init_blk pci w = Some w' /\ used w w' 336.
Proof.
  intros Hw. unfold init_blk. destruct (malloc_bound (heap_pos w) sizeof_blk Hw) as (q & hp & -> & Hw1 & H1);
    [unfold size_ok, sizeof_blk, HEAP_SIZE; lia|done|]. unfold sizeof_blk in *.
  destruct q as [q|]; [|eexists; split; [done|]; split; [done|cbn; lia]].
  destruct (register_bound hp (reg w) (str "virtio-blk") DEVICE_BLOCK virtio_blk_ops q Hw1) as (mj & rg & hp2 & -> & Hw2 & H2);
    [by apply nul_free_lit|]. cbn [mbind option_bind].
  destruct (mj <? 0); (eexists; split; [done|]; split; [done|unfold free; cbn [heap_pos]; lia]).
Qed.

Lemma init_net_bound pci w : heap_wf (heap_pos w) -> exists w', virtio_net_init pci w = Some w' /\ used w w' 390496.
Proof.
  intros Hw. unfold virtio_net_init. destruct (malloc_bound (heap_pos w) sizeof_net Hw) as (q & hp & -> & Hw1 & H1);
    [unfold size_ok, sizeof_net, HEAP_SIZE; lia|done|]. unfold sizeof_net in *.
  destruct q as [q|]; [|eexists; split; [done|]; split; [done|cbn; lia]].
  destruct (register_bound hp (reg w) (str "virtio-net") DEVICE_NETWORK virtio_net_ops q Hw1) as (mj & rg & hp2 & -> & Hw2 & H2);
    [by apply nul_free_lit|]. cbn [mbind option_bind].
  destruct (mj <? 0); (eexists; split; [done|]; split; [done|unfold free; cbn [heap_pos]; lia]).
Qed.

End Virtio.
