(* ===== verification/Pci.v ===== *)
(** * The PCI bus walker: [src/drivers/pci.c]

    Port input and output go to a host bridge, an interface with the law of the
    configuration mechanism: writing an address to port 0xCF8 selects a register of a
    function, which is read and written through port 0xCFC.  Messages are left out. *)
From Stdlib Require Import String.
From S2P Require Import Prelude KernelLib Device Virtio.
Import CString Memory Virtio.
Open Scope list_scope.
Open Scope Z_scope.

Module Pci.

Definition PCI_CONFIG_ADDRESS : Z := 3320.
Definition PCI_CONFIG_DATA : Z := 3324.
Definition PCI_VENDOR_ID : Z := 0.
Definition PCI_DEVICE_ID : Z := 2.
Definition PCI_CLASS_CODE : Z := 11.
Definition PCI_SUBCLASS : Z := 10.
Definition PCI_PROG_IF : Z := 9.
Definition PCI_HEADER_TYPE : Z := 14.
Definition PCI_BAR0 : Z := 16.
Definition PCI_INTERRUPT_LINE : Z := 60.

(** 32-bit port input and output. *)
Class PciHost (H : Type) := {
  outl : H -> Z -> Z -> H;
  inl : H -> Z -> H * Z
}.

Record pci_device := PciDevice {
  bus : Z;
  device : Z;
  function : Z;
  vendor_id : Z;
  device_id : Z;
  class_code : Z;
  subclass : Z;
  prog_if : Z;
  revision : Z;
  header_type : Z;
  interrupt_line : Z;
  interrupt_pin : Z;
  bar : list Z;
  bar_size : list Z
}.
Definition sizeof_pci_device : Z := 120.

Section walker.
Context {H : Type} {PH : PciHost H}.

Definition config_address (bus device function offset : Z) : Z :=
  u32 (Z.lor (Z.lor (Z.lor (Z.lor (Z.shiftl bus 16) (Z.shiftl device 11)) (Z.shiftl function 8)) (Z.land offset 252)) 2147483648).

Definition pci_config_read (h : H) (bus device function offset : Z) : H * Z :=
  let h := outl h PCI_CONFIG_ADDRESS (config_address bus device function offset) in
  inl h PCI_CONFIG_DATA.

Definition pci_config_write (h : H) (bus device function offset value : Z) : H :=
  let h := outl h PCI_CONFIG_ADDRESS (config_address bus device function offset) in
  outl h PCI_CONFIG_DATA value.

Definition pci_read_vendor_id (h : H) (bus device function : Z) : H * Z :=
  let '(h, config) := pci_config_read h bus device function PCI_VENDOR_ID in (h, u16 (Z.land config 65535)).

Definition pci_read_device_id (h : H) (bus device function : Z) : H * Z :=
  let '(h, config) := pci_config_read h bus device function PCI_DEVICE_ID in (h, u16 (Z.land config 65535)).

Definition pci_read_class (h : H) (bus device function : Z) : H * Z :=
  let '(h, config) := pci_config_read h bus device function (PCI_CLASS_CODE - 1) in (h, u8 (Z.land (Z.shiftr config 24) 255)).

Definition pci_read_subclass (h : H) (bus device function : Z) : H * Z :=
  let '(h, config) := pci_config_read h bus device function (PCI_SUBCLASS - 1) in (h, u8 (Z.land (Z.shiftr config 16) 255)).

Definition pci_read_prog_if (h : H) (bus device function : Z) : H * Z :=
  let '(h, config) := pci_config_read h bus device function (PCI_PROG_IF - 1) in (h, u8 (Z.land (Z.shiftr config 8) 255)).

Definition pci_read_header_type (h : H) (bus device function : Z) : H * Z :=
  let '(h, config) := pci_config_read h bus device function (PCI_HEADER_TYPE - 1) in (h, u8 (Z.land (Z.shiftr config 16) 255)).

(** The value and, when it is assigned, the size. *)
Definition pci_read_bar (h : H) (bus device function bar_num : Z) : H * Z * option Z :=
  if 6 <=? bar_num then (h, 0, None)
  else
    let bar_offset := u8 (PCI_BAR0 + bar_num * 4) in
    let '(h, bar) := pci_config_read h bus device function bar_offset in
    if (bar =? 0) || (bar =? 4294967295) then (h, 0, Some 0)
    else
      let h := pci_config_write h bus device function bar_offset 4294967295 in
      let '(h, size_mask) := pci_config_read h bus device function bar_offset in
      let h := pci_config_write h bus device function bar_offset bar in
      if negb (Z.land bar 1 =? 0) then
        (h, Z.land bar 4294967292, Some (u32 (Z.lnot (Z.land size_mask 4294967292) + 1)))
      else if Z.land bar 6 =? 4 then
        let '(h, bar_high) := pci_config_read h bus device function (u8 (bar_offset + 4)) in
        let bar64 := Z.lor (u64 (Z.shiftl bar_high 32)) (Z.land bar 4294967280) in
        (h, bar64, Some (u64 (Z.lnot (Z.land size_mask 4294967280) + 1)))
      else
        (h, Z.land bar 4294967280, Some (u32 (Z.lnot (Z.land size_mask 4294967280) + 1))).

(** The host, the drivers' state and [pci_devices], newest first, with their addresses. *)
Record walker := Walker { host : H; world : drivers; pci_devices : list (Z * pci_device) }.

Definition device_register_pci (p : Z) (pci_dev : pci_device) (w : drivers) : option drivers :=
  if (class_code pci_dev =? 1) && (subclass pci_dev =? 0) then virtio_blk_init p w
  else if (class_code pci_dev =? 2) && (subclass pci_dev =? 0) then virtio_net_init p w
  else if (vendor_id pci_dev =? 6900) && (4096 <=? device_id pci_dev) && (device_id pci_dev <=? 4159) then
    if device_id pci_dev =? 4097 then virtio_blk_init p w
    else if device_id pci_dev =? 4096 then virtio_net_init p w
    else Some w
  else Some w.

(** The loop over the base address registers. *)
Fixpoint read_bars (n : nat) (h : H) (bus device function i : Z) : H * list Z * list Z :=
  match n with
  | O => (h, [], [])
  | S n' =>
      let '(h, b, sz) := pci_read_bar h bus device function i in
      let '(h, bs, szs) := read_bars n' h bus device function (u8 (i + 1)) in
      (h, b :: bs, default 0 sz :: szs)
  end.

Definition pci_probe_device (bus device function : Z) (s : walker) : option walker :=
  let '(h, vendor_id) := pci_read_vendor_id (host s) bus device function in
  if vendor_id =? 65535 then Some (Walker h (world s) (pci_devices s))
  else
    let w := world s in
    let '(p, heap) := malloc (heap_pos w) sizeof_pci_device in
    match p with
    | None => Some (Walker h (Drivers heap (reg w) (virtio_blk_dev w) (virtio_net_dev w)) (pci_devices s))
    | Some p =>
        let '(h, device_id) := pci_read_device_id h bus device function in
        let '(h, class_code) := pci_read_class h bus device function in
        let '(h, subclass) := pci_read_subclass h bus device function in
        let '(h, prog_if) := pci_read_prog_if h bus device function in
        let '(h, header_type) := pci_read_header_type h bus device function in
        let '(h, interrupt_info) := pci_config_read h bus device function PCI_INTERRUPT_LINE in
        let '(h, bars, sizes) := read_bars 6 h bus device function 0 in
        let pci_dev := PciDevice bus device function vendor_id device_id class_code subclass prog_if 0 header_type
          (u8 (Z.land interrupt_info 255)) (u8 (Z.land (Z.shiftr interrupt_info 8) 255)) bars sizes in
        w ← device_register_pci p pci_dev (Drivers heap (reg w) (virtio_blk_dev w) (virtio_net_dev w));
        Some (Walker h w ((p, pci_dev) :: pci_devices s))
    end.

(** Functions 1 to 7 of a device with several functions. *)
Fixpoint scan_functions (n : nat) (bus device function : Z) (s : walker) : option walker :=
  match n with
  | O => Some s
  | S n' =>
      let '(h, func_vendor) := pci_read_vendor_id (host s) bus device function in
      let s := Walker h (world s) (pci_devices s) in
      s ← (if negb (func_vendor =? 65535) then pci_probe_device bus device function s else Some s);
      scan_functions n' bus device (u8 (function + 1)) s
  end.

Fixpoint scan_devices (n : nat) (bus device : Z) (s : walker) : option walker :=
  match n with
  | O => Some s
  | S n' =>
      let '(h, vendor_id) := pci_read_vendor_id (host s) bus device 0 in
      let s := Walker h (world s) (pci_devices s) in
      s ← (if vendor_id =? 65535 then Some s
           else
             s ← pci_probe_device bus device 0 s;
             let '(h, header_type) := pci_read_header_type (host s) bus device 0 in
             let s := Walker h (world s) (pci_devices s) in
             if negb (Z.land header_type 128 =? 0) then scan_functions 7 bus device 1 s else Some s);
      scan_devices n' bus (u8 (device + 1)) s
  end.

Definition pci_scan_bus (bus : Z) : walker -> option walker := scan_devices 32 bus 0.

Fixpoint scan_buses (n : nat) (bus : Z) (s : walker) : option walker :=
  match n with O => Some s | S n' => s ← pci_scan_bus (u8 bus) s; scan_buses n' (u16 (bus + 1)) s end.
Definition pci_init : walker -> option walker := scan_buses 256 0.

Definition pci_find_device (s : walker) (v d : Z) : option (Z * pci_device) :=
  List.find (fun e => (vendor_id e.2 =? v) && (device_id e.2 =? d)) (pci_devices s).

Definition pci_find_class (s : walker) (c sc : Z) : option (Z * pci_device) :=
  List.find (fun e => (class_code e.2 =? c) && (subclass e.2 =? sc)) (pci_devices s).

End walker.
Arguments walker : clear implicits.

(** ** The configuration mechanism *)
Definition valid_reg (b d f r : Z) : Prop := 0 <= b < 256 /\ 0 <= d < 32 /\ 0 <= f < 8 /\ 0 <= r < 256 /\ r mod 4 = 0.

(** The address of register [r] of function [f]. *)
Definition reg_address (b d f r : Z) : Z := 2147483648 + b * 65536 + d * 2048 + f * 256 + r.

(** [cfg h b d f r] is the register, all ones where there is no function; [rw] its
    writable bits: the others keep their value when it is written. *)
Class PciHostLaws (H : Type) {PH : PciHost H} := {
  cfg : H -> Z -> Z -> Z -> Z -> Z;
  rw : Z -> Z -> Z -> Z -> Z;
  cfg_u32 h b d f r : is_u32 (cfg h b d f r);
  rw_u32 b d f r : is_u32 (rw b d f r);
  config_read_law h b d f r : valid_reg b d f r ->
    let p := inl (outl h PCI_CONFIG_ADDRESS (reg_address b d f r)) PCI_CONFIG_DATA in
    p.2 = cfg h b d f r /\ forall b' d' f' r', cfg p.1 b' d' f' r' = cfg h b' d' f' r';
  config_write_law h b d f r v : valid_reg b d f r -> is_u32 v ->
    let h' := outl (outl h PCI_CONFIG_ADDRESS (reg_address b d f r)) PCI_CONFIG_DATA v in
    forall b' d' f' r', cfg h' b' d' f' r' =
      if decide ((b', d', f', r') = (b, d, f, r))
      then Z.lor (Z.land v (rw b d f r)) (Z.ldiff (cfg h b d f r) (rw b d f r)) else cfg h b' d' f' r'
}.

(** Bits that are apart are added. *)
Lemma lor_add a n x : 0 <= n -> 0 <= x < 2 ^ n -> a mod 2 ^ n = 0 -> Z.lor a x = a + x.
Proof.
  intros Hn Hx Ha. assert (Z.land a x = 0) as H0.
  { rewrite <- (Z.mod_small x (2 ^ n)), <- (Z.land_ones x n), (Z.land_comm x), Z.land_assoc, (Z.land_ones a n), Ha by done. done. }
  by rewrite <- Z.lxor_lor, <- Z.add_nocarry_lxor.
Qed.

Lemma land_252 r : 0 <= r < 256 -> Z.land r 252 = r - r mod 4.
Proof.
  intros Hr. change 252 with (Z.ldiff (Z.ones 8) (Z.ones 2)). rewrite Z.ldiff_land, Z.land_assoc, <- Z.ldiff_land, Z.land_ones, Z.mod_small by lia.
  rewrite Z.ldiff_ones_r, Z.shiftl_mul_pow2, Z.shiftr_div_pow2 by lia. change (2 ^ 2) with 4. dlia.
Qed.

Lemma config_address_spec b d f r : 0 <= b < 256 -> 0 <= d < 32 -> 0 <= f < 8 -> 0 <= r < 256 ->
  config_address b d f r = reg_address b d f (r - r mod 4).
Proof.
  intros Hb Hd Hf Hr. unfold config_address, reg_address. rewrite land_252, !Z.shiftl_mul_pow2 by lia.
  change (2 ^ 16) with 65536. change (2 ^ 11) with 2048. change (2 ^ 8) with 256.
  rewrite (lor_add (b * 65536) 16) by (change (2 ^ 16) with 65536; dlia).
  rewrite (lor_add (b * 65536 + d * 2048) 11) by (change (2 ^ 11) with 2048; dlia).
  rewrite (lor_add (b * 65536 + d * 2048 + f * 256) 8) by (change (2 ^ 8) with 256; dlia).
  rewrite Z.lor_comm, (lor_add 2147483648 31) by (change (2 ^ 31) with 2147483648; dlia).
  rewrite u32_id by (red; dlia). lia.
Qed.

(** ** What a scan finds *)
Section scan.
Context {H : Type} {PH : PciHost H} {L : PciHostLaws H}.
Implicit Types (h : H) (c : Z -> Z -> Z -> Z -> Z).

(** The registers of the bus are [c]. *)
Definition shows h c : Prop := forall b d f r, cfg h b d f r = c b d f r.

Definition fn_ok (b d f : Z) : Prop := 0 <= b < 256 /\ 0 <= d < 32 /\ 0 <= f < 8.

Lemma read_spec h c b d f r : shows h c -> fn_ok b d f -> 0 <= r < 256 ->
  exists h', pci_config_read h b d f r = (h', c b d f (r - r mod 4)) /\ shows h' c.
Proof.
  intros Hc (Hb & Hd & Hf) Hr. unfold pci_config_read. rewrite config_address_spec by done.
  destruct (config_read_law h b d f (r - r mod 4)) as [E1 E2]; [repeat split; dlia|].
  destruct (inl _ _) as [h' v]. cbn [fst snd] in *. exists h'. rewrite E1, Hc. split; [done|]. intros b' d' f' r'. by rewrite E2.
Qed.

(** What the walker reads of a function. *)
Definition vendor c b d f : Z := Z.land (c b d f 0) 65535.
Definition class c b d f : Z := Z.land (Z.shiftr (c b d f 8) 24) 255.
Definition sub c b d f : Z := Z.land (Z.shiftr (c b d f 8) 16) 255.
Definition interface c b d f : Z := Z.land (Z.shiftr (c b d f 8) 8) 255.
Definition header c b d f : Z := Z.land (Z.shiftr (c b d f 12) 16) 255.

Lemma u16_land x : u16 (Z.land x 65535) = Z.land x 65535.
Proof. change 65535 with (Z.ones 16). rewrite Z.land_ones by lia. apply u16_id. unfold is_u16. change (2 ^ 16) with 65536. dlia. Qed.
Lemma u8_land x : u8 (Z.land x 255) = Z.land x 255.
Proof. change 255 with (Z.ones 8). rewrite Z.land_ones by lia. apply u8_id. unfold is_u8. change (2 ^ 8) with 256. dlia. Qed.

(** A field is read without a change of the registers. *)
Definition reads (g : H -> Z -> Z -> Z -> H * Z) (v : (Z -> Z -> Z -> Z -> Z) -> Z -> Z -> Z -> Z) : Prop :=
  forall h c b d f, shows h c -> fn_ok b d f -> exists h', g h b d f = (h', v c b d f) /\ shows h' c.

Ltac read_field o := intros h c b d f Hc Hf; destruct (read_spec h c b d f o Hc Hf ltac:(lia)) as (h' & E & Hc');
  exists h'; split; [|done]; unfold pci_read_vendor_id, pci_read_device_id, pci_read_class, pci_read_subclass, pci_read_prog_if,
    pci_read_header_type; change (pci_config_read h b d f _) with (pci_config_read h b d f o); rewrite E, ?u16_land, ?u8_land; done.

Lemma vendor_read : reads pci_read_vendor_id vendor.
Proof. read_field 0. Qed.
(** The device identifier is in the upper half of register 0, but the lower half is read. *)
Lemma device_id_read : reads pci_read_device_id vendor.
Proof. read_field 2. Qed.
Lemma class_read : reads pci_read_class class.
Proof. read_field 10. Qed.
Lemma subclass_read : reads pci_read_subclass sub.
Proof. read_field 9. Qed.
Lemma prog_if_read : reads pci_read_prog_if interface.
Proof. read_field 8. Qed.
Lemma header_type_read : reads pci_read_header_type header.
Proof. read_field 13. Qed.

(** *** Base address registers *)
Lemma write_spec h c b d f r v : shows h c -> fn_ok b d f -> 0 <= r < 256 -> r mod 4 = 0 -> is_u32 v ->
  shows (pci_config_write h b d f r v) (fun b' d' f' r' =>
    if decide ((b', d', f', r') = (b, d, f, r)) then Z.lor (Z.land v (rw b d f r)) (Z.ldiff (c b d f r) (rw b d f r)) else c b' d' f' r').
Proof.
  intros Hc (Hb & Hd & Hf) Hr Hm Hv b' d' f' r'. unfold pci_config_write. rewrite config_address_spec, Hm, Z.sub_0_r by done.
  rewrite config_write_law by (done || by repeat split; lia). by rewrite !Hc.
Qed.

(** What the register shows after all ones were written. *)
Definition size_mask c b d f r : Z := Z.lor (Z.land 4294967295 (rw b d f r)) (Z.ldiff (c b d f r) (rw b d f r)).

Lemma lor_land_ldiff x m : Z.lor (Z.land x m) (Z.ldiff x m) = x.
Proof. apply Z.bits_inj'. intros i Hi. rewrite Z.lor_spec, Z.land_spec, Z.ldiff_spec. by destruct (Z.testbit x i), (Z.testbit m i). Qed.

Lemma ldiff_lor_land x y m : Z.ldiff (Z.lor (Z.land y m) (Z.ldiff x m)) m = Z.ldiff x m.
Proof. apply Z.bits_inj'. intros i Hi. rewrite !Z.ldiff_spec, Z.lor_spec, Z.land_spec, Z.ldiff_spec. by destruct (Z.testbit x i), (Z.testbit y i), (Z.testbit m i). Qed.

(** Sizing a register and writing the old value back leaves all registers as they were. *)
Lemma size_spec h c b d f r : shows h c -> fn_ok b d f -> 0 <= r < 256 -> r mod 4 = 0 -> is_u32 (c b d f r) ->
  exists h', pci_config_read (pci_config_write h b d f r 4294967295) b d f r = (h', size_mask c b d f r) /\
    shows (pci_config_write h' b d f r (c b d f r)) c.
Proof.
  intros Hc Hf Hr Hm Hu. pose proof (write_spec h c b d f r 4294967295 Hc Hf Hr Hm ltac:(red; lia)) as H1.
  destruct (read_spec _ _ b d f r H1 Hf Hr) as (h' & E & H2). exists h'. rewrite E, Hm, Z.sub_0_r, decide_True by done.
  split; [done|]. intros b' d' f' r'. rewrite (write_spec h' _ b d f r _ H2 Hf Hr Hm Hu). cbv beta.
  destruct (decide ((b', d', f', r') = (b, d, f, r))) as [Hd|Hd]; [|done]. injection Hd as -> -> -> ->. rewrite decide_True by done.
  rewrite ldiff_lor_land. apply lor_land_ldiff.
Qed.

Lemma shows_u32 h c b d f r : shows h c -> is_u32 (c b d f r).
Proof. intros Hc. rewrite <- Hc. apply cfg_u32. Qed.

(** Value and size of base address register [i], as the walker takes them. *)
Definition bar_of c b d f (i : Z) : Z * Z :=
  let x := c b d f (16 + 4 * i) in
  let m := size_mask c b d f (16 + 4 * i) in
  if (x =? 0) || (x =? 4294967295) then (0, 0)
  else if negb (Z.land x 1 =? 0) then (Z.land x 4294967292, u32 (Z.lnot (Z.land m 4294967292) + 1))
  else if Z.land x 6 =? 4 then
    (Z.lor (u64 (Z.shiftl (c b d f (20 + 4 * i)) 32)) (Z.land x 4294967280), u64 (Z.lnot (Z.land m 4294967280) + 1))
  else (Z.land x 4294967280, u32 (Z.lnot (Z.land m 4294967280) + 1)).

Lemma bar_read h c b d f i : shows h c -> fn_ok b d f -> 0 <= i < 6 ->
  exists h', pci_read_bar h b d f i = (h', (bar_of c b d f i).1, Some (bar_of c b d f i).2) /\ shows h' c.
Proof.
  intros Hc Hf Hi. unfold pci_read_bar, bar_of, PCI_BAR0. rewrite (proj2 (Z.leb_gt 6 i)) by lia.
  rewrite u8_id by (red; lia). rewrite (Z.mul_comm i 4). assert ((16 + 4 * i) mod 4 = 0) as Hm by dlia.
  destruct (read_spec h c b d f (16 + 4 * i) Hc Hf ltac:(lia)) as (h1 & -> & H1). rewrite Hm, Z.sub_0_r.
  pose proof (shows_u32 h c b d f (16 + 4 * i) Hc) as Hu. set (x := c b d f (16 + 4 * i)) in *.
  destruct ((x =? 0) || (x =? 4294967295)); [by exists h1|].
  destruct (size_spec h1 c b d f (16 + 4 * i) H1 Hf ltac:(lia) Hm Hu) as (h2 & -> & H2). fold x in H2.
  destruct (negb (Z.land x 1 =? 0)); [by eexists|]. destruct (Z.land x 6 =? 4); [|by eexists].
  rewrite u8_id by (red; lia).
  destruct (read_spec _ c b d f (16 + 4 * i + 4) H2 Hf ltac:(lia)) as (h3 & -> & H3). exists h3. split; [|done].
  assert (16 + 4 * i + 4 - (16 + 4 * i + 4) mod 4 = 20 + 4 * i) as -> by dlia. done.
Qed.

Fixpoint bars_from c b d f (n : nat) (i : Z) : list (Z * Z) :=
  match n with O => [] | S n' => bar_of c b d f i :: bars_from c b d f n' (i + 1) end.

Lemma bars_read c b d f n : forall h i, shows h c -> fn_ok b d f -> 0 <= i -> i + Z.of_nat n <= 6 ->
  exists h', read_bars n h b d f i = (h', fst <$> bars_from c b d f n i, snd <$> bars_from c b d f n i) /\ shows h' c.
Proof.
  induction n as [|n IH]; intros h i Hc Hf Hi Hn; cbn [read_bars bars_from]; [by exists h|].
  destruct (bar_read h c b d f i Hc Hf ltac:(lia)) as (h1 & -> & H1). rewrite u8_id by (red; lia).
  destruct (IH h1 (i + 1) H1 Hf ltac:(lia) ltac:(lia)) as (h2 & -> & H2). by exists h2.
Qed.

(** What the walker stores of a function: the vendor is in the place of the device identifier, too. *)
Definition describe c (k : Z * Z * Z) : pci_device :=
  let '(b, d, f) := k in
  PciDevice b d f (vendor c b d f) (vendor c b d f) (class c b d f) (sub c b d f) (interface c b d f) 0 (header c b d f)
    (Z.land (c b d f 60) 255) (Z.land (Z.shiftr (c b d f 60) 8) 255)
    (fst <$> bars_from c b d f 6 0) (snd <$> bars_from c b d f 6 0).

(** *** The drivers' part *)
(** What the driver of a device takes from the heap at most. *)
Definition driver_cost (dev : pci_device) : Z :=
  if (class_code dev =? 1) && (subclass dev =? 0) then 336
  else if (class_code dev =? 2) && (subclass dev =? 0) then 390496 else 0.

Lemma register_pci_bound p dev w : heap_wf (heap_pos w) -> device_id dev = vendor_id dev ->
  exists w', device_register_pci p dev w = Some w' /\ used w w' (driver_cost dev).
Proof.
  intros Hw Hid. unfold device_register_pci, driver_cost. destruct ((class_code dev =? 1) && (subclass dev =? 0)); [by apply init_blk_bound|].
  destruct ((class_code dev =? 2) && (subclass dev =? 0)); [by apply init_net_bound|].
  rewrite Hid. assert ((vendor_id dev =? 6900) && (4096 <=? vendor_id dev) && (vendor_id dev <=? 4159) = false) as -> by lia.
  exists w. split; [done|]. split; [done|lia].
Qed.

(** *** The walk *)
Definition present c (k : Z * Z * Z) : Prop := vendor c k.1.1 k.1.2 k.2 <> 65535.
#[local] Instance present_dec c k : Decision (present c k).
Proof. unfold present. apply _. Defined.

Definition cost c (k : Z * Z * Z) : Z := 128 + driver_cost (describe c k).
Definition total c (l : list (Z * Z * Z)) : Z := foldr (fun k n => cost c k + n) 0 l.

(** From [s] the walk has added the functions [l]; it uses no more of the heap than they cost. *)
Record walked c (s s' : walker H) (l : list (Z * Z * Z)) : Prop := {
  wa_shows : shows (host s') c;
  wa_devices : snd <$> pci_devices s' = reverse (describe c <$> l) ++ (snd <$> pci_devices s);
  wa_used : used (world s) (world s') (total c l)
}.

Lemma total_app c l l' : total c (l ++ l') = total c l + total c l'.
Proof. induction l as [|k l IH]; cbn; [done|]. unfold total in *. cbn. lia. Qed.

Lemma driver_cost_nonneg dev : 0 <= driver_cost dev.
Proof. unfold driver_cost. repeat case_match; lia. Qed.

Lemma total_nonneg c l : 0 <= total c l.
Proof. induction l as [|k l IH]; cbn; [lia|]. unfold total, cost in *. pose proof (driver_cost_nonneg (describe c k)). cbn. lia. Qed.

Lemma walked_trans c s s1 s2 l1 l2 : walked c s s1 l1 -> walked c s1 s2 l2 -> walked c s s2 (l1 ++ l2).
Proof.
  intros [_ D1 [_ U1]] [S2 D2 [W2 U2]]. split; [done| |].
  - rewrite D2, D1, fmap_app, reverse_app, app_assoc. done.
  - split; [done|]. rewrite total_app. lia.
Qed.

Lemma walked_host c s h : heap_wf (heap_pos (world s)) -> shows h c -> walked c s (Walker h (world s) (pci_devices s)) [].
Proof. intros Hw Hh. split; [done|done|]. split; [done|]. cbn. lia. Qed.

Definition room_for c (s : walker H) l : Prop := heap_wf (heap_pos (world s)) /\ heap_pos (world s) + total c l <= HEAP_SIZE.

Lemma room_walked c s s' l l' : room_for c s (l ++ l') -> walked c s s' l -> room_for c s' l'.
Proof. intros [_ Hr] Hwk. destruct (wa_used _ _ _ _ Hwk) as [Hw Hu]. rewrite total_app in Hr. split; [done|lia]. Qed.

Lemma probe_spec c s b d f : shows (host s) c -> fn_ok b d f -> present c (b, d, f) -> room_for c s [(b, d, f)] ->
  exists s', pci_probe_device b d f s = Some s' /\ walked c s s' [(b, d, f)].
Proof.
  intros Hc Hf Hp [Hw Hr]. unfold total, cost in Hr. cbn [foldr] in Hr. set (dev := describe c (b, d, f)) in *.
  unfold pci_probe_device. destruct (vendor_read (host s) c b d f Hc Hf) as (h1 & -> & H1). unfold present in Hp. cbn [fst snd] in Hp.
  rewrite (proj2 (Z.eqb_neq _ _)) by done. pose proof (driver_cost_nonneg dev).
  destruct (malloc_cases (heap_pos (world s)) sizeof_pci_device Hw) as [[_ Hm]|(hp & -> & Hhp & Hw1)];
    [unfold size_ok, sizeof_pci_device, HEAP_SIZE; lia|unfold sizeof_pci_device in Hm; lia|].
  destruct (device_id_read h1 c b d f H1 Hf) as (h2 & -> & H2). destruct (class_read h2 c b d f H2 Hf) as (h3 & -> & H3).
  destruct (subclass_read h3 c b d f H3 Hf) as (h4 & -> & H4). destruct (prog_if_read h4 c b d f H4 Hf) as (h5 & -> & H5).
  destruct (header_type_read h5 c b d f H5 Hf) as (h6 & -> & H6).
  destruct (read_spec h6 c b d f 60 H6 Hf ltac:(lia)) as (h7 & E7 & H7). change (60 - 60 mod 4) with 60 in E7. unfold PCI_INTERRUPT_LINE. rewrite E7.
  destruct (bars_read c b d f 6 h7 0 H7 Hf ltac:(lia) ltac:(lia)) as (h8 & -> & H8). rewrite !u8_land.
  change (PciDevice b d f _ _ _ _ _ _ _ _ _ _ _) with dev.
  destruct (register_pci_bound (heap_pos (world s)) dev (Drivers hp (reg (world s)) (virtio_blk_dev (world s)) (virtio_net_dev (world s))) Hw1 eq_refl)
    as (w' & -> & Hw' & Hu). cbn [mbind option_bind]. cbn [heap_pos] in Hu. eexists. split; [done|]. split; [done|done|].
  split; [done|]. cbn [world]. unfold total, cost, sizeof_pci_device in *. cbn [foldr]. fold dev.
  destruct Hw as [_ Hw], Hw1 as [_ Hw1]. dlia.
Qed.

(** The functions in the order of the walk. *)
Fixpoint funs (n : nat) (b d f : Z) : list (Z * Z * Z) :=
  match n with O => [] | S n' => (b, d, f) :: funs n' b d (f + 1) end.
Definition device_functions c (b d : Z) : list (Z * Z * Z) :=
  if decide (present c (b, d, 0)) then
    (b, d, 0) :: (if Z.land (header c b d 0) 128 =? 0 then [] else filter (present c) (funs 7 b d 1))
  else [].
Fixpoint device_list c (n : nat) (b d : Z) : list (Z * Z * Z) :=
  match n with O => [] | S n' => device_functions c b d ++ device_list c n' b (d + 1) end.
Fixpoint bus_list c (n : nat) (b : Z) : list (Z * Z * Z) :=
  match n with O => [] | S n' => device_list c 32 b 0 ++ bus_list c n' (b + 1) end.
Definition functions c : list (Z * Z * Z) := bus_list c 256 0.

Lemma scan_functions_spec c b d n : forall s f, shows (host s) c -> 0 <= b < 256 -> 0 <= d < 32 -> 0 <= f -> f + Z.of_nat n <= 8 ->
  room_for c s (filter (present c) (funs n b d f)) ->
  exists s', scan_functions n b d f s = Some s' /\ walked c s s' (filter (present c) (funs n b d f)).
Proof.
  induction n as [|n IH]; intros s f Hc Hb Hd Hf Hn Hr; cbn [scan_functions funs].
  { exists s. split; [done|]. rewrite filter_nil. destruct s. by apply walked_host; [apply Hr|]. }
  assert (fn_ok b d f) as Hok by (repeat split; lia).
  destruct (vendor_read (host s) c b d f Hc Hok) as (h & -> & Hh). rewrite u8_id by (red; lia).
  pose proof (walked_host c s h (proj1 Hr) Hh) as W0. set (s0 := Walker h (world s) (pci_devices s)) in *.
  cbn [funs] in Hr. destruct (decide (present c (b, d, f))) as [Hp|Hp].
  - rewrite filter_cons_True in * by done. unfold present in Hp. cbn [fst snd] in Hp. rewrite (proj2 (Z.eqb_neq _ _)) by done. cbn [negb].
    pose proof (room_walked c s s0 [] _ Hr W0) as Hr0. change ((b, d, f) :: ?l) with ([(b, d, f)] ++ l) in Hr0.
    destruct (probe_spec c s0 b d f Hh Hok Hp) as (s1 & -> & W1).
    { destruct Hr0 as [Hw Hr0]. split; [done|]. rewrite total_app in Hr0. pose proof (total_nonneg c (filter (present c) (funs n b d (f + 1)))). lia. }
    cbn [mbind option_bind]. pose proof (room_walked c s0 s1 [_] _ Hr0 W1) as Hr1.
    destruct (IH s1 (f + 1) (wa_shows _ _ _ _ W1) Hb Hd ltac:(lia) ltac:(lia) Hr1) as (s' & -> & W2). exists s'. split; [done|].
    exact (walked_trans _ _ _ _ _ _ W0 (walked_trans _ _ _ _ _ _ W1 W2)).
  - rewrite filter_cons_False in * by done. unfold present in Hp. cbn [fst snd] in Hp.
    assert (vendor c b d f = 65535) as -> by lia. cbn [negb Z.eqb Pos.eqb mbind option_bind].
    destruct (IH s0 (f + 1) Hh Hb Hd ltac:(lia) ltac:(lia) (room_walked c s s0 [] _ Hr W0)) as (s' & -> & W2). exists s'. split; [done|].
    exact (walked_trans _ _ _ _ _ _ W0 W2).
Qed.

Lemma room_prefix c s l l' : room_for c s (l ++ l') -> room_for c s l.
Proof. intros [Hw Hr]. rewrite total_app in Hr. pose proof (total_nonneg c l'). split; [done|lia]. Qed.

(** One step of a walk, then the rest. *)
Lemma walk_seq c s l l' (m : option (walker H)) (g : walker H -> option (walker H)) :
  (room_for c s l -> exists s1, m = Some s1 /\ walked c s s1 l) ->
  (forall s1, shows (host s1) c -> room_for c s1 l' -> exists s2, g s1 = Some s2 /\ walked c s1 s2 l') ->
  room_for c s (l ++ l') -> exists s2, (s1 ← m; g s1) = Some s2 /\ walked c s s2 (l ++ l').
Proof.
  intros H1 H2 Hr. destruct (H1 (room_prefix _ _ _ _ Hr)) as (s1 & -> & W1). cbn [mbind option_bind].
  destruct (H2 s1 (wa_shows _ _ _ _ W1) (room_walked _ _ _ _ _ Hr W1)) as (s2 & E & W2). exists s2. split; [done|].
  by eapply walked_trans.
Qed.

Lemma scan_devices_spec c b n : forall s d, shows (host s) c -> 0 <= b < 256 -> 0 <= d -> d + Z.of_nat n <= 32 ->
  room_for c s (device_list c n b d) ->
  exists s', scan_devices n b d s = Some s' /\ walked c s s' (device_list c n b d).
Proof.
  induction n as [|n IH]; intros s d Hc Hb Hd Hn Hr; cbn [scan_devices device_list].
  { exists s. split; [done|]. destruct s. by apply walked_host; [apply Hr|]. }
  assert (forall f, 0 <= f < 8 -> fn_ok b d f) as Hok by (intros; repeat split; lia).
  destruct (vendor_read (host s) c b d 0 Hc ltac:(apply Hok; lia)) as (h & -> & Hh). rewrite u8_id by (red; lia).
  pose proof (walked_host c s h (proj1 Hr) Hh) as W0. set (s0 := Walker h (world s) (pci_devices s)) in *.
  cbn [device_list] in Hr. pose proof (room_walked c s s0 [] _ Hr W0) as Hr0.
  assert (exists s', (s1 ← (if vendor c b d 0 =? 65535 then Some s0 else
      s ← pci_probe_device b d 0 s0;
      let '(h, header_type) := pci_read_header_type (host s) b d 0 in
      let s := Walker h (world s) (pci_devices s) in
      if negb (Z.land header_type 128 =? 0) then scan_functions 7 b d 1 s else Some s);
    scan_devices n b (d + 1) s1) = Some s' /\ walked c s0 s' (device_functions c b d ++ device_list c n b (d + 1))) as (s' & E & W).
  { apply walk_seq; [|intros s1 Hs1 Hr1; apply IH; [done|done|lia|lia|done]|done]. intros Hrd. unfold device_functions in *.
    case_decide as Hp; unfold present in Hp; cbn [fst snd] in Hp.
    - rewrite (proj2 (Z.eqb_neq _ _)) by done. change ((b, d, 0) :: ?l) with ([(b, d, 0)] ++ l) in *.
      apply walk_seq; [intros Hr1; apply probe_spec; [done|apply Hok; lia|done|done]| |done].
      intros s1 Hs1 Hr1. destruct (header_type_read (host s1) c b d 0 Hs1 ltac:(apply Hok; lia)) as (h1 & -> & Hh1).
      pose proof (walked_host c s1 h1 (proj1 Hr1) Hh1) as W1. destruct (Z.land (header c b d 0) 128 =? 0); cbn [negb]; [by eexists|].
      destruct (scan_functions_spec c b d 7 (Walker h1 (world s1) (pci_devices s1)) 1) as (s2 & E2 & W2); [done|done|lia|lia|lia|exact Hr1|].
      exists s2. split; [done|]. exact (walked_trans _ _ _ _ _ _ W1 W2).
    - assert (vendor c b d 0 = 65535) as -> by lia. exists s0. split; [done|]. exact (walked_host c s0 h (proj1 Hr0) Hh). }
  exists s'. split; [done|]. exact (walked_trans _ _ _ _ _ _ W0 W).
Qed.

Lemma scan_buses_spec c n : forall s b, shows (host s) c -> 0 <= b -> b + Z.of_nat n <= 256 ->
  room_for c s (bus_list c n b) -> exists s', scan_buses n b s = Some s' /\ walked c s s' (bus_list c n b).
Proof.
  induction n as [|n IH]; intros s b Hc Hb Hn Hr; cbn [scan_buses bus_list].
  { exists s. split; [done|]. destruct s. by apply walked_host; [apply Hr|]. }
  rewrite u8_id, u16_id by (red; lia). apply walk_seq; [|intros s1 Hs1 Hr1; apply IH; [done|lia|lia|done]|done].
  intros Hr1. apply scan_devices_spec; [done|lia|lia|lia|done].
Qed.

(** no device is found by its identifiers.  [pci_read_device_id] returns the
    vendor, so after a walk [pci_find_device] finds nothing unless the two
    identifiers asked for are the same. *)
Theorem pci_find_device_fails s v d :
  let c := cfg (host s) in
  heap_wf (heap_pos (world s)) -> heap_pos (world s) + total c (functions c) <= HEAP_SIZE -> pci_devices s = [] -> v <> d ->
  exists s', pci_init s = Some s' /\ pci_find_device s' v d = None.
Proof.
  intros c Hw Hr H0 Hv. destruct (scan_buses_spec c 256 s 0) as (s' & E & W); [done|lia|lia|done|]. exists s'. split; [done|].
  pose proof (wa_devices _ _ _ _ W) as Hd. rewrite H0, app_nil_r in Hd. unfold pci_find_device.
  destruct (List.find _ _) as [[p e]|] eqn:Ef; [|done]. apply find_some in Ef as [Hin He]. cbn [snd] in He.
  apply list_elem_of_In in Hin. assert (e ∈ (snd <$> pci_devices s')) as He' by (apply list_elem_of_fmap; by exists (p, e)). rewrite Hd in He'.
  clear Hin. rename He' into Hin. apply elem_of_reverse, list_elem_of_fmap in Hin as ([[b dd] f] & -> & _). cbn in He. lia.
Qed.

(** *** Sizes *)
Lemma high_bits k i : 0 <= k <= 32 -> 0 <= i -> Z.testbit (4294967296 - 2 ^ k) i = (k <=? i) && (i <? 32).
Proof.
  intros Hk Hi. assert (4294967296 - 2 ^ k = Z.shiftl (Z.ones (32 - k)) k) as ->.
  { rewrite Z.shiftl_mul_pow2, Z.ones_equiv by lia. rewrite <- Z.sub_1_r, Z.mul_sub_distr_r, <- Z.pow_add_r by lia.
    replace (32 - k + k) with 32 by lia. change (2 ^ 32) with 4294967296. lia. }
  rewrite Z.shiftl_spec by done. destruct (Z.leb_spec k i); cbn [andb].
  - rewrite Z.testbit_ones by lia. lia.
  - by rewrite Z.testbit_neg_r by lia.
Qed.

(** The type bits aside, the register shows its writable bits. *)
Lemma size_mask_spec c b d f r k :
  rw b d f r = 4294967296 - 2 ^ k -> 4 <= k <= 32 -> is_u32 (c b d f r) -> c b d f r mod 2 ^ k < 16 ->
  Z.land (size_mask c b d f r) 4294967280 = 4294967296 - 2 ^ k.
Proof.
  intros Hrw Hk Hu Hx. unfold size_mask. rewrite Hrw. set (x := c b d f r) in *. apply Z.bits_inj'. intros i Hi.
  change 4294967280 with (4294967296 - 2 ^ 4). change 4294967295 with (Z.ones 32).
  rewrite Z.land_spec, Z.lor_spec, Z.land_spec, Z.ldiff_spec, !high_bits, Z.testbit_ones by lia.
  destruct (Z.leb_spec k i); cbn [andb].
  - destruct (Z.ltb_spec i 32); cbn [negb andb]; [lia|]. rewrite !andb_false_r. done.
  - rewrite !andb_false_r, orb_false_l, andb_true_r. destruct (Z.leb_spec 4 i); [|by rewrite andb_false_r]. cbn [andb].
    assert (Z.testbit x i = false) as ->; [|done]. rewrite <- (Z.mod_pow2_bits_low x k i) by lia.
    apply Z.testbit_false; [done|]. rewrite Z.div_small; [done|]. split; [apply Z.mod_pos_bound; lia|].
    apply Z.lt_le_trans with 16; [done|]. change 16 with (2 ^ 4). apply Z.pow_le_mono_r; lia.
Qed.

Lemma land_base x : is_u32 x -> Z.land x 4294967280 = x - x mod 16.
Proof.
  intros Hx. change 4294967280 with (Z.ldiff (Z.ones 32) (Z.ones 4)). rewrite Z.ldiff_land, Z.land_assoc, <- Z.ldiff_land.
  rewrite Z.land_ones, Z.mod_small by (red in Hx; change (2 ^ 32) with 4294967296; lia).
  rewrite Z.ldiff_ones_r, Z.shiftl_mul_pow2, Z.shiftr_div_pow2 by lia. change (2 ^ 4) with 16. dlia.
Qed.

Section bar.
(** A memory register of [2 ^ k] bytes: the address bits are writable, the four type bits are not. *)
Context (h : H) (b d f i k : Z).
Let x := cfg h b d f (16 + 4 * i).
Hypothesis fn : fn_ok b d f.
Hypothesis index : 0 <= i < 6.
Hypothesis size : 4 <= k < 32.
Hypothesis writable : rw b d f (16 + 4 * i) = 4294967296 - 2 ^ k.
Hypothesis aligned : x mod 2 ^ k < 16.
Hypothesis memory : Z.land x 1 = 0.
Hypothesis assigned : x <> 0 /\ x <> 4294967295.

Lemma bar_cases :
  bar_of (cfg h) b d f i =
    if Z.land x 6 =? 4 then (Z.lor (u64 (Z.shiftl (cfg h b d f (20 + 4 * i)) 32)) (x - x mod 16), 18446744073709551616 - 4294967296 + 2 ^ k)
    else (x - x mod 16, 2 ^ k).
Proof.
  unfold bar_of. fold x. pose proof (cfg_u32 h b d f (16 + 4 * i)) as Hx. fold x in Hx.
  rewrite (size_mask_spec _ _ _ _ _ k), land_base by (done || lia). rewrite memory.
  rewrite (proj2 (Z.eqb_neq x 0)), (proj2 (Z.eqb_neq x 4294967295)) by tauto. cbn [orb negb Z.eqb].
  pose proof (Z.pow_pos_nonneg 2 k ltac:(lia) ltac:(lia)). assert (2 ^ k <= 2 ^ 31) by (apply Z.pow_le_mono_r; lia).
  change (2 ^ 31) with 2147483648 in *. assert (Z.lnot (4294967296 - 2 ^ k) + 1 = 2 ^ k - 4294967296) as -> by (unfold Z.lnot; lia).
  destruct (Z.land x 6 =? 4); f_equal.
  - unfold u64. rewrite <- (Z.mod_add _ 1) by lia. rewrite Z.mod_small by lia. lia.
  - unfold u32. rewrite <- (Z.mod_add _ 1) by lia. rewrite Z.mod_small by lia. lia.
Qed.

(** the size of a 32-bit memory register is found: [pci_read_bar] returns its
    base and [2 ^ k], and all registers are as before. *)
Theorem pci_bar_size_correct : Z.land x 6 <> 4 ->
  exists h', pci_read_bar h b d f i = (h', x - x mod 16, Some (2 ^ k)) /\
    forall b' d' f' r', cfg h' b' d' f' r' = cfg h b' d' f' r'.
Proof.
  intros H6. destruct (bar_read h (cfg h) b d f i) as (h' & E & Hh'); [done|done|done|]. exists h'. split; [|done].
  rewrite E, bar_cases. by rewrite (proj2 (Z.eqb_neq _ _)).
Qed.

(** the size of a 64-bit memory register is wrong: the upper half of the mask
    is taken to be zero, and [pci_read_bar] reports almost [2 ^ 64] bytes. *)
Theorem pci_bar64_size_wrong : Z.land x 6 = 4 ->
  exists h' base, pci_read_bar h b d f i = (h', base, Some (18446744073709551616 - 4294967296 + 2 ^ k)).
Proof.
  intros H6. destruct (bar_read h (cfg h) b d f i) as (h' & E & Hh'); [done|done|done|]. eexists h', _.
  rewrite E, bar_cases. rewrite H6. done.
Qed.
End bar.

(** Base address register [i] is a memory register of 32 bits with [2 ^ k] bytes. *)
Definition memory32 c (b d f i k : Z) : Prop :=
  let x := c b d f (16 + 4 * i) in
  4 <= k < 32 /\ rw b d f (16 + 4 * i) = 4294967296 - 2 ^ k /\ x mod 2 ^ k < 16 /\ Z.land x 1 = 0 /\ Z.land x 6 <> 4 /\ x <> 0 /\ x <> 4294967295.

(** The entry [dev] describes the function at the place [p]: the fields it has in its registers, the device identifier aside,
    and base and size of its 32-bit memory registers. *)
Record is_function c (p : Z * Z * Z) (dev : pci_device) : Prop := {
  if_place : (bus dev, device dev, function dev) = p;
  if_vendor : vendor_id dev = c p.1.1 p.1.2 p.2 0 mod 65536;
  if_class : class_code dev = c p.1.1 p.1.2 p.2 8 / 16777216;
  if_subclass : subclass dev = c p.1.1 p.1.2 p.2 8 / 65536 mod 256;
  if_prog_if : prog_if dev = c p.1.1 p.1.2 p.2 8 / 256 mod 256;
  if_header : header_type dev = c p.1.1 p.1.2 p.2 12 / 65536 mod 256;
  if_line : interrupt_line dev = c p.1.1 p.1.2 p.2 60 mod 256;
  if_pin : interrupt_pin dev = c p.1.1 p.1.2 p.2 60 / 256 mod 256;
  if_bar i k : 0 <= i < 6 -> memory32 c p.1.1 p.1.2 p.2 i k ->
    getZ (bar dev) i = Some (c p.1.1 p.1.2 p.2 (16 + 4 * i) / 16 * 16) /\ getZ (bar_size dev) i = Some (2 ^ k)
}.

Lemma bus_list_ok c p : forall n b, 0 <= b -> b + Z.of_nat n <= 256 -> p ∈ bus_list c n b -> fn_ok p.1.1 p.1.2 p.2.
Proof.
  assert (forall m d0 b, 0 <= b < 256 -> 0 <= d0 -> d0 + Z.of_nat m <= 32 -> p ∈ device_list c m b d0 -> fn_ok p.1.1 p.1.2 p.2) as Hdev.
  { induction m as [|m IH]; intros d0 b Hb H0 Hm Hin; cbn [device_list] in Hin; [by apply elem_of_nil in Hin|].
    apply elem_of_app in Hin as [Hin|Hin]; [|by eapply (IH (d0 + 1)); [..|exact Hin]; lia].
    unfold device_functions in Hin. case_decide; [|by apply elem_of_nil in Hin].
    apply elem_of_cons in Hin as [->|Hin]; [repeat split; cbn; lia|]. case_match; [by apply elem_of_nil in Hin|].
    apply list_elem_of_filter in Hin as [_ Hin].
    assert (forall k f0, 0 <= f0 -> f0 + Z.of_nat k <= 8 -> p ∈ funs k b d0 f0 -> fn_ok p.1.1 p.1.2 p.2) as Hfun; [|by eapply (Hfun 7%nat 1); [..|exact Hin]; lia].
    induction k as [|k IHk]; intros f0 Hf0 Hk Hi; cbn [funs] in Hi; [by apply elem_of_nil in Hi|].
    apply elem_of_cons in Hi as [->|Hi]; [repeat split; cbn; lia|]. eapply (IHk (f0 + 1)); [..|exact Hi]; lia. }
  induction n as [|n IH]; intros b Hb Hn Hin; cbn [bus_list] in Hin; [by apply elem_of_nil in Hin|].
  apply elem_of_app in Hin as [Hin|Hin]; [eapply (Hdev 32%nat 0 b); [..|exact Hin]; lia|eapply (IH (b + 1)); [..|exact Hin]; lia].
Qed.

Lemma functions_ok c p : p ∈ functions c -> fn_ok p.1.1 p.1.2 p.2.
Proof. apply bus_list_ok; lia. Qed.

Lemma bits_land x n m : 0 <= n -> 0 <= m -> Z.land (Z.shiftr x n) (Z.ones m) = x / 2 ^ n mod 2 ^ m.
Proof. intros Hn Hm. by rewrite Z.land_ones, Z.shiftr_div_pow2. Qed.

Lemma describe_function h p : fn_ok p.1.1 p.1.2 p.2 -> is_function (cfg h) p (describe (cfg h) p).
Proof.
  destruct p as [[b d] f]. cbn [fst snd]. intros Hfn. split; cbn [describe bus device function vendor_id class_code subclass prog_if header_type
    interrupt_line interrupt_pin bar bar_size fst snd]; [done|..].
  - unfold vendor. change 65535 with (Z.ones 16). by rewrite Z.land_ones.
  - unfold class. change 255 with (Z.ones 8). rewrite bits_land by lia. apply Z.mod_small. pose proof (cfg_u32 h b d f 8) as Hu. red in Hu.
    change (2 ^ 24) with 16777216. change (2 ^ 8) with 256. dlia.
  - unfold sub. change 255 with (Z.ones 8). by rewrite bits_land.
  - unfold interface. change 255 with (Z.ones 8). by rewrite bits_land.
  - unfold header. change 255 with (Z.ones 8). by rewrite bits_land.
  - change 255 with (Z.ones 8). by rewrite Z.land_ones.
  - change 255 with (Z.ones 8). by rewrite bits_land.
  - intros i k Hi (Hk & Hrw & Hal & H1 & H6 & Ha). pose proof (bar_cases h b d f i k Hi Hk Hrw Hal H1 Ha) as Hb.
    rewrite (proj2 (Z.eqb_neq _ _)) in Hb by done.
    assert (bars_from (cfg h) b d f 6 0 !! Z.to_nat i = Some (bar_of (cfg h) b d f i)) as Hl.
    { assert (i = 0 \/ i = 1 \/ i = 2 \/ i = 3 \/ i = 4 \/ i = 5) as Hc by lia. by destruct Hc as [->|[->|[->|[->|[->| ->]]]]]. }
    unfold getZ. rewrite (proj2 (Z.ltb_ge i 0)) by lia. rewrite !list_lookup_fmap, Hl. cbn [fmap option_fmap option_map]. rewrite Hb. cbn [fst snd].
    split; [|done]. f_equal. dlia.
Qed.

(** C23: the bus walk.  On a host bridge with the configuration mechanism and with room in the heap, [pci_init] lists exactly the
    functions of the bus -- function 0 of every device whose vendor is not 0xFFFF and, where its header says so, the present ones of
    functions 1 to 7 --, newest first, each with its place, vendor, class, subclass, interface, header type and interrupt, and with base
    and size of its 32-bit memory registers; every register of every function is as it was before, also the ones that were sized.
    The device identifier is not among the fields ([pci_find_device_fails]), nor are 64-bit registers ([pci_bar64_size_wrong]) and
    those for ports. *)
Theorem pci_init_correct s :
  let c := cfg (host s) in
  heap_wf (heap_pos (world s)) -> heap_pos (world s) + total c (functions c) <= HEAP_SIZE ->
  exists s' l, pci_init s = Some s' /\ snd <$> pci_devices s' = l ++ (snd <$> pci_devices s) /\
    Forall2 (is_function c) (reverse (functions c)) l /\ forall b d f r, cfg (host s') b d f r = cfg (host s) b d f r.
Proof.
  intros c Hw Hr. destruct (scan_buses_spec c 256 s 0) as (s' & E & W); [done|lia|lia|done|].
  exists s', (reverse (describe c <$> functions c)). split; [done|]. split; [apply (wa_devices _ _ _ _ W)|]. split; [|apply (wa_shows _ _ _ _ W)].
  rewrite <- fmap_reverse. apply Forall2_fmap_r, Forall_Forall2_diag, Forall_reverse, list.Forall_forall.
  intros p Hp. apply describe_function. by eapply functions_ok.
Qed.
End scan.

(** ** A host bridge with two functions *)
Record bridge := Bridge { selected : Z; registers : Z -> Z }.

(** Two registers of the first function have writable bits. *)
Definition bridge_rw (a : Z) : Z := if (a =? 2147483664) || (a =? 2147483668) then 4294963200 else 0.

Definition bridge_write (g : bridge) (v : Z) : bridge :=
  let m := bridge_rw (selected g) in
  Bridge (selected g) (fun a => if a =? selected g then Z.lor (Z.land v m) (Z.ldiff (u32 (registers g a)) m) else registers g a).

#[local] Instance bridge_host : PciHost bridge := {
  outl g port v := if port =? 3320 then Bridge v (registers g) else if port =? 3324 then bridge_write g v else g;
  inl g port := if port =? 3324 then (g, u32 (registers g (selected g))) else (g, 4294967295)
}.

Definition valid_b (b d f r : Z) : bool :=
  (0 <=? b) && (b <? 256) && (0 <=? d) && (d <? 32) && (0 <=? f) && (f <? 8) && (0 <=? r) && (r <? 256) && (r mod 4 =? 0).
Definition bridge_cfg (g : bridge) (b d f r : Z) : Z :=
  if valid_b b d f r then u32 (registers g (reg_address b d f r)) else 0.

Lemma valid_b_spec b d f r : valid_b b d f r = true <-> valid_reg b d f r.
Proof. unfold valid_b, valid_reg. rewrite !andb_true_iff. lia. Qed.

Lemma reg_address_inj b d f r b' d' f' r' : valid_reg b d f r -> valid_reg b' d' f' r' ->
  reg_address b d f r = reg_address b' d' f' r' -> (b, d, f, r) = (b', d', f', r').
Proof.
  unfold valid_reg, reg_address. intros (? & ? & ? & ? & _) (? & ? & ? & ? & _) E.
  assert (b = b') as -> by lia. assert (d = d') as -> by lia. assert (f = f') as -> by lia. by assert (r = r') as -> by lia.
Qed.

Lemma u32_mix v x m : is_u32 v -> is_u32 x -> u32 (Z.lor (Z.land v m) (Z.ldiff x m)) = Z.lor (Z.land v m) (Z.ldiff x m).
Proof.
  intros Hv Hx. rewrite <- (u32_id v Hv), <- (u32_id x Hx). unfold u32. change 4294967296 with (2 ^ 32).
  rewrite <- !Z.land_ones by lia. apply Z.bits_inj'. intros i Hi. rewrite ?Z.land_spec, ?Z.lor_spec, ?Z.land_spec, ?Z.ldiff_spec, ?Z.land_spec.
  by destruct (Z.testbit v i), (Z.testbit x i), (Z.testbit m i), (Z.testbit (Z.ones 32) i).
Qed.

#[local] Instance bridge_laws : PciHostLaws bridge.
Proof.
  refine {| cfg := bridge_cfg; rw b d f r := bridge_rw (reg_address b d f r) |}.
  - intros g b d f r. unfold bridge_cfg. destruct (valid_b b d f r); [apply u32_range|red; lia].
  - intros b d f r. unfold bridge_rw. destruct (_ || _); red; lia.
  - intros g b d f r Hv. cbn. unfold bridge_cfg. by rewrite (proj2 (valid_b_spec b d f r) Hv).
  - intros g b d f r v Hv Hu h' b' d' f' r'. unfold h'. cbn. unfold bridge_cfg, bridge_write. cbn [selected registers].
    destruct (decide ((b', d', f', r') = (b, d, f, r))) as [E|E].
    + injection E as -> -> -> ->. rewrite (proj2 (valid_b_spec b d f r) Hv), Z.eqb_refl. apply u32_mix; [done|apply u32_range].
    + destruct (valid_b b' d' f' r') eqn:Hb; [|done]. apply valid_b_spec in Hb.
      rewrite (proj2 (Z.eqb_neq _ _)); [done|]. intros Ea. apply E. by apply reg_address_inj.
Defined.

(** A disk controller with two memory registers at 0:0:0, and a network card at 0:1:0. *)
Definition bridge0 : bridge := Bridge 0 (fun a =>
  if a =? 2147483648 then 268507892 else if a =? 2147483656 then 16777216 else if a =? 2147483660 then 0
  else if a =? 2147483664 then 4273934336 else if a =? 2147483668 then 3758096388
  else if a =? 2147485696 then 268442356 else if a =? 2147485704 then 33554432
  else if (2147483648 <=? a) && (a <? 2147483904) then 0 else if (2147485696 <=? a) && (a <? 2147485952) then 0 else 4294967295).

Definition walker0 : walker bridge := Walker bridge0 (Drivers 0 (Registry [] 1) None None) [].

Lemma pci_init_correct_witness :
  exists s' l, pci_init walker0 = Some s' /\ snd <$> pci_devices s' = l ++ (snd <$> pci_devices walker0) /\
    Forall2 (is_function (cfg (host walker0))) (reverse (functions (cfg (host walker0)))) l /\
    forall b d f r, cfg (host s') b d f r = cfg (host walker0) b d f r.
Proof. apply (pci_init_correct walker0); [by vm_compute|vm_compute; discriminate]. Defined.

Lemma pci_find_device_fails_witness : exists s', pci_init walker0 = Some s' /\ pci_find_device s' 6900 4097 = None.
Proof. apply (pci_find_device_fails walker0 6900 4097); [by vm_compute|vm_compute; discriminate|done|done]. Defined.

Lemma pci_bar_size_correct_witness :
  exists h', pci_read_bar bridge0 0 0 0 0 = (h', cfg bridge0 0 0 0 (16 + 4 * 0) - cfg bridge0 0 0 0 (16 + 4 * 0) mod 16, Some (2 ^ 12)) /\
    forall b' d' f' r', cfg h' b' d' f' r' = cfg bridge0 b' d' f' r'.
Proof.
  apply (pci_bar_size_correct bridge0 0 0 0 0 12); [unfold fn_ok; lia|lia|lia|reflexivity|vm_compute; reflexivity|reflexivity|by vm_compute|].
  vm_compute. discriminate.
Defined.

Lemma pci_bar64_size_wrong_witness :
  exists h' base, pci_read_bar bridge0 0 0 0 1 = (h', base, Some (18446744073709551616 - 4294967296 + 2 ^ 12)).
Proof.
  apply (pci_bar64_size_wrong bridge0 0 0 0 1 12); [unfold fn_ok; lia|lia|lia|reflexivity|vm_compute; reflexivity|reflexivity|by vm_compute|].
  reflexivity.
Defined.
End Pci.
