(* ===== verification/Devicetree.v ===== *)
(** * The device tree parser: [src/drivers/devicetree.c]

    The blob is a memory object at the address [base]; a position in it is an
    offset, and reading outside of it is undefined.  The initialisers of the drivers
    are parameters: [Virtio] and [Pl011] model them over their own states.  The loops
    run with fuel.  Messages are left out. *)
From Stdlib Require Import String.
From S2P Require Import Prelude KernelLib Device Virtio.
Import CString Memory.
Open Scope list_scope.
Open Scope Z_scope.

Module Devicetree.

Definition FDT_MAGIC : Z := 3490578157.
Definition FDT_BEGIN_NODE : Z := 1.
Definition FDT_END_NODE : Z := 2.
Definition FDT_PROP : Z := 3.
Definition FDT_NOP : Z := 4.
Definition FDT_END : Z := 9.

(** The offsets of the members of [fdt_header_t] that are read. *)
Definition hdr_magic : Z := 0.
Definition hdr_off_dt_struct : Z := 8.
Definition hdr_off_dt_strings : Z := 12.
Definition hdr_version : Z := 20.

Record dt_device := DtDevice {
  name : bytes;
  compatible : bytes;
  reg_base : Z;
  reg_size : Z;
  interrupt : Z
}.
Definition sizeof_dt_device : Z := 544.

Definition fdt32_to_cpu (x : Z) : Z := le_val (reverse (le_bytes 4 x)).
Definition fdt64_to_cpu (x : Z) : Z := le_val (reverse (le_bytes 8 x)).

Section parser.
Context {W : Type} (heap_of : W -> Z) (set_heap : Z -> W -> W).
Context (virtio_mmio_init pl011_init : Z -> W -> option W).
Context (base : Z) (blob : bytes).

(** The rest of the system and [dt_devices], newest first, with their addresses. *)
Record dt := Dt { world : W; dt_devices : list (Z * dt_device) }.

Definition rd32 (p : Z) : option Z := ld blob p 4.
Definition from (p : Z) : bytes := if 0 <=? p then drop (Z.to_nat p) blob else [].
Definition align4 (p : Z) : Z := ALIGN_UP (u64 (base + p)) 4 - base.

Definition fdt_string (offset : Z) : option Z :=
  w ← rd32 hdr_off_dt_strings; Some (fdt32_to_cpu w + offset).
Definition fdt_struct_base : option Z :=
  w ← rd32 hdr_off_dt_struct; Some (fdt32_to_cpu w).

Definition device_register_dt (p : Z) (dt_dev : dt_device) (w : W) : option W :=
  r ← strncmp (compatible dt_dev) (str "virtio,mmio" ++ [0]) 11;
  if r =? 0 then virtio_mmio_init p w
  else
    r ← strncmp (compatible dt_dev) (str "arm,pl011" ++ [0]) 9;
    if r =? 0 then pl011_init p w else Some w.

(** The local variables of [dt_parse_node]. *)
Record locals := Locals { l_name : bytes; l_compatible : bytes; l_base : Z; l_size : Z; l_interrupt : Z }.
Definition locals0 : locals := Locals (replicate 256 0) (replicate 256 0) 0 0 0.

(** The loop that looks for the end of a name, a byte at a time. *)
Fixpoint skip_name (fuel : nat) (p : Z) : outcome Z :=
  w ← need (rd32 p);
  if w =? 0 then Ret p else match fuel with O => More | S fuel' => skip_name fuel' (p + 1) end.

(** One property, whose length and name offset have been read; [p] is at its data. *)
Definition read_prop (p len nameoff : Z) (l : locals) : option locals :=
  prop_name ← fdt_string nameoff;
  r ← strcmp (from prop_name) (str "compatible" ++ [0]);
  if (r =? 0) && (0 <? len) then
    c ← strncpy (l_compatible l) (from p) 255;
    Some (Locals (l_name l) c (l_base l) (l_size l) (l_interrupt l))
  else
    r ← strcmp (from prop_name) (str "reg" ++ [0]);
    if (r =? 0) && (8 <=? len) then
      b ← rd32 p; s ← rd32 (p + 4);
      Some (Locals (l_name l) (l_compatible l) (fdt32_to_cpu b) (fdt32_to_cpu s) (l_interrupt l))
    else
      r ← strcmp (from prop_name) (str "interrupts" ++ [0]);
      if (r =? 0) && (4 <=? len) then
        i ← rd32 p;
        Some (Locals (l_name l) (l_compatible l) (l_base l) (l_size l) (fdt32_to_cpu i))
      else Some l.

(** The end of a node: a device is added. *)
Definition end_node (l : locals) (s : dt) : option dt :=
  n ← strlen (l_name l);
  add ← (if 0 <? n then c ← strlen (l_compatible l); Some (0 <? c) else Some false);
  if add : bool then
    let '(p, heap) := malloc (heap_of (world s)) sizeof_dt_device in
    let w := set_heap heap (world s) in
    match p with
    | None => Some (Dt w (dt_devices s))
    | Some p =>
        nm ← strncpy (replicate 256 0) (l_name l) 255;
        c ← strncpy (replicate 256 0) (l_compatible l) 255;
        let dev := DtDevice nm c (l_base l) (l_size l) (l_interrupt l) in
        w ← device_register_dt p dev w;
        Some (Dt w ((p, dev) :: dt_devices s))
    end
  else Some s.

Fixpoint node_loop (fuel : nat) (p : Z) (l : locals) (s : dt) : outcome (Z * dt) :=
  match fuel with
  | O => More
  | S fuel' =>
      w ← need (rd32 p);
      let token := fdt32_to_cpu w in
      let p := p + 4 in
      if token =? FDT_BEGIN_NODE then
        q ← skip_name (length blob) p;
        nm ← need (strncpy (l_name l) (from p) 255);
        node_loop fuel' (align4 q) (Locals nm (l_compatible l) (l_base l) (l_size l) (l_interrupt l)) s
      else if token =? FDT_PROP then
        len ← need (rd32 p);
        nameoff ← need (rd32 (p + 4));
        let len := fdt32_to_cpu len in
        let p := p + 8 in
        l ← need (read_prop p len (fdt32_to_cpu nameoff) l);
        node_loop fuel' (align4 (p + len)) l s
      else if token =? FDT_END_NODE then
        s ← need (end_node l s);
        Ret (p, s)
      else if token =? FDT_NOP then node_loop fuel' p l s
      else if token =? FDT_END then Ret (p, s)
      else node_loop fuel' p l s
  end.

Definition dt_parse_node (fuel : nat) (p : Z) (s : dt) : outcome (Z * dt) := node_loop fuel p locals0 s.

Fixpoint dt_loop (fuel : nat) (p : Z) (s : dt) : outcome dt :=
  match fuel with
  | O => More
  | S fuel' =>
      w ← need (rd32 p);
      let token := fdt32_to_cpu w in
      if token =? FDT_END then Ret s
      else if token =? FDT_BEGIN_NODE then
        r ← dt_parse_node fuel p s;
        dt_loop fuel' r.1 r.2
      else dt_loop fuel' (p + 4) s
  end.

(** [given]: the address is not null. *)
Definition dt_init (fuel : nat) (given : bool) (s : dt) : outcome dt :=
  if negb given then Ret s
  else
    w ← need (rd32 hdr_magic);
    if negb (fdt32_to_cpu w =? FDT_MAGIC) then Ret s
    else
      _ ← need (rd32 hdr_version);
      p ← need fdt_struct_base;
      dt_loop fuel p s.

Fixpoint find_device (l : list (Z * dt_device)) (c : bytes) : option (option (Z * dt_device)) :=
  match l with
  | [] => Some None
  | e :: l' =>
      r ← strncmp (compatible e.2) c 256;
      if r =? 0 then Some (Some e) else find_device l' c
  end.
Definition dt_find_device (s : dt) (c : bytes) : option (option (Z * dt_device)) := find_device (dt_devices s) c.

(** ** The parser ends *)
Hypothesis base_ok : 0 <= base /\ base mod 4 = 0 /\ base + lenZ blob + 4294967300 <= 2 ^ 64.

Lemma fdt32_range x : 0 <= fdt32_to_cpu x < 4294967296.
Proof.
  unfold fdt32_to_cpu. pose proof (le_val_bound (reverse (le_bytes 4 x))) as Hb. unfold lenZ in Hb.
  rewrite length_reverse, length_le_bytes in Hb. exact Hb.
Qed.

Lemma fdt_align_spec p : 0 <= p <= lenZ blob + 4294967296 -> align4 p = (p + 3) / 4 * 4.
Proof.
  intros Hp. change (2 ^ 64) with 18446744073709551616 in base_ok. unfold align4. rewrite u64_id by (red; lia).
  change 4 with (2 ^ 2) at 1. rewrite ALIGN_UP_pow2 by (change (2 ^ 64) with 18446744073709551616; lia).
  change (2 ^ 2) with 4. dlia.
Qed.

Lemma rd32_in p w : rd32 p = Some w -> 0 <= p /\ p + 4 <= lenZ blob.
Proof. intros Hr. apply ld_inv in Hr as (? & ? & _). lia. Qed.

Lemma skip_name_ends fuel : forall p, 0 <= p -> lenZ blob < p + Z.of_nat fuel + 4 ->
  match skip_name fuel p with Ret q => p <= q <= lenZ blob | Undef => True | More => False end.
Proof.
  induction fuel as [|fuel IH]; intros p Hp Hf; cbn [skip_name]; destruct (rd32 p) as [w|] eqn:E; cbn; try done;
    apply rd32_in in E; [lia|]. destruct (w =? 0); [lia|].
  specialize (IH (p + 1) ltac:(lia) ltac:(lia)). destruct (skip_name fuel (p + 1)); try done. lia.
Qed.

(** A token is at least four bytes, so the fuel outlasts the blob. *)
Lemma node_loop_ends fuel : forall p l s, 0 <= p -> (0 < fuel)%nat -> lenZ blob < p + 4 * Z.of_nat fuel ->
  match node_loop fuel p l s with Ret (q, _) => p + 4 <= q | Undef => True | More => False end.
Proof.
  induction fuel as [|fuel IH]; intros p l s Hp H0 Hf; [lia|]. cbn [node_loop].
  destruct (rd32 p) as [w|] eqn:E; [|done]. cbn [need mbind outcome_bind]. apply rd32_in in E.
  assert (forall p' l s, p + 4 <= p' ->
    match node_loop fuel p' l s with Ret (q, _) => p + 4 <= q | Undef => True | More => False end) as IH'.
  { intros p' l' s' Hp'. specialize (IH p' l' s' ltac:(lia) ltac:(lia) ltac:(lia)). destruct (node_loop fuel p' l' s') as [[]| |]; lia || done. }
  destruct (_ =? FDT_BEGIN_NODE).
  { pose proof (skip_name_ends (length blob) (p + 4) ltac:(lia) ltac:(unfold lenZ in *; lia)) as Hq.
    destruct (skip_name (length blob) (p + 4)) as [q| |]; [|done|done]. cbn [mbind outcome_bind].
    destruct (strncpy _ _ _); [|done]. cbn [need mbind outcome_bind]. apply IH'. rewrite fdt_align_spec by lia. dlia. }
  destruct (_ =? FDT_PROP).
  { destruct (rd32 (p + 4)) as [len|] eqn:E1; [|done]. cbn [need mbind outcome_bind].
    destruct (rd32 (p + 4 + 4)) as [nameoff|] eqn:E2; [|done]. cbn [need mbind outcome_bind]. apply rd32_in in E2.
    destruct (read_prop _ _ _ _); [|done]. cbn [need mbind outcome_bind]. apply IH'. pose proof (fdt32_range len).
    rewrite fdt_align_spec by lia. dlia. }
  destruct (_ =? FDT_END_NODE); [destruct (end_node l s); [cbn; lia|done]|].
  destruct (_ =? FDT_NOP); [apply IH'; lia|]. destruct (_ =? FDT_END); [lia|]. apply IH'. lia.
Qed.

Lemma dt_loop_ends fuel : forall p s, 0 <= p -> (0 < fuel)%nat -> lenZ blob < p + 4 * Z.of_nat fuel -> dt_loop fuel p s <> More.
Proof.
  induction fuel as [|fuel IH]; intros p s Hp H0 Hf; [lia|]. cbn [dt_loop].
  destruct (rd32 p) as [w|] eqn:E; [|done]. cbn [need mbind outcome_bind]. apply rd32_in in E.
  destruct (_ =? FDT_END); [done|]. destruct (_ =? FDT_BEGIN_NODE); [|apply IH; lia].
  unfold dt_parse_node. pose proof (node_loop_ends (S fuel) p locals0 s Hp H0 Hf) as Hn.
  destruct (node_loop (S fuel) p locals0 s) as [[q s']| |]; [|done|done]. cbn [mbind outcome_bind fst snd]. apply IH; lia.
Qed.

(** the parser ends on every blob, also on one that is cut or forged: with one
    unit of fuel for each word, [dt_init] returns or reads outside of the blob. *)
Theorem dt_init_ends fuel given s : (0 < fuel)%nat -> lenZ blob < 4 * Z.of_nat fuel -> dt_init fuel given s <> More.
Proof.
  intros H0 Hf. unfold dt_init. destruct given; [|done]. cbn [negb]. destruct (rd32 hdr_magic); [|done]. cbn [need mbind outcome_bind].
  destruct (negb _); [done|]. destruct (rd32 hdr_version); [|done]. cbn [need mbind outcome_bind].
  unfold fdt_struct_base. destruct (rd32 hdr_off_dt_struct) as [w|]; [|done]. cbn [mbind option_bind need outcome_bind].
  pose proof (fdt32_range w). apply dt_loop_ends; lia.
Qed.

(** ** What the parser finds *)

(** A string in a buffer of 256 bytes that starts out as zeros. *)
Definition cbuf (t : bytes) : bytes := take 255 t ++ replicate (256 - length (take 255 t)) 0.

Lemma cbuf_tail t : drop 255 (cbuf t) = [0] /\ length (cbuf t) = 256%nat.
Proof.
  unfold cbuf. pose proof (length_take t 255) as Hl. split.
  - rewrite drop_app_ge, drop_replicate by lia. replace (_ - _ - (_ - _))%nat with 1%nat by lia. done.
  - rewrite length_app, length_replicate. lia.
Qed.

Lemma strncpy_cbuf x t rest : nul_free t -> strncpy (cbuf x) (t ++ 0 :: rest) 255 = Some (cbuf t).
Proof.
  intros Ht. destruct (cbuf_tail x) as [Hd Hl]. rewrite strncpy_spec by done. rewrite Hl. unfold cbuf.
  destruct (Nat.leb_spec 255 (length t)).
  - change (255 <=? 256)%nat with true. cbv iota. fold (cbuf x). rewrite Hd, length_take. replace (256 - _)%nat with 1%nat by lia. done.
  - change (255 + 1 <=? 256)%nat with true. cbv iota. fold (cbuf x). rewrite (drop_ge (cbuf x)) by lia. rewrite app_nil_r, take_ge by lia. done.
Qed.

Lemma cbuf_string t : exists r, cbuf t = take 255 t ++ 0 :: r.
Proof.
  unfold cbuf. pose proof (length_take t 255). destruct (256 - length (take 255 t))%nat as [|k] eqn:E; [lia|]. by eexists.
Qed.

Lemma strncpy_cbuf_again t : nul_free t -> strncpy (replicate 256 0) (cbuf t) 255 = Some (cbuf t).
Proof.
  intros Ht. destruct (cbuf_string t) as [r E]. rewrite E at 1. change (replicate 256 0) with (cbuf []).
  rewrite (strncpy_cbuf [] (take 255 t) r) by by apply Forall_take. unfold cbuf. by rewrite take_take.
Qed.

Lemma strlen_cbuf t : nul_free t -> strlen (cbuf t) = Some (lenZ (take 255 t)).
Proof. intros Ht. destruct (cbuf_string t) as [r ->]. apply strlen_spec. by apply Forall_take. Qed.

(** *** The structure block *)
Inductive item := Begin (nm : bytes) | Prp (nameoff : Z) (dat : bytes) | End_ | Nop.

Definition be32 (w : Z) : bytes := reverse (le_bytes 4 w).
Definition pad (l : bytes) : bytes := l ++ replicate (Z.to_nat ((- lenZ l) mod 4)) 0.
Definition enc (i : item) : bytes :=
  match i with
  | Begin nm => be32 1 ++ pad (nm ++ [0])
  | Prp off dat => be32 3 ++ be32 (lenZ dat) ++ be32 off ++ pad dat
  | End_ => be32 2
  | Nop => be32 4
  end.
Definition enc_all (l : list item) : bytes := concat (enc <$> l) ++ be32 9.

Lemma be32_len w : lenZ (be32 w) = 4.
Proof. unfold be32, lenZ. by rewrite length_reverse, length_le_bytes. Qed.

Lemma be32_small w : 0 <= w < 256 -> be32 w = [0; 0; 0; w].
Proof.
  intros Hw. unfold be32. cbn [le_bytes]. rewrite (Z.mod_small w), Z.div_small by lia. done.
Qed.

Lemma be32_val w : 0 <= w < 4294967296 -> fdt32_to_cpu (le_val (be32 w)) = w.
Proof.
  intros Hw. unfold fdt32_to_cpu. pose proof (length_le_bytes 4 w) as Hl.
  assert (le_bytes 4 (le_val (be32 w)) = be32 w) as ->.
  { replace 4%nat with (length (be32 w)) at 1 by (unfold be32; by rewrite length_reverse). apply le_bytes_val.
    unfold be32, bytes_ok. rewrite reverse_Permutation. apply le_bytes_ok. }
  unfold be32. rewrite reverse_involutive. by apply le_val_bytes.
Qed.

Lemma pad_len l : lenZ (pad l) mod 4 = 0 /\ lenZ l <= lenZ (pad l) < lenZ l + 4.
Proof. unfold pad. rewrite lenZ_app, lenZ_replicate, Z2Nat.id by dlia. dlia. Qed.

Lemma from_app p x rest : 0 <= p -> from p = x ++ rest -> from (p + lenZ x) = rest.
Proof.
  intros Hp Hf. unfold from, lenZ in *. rewrite (proj2 (Z.leb_le 0 p)) in Hf by done. rewrite (proj2 (Z.leb_le 0 _)) by lia.
  replace (Z.to_nat (p + Z.of_nat (length x))) with (Z.to_nat p + length x)%nat by lia.
  by rewrite <- drop_drop, Hf, drop_app_length.
Qed.

Lemma from_len p x : 0 <= p -> from p = x -> x <> [] -> p + lenZ x = lenZ blob.
Proof.
  intros Hp Hf Hx. unfold from in Hf. rewrite (proj2 (Z.leb_le 0 p)) in Hf by done. subst x. unfold lenZ. rewrite length_drop.
  destruct (decide (Z.to_nat p < length blob)%nat); [lia|]. rewrite drop_ge in Hx by lia. done.
Qed.

Lemma rd32_spec p x rest : 0 <= p -> from p = x ++ rest -> lenZ x = 4 -> rd32 p = Some (le_val x).
Proof.
  intros Hp Hf Hx. assert (x ++ rest <> []) as Hne by (destruct x; [done|done]).
  pose proof (from_len p _ Hp Hf Hne) as Hl. rewrite lenZ_app in Hl. pose proof (lenZ_nonneg rest). unfold rd32, ld.
  rewrite slice_Some by lia. cbn [mbind option_bind]. unfold from in Hf. rewrite (proj2 (Z.leb_le 0 p)) in Hf by done.
  rewrite Hf. unfold lenZ in *. change (Z.to_nat (Z.of_nat 4)) with 4%nat. replace 4%nat with (length x) by lia. by rewrite take_app_length.
Qed.

Lemma rd_be p w rest : 0 <= p -> 0 <= w < 4294967296 -> from p = be32 w ++ rest ->
  exists v, rd32 p = Some v /\ fdt32_to_cpu v = w.
Proof. intros Hp Hw Hf. exists (le_val (be32 w)). split; [by eapply rd32_spec; [| |apply be32_len]|by apply be32_val]. Qed.

(** *** What it should find *)
Record entry := Entry { e_name : bytes; e_compatible : bytes; e_base : Z; e_size : Z; e_interrupt : Z }.
Definition entry0 : entry := Entry [] [] 0 0 0.

Fixpoint first_string (l : bytes) : bytes :=
  match l with [] => [] | c :: l' => if c =? 0 then [] else c :: first_string l' end.
Definition word (dat : bytes) (i : nat) : Z := le_val (reverse (take 4 (drop (4 * i) dat))).

Definition with_name (nm : bytes) (e : entry) : entry := Entry nm (e_compatible e) (e_base e) (e_size e) (e_interrupt e).
Definition with_prop (nm dat : bytes) (e : entry) : entry :=
  if decide (nm = str "compatible" /\ 0 < lenZ dat) then Entry (e_name e) (first_string dat) (e_base e) (e_size e) (e_interrupt e)
  else if decide (nm = str "reg" /\ 8 <= lenZ dat) then Entry (e_name e) (e_compatible e) (word dat 0) (word dat 1) (e_interrupt e)
  else if decide (nm = str "interrupts" /\ 4 <= lenZ dat) then Entry (e_name e) (e_compatible e) (e_base e) (e_size e) (word dat 0)
  else e.

(** The name of the property at an offset of the string block. *)
Context (pname : Z -> bytes) (strings : Z).

(** The rest of a node after its start and the items behind its end: a node that is
    begun inside it only changes the name. *)
Fixpoint run_node (e : entry) (l : list item) : entry * list item :=
  match l with
  | [] => (e, [])
  | Begin nm :: l' => run_node (with_name nm e) l'
  | Prp off dat :: l' => run_node (with_prop (pname off) dat e) l'
  | End_ :: l' => (e, l')
  | Nop :: l' => run_node e l'
  end.

(** The nodes the parser takes for devices: [m] is the one it is in. *)
Fixpoint nodes (m : option entry) (l : list item) : list entry :=
  match l, m with
  | [], _ => []
  | Begin nm :: l', m => nodes (Some (with_name nm (default entry0 m))) l'
  | Prp off dat :: l', Some e => nodes (Some (with_prop (pname off) dat e)) l'
  | Prp _ _ :: l', None => nodes None l'
  | End_ :: l', Some e => e :: nodes None l'
  | End_ :: l', None => nodes None l'
  | Nop :: l', m => nodes m l'
  end.
Definition is_device (e : entry) : Prop := e_name e <> [] /\ e_compatible e <> [].
#[export] Instance is_device_dec e : Decision (is_device e).
Proof. unfold is_device. apply _. Defined.
Definition as_device (e : entry) : dt_device := DtDevice (cbuf (e_name e)) (cbuf (e_compatible e)) (e_base e) (e_size e) (e_interrupt e).

(** A structure block: properties come before the nodes inside a node, a list of
    compatible names is made of strings. *)
Definition prop_ok (off : Z) (dat : bytes) : Prop :=
  0 <= off < 4294967296 /\ lenZ dat < 4294967296 /\ bytes_ok dat /\ nul_free (pname off) /\
  (exists r, from (strings + off) = pname off ++ 0 :: r) /\ (pname off = str "compatible" -> 0 ∈ dat).
Fixpoint items_ok (inside : bool) (l : list item) : Prop :=
  match l with
  | [] => inside = false
  | Begin nm :: l' => bytes_ok nm /\ nul_free nm /\ items_ok true l'
  | Prp off dat :: l' => inside = true /\ prop_ok off dat /\ items_ok true l'
  | End_ :: l' => items_ok false l'
  | Nop :: l' => items_ok inside l'
  end.

Lemma first_string_split l : 0 ∈ l -> exists r, l = first_string l ++ 0 :: r /\ nul_free (first_string l).
Proof.
  induction l as [|c l IH]; [by intros ?%elem_of_nil|]. cbn [first_string]. destruct (Z.eqb_spec c 0) as [->|Hc].
  { intros _. exists l. split; [done|constructor]. }
  intros [?|Hin]%elem_of_cons; [done|]. destruct (IH Hin) as (r & E & Hn). exists r. split; [by rewrite E at 1|by constructor].
Qed.

(** Locals that hold an entry. *)
Definition holds (l : locals) (e : entry) : Prop :=
  l = Locals (cbuf (e_name e)) (cbuf (e_compatible e)) (e_base e) (e_size e) (e_interrupt e) /\
  nul_free (e_name e) /\ nul_free (e_compatible e).

Hypothesis strings_ok : exists w, rd32 hdr_off_dt_strings = Some w /\ fdt32_to_cpu w = strings.

Lemma name_is off t r : nul_free (pname off) -> nul_free t -> from (strings + off) = pname off ++ 0 :: r ->
  exists z, strcmp (from (strings + off)) (t ++ [0]) = Some z /\ (z =? 0) = bool_decide (pname off = t).
Proof.
  intros H1 H2 ->. destruct (strcmp_spec (pname off) t r [] H1 H2) as (z & E & Hz). exists z. split; [done|].
  case_bool_decide; [by apply Z.eqb_eq, Hz|]. apply Z.eqb_neq. tauto.
Qed.

Lemma word_read p dat rest i : 0 <= p -> from p = dat ++ rest -> 4 * Z.of_nat i + 4 <= lenZ dat -> bytes_ok dat ->
  exists w, rd32 (p + 4 * Z.of_nat i) = Some w /\ fdt32_to_cpu w = word dat i.
Proof.
  intros Hp Hf Hl Hb. set (x := take 4 (drop (4 * i) dat)).
  assert (length x = 4%nat) as Hx by (unfold x, lenZ in *; rewrite length_take, length_drop; lia).
  assert (from (p + 4 * Z.of_nat i) = x ++ drop 4 (drop (4 * i) dat) ++ rest) as Hf'.
  { rewrite app_assoc. unfold x. rewrite take_drop. rewrite <- (take_drop (4 * i) dat), <- app_assoc in Hf.
    apply from_app in Hf; [|done]. rewrite <- Hf. f_equal. unfold lenZ in *. rewrite length_take. lia. }
  exists (le_val x). split; [eapply rd32_spec; [lia|exact Hf'|unfold lenZ; lia]|]. unfold fdt32_to_cpu, word. fold x.
  rewrite <- Hx. rewrite le_bytes_val; [done|]. apply Forall_take, Forall_drop, Hb.
Qed.

Lemma read_prop_spec p off dat rest l e : 0 <= p -> from p = dat ++ rest -> prop_ok off dat -> holds l e ->
  exists l', read_prop p (lenZ dat) off l = Some l' /\ holds l' (with_prop (pname off) dat e).
Proof.
  intros Hp Hf (Hoff & Hlen & Hb & Hn & (r & Hs) & Hc) (-> & Hnm & Hcm). unfold read_prop, fdt_string, with_prop.
  destruct strings_ok as (ws & -> & Es). cbn [mbind option_bind l_name l_compatible l_base l_size l_interrupt]. rewrite Es.
  destruct (name_is off (str "compatible") r Hn ltac:(by apply nul_free_lit) Hs) as (z1 & -> & Z1).
  destruct (name_is off (str "reg") r Hn ltac:(by apply nul_free_lit) Hs) as (z2 & -> & Z2).
  destruct (name_is off (str "interrupts") r Hn ltac:(by apply nul_free_lit) Hs) as (z3 & -> & Z3).
  cbn [mbind option_bind]. rewrite Z1, Z2, Z3.
  destruct (bool_decide_reflect (pname off = str "compatible")) as [E1|E1]; cbn [andb].
  - destruct (first_string_split dat (Hc E1)) as (r' & Ed & Hfs). destruct dat as [|c dat]; [specialize (Hc E1); by apply elem_of_nil in Hc|].
    rewrite (proj2 (Z.ltb_lt 0 _)) by (unfold lenZ; cbn [length]; lia). rewrite decide_True by (unfold lenZ; cbn [length]; split; [done|lia]).
    rewrite Hf, Ed, <- app_assoc. cbn [app]. rewrite strncpy_cbuf by done. cbn [mbind option_bind]. eexists. split; [done|].
    rewrite <- Ed. by split.
  - rewrite decide_False by tauto. destruct (bool_decide_reflect (pname off = str "reg")) as [E2|E2]; cbn [andb].
    + destruct (Z.leb_spec 8 (lenZ dat)).
      * rewrite decide_True by done. destruct (word_read p dat rest 0 Hp Hf ltac:(lia) Hb) as (w0 & R0 & V0).
        destruct (word_read p dat rest 1 Hp Hf ltac:(lia) Hb) as (w1 & R1 & V1). change (p + 4 * Z.of_nat 1) with (p + 4) in R1.
        replace (p + 4 * Z.of_nat 0) with p in R0 by lia. rewrite R0, R1. cbn [mbind option_bind]. eexists. split; [done|].
        rewrite V0, V1. by split.
      * rewrite decide_False by lia. rewrite bool_decide_eq_false_2 by (rewrite E2; done). cbn [andb].
        rewrite decide_False by (rewrite E2; intros [[=] _]). eexists. split; [done|]. by split.
    + rewrite decide_False by tauto. destruct (bool_decide_reflect (pname off = str "interrupts")) as [E3|E3]; cbn [andb].
      * destruct (Z.leb_spec 4 (lenZ dat)).
        -- rewrite decide_True by done. destruct (word_read p dat rest 0 Hp Hf ltac:(lia) Hb) as (w0 & R0 & V0).
           replace (p + 4 * Z.of_nat 0) with p in R0 by lia. rewrite R0. cbn [mbind option_bind]. eexists. split; [done|].
           rewrite V0. by split.
        -- rewrite decide_False by lia. eexists. split; [done|]. by split.
      * rewrite decide_False by tauto. eexists. split; [done|]. by split.
Qed.

Lemma enc_all_zeros l : exists x r, enc_all l = [0; 0; 0; x] ++ r /\ 0 <= x < 256.
Proof.
  unfold enc_all. destruct l as [|[nm|off dat| |] l]; cbn [fmap list_fmap concat enc app]; rewrite ?(be32_small 1), ?(be32_small 3), ?(be32_small 2), ?(be32_small 4) by lia;
    rewrite ?be32_small by lia; eexists _, _; (split; [cbn [app]; reflexivity|lia]).
Qed.

Lemma skip_name_spec nm : forall fuel p tl, 0 <= p -> bytes_ok nm -> nul_free nm -> (length nm <= fuel)%nat ->
  from p = nm ++ [0; 0; 0; 0] ++ tl -> skip_name fuel p = Ret (p + lenZ nm).
Proof.
  induction nm as [|c nm IH]; intros fuel p tl Hp Hb Hn Hf Hfr.
  - assert (rd32 p = Some 0) as E by (rewrite (rd32_spec p [0; 0; 0; 0] tl); done || lia).
    destruct fuel; cbn [skip_name]; rewrite E; cbn; f_equal; unfold lenZ; cbn; lia.
  - apply list.Forall_cons in Hb as [Hc Hb]. apply list.Forall_cons in Hn as [Hc0 Hn]. destruct fuel as [|fuel]; [cbn in Hf; lia|].
    pose proof (from_len p _ Hp Hfr ltac:(done)) as Hl. assert (4 <= lenZ blob - p) as H4.
    { rewrite <- Hl. rewrite !lenZ_app. unfold lenZ. cbn [length]. lia. }
    destruct (ld_is_Some blob p 4) as [w Hw]; [done|lia|]. cbn [skip_name]. unfold rd32 at 1. rewrite Hw. cbn [need mbind outcome_bind].
    assert (w <> 0) as Hw0.
    { unfold ld in Hw. destruct (slice blob p (Z.of_nat 4)) as [x|] eqn:Hx; [|done]. injection Hw as <-.
      apply slice_inv in Hx as (_ & _ & _ & ->). unfold from in Hfr. rewrite (proj2 (Z.leb_le 0 p)) in Hfr by done. rewrite Hfr.
      change (Z.to_nat (Z.of_nat 4)) with 4%nat. cbn [app firstn le_val]. pose proof (le_val_bound (take 3 (nm ++ [0; 0; 0; 0] ++ tl))).
      cbn [app] in *. rewrite u8_id by done. red in Hc. lia. }
    rewrite (proj2 (Z.eqb_neq w 0)) by done. rewrite (IH fuel (p + 1) tl); [f_equal; unfold lenZ; cbn [length]; lia|lia|done|done|cbn in Hf; lia|].
    apply (from_app p [c]); [done|exact Hfr].
Qed.

(** The end of a name is followed by four zeros: its NUL, the padding and the next token. *)
Lemma name_zeros nm l rest : exists tl, pad (nm ++ [0]) ++ enc_all l ++ rest = nm ++ [0; 0; 0; 0] ++ tl.
Proof.
  destruct (enc_all_zeros l) as (x & r & -> & _). unfold pad. rewrite <- !app_assoc.
  set (k := (- lenZ (nm ++ [0])) mod 4). assert (Z.to_nat k < 4)%nat as Hk by (unfold k; dlia).
  destruct (Z.to_nat k) as [|[|[|[|k']]]]; [..|lia]; cbn [replicate app]; by eexists.
Qed.

(** Behind a name: at the next token, or at a last word of padding. *)
Lemma name_end p nm X : 0 <= p -> p mod 4 = 0 -> p + lenZ nm <= lenZ blob -> from p = pad (nm ++ [0]) ++ X ->
  let q := align4 (p + lenZ nm) in
  0 <= q /\ p <= q /\ q mod 4 = 0 /\ exists z : bool, from q = (if z then [0; 0; 0; 0] else []) ++ X.
Proof.
  intros Hp Hm Hb Hf q. unfold q. pose proof (lenZ_nonneg nm) as Hn. rewrite fdt_align_spec by lia.
  split; [dlia|]. split; [dlia|]. split; [dlia|]. unfold pad in Hf. rewrite <- !app_assoc, lenZ_app in Hf. change (lenZ [0]) with 1 in Hf.
  destruct (decide (lenZ nm mod 4 = 0)) as [H4|H4].
  - exists true. assert ((- (lenZ nm + 1)) mod 4 = 3) as E3 by dlia. rewrite E3 in Hf.
    replace ((p + lenZ nm + 3) / 4 * 4) with (p + lenZ nm) by dlia. apply (from_app p nm); [done|exact Hf].
  - exists false. set (k := (- (lenZ nm + 1)) mod 4) in *. rewrite (app_assoc [0]), app_assoc in Hf.
    assert ((p + lenZ nm + 3) / 4 * 4 = p + lenZ (nm ++ [0] ++ replicate (Z.to_nat k) 0)) as ->.
    { rewrite !lenZ_app, lenZ_replicate. change (lenZ [0]) with 1. unfold k. dlia. }
    by apply from_app.
Qed.

(** The steps of the loop. *)
Lemma loop_begin fuel p l e nm items rest s :
  0 <= p -> p mod 4 = 0 -> bytes_ok nm -> nul_free nm -> holds l e -> from p = enc (Begin nm) ++ enc_all items ++ rest ->
  exists q l' (z : bool), node_loop (S fuel) p l s = node_loop fuel q l' s /\ holds l' (with_name nm e) /\
    p + 4 <= q /\ q mod 4 = 0 /\ from q = (if z then [0; 0; 0; 0] else []) ++ enc_all items ++ rest.
Proof.
  intros Hp Hm Hb Hn (-> & Hln & Hlc) Hfr. cbn [enc] in Hfr. rewrite <- app_assoc in Hfr. cbn [node_loop].
  destruct (rd_be p 1 _ Hp ltac:(lia) Hfr) as (w & -> & Hw). cbn [need mbind outcome_bind].
  rewrite Hw. cbn [Z.eqb FDT_BEGIN_NODE Pos.eqb]. apply from_app in Hfr; [|done]. rewrite be32_len in Hfr.
  destruct (name_zeros nm items rest) as [tl Htl]. pose proof Hfr as Hfr'. rewrite Htl in Hfr'.
  pose proof (from_len (p + 4) _ ltac:(lia) Hfr' ltac:(by destruct nm)) as Hlen. rewrite !lenZ_app in Hlen.
  pose proof (lenZ_nonneg tl). change (lenZ [0; 0; 0; 0]) with 4 in Hlen.
  rewrite (skip_name_spec nm (length blob) (p + 4) tl) by (done || unfold lenZ in *; lia). cbn [mbind outcome_bind].
  cbn [l_name l_compatible l_base l_size l_interrupt]. rewrite Hfr'. cbn [app]. rewrite strncpy_cbuf by done. cbn [need mbind outcome_bind].
  destruct (name_end (p + 4) nm (enc_all items ++ rest) ltac:(lia) ltac:(dlia) ltac:(lia) Hfr) as (Q1 & Q2 & Q3 & z & Hq).
  eexists _, _, z. split; [reflexivity|]. split; [by split|]. done.
Qed.

Lemma loop_prop fuel p l e off dat X s :
  0 <= p -> p mod 4 = 0 -> prop_ok off dat -> holds l e -> from p = enc (Prp off dat) ++ X -> X <> [] ->
  exists q l', node_loop (S fuel) p l s = node_loop fuel q l' s /\ holds l' (with_prop (pname off) dat e) /\
    p + 4 <= q /\ q mod 4 = 0 /\ from q = X.
Proof.
  intros Hp Hm Hpr Hl Hfr HX. cbn [enc] in Hfr. rewrite <- !app_assoc in Hfr. pose proof Hpr as (Hoff & Hdl & _). cbn [node_loop].
  destruct (rd_be p 3 _ Hp ltac:(lia) Hfr) as (w & -> & Hw). cbn [need mbind outcome_bind]. rewrite Hw.
  cbn [Z.eqb FDT_BEGIN_NODE FDT_PROP Pos.eqb]. apply from_app in Hfr; [|done]. rewrite be32_len in Hfr.
  pose proof (lenZ_nonneg dat). destruct (rd_be (p + 4) (lenZ dat) _ ltac:(lia) ltac:(lia) Hfr) as (w1 & -> & Hw1).
  apply from_app in Hfr; [|lia]. rewrite be32_len in Hfr. destruct (rd_be (p + 4 + 4) off _ ltac:(lia) ltac:(lia) Hfr) as (w2 & -> & Hw2).
  apply from_app in Hfr; [|lia]. rewrite be32_len in Hfr. cbn [need mbind outcome_bind]. rewrite Hw1, Hw2.
  replace (p + 4 + 8) with (p + 4 + 4 + 4) by lia. set (p3 := p + 4 + 4 + 4) in *. pose proof Hfr as Hfr'. unfold pad in Hfr'. rewrite <- app_assoc in Hfr'.
  destruct (read_prop_spec p3 off dat _ l e ltac:(lia) Hfr' Hpr Hl) as (l1 & -> & Hl1). cbn [need mbind outcome_bind].
  destruct (pad_len dat) as [Hpm Hpl]. pose proof (from_len p3 _ ltac:(lia) Hfr ltac:(intros [_ ?]%app_eq_nil; done)) as Hlen. rewrite lenZ_app in Hlen.
  pose proof (lenZ_nonneg X). assert (align4 (p3 + lenZ dat) = p3 + lenZ (pad dat)) as ->.
  { rewrite fdt_align_spec by lia. unfold p3 in *. dlia. }
  apply from_app in Hfr; [|lia]. eexists _, l1. split; [reflexivity|]. split; [done|]. split; [lia|]. split; [unfold p3; dlia|done].
Qed.

Lemma node_loop_spec fuel : forall p l e (z : bool) items rest s,
  0 <= p -> p mod 4 = 0 -> lenZ blob < p + 4 * Z.of_nat fuel -> from p = (if z then [0; 0; 0; 0] else []) ++ enc_all items ++ rest ->
  items_ok true items -> holds l e ->
  exists l' q, holds l' (run_node e items).1 /\ p < q /\ q mod 4 = 0 /\ from q = enc_all (run_node e items).2 ++ rest /\
    items_ok false (run_node e items).2 /\ node_loop fuel p l s = (s' ← need (end_node l' s); Ret (q, s')).
Proof.
  induction fuel as [|fuel IH]; intros p l e z items rest s Hp Hm Hf Hfr Hok Hl.
  { exfalso. assert ((if z then [0; 0; 0; 0] else []) ++ enc_all items ++ rest <> []) as Hne.
    { destruct z; [done|]. destruct (enc_all_zeros items) as (x & r & -> & _). done. }
    pose proof (from_len p _ Hp Hfr Hne). pose proof (lenZ_nonneg ((if z then [0; 0; 0; 0] else []) ++ enc_all items ++ rest)). lia. }
  destruct z.
  { cbn [node_loop]. rewrite (rd32_spec p [0; 0; 0; 0] (enc_all items ++ rest)) by done. cbn [need mbind outcome_bind].
    change (fdt32_to_cpu (le_val [0; 0; 0; 0])) with 0. cbn [Z.eqb FDT_BEGIN_NODE FDT_PROP FDT_END_NODE FDT_NOP FDT_END].
    destruct (IH (p + 4) l e false items rest s) as (l' & q & H1 & H2 & H3); [lia|dlia|lia| |done|done|].
    { by apply (from_app p [0; 0; 0; 0]). }
    exists l', q. split; [done|]. split; [lia|done]. }
  cbn [app] in Hfr. destruct items as [|i items]; [done|].
  unfold enc_all in Hfr. cbn [fmap list_fmap concat] in Hfr. rewrite <- !app_assoc, (app_assoc (concat _)) in Hfr. fold (enc_all items) in Hfr.
  destruct i as [nm|off dat| |]; cbn [items_ok run_node] in *.
  - destruct Hok as (Hb & Hn & Hok). destruct (loop_begin fuel p l e nm items rest s Hp Hm Hb Hn Hl Hfr) as (q1 & l1 & z & -> & Hl1 & Hq1 & Hm1 & Hf1).
    destruct (IH q1 l1 _ z items rest s ltac:(lia) Hm1 ltac:(lia) Hf1 Hok Hl1) as (l' & q & H1 & H2 & H3). exists l', q. split; [done|]. split; [lia|done].
  - destruct Hok as (_ & Hpr & Hok). destruct (enc_all_zeros items) as (x & r & Ex & _).
    destruct (loop_prop fuel p l e off dat (enc_all items ++ rest) s Hp Hm Hpr Hl Hfr ltac:(by rewrite Ex)) as (q1 & l1 & -> & Hl1 & Hq1 & Hm1 & Hf1).
    destruct (IH q1 l1 _ false items rest s ltac:(lia) Hm1 ltac:(lia) Hf1 Hok Hl1) as (l' & q & H1 & H2 & H3). exists l', q. split; [done|]. split; [lia|done].
  - cbn [node_loop enc] in *. destruct (rd_be p 2 _ Hp ltac:(lia) Hfr) as (w & -> & Hw). cbn [need mbind outcome_bind]. rewrite Hw.
    cbn [Z.eqb FDT_BEGIN_NODE FDT_PROP FDT_END_NODE Pos.eqb]. apply from_app in Hfr; [|done]. rewrite be32_len in Hfr.
    exists l, (p + 4). split; [done|]. split; [lia|]. split; [dlia|]. done.
  - cbn [node_loop enc] in *. destruct (rd_be p 4 _ Hp ltac:(lia) Hfr) as (w & -> & Hw). cbn [need mbind outcome_bind]. rewrite Hw.
    cbn [Z.eqb FDT_BEGIN_NODE FDT_PROP FDT_END_NODE FDT_NOP Pos.eqb]. apply from_app in Hfr; [|done]. rewrite be32_len in Hfr.
    destruct (IH (p + 4) l e false items rest s ltac:(lia) ltac:(dlia) ltac:(lia) Hfr Hok Hl) as (l' & q & H1 & H2 & H3).
    exists l', q. split; [done|]. split; [lia|done].
Qed.

(** *** The drivers *)
Context (K : Z).
Definition driver_ok (init : Z -> W -> option W) : Prop := forall p w, heap_wf (heap_of w) ->
  exists w', init p w = Some w' /\ heap_wf (heap_of w') /\ heap_of w <= heap_of w' <= heap_of w + K.
Hypothesis K_nonneg : 0 <= K.
Hypothesis heap_set : forall h w, heap_of (set_heap h w) = h.
Hypothesis mmio_ok : driver_ok virtio_mmio_init.

(** The entry does not start the driver of the PL011. *)
Definition no_pl011 (e : entry) : Prop := take 9 (e_compatible e) <> str "arm,pl011".

Lemma cbuf_prefix t u : nul_free u -> (length u <= 255)%nat -> take (length u) (cbuf t) = u -> take (length u) t = u.
Proof.
  intros Hu Hl E. unfold cbuf in E. destruct (decide (length u <= length (take 255 t))%nat) as [Hle|Hgt].
  - rewrite take_app_le, take_take in E by done. rewrite <- E at 2. f_equal. lia.
  - exfalso. set (k := length (take 255 t)) in *. assert (u !! k = Some 0) as H0.
    { rewrite <- E, lookup_take_lt by lia. rewrite lookup_app_r by done. fold k. rewrite Nat.sub_diag. apply lookup_replicate. split; [done|lia]. }
    by apply (Forall_lookup_1 _ _ _ _ Hu) in H0.
Qed.

Lemma register_dt_ok p e w : heap_wf (heap_of w) -> no_pl011 e ->
  exists w', device_register_dt p (as_device e) w = Some w' /\ heap_wf (heap_of w') /\ heap_of w <= heap_of w' <= heap_of w + K.
Proof.
  intros Hw Hno. unfold device_register_dt. cbn [compatible as_device]. destruct (cbuf_tail (e_compatible e)) as [_ Hl].
  destruct (strncmp_full (str "virtio,mmio") (cbuf (e_compatible e)) [0]) as (z & E & _); [by apply nul_free_lit|rewrite Hl; cbn; lia|].
  change (length (str "virtio,mmio")) with 11%nat in E. rewrite E. cbn [mbind option_bind]. destruct (z =? 0); [by apply mmio_ok|].
  destruct (strncmp_full (str "arm,pl011") (cbuf (e_compatible e)) [0]) as (z' & E' & Hz'); [by apply nul_free_lit|rewrite Hl; cbn; lia|].
  change (length (str "arm,pl011")) with 9%nat in E'. rewrite E'. cbn [mbind option_bind]. destruct (Z.eqb_spec z' 0) as [H0|].
  { destruct Hno. by apply (cbuf_prefix _ (str "arm,pl011")); [apply nul_free_lit|cbn; lia|apply Hz']. }
  exists w. split; [done|]. split; [done|lia].
Qed.

Lemma take_255_pos (t : bytes) : (0 <? lenZ (take 255 t)) = bool_decide (t <> []).
Proof. destruct t as [|c t]; [done|]. rewrite bool_decide_eq_true_2 by done. unfold lenZ. rewrite length_take. cbn [length]. lia. Qed.

(** At most [cost] bytes of the heap go to a device. *)
Definition cost : Z := 544 + K.

Lemma end_node_spec l e s : holds l e -> (is_device e -> no_pl011 e) -> heap_wf (heap_of (world s)) -> heap_of (world s) + cost <= HEAP_SIZE ->
  exists s', end_node l s = Some s' /\ heap_wf (heap_of (world s')) /\
    snd <$> dt_devices s' = (if decide (is_device e) then [as_device e] else []) ++ (snd <$> dt_devices s) /\
    heap_of (world s') <= heap_of (world s) + (if decide (is_device e) then cost else 0).
Proof.
  intros (-> & Hn & Hc) Hno Hw Hr. unfold end_node. cbn [l_name l_compatible l_base l_size l_interrupt].
  rewrite !strlen_cbuf by done. cbn [mbind option_bind]. rewrite !take_255_pos.
  assert ((if bool_decide (e_name e <> []) then Some (bool_decide (e_compatible e <> [])) else Some false) = Some (bool_decide (is_device e))) as ->.
  { unfold is_device. destruct (bool_decide_reflect (e_name e <> [])); f_equal; [by apply bool_decide_ext; tauto|].
    rewrite bool_decide_eq_false_2; tauto. }
  cbn [mbind option_bind]. destruct (bool_decide_reflect (is_device e)) as [Hd|Hd].
  - rewrite !decide_True by done. unfold cost in *.
    destruct (malloc_cases (heap_of (world s)) sizeof_dt_device Hw) as [[_ Hm]|(h & -> & Hh & Hw1)];
      [unfold size_ok, sizeof_dt_device, HEAP_SIZE; lia|unfold sizeof_dt_device in Hm; lia|]. unfold sizeof_dt_device in Hh.
    rewrite !strncpy_cbuf_again by done. cbn [mbind option_bind]. change (DtDevice _ _ _ _ _) with (as_device e).
    destruct (register_dt_ok (heap_of (world s)) e (set_heap h (world s))) as (w' & -> & Hw' & Hh'); [by rewrite heap_set|by apply Hno|].
    rewrite heap_set in Hh'. cbn [mbind option_bind]. eexists. split; [done|]. split; [done|]. split; [done|]. cbn [world].
    destruct Hw as [_ Hw], Hw1 as [_ Hw1]. dlia.
  - rewrite !decide_False by done. exists s. split; [done|]. split; [done|]. split; [done|lia].
Qed.

Lemma nodes_run l : forall e, items_ok true l -> nodes (Some e) l = (run_node e l).1 :: nodes None (run_node e l).2.
Proof.
  induction l as [|[nm|off dat| |] l IH]; intros e Hok; cbn [nodes run_node items_ok] in *; [done|..].
  - apply IH, Hok.
  - apply IH, Hok.
  - done.
  - apply IH, Hok.
Qed.

(** What the parser takes for devices: it has one set of variables for a node and the nodes inside it. *)
Definition devices_of (items : list item) : list dt_device := as_device <$> filter is_device (nodes None items).

Lemma dt_loop_spec fuel : forall p items rest s,
  0 <= p -> p mod 4 = 0 -> lenZ blob < p + 4 * Z.of_nat fuel -> from p = enc_all items ++ rest -> items_ok false items ->
  Forall no_pl011 (filter is_device (nodes None items)) ->
  heap_wf (heap_of (world s)) -> heap_of (world s) + cost * (lenZ (devices_of items) + 1) <= HEAP_SIZE ->
  exists s', dt_loop fuel p s = Ret s' /\ snd <$> dt_devices s' = reverse (devices_of items) ++ (snd <$> dt_devices s).
Proof.
  induction fuel as [|fuel IH]; intros p items rest s Hp Hm Hf Hfr Hok Hno Hw Hr.
  { exfalso. destruct (enc_all_zeros items) as (x & r & Ex & _). rewrite Ex in Hfr. pose proof (from_len p _ Hp Hfr ltac:(done)) as Hl.
    rewrite !lenZ_app in Hl. pose proof (lenZ_nonneg r). pose proof (lenZ_nonneg rest). change (lenZ [0; 0; 0; x]) with 4 in Hl. lia. }
  cbn [dt_loop]. destruct items as [|i items].
  { unfold enc_all in Hfr. cbn [fmap list_fmap concat app] in Hfr. destruct (rd_be p 9 _ Hp ltac:(lia) Hfr) as (w & -> & Hw9).
    cbn [need mbind outcome_bind]. rewrite Hw9. cbn [Z.eqb FDT_END Pos.eqb]. by exists s. }
  pose proof Hfr as Hfr0. unfold enc_all in Hfr. cbn [fmap list_fmap concat] in Hfr. rewrite <- !app_assoc, (app_assoc (concat _)) in Hfr. fold (enc_all items) in Hfr.
  destruct i as [nm|off dat| |]; [|destruct Hok as [? _]; done|..].
  - pose proof Hok as Hok'. cbn [items_ok] in Hok'. assert (items_ok true (Begin nm :: items)) as Hok1 by exact Hok.
    cbn [enc] in Hfr. rewrite <- app_assoc in Hfr. destruct (rd_be p 1 _ Hp ltac:(lia) Hfr) as (w & -> & Hw1). cbn [need mbind outcome_bind].
    rewrite Hw1. cbn [Z.eqb FDT_END FDT_BEGIN_NODE Pos.eqb]. unfold dt_parse_node.
    destruct (node_loop_spec (S fuel) p locals0 entry0 false (Begin nm :: items) rest s Hp Hm ltac:(lia) Hfr0 Hok1) as (l' & q & H1 & H2 & H3 & H4 & H5 & ->);
      [by split; [|split; constructor]|].
    assert (nodes None (Begin nm :: items) = (run_node entry0 (Begin nm :: items)).1 :: nodes None (run_node entry0 (Begin nm :: items)).2) as En
      by (apply (nodes_run (Begin nm :: items) entry0 Hok1)).
    unfold devices_of in Hr |- *. rewrite En in Hr, Hno |- *. destruct (run_node entry0 (Begin nm :: items)) as [e' items']. cbn [fst snd] in *.
    pose proof (lenZ_nonneg (as_device <$> filter is_device (nodes None items'))) as Hnn. unfold cost in *.
    assert (is_device e' -> no_pl011 e') as Hno'
      by (intros Hd; rewrite filter_cons_True in Hno by done; by apply list.Forall_cons in Hno as [? _]).
    destruct (end_node_spec l' e' s H1 Hno' Hw) as (s1 & -> & Hw1' & Hd1 & Hh1); [unfold cost; rewrite filter_cons in Hr; case_decide; unfold lenZ in *; cbn [fmap list_fmap length] in Hr; nia|].
    cbn [need mbind outcome_bind fst snd]. rewrite filter_cons in Hr |- *. unfold cost in *.
    assert (p + 4 <= q) by (clear - Hm H2 H3; dlia).
    assert (Forall no_pl011 (filter is_device (nodes None items'))) as Hno2
      by (rewrite filter_cons in Hno; case_decide; [by apply list.Forall_cons in Hno as [_ ?]|done]).
    destruct (IH q items' rest s1 ltac:(lia) H3 ltac:(lia) H4 H5 Hno2 Hw1') as (s' & E' & Hd').
    { unfold devices_of, cost. case_decide; unfold lenZ in *; cbn [fmap list_fmap length] in Hr; nia. }
    exists s'. split; [done|]. rewrite Hd', Hd1. unfold devices_of. case_decide; [|done]. cbn [fmap list_fmap]. rewrite reverse_cons, <- app_assoc. done.
  - cbn [enc items_ok] in *. destruct (rd_be p 2 _ Hp ltac:(lia) Hfr) as (w & -> & Hw1). cbn [need mbind outcome_bind]. rewrite Hw1.
    cbn [Z.eqb FDT_END FDT_BEGIN_NODE Pos.eqb]. apply from_app in Hfr; [|done]. rewrite be32_len in Hfr.
    apply (IH (p + 4) items rest s); [lia|dlia|lia|done|done|done|done|done].
  - cbn [enc items_ok] in *. destruct (rd_be p 4 _ Hp ltac:(lia) Hfr) as (w & -> & Hw1). cbn [need mbind outcome_bind]. rewrite Hw1.
    cbn [Z.eqb FDT_END FDT_BEGIN_NODE Pos.eqb]. apply from_app in Hfr; [|done]. rewrite be32_len in Hfr.
    apply (IH (p + 4) items rest s); [lia|dlia|lia|done|done|done|done|done].
Qed.

(** A blob with the structure block [items]. *)
Record blob_ok (items : list item) : Prop := {
  bl_magic : exists r, from hdr_magic = be32 FDT_MAGIC ++ r;
  bl_version : is_Some (rd32 hdr_version);
  bl_struct : exists off r r', from hdr_off_dt_struct = be32 off ++ r /\ 0 <= off < 4294967296 /\ off mod 4 = 0 /\
    from off = enc_all items ++ r';
  bl_items : items_ok false items
}.

Lemma dt_init_spec fuel items s :
  blob_ok items -> (0 < fuel)%nat -> lenZ blob < 4 * Z.of_nat fuel -> Forall no_pl011 (filter is_device (nodes None items)) ->
  heap_wf (heap_of (world s)) -> heap_of (world s) + cost * (lenZ (devices_of items) + 1) <= HEAP_SIZE ->
  exists s', dt_init fuel true s = Ret s' /\ snd <$> dt_devices s' = reverse (devices_of items) ++ (snd <$> dt_devices s).
Proof.
  intros [(r0 & H0) [v Hv] (off & r & r' & Hs & Hoff & Hm & Hf) Hi] Hfuel Hlen Hno Hw Hr. unfold dt_init. cbn [negb].
  destruct (rd_be hdr_magic FDT_MAGIC r0) as (w & -> & Ew); [done|unfold FDT_MAGIC; lia|done|]. cbn [need mbind outcome_bind].
  rewrite Ew, Z.eqb_refl, Hv. cbn [negb need mbind outcome_bind]. unfold fdt_struct_base.
  destruct (rd_be hdr_off_dt_struct off r) as (w1 & -> & Ew1); [done|done|done|]. cbn [need mbind option_bind outcome_bind]. rewrite Ew1.
  apply (dt_loop_spec fuel off items r' s); [lia|done|lia|done|done|done|done|done].
Qed.

End parser.

(** ** Trees *)
Section trees.
Context (pname : Z -> bytes).

Definition leaf : Type := bytes * list (Z * bytes).
Definition leaf_items (x : leaf) : list item := Begin x.1 :: (((fun p => Prp p.1 p.2) <$> x.2) ++ [End_]).
Definition leaf_entry (x : leaf) : entry := foldl (fun e p => with_prop (pname p.1) p.2 e) (with_name x.1 entry0) x.2.

Lemma nodes_props ps : forall e l, nodes pname (Some e) (((fun p => Prp p.1 p.2) <$> ps) ++ l) =
  nodes pname (Some (foldl (fun e p => with_prop (pname p.1) p.2 e) e ps)) l.
Proof. induction ps as [|[off dat] ps IH]; intros e l; [done|]. cbn [fmap list_fmap app nodes foldl fst snd]. apply IH. Qed.

Lemma nodes_leaves xs : forall l, nodes pname None (concat (leaf_items <$> xs) ++ l) = (leaf_entry <$> xs) ++ nodes pname None l.
Proof.
  induction xs as [|x xs IH]; intros l; [done|]. cbn [fmap list_fmap concat]. rewrite <- app_assoc. unfold leaf_items at 1.
  cbn [app nodes default from_option id]. rewrite <- app_assoc, nodes_props. cbn [app nodes]. by rewrite IH.
Qed.

(** The tree of a root with the properties [ps] above the leaves [xs]. *)
Definition flat_tree (root : bytes) (ps : list (Z * bytes)) (xs : list leaf) : list item :=
  Begin root :: ((fun p => Prp p.1 p.2) <$> ps) ++ concat (leaf_items <$> xs) ++ [End_].

(** *** Trees of one level *)
(** The names of the properties that are read. *)
Definition read_names : list bytes := str <$> ["compatible"; "reg"; "interrupts"]%string.

(** The root says that an address, a size and an interrupt take one cell each. *)
Definition one_cell (ps : list (Z * bytes)) : Prop :=
  Forall (fun nm => exists off, (off, be32 1) ∈ ps /\ pname off = nm)
    (str <$> ["#address-cells"; "#size-cells"; "#interrupt-cells"]%string).

(** The value of a property of a leaf. *)
Definition prop (x : leaf) (nm : bytes) : option bytes := snd <$> head (filter (fun p => pname p.1 = nm) x.2).
(** A cell of a property of a leaf that is at least [n] bytes long. *)
Definition cell (x : leaf) (nm : bytes) (n : Z) (i : nat) : Z :=
  match prop x nm with Some dat => if decide (n <= lenZ dat) then word dat i else 0 | None => 0 end.
Definition compatible_of (x : leaf) : bytes := first_string (default [] (prop x (str "compatible"))).

(** The device of a leaf: its name and the first of its compatible names, each cut to 255 characters, the first two
    cells of its registers and the first cell of its interrupts. *)
Definition leaf_device (x : leaf) : dt_device :=
  DtDevice (cbuf x.1) (cbuf (compatible_of x)) (cell x (str "reg") 8 0) (cell x (str "reg") 8 1) (cell x (str "interrupts") 4 0).

Definition has_device (x : leaf) : Prop := x.1 <> [] /\ compatible_of x <> [].
#[export] Instance has_device_dec x : Decision (has_device x).
Proof. unfold has_device. apply _. Defined.

(** A leaf has one value for a name, and is not a PL011. *)
Definition leaf_ok (x : leaf) : Prop :=
  NoDup ((fun p => pname p.1) <$> x.2) /\ take 9 (compatible_of x) <> str "arm,pl011".

(** A part of an entry that the property [nm] of at least [n] bytes sets. *)
Lemma fold_field {A} (get : entry -> A) nm n (val : bytes -> A) :
  (forall nm' d e, get (with_prop nm' d e) = if decide (nm' = nm /\ n <= lenZ d) then val d else get e) ->
  forall ps e, NoDup ((fun p => pname p.1) <$> ps) ->
  get (foldl (fun e p => with_prop (pname p.1) p.2 e) e ps) =
    match snd <$> head (filter (fun p => pname p.1 = nm) ps) with Some d => if decide (n <= lenZ d) then val d else get e | None => get e end.
Proof.
  intros H. induction ps as [|[off d] ps IH]; intros e; [done|]. cbn [fmap list_fmap foldl fst snd]. intros [Hnot Hnd]%list.NoDup_cons.
  rewrite (IH _ Hnd), H, filter_cons. cbn [fst]. destruct (decide (pname off = nm)) as [<-|Hne].
  - assert (filter (fun p : Z * bytes => pname p.1 = pname off) ps = []) as ->.
    { apply elem_of_nil_inv. intros [o x] [Ho Hin]%list_elem_of_filter. destruct Hnot. apply list_elem_of_fmap. by exists (o, x). }
    cbn. destruct (decide (n <= lenZ d)); [by rewrite decide_True|rewrite decide_False by tauto; done].
  - rewrite (decide_False (P := pname off = nm /\ _)) by tauto. done.
Qed.

(** The parts of an entry under [with_prop] *)
Lemma with_prop_compatible nm d e :
  e_compatible (with_prop nm d e) = if decide (nm = str "compatible" /\ 1 <= lenZ d) then first_string d else e_compatible e.
Proof.
  unfold with_prop. destruct (decide (nm = str "compatible" /\ 0 < lenZ d)) as [[? ?]|Hn].
  - rewrite decide_True by (split; [done|lia]). done.
  - rewrite (decide_False (P := _ /\ 1 <= _)) by (intros [? ?]; apply Hn; split; [done|lia]). by repeat case_decide.
Qed.

Lemma with_prop_reg nm d e :
  e_base (with_prop nm d e) = (if decide (nm = str "reg" /\ 8 <= lenZ d) then word d 0 else e_base e) /\
  e_size (with_prop nm d e) = (if decide (nm = str "reg" /\ 8 <= lenZ d) then word d 1 else e_size e).
Proof.
  unfold with_prop. destruct (decide (nm = str "compatible" /\ 0 < lenZ d)) as [[-> _]|_].
  - by rewrite decide_False by (intros [? _]; done).
  - by repeat case_decide.
Qed.

Lemma with_prop_interrupts nm d e :
  e_interrupt (with_prop nm d e) = if decide (nm = str "interrupts" /\ 4 <= lenZ d) then word d 0 else e_interrupt e.
Proof.
  unfold with_prop. destruct (decide (nm = str "compatible" /\ 0 < lenZ d)) as [[-> _]|_]; [by rewrite decide_False by (intros [? _]; done)|].
  destruct (decide (nm = str "reg" /\ 8 <= lenZ d)) as [[-> _]|_]; [by rewrite decide_False by (intros [? _]; done)|]. by case_decide.
Qed.

Lemma leaf_entry_spec x : leaf_ok x ->
  leaf_entry x = Entry x.1 (compatible_of x) (cell x (str "reg") 8 0) (cell x (str "reg") 8 1) (cell x (str "interrupts") 4 0).
Proof.
  intros [Hnd _]. unfold leaf_entry, compatible_of, cell, prop. set (e0 := with_name x.1 entry0).
  pose proof (fold_field e_compatible (str "compatible") 1 first_string with_prop_compatible x.2 e0 Hnd) as Hc.
  pose proof (fold_field e_base (str "reg") 8 (fun d => word d 0) (fun nm d e => proj1 (with_prop_reg nm d e)) x.2 e0 Hnd) as Hb.
  pose proof (fold_field e_size (str "reg") 8 (fun d => word d 1) (fun nm d e => proj2 (with_prop_reg nm d e)) x.2 e0 Hnd) as Hs.
  pose proof (fold_field e_interrupt (str "interrupts") 4 (fun d => word d 0) with_prop_interrupts x.2 e0 Hnd) as Hi.
  assert (forall ps e, e_name (foldl (fun e p => with_prop (pname p.1) p.2 e) e ps) = e_name e) as Hn.
  { induction ps as [|[off d] ps IH]; intros e; [done|]. cbn [foldl fst snd]. rewrite IH. unfold with_prop. by repeat case_decide. }
  specialize (Hn x.2 e0).
  destruct (foldl _ e0 x.2) as [n c b z i]. cbn [e_name e_compatible e_base e_size e_interrupt] in *. subst n c b z i. f_equal.
  destruct (snd <$> head (filter (fun p : Z * bytes => pname p.1 = str "compatible") x.2)) as [d|]; [|done]. cbn [default from_option id].
  case_decide; [done|]. destruct d; [done|]. unfold lenZ in *. cbn [length] in *. lia.
Qed.

Lemma root_props ps e : Forall (fun p => pname p.1 ∉ read_names) ps -> foldl (fun e p => with_prop (pname p.1) p.2 e) e ps = e.
Proof.
  intros H. revert e. induction H as [|[off d] ps Hp _ IH]; intros e; [done|]. cbn [foldl fst snd] in *. rewrite IH. unfold with_prop.
  unfold read_names in Hp. cbn [fmap list_fmap] in Hp. rewrite !not_elem_of_cons in Hp. destruct Hp as (? & ? & ? & _).
  by rewrite !decide_False by tauto.
Qed.

Lemma flat_nodes root ps x xs : Forall (fun p => pname p.1 ∉ read_names) ps ->
  nodes pname None (flat_tree root ps (x :: xs)) = leaf_entry <$> (x :: xs).
Proof.
  intros Hps. unfold flat_tree. cbn [nodes default from_option id]. rewrite nodes_props, root_props by done.
  cbn [fmap list_fmap concat]. unfold leaf_items at 1. cbn [app nodes default from_option id].
  change (with_name x.1 (with_name root entry0)) with (with_name x.1 entry0).
  rewrite <- !app_assoc, nodes_props. cbn [app nodes]. rewrite nodes_leaves. cbn [nodes]. by rewrite app_nil_r.
Qed.

Lemma flat_devices xs : Forall leaf_ok xs ->
  Forall no_pl011 (filter is_device (leaf_entry <$> xs)) /\
  as_device <$> filter is_device (leaf_entry <$> xs) = leaf_device <$> filter has_device xs.
Proof.
  induction 1 as [|x xs Hx _ [IH1 IH2]]; [done|]. cbn [fmap list_fmap]. rewrite !filter_cons. rewrite (leaf_entry_spec x Hx).
  destruct (decide (has_device x)) as [Hd|Hd].
  - rewrite (decide_True (P := is_device _)) by exact Hd. cbn [fmap list_fmap]. split; [constructor; [apply Hx|done]|]. by rewrite IH2.
  - rewrite (decide_False (P := is_device _)) by exact Hd. done.
Qed.

(** a node inherits from its parent.  When the root has a compatible string, the
    first leaf is taken for a device with that string, even if it has no properties
    at all. *)
Theorem dt_inherits root off dat leaf_name xs :
  pname off = str "compatible" -> 0 < lenZ dat -> first_string dat <> [] -> leaf_name <> [] ->
  exists l, devices_of pname (flat_tree root [(off, dat)] ((leaf_name, []) :: xs)) =
    DtDevice (cbuf leaf_name) (cbuf (first_string dat)) 0 0 0 :: l.
Proof.
  intros Hp Hl Hd Hn. unfold devices_of, flat_tree. cbn [fmap list_fmap app concat fst snd leaf_items nodes default from_option id].
  unfold with_prop. rewrite decide_True by done. cbn [with_name e_name e_compatible e_base e_size e_interrupt].
  rewrite filter_cons_True by done. cbn [fmap list_fmap]. by eexists.
Qed.
End trees.

(** ** A blob with one virtio device *)
Definition root0 : list (Z * bytes) := [(15, be32 1); (30, be32 1); (42, be32 1)].
Definition tree0 : list item := flat_tree [] root0 [(str "disk", [(0, str "virtio,mmio" ++ [0]); (11, be32 167772160 ++ be32 512)])].
Definition pname0 (off : Z) : bytes := if off =? 0 then str "compatible" else if off =? 11 then str "reg" else
  if off =? 15 then str "#address-cells" else if off =? 30 then str "#size-cells" else str "#interrupt-cells".
Definition strings0 : bytes := str "compatible" ++ [0] ++ str "reg" ++ [0] ++ str "#address-cells" ++ [0] ++ str "#size-cells" ++ [0] ++
  str "#interrupt-cells" ++ [0].
Definition blob0 : bytes := Eval vm_compute in
  concat (be32 <$> [FDT_MAGIC; 40 + lenZ (enc_all tree0) + lenZ strings0; 40; 40 + lenZ (enc_all tree0); 0; 17; 16; 0; lenZ strings0; lenZ (enc_all tree0)]) ++ enc_all tree0 ++ strings0.

Definition set_heap0 (h : Z) (w : Virtio.drivers) : Virtio.drivers :=
  Virtio.Drivers h (Virtio.reg w) (Virtio.virtio_blk_dev w) (Virtio.virtio_net_dev w).
Definition dt0 : dt := Dt (Virtio.Drivers 0 (Registry [] 1) None None) [].

Lemma base0 : 0 <= 1073741824 /\ 1073741824 mod 4 = 0 /\ 1073741824 + lenZ blob0 + 4294967300 <= 2 ^ 64.
Proof. by vm_compute. Qed.

Lemma dt_init_ends_witness :
  dt_init Virtio.heap_pos set_heap0 Virtio.virtio_mmio_init (fun _ w => Some w) 1073741824 blob0 64 true dt0 <> More.
Proof.
  apply (dt_init_ends Virtio.heap_pos set_heap0 Virtio.virtio_mmio_init (fun _ w => Some w) 1073741824 blob0 base0 64 true dt0);
    [lia|vm_compute; reflexivity].
Defined.

Lemma bytes_ok_check l : forallb (fun c => (0 <=? c) && (c <? 256)) l = true -> bytes_ok l.
Proof. unfold bytes_ok. induction l as [|c l IH]; cbn; [by constructor|]. intros [Hc Hl]%andb_prop. constructor; [red; lia|auto]. Qed.

Lemma prop0 off dat : off ∈ [0; 11; 15; 30; 42] -> forallb (fun c => (0 <=? c) && (c <? 256)) dat = true ->
  lenZ dat < 4294967296 -> (off = 0 -> 0 ∈ dat) -> prop_ok blob0 pname0 (40 + lenZ (enc_all tree0)) off dat.
Proof.
  intros Ho Hd Hl Hz. set (o := 40 + _). unfold prop_ok. rewrite !elem_of_cons in Ho.
  destruct Ho as [-> |[-> |[-> |[-> |[-> |Ho]]]]]; [..|by apply elem_of_nil in Ho].
  all: split; [lia|]; split; [done|]; split; [by apply bytes_ok_check|]; split; [by apply nul_free_lit|]; split; [by eexists|].
  1: intros _; by apply Hz.
  all: done.
Qed.

Lemma items0 : items_ok blob0 pname0 (40 + lenZ (enc_all tree0)) false tree0.
Proof.
  pose proof prop0 as P. revert P. generalize (40 + lenZ (enc_all tree0)). intros o P.
  change tree0 with [Begin []; Prp 15 (be32 1); Prp 30 (be32 1); Prp 42 (be32 1); Begin (str "disk");
    Prp 0 (str "virtio,mmio" ++ [0]); Prp 11 (be32 167772160 ++ be32 512); End_; End_].
  assert (forall off, off ∈ [15; 30; 42] -> prop_ok blob0 pname0 o off (be32 1)) as Q.
  { intros off Ho. rewrite !elem_of_cons, elem_of_nil in Ho. apply P; [rewrite !elem_of_cons; tauto|done|done|lia]. }
  split; [constructor|]. split; [constructor|]. do 3 (split; [done|]; split; [apply Q; set_solver|]).
  split; [by apply bytes_ok_check|]. split; [by apply nul_free_lit|].
  split; [done|]. split; [apply P; [set_solver|done|done|]|split; [done|split; [|done]]].
  - intros _. apply list_elem_of_lookup. by exists 11%nat.
  - by apply P; [set_solver|..].
Qed.

Lemma mmio_bound : driver_ok Virtio.heap_pos 336 Virtio.virtio_mmio_init.
Proof. intros p w Hw. destruct (Virtio.init_blk_bound None w Hw) as (w' & E & Hw' & Hh). by exists w'. Qed.

(** C22: the devices of a device tree.  Let the structure block be a tree of one level: a root that says that addresses, sizes
    and interrupts take one cell each, has none of the properties [compatible], [reg] and [interrupts], and under it at least one leaf, each
    with every property once, none of them a PL011 (whose driver is undefined, see [Boot]).  Then [dt_init], with the virtio
    driver of [Virtio] and whatever function in the place of that of the PL011, ends and adds exactly one device for every leaf that has a
    name and a [compatible] string, newest first, with the name and the first compatible string of the leaf, cut to 255 characters, the
    first address and size of its [reg] and the first of its [interrupts].  The heap has room for all of them, 880 bytes each.  With
    other numbers of cells the code takes the wrong cells; it never reads the numbers. *)
Theorem dt_init_correct pl011_init base blob pname strings root ps x xs fuel s :
  0 <= base /\ base mod 4 = 0 /\ base + lenZ blob + 4294967300 <= 2 ^ 64 ->
  (exists w, rd32 blob hdr_off_dt_strings = Some w /\ fdt32_to_cpu w = strings) ->
  blob_ok blob pname strings (flat_tree root ps (x :: xs)) ->
  one_cell pname ps -> Forall (fun p => pname p.1 ∉ read_names) ps -> Forall (leaf_ok pname) (x :: xs) ->
  (0 < fuel)%nat -> lenZ blob < 4 * Z.of_nat fuel ->
  heap_wf (Virtio.heap_pos (world s)) ->
  Virtio.heap_pos (world s) + 880 * (lenZ (filter (has_device pname) (x :: xs)) + 1) <= HEAP_SIZE ->
  exists s', dt_init Virtio.heap_pos set_heap0 Virtio.virtio_mmio_init pl011_init base blob fuel true s = Ret s' /\
    snd <$> dt_devices s' = reverse (leaf_device pname <$> filter (has_device pname) (x :: xs)) ++ (snd <$> dt_devices s).
Proof.
  intros Hbase Hstr Hblob _ Hps Hxs Hf Hl Hw Hr. destruct (flat_devices pname (x :: xs) Hxs) as [Hno Hdev].
  assert (devices_of pname (flat_tree root ps (x :: xs)) = leaf_device pname <$> filter (has_device pname) (x :: xs)) as E
    by (unfold devices_of; by rewrite flat_nodes).
  rewrite <- E. apply (dt_init_spec Virtio.heap_pos set_heap0 Virtio.virtio_mmio_init pl011_init base blob Hbase pname strings Hstr
    336 ltac:(lia) ltac:(done) mmio_bound fuel (flat_tree root ps (x :: xs)) s); [done|done|done|by rewrite flat_nodes|done|].
  rewrite E. unfold cost. unfold lenZ in *. rewrite length_fmap. exact Hr.
Qed.

Lemma dt_init_correct_witness :
  exists s', dt_init Virtio.heap_pos set_heap0 Virtio.virtio_mmio_init (fun _ _ => None) 1073741824 blob0 64 true dt0 = Ret s' /\
    snd <$> dt_devices s' = [DtDevice (cbuf (str "disk")) (cbuf (str "virtio,mmio")) 167772160 512 0].
Proof.
  apply (dt_init_correct (fun _ _ => None) 1073741824 blob0 pname0 (40 + lenZ (enc_all tree0)) [] root0
    (str "disk", [(0, str "virtio,mmio" ++ [0]); (11, be32 167772160 ++ be32 512)]) [] 64 dt0);
    [exact base0|by eexists|split| | | |lia|vm_compute; reflexivity|by vm_compute|vm_compute; discriminate].
  - by eexists.
  - by eexists.
  - exists 40. eexists _, _. split; [reflexivity|]. split; [lia|]. split; [done|]. reflexivity.
  - exact items0.
  - constructor; [exists 15|constructor; [exists 30|constructor; [exists 42|constructor]]];
      (split; [by apply (bool_decide_eq_true_1 ((_, be32 1) ∈ root0))|done]).
  - by repeat constructor; apply (bool_decide_eq_true_1 (_ ∉ read_names)).
  - constructor; [|constructor]. split; [|done]. cbn. by apply (bool_decide_eq_true_1 (NoDup [str "compatible"; str "reg"])).
Defined.

Lemma dt_inherits_witness :
  exists l, devices_of pname0 (flat_tree [] [(0, str "linux,dummy-virt" ++ [0])] [(str "chosen", [])]) =
    DtDevice (cbuf (str "chosen")) (cbuf (first_string (str "linux,dummy-virt" ++ [0]))) 0 0 0 :: l.
Proof. apply (dt_inherits pname0 [] 0 (str "linux,dummy-virt" ++ [0]) (str "chosen") []); [done|by vm_compute|by vm_compute|done]. Defined.
End Devicetree.
