(* ===== verification/Arch.v ===== *)
(** * Descriptor tables and interrupts: [src/arch/x86_64/gdt.c], [src/arch/x86_64/idt.c],
    [src/arch/arm64/gic.c] and [src/cpu/interrupts.c]

    The tables are the records of the source with their layout in bytes, and are read the
    way the processor does; the interrupt controller of ARM is an interface with the
    documented meaning of its enable and pending registers.  Instructions that load a table
    or a segment register store their operand in the state.  [pic_init] of
    [interrupts.c] names members that its structure does not have, and the
    functions of the same names in [gdt.c] and [apic.c] do nothing but print. *)
From Stdlib Require Import String.
From S2P Require Import Prelude KernelLib Mm Console Scheduler.
Open Scope list_scope.
Open Scope Z_scope.

(** ** The global descriptor table *)
Module Gdt.

Record gdt_entry := Entry { limit_low : Z; base_low : Z; base_mid : Z; access : Z; granularity : Z; base_high : Z }.
Record gdt_pointer := Pointer { limit : Z; base : Z }.

(** The packed structure in memory *)
Definition entry_bytes (e : gdt_entry) : bytes :=
  le_bytes 2 (limit_low e) ++ le_bytes 2 (base_low e) ++ [base_mid e; access e; granularity e; base_high e].

Definition gdt_set_entry (gdt : list gdt_entry) (index base limit access granularity : Z) : option (list gdt_entry) :=
  setZ gdt index
    (Entry (Z.land limit 65535) (Z.land base 65535) (Z.land (Z.shiftr base 16) 255) access
       (Z.lor (Z.land (Z.shiftr limit 16) 15) (Z.land granularity 240)) (Z.land (Z.shiftr base 24) 255)).

(** The table register and the five data segment registers *)
Record cpu := Cpu { gdtr : gdt_pointer; ds : Z; es : Z; fs : Z; gs : Z; ss : Z }.

(** [address] is the address of the table. *)
Definition gdt_init (address : Z) : option (list gdt_entry * cpu) :=
  let gdt_ptr := Pointer (3 * 8 - 1) address in
  let gdt := replicate 3 (Entry 0 0 0 0 0 0) in
  gdt ← gdt_set_entry gdt 0 0 0 0 0;
  gdt ← gdt_set_entry gdt 1 0 1048575 154 160;
  gdt ← gdt_set_entry gdt 2 0 1048575 146 160;
  Some (gdt, Cpu gdt_ptr 16 16 16 16 16).

(** A descriptor as the processor reads it: base, limit, access byte and the four flags. *)
Definition descriptor (d : bytes) : option (Z * Z * Z * Z) :=
  match d with
  | [b0; b1; b2; b3; b4; b5; b6; b7] =>
      Some (b2 + 256 * b3 + 65536 * b4 + 16777216 * b7, b0 + 256 * b1 + 65536 * (b6 mod 16), b5, b6 / 16)
  | _ => None
  end.

(** The two halves of the granularity byte *)
Lemma nibbles a b : is_u8 b -> Z.lor (Z.land a 15) (Z.land b 240) = a mod 16 + 16 * (b / 16).
Proof.
  intros Hb. change 15 with (Z.ones 4). rewrite Z.land_ones by lia. change (2 ^ 4) with 16.
  assert (forallb (fun x => forallb (fun b => Z.lor x (Z.land b 240) =? x + 16 * (b / 16)) (seqZ 0 256)) (seqZ 0 16) = true) as H
    by (vm_compute; reflexivity).
  rewrite forallb_forall in H. specialize (H (a mod 16)). rewrite <- list_elem_of_In, elem_of_seqZ in H. specialize (H ltac:(dlia)).
  rewrite forallb_forall in H. specialize (H b). rewrite <- list_elem_of_In, elem_of_seqZ in H. red in Hb. specialize (H ltac:(lia)). lia.
Qed.

(** descriptors are encoded as the processor reads them: for every base of 32 bits, limit of 20 bits, access byte and
    flags, the eight bytes of the entry decode to exactly these. *)
Theorem gdt_entry_decodes gdt index bs lim acc gran :
  0 <= index < lenZ gdt -> is_u32 bs -> 0 <= lim < 2 ^ 20 -> is_u8 acc -> is_u8 gran ->
  exists gdt' e, gdt_set_entry gdt index bs lim acc gran = Some gdt' /\ getZ gdt' index = Some e /\
    descriptor (entry_bytes e) = Some (bs, lim, acc, gran / 16) /\ lenZ (entry_bytes e) = 8.
Proof.
  intros Hi Hb Hl Ha Hg. unfold gdt_set_entry. rewrite setZ_Some by lia. eexists _, _. split; [done|].
  split; [apply getZ_Some; split; [lia|]; apply list_lookup_insert_eq; unfold lenZ in Hi; lia|]. split; [|done].
  unfold entry_bytes. cbn [limit_low base_low base_mid access granularity base_high le_bytes app descriptor]. rewrite nibbles by done.
  rewrite !Z.shiftr_div_pow2 by lia. change 65535 with (Z.ones 16). change 255 with (Z.ones 8). rewrite !Z.land_ones by lia.
  change (2 ^ 16) with 65536. change (2 ^ 24) with 16777216. change (2 ^ 8) with 256. change (2 ^ 20) with 1048576 in Hl.
  red in Hb, Ha, Hg. apply (f_equal Some), pair_equal_spec; split; [apply pair_equal_spec; split; [apply pair_equal_spec; split|]|].
  - dlia.
  - dlia.
  - done.
  - dlia.
Qed.

Lemma gdt_entry_decodes_witness :
  exists gdt' e, gdt_set_entry (replicate 3 (Entry 0 0 0 0 0 0)) 1 4096 65537 154 160 = Some gdt' /\ getZ gdt' 1 = Some e /\
    descriptor (entry_bytes e) = Some (4096, 65537, 154, 160 / 16) /\ lenZ (entry_bytes e) = 8.
Proof. apply gdt_entry_decodes; [vm_compute; split; [discriminate|reflexivity]|red; lia|lia|red; lia|red; lia]. Defined.

(** The table of the kernel: a null descriptor, a 64-bit code segment and a data segment over the whole space, and all
    segment registers on the third entry, which lies inside the limit of the table. *)
Lemma gdt_init_table address :
  exists gdt c, gdt_init address = Some (gdt, c) /\
    (fun e => descriptor (entry_bytes e)) <$> gdt = [Some (0, 0, 0, 0); Some (0, 1048575, 154, 10); Some (0, 1048575, 146, 10)] /\
    gdtr c = Pointer (lenZ (concat (entry_bytes <$> gdt)) - 1) address /\ [ds c; es c; fs c; gs c; ss c] = replicate 5 (2 * 8).
Proof. by do 2 eexists. Qed.
End Gdt.

(** ** The interrupt descriptor table *)
Module Idt.

Record idt_entry := Entry { offset_low : Z; selector : Z; ist : Z; type_attr : Z; offset_mid : Z; offset_high : Z; zero : Z }.

(** The packed structure in memory, 14 bytes *)
Definition entry_bytes (e : idt_entry) : bytes :=
  le_bytes 2 (offset_low e) ++ le_bytes 2 (selector e) ++ [ist e; type_attr e] ++ le_bytes 2 (offset_mid e) ++ le_bytes 4 (offset_high e) ++
  le_bytes 2 (zero e).

Definition idt_set_entry (idt : list idt_entry) (index base selector type_attr ist : Z) : option (list idt_entry) :=
  setZ idt index
    (Entry (Z.land base 65535) selector (Z.land ist 7) type_attr (Z.land (Z.shiftr base 16) 65535) (Z.land (Z.shiftr base 32) 4294967295) 0).

(** [n] entries from [i] on; the index is an 8-bit parameter. *)
Fixpoint set_all (n : nat) (i : Z) (idt : list idt_entry) : option (list idt_entry) :=
  match n with O => Some idt | S n' => idt ← idt_set_entry idt (u8 i) 4096 8 142 0; set_all n' (i + 1) idt end.

(** The table and the limit in the table register *)
Definition idt_init : option (list idt_entry * Z) :=
  idt ← set_all 256 0 (replicate 256 (Entry 0 0 0 0 0 0 0)); Some (idt, 256 * 14 - 1).

(** Gate [n] as the processor reads it, 16 bytes for each: the address, the selector and the type; [None] lies
    outside the table. *)
Definition gate (table : bytes) (limit n : Z) : option (Z * Z * Z) :=
  if limit <? 16 * n + 15 then None
  else
    d ← slice table (16 * n) 16;
    Some (le_val (take 2 d) + 65536 * le_val (take 2 (drop 6 d)) + 4294967296 * le_val (take 4 (drop 8 d)),
          le_val (take 2 (drop 2 d)), le_val (take 1 (drop 5 d))).

(** the entries are two bytes too short.  Of the 256 vectors only every seventh below 224 has the gate that was set
    for it; the others have bytes of several entries, and the last 32 lie outside of the table. *)
Theorem idt_gates_misplaced n : 0 <= n < 256 ->
  exists idt limit, idt_init = Some (idt, limit) /\
    (gate (concat (entry_bytes <$> idt)) limit n = Some (4096, 8, 142) <-> n mod 7 = 0 /\ n < 224).
Proof.
  intros Hn. destruct idt_init as [[idt limit]|] eqn:E; [|vm_compute in E; discriminate]. exists idt, limit. split; [done|].
  assert (forallb (fun n => Bool.eqb (bool_decide (gate (concat (entry_bytes <$> idt)) limit n = Some (4096, 8, 142))) ((n mod 7 =? 0) && (n <? 224)))
    (seqZ 0 256) = true) as H by (vm_compute in E; injection E as <- <-; vm_compute; reflexivity).
  rewrite forallb_forall in H. specialize (H n). rewrite <- list_elem_of_In, elem_of_seqZ in H. specialize (H ltac:(lia)).
  apply eqb_prop in H. rewrite <- (bool_decide_eq_true (gate _ _ _ = _)), H. lia.
Qed.

Lemma idt_gates_misplaced_witness :
  exists idt limit, idt_init = Some (idt, limit) /\
    (gate (concat (entry_bytes <$> idt)) limit 32 = Some (4096, 8, 142) <-> 32 mod 7 = 0 /\ 32 < 224).
Proof. apply (idt_gates_misplaced 32). lia. Defined.
End Idt.

(** ** The interrupt controller of ARM *)
Module Gic.

Definition GIC_DISTRIBUTOR_BASE : Z := 134217728.
Definition GIC_CPU_INTERFACE_BASE : Z := 134283264.
Definition GICD_CTLR := GIC_DISTRIBUTOR_BASE.
Definition GICD_ISENABLERn := GIC_DISTRIBUTOR_BASE + 256.
Definition GICC_CTLR := GIC_CPU_INTERFACE_BASE.
Definition GICC_PMR := GIC_CPU_INTERFACE_BASE + 4.
Definition GICC_BPR := GIC_CPU_INTERFACE_BASE + 8.
Definition GICC_IAR := GIC_CPU_INTERFACE_BASE + 12.
Definition GICC_EOIR := GIC_CPU_INTERFACE_BASE + 16.

(** The controller: accesses of 32 bits, and which interrupts it has enabled, pending, and with which priority. *)
Class GicChip (H : Type) := {
  rd32 : H -> Z -> Z * H;
  wr32 : H -> Z -> Z -> H;
  enabled : H -> Z -> bool;
  pending : H -> Z -> bool;
  priority : H -> Z -> Z
}.

Section Driver.
Context `{GicChip H}.

(** [n] priority registers, from the one of interrupt [i] on *)
Fixpoint set_priorities (n : nat) (i : Z) (h : H) : H :=
  match n with O => h | S n' => set_priorities n' (i + 4) (wr32 h (GIC_DISTRIBUTOR_BASE + 1024 + i / 4 * 4) 2155905152) end.

(** [n] enable registers, from the one of interrupt [i] on *)
Fixpoint enable_all (n : nat) (i : Z) (h : H) : H :=
  match n with O => h | S n' => enable_all n' (i + 32) (wr32 h (GIC_DISTRIBUTOR_BASE + 256 + i / 32 * 4) 4294967295) end.

Definition gic_init (h : H) : H :=
  let h := wr32 h GICD_CTLR 0 in
  let h := set_priorities 247 32 h in
  let h := wr32 h GICD_ISENABLERn 4294967295 in
  let h := enable_all 4 32 h in
  let h := wr32 h GICD_CTLR 1 in
  let h := wr32 h GICC_CTLR 0 in
  let h := wr32 h GICC_PMR 255 in
  let h := wr32 h GICC_BPR 7 in
  wr32 h GICC_CTLR 1.

Definition gic_send_eoi (h : H) (interrupt_id : Z) : H := wr32 h GICC_EOIR interrupt_id.

Definition gic_read_iar (h : H) : Z * H := rd32 h GICC_IAR.

(** The three branches read the same register. *)
Definition gic_is_pending (h : H) (interrupt_id : Z) : bool * H :=
  let '(v, h) := rd32 h (GIC_DISTRIBUTOR_BASE + 512 + interrupt_id / 32 * 4) in
  (negb (Z.land (Z.shiftr v (interrupt_id mod 32)) 1 =? 0), h).

Definition gic_enable_interrupt (h : H) (interrupt_id : Z) : H :=
  let reg_offset := interrupt_id / 32 in
  let bit_offset := interrupt_id mod 32 in
  wr32 h (GIC_DISTRIBUTOR_BASE + 256 + reg_offset * 4) (u32 (Z.shiftl 1 bit_offset)).

Definition gic_disable_interrupt (h : H) (interrupt_id : Z) : H :=
  let reg_offset := interrupt_id / 32 in
  let bit_offset := interrupt_id mod 32 in
  wr32 h (GIC_DISTRIBUTOR_BASE + 384 + reg_offset * 4) (u32 (Z.shiftl 1 bit_offset)).
End Driver.

(** What the manual says: writing a bit to a set-enable register enables the interrupt and a zero does nothing, the
    clear-enable registers disable, the pending registers show the state, the priority registers hold a
    byte for each interrupt; a write elsewhere leaves enabling and priorities alone. *)
Class GicLaws (H : Type) `{GicChip H} := {
  set_enable : forall h n v id, 0 <= n < 32 -> 0 <= id < 1024 ->
    enabled (wr32 h (GIC_DISTRIBUTOR_BASE + 256 + n * 4) v) id = enabled h id || ((id / 32 =? n) && Z.testbit v (id mod 32));
  clear_enable : forall h n v id, 0 <= n < 32 -> 0 <= id < 1024 ->
    enabled (wr32 h (GIC_DISTRIBUTOR_BASE + 384 + n * 4) v) id = enabled h id && negb ((id / 32 =? n) && Z.testbit v (id mod 32));
  other_enable : forall h a v id, ~ GIC_DISTRIBUTOR_BASE + 256 <= a < GIC_DISTRIBUTOR_BASE + 512 -> enabled (wr32 h a v) id = enabled h id;
  read_pending : forall h n id, 0 <= n < 32 -> 0 <= id < 1024 -> id / 32 = n ->
    Z.testbit (rd32 h (GIC_DISTRIBUTOR_BASE + 512 + n * 4)).1 (id mod 32) = pending h id;
  set_priority : forall h n v id, 0 <= n < 256 -> 0 <= id < 1024 ->
    priority (wr32 h (GIC_DISTRIBUTOR_BASE + 1024 + n * 4) v) id = if id / 4 =? n then v / 256 ^ (id mod 4) mod 256 else priority h id;
  other_priority : forall h a v id, ~ GIC_DISTRIBUTOR_BASE + 1024 <= a < GIC_DISTRIBUTOR_BASE + 2048 -> priority (wr32 h a v) id = priority h id
}.

Section Correct.
Context `{GicLaws H}.

Lemma one_bit b i : 0 <= b < 32 -> 0 <= i < 32 -> Z.testbit (u32 (Z.shiftl 1 b)) i = (i =? b).
Proof.
  intros Hb Hi. rewrite Z.shiftl_1_l. unfold u32. change 4294967296 with (2 ^ 32). rewrite Z.mod_pow2_bits_low by lia.
  rewrite Z.pow2_bits_eqb by lia. apply Z.eqb_sym.
Qed.

(** C39: enabling and disabling.  On a controller that keeps to its manual, [gic_enable_interrupt] and
    [gic_disable_interrupt] change the state of exactly the interrupt they are called for, and [gic_is_pending]
    tells whether it is pending, for all of the 1024 identifiers. *)
Theorem gic_enable_disable h i j : 0 <= i < 1024 -> 0 <= j < 1024 ->
  enabled (gic_enable_interrupt h i) j = enabled h j || (j =? i) /\
  enabled (gic_disable_interrupt h i) j = enabled h j && negb (j =? i) /\ (gic_is_pending h i).1 = pending h i.
Proof.
  intros Hi Hj. unfold gic_enable_interrupt, gic_disable_interrupt, gic_is_pending.
  assert ((j / 32 =? i / 32) && Z.testbit (u32 (Z.shiftl 1 (i mod 32))) (j mod 32) = (j =? i)) as E.
  { rewrite one_bit by dlia. destruct (Z.eqb_spec j i) as [->|]; [by rewrite !Z.eqb_refl|]. dlia. }
  rewrite set_enable, clear_enable, E by dlia. split; [done|]. split; [done|].
  rewrite <- (read_pending h (i / 32) i) by dlia. destruct (rd32 h _) as [v h']. cbn [fst].
  change 1 with (Z.ones 1). rewrite Z.land_ones by lia. change (2 ^ 1) with 2. rewrite Z.testbit_eqb by dlia.
  rewrite Z.shiftr_div_pow2 by dlia. dlia.
Qed.

Lemma set_priorities_spec n : forall i h id, 0 <= i -> i mod 4 = 0 -> i + 4 * Z.of_nat n <= 1024 -> 0 <= id < 1024 ->
  priority (set_priorities n i h) id = (if (i <=? id) && (id <? i + 4 * Z.of_nat n) then 128 else priority h id) /\
  enabled (set_priorities n i h) id = enabled h id.
Proof.
  induction n as [|n IH]; intros i h id Hi Hm Hn Hid; cbn [set_priorities].
  { split; [|done]. assert ((i <=? id) && (id <? i + 4 * Z.of_nat 0) = false) as -> by lia. done. }
  destruct (IH (i + 4) (wr32 h (GIC_DISTRIBUTOR_BASE + 1024 + i / 4 * 4) 2155905152) id) as [-> ->]; [lia|dlia|lia|lia|].
  rewrite set_priority, other_enable by (unfold GIC_DISTRIBUTOR_BASE; dlia). split; [|done].
  destruct (Z.eqb_spec (id / 4) (i / 4)) as [E|E].
  - assert ((i <=? id) && (id <? i + 4 * Z.of_nat (S n)) = true) as -> by dlia. assert ((i + 4 <=? id) && (id <? i + 4 + 4 * Z.of_nat n) = false) as -> by dlia.
    assert (id mod 4 = 0 \/ id mod 4 = 1 \/ id mod 4 = 2 \/ id mod 4 = 3) as [-> |[-> |[-> | ->]]] by dlia; reflexivity.
  - assert ((i + 4 <=? id) && (id <? i + 4 + 4 * Z.of_nat n) = (i <=? id) && (id <? i + 4 * Z.of_nat (S n))) as -> by dlia. done.
Qed.

Lemma enable_all_spec n : forall i h id, 0 <= i -> i mod 32 = 0 -> i + 32 * Z.of_nat n <= 1024 -> 0 <= id < 1024 ->
  enabled (enable_all n i h) id = enabled h id || ((i <=? id) && (id <? i + 32 * Z.of_nat n)) /\
  priority (enable_all n i h) id = priority h id.
Proof.
  induction n as [|n IH]; intros i h id Hi Hm Hn Hid; cbn [enable_all].
  { split; [|done]. assert ((i <=? id) && (id <? i + 32 * Z.of_nat 0) = false) as -> by lia. by rewrite orb_false_r. }
  destruct (IH (i + 32) (wr32 h (GIC_DISTRIBUTOR_BASE + 256 + i / 32 * 4) 4294967295) id) as [-> ->]; [lia|dlia|lia|lia|].
  rewrite set_enable, other_priority by (unfold GIC_DISTRIBUTOR_BASE; dlia). split; [|done].
  assert (Z.testbit 4294967295 (id mod 32) = true) as ->.
  { change 4294967295 with (Z.ones 32). apply Z.ones_spec_low. dlia. }
  destruct (enabled h id); [done|]. cbn [orb]. rewrite andb_true_r. dlia.
Qed.

(** the initialisation enables exactly the interrupts 0 to 159 in addition to those that were, and gives all from 32
    to 1019 the priority 128. *)
Theorem gic_init_correct h id : 0 <= id < 1024 ->
  enabled (gic_init h) id = enabled h id || (id <? 160) /\
  priority (gic_init h) id = if (32 <=? id) && (id <? 1020) then 128 else priority h id.
Proof.
  intros Hid. unfold gic_init. set (h1 := wr32 h GICD_CTLR 0).
  rewrite (other_enable _ GICC_CTLR), (other_enable _ GICC_BPR), (other_enable _ GICC_PMR), (other_enable _ GICC_CTLR), (other_enable _ GICD_CTLR)
    by (vm_compute; intuition discriminate).
  rewrite (other_priority _ GICC_CTLR), (other_priority _ GICC_BPR), (other_priority _ GICC_PMR), (other_priority _ GICC_CTLR), (other_priority _ GICD_CTLR) by (vm_compute; intuition discriminate).
  destruct (enable_all_spec 4 32 (wr32 (set_priorities 247 32 h1) GICD_ISENABLERn 4294967295) id) as [-> ->]; [lia|done|lia|lia|].
  destruct (set_priorities_spec 247 32 h1 id) as [Hp He]; [lia|done|lia|lia|].
  change GICD_ISENABLERn with (GIC_DISTRIBUTOR_BASE + 256 + 0 * 4). rewrite set_enable, other_priority, Hp, He by (unfold GIC_DISTRIBUTOR_BASE; lia).
  subst h1. rewrite other_enable, other_priority by (vm_compute; intuition discriminate).
  split; [|done]. assert (Z.testbit 4294967295 (id mod 32) = true) as ->.
  { change 4294967295 with (Z.ones 32). apply Z.ones_spec_low. dlia. }
  destruct (enabled h id); [done|]. cbn [orb]. rewrite andb_true_r. dlia.
Qed.
End Correct.

(** A controller that keeps to the manual. *)
Record model := Model { m_enabled : Z -> bool; m_pending : Z -> bool; m_priority : Z -> Z }.

(** The word of the bits of interrupts [32 * n] to [32 * n + 31], [k] of them *)
Fixpoint word (f : Z -> bool) (n : Z) (k : nat) : Z :=
  match k with O => 0 | S k' => word f n k' + if f (32 * n + Z.of_nat k') then 2 ^ Z.of_nat k' else 0 end.

Definition model_write (h : model) (a v : Z) : model :=
  let o := a - GIC_DISTRIBUTOR_BASE in
  if (256 <=? o) && (o <? 384) then
    Model (fun id => m_enabled h id || ((id / 32 =? (o - 256) / 4) && Z.testbit v (id mod 32))) (m_pending h) (m_priority h)
  else if (384 <=? o) && (o <? 512) then
    Model (fun id => m_enabled h id && negb ((id / 32 =? (o - 384) / 4) && Z.testbit v (id mod 32))) (m_pending h) (m_priority h)
  else if (1024 <=? o) && (o <? 2048) then
    Model (m_enabled h) (m_pending h) (fun id => if id / 4 =? (o - 1024) / 4 then v / 256 ^ (id mod 4) mod 256 else m_priority h id)
  else h.

#[export] Instance model_chip : GicChip model := {|
  rd32 h a := (word (m_pending h) ((a - GIC_DISTRIBUTOR_BASE - 512) / 4) 32, h);
  wr32 := model_write; enabled := m_enabled; pending := m_pending; priority := m_priority |}.

Lemma word_bits f n k : forall i, 0 <= word f n k < 2 ^ Z.of_nat k /\ (0 <= i < Z.of_nat k -> Z.testbit (word f n k) i = f (32 * n + i)).
Proof.
  induction k as [|k IH]; intros i; [cbn; lia|]. cbn [word]. destruct (IH i) as [Hr Hb]. rewrite Nat2Z.inj_succ, Z.pow_succ_r by lia.
  split; [clear Hb IH; revert Hr; generalize (2 ^ Z.of_nat k) (word f n k); intros p w Hw; destruct (f _); lia|].
  intros Hi. destruct (Z.eq_dec i (Z.of_nat k)) as [->|].
  - rewrite Z.testbit_eqb by lia. pose proof (Z.div_small _ _ Hr) as Hd. destruct (f (32 * n + Z.of_nat k)); [|by rewrite Z.add_0_r, Hd].
    rewrite <- (Z.mul_1_l (2 ^ Z.of_nat k)) at 1. rewrite Z.div_add, Hd by (apply Z.pow_nonzero; lia). done.
  - rewrite <- Hb by lia. destruct (f (32 * n + Z.of_nat k)); [|by rewrite Z.add_0_r].
    rewrite <- (Z.mod_pow2_bits_low (_ + _) (Z.of_nat k)) by lia. rewrite <- (Z.mul_1_l (2 ^ Z.of_nat k)) at 1.
    rewrite Z.mod_add by (apply Z.pow_nonzero; lia). by rewrite Z.mod_small by exact Hr.
Qed.

#[export] Instance model_laws : GicLaws model.
Proof.
  split; unfold enabled, priority, pending, wr32, rd32, model_chip; cbn [fst].
  - intros h n v id Hn Hid. unfold model_write. replace (GIC_DISTRIBUTOR_BASE + 256 + n * 4 - GIC_DISTRIBUTOR_BASE) with (256 + n * 4) by lia. cbv zeta.
    assert ((256 <=? 256 + n * 4) && (256 + n * 4 <? 384) = true) as -> by lia. cbn. replace ((256 + n * 4 - 256) / 4) with n by dlia. done.
  - intros h n v id Hn Hid. unfold model_write. replace (GIC_DISTRIBUTOR_BASE + 384 + n * 4 - GIC_DISTRIBUTOR_BASE) with (384 + n * 4) by lia. cbv zeta.
    assert ((256 <=? 384 + n * 4) && (384 + n * 4 <? 384) = false) as -> by lia. assert ((384 <=? 384 + n * 4) && (384 + n * 4 <? 512) = true) as -> by lia.
    cbn. replace ((384 + n * 4 - 384) / 4) with n by dlia. done.
  - intros h a v id Ha. unfold model_write. cbv zeta. assert ((256 <=? a - GIC_DISTRIBUTOR_BASE) && (a - GIC_DISTRIBUTOR_BASE <? 384) = false) as -> by lia.
    assert ((384 <=? a - GIC_DISTRIBUTOR_BASE) && (a - GIC_DISTRIBUTOR_BASE <? 512) = false) as -> by lia. by case_match.
  - intros h n id Hn Hid <-. replace ((GIC_DISTRIBUTOR_BASE + 512 + id / 32 * 4 - GIC_DISTRIBUTOR_BASE - 512) / 4) with (id / 32) by dlia.
    rewrite (proj2 (word_bits (m_pending h) (id / 32) 32 (id mod 32))) by dlia. f_equal. dlia.
  - intros h n v id Hn Hid. unfold model_write. replace (GIC_DISTRIBUTOR_BASE + 1024 + n * 4 - GIC_DISTRIBUTOR_BASE) with (1024 + n * 4) by lia. cbv zeta.
    assert ((256 <=? 1024 + n * 4) && (1024 + n * 4 <? 384) = false) as -> by lia. assert ((384 <=? 1024 + n * 4) && (1024 + n * 4 <? 512) = false) as -> by lia.
    assert ((1024 <=? 1024 + n * 4) && (1024 + n * 4 <? 2048) = true) as -> by lia. cbn. by replace ((1024 + n * 4 - 1024) / 4) with n by dlia.
  - intros h a v id Ha. unfold model_write. cbv zeta. destruct ((256 <=? _) && _); [done|]. destruct ((384 <=? _) && _); [done|].
    assert ((1024 <=? a - GIC_DISTRIBUTOR_BASE) && (a - GIC_DISTRIBUTOR_BASE <? 2048) = false) as -> by lia. done.
Qed.

Definition reset : model := Model (fun _ => false) (fun id => id =? 33) (fun _ => 0).

Lemma gic_enable_disable_witness :
  enabled (gic_enable_interrupt reset 33) 33 = enabled reset 33 || (33 =? 33) /\
  enabled (gic_disable_interrupt reset 33) 33 = enabled reset 33 && negb (33 =? 33) /\ (gic_is_pending reset 33).1 = pending reset 33.
Proof. apply gic_enable_disable; lia. Defined.

Lemma gic_init_correct_witness :
  enabled (gic_init reset) 159 = enabled reset 159 || (159 <? 160) /\
  priority (gic_init reset) 159 = if (32 <=? 159) && (159 <? 1020) then 128 else priority reset 159.
Proof. apply gic_init_correct. lia. Defined.
End Gic.

(** ** Interrupt handlers *)
Module Interrupts.
Import Scheduler.

(** The registers that the code takes the interrupt controllers to have in memory *)
Record pic := Pic { pic_master_command : Z; pic_master_data : Z; pic_slave_command : Z; pic_slave_data : Z }.

(** The controllers, the characters on the console and the scheduler *)
Record state := State { pics : pic; out : bytes; sched : Scheduler.sched }.

Definition exception_names : list string :=
  ["#DE Divide Error"; "#DB Debug"; "NMI Interrupt"; "#BP Breakpoint"; "#OF Overflow"; "#BR Bound Range Exceeded"; "#UD Invalid Opcode";
   "#NM Device Not Available"; "#DF Double Fault"; "Coprocessor Segment Overrun"; "#TS Invalid TSS"; "#NP Segment Not Present";
   "#SS Stack-Segment Fault"; "#GP General Protection"; "#PF Page Fault"; "Reserved"; "#MF x87 FPU"; "#AC Alignment Check"; "#MC Machine Check";
   "#XM SIMD Floating Point"; "#VE Virtualization"; "Reserved"; "Reserved"; "Reserved"; "Reserved"; "Reserved"; "Reserved"; "Reserved";
   "Reserved"; "Reserved"; "#SX Security"; "Reserved"]%string.

Definition put (l : bytes) (s : state) : state := State (pics s) (out s ++ l) (sched s).
Definition print (t : string) : state -> state := put (str t).
Definition print_hex (n : Z) (s : state) : option state := l ← Console.hex_text n; Some (put l s).

(** The state when the handler returns, or when it has halted the machine for good *)
Inductive ended := Returns (s : state) | Halts (s : state).

Definition isr_handler (int_no : Z) (s : state) : option ended :=
  if int_no <? 32 then
    n ← getZ exception_names int_no;
    let s := print " (" (print n (print "Exception: " s)) in
    s ← print_hex int_no s;
    let s := put [41; 10] s in
    if 8 <=? int_no then Some (Halts (put (str "FATAL EXCEPTION - System Halted" ++ [10]) s)) else Some (Returns s)
  else
    s ← print_hex int_no (print "Unexpected interrupt: " s);
    Some (Returns (put [10] s)).

(** [base] and [addr] are those of the task switch. *)
Definition timer_interrupt (base : reg) (addr : nat -> Z) (fuel : nat) (s : state) : outcome state :=
  sc ← scheduler_tick base addr fuel (sched s); Ret (State (pics s) (out s) sc).

(** The code that is printed is the number of the port. *)
Definition keyboard_interrupt (s : state) : option state :=
  let scancode := 96 in
  s ← print_hex scancode (print "Key: " s); Some (put [10] s).

Definition set_slave_command (v : Z) (s : state) : state :=
  State (Pic (pic_master_command (pics s)) (pic_master_data (pics s)) v (pic_slave_data (pics s))) (out s) (sched s).
Definition set_master_command (v : Z) (s : state) : state :=
  State (Pic v (pic_master_data (pics s)) (pic_slave_command (pics s)) (pic_slave_data (pics s))) (out s) (sched s).

Definition irq_handler (base : reg) (addr : nat -> Z) (fuel : nat) (int_no : Z) (s : state) : outcome state :=
  let s := if 8 <=? int_no then set_slave_command 32 s else s in
  let s := set_master_command 32 s in
  if int_no =? 32 then timer_interrupt base addr fuel s
  else if int_no =? 33 then need (keyboard_interrupt s)
  else if (34 <=? int_no) && (int_no <=? 47) then Ret s
  else need (s ← print_hex int_no (print "Unhandled IRQ: " s); Some (put [10] s)).

(** exceptions.  For every vector the handler prints the name of the exception, or that the interrupt was not expected;
    it returns below the double fault and for other interrupts, and halts the machine for the remaining exceptions. *)
Theorem isr_handler_correct int_no s : is_u8 int_no ->
  exists hex, Console.hex_text int_no = Some hex /\
    isr_handler int_no s =
      Some (if decide (int_no < 32) then
              let n := nth (Z.to_nat int_no) exception_names EmptyString in
              let s' := put (str "Exception: " ++ str n ++ str " (" ++ hex ++ [41; 10]) s in
              if decide (int_no < 8) then Returns s' else Halts (put (str "FATAL EXCEPTION - System Halted" ++ [10]) s')
            else Returns (put (str "Unexpected interrupt: " ++ hex ++ [10]) s)).
Proof.
  intros Hi. red in Hi. assert (exists hex, Console.hex_text int_no = Some hex) as [hex E].
  { unfold Console.hex_text, Console.number_text. destruct (int_no =? 0); [by eexists|].
    destruct (Console.digits_spec 16 Console.hex_char 32 ltac:(lia) int_no) as (l & -> & _); [|by eexists]. split; [lia|]. apply Z.lt_le_trans with 256; [lia|done]. }
  exists hex. split; [done|]. unfold isr_handler, print_hex. rewrite E. cbn [mbind option_bind]. destruct (decide (int_no < 32)) as [H|H].
  - rewrite (proj2 (Z.ltb_lt _ _)) by lia. destruct (getZ_is_Some exception_names int_no) as [n En]; [split; [lia|]; change (lenZ exception_names) with 32; lia|].
    rewrite En. cbn [mbind option_bind]. apply getZ_Some in En as [_ En]. rewrite (nth_lookup_Some _ _ EmptyString _ En).
    unfold print, put. cbn [pics out sched]. rewrite <- !app_assoc. destruct (decide (int_no < 8)).
    + by rewrite (proj2 (Z.leb_gt 8 _)) by lia.
    + rewrite (proj2 (Z.leb_le 8 _)) by lia. done.
  - rewrite (proj2 (Z.ltb_ge _ _)) by lia. unfold print, put. cbn [pics out sched]. by rewrite <- !app_assoc.
Qed.

End Interrupts.
