(* ===== verification/Boot.v ===== *)
(** * The start of the kernel: [src/boot/kmain.c]

    [kmain] composes the initialisation of the other parts: the descriptor tables, the device
    registry, the terminals, the bus and the serial port.  The heap is handed from one part
    to the next.  The devices that the bus drivers register and those of the terminals have
    operation tables of different types, and are kept apart; nothing in [kmain] looks at them.
    The messages are those of [kmain] itself and of [apic_init]; the screen is what
    [console_clear] leaves, before them.  [apic_init] and [idt_init] are defined twice in the
    sources; taken are those of apic.c and idt.c, not the empty ones of gdt.c. *)
From Stdlib Require Import String.
From S2P Require Import Prelude KernelLib Device Console Ring Tty Uart Pl011 Virtio Pci Devicetree Arch.
Open Scope list_scope.
Open Scope Z_scope.

Module Boot.

(** The terminals before [tty_init]: static storage, with the line discipline N_TTY *)
Definition no_ttys {W} (heap : Z) : Tty.ttys W := Tty.Ttys [] [] [Tty.n_tty_ldisc] [] None [] 0 [] (device_init (Registry [] 1)) heap.

Definition with_heap {W} (heap : Z) (s : Tty.ttys W) : Tty.ttys W :=
  Tty.set_arena (Tty.arena s) (Tty.tty_list s) (Tty.tty_line_count s) heap s.

(** What [kmain] has done when it reaches its idle loop *)
Record running (B D : Type) := Running { screen : Console.console; messages : list string; cpu : Gdt.cpu; gates : list Idt.idt_entry;
  interrupts : bool; bus : B; serial : option D; terminals : Tty.ttys D }.
Arguments Running {B D}.

(** [apic_init] only says so; [enable_interrupts] sets the interrupt flag. *)
Definition apic_init : list string := ["APIC initialized"%string].
Definition enable_interrupts (flag : bool) : bool := true.

Definition banner : list string :=
  ["=== OS Kernel Starting ==="; "Initializing system components..."; "Initializing GDT... "; "Initializing IDT... "; "Initializing APIC... "]%string ++
  apic_init ++
  ["Enabling Interrupts... "; "OK"; "=== Device Initialization ==="; "=== TTY Subsystem Initialization ==="]%string.
Definition ready : list string :=
  ["=== Kernel Ready ==="; "System initialized successfully!"; "All drivers loaded and devices enumerated."]%string.

Section X86.
Context {H : Type} {PH : Pci.PciHost H} {G : Type} {PG : Uart.Ports G}.
(** [UART_BUFFER_SIZE] and [TTY_CAP_HARDWARE_SPEED], the host bridge and the serial chip *)
Context (N cap : Z) (host : H) (chip : G).

Definition kmain_x86 (scr : Console.console) (gdt_address : Z) (flag : bool) : option (running (Pci.walker H) (@Uart16550.dev G)) :=
  scr ← Console.console_clear scr;
  '(_, c) ← Gdt.gdt_init gdt_address;
  '(idt, _) ← Idt.idt_init;
  let flag := enable_interrupts flag in
  s ← Tty.tty_init (no_ttys 0);
  w ← Pci.pci_init (Pci.Walker host (Virtio.Drivers (Tty.heap_pos s) (device_init (Registry [] 1)) None None) []);
  '(d, s) ← Uart16550.uart16550_init N cap chip (with_heap (Virtio.heap_pos (Pci.world w)) s);
  Some (Running scr (banner ++ ready) c idt flag w d s).
End X86.

Section Arm.
Context {M : Type} {PM : Pl011.Mmio M} (cap : Z) (chip : M).
(** What the device tree drivers work on; [kmain] passes no device tree. *)
Context {W : Type} (heap_of : W -> Z) (set_heap : Z -> W -> W) (virtio_mmio_init pl011_of_tree : Z -> W -> option W) (base : Z) (blob : bytes).

Definition kmain_arm (fuel : nat) (scr : Console.console) (gdt_address : Z) (flag : bool) (tree : Devicetree.dt) :
    outcome (running Devicetree.dt (@Pl011.dev M)) :=
  scr ← need (Console.console_clear scr);
  '(_, c) ← need (Gdt.gdt_init gdt_address);
  '(idt, _) ← need Idt.idt_init;
  let flag := enable_interrupts flag in
  s ← need (Tty.tty_init (no_ttys 0));
  t ← Devicetree.dt_init heap_of set_heap virtio_mmio_init pl011_of_tree base blob fuel false tree;
  '(d, s) ← need (Pl011.pl011_init cap chip s);
  Ret (Running scr (banner ++ ready) c idt flag t d s).
End Arm.

(** ** The kernel does not come up *)
(** The consoles take two blocks of the heap. *)
Lemma tty_init_any {W} nm r c i : exists s : Tty.ttys W,
  Tty.tty_init (Tty.Ttys [] [] [Tty.Ldisc 0 nm r c i] [] None [] 0 [] (device_init (Registry [] 1)) 0) = Some s /\ Tty.heap_pos s = 1984.
Proof. eexists. split; [vm_compute; reflexivity|reflexivity]. Qed.

Lemma tty_init_heap {W} : exists s : Tty.ttys W, Tty.tty_init (no_ttys 0) = Some s /\ Tty.heap_pos s = 1984.
Proof. apply tty_init_any. Qed.

Lemma tty_init_pos {W} (s : Tty.ttys W) : Tty.tty_init (no_ttys 0) = Some s -> Tty.heap_pos s = 1984.
Proof. intros E. destruct (@tty_init_heap W) as (s' & E' & Hs). rewrite E in E'. injection E' as ->. exact Hs. Qed.

(** A terminal that was just allocated cannot be registered, whatever callbacks it was given. *)
Lemma register_new {W} (s : Tty.ttys W) f : Memory.heap_wf (Tty.heap_pos s) -> Tty.heap_pos s + 992 <= Memory.HEAP_SIZE ->
  (forall t, Tty.driver (f t) = Tty.driver t) ->
  exists s1 i, Tty.tty_allocate_driver s 1 0 = Some (s1, Some i) /\ Tty.tty_register_device (Tty.upd_tty i f s1) (Some i) 0 = None.
Proof.
  intros Hw Hr Hf. destruct (Tty.tty_allocate_driver s 1 0) as [[s1 [i|]]|] eqn:E.
  - exists s1, i. split; [done|]. destruct (Tty.tty_allocate_driver_null s s1 1 0 i ltac:(lia) E) as (t & Ht & Hd).
    unfold Tty.tty_register_device. cbn [Tty.arena Tty.upd_tty]. rewrite list_lookup_alter_eq, Ht. cbn [fmap option_fmap option_map mbind option_bind]. by rewrite Hf, Hd.
  - exfalso. unfold Tty.tty_allocate_driver in E. change (u64 (Tty.sizeof_tty * 1)) with 992 in E.
    destruct (Memory.malloc_cases (Tty.heap_pos s) 992) as [[_ ?]|(hp & Em & _)]; [done|unfold Memory.size_ok, Memory.HEAP_SIZE; lia|lia|].
    rewrite Em in E. by destruct (Tty.init_lines _ _ _ _).
  - exfalso. unfold Tty.tty_allocate_driver in E. destruct (Memory.malloc _ _) as [[p|] h]; [|done]. destruct (Tty.init_lines _ _ _ _) as [s1|] eqn:E1; [done|].
    change (Z.to_nat 1) with 1%nat in E1. cbn [Tty.init_lines] in E1.
    match type of E1 with (?x ≫= _) = None => assert (is_Some x) as [[y n] Hy] by (vm_compute; by eexists) end. rewrite Hy in E1. done.
Qed.

(** The bus walk takes no more of the heap than the devices cost. *)
Lemma pci_init_heap {H : Type} {PH : Pci.PciHost H} {L : Pci.PciHostLaws H} (w0 : Pci.walker H) n :
  Memory.heap_wf (Virtio.heap_pos (Pci.world w0)) -> Pci.total (Pci.cfg (Pci.host w0)) (Pci.functions (Pci.cfg (Pci.host w0))) <= n ->
  Virtio.heap_pos (Pci.world w0) + n <= Memory.HEAP_SIZE ->
  exists w, Pci.pci_init w0 = Some w /\ Memory.heap_wf (Virtio.heap_pos (Pci.world w)) /\
    Virtio.heap_pos (Pci.world w) <= Virtio.heap_pos (Pci.world w0) + n.
Proof.
  intros Hw Hn Hr. unfold Pci.functions in Hn. destruct (Pci.scan_buses_spec (Pci.cfg (Pci.host w0)) 256 w0 0) as (w & E & W); [done|lia|lia|split; [done|lia]|].
  exists w. split; [done|]. destruct (Pci.wa_used _ _ _ _ W) as [H1 H2]. split; [done|lia].
Qed.

Lemma pci_init_ends {H : Type} {PH : Pci.PciHost H} {L : Pci.PciHostLaws H} (host : H) drivers :
  Virtio.heap_pos drivers = 1984 -> 1984 + Pci.total (Pci.cfg host) (Pci.functions (Pci.cfg host)) <= Memory.HEAP_SIZE ->
  exists w, Pci.pci_init (Pci.Walker host drivers []) = Some w.
Proof.
  intros Hd. generalize (Z.le_refl (Pci.total (Pci.cfg host) (Pci.functions (Pci.cfg host)))).
  generalize (Pci.total (Pci.cfg host) (Pci.functions (Pci.cfg host))) at 2 3. intros n Hn Hr.
  destruct (pci_init_heap (Pci.Walker host drivers []) n) as (w & E & _); cbn [Pci.world]; rewrite ?Hd; [by vm_compute|exact Hn|exact Hr|].
  by exists w.
Qed.

(** The same for the walk of [kmain], with [rest] bytes for what follows. *)
Lemma pci_init_room {H : Type} {PH : Pci.PciHost H} {L : Pci.PciHostLaws H} (host : H) drivers w rest :
  Pci.pci_init (Pci.Walker host drivers []) = Some w -> Virtio.heap_pos drivers = 1984 ->
  1984 + Pci.total (Pci.cfg host) (Pci.functions (Pci.cfg host)) + rest <= Memory.HEAP_SIZE -> 0 <= rest ->
  Memory.heap_wf (Virtio.heap_pos (Pci.world w)) /\ Virtio.heap_pos (Pci.world w) + rest <= Memory.HEAP_SIZE.
Proof.
  intros E Hd. generalize (Z.le_refl (Pci.total (Pci.cfg host) (Pci.functions (Pci.cfg host)))).
  generalize (Pci.total (Pci.cfg host) (Pci.functions (Pci.cfg host))) at 2 3. intros n Hn Hr H0.
  destruct (pci_init_heap (Pci.Walker host drivers []) n) as (w' & E' & Hw & Hu); cbn [Pci.world]; rewrite ?Hd; [by vm_compute|exact Hn|lia|].
  rewrite E in E'. injection E' as <-. cbn [Pci.world] in Hu. rewrite Hd in Hu. split; [exact Hw|lia].
Qed.

(** A new terminal is allocated when there is room. *)
Lemma allocate_new {W} (s : Tty.ttys W) : Memory.heap_wf (Tty.heap_pos s) -> Tty.heap_pos s + 992 <= Memory.HEAP_SIZE ->
  exists s1 i t, Tty.tty_allocate_driver s 1 0 = Some (s1, Some i) /\ Tty.arena s1 !! i = Some t /\ Tty.driver t = None.
Proof.
  intros Hw Hr. destruct (register_new s id Hw Hr) as (s1 & i & E & _); [done|].
  destruct (Tty.tty_allocate_driver_null s s1 1 0 i ltac:(lia) E) as (t & Ht & Hd). by exists s1, i, t.
Qed.

Lemma idt_init_ends : exists idt l, Idt.idt_init = Some (idt, l).
Proof. destruct Idt.idt_init as [[idt l]|] eqn:E; [by exists idt, l|]. vm_compute in E. discriminate. Qed.

Lemma clear_ok scr : Console.typed scr -> exists scr', Console.console_clear scr = Some scr'.
Proof. intros Ht. destruct (Console.run_op_typed Console.Clear scr Ht I) as (scr' & E & _). by exists scr'. Qed.

(** The state in which the serial driver allocates its terminal: [h] of the heap is in use, and its own structure comes first. *)
Definition serial_state {D} (N h : Z) (s : Tty.ttys D) : Tty.ttys D := with_heap (Memory.malloc h (Uart16550.sizeof_uart N)).2 s.

Lemma serial_room {D} N h (s : Tty.ttys D) : 0 <= N -> Memory.heap_wf h -> h + (56 + 2 * N + 16 + 992) <= Memory.HEAP_SIZE ->
  Memory.heap_wf (Tty.heap_pos (serial_state N h s)) /\ Tty.heap_pos (serial_state N h s) + 992 <= Memory.HEAP_SIZE.
Proof.
  intros HN Hw Hr. unfold serial_state. destruct (Memory.malloc_cases h (Uart16550.sizeof_uart N) Hw) as [[_ ?]|(hp & -> & Hhp & Hwp)].
  { unfold Memory.size_ok, Uart16550.sizeof_uart, Memory.HEAP_SIZE in *. destruct Hw. lia. }
  { unfold Uart16550.sizeof_uart in *. lia. }
  split; [exact Hwp|]. unfold Uart16550.sizeof_uart in *. cbn [Tty.heap_pos with_heap Tty.set_arena snd]. lia.
Qed.

(** C40: on x86-64 the kernel stops in the initialisation of its serial port.  With any devices on the bus that leave room in the
    heap, and any serial chip: the screen is cleared, the descriptor tables, the terminals and the bus are initialised;
    the terminal that the serial driver then allocates has the driver [NULL], and the driver registers it, which follows that
    pointer.  [kmain] never reaches its idle loop. *)
Theorem kmain_x86_undefined {H G : Type} {PH : Pci.PciHost H} {L : Pci.PciHostLaws H} {PG : Uart.Ports G} N cap (host : H) (chip : G) scr address flag :
  0 <= N -> 1984 + Pci.total (Pci.cfg host) (Pci.functions (Pci.cfg host)) + (56 + 2 * N + 16 + 992) <= Memory.HEAP_SIZE -> Console.typed scr ->
  exists scr' gdt c idt l (s : Tty.ttys (@Uart16550.dev G)) w s1 i t,
    Console.console_clear scr = Some scr' /\ Gdt.gdt_init address = Some (gdt, c) /\ Idt.idt_init = Some (idt, l) /\ Tty.tty_init (no_ttys 0) = Some s /\
    Pci.pci_init (Pci.Walker host (Virtio.Drivers (Tty.heap_pos s) (device_init (Registry [] 1)) None None) []) = Some w /\
    Tty.tty_allocate_driver (serial_state N (Virtio.heap_pos (Pci.world w)) s) 1 0 = Some (s1, Some i) /\ Tty.arena s1 !! i = Some t /\ Tty.driver t = None /\
    Uart16550.uart16550_init N cap chip (with_heap (Virtio.heap_pos (Pci.world w)) s) = None /\
    kmain_x86 N cap host chip scr address flag = None.
Proof.
  intros HN Hroom Hscr. destruct (clear_ok scr Hscr) as (scr' & E0). destruct (Gdt.gdt_init_table address) as (gdt & c & E1 & _).
  destruct idt_init_ends as (idt & l & E2). destruct (@tty_init_heap (@Uart16550.dev G)) as (s & E3 & Hs).
  unfold kmain_x86. rewrite E0, E1, E2, E3. cbn [mbind option_bind].
  remember (Virtio.Drivers (Tty.heap_pos s) (device_init (Registry [] 1)) None None) as drivers eqn:Ed.
  assert (Virtio.heap_pos drivers = 1984) as Hd by (rewrite Ed; exact Hs).
  destruct (pci_init_ends host drivers Hd) as (w & E4); [lia|]. rewrite E4. cbn [mbind option_bind].
  destruct (pci_init_room host drivers w _ E4 Hd Hroom) as [Hw Hu]; [lia|].
  destruct (serial_room N _ s HN Hw Hu) as [Hw1 Hr1]. destruct (allocate_new _ Hw1 Hr1) as (s1 & i & t & E5 & Ht & Hdr).
  assert (Uart16550.uart16550_init N cap chip (with_heap (Virtio.heap_pos (Pci.world w)) s) = None) as E6.
  { apply Uart16550.uart16550_init_null; [exact HN|exact Hw|]. cbn [Tty.heap_pos with_heap Tty.set_arena]. lia. }
  rewrite E6. exists scr', gdt, c, idt, l, s, w, s1, i, t. rewrite <- Ed. do 9 (split; [assumption || reflexivity|]). reflexivity.
Qed.

(** The driver of the PL011 fails on every heap that has room for its terminal. *)
Lemma pl011_init_fails {M : Type} {PM : Pl011.Mmio M} cap (chip : M) (s : Tty.ttys (@Pl011.dev M)) :
  Tty.heap_pos s = 1984 -> Pl011.pl011_init cap chip s = None.
Proof.
  intros Hs. unfold Pl011.pl011_init. rewrite Hs. replace (Memory.malloc 1984 Pl011.sizeof_pl011) with (Some 1984, 4112) by (vm_compute; reflexivity).
  cbv iota. match goal with |- context [Tty.tty_allocate_driver ?x 1 0] => assert (Tty.heap_pos x = 4112) as Hx by reflexivity; revert Hx; generalize x end.
  intros s0 H0. match goal with |- context [Tty.upd_tty _ ?f _] => assert (forall t, Tty.driver (f t) = Tty.driver t) as Hf by reflexivity; revert Hf; generalize f end.
  intros f Hf. destruct (register_new s0 f) as (s1 & i & -> & E); [by rewrite H0|by rewrite H0|exact Hf|]. cbn [mbind option_bind]. by rewrite E.
Qed.

Lemma need_undefined {A B} (m : option A) (f : A -> outcome B) : (forall x, m = Some x -> f x = Undef) -> (need m ≫= f) = Undef.
Proof. destruct m as [x|]; [|reflexivity]. intros Hf. exact (Hf x eq_refl). Qed.

(** neither does it on ARM: [kmain] passes no device tree, and the initialisation of the PL011 follows the same [NULL]
    pointer. *)
Theorem kmain_arm_undefined {M W : Type} {PM : Pl011.Mmio M} cap (chip : M) (heap_of : W -> Z) set_heap mmio_init pl011_of_tree base blob fuel scr address flag tree :
  kmain_arm cap chip heap_of set_heap mmio_init pl011_of_tree base blob fuel scr address flag tree = Undef.
Proof.
  unfold kmain_arm. apply need_undefined. intros scr' _. apply need_undefined. intros [gdt c] _. apply need_undefined. intros [idt l] _.
  apply need_undefined. intros s Es. apply tty_init_pos in Es. unfold Devicetree.dt_init. cbn [negb mbind outcome_bind].
  by rewrite pl011_init_fails.
Qed.

(** A screen that was not cleared *)
Definition screen0 : Console.console := Console.Cons (replicate 2000 1) 24 80.

Lemma screen0_typed : Console.typed screen0.
Proof. split; [split; [done|cbn; lia]|]. apply Forall_replicate. red. lia. Qed.

Lemma kmain_x86_undefined_witness :
  @kmain_x86 _ Pci.bridge_host _ Uart16550.chip_ports 1024 512 Pci.bridge0 (([], 0%nat) : Uart16550.chip) screen0 4096 false = None.
Proof.
  edestruct (@kmain_x86_undefined _ _ Pci.bridge_host Pci.bridge_laws Uart16550.chip_ports 1024 512 Pci.bridge0 (([], 0%nat) : Uart16550.chip) screen0 4096 false)
    as (? & ? & ? & ? & ? & ? & ? & ? & ? & ? & ? & ? & ? & ? & ? & ? & ? & ? & ? & E); [lia|vm_compute; discriminate|exact screen0_typed|exact E].
Defined.
End Boot.
