(* ===== verification/Libc.v ===== *)
(** * The C library of user programs: [userspace/libc/src/libc.c]

    Functions on blocks of memory work on the byte memory of [Mm]; functions on strings take the
    bytes from a pointer on, [None] is an access past them, and a pointer into a string is an offset.
    [strlen], [strcmp] and [strncmp], which the library declares and does not define, have their
    standard meaning, that of [KernelLib].  Calls of the kernel that only return
    a constant are left out. *)
From S2P Require Import Prelude KernelLib Mm Console.
Import CString Console.
Open Scope Z_scope.

Module Libc.

Definition i64 (z : Z) : Z :=
  let m := z mod 18446744073709551616 in if m <? 9223372036854775808 then m else m - 18446744073709551616.

(** ** Blocks of memory *)
Definition wr (m : mem) (a v : Z) : mem := fun x => if x =? a then v else m x.

(** [for (i = n; i > 0; i--) d[i-1] = s[i-1]] *)
Fixpoint copy_down (n : nat) (m : mem) (d s : Z) : mem :=
  match n with O => m | S n' => copy_down n' (wr m (d + Z.of_nat n') (m (s + Z.of_nat n'))) d s end.

(** [for (i = 0; i < n; i++) d[i] = s[i]], [k] of [n] left *)
Fixpoint copy_up (k : nat) (i : Z) (m : mem) (d s : Z) : mem :=
  match k with O => m | S k' => copy_up k' (i + 1) (wr m (d + i) (m (s + i))) d s end.

Definition memmove (m : mem) (dest src n : Z) : mem :=
  if src <? dest then copy_down (Z.to_nat n) m dest src else copy_up (Z.to_nat n) 0 m dest src.

Fixpoint memcmp (m : mem) (s1 s2 : Z) (n : nat) : Z :=
  match n with
  | O => 0
  | S n' => if negb (m s1 =? m s2) then m s1 - m s2 else memcmp m (s1 + 1) (s2 + 1) n'
  end.

(** ** The heap: one page from the break, blocks preceded by their size *)
Record heap := Heap { heap_start : Z; heap_current : Z; hmem : mem }.

(** [brk] is what the kernel returns for the break; 0 is [NULL]. *)
Definition malloc (brk : Z) (h : heap) (size : Z) : heap * Z :=
  let h := if heap_start h =? 0 then Heap brk brk (hmem h) else h in
  let total_size := u64 (size + 8) in
  if u64 (heap_start h + 4096) <? u64 (heap_current h + total_size) then (h, 0)
  else
    let ptr := heap_current h in
    (Heap (heap_start h) (u64 (heap_current h + total_size)) (poke (hmem h) ptr (le_bytes 8 size)), u64 (ptr + 8)).

Definition free (h : heap) (ptr : Z) : heap := h.

Definition calloc (brk : Z) (h : heap) (nmemb size : Z) : heap * Z :=
  let total := u64 (nmemb * size) in
  let '(h, ptr) := malloc brk h total in
  if negb (ptr =? 0) then (Heap (heap_start h) (heap_current h) (fill (hmem h) ptr 0 total), ptr) else (h, ptr).

(** [memcpy] copies upwards. *)
Definition realloc (brk : Z) (h : heap) (ptr size : Z) : heap * Z :=
  if ptr =? 0 then malloc brk h size
  else
    let old_size := le_val (peek (hmem h) (ptr - 8) 8) in
    let '(h, new_ptr) := malloc brk h size in
    if negb (new_ptr =? 0) then
      let copy_size := if old_size <? size then old_size else size in
      (free (Heap (heap_start h) (heap_current h) (copy_up (Z.to_nat copy_size) 0 (hmem h) new_ptr ptr)) ptr, new_ptr)
    else (h, new_ptr).

(** ** Characters *)
Definition isspace (c : Z) : bool := (c =? 32) || (c =? 9) || (c =? 10) || (c =? 13) || (c =? 12) || (c =? 11).
Definition isalpha (c : Z) : bool := (97 <=? c) && (c <=? 122) || (65 <=? c) && (c <=? 90).
Definition isdigit (c : Z) : bool := (48 <=? c) && (c <=? 57).
Definition isalnum (c : Z) : bool := isalpha c || isdigit c.
Definition isprint (c : Z) : bool := (32 <=? c) && (c <? 127).
Definition tolower (c : Z) : Z := if (65 <=? c) && (c <=? 90) then c + 32 else c.
Definition toupper (c : Z) : Z := if (97 <=? c) && (c <=? 122) then c - 32 else c.

(** ** Strings *)
(** Copies up to the terminating NUL. *)
Fixpoint strcpy (dest src : bytes) : option bytes :=
  match dest, src with
  | _ :: dest', c :: src' => if c =? 0 then Some (0 :: dest') else d ← strcpy dest' src'; Some (c :: d)
  | _, _ => None
  end.

Fixpoint strcat (dest src : bytes) : option bytes :=
  match dest with
  | [] => None
  | c :: dest' => if c =? 0 then strcpy dest src else d ← strcat dest' src; Some (c :: d)
  end.

Fixpoint strncat_copy (dest src : bytes) (n : nat) : option bytes :=
  match n with
  | O => setZ dest 0 0
  | S n' =>
      match src with
      | [] => None
      | c :: src' =>
          if c =? 0 then setZ dest 0 0
          else match dest with [] => None | _ :: dest' => d ← strncat_copy dest' src' n'; Some (c :: d) end
      end
  end.

Fixpoint strncat (dest src : bytes) (n : nat) : option bytes :=
  match dest with
  | [] => None
  | c :: dest' => if c =? 0 then strncat_copy dest src n else d ← strncat dest' src n; Some (c :: d)
  end.

Definition strcoll (s1 s2 : bytes) : option Z := strcmp s1 s2.

(** The offset of the first [c], the terminating NUL included; [None] inside is [NULL]. *)
Fixpoint strchr (s : bytes) (c : Z) : option (option nat) :=
  match s with
  | [] => None
  | x :: s' =>
      if negb (x =? 0) && negb (x =? c) then r ← strchr s' c; Some (option_map S r)
      else Some (if x =? c then Some 0%nat else None)
  end.

(** The last [c] before the NUL; [i] is the offset, [last] the last one seen. *)
Fixpoint strrchr_from (s : bytes) (c : Z) (i : nat) (last : option nat) : option (option nat) :=
  match s with
  | [] => None
  | x :: s' => if x =? 0 then Some last else strrchr_from s' c (S i) (if x =? c then Some i else last)
  end.
Definition strrchr (s : bytes) (c : Z) : option (option nat) := strrchr_from s c 0 None.

(** The inner loop of the searches: has [n] been matched to its end?  [eq] compares characters. *)
Fixpoint match_at (eq : Z -> Z -> bool) (h n : bytes) : option bool :=
  match h, n with
  | x :: h', y :: n' =>
      if negb (x =? 0) && negb (y =? 0) && eq x y then match_at eq h' n' else Some (y =? 0)
  | _, _ => None
  end.

Fixpoint search (eq : Z -> Z -> bool) (haystack needle : bytes) : option (option nat) :=
  match haystack with
  | [] => None
  | x :: haystack' =>
      if x =? 0 then Some None
      else
        found ← match_at eq haystack needle;
        if found : bool then Some (Some 0%nat) else r ← search eq haystack' needle; Some (option_map S r)
  end.

Definition strstr (haystack needle : bytes) : option (option nat) :=
  c ← getZ needle 0; if c =? 0 then Some (Some 0%nat) else search Z.eqb haystack needle.

Definition strcasestr (haystack needle : bytes) : option (option nat) :=
  c ← getZ needle 0; if c =? 0 then Some (Some 0%nat) else search (fun a b => tolower a =? tolower b) haystack needle.

(** [strchr(set, c) != NULL] *)
Definition among (set : bytes) (c : Z) : option bool :=
  r ← strchr set c; Some (match r with Some _ => true | None => false end).

Fixpoint span (keep : bool) (s set : bytes) : option nat :=
  match s with
  | [] => None
  | c :: s' =>
      if c =? 0 then Some O
      else b ← among set c; if Bool.eqb b keep then n ← span keep s' set; Some (S n) else Some O
  end.

Definition strspn (s accept : bytes) : option nat := span true s accept.
Definition strcspn (s reject : bytes) : option nat := span false s reject.

(** [saveptr] is the saved position in the string, or the start of the string when one is given; the results are the
    string, the new position and the token. *)
Definition strtok_r (str : bytes) (saveptr : option nat) (delim : bytes) : option (bytes * option nat * option nat) :=
  match saveptr with
  | None => Some (str, None, None)
  | Some p =>
      c ← str !! p;
      if c =? 0 then Some (str, saveptr, None)
      else
        k ← span true (drop p str) delim;
        let start := (p + k)%nat in
        c ← str !! start;
        if c =? 0 then Some (str, Some start, None)
        else
          k ← span false (drop start str) delim;
          let e := (start + k)%nat in
          c ← str !! e;
          if negb (c =? 0) then Some (<[e := 0]> str, Some (S e), Some start)
          else Some (str, Some e, Some start)
  end.

(** ** Numbers *)
Definition digit_of (c : Z) : option Z :=
  if (48 <=? c) && (c <=? 57) then Some (c - 48)
  else if (97 <=? c) && (c <=? 122) then Some (c - 97 + 10)
  else if (65 <=? c) && (c <=? 90) then Some (c - 65 + 10)
  else None.

(** The digit loop: the accumulated value and the number of characters read. *)
Fixpoint digit_loop (s : bytes) (base result : Z) : option (Z * nat) :=
  match s with
  | [] => None
  | c :: s' =>
      if c =? 0 then Some (result, O)
      else
        match digit_of c with
        | None => Some (result, O)
        | Some d => if base <=? d then Some (result, O)
                    else '(r, n) ← digit_loop s' base (u64 (result * base + d)); Some (r, S n)
        end
  end.

Fixpoint skip_space (s : bytes) : option nat :=
  match s with [] => None | c :: s' => if isspace c then n ← skip_space s'; Some (S n) else Some O end.

(** The base the prefix selects, and the length of the prefix. *)
Definition prefix_base (s : bytes) (base : Z) : option (Z * nat) :=
  if (base =? 0) || (base =? 16) then
    c0 ← getZ s 0;
    hex ← (if c0 =? 48 then c1 ← getZ s 1; Some ((c1 =? 120) || (c1 =? 88)) else Some false);
    Some (if hex : bool then (16, 2%nat) else if base =? 0 then (10, O) else (base, O))
  else Some (base, O).

(** The value and the offset stored in [endptr]. *)
Definition strtol (nptr : bytes) (base : Z) : option (Z * nat) :=
  k ← skip_space nptr;
  c ← nptr !! k;
  let '(sign, k) := if c =? 45 then (-1, S k) else if c =? 43 then (1, S k) else (1, k) in
  '(base, p) ← prefix_base (drop k nptr) base;
  let k := (k + p)%nat in
  if (base <? 2) || (36 <? base) then Some (0, O)
  else '(r, n) ← digit_loop (drop k nptr) base 0; Some (i64 (sign * i64 r), (k + n)%nat).

Definition strtoul (nptr : bytes) (base : Z) : option (Z * nat) :=
  k ← skip_space nptr;
  c ← nptr !! k;
  let k := if c =? 43 then S k else k in
  '(base, p) ← prefix_base (drop k nptr) base;
  let k := (k + p)%nat in
  '(r, n) ← digit_loop (drop k nptr) base 0; Some (r, (k + n)%nat).

(** [long] and [long long] are the same. *)
Definition strtoll := strtol.
Definition strtoull := strtoul.
Definition atoi (nptr : bytes) : option Z := '(r, _) ← strtol nptr 10; Some (i32 r).
Definition atol (nptr : bytes) : option Z := '(r, _) ← strtol nptr 10; Some r.
Definition atoll (nptr : bytes) : option Z := '(r, _) ← strtoll nptr 10; Some r.

(** [None] is the overflow of the smallest number. *)
Definition abs (j : Z) : option Z := if j =? -2147483648 then None else Some (if j <? 0 then - j else j).
Definition labs (j : Z) : option Z := if j =? -9223372036854775808 then None else Some (if j <? 0 then - j else j).
Definition llabs := labs.

(** The generator: the new seed and the number. *)
Definition rand (seed : Z) : Z * Z :=
  let seed := u32 (seed * 1103515245 + 12345) in (seed, Z.land (Z.shiftr seed 16) 32767).
Definition srand (new_seed : Z) : Z := if negb (new_seed =? 0) then new_seed else 1.

(** ** Searching a sorted array *)
Fixpoint bsearch_loop {A} (fuel : nat) (compar : A -> A -> Z) (key : A) (base : list A) (low high : Z) : outcome (option Z) :=
  if negb (low <? high) then Ret None
  else
    match fuel with
    | O => More
    | S fuel' =>
        let mid := u64 (low + high) / 2 in
        elem ← need (getZ base mid);
        let result := compar key elem in
        if result =? 0 then Ret (Some mid)
        else if result <? 0 then bsearch_loop fuel' compar key base low mid
        else bsearch_loop fuel' compar key base (u64 (mid + 1)) high
    end.

Definition bsearch {A} (fuel : nat) (compar : A -> A -> Z) (key : A) (base : list A) (nmemb : Z) : outcome (option Z) :=
  bsearch_loop fuel compar key base 0 nmemb.

Definition qsort {A} (base : list A) (nmemb : Z) : list A := base.

(** ** Formatted output *)
Inductive arg := ArgStr (s : bytes) | ArgInt (n : Z).

(** The characters of a string up to its NUL. *)
Fixpoint cstr (s : bytes) : option bytes :=
  match s with [] => None | c :: s' => if c =? 0 then Some [] else l ← cstr s'; Some (c :: l) end.

(** What [vsprintf] writes, without the NUL.  A [%d] is formatted by [snprintf] with the format [%d]; a directive with no
    argument, or with one of another type, is undefined. *)
Fixpoint vsprintf (fuel : nat) (format : bytes) (args : list arg) : outcome bytes :=
  match fuel with
  | O => More
  | S fuel' =>
      match format with
      | [] => Undef
      | c :: p =>
          if c =? 0 then Ret []
          else
            match p with
            | [] => Undef
            | d :: p' =>
                if (c =? 37) && negb (d =? 0) then
                  if d =? 115 then
                    match args with
                    | ArgStr s :: args' => a ← need (cstr s); r ← vsprintf fuel' p' args'; Ret (a ++ r)
                    | _ => Undef
                    end
                  else if d =? 100 then
                    match args with
                    | ArgInt n :: args' =>
                        a ← vsprintf fuel' [37; 100; 0] [ArgInt n]; r ← vsprintf fuel' p' args'; Ret (a ++ r)
                    | _ => Undef
                    end
                  else r ← vsprintf fuel' p' args; Ret (d :: r)
                else r ← vsprintf fuel' p args; Ret (c :: r)
            end
      end
  end.

(** The buffer after [vsnprintf]: everything is written, then cut. *)
Definition vsnprintf (fuel : nat) (str : bytes) (size : Z) (format : bytes) (args : list arg) : outcome (bytes * Z) :=
  l ← vsprintf fuel format args;
  str ← need (splice str 0 (l ++ [0]));
  let result := i32 (lenZ l) in
  str ← need (if (0 <? size) && (i32 size <=? result) then setZ str (size - 1) 0 else Some str);
  Ret (str, result).

(** ** The environment *)
Definition MAX_ENV_VARS : Z := 64.
Definition MAX_ENV_VAR_SIZE : Z := 256.

Record env := Env { env_vars : list bytes; env_count : Z }.

(** The offset of the value of a variable if [name] begins with its name. *)
Definition env_match (var name : bytes) : option (option nat) :=
  eq ← strchr var 61;
  match eq with
  | None => Some None
  | Some e => r ← strncmp var name e; Some (if r =? 0 then Some (S e) else None)
  end.

Fixpoint env_find (vars : list bytes) (name : bytes) : option (option (nat * nat)) :=
  match vars with
  | [] => Some None
  | var :: vars' =>
      r ← env_match var name;
      match r with
      | Some o => Some (Some (0%nat, o))
      | None => r ← env_find vars' name; Some (match r with Some (i, o) => Some (S i, o) | None => None end)
      end
  end.

Definition in_use (e : env) : list bytes := take (Z.to_nat (env_count e)) (env_vars e).

(** The value, as the bytes from the pointer on *)
Definition getenv (e : env) (name : bytes) : option (option bytes) :=
  r ← env_find (in_use e) name;
  match r with
  | None => Some None
  | Some (i, o) => var ← env_vars e !! i; Some (Some (drop o var))
  end.

(** [snprintf(var, MAX_ENV_VAR_SIZE, "%s=%s", name, value)]: four steps of the format *)
Definition format_var (var name value : bytes) : outcome bytes :=
  '(var, _) ← vsnprintf 4 var MAX_ENV_VAR_SIZE [37; 115; 61; 37; 115; 0] [ArgStr name; ArgStr value]; Ret var.

Definition setenv (e : env) (name value : option bytes) (overwrite : bool) : outcome (env * Z) :=
  match name, value with
  | Some name, Some value =>
      ln ← need (strlen name);
      lv ← need (strlen value);
      if MAX_ENV_VAR_SIZE <=? ln + lv + 1 then Ret (e, -1)
      else
        r ← need (env_find (in_use e) name);
        match r with
        | Some (i, _) =>
            if negb overwrite then Ret (e, 0)
            else
              var ← need (env_vars e !! i);
              var ← format_var var name value;
              Ret (Env (<[i := var]> (env_vars e)) (env_count e), 0)
        | None =>
            if env_count e <? MAX_ENV_VARS then
              var ← need (getZ (env_vars e) (env_count e));
              var ← format_var var name value;
              vars ← need (setZ (env_vars e) (env_count e) var);
              Ret (Env vars (env_count e + 1), 0)
            else Ret (e, -1)
        end
  | _, _ => Ret (e, -1)
  end.

(** The loop that moves the variables from [j + 1] down; [n] are left. *)
Fixpoint shift_vars (n : nat) (vars : list bytes) (j : nat) : option (list bytes) :=
  match n with
  | O => Some vars
  | S n' =>
      d ← vars !! j;
      s ← vars !! S j;
      d ← strcpy d s;
      shift_vars n' (<[j := d]> vars) (S j)
  end.

Definition unsetenv (e : env) (name : bytes) : option (env * Z) :=
  r ← env_find (in_use e) name;
  match r with
  | None => Some (e, -1)
  | Some (i, _) =>
      vars ← shift_vars (Z.to_nat (env_count e - 1) - i) (env_vars e) i;
      Some (Env vars (env_count e - 1), 0)
  end.

(** The string is cut at its first [=] for the call and restored after it. *)
Definition putenv (e : env) (string : bytes) : outcome (env * Z) :=
  eq ← need (strchr string 61);
  match eq with
  | None => Ret (e, -1)
  | Some k => setenv e (Some (take k string ++ [0])) (Some (drop (S k) string)) true
  end.

Definition clearenv (e : env) : env * Z := (Env (env_vars e) 0, 0).

(** ** Moving memory *)
Lemma copy_down_spec n : forall m d s x, s < d ->
  copy_down n m d s x = if (d <=? x) && (x <? d + Z.of_nat n) then m (s + (x - d)) else m x.
Proof.
  induction n as [|n IH]; intros m d s x Hd; cbn [copy_down].
  - destruct (Z.leb_spec d x), (Z.ltb_spec x (d + Z.of_nat 0)); cbn; try done. lia.
  - rewrite IH by done. unfold wr. destruct (Z.leb_spec d x) as [H1|H1]; cbn [andb].
    + destruct (Z.ltb_spec x (d + Z.of_nat n)) as [H2|H2].
      * rewrite (proj2 (Z.eqb_neq _ _)), (proj2 (Z.ltb_lt _ _)) by lia. done.
      * destruct (Z.eqb_spec x (d + Z.of_nat n)) as [->|H3].
        -- rewrite (proj2 (Z.ltb_lt _ _)) by lia. f_equal. lia.
        -- by rewrite (proj2 (Z.ltb_ge _ _)) by lia.
    + by rewrite (proj2 (Z.eqb_neq _ _)) by lia.
Qed.

Lemma copy_up_spec k : forall i m d s x, d <= s \/ s + i + Z.of_nat k <= d + i ->
  copy_up k i m d s x = if (d + i <=? x) && (x <? d + i + Z.of_nat k) then m (s + (x - d)) else m x.
Proof.
  induction k as [|k IH]; intros i m d s x Hd; cbn [copy_up].
  - destruct (Z.leb_spec (d + i) x), (Z.ltb_spec x (d + i + Z.of_nat 0)); cbn; try done. lia.
  - rewrite IH by lia. unfold wr. replace (d + i + Z.of_nat (S k)) with (d + (i + 1) + Z.of_nat k) by lia.
    destruct (Z.eqb_spec x (d + i)) as [->|Hx].
    + rewrite (proj2 (Z.leb_gt _ _)), (proj2 (Z.leb_le _ _)), (proj2 (Z.ltb_lt _ _)) by lia. cbn. f_equal. lia.
    + destruct (Z.leb_spec (d + (i + 1)) x) as [H1|H1]; cbn [andb].
      * rewrite (proj2 (Z.leb_le _ _)) by lia. cbn [andb]. destruct (Z.ltb_spec x (d + (i + 1) + Z.of_nat k)); [|done].
        by rewrite (proj2 (Z.eqb_neq _ _)) by lia.
      * by rewrite (proj2 (Z.leb_gt _ _)) by lia.
Qed.

(** C31: moving overlapping blocks.  Wherever the blocks lie, [memmove] leaves in the destination the bytes the source had
    before the call, and changes nothing else. *)
Theorem memmove_correct m dest src n x :
  memmove m dest src n x = if (dest <=? x) && (x <? dest + Z.of_nat (Z.to_nat n)) then m (src + (x - dest)) else m x.
Proof.
  unfold memmove. destruct (Z.ltb_spec src dest); [by apply copy_down_spec|].
  rewrite copy_up_spec by lia. by rewrite Z.add_0_r.
Qed.

(** ** Searching *)
(** The elements are in the order [compar] expects for [key]: first those the key is greater than, then those it
    equals, then those it is less than. *)
Definition ordered_for {A} (compar : A -> A -> Z) (key : A) (base : list A) : Prop :=
  forall i j x y, (i < j)%nat -> base !! i = Some x -> base !! j = Some y ->
    (compar key x < 0 -> compar key y < 0) /\ (compar key x <= 0 -> compar key y <= 0).

Lemma bsearch_loop_spec {A} (compar : A -> A -> Z) key base fuel : forall low high,
  ordered_for compar key base -> 0 <= low <= high -> high <= lenZ base -> lenZ base < 2 ^ 62 ->
  (Z.to_nat (high - low) <= fuel)%nat ->
  (forall i x, base !! i = Some x -> compar key x = 0 -> low <= Z.of_nat i < high) ->
  exists r, bsearch_loop fuel compar key base low high = Ret r /\
    match r with
    | Some k => exists x, getZ base k = Some x /\ compar key x = 0
    | None => forall i x, base !! i = Some x -> compar key x <> 0
    end.
Proof.
  change (2 ^ 62) with 4611686018427387904. induction fuel as [|fuel IH]; intros low high Ho Hlh Hh Hl Hf Hin; cbn [bsearch_loop].
  - assert (high = low) as -> by lia. rewrite Z.ltb_irrefl. eexists. split; [done|]. intros i x Hx Hc. specialize (Hin i x Hx Hc). lia.
  - destruct (Z.ltb_spec low high) as [Hlt|Hge]; cbn [negb].
    2: { eexists. split; [done|]. intros i x Hx Hc. specialize (Hin i x Hx Hc). lia. }
    rewrite u64_id by (red; lia). set (mid := (low + high) / 2). assert (low <= mid < high) as Hmid by (subst mid; dlia).
    destruct (getZ_is_Some base mid) as [e He]; [lia|]. rewrite He. cbn [need mbind outcome_bind].
    apply getZ_Some in He as [_ He]. destruct (Z.eqb_spec (compar key e) 0) as [E|E].
    { eexists. split; [done|]. exists e. split; [apply getZ_Some; split; [lia|done]|done]. }
    destruct (Z.ltb_spec (compar key e) 0) as [E1|E1].
    + apply IH; try done; try lia. intros i x Hx Hc. specialize (Hin i x Hx Hc).
      destruct (decide (Z.to_nat mid < i)%nat) as [Hi|Hi].
      * destruct (Ho _ _ _ _ Hi He Hx) as [Hneg _]. specialize (Hneg E1). lia.
      * assert (i <> Z.to_nat mid) by (intros ->; congruence). lia.
    + rewrite u64_id by (red; lia). apply IH; try done; try lia. intros i x Hx Hc. specialize (Hin i x Hx Hc).
      destruct (decide (i < Z.to_nat mid)%nat) as [Hi|Hi].
      * destruct (Ho _ _ _ _ Hi Hx He) as [_ Hle]. lia.
      * assert (i <> Z.to_nat mid) by (intros ->; congruence). lia.
Qed.

(** binary search.  In an array ordered for the key, [bsearch] ends after at most as many steps as there are elements;
    it returns the position of an element equal to the key, or [NULL] exactly when there is none. *)
Theorem bsearch_correct {A} (compar : A -> A -> Z) key base fuel :
  ordered_for compar key base -> lenZ base < 2 ^ 62 -> (length base <= fuel)%nat ->
  exists r, bsearch fuel compar key base (lenZ base) = Ret r /\
    match r with
    | Some k => exists x, getZ base k = Some x /\ compar key x = 0
    | None => forall i x, base !! i = Some x -> compar key x <> 0
    end.
Proof.
  intros Ho Hl Hf. apply bsearch_loop_spec; [done|unfold lenZ in *; lia..|].
  intros i x Hx _. apply lookup_lt_Some in Hx. unfold lenZ. lia.
Qed.

(** *** Substrings *)
Lemma match_at_spec h : forall n rest rest', nul_free h -> nul_free n ->
  match_at Z.eqb (h ++ 0 :: rest) (n ++ 0 :: rest') = Some (bool_decide (n `prefix_of` h)).
Proof.
  induction h as [|x h IH]; intros [|y n] rest rest' Hh Hn; cbn [app match_at].
  - rewrite bool_decide_true by apply prefix_nil. done.
  - apply list.Forall_cons in Hn as [Hy _]. cbn. rewrite (proj2 (Z.eqb_neq y 0)), bool_decide_false by (done || apply prefix_nil_not). done.
  - rewrite bool_decide_true by apply prefix_nil. by rewrite andb_false_r.
  - apply list.Forall_cons in Hh as [Hx Hh]. apply list.Forall_cons in Hn as [Hy Hn].
    rewrite (proj2 (Z.eqb_neq x 0)), (proj2 (Z.eqb_neq y 0)) by done. cbn [negb andb].
    destruct (Z.eqb_spec x y) as [->|Hne].
    + rewrite IH by done. f_equal. apply bool_decide_ext. split; [apply prefix_cons|apply prefix_cons_inv_2].
    + rewrite bool_decide_false; [done|]. intros Hp. by apply prefix_cons_inv_1 in Hp.
Qed.

(** [strstr] finds the first occurrence.  For strings, it returns the least offset at which the needle is a
    prefix of the rest of the haystack, and [NULL] exactly when there is none. *)
Theorem strstr_correct h n rest rest' :
  nul_free h -> nul_free n ->
  exists r, strstr (h ++ 0 :: rest) (n ++ 0 :: rest') = Some r /\
    match r with
    | Some k => n `prefix_of` drop k h /\ forall j, (j < k)%nat -> ~ n `prefix_of` drop j h
    | None => n <> [] /\ forall j, (j <= length h)%nat -> ~ n `prefix_of` drop j h
    end.
Proof.
  intros Hh Hn. unfold strstr. destruct n as [|c n].
  { eexists. split; [done|]. cbn. split; [apply prefix_nil|]. lia. }
  cbn [app getZ]. change (getZ (c :: n ++ 0 :: rest') 0) with (Some c). cbn [mbind option_bind].
  pose proof Hn as [Hc _]%list.Forall_cons. rewrite (proj2 (Z.eqb_neq c 0)) by done. clear Hc.
  pose proof (fun h rest Hh => match_at_spec h (c :: n) rest rest' Hh Hn) as Hm. cbn [app] in Hm.
  set (nd := c :: n ++ 0 :: rest') in *. clearbody nd. revert Hh. induction h as [|x h IH]; intros Hh; cbn [app search].
  { eexists. split; [done|]. split; [done|]. intros j _. rewrite drop_nil. apply prefix_nil_not. }
  pose proof Hh as [Hx Hh']%list.Forall_cons. rewrite (proj2 (Z.eqb_neq x 0)) by done.
  change (x :: h ++ 0 :: rest) with ((x :: h) ++ 0 :: rest). rewrite Hm by done. cbn [mbind option_bind].
  destruct (bool_decide_reflect (c :: n `prefix_of` x :: h)) as [Hp|Hp].
  - eexists. split; [done|]. cbn [drop]. split; [done|]. lia.
  - destruct (IH Hh') as (r & -> & Hr). cbn [mbind option_bind]. eexists. split; [done|]. destruct r as [k|]; cbn [option_map].
    + destruct Hr as [Hr1 Hr2]. split; [done|]. intros [|j] Hj; [done|]. apply Hr2. lia.
    + split; [done|]. intros [|j] Hj; [done|]. cbn in Hj. apply (proj2 Hr). lia.
Qed.

(** ** Reading numbers *)
(** The characters [cs] are the digits [ds] in [base]. *)
Definition spells (base : Z) (cs ds : list Z) : Prop :=
  Forall2 (fun c d => digit_of c = Some d /\ 0 <= d < base) cs ds.

(** A character that ends a number *)
Definition ends (base c : Z) : Prop := forall d, digit_of c = Some d -> base <= d.

Lemma digit_of_nonzero c d : digit_of c = Some d -> c <> 0.
Proof. by intros H ->. Qed.

Lemma foldl_mono base ds : forall a, 0 < base -> 0 <= a -> Forall (fun d => 0 <= d) ds -> a <= foldl (fun a d => a * base + d) a ds.
Proof.
  induction ds as [|d ds IH]; intros a Hb Ha Hd; cbn; [lia|]. apply list.Forall_cons in Hd as [Hd Hds].
  specialize (IH (a * base + d) Hb ltac:(nia) Hds). nia.
Qed.

Lemma digit_loop_spec base cs ds : forall a t rest, spells base cs ds -> ends base t -> 1 < base -> 0 <= a ->
  foldl (fun a d => a * base + d) a ds < 2 ^ 64 ->
  digit_loop (cs ++ t :: rest) base a = Some (foldl (fun a d => a * base + d) a ds, length cs).
Proof.
  intros a t rest Hs He Hb. revert a. induction Hs as [|c d cs ds [Hc Hd] Hs IH]; intros a Ha Hlt; cbn [app digit_loop foldl length].
  - destruct (t =? 0); [done|]. destruct (digit_of t) as [d|] eqn:E; [|done]. rewrite (proj2 (Z.leb_le _ _)) by by apply He. done.
  - rewrite (proj2 (Z.eqb_neq c 0)) by by eapply digit_of_nonzero. rewrite Hc, (proj2 (Z.leb_gt _ _)) by lia. cbn [foldl] in Hlt.
    assert (Forall (fun d => 0 <= d) ds) as Hds by (clear -Hs; induction Hs as [|? ? ? ? [_ ?]]; constructor; [lia|done]).
    pose proof (foldl_mono base ds (a * base + d) ltac:(lia) ltac:(nia) Hds). rewrite u64_id.
    + rewrite IH by (done || nia). done.
    + change (2 ^ 64) with 18446744073709551616 in Hlt. red. nia.
Qed.

Lemma skip_space_spec sp c rest : Forall (fun c => isspace c = true) sp -> isspace c = false ->
  skip_space (sp ++ c :: rest) = Some (length sp).
Proof.
  intros Hsp Hc. induction Hsp as [|x sp Hx _ IH]; cbn [app skip_space length]; [by rewrite Hc|]. by rewrite Hx, IH.
Qed.

Lemma digit_not_space c d : digit_of c = Some d -> isspace c = false /\ c <> 45 /\ c <> 43.
Proof. unfold digit_of, isspace. intros H. repeat case_match; simplify_eq; lia. Qed.

(** The characters of a sign and its value *)
Definition sign_of (neg : option bool) : bytes * Z :=
  match neg with None => ([], 1) | Some true => ([45], -1) | Some false => ([43], 1) end.

Lemma i64_id z : -9223372036854775808 <= z < 9223372036854775808 -> i64 z = z.
Proof. unfold i64. intros Hz. cbv zeta. case_match; dlia. Qed.

(** The digits [cs] up to [t] are read in base [b] after the prefix [px] when the caller asks for [base]: with 0 or 16
    the prefix may be 0x or 0X; without it 0 means 10, for a number that does not start with a needless 0, and a number
    0 is not followed by an x. *)
Definition prefixed (base b : Z) (px cs : bytes) (t : Z) : Prop :=
  (px = [] /\ b = (if base =? 0 then 10 else base) /\ (base = 0 -> head cs = Some 48 -> cs = [48]) /\
    (base = 0 \/ base = 16 -> ~ (cs = [48] /\ (t = 120 \/ t = 88)))) \/
  ((base = 0 \/ base = 16) /\ b = 16 /\ (px = [48; 120] \/ px = [48; 88])).

Lemma prefix_base_spec base b px cs ds t rest :
  prefixed base b px cs t -> 2 <= b <= 36 -> spells b cs ds -> cs <> [] ->
  prefix_base (px ++ cs ++ t :: rest) base = Some (b, length px).
Proof.
  intros [(-> & -> & _ & Hx)|(Hb & -> & Hpx)] Hr Hs Hne; unfold prefix_base.
  - destruct (Z.eqb_spec base 0) as [Eb|Eb], (Z.eqb_spec base 16) as [Eb'|Eb']; cbn [orb]; try done; try lia.
    all: specialize (Hx ltac:(lia)); destruct cs as [|c [|c1 cs]]; [done| |]; cbn [app].
    all: inversion Hs as [|? ? ? ? [Hc Hd] Hs']; subst.
    all: change (getZ (c :: ?l) 0) with (Some c); cbn [mbind option_bind];
      destruct (Z.eqb_spec c 48) as [->|]; cbn [mbind option_bind]; [|done].
    all: match goal with |- context [getZ (48 :: ?x :: ?l) 1] => change (getZ (48 :: x :: l) 1) with (Some x) end; cbn [mbind option_bind].
    1,3: destruct (Z.eqb_spec t 120), (Z.eqb_spec t 88); cbn [orb]; try done; exfalso; apply Hx; auto.
    all: inversion Hs' as [|? d1 ? ? [Hc1 Hd1] _]; subst;
      destruct (Z.eqb_spec c1 120) as [->|]; [vm_compute in Hc1; injection Hc1; lia|];
      destruct (Z.eqb_spec c1 88) as [->|]; [vm_compute in Hc1; injection Hc1; lia|]; done.
  - rewrite (proj2 (orb_true_iff _ _)) by (rewrite !Z.eqb_eq; exact Hb). by destruct Hpx as [-> | ->].
Qed.

Lemma value_nonneg base cs ds : 0 < base -> spells base cs ds -> 0 <= value base ds.
Proof.
  intros Hb Hs. apply foldl_mono; [done|done|]. induction Hs as [|? ? ? ? [_ ?]]; constructor; [lia|done].
Qed.

(** C32: reading a number.  White space, an optional sign, for base 0 or 16 an optional 0x, and the digits of a number below
    2^63 are read by [strtol] as that number, and [endptr] is left at the character after the last digit.  Base 0 without 0x is
    decimal.  Left out: in base 0 a number with a leading 0, which the code reads as decimal and the standard as octal; in base 0
    or 16 a 0 followed by an x without digits; a base outside 0 and 2..36, a text without digits, and numbers that do not fit. *)
Theorem strtol_correct base b sp neg px cs ds t rest :
  prefixed base b px cs t -> 2 <= b <= 36 -> Forall (fun c => isspace c = true) sp -> spells b cs ds -> cs <> [] -> ends b t ->
  value b ds < 2 ^ 63 ->
  strtol (sp ++ (sign_of neg).1 ++ px ++ cs ++ t :: rest) base =
    Some ((sign_of neg).2 * value b ds, (length sp + length (sign_of neg).1 + length px + length cs)%nat).
Proof.
  intros Hpx Hb Hsp Hs Hne Ht Hv. change (2 ^ 63) with 9223372036854775808 in Hv.
  pose proof (value_nonneg b cs ds ltac:(lia) Hs) as Hv0.
  pose proof (prefix_base_spec base b px cs ds t rest Hpx Hb Hs Hne) as Hp.
  set (tail := px ++ cs ++ t :: rest) in *. assert (exists c l, tail = c :: l /\ isspace c = false /\ c <> 45 /\ c <> 43) as (c & l & El & Hcs & Hc45 & Hc43).
  { destruct Hpx as [(-> & _)|(_ & _ & [-> | ->])]; [|by eexists _, _..]. destruct cs as [|c cs]; [done|]. inversion Hs as [|? d ? ds' [Hc Hd] Hs']; subst.
    do 2 eexists. split; [done|]. by eapply digit_not_space. }
  assert (exists x y, (sign_of neg).1 ++ tail = x :: y /\ isspace x = false /\
    (if x =? 45 then (-1, S (length sp)) else if x =? 43 then (1, S (length sp)) else (1, length sp)) =
      ((sign_of neg).2, (length sp + length (sign_of neg).1)%nat)) as (x & y & Exy & Hx & Esign).
  { rewrite El. destruct neg as [[|]|]; cbn [sign_of fst snd app length]; do 2 eexists; (split; [done|]); (split; [done|]).
    - cbn. f_equal. lia.
    - cbn. f_equal. lia.
    - rewrite (proj2 (Z.eqb_neq c 45)), (proj2 (Z.eqb_neq c 43)) by done. f_equal. lia. }
  unfold strtol. replace (sp ++ (sign_of neg).1 ++ tail) with (sp ++ x :: y) by by rewrite Exy.
  rewrite skip_space_spec by done. cbn [mbind option_bind]. rewrite list_lookup_middle by done. cbn [mbind option_bind]. rewrite Esign.
  assert (drop (length sp + length (sign_of neg).1) (sp ++ x :: y) = tail) as Edrop.
  { rewrite <- Exy, app_assoc, drop_app_length' by (rewrite length_app; done). done. }
  rewrite Edrop, Hp. cbn [mbind option_bind]. rewrite (proj2 (Z.ltb_ge b 2)), (proj2 (Z.ltb_ge 36 b)) by lia. cbn [orb].
  rewrite <- drop_drop, Edrop. subst tail. rewrite drop_app_length.
  rewrite (digit_loop_spec b cs ds 0) by (done || lia || (unfold value in Hv; lia)). cbn [mbind option_bind].
  fold (value b ds). rewrite !i64_id; [done|lia|]. rewrite i64_id by lia. destruct neg as [[|]|]; cbn [sign_of snd]; lia.
Qed.

(** ** Formatted output *)
(** [%d] never ends.  Formatting an integer formats it with the same directive again: however many steps are allowed,
    [vsprintf] has not returned. *)
Theorem vsprintf_d_diverges n p args : forall fuel, vsprintf fuel (37 :: 100 :: p) (ArgInt n :: args) = More.
Proof.
  intros fuel. revert p args. induction fuel as [|fuel IH]; intros p args; [done|]. cbn. by rewrite IH.
Qed.

(** ** The environment *)
(** The buffer holds the variable [k] with the value [v]. *)
Definition holds (var : bytes) (kv : bytes * bytes) : Prop :=
  lenZ var = 256 /\ (exists rest, var = kv.1 ++ 61 :: kv.2 ++ 0 :: rest) /\
  nul_free kv.1 /\ Forall (fun c => c <> 61) kv.1 /\ nul_free kv.2.

Record env_ok (e : env) (kvs : list (bytes * bytes)) : Prop := {
  eo_count : env_count e = lenZ kvs;
  eo_size : lenZ (env_vars e) = 64;
  eo_room : Forall (fun var => lenZ var = 256) (env_vars e);
  eo_vars : Forall2 holds (in_use e) kvs
}.

Lemma strchr_spec k c rest : nul_free k -> Forall (fun x => x <> c) k -> c <> 0 -> strchr (k ++ c :: rest) c = Some (Some (length k)).
Proof.
  intros Hk Hc H0. induction k as [|x k IH]; cbn [app strchr length].
  - rewrite Z.eqb_refl, andb_false_r. done.
  - apply list.Forall_cons in Hk as [Hx Hk]. apply list.Forall_cons in Hc as [Hxc Hc].
    rewrite (proj2 (Z.eqb_neq x 0)), (proj2 (Z.eqb_neq x c)) by done. cbn [negb andb]. by rewrite IH.
Qed.

Lemma strncmp_prefix k : forall n rest rest', nul_free k -> nul_free n ->
  exists z, strncmp (k ++ rest) (n ++ 0 :: rest') (length k) = Some z /\ (z = 0 <-> k `prefix_of` n).
Proof.
  induction k as [|x k IH]; intros [|y n] rest rest' Hk Hn; cbn [app strncmp length].
  - exists 0. split; [done|]. split; [|done]. intros _. apply prefix_nil.
  - exists 0. split; [done|]. split; [|done]. intros _. apply prefix_nil.
  - apply list.Forall_cons in Hk as [Hx Hk]. rewrite (proj2 (Z.eqb_neq x 0)) by done. cbn [negb andb].
    eexists. split; [done|]. split; [lia|]. by intros ?%prefix_nil_not.
  - apply list.Forall_cons in Hk as [Hx Hk]. apply list.Forall_cons in Hn as [Hy Hn]. rewrite (proj2 (Z.eqb_neq x 0)) by done. cbn [negb andb].
    destruct (Z.eqb_spec x y) as [->|Hne].
    + destruct (IH n rest rest' Hk Hn) as (z & -> & Hz). exists z. split; [done|]. rewrite Hz.
      split; [apply prefix_cons|apply prefix_cons_inv_2].
    + eexists. split; [done|]. split; [lia|]. by intros ?%prefix_cons_inv_1.
Qed.

Lemma env_match_spec var k v n rest : holds var (k, v) -> nul_free n ->
  env_match var (n ++ 0 :: rest) = Some (if decide (k `prefix_of` n) then Some (S (length k)) else None).
Proof.
  intros (_ & [r ->] & Hk & Hk61 & _) Hn. unfold env_match. cbn [fst snd] in *. rewrite strchr_spec by done. cbn [mbind option_bind].
  destruct (strncmp_prefix k n (61 :: v ++ 0 :: r) rest Hk Hn) as (z & -> & Hz). cbn [mbind option_bind].
  destruct (Z.eqb_spec z 0) as [E|E]; [rewrite decide_True by tauto|rewrite decide_False by tauto]; done.
Qed.

(** The search finds the first variable whose name is a prefix of the name asked for. *)
Lemma env_find_spec vars kvs n rest : Forall2 holds vars kvs -> nul_free n ->
  exists r, env_find vars (n ++ 0 :: rest) = Some r /\
    match r with
    | Some (i, o) => exists kv, kvs !! i = Some kv /\ o = S (length kv.1) /\ kv.1 `prefix_of` n /\
        forall j kv', (j < i)%nat -> kvs !! j = Some kv' -> ~ kv'.1 `prefix_of` n
    | None => forall j kv', kvs !! j = Some kv' -> ~ kv'.1 `prefix_of` n
    end.
Proof.
  intros Hv Hn. induction Hv as [|var [k v] vars kvs Hh _ IH]; cbn [env_find]; [by exists None|].
  rewrite (env_match_spec var k v n rest Hh Hn). cbn [mbind option_bind]. destruct (decide (k `prefix_of` n)) as [Hp|Hp].
  - eexists. split; [done|]. exists (k, v). split; [done|]. split; [done|]. split; [done|]. lia.
  - destruct IH as (r & -> & Hr). cbn [mbind option_bind]. eexists. split; [done|]. destruct r as [[i o]|].
    + destruct Hr as (kv & H1 & H2 & H3 & H4). exists kv. split; [done|]. split; [done|]. split; [done|].
      intros [|j] kv' Hj Hl; [by injection Hl as <-|]. eapply H4; [|exact Hl]. lia.
    + intros [|j] kv' Hl; [by injection Hl as <-|]. by eapply Hr.
Qed.

Lemma cstr_spec l rest : nul_free l -> cstr (l ++ 0 :: rest) = Some l.
Proof.
  intros Hl. induction l as [|x l IH]; cbn [app cstr]; [done|]. apply list.Forall_cons in Hl as [Hx Hl].
  by rewrite (proj2 (Z.eqb_neq x 0)), IH by done.
Qed.

Lemma format_var_spec var n v rest rest' : lenZ var = 256 -> nul_free n -> Forall (fun c => c <> 61) n -> nul_free v -> lenZ n + lenZ v + 1 < 256 ->
  exists var', format_var var (n ++ 0 :: rest) (v ++ 0 :: rest') = Ret var' /\ holds var' (n, v).
Proof.
  intros Hvar Hn H61 Hv Hl. unfold format_var, vsnprintf, MAX_ENV_VAR_SIZE.
  assert (vsprintf 4 [37; 115; 61; 37; 115; 0] [ArgStr (n ++ 0 :: rest); ArgStr (v ++ 0 :: rest')] = Ret (n ++ 61 :: v)) as ->.
  { cbn. rewrite !cstr_spec by done. cbn. by rewrite app_nil_r. }
  cbn [mbind outcome_bind]. assert (lenZ ((n ++ 61 :: v) ++ [0]) = lenZ n + lenZ v + 2) as Hlen.
  { rewrite !lenZ_app. unfold lenZ. cbn [length]. lia. }
  rewrite splice_Some by lia. cbn [need mbind outcome_bind].
  assert (lenZ (n ++ 61 :: v) = lenZ n + lenZ v + 1) as Hlen1 by (rewrite lenZ_app; unfold lenZ; cbn [length]; lia).
  rewrite Hlen1. pose proof (lenZ_nonneg n). pose proof (lenZ_nonneg v). rewrite i32_id by lia. change (i32 256) with 256.
  rewrite (proj2 (Z.leb_gt 256 _)), andb_false_r by lia. cbn [need mbind outcome_bind]. eexists. split; [done|].
  split; [|split; [|done]].
  - change (Z.to_nat 0) with 0%nat. rewrite take_0, app_nil_l, lenZ_app, Hlen. unfold lenZ in *. rewrite length_drop. lia.
  - change (Z.to_nat 0) with 0%nat. rewrite take_0, app_nil_l. cbn [fst snd]. eexists. rewrite <- !app_assoc. cbn [app]. done.
Qed.

Lemma getenv_hit e kvs n rest i kv : env_ok e kvs -> nul_free n -> kvs !! i = Some kv -> kv.1 `prefix_of` n ->
  (forall j kv', (j < i)%nat -> kvs !! j = Some kv' -> ~ kv'.1 `prefix_of` n) ->
  exists rest', getenv e (n ++ 0 :: rest) = Some (Some (kv.2 ++ 0 :: rest')).
Proof.
  intros [Hc Hs Hr Hv] Hn Hi Hp Hfirst. unfold getenv.
  destruct (env_find_spec (in_use e) kvs n rest Hv Hn) as (r & -> & Hr'). cbn [mbind option_bind]. destruct r as [[i' o]|].
  - destruct Hr' as (kv' & Hi' & -> & Hp' & Hfirst').
    assert (i' = i) as ->.
    { destruct (Nat.lt_trichotomy i i') as [Hlt|[->|Hlt]]; [|done|].
      - by destruct (Hfirst' i kv Hlt Hi).
      - by destruct (Hfirst i' kv' Hlt Hi'). }
    rewrite Hi in Hi'. injection Hi' as <-.
    destruct (Forall2_lookup_r _ _ _ _ _ Hv Hi) as (var & Hvar & _ & [rest' Evar] & _).
    unfold in_use in Hvar. apply lookup_take_Some in Hvar as [Hvar _]. rewrite Hvar. cbn [mbind option_bind]. exists rest'. do 2 f_equal.
    rewrite Evar. replace (S (length kv.1)) with (length (kv.1 ++ [61])) by (rewrite length_app; cbn; lia).
    replace (kv.1 ++ 61 :: kv.2 ++ 0 :: rest') with ((kv.1 ++ [61]) ++ kv.2 ++ 0 :: rest') by by rewrite <- app_assoc.
    by rewrite drop_app_length.
  - by destruct (Hr' i kv Hi).
Qed.

Lemma elem_of_insert_other {A} (l : list A) i x y z : l !! i = Some x -> z <> x -> z <> y -> z ∈ <[i := y]> l <-> z ∈ l.
Proof.
  intros Hi Hx Hy. rewrite !list_elem_of_lookup. split; intros [j Hj].
  - destruct (decide (i = j)) as [<-|Hne].
    + rewrite list_lookup_insert_eq in Hj by by eapply lookup_lt_Some. congruence.
    + rewrite list_lookup_insert_ne in Hj by done. eauto.
  - exists j. rewrite list_lookup_insert_ne; [done|]. congruence.
Qed.

Lemma env_ok_replace e kvs i n v var : env_ok e kvs -> (i < length kvs)%nat -> holds var (n, v) ->
  env_ok (Env (<[i := var]> (env_vars e)) (env_count e)) (<[i := (n, v)]> kvs).
Proof.
  intros [Hc Hs Hr Hv] Hi Hh. split; cbn [env_count env_vars].
  - by rewrite lenZ_insert.
  - by rewrite lenZ_insert.
  - apply Forall_insert; [done|apply Hh].
  - unfold in_use. cbn [env_vars env_count]. rewrite take_insert_lt by (rewrite Hc; unfold lenZ; lia). by apply Forall2_insert.
Qed.

Lemma env_ok_add e kvs n v var : env_ok e kvs -> lenZ kvs < 64 -> holds var (n, v) ->
  env_ok (Env (<[length kvs := var]> (env_vars e)) (lenZ kvs + 1)) (kvs ++ [(n, v)]).
Proof.
  intros [Hc Hs Hr Hv] Hi Hh. unfold lenZ in *. split; cbn [env_count env_vars].
  - unfold lenZ. rewrite length_app. cbn. lia.
  - unfold lenZ. rewrite length_insert. lia.
  - apply Forall_insert; [done|apply Hh].
  - unfold in_use. cbn [env_vars env_count]. replace (Z.to_nat (Z.of_nat (length kvs) + 1)) with (S (length kvs)) by lia.
    rewrite (take_S_r _ _ var) by (apply list_lookup_insert_eq; lia). apply Forall2_app; [|constructor; [done|constructor]].
    rewrite take_insert_ge by lia. unfold in_use in Hv. by rewrite Hc, Nat2Z.id in Hv.
Qed.

(** C33: setting and getting.  In an environment where no name is a proper prefix of [n], [setenv] of [n] replaces its
    value or adds it, keeps the other variables and the environment well formed, and [getenv] of [n]
    then gives the new value. *)
Theorem setenv_getenv e kvs n v rest rest' :
  env_ok e kvs -> nul_free n -> Forall (fun c => c <> 61) n -> nul_free v -> lenZ n + lenZ v + 1 < 256 -> lenZ kvs < 64 ->
  (forall kv, kv ∈ kvs -> kv.1 `prefix_of` n -> kv.1 = n) ->
  exists e' kvs', setenv e (Some (n ++ 0 :: rest)) (Some (v ++ 0 :: rest')) true = Ret (e', 0) /\ env_ok e' kvs' /\
    (forall kv, kv.1 <> n -> kv ∈ kvs' <-> kv ∈ kvs) /\
    (forall r, exists r', getenv e' (n ++ 0 :: r) = Some (Some (v ++ 0 :: r'))).
Proof.
  intros Hok Hn H61 Hv Hl Hroom Hpre. pose proof Hok as [Hc Hs Hr Hvars]. unfold setenv.
  rewrite !strlen_spec by done. cbn [need mbind outcome_bind]. unfold MAX_ENV_VAR_SIZE, MAX_ENV_VARS. rewrite (proj2 (Z.leb_gt _ _)) by lia.
  destruct (env_find_spec (in_use e) kvs n rest Hvars Hn) as (r & -> & Hfind). cbn [need mbind outcome_bind].
  destruct r as [[i o]|].
  - destruct Hfind as (kv & Hi & _ & Hp & Hfirst). pose proof (Hpre kv ltac:(by eapply list_elem_of_lookup_2) Hp) as En.
    pose proof (lookup_lt_Some _ _ _ Hi) as Hilt.
    destruct (Forall2_lookup_r _ _ _ _ _ Hvars Hi) as (var & Hvar & Hvl & _). unfold in_use in Hvar. apply lookup_take_Some in Hvar as [Hvar _].
    rewrite Hvar. cbn [negb need mbind outcome_bind].
    destruct (format_var_spec var n v rest rest' Hvl Hn H61 Hv Hl) as (var' & -> & Hh'). cbn [mbind outcome_bind].
    pose proof (env_ok_replace e kvs i n v var' Hok Hilt Hh') as Hok'. do 2 eexists. split; [done|]. split; [exact Hok'|]. split.
    + intros kv' Hne. apply (elem_of_insert_other _ _ kv); [done|congruence|]. by intros ->.
    + intros r. apply (getenv_hit _ _ n r i (n, v) Hok' Hn); [by apply list_lookup_insert_eq|done|].
      intros j kv' Hj Hkv'. rewrite list_lookup_insert_ne in Hkv' by lia. by eapply Hfirst.
  - rewrite Hc, (proj2 (Z.ltb_lt _ _)) by lia. pose proof (lenZ_nonneg kvs).
    destruct (getZ_is_Some (env_vars e) (lenZ kvs)) as [var Hvar]; [lia|]. rewrite Hvar. cbn [need mbind outcome_bind].
    apply getZ_Some in Hvar as [_ Hvar]. pose proof (proj1 (list.Forall_forall _ _) Hr var ltac:(by eapply list_elem_of_lookup_2)) as Hvl.
    destruct (format_var_spec var n v rest rest' Hvl Hn H61 Hv Hl) as (var' & -> & Hh'). cbn [mbind outcome_bind].
    rewrite setZ_Some by lia. cbn [need mbind outcome_bind]. unfold lenZ at 1. rewrite Nat2Z.id.
    pose proof (env_ok_add e kvs n v var' Hok Hroom Hh') as Hok'. do 2 eexists. split; [done|]. split; [exact Hok'|]. split.
    + intros kv' Hne. rewrite elem_of_app, list_elem_of_singleton. split; [|by left]. intros [?| ->]; done.
    + intros r. apply (getenv_hit _ _ n r (length kvs) (n, v) Hok' Hn); [by apply list_lookup_middle|done|].
      intros j kv' Hj Hkv'. rewrite lookup_app_l in Hkv' by done. by eapply Hfind.
Qed.

(** A name that extends the name of a variable finds that variable. *)
Lemma getenv_prefix e kvs k v n rest : env_ok e ((k, v) :: kvs) -> nul_free n -> k `prefix_of` n ->
  exists rest', getenv e (n ++ 0 :: rest) = Some (Some (v ++ 0 :: rest')).
Proof. intros He Hn Hp. apply (getenv_hit e _ n rest 0 (k, v) He Hn); [done|done|lia]. Qed.

(** ** The heap *)
(** The break is at [b], and everything from [heap_current] on is free. *)
Definition heap_at (h : heap) (b : Z) : Prop :=
  heap_start h = b /\ 0 < b /\ b + 8192 < 2 ^ 63 /\ b <= heap_current h <= b + 4096.

Lemma malloc_spec brk h b size : heap_at h b -> 0 <= size < 2 ^ 63 ->
  if heap_current h + 8 + size <=? b + 4096 then
    malloc brk h size = (Heap b (heap_current h + 8 + size) (poke (hmem h) (heap_current h) (le_bytes 8 size)), heap_current h + 8)
  else malloc brk h size = (h, 0).
Proof.
  intros (Hs & Hb & Hb2 & Hc) Hsz. change (2 ^ 63) with 9223372036854775808 in *.
  unfold malloc. rewrite Hs, (proj2 (Z.eqb_neq b 0)) by lia. rewrite Hs.
  rewrite (u64_id (size + 8)), (u64_id (b + 4096)), (u64_id (heap_current h + 8)) by (red; lia).
  destruct (Z.leb_spec (heap_current h + 8 + size) (b + 4096)).
  - rewrite u64_id by (red; lia). rewrite (proj2 (Z.ltb_ge _ _)) by lia. do 2 f_equal. lia.
  - rewrite u64_id by (red; lia). by rewrite (proj2 (Z.ltb_lt _ _)) by lia.
Qed.

(** reallocation.  When the heap has room, [realloc] of a block returns a new block of the size asked for that
    begins with the bytes of the old one, as many as both sizes allow; nothing below the old end of the heap changes.  When it has not, the
    result is [NULL] and nothing changes at all. *)
Theorem realloc_correct brk h b ptr old size :
  heap_at h b -> b + 8 <= ptr -> 0 <= old -> ptr + old <= heap_current h -> le_val (peek (hmem h) (ptr - 8) 8) = old -> 0 <= size < 2 ^ 63 ->
  if heap_current h + 8 + size <=? b + 4096 then
    exists h', realloc brk h ptr size = (h', heap_current h + 8) /\ heap_at h' b /\ heap_current h' = heap_current h + 8 + size /\
      le_val (peek (hmem h') (heap_current h) 8) = size /\
      (forall i, 0 <= i < Z.min old size -> hmem h' (heap_current h + 8 + i) = hmem h (ptr + i)) /\
      (forall x, x < heap_current h -> hmem h' x = hmem h x)
  else realloc brk h ptr size = (h, 0).
Proof.
  intros Hh Hp Ho Hpo Hold Hs. pose proof (malloc_spec brk h b size Hh Hs) as Hm. unfold realloc.
  destruct Hh as (Hst & Hb & Hb2 & Hc). rewrite (proj2 (Z.eqb_neq ptr 0)) by lia.
  change (2 ^ 63) with 9223372036854775808 in *.
  destruct (Z.leb_spec (heap_current h + 8 + size) (b + 4096)) as [Hr|Hr]; rewrite Hm; [|done].
  rewrite (proj2 (Z.eqb_neq (heap_current h + 8) 0)) by lia. cbn [negb]. rewrite Hold.
  replace (if old <? size then old else size) with (Z.min old size) by (destruct (Z.ltb_spec old size); lia).
  cbn [heap_start heap_current hmem free]. set (c := heap_current h) in *. set (m := poke (hmem h) c (le_bytes 8 size)).
  assert (forall x, x < c -> m x = hmem h x) as Hlow by (intros x Hx; apply poke_outside; lia).
  assert (forall x, copy_up (Z.to_nat (Z.min old size)) 0 m (c + 8) ptr x =
    if (c + 8 <=? x) && (x <? c + 8 + Z.min old size) then m (ptr + (x - (c + 8))) else m x) as Hcopy.
  { intros x. rewrite copy_up_spec by lia. by rewrite Z.add_0_r, Z2Nat.id by lia. }
  eexists. split; [reflexivity|]. unfold heap_at, free. cbn [heap_start heap_current hmem].
  change (2 ^ 63) with 9223372036854775808. split; [lia|]. split; [done|]. split; [|split].
  - rewrite (peek_ext m); [|intros x Hx; rewrite Hcopy, (proj2 (Z.leb_gt _ _)) by lia; done]. subst m.
    change 8%nat with (length (le_bytes 8 size)) at 2. rewrite peek_poke_same, le_val_bytes_mod. apply Z.mod_small.
    change (256 ^ Z.of_nat 8) with 18446744073709551616. lia.
  - intros i Hi. rewrite Hcopy, (proj2 (Z.leb_le _ _)), (proj2 (Z.ltb_lt _ _)) by lia. cbn [andb]. rewrite Hlow by lia. f_equal. lia.
  - intros x Hx. rewrite Hcopy, (proj2 (Z.leb_gt _ _)) by lia. by apply Hlow.
Qed.

(** A size that wraps around is accepted: the block returned starts after the new end of the heap. *)
Lemma malloc_wraps brk h b : heap_at h b -> heap_current h + 7 <= b + 4096 ->
  exists h', malloc brk h (2 ^ 64 - 1) = (h', heap_current h + 8) /\ heap_current h' = heap_current h + 7.
Proof.
  intros (Hs & Hb & Hb2 & Hc) Hr. change (2 ^ 63) with 9223372036854775808 in *.
  change (2 ^ 64) with 18446744073709551616. unfold malloc.
  rewrite Hs, (proj2 (Z.eqb_neq b 0)) by lia. rewrite Hs. change (u64 (18446744073709551616 - 1 + 8)) with 7.
  rewrite (u64_id (b + 4096)), (u64_id (heap_current h + 7)), (u64_id (heap_current h + 8)) by (red; lia).
  rewrite (proj2 (Z.ltb_ge _ _)) by lia. by eexists.
Qed.

(** ** Examples *)
Lemma bsearch_correct_witness :
  exists r, bsearch 5 (fun a b => a - b) 7 [1; 3; 7; 9; 12] (lenZ [1; 3; 7; 9; 12]) = Ret r /\
    match r with
    | Some k => exists x, getZ [1; 3; 7; 9; 12] k = Some x /\ 7 - x = 0
    | None => forall i x, [1; 3; 7; 9; 12] !! i = Some x -> 7 - x <> 0
    end.
Proof.
  apply (bsearch_correct (fun a b => a - b) 7 [1; 3; 7; 9; 12] 5); [|done|cbn; lia].
  assert (forall i j x y, (i < j)%nat -> [1; 3; 7; 9; 12] !! i = Some x -> [1; 3; 7; 9; 12] !! j = Some y -> x < y) as H.
  { intros i j x y Hij Hi Hj. destruct i as [|[|[|[|[|i]]]]], j as [|[|[|[|[|j]]]]]; simplify_eq/=; lia. }
  intros i j x y Hij Hi Hj. pose proof (H i j x y Hij Hi Hj). lia.
Defined.

Lemma strstr_correct_witness :
  exists r, strstr ([97; 98; 97; 98; 99] ++ 0 :: []) ([97; 98; 99] ++ 0 :: []) = Some r /\
    match r with
    | Some k => [97; 98; 99] `prefix_of` drop k [97; 98; 97; 98; 99] /\
        forall j, (j < k)%nat -> ~ [97; 98; 99] `prefix_of` drop j [97; 98; 97; 98; 99]
    | None => [97; 98; 99] <> [] /\ forall j, (j <= length [97; 98; 97; 98; 99])%nat -> ~ [97; 98; 99] `prefix_of` drop j [97; 98; 97; 98; 99]
    end.
Proof. apply strstr_correct; by repeat constructor. Defined.

Lemma strtol_correct_witness :
  strtol ([32; 9] ++ (sign_of (Some true)).1 ++ [48; 120] ++ [52; 98] ++ 44 :: [0]) 0 =
    Some ((sign_of (Some true)).2 * value 16 [4; 11],
      (length [32; 9] + length (sign_of (Some true)).1 + length [48; 120] + length [52; 98])%nat).
Proof.
  apply strtol_correct; [right; auto|lia|by repeat constructor| |done| |done].
  - repeat constructor; lia.
  - intros d Hd. done.
Defined.

(** "A=x" in the first of 64 buffers *)
Definition env0 : env := Env (([65; 61; 120] ++ replicate 253 0) :: replicate 63 (replicate 256 0)) 1.

Lemma env0_ok : env_ok env0 [([65], [120])].
Proof.
  split; [done|done| |].
  - constructor; [done|]. by apply Forall_replicate.
  - constructor; [|constructor]. split; [done|]. split; [by exists (replicate 252 0)|]. by repeat constructor.
Qed.

Lemma setenv_getenv_witness :
  exists e' kvs', setenv env0 (Some ([66; 67] ++ 0 :: [])) (Some ([49] ++ 0 :: [])) true = Ret (e', 0) /\ env_ok e' kvs' /\
    (forall kv, kv.1 <> [66; 67] -> kv ∈ kvs' <-> kv ∈ [([65], [120])]) /\
    (forall r, exists r', getenv e' ([66; 67] ++ 0 :: r) = Some (Some ([49] ++ 0 :: r'))).
Proof.
  apply (setenv_getenv env0 [([65], [120])] [66; 67] [49] [] [] env0_ok).
  - by repeat constructor.
  - by repeat constructor.
  - by repeat constructor.
  - done.
  - done.
  - intros kv ->%list_elem_of_singleton Hp. by apply prefix_cons_inv_1 in Hp.
Defined.

Definition heap0 : heap := Heap 4096 4116 (fun x => if x =? 4096 then 12 else if x =? 4104 then 65 else 0).

Lemma realloc_correct_witness :
  exists h', realloc 0 heap0 4104 100 = (h', heap_current heap0 + 8) /\ heap_at h' 4096 /\ heap_current h' = heap_current heap0 + 8 + 100 /\
    le_val (peek (hmem h') (heap_current heap0) 8) = 100 /\
    (forall i, 0 <= i < Z.min 12 100 -> hmem h' (heap_current heap0 + 8 + i) = hmem heap0 (4104 + i)) /\
    (forall x, x < heap_current heap0 -> hmem h' x = hmem heap0 x).
Proof.
  apply (realloc_correct 0 heap0 4096 4104 12 100).
  - by repeat split.
  - lia.
  - lia.
  - done.
  - done.
  - done.
Defined.

End Libc.
