(* ===== verification/LibcIo.v ===== *)
(** * Input and output of the C library of user programs: [userspace/libc/src/libc.c]

    Streams over the file stubs of the library, formatted output, the escape
    sequences of the terminal and the functions that duplicate strings.  What is
    written to a descriptor is a list of strings; a system call [write] takes
    all of its bytes.  [strncpy], which the library declares and does not define,
    has its standard meaning. *)
From Stdlib Require Import String.
From S2P Require Import Prelude KernelLib Mm Console Libc.
Import CString Libc.
Open Scope list_scope.
Open Scope Z_scope.

Module LibcIo.

(** ** What a program reads and writes *)
Record world := World { input : bytes; written : list (Z * bytes) }.

Definition write (fd : Z) (buf : bytes) (len : Z) (w : world) : option world :=
  l ← slice buf 0 len; Some (World (input w) (written w ++ [(fd, l)])).

(** One byte from the standard input; [None] inside is the end of the input. *)
Definition read1 (w : world) : option Z * world :=
  match input w with [] => (None, w) | c :: r => (Some c, World r (written w)) end.

(** ** Strings *)
Fixpoint strncpy (dest src : bytes) (n : nat) {struct n} : option bytes :=
  match n with
  | O => Some dest
  | S n' =>
      match dest, src with
      | _ :: dest', c :: src' =>
          if c =? 0 then splice dest 0 (replicate n 0) else d ← strncpy dest' src' n'; Some (c :: d)
      | _, _ => None
      end
  end.

Definition strxfrm (dest src : bytes) (n : Z) : option (bytes * Z) :=
  len ← strlen src;
  dest ← (if 0 <? n then d ← strncpy dest src (Z.to_nat (n - 1)); setZ d (n - 1) 0 else Some dest);
  Some (dest, len).

(** A copy on the heap; 0 is [NULL]. *)
Definition strdup (brk : Z) (h : heap) (s : bytes) : option (heap * Z) :=
  len ← strlen s;
  let len := u64 (len + 1) in
  let '(h, ret) := malloc brk h len in
  if negb (ret =? 0) then l ← slice s 0 len; Some (Heap (heap_start h) (heap_current h) (poke (hmem h) ret l), ret)
  else Some (h, ret).

(** [while (len < n && s[len]) len++] *)
Fixpoint len_upto (s : bytes) (n : nat) : option nat :=
  match n with
  | O => Some O
  | S n' => match s with [] => None | c :: s' => if c =? 0 then Some O else k ← len_upto s' n'; Some (S k) end
  end.

Definition strndup (brk : Z) (h : heap) (s : bytes) (n : Z) : option (heap * Z) :=
  len ← len_upto s (Z.to_nat n);
  let '(h, ret) := malloc brk h (u64 (Z.of_nat len + 1)) in
  if negb (ret =? 0) then Some (Heap (heap_start h) (heap_current h) (poke (hmem h) ret (take len s ++ [0])), ret)
  else Some (h, ret).

(** The static pointer of [strtok] is [saveptr]; a string that is given starts a new walk. *)
Definition strtok (str : bytes) (saveptr : option nat) (given : bool) (delim : bytes) : option (bytes * option nat * option nat) :=
  strtok_r str (if given then Some 0%nat else saveptr) delim.

(** ** Streams *)
Definition EOF : Z := -1.

Definition vfs_open_stub : Z := 3.
Definition vfs_close_stub : Z := 0.
(** The number of bytes read; the buffer is not touched. *)
Definition vfs_read_stub (buf : bytes) : Z * bytes := (0, buf).
Definition vfs_write_stub : Z := 0.

Record FILE := File { fd : Z; buffer : Z; buffer_size : Z; position : Z; size_ : Z }.

(** A pointer to a stream: one that [fopen] returned, or one of the numbers 1 to 3 of the standard streams, which
    point to nothing. *)
Inductive stream := Opened (f : FILE) (ptr : Z) | Std (n : Z).
Definition stdin := Std 1.
Definition stdout := Std 2.
Definition stderr := Std 3.

Definition deref (s : stream) : option FILE := match s with Opened f _ => Some f | Std _ => None end.

Definition fopen (brk : Z) (h : heap) (pathname mode : bytes) : option (heap * option stream) :=
  let '(h, ptr) := malloc brk h 40 in
  if ptr =? 0 then Some (h, None)
  else
    w ← strchr mode 119;
    r ← strchr mode 114;
    a ← strchr mode 97;
    let fd := vfs_open_stub in
    if fd <? 0 then Some (free h ptr, None) else Some (h, Some (Opened (File fd 0 0 0 0) ptr)).

Definition fclose (h : heap) (s : stream) : option (heap * Z) :=
  match s with
  | Opened f ptr => let h := if negb (buffer f =? 0) then free h (buffer f) else h in Some (free h ptr, 0)
  | Std _ => None
  end.

(** A division by the size 0 is undefined. *)
Definition fread (ptr : bytes) (size nmemb : Z) (s : stream) : option (bytes * Z) :=
  f ← deref s;
  let '(n, ptr) := vfs_read_stub ptr in
  if 0 <? n then if size =? 0 then None else Some (ptr, n / size) else Some (ptr, 0).

Definition fwrite (ptr : bytes) (size nmemb : Z) (s : stream) : option Z :=
  f ← deref s;
  let n := vfs_write_stub in
  if 0 <? n then if size =? 0 then None else Some (n / size) else Some 0.

(** The loop of [fgets] with [n] places left, storing from [i] on; [c] is the local character. *)
Fixpoint fgets_loop (n : nat) (s : bytes) (i : Z) (c : bytes) : option (bytes * Z) :=
  match n with
  | O => Some (s, i)
  | S n' =>
      let '(r, c) := vfs_read_stub c in
      if r <=? 0 then Some (s, i)
      else
        x ← getZ c 0;
        s ← setZ s i x;
        if x =? 10 then Some (s, i + 1) else fgets_loop n' s (i + 1) c
  end.

(** The string and whether the result is not [NULL]. *)
Definition fgets (c : bytes) (s : bytes) (size : Z) (f : stream) : option (bytes * bool) :=
  _ ← deref f;
  '(s, i) ← fgets_loop (Z.to_nat (size - 1)) s 0 c;
  s ← setZ s i 0;
  Some (s, 0 <? i).

Definition fputs (s : bytes) (f : stream) : option Z :=
  len ← strlen s;
  _ ← deref f;
  Some (if vfs_write_stub =? len then 0 else EOF).

Definition fflush (s : stream) : Z := 0.
Definition fseek (s : stream) (offset whence : Z) : Z := 0.
Definition ftell (s : stream) : Z := 0.
Definition ferror (s : stream) : Z := 0.

(** ** Formatted output *)
Section Formatted.
(** The buffers of the functions before they are written. *)
Context (stack_buf : bytes).

(** [vprintf], as what it gives to [write(1, ...)]; the result is the number of bytes. *)
Definition vprintf (fuel : nat) (format : bytes) (args : list arg) : outcome (Z * bytes) :=
  '(buffer, written) ← vsnprintf fuel stack_buf 256 format args;
  l ← need (slice buffer 0 written);
  Ret (written, l).

Definition vfprintf (fuel : nat) (f : stream) (format : bytes) (args : list arg) : outcome Z :=
  '(buffer, written) ← vsnprintf fuel stack_buf 256 format args;
  _ ← need (deref f);
  Ret written.
End Formatted.

Definition puts (s : bytes) (w : world) : option (world * Z) :=
  n ← strlen s;
  w ← write 1 s n w;
  w ← write 1 [10; 0] 1 w;
  Some (w, 0).

Definition putchar (c : Z) (w : world) : option (world * Z) := w ← write 1 [u8 c] 1 w; Some (w, c).

(** [ch] is what the local variable holds before. *)
Definition getchar (ch : Z) (w : world) : world * Z :=
  match read1 w with (Some c, w) => (w, u8 c) | (None, w) => (w, u8 ch) end.

(** ** The terminal *)
Record termios := Termios { has_colors : Z; max_colors : Z; lines : Z; cols : Z; bold_supported : Z; underline_supported : Z;
  alt_screen : Z; bracketed_paste : Z }.
Definition term_init : termios := Termios 1 256 24 80 1 1 1 1.
Definition term_get_size (t : termios) : Z * Z := (lines t, cols t).
Definition term_isatty : Z := 1.

Definition esc (s : bytes) : bytes := 27 :: s ++ [0].
Definition TERM_CURSOR_HOME := esc (str "[H").
Definition TERM_CLEAR_SCREEN := esc (str "[2J").
Definition TERM_CLEAR_EOL := esc (str "[K").
Definition TERM_CLEAR_BOS := esc (str "[1J").
Definition TERM_CLEAR_EOS := esc (str "[J").
Definition TERM_ALT_SCREEN_ON := esc (str "[?1049h").
Definition TERM_ALT_SCREEN_OFF := esc (str "[?1049l").
Definition TERM_BRACKETED_PASTE_ON := esc (str "[?2004h").
Definition TERM_BRACKETED_PASTE_OFF := esc (str "[?2004l").
Definition TERM_TITLE_SET : bytes := esc (str "]2;%s" ++ [7]).
(** [#n] spells the name of the parameter. *)
Definition TERM_CURSOR_UP : bytes := esc (str "[nA").
Definition TERM_CURSOR_DOWN : bytes := esc (str "[nB").
Definition TERM_CURSOR_FORWARD : bytes := esc (str "[nC").
Definition TERM_CURSOR_BACK : bytes := esc (str "[nD").

(** [write(1, s, strlen(s))] *)
Definition write_str (s : bytes) (w : world) : option world := n ← strlen s; write 1 s n w.

(** [snprintf(seq, sizeof(seq), ...)] into the uninitialised [seq], which is then written. *)
Definition write_seq (fuel : nat) (seq : bytes) (format : bytes) (args : list arg) (w : world) : outcome world :=
  '(seq, _) ← vsnprintf fuel seq (lenZ seq) format args; need (write_str seq w).

Definition term_set_title (fuel : nat) (seq : bytes) (title : bytes) (w : world) : outcome world :=
  write_seq fuel seq TERM_TITLE_SET [ArgStr title] w.
Definition term_cursor_up (fuel : nat) (seq : bytes) (n : Z) (w : world) : outcome world := write_seq fuel seq TERM_CURSOR_UP [] w.
Definition term_cursor_down (fuel : nat) (seq : bytes) (n : Z) (w : world) : outcome world := write_seq fuel seq TERM_CURSOR_DOWN [] w.
Definition term_cursor_forward (fuel : nat) (seq : bytes) (n : Z) (w : world) : outcome world := write_seq fuel seq TERM_CURSOR_FORWARD [] w.
Definition term_cursor_back (fuel : nat) (seq : bytes) (n : Z) (w : world) : outcome world := write_seq fuel seq TERM_CURSOR_BACK [] w.
Definition term_cursor_home (w : world) : option world := write_str TERM_CURSOR_HOME w.
Definition term_clear_screen (w : world) : option world := w ← write_str TERM_CLEAR_SCREEN w; write_str TERM_CURSOR_HOME w.
Definition term_clear_eol (w : world) : option world := write_str TERM_CLEAR_EOL w.
Definition term_clear_bos (w : world) : option world := write_str TERM_CLEAR_BOS w.
Definition term_clear_eos (w : world) : option world := write_str TERM_CLEAR_EOS w.
Definition term_alternate_screen (on : Z) (w : world) : option world :=
  if negb (on =? 0) then write_str TERM_ALT_SCREEN_ON w else write_str TERM_ALT_SCREEN_OFF w.
Definition term_enable_bracketed_paste (w : world) : option world := write_str TERM_BRACKETED_PASTE_ON w.
Definition term_disable_bracketed_paste (w : world) : option world := write_str TERM_BRACKETED_PASTE_OFF w.

(** The colours by name, in the order of the comparisons. *)
Definition colors : list (bytes * bytes) :=
  [(str "red", str "[31m"); (str "green", str "[32m"); (str "blue", str "[34m"); (str "yellow", str "[33m"); (str "magenta", str "[35m");
   (str "cyan", str "[36m"); (str "white", str "[37m"); (str "bold", str "[1m"); (str "dim", str "[2m"); (str "underline", str "[4m")].
Definition COLOR_RESET : bytes := esc (str "[0m").

Fixpoint find_color (l : list (bytes * bytes)) (name : bytes) : option bytes :=
  match l with
  | [] => Some COLOR_RESET
  | (n, code) :: l' => r ← strcmp name (n ++ [0]); if r =? 0 then Some (esc code) else find_color l' name
  end.

Definition term_color_name_to_code (name : option bytes) : option bytes :=
  match name with
  | None => Some COLOR_RESET
  | Some name => c ← getZ name 0; if c =? 0 then Some COLOR_RESET else find_color colors name
  end.

(** ** What the standard asks of printf

    The text of a format with the directives [%s], [%d] and [%%]; [None] where the standard leaves it open. *)
Definition decimal (n : Z) : option bytes :=
  if n <? 0 then l ← Console.dec_text (- n); Some (45 :: l) else Console.dec_text n.

Fixpoint std_text (format : bytes) (args : list arg) : option bytes :=
  match format with
  | [] => None
  | c :: p =>
      if c =? 0 then Some []
      else if c =? 37 then
        match p with
        | [] => None
        | d :: p' =>
            if d =? 115 then
              match args with ArgStr s :: args' => a ← cstr s; r ← std_text p' args'; Some (a ++ r) | _ => None end
            else if d =? 100 then
              match args with ArgInt n :: args' => a ← decimal n; r ← std_text p' args'; Some (a ++ r) | _ => None end
            else if d =? 37 then r ← std_text p' args; Some (37 :: r)
            else None
        end
      else r ← std_text p args; Some (c :: r)
  end.

(** [printf] as an operation of the programs, the text it writes; theirs is the one of this library. *)
Class Printf := printf : bytes -> list arg -> outcome bytes.

Definition libc_printf (stack_buf : bytes) (fuel : nat) : Printf :=
  fun format args => '(_, l) ← vprintf stack_buf fuel format args; Ret l.

Definition is_str (a : arg) : bool := match a with ArgStr _ => true | ArgInt _ => false end.

(** Without numbers the library writes the text of the standard, given a step for each character of the format. *)
Lemma vsprintf_std n : forall fuel format args l, (length format <= n)%nat -> (n <= fuel)%nat -> forallb is_str args = true ->
  std_text format args = Some l -> vsprintf fuel format args = Ret l.
Proof.
  induction n as [|n IH]; intros fuel format args l Hn Hf Ha; destruct format as [|c p]; cbn [length] in Hn; try lia; [done|done|].
  destruct fuel as [|fuel]; [lia|]. cbn [std_text vsprintf]. destruct (Z.eqb_spec c 0); [by intros [= <-]|].
  destruct (Z.eqb_spec c 37) as [->|Hc].
  - destruct p as [|d p]; [done|]. cbn [length] in Hn. destruct (Z.eqb_spec d 115) as [->|].
    { change (115 =? 0) with false. cbn [negb andb]. destruct args as [|[s|] args]; [done| |done].
      destruct (cstr s) as [a|]; [|done]. cbn [mbind option_bind need outcome_bind].
      destruct (std_text p args) as [r|] eqn:E; [|done]. intros [= <-]. cbn [forallb is_str andb] in Ha.
      by rewrite (IH fuel p args r) by (lia || done). }
    destruct (Z.eqb_spec d 100) as [->|].
    { destruct args as [|[s|k] args]; [done|done|]. by cbn in Ha. }
    destruct (Z.eqb_spec d 37) as [->|]; [|done]. change (37 =? 0) with false. cbn [negb andb].
    destruct (std_text p args) as [r|] eqn:E; [|done]. intros [= <-]. by rewrite (IH fuel p args r) by (lia || done).
  - destruct p as [|d p]; [done|]. cbn [andb]. destruct (std_text (d :: p) args) as [r|] eqn:E; [|done].
    intros [= <-]. by rewrite (IH fuel (d :: p) args r) by (cbn [length] in *; lia || done).
Qed.

(** What [vprintf] makes of a text: 255 characters fit into its buffer. *)
Lemma vprintf_fits stack_buf fuel format args l : lenZ stack_buf = 256 -> vsprintf fuel format args = Ret l ->
  vprintf stack_buf fuel format args = if lenZ l <? 256 then Ret (lenZ l, l) else Undef.
Proof.
  intros Hb E. unfold vprintf, vsnprintf. rewrite E. cbn [mbind outcome_bind].
  pose proof (lenZ_nonneg l) as Hl. destruct (Z.ltb_spec (lenZ l) 256).
  - rewrite (splice_Some stack_buf 0) by (autorewrite with kernel; unfold lenZ in *; cbn [length]; lia). cbn [need mbind outcome_bind].
    rewrite !i32_id by lia. rewrite (proj2 (Z.leb_gt 256 _)) by lia. rewrite andb_false_r. cbn [need mbind outcome_bind].
    rewrite slice_Some by (autorewrite with kernel; unfold lenZ in *; cbn [length]; lia).
    cbn [need mbind outcome_bind]. do 2 f_equal. unfold lenZ. rewrite Nat2Z.id. change (Z.to_nat 0) with 0%nat.
    rewrite take_0, drop_0, app_nil_l, <- app_assoc. by rewrite take_app_length.
  - destruct (splice stack_buf 0 (l ++ [0])) eqn:E2; [|done]. apply splice_inv in E2 as (_ & H2 & _).
    rewrite lenZ_app in H2. unfold lenZ in *. cbn [length] in H2. lia.
Qed.

(** formatted output without numbers.  [printf] writes exactly the text the standard asks for when it has at most
    255 characters, and returns its length; a longer text is written behind the end of the buffer, which is undefined. *)
Theorem printf_text stack_buf fuel format args l :
  lenZ stack_buf = 256 -> (length format <= fuel)%nat -> forallb is_str args = true -> std_text format args = Some l ->
  vprintf stack_buf fuel format args = if lenZ l <? 256 then Ret (lenZ l, l) else Undef.
Proof. intros Hb Hf Ha E. apply vprintf_fits; [done|]. by apply (vsprintf_std (length format)). Qed.

Lemma printf_text_witness :
  vprintf (replicate 256 7) 20 (str "%s: %s" ++ [10; 0]) [ArgStr (str "cat" ++ [0]); ArgStr (str "no" ++ [0])] =
    Ret (8, str "cat: no" ++ [10]).
Proof.
  apply (printf_text (replicate 256 7) 20 (str "%s: %s" ++ [10; 0]) [ArgStr (str "cat" ++ [0]); ArgStr (str "no" ++ [0])] (str "cat: no" ++ [10]));
    [reflexivity|vm_compute; lia|reflexivity|reflexivity].
Defined.

(** ** Copies on the heap *)
Lemma slice_string s rest : slice (s ++ 0 :: rest) 0 (lenZ s + 1) = Some (s ++ [0]).
Proof.
  rewrite slice_Some by (rewrite ?lenZ_app; unfold lenZ; cbn [length]; lia). change (Z.to_nat 0) with 0%nat. rewrite drop_0. f_equal.
  replace (Z.to_nat (lenZ s + 1)) with (length (s ++ [0])) by (rewrite length_app; unfold lenZ; cbn [length]; lia).
  change (s ++ 0 :: rest) with (s ++ [0] ++ rest). rewrite app_assoc. apply take_app_length.
Qed.

(** duplication of a string.  With room for it and its header in the page of the heap, [strdup] returns a new block
    that holds the string and its NUL, behind everything allocated before, which does not change; without, it
    returns [NULL] and nothing changes. *)
Theorem strdup_copies brk h b s rest : heap_at h b -> nul_free s -> lenZ s < 2 ^ 32 ->
  if heap_current h + 8 + (lenZ s + 1) <=? b + 4096 then
    exists h', strdup brk h (s ++ 0 :: rest) = Some (h', heap_current h + 8) /\ heap_at h' b /\
      heap_current h' = heap_current h + 8 + (lenZ s + 1) /\
      peek (hmem h') (heap_current h + 8) (length (s ++ [0])) = s ++ [0] /\
      (forall x, x < heap_current h -> hmem h' x = hmem h x)
  else strdup brk h (s ++ 0 :: rest) = Some (h, 0).
Proof.
  intros Hh Hs Hl. pose proof (lenZ_nonneg s) as H0. change (2 ^ 32) with 4294967296 in Hl.
  pose proof (malloc_spec brk h b (lenZ s + 1) Hh ltac:(lia)) as Hm. destruct Hh as (Hs1 & Hb & Hb2 & Hc).
  unfold strdup. rewrite strlen_spec by done. cbn [mbind option_bind]. rewrite u64_id by (red; lia).
  destruct (Z.leb_spec (heap_current h + 8 + (lenZ s + 1)) (b + 4096)); rewrite Hm; [|done].
  rewrite (proj2 (Z.eqb_neq _ 0)) by lia. cbn [negb]. rewrite slice_string. cbn [mbind option_bind heap_start heap_current hmem].
  eexists. split; [done|]. split; [unfold heap_at; cbn [heap_start heap_current]; lia|]. split; [done|].
  split; [apply peek_poke_same|]. intros x Hx. cbn [hmem]. rewrite poke_outside by lia.
  rewrite poke_outside by lia. done.
Qed.

Lemma strdup_copies_witness :
  exists h', strdup 0 heap0 ([104; 105] ++ 0 :: []) = Some (h', heap_current heap0 + 8) /\ heap_at h' 4096 /\
    heap_current h' = heap_current heap0 + 8 + (lenZ [104; 105] + 1) /\
    peek (hmem h') (heap_current heap0 + 8) (length ([104; 105] ++ [0])) = [104; 105] ++ [0] /\
    (forall x, x < heap_current heap0 -> hmem h' x = hmem heap0 x).
Proof.
  apply (strdup_copies 0 heap0 4096 [104; 105] []); [unfold heap_at; cbn; lia|by repeat constructor|by cbn].
Defined.

(** ** Streams read as empty *)
Lemma fgets_empty c s size f : (exists g p, f = Opened g p) -> 0 < lenZ s -> exists s', fgets c s size f = Some (s', false) /\ getZ s' 0 = Some 0.
Proof.
  intros (g & p & ->) Hs. unfold fgets. cbn [deref mbind option_bind].
  assert (fgets_loop (Z.to_nat (size - 1)) s 0 c = Some (s, 0)) as -> by (by destruct (Z.to_nat (size - 1))).
  cbn [mbind option_bind]. destruct s as [|x s]; [unfold lenZ in Hs; cbn in Hs; lia|]. by exists (0 :: s).
Qed.
End LibcIo.
