(* ===== verification/Apps.v ===== *)
(** * The small programs of user space: [userspace/apps/src]: ls, echo, pwd, cat, init, stress

    Programs take their arguments as the list of the strings of [argv], and [printf] is that of
    the library, [LibcIo.libc_printf]. *)
From Stdlib Require Import String.
From S2P Require Import Prelude KernelLib Mm Console Libc LibcIo.
Import CString Libc LibcIo.
Open Scope list_scope.
Open Scope Z_scope.

Module Apps.

Section Programs.
(** The buffer of [printf] before it is written, and the steps for a format. *)
Context (stack : bytes) (steps : nat).

Definition name (s : string) : bytes := str s ++ [0].
Definition line_of (s : string) : bytes := str s ++ [10; 0].

Definition print (format : bytes) (args : list arg) (w : world) : outcome world :=
  l ← @printf (libc_printf stack steps) format args; Ret (World (input w) (written w ++ [(1, l)])).

(** ** ls *)
Definition S_IFMT : Z := 61440.
Definition S_ISDIR (m : Z) : bool := Z.land m S_IFMT =? 16384.
Definition S_ISLNK (m : Z) : bool := Z.land m S_IFMT =? 40960.
Definition S_ISFIFO (m : Z) : bool := Z.land m S_IFMT =? 4096.
Definition S_ISSOCK (m : Z) : bool := Z.land m S_IFMT =? 49152.
Definition S_ISCHR (m : Z) : bool := Z.land m S_IFMT =? 8192.
Definition S_ISBLK (m : Z) : bool := Z.land m S_IFMT =? 24576.

Definition file_type_indicator (mode : Z) : bytes :=
  if S_ISDIR mode then name "/" else if S_ISLNK mode then name "@" else if S_ISFIFO mode then name "|"
  else if S_ISSOCK mode then name "=" else if S_ISCHR mode then name "%" else if S_ISBLK mode then name "%"
  else if negb (Z.land mode 73 =? 0) then name "*" else [0].

Definition get_file_color (mode : Z) : bytes :=
  if S_ISDIR mode then 27 :: name "[1;34m" else if S_ISLNK mode then 27 :: name "[1;36m" else if S_ISFIFO mode then 27 :: name "[1;33m"
  else if S_ISSOCK mode then 27 :: name "[1;35m" else if S_ISCHR mode then 27 :: name "[1;33m" else if S_ISBLK mode then 27 :: name "[1;33m"
  else if negb (Z.land mode 73 =? 0) then 27 :: name "[1;32m" else [0].

(** The number of divisions by 1024, at most [n] *)
Fixpoint format_unit (n : nat) (size : Z) : nat :=
  match n with O => O | S n' => if 1024 <=? size then S (format_unit n' (size / 1024)) else O end.

(** The first argument is a floating point number, which is not a string. *)
Definition format_size (size : Z) (result : bytes) : outcome bytes :=
  let unit := format_unit 4 size in
  '(r, _) ← vsnprintf steps result (lenZ result) (name "%4.1f%s")
    [ArgInt (size / 1024 ^ Z.of_nat unit); ArgStr (nth unit [name "B"; name "K"; name "M"; name "G"; name "T"] [])];
  Ret r.

Inductive color_mode := COLOR_NONE | COLOR_AUTO | COLOR_ALWAYS.

Record ls_options := LsOptions {
  list_all : bool; long_format : bool; human_readable : bool; show_size : bool; show_time : bool;
  recursive : bool; sort_by_time : bool; reverse_ : bool; color : color_mode; show_indicator : bool
}.
Definition no_options : ls_options := LsOptions false false false false false false false false COLOR_AUTO false.

(** One option character.  The constant ['--color'] has several characters and is none of them.  The
    message for another one goes to [stderr], which is no stream. *)
Definition ls_option (o : ls_options) (c : Z) : option ls_options :=
  let '(LsOptions a l h s tm R t r col f) := o in
  if (c =? 97) || (c =? 65) then Some (LsOptions true l h s tm R t r col f)
  else if c =? 108 then Some (LsOptions a true h s tm R t r col f)
  else if c =? 104 then Some (LsOptions a l true s tm R t r col f)
  else if c =? 115 then Some (LsOptions a l h true tm R t r col f)
  else if c =? 116 then Some (LsOptions a l h s tm R true r col f)
  else if c =? 114 then Some (LsOptions a l h s tm R t true col f)
  else if c =? 82 then Some (LsOptions a l h s tm true t r col f)
  else if c =? 70 then Some (LsOptions a l h s tm R t r col true)
  else if c =? 71 then Some (LsOptions a l h s tm R t r COLOR_AUTO f)
  else _ ← deref stderr; Some o.

Fixpoint ls_option_chars (o : ls_options) (s : bytes) : option ls_options :=
  match s with [] => None | c :: s' => if c =? 0 then Some o else o ← ls_option o c; ls_option_chars o s' end.

(** The arguments from [i] on; the place of the first that is no option is stored. *)
Fixpoint parse_args (i : Z) (args : list bytes) (o : ls_options) : option (ls_options * Z) :=
  match args with
  | [] => Some (o, 1)
  | a :: args' =>
      c ← getZ a 0;
      if c =? 45 then o ← ls_option_chars o (drop 1 a); parse_args (i + 1) args' o else Some (o, i)
  end.

Definition parse_ls_options (argv : list bytes) : option (ls_options * Z) := parse_args 1 (drop 1 argv) no_options.

(** The members of [struct stat] that are used. *)
Record stat := Stat { st_mode : Z; st_nlink : Z; st_size : Z }.
(** What is in [st]: the function [stat] of the library succeeds and writes nothing. *)
Context (st : stat).

Definition type_char (mode : Z) : Z :=
  if S_ISDIR mode then 100 else if S_ISLNK mode then 108 else if S_ISFIFO mode then 112 else if S_ISSOCK mode then 115
  else if S_ISCHR mode then 99 else if S_ISBLK mode then 98 else 45.

(** [perms], with its NUL *)
Definition perms (mode : Z) : bytes :=
  let bit m c := if negb (Z.land mode m =? 0) then c else 45 in
  [type_char mode; bit 256 114; bit 128 119; bit 64 120; bit 32 114; bit 16 119; bit 8 120; bit 4 114; bit 2 119; bit 1 120; 0].

Definition ctime : bytes := line_of "Mon Jan  1 00:00:00 1970".

Definition print_long_format (filename : bytes) (o : ls_options) (w : world) : outcome world :=
  w ← print (name "%s %2lu") [ArgStr (perms (st_mode st)); ArgInt (st_nlink st)] w;
  w ← (if human_readable o then size_str ← format_size (st_size st) (take 16 stack); print (name " %8s") [ArgStr size_str] w
       else print (name " %8lu") [ArgInt (st_size st)] w);
  w ← print (name " %s") [ArgStr (drop 4 ctime)] w;
  w ← match color o with
      | COLOR_NONE => print (name "%s") [ArgStr filename] w
      | _ =>
          let col := get_file_color (st_mode st) in
          c ← need (getZ col 0);
          if negb (c =? 0) then print (name "%s%s%s") [ArgStr col; ArgStr filename; ArgStr COLOR_RESET] w
          else print (name "%s") [ArgStr filename] w
      end;
  w ← (if show_indicator o then
         let ind := file_type_indicator (st_mode st) in
         c ← need (getZ ind 0);
         if negb (c =? 0) then print (name "%s") [ArgStr ind] w else Ret w
       else Ret w);
  print [10; 0] [] w.

Definition print_short_format (filename : bytes) (w : world) : outcome world := print (line_of "%s") [ArgStr filename] w.

Definition print_entry (o : ls_options) (path : bytes) (w : world) : outcome world :=
  if long_format o then print_long_format path o w else print_short_format path w.

(** The paths; [several] is whether there is more than one. *)
Fixpoint print_paths (o : ls_options) (several : bool) (paths : list bytes) (w : world) : outcome world :=
  match paths with
  | [] => Ret w
  | path :: paths' =>
      w ← (if several then print (line_of "%s:") [ArgStr path] w else Ret w);
      w ← print_entry o path w;
      w ← match paths' with [] => Ret w | _ => print [10; 0] [] w end;
      print_paths o several paths' w
  end.

Definition ls_main (argv : list bytes) (w : world) : outcome (Z * world) :=
  '(o, start_index) ← need (parse_ls_options argv);
  w ← (if lenZ argv =? start_index then print_entry o (name ".") w
       else print_paths o (start_index + 1 <? lenZ argv) (drop (Z.to_nat start_index) argv) w);
  Ret (0, w).

(** ** echo *)
Fixpoint echo_args (first : bool) (args : list bytes) (w : world) : outcome world :=
  match args with
  | [] => Ret w
  | a :: args' =>
      w ← (if first then Ret w else print (name " ") [] w);
      w ← print (name "%s") [ArgStr a] w;
      echo_args false args' w
  end.

Definition echo_main (argv : list bytes) (w : world) : outcome (Z * world) :=
  if lenZ argv <? 2 then w ← print (line_of "usage: echo [string...]") [] w; Ret (1, w)
  else
    w ← echo_args true (drop 1 argv) w;
    w ← print [10; 0] [] w;
    Ret (0, w).

(** ** pwd *)
Definition pwd_main (argv : list bytes) (e : env) (w : world) : outcome (Z * world) :=
  if negb (lenZ argv =? 2) then w ← print (line_of "usage: pwd") [] w; Ret (1, w)
  else
    pwd ← need (getenv e (name "PWD"));
    match pwd with
    | None => w ← print (line_of "Cannot get current directory") [] w; Ret (1, w)
    | Some pwd => w ← print (line_of "%s") [ArgStr pwd] w; Ret (0, w)
    end.
End Programs.

(** ** cat, init, stress *)
(** [write(1, msg, sizeof(msg) - 1)] *)
Definition say (msg : string) (w : world) : world := World (input w) (written w ++ [(1, str msg ++ [10])]).

Definition cat_main (w : world) : Z * world := (0, say "cat: device layer not yet available" w).

(** The calls of [init] behind the messages, given what [fork] returns: how a process ends, and what it started and
    waited for. *)
Inductive init_end := Returned (waited : Z) | Execed (path : bytes) | ExecFailed (code : Z).
Definition init_main (pid : Z) (exec_ok : bool) (w : world) : init_end * world :=
  let w := say "init: launching shell" w in
  if pid =? 0 then if exec_ok then (Execed (name "/bin/sh"), w) else (ExecFailed 1, w)
  else (Returned pid, say "init: shell exited" w).

(** [for (i = i; i < i + n; ++i) counter += i] *)
Fixpoint stress_loop (n : nat) (i counter : Z) : Z :=
  match n with O => counter | S n' => stress_loop n' (i + 1) (u64 (counter + i)) end.

Definition stress_main (w : world) : Z * world :=
  let w := say "stress: spinning..." w in
  let counter := stress_loop (Z.to_nat 1000000) 0 0 in
  (i32 (Z.land counter 7), say "stress: done" w).

(** ** What the programs print *)
Definition out (w : world) : bytes := concat (snd <$> written w).

(** Strings one behind the other with [sep] in between *)
Fixpoint join (sep : bytes) (l : list bytes) : bytes :=
  match l with [] => [] | [x] => x | x :: l' => x ++ sep ++ join sep l' end.

Definition cstring (t : bytes) : bytes := t ++ [0].
(** A path or a word that fits into a buffer of [printf]. *)
Definition short (t : bytes) : Prop := nul_free t /\ lenZ t < 250.

Section Printing.
Context (stack : bytes) (Hstack : lenZ stack = 256) (steps : nat) (Hsteps : (40 <= steps)%nat).

Lemma print_ok format args l w : (length format <= 40)%nat -> forallb is_str args = true -> std_text format args = Some l -> lenZ l < 256 ->
  print stack steps format args w = Ret (World (input w) (written w ++ [(1, l)])).
Proof.
  intros Hf Ha E Hl. unfold print, printf, libc_printf. rewrite (vprintf_fits stack steps format args l Hstack).
  - by rewrite (proj2 (Z.ltb_lt _ _)) by lia.
  - apply (vsprintf_std (length format)); [done|lia|done|done].
Qed.

(** A program part that prints [l] and changes nothing else. *)
Definition prints (o : outcome world) (w : world) (l : bytes) : Prop :=
  exists w', o = Ret w' /\ out w' = out w ++ l /\ input w' = input w.

Lemma prints_ok format args l w : (length format <= 40)%nat -> forallb is_str args = true -> std_text format args = Some l -> lenZ l < 256 ->
  prints (print stack steps format args w) w l.
Proof.
  intros Hf Ha E Hl. eexists. split; [by apply print_ok|]. split; [|done]. unfold out. cbn [written]. rewrite fmap_app, concat_app. cbn. by rewrite app_nil_r.
Qed.

Lemma prints_bind o w l k m : prints o w l -> (forall w', prints (k w') w' m) -> prints (o ≫= k) w (l ++ m).
Proof.
  intros (w1 & -> & H1 & H1') Hk. destruct (Hk w1) as (w2 & E & H2 & H2'). exists w2. split; [done|].
  split; [by rewrite H2, H1, app_assoc|congruence].
Qed.

Lemma prints_nothing w : prints (Ret w) w [].
Proof. exists w. by rewrite app_nil_r. Qed.

(** [printf] of a literal, of [%s] and of a line with [%s]. *)
Lemma prints_str t w : short t -> prints (print stack steps (name "%s") [ArgStr (cstring t)] w) w t.
Proof.
  intros [Ht Hl]. apply prints_ok; [vm_compute; lia|done| |lia]. cbn -[cstr cstring]. unfold cstring. rewrite cstr_spec by done. cbn. by rewrite app_nil_r.
Qed.

Lemma prints_line t w : short t -> prints (print stack steps (line_of "%s") [ArgStr (cstring t)] w) w (t ++ [10]).
Proof.
  intros [Ht Hl]. apply prints_ok; [vm_compute; lia|done| |rewrite lenZ_app; change (lenZ [10]) with 1; lia].
  cbn -[cstr cstring]. unfold cstring. by rewrite cstr_spec by done.
Qed.

Lemma prints_header t w : short t -> prints (print stack steps (line_of "%s:") [ArgStr (cstring t)] w) w (t ++ [58; 10]).
Proof.
  intros [Ht Hl]. apply prints_ok; [vm_compute; lia|done| |rewrite lenZ_app; change (lenZ [58; 10]) with 2; lia].
  cbn -[cstr cstring]. unfold cstring. by rewrite cstr_spec by done.
Qed.

Lemma prints_newline w : prints (print stack steps [10; 0] [] w) w [10].
Proof. apply prints_ok; [vm_compute; lia|done|done|done]. Qed.

(** echo.  With at least one argument, none longer than a buffer, [echo] prints the arguments separated by one blank
    and a line end, and succeeds. *)
Theorem echo_correct prog ts w : ts <> [] -> Forall short ts ->
  exists w', echo_main stack steps (prog :: (cstring <$> ts)) w = Ret (0, w') /\ out w' = out w ++ join [32] ts ++ [10].
Proof.
  intros Hne Hts. unfold echo_main. rewrite (proj2 (Z.ltb_ge _ _)) by (unfold lenZ; cbn [length]; rewrite length_fmap; destruct ts; [done|]; cbn; lia).
  change (drop 1 (prog :: (cstring <$> ts))) with (cstring <$> ts).
  assert (forall first w, ts <> [] -> prints (echo_args stack steps first (cstring <$> ts) w) w ((if first then [] else [32]) ++ join [32] ts)) as Hargs.
  { clear Hne w. induction Hts as [|t ts Ht Hts IH]; intros first w Hne; [done|]. cbn [fmap list_fmap echo_args].
    apply prints_bind; [destruct first; [apply prints_nothing|apply prints_ok; (done || vm_compute; lia)]|]. intros w1.
    destruct ts as [|t' ts]; cbn [join].
    - rewrite <- (app_nil_r t) at 2. apply prints_bind; [by apply prints_str|]. intros w2. apply prints_nothing.
    - apply prints_bind; [by apply prints_str|]. intros w2. by apply (IH false). }
  destruct (Hargs true w Hne) as (w1 & -> & H1 & _). cbn [mbind outcome_bind]. destruct (prints_newline w1) as (w2 & -> & H2 & _).
  cbn [mbind outcome_bind]. exists w2. split; [done|]. by rewrite H2, H1, <- app_assoc.
Qed.

(** What [ls] prints for paths without options. *)
Definition listing (ts : list bytes) : bytes :=
  match ts with [] => [46; 10] | [t] => t ++ [10] | _ => join [10] ((fun t => (t ++ [58; 10]) ++ t ++ [10]) <$> ts) end.

Lemma print_paths_ok st o several ts w : long_format o = false -> Forall short ts ->
  prints (print_paths stack steps st o several (cstring <$> ts) w) w (join [10] ((fun t => (if several then t ++ [58; 10] else []) ++ t ++ [10]) <$> ts)).
Proof.
  intros Ho Hts. revert w. induction Hts as [|t ts Ht Hts IH]; intros w; [apply prints_nothing|]. cbn [fmap list_fmap print_paths].
  assert (forall w k m, (forall w', prints (k w') w' m) ->
    prints ((if several then print stack steps (line_of "%s:") [ArgStr (cstring t)] w else Ret w) ≫= (fun w => print_entry stack steps st o (cstring t) w ≫= k)) w
      (((if several then t ++ [58; 10] else []) ++ t ++ [10]) ++ m)) as Hone.
  { intros w0 k m Hk. rewrite <- app_assoc. apply prints_bind; [destruct several; [by apply prints_header|apply prints_nothing]|].
    intros w1. apply prints_bind; [|done]. unfold print_entry. rewrite Ho. by apply prints_line. }
  destruct ts as [|t' ts]; cbn [join].
  - rewrite <- (app_nil_r (_ ++ t ++ [10])). apply Hone. intros w1. cbn. apply prints_nothing.
  - apply Hone. intros w1. apply prints_bind; [apply prints_newline|]. intros w2. apply IH.
Qed.

Lemma parse_paths t ts i o : list.head t <> Some 45 -> parse_args i (cstring <$> (t :: ts)) o = Some (o, i).
Proof.
  intros Ht. cbn [fmap list_fmap parse_args]. destruct t as [|c t]; [done|]. change (getZ (cstring (c :: t)) 0) with (Some c). cbn [mbind option_bind].
  rewrite (proj2 (Z.eqb_neq c 45)); [done|]. intros ->. by apply Ht.
Qed.

(** ls with paths.  When the first argument does not begin with a dash, [ls] prints every argument as a path, under a
    heading of its own when there are several, and without arguments a single dot. *)
Theorem ls_lists_paths st prog ts w : Forall short ts -> (forall t, list.head ts = Some t -> list.head t <> Some 45) ->
  exists w', ls_main stack steps st (prog :: (cstring <$> ts)) w = Ret (0, w') /\ out w' = out w ++ listing ts.
Proof.
  intros Hts Hd. unfold ls_main, parse_ls_options. change (drop 1 (prog :: (cstring <$> ts))) with (cstring <$> ts). destruct ts as [|t ts].
  { destruct (prints_line [46] w) as (w' & E & H & _); [by split; [repeat constructor|]|]. exists w'. split; [|done].
    change (parse_args 1 (cstring <$> []) no_options) with (Some (no_options, 1)). cbn [need mbind outcome_bind].
    change (lenZ (prog :: (cstring <$> [])) =? 1) with true. cbv iota.
    change (print_entry stack steps st no_options (name ".") w) with (print stack steps (line_of "%s") [ArgStr (cstring [46])] w). by rewrite E. }
  rewrite parse_paths by (by apply Hd). cbn [need mbind outcome_bind].
  rewrite (proj2 (Z.eqb_neq _ 1)) by (unfold lenZ; cbn [length fmap list_fmap]; lia). change (Z.to_nat 1) with 1%nat.
  change (drop 1 (prog :: (cstring <$> (t :: ts)))) with (cstring <$> (t :: ts)).
  destruct (print_paths_ok st no_options (1 + 1 <? lenZ (prog :: (cstring <$> (t :: ts)))) (t :: ts) w eq_refl Hts) as (w' & -> & H & _).
  cbn [mbind outcome_bind]. exists w'. split; [done|]. rewrite H. f_equal. unfold lenZ, listing. cbn [length fmap list_fmap]. rewrite length_fmap.
  destruct ts as [|t' ts]; [done|]. rewrite (proj2 (Z.ltb_lt _ _)) by (cbn [length]; lia). done.
Qed.

(** ls with options only.  The options of [ls -a] and the like are taken for paths: without another argument the
    program prints its options instead of the directory. *)
Theorem ls_options_only st prog cs w : cs <> [] -> Forall (fun c => c ∈ str "aAhstrRFG") cs -> lenZ cs < 200 ->
  exists w', ls_main stack steps st [prog; cstring (45 :: cs)] w = Ret (0, w') /\ out w' = out w ++ (45 :: cs) ++ [10].
Proof.
  intros Hne Hcs Hl. assert (short (45 :: cs)) as Hs.
  { split; [constructor; [done|]|unfold lenZ in *; cbn [length]; lia]. apply (list.Forall_impl _ _ _ Hcs). intros c Hc.
    repeat (apply elem_of_cons in Hc as [->|Hc]; [done|]). by apply not_elem_of_nil in Hc. }
  assert (forall o, long_format o = false -> exists o', ls_option_chars o (cstring cs) = Some o' /\ long_format o' = false) as Hopt.
  { clear Hs Hne Hl. induction Hcs as [|c cs Hc Hcs IH]; intros o Ho; [by exists o|]. cbn [app ls_option_chars cstring].
    assert (c <> 0 /\ exists o', ls_option o c = Some o' /\ long_format o' = false) as (H0 & o' & E & Ho').
    { destruct o. cbn in Ho. repeat (apply elem_of_cons in Hc as [->|Hc]; [split; [done|]; eexists; split; [reflexivity|done]|]). by apply not_elem_of_nil in Hc. }
    rewrite (proj2 (Z.eqb_neq c 0)) by done. rewrite E. cbn [mbind option_bind]. by apply IH. }
  destruct (Hopt no_options eq_refl) as (o & E & Ho). unfold ls_main, parse_ls_options. cbn [drop parse_args].
  change (getZ (cstring (45 :: cs)) 0) with (Some 45). change (drop 1 (cstring (45 :: cs))) with (cstring cs). cbn [mbind option_bind].
  change (45 =? 45) with true. cbv iota. rewrite E. cbn [need mbind option_bind outcome_bind].
  change (lenZ [prog; cstring (45 :: cs)] =? 1) with false. change (1 + 1 <? lenZ [prog; cstring (45 :: cs)]) with false.
  change (drop (Z.to_nat 1) [prog; cstring (45 :: cs)]) with (cstring <$> [45 :: cs]). cbv iota.
  destruct (print_paths_ok st o false [45 :: cs] w Ho) as (w' & -> & H & _); [by constructor|]. exists w'. split; [done|]. by rewrite H.
Qed.
End Printing.

(** The letters of [ls -l] show the type and all permissions: they determine the mode. *)
Definition mode_of (p : bytes) : Z :=
  let t := match p with
           | 100 :: _ => 16384 | 108 :: _ => 40960 | 112 :: _ => 4096 | 115 :: _ => 49152 | 99 :: _ => 8192 | 98 :: _ => 24576 | _ => 32768
           end in
  foldl (fun a c => 2 * a + (if c =? 45 then 0 else 1)) 0 (take 9 (drop 1 p)) + t.

Definition file_types : list Z := [16384; 40960; 4096; 49152; 8192; 24576; 32768].

(** for a mode with a file type and permission bits, the ten characters of the long listing give the mode back. *)
Theorem perms_mode type bits : type ∈ file_types -> 0 <= bits < 512 -> mode_of (perms (type + bits)) = type + bits.
Proof.
  intros Ht Hb. assert (forallb (fun t => forallb (fun b => mode_of (perms (t + b)) =? t + b) (seqZ 0 512)) file_types = true) as H by (vm_compute; reflexivity).
  rewrite forallb_forall in H. apply list_elem_of_In in Ht. specialize (H _ Ht). rewrite forallb_forall in H. apply Z.eqb_eq, H, list_elem_of_In, elem_of_seqZ. lia.
Qed.

(** The loop of [stress] adds up the numbers. *)
Lemma stress_loop_sum n : forall i c, 0 <= i -> is_u64 c -> 2 * stress_loop n i c mod (2 * 18446744073709551616) =
  (2 * c + Z.of_nat n * (2 * i + Z.of_nat n - 1)) mod (2 * 18446744073709551616).
Proof.
  induction n as [|n IH]; intros i c Hi Hc; cbn [stress_loop]; [f_equal; lia|]. rewrite IH by (lia || apply u64_range). unfold u64.
  rewrite <- Z.mul_mod_distr_l by lia. rewrite Zplus_mod_idemp_l. f_equal. lia.
Qed.

Lemma stress_loop_range n : forall i c, is_u64 c -> is_u64 (stress_loop n i c).
Proof. induction n as [|n IH]; intros i c Hc; cbn [stress_loop]; [done|]. apply IH, u64_range. Qed.

Lemma stress_loop_value n : 0 <= n < 2 ^ 32 -> 2 * stress_loop (Z.to_nat n) 0 0 = n * (n - 1).
Proof.
  intros Hn. change (2 ^ 32) with 4294967296 in Hn. pose proof (stress_loop_range (Z.to_nat n) 0 0 ltac:(red; lia)) as Hr.
  pose proof (stress_loop_sum (Z.to_nat n) 0 0 ltac:(lia) ltac:(red; lia)) as H. rewrite Z2Nat.id in H by lia. red in Hr.
  rewrite !Z.mod_small in H by nia. lia.
Qed.

(** [stress] ends with the status 0. *)
Theorem stress_status w : (stress_main w).1 = 0.
Proof.
  unfold stress_main. cbn [fst]. pose proof (stress_loop_value 1000000 ltac:(lia)) as H. revert H.
  generalize (stress_loop (Z.to_nat 1000000) 0 0). intros c H. assert (c = 499999500000) as -> by lia. reflexivity.
Qed.

Lemma echo_correct_witness :
  exists w', echo_main (replicate 256 7) 40 (name "echo" :: (cstring <$> [str "hello"; str "world"])) (World [] []) = Ret (0, w') /\
    out w' = out (World [] []) ++ join [32] [str "hello"; str "world"] ++ [10].
Proof.
  apply (echo_correct (replicate 256 7) eq_refl 40 ltac:(lia) (name "echo") [str "hello"; str "world"] (World [] [])); [done|].
  repeat constructor; by apply nul_free_lit || done.
Defined.

Lemma ls_lists_paths_witness :
  exists w', ls_main (replicate 256 7) 40 (Stat 0 0 0) (name "ls" :: (cstring <$> [str "/bin"; str "/tmp"])) (World [] []) = Ret (0, w') /\
    out w' = out (World [] []) ++ listing [str "/bin"; str "/tmp"].
Proof.
  apply (ls_lists_paths (replicate 256 7) eq_refl 40 ltac:(lia) (Stat 0 0 0) (name "ls") [str "/bin"; str "/tmp"] (World [] []));
    [repeat constructor; by apply nul_free_lit || done|by intros t [= <-]].
Defined.

Lemma ls_options_only_witness :
  exists w', ls_main (replicate 256 7) 40 (Stat 0 0 0) [name "ls"; cstring (45 :: str "ah")] (World [] []) = Ret (0, w') /\
    out w' = out (World [] []) ++ (45 :: str "ah") ++ [10].
Proof.
  apply (ls_options_only (replicate 256 7) eq_refl 40 ltac:(lia) (Stat 0 0 0) (name "ls") (str "ah") (World [] [])); [done| |done].
  repeat constructor; apply list_elem_of_In; cbn; tauto.
Defined.

Lemma perms_mode_witness : mode_of (perms (16384 + 493)) = 16384 + 493.
Proof. apply perms_mode; [by left|lia]. Defined.
End Apps.
