(* ===== verification/Perf.v ===== *)
(** * The profiler and the fast primitives: [crates/devine-perf-cpp]

    [profiler.cpp]: a table of 128 entries found by name; the time stamp counter is an argument.
    [crypto.cpp]: the FNV-1a hash and the copy of memory.  The operators [new] of that
    file return null and the operators [delete] do nothing; they have no state. *)
From S2P Require Import Prelude KernelLib Mm Libc LibcIo.
Import CString.
Open Scope Z_scope.

Module Perf.

Definition MAX_PROFILER_ENTRIES : Z := 128.
Definition MAX_NAME_LEN : Z := 64.

Record ProfilerEntry := Entry { name : bytes; start_time : Z; total_time : Z; count : Z; active : bool }.
Record profiler := Profiler { entries : list ProfilerEntry; entry_count : Z; profiler_enabled : bool }.

Definition initial : profiler := Profiler (replicate 128 (Entry (replicate 64 0) 0 0 0 false)) 0 true.

Definition set_entries (l : list ProfilerEntry) (p : profiler) : profiler := Profiler l (entry_count p) (profiler_enabled p).

(** The place of a name among the entries, from [i] on; -1 if there is none. *)
Fixpoint find_from (l : list ProfilerEntry) (n : bytes) (i : Z) : option Z :=
  match l with
  | [] => Some (-1)
  | e :: l' => r ← strcmp (name e) n; if r =? 0 then Some i else find_from l' n (i + 1)
  end.

Definition find_entry (n : bytes) (p : profiler) : option Z := find_from (take (Z.to_nat (entry_count p)) (entries p)) n 0.

Definition create_entry (n : bytes) (p : profiler) : option (Z * profiler) :=
  if MAX_PROFILER_ENTRIES <=? entry_count p then Some (-1, p)
  else
    let idx := entry_count p in
    e ← getZ (entries p) idx;
    t ← LibcIo.strncpy (name e) n (Z.to_nat (MAX_NAME_LEN - 1));
    t ← setZ t (MAX_NAME_LEN - 1) 0;
    l ← setZ (entries p) idx (Entry t 0 0 0 false);
    Some (idx, Profiler l (entry_count p + 1) (profiler_enabled p)).

(** The entry of a name, created when it is not there *)
Definition find_or_create (n : bytes) (p : profiler) : option (Z * profiler) :=
  idx ← find_entry n p; if idx <? 0 then create_entry n p else Some (idx, p).

(** The change [f] of the entry at [idx], if there is one *)
Definition update (f : ProfilerEntry -> ProfilerEntry) (r : Z * profiler) : option profiler :=
  let '(idx, p) := r in
  if 0 <=? idx then e ← getZ (entries p) idx; l ← setZ (entries p) idx (f e); Some (set_entries l p) else Some p.

(** [None] as a name is [NULL]; [tsc] is what the counter shows. *)
Definition profiler_start_timer (tsc : Z) (n : option bytes) (p : profiler) : option profiler :=
  match n with
  | Some n =>
      if negb (profiler_enabled p) then Some p
      else r ← find_or_create n p; update (fun e => Entry (name e) tsc (total_time e) (count e) true) r
  | None => Some p
  end.

Definition profiler_end_timer (tsc : Z) (n : option bytes) (p : profiler) : option profiler :=
  match n with
  | Some n =>
      if negb (profiler_enabled p) then Some p
      else
        idx ← find_entry n p;
        if 0 <=? idx then
          e ← getZ (entries p) idx;
          if active e then
            let elapsed := u64 (tsc - start_time e) in
            l ← setZ (entries p) idx (Entry (name e) (start_time e) (u64 (total_time e + elapsed)) (u64 (count e + 1)) false);
            Some (set_entries l p)
          else Some p
        else Some p
  | None => Some p
  end.

Definition profiler_increment_counter (n : option bytes) (p : profiler) : option profiler :=
  match n with
  | Some n =>
      if negb (profiler_enabled p) then Some p
      else r ← find_or_create n p; update (fun e => Entry (name e) (start_time e) (total_time e) (u64 (count e + 1)) (active e)) r
  | None => Some p
  end.

Definition profiler_get_counter (n : option bytes) (p : profiler) : option Z :=
  match n with
  | Some n => idx ← find_entry n p; if 0 <=? idx then e ← getZ (entries p) idx; Some (count e) else Some 0
  | None => Some 0
  end.

Definition clear (e : ProfilerEntry) : ProfilerEntry := Entry (name e) 0 0 0 false.
Definition profiler_reset (p : profiler) : profiler :=
  let k := Z.to_nat (entry_count p) in Profiler ((clear <$> take k (entries p)) ++ drop k (entries p)) 0 (profiler_enabled p).

(** ** The hash *)
Definition OFFSET : Z := 14695981039346656037.
Definition PRIME : Z := 1099511628211.

Definition hash_step (hash b : Z) : Z := u64 (Z.lxor hash b * PRIME).
Definition compute_hash (data : bytes) : Z := foldl hash_step OFFSET data.
Definition fast_hash : bytes -> Z := compute_hash.

(** [rep movsb] and the loop both go upwards. *)
Definition fast_memcpy (m : mem) (dest src len : Z) : mem := Libc.copy_up (Z.to_nat len) 0 m dest src.

(** *** One byte changes the hash *)
Definition PRIME_INVERSE : Z := 14886173955864302971.

Lemma mul_prime_inj x y : is_u64 x -> is_u64 y -> u64 (x * PRIME) = u64 (y * PRIME) -> x = y.
Proof.
  intros Hx Hy E. assert (u64 (u64 (x * PRIME) * PRIME_INVERSE) = u64 (u64 (y * PRIME) * PRIME_INVERSE)) as H by by rewrite E.
  unfold u64 in H. rewrite !Zmult_mod_idemp_l, <- !Z.mul_assoc in H. rewrite <- (Zmult_mod_idemp_r (PRIME * PRIME_INVERSE)) in H.
  rewrite <- (Zmult_mod_idemp_r (PRIME * PRIME_INVERSE) y) in H. change ((PRIME * PRIME_INVERSE) mod 18446744073709551616) with 1 in H.
  red in Hx, Hy. by rewrite !Z.mul_1_r, !Z.mod_small in H by lia.
Qed.

Lemma lxor_u64 x b : is_u64 x -> is_u8 b -> is_u64 (Z.lxor x b).
Proof.
  intros Hx Hb. red in Hx, Hb |- *. split; [apply Z.lxor_nonneg; lia|]. destruct (Z.eq_dec (Z.lxor x b) 0) as [->|]; [lia|].
  assert (0 <= Z.lxor x b) by (apply Z.lxor_nonneg; lia). change 18446744073709551616 with (2 ^ 64). apply Z.log2_lt_pow2; [lia|].
  eapply Z.le_lt_trans; [apply Z.log2_lxor; lia|]. apply Z.max_lub_lt.
  - destruct (Z.eq_dec x 0) as [->|]; [done|]. apply Z.log2_lt_pow2; [lia|]. change (2 ^ 64) with 18446744073709551616. lia.
  - destruct (Z.eq_dec b 0) as [->|]; [done|]. apply Z.log2_lt_pow2; [lia|]. change (2 ^ 64) with 18446744073709551616. lia.
Qed.

Lemma lxor_cancel a b c : Z.lxor (Z.lxor a b) b = Z.lxor (Z.lxor c b) b -> a = c.
Proof. by rewrite !Z.lxor_assoc, !Z.lxor_nilpotent, !Z.lxor_0_r. Qed.

Lemma hash_step_inj x y b : is_u64 x -> is_u64 y -> is_u8 b -> hash_step x b = hash_step y b -> x = y.
Proof. intros Hx Hy Hb E. apply (lxor_cancel x b y). f_equal. apply mul_prime_inj; [by apply lxor_u64|by apply lxor_u64|done]. Qed.

Lemma hash_inj data : forall x y, bytes_ok data -> is_u64 x -> is_u64 y -> foldl hash_step x data = foldl hash_step y data -> x = y.
Proof.
  induction data as [|b data IH]; intros x y Hd Hx Hy; cbn [foldl]; [done|]. apply list.Forall_cons in Hd as [Hb Hd].
  intros E. apply IH in E; [|done|apply u64_range|apply u64_range]. by eapply hash_step_inj.
Qed.

Lemma hash_range data x : is_u64 x -> is_u64 (foldl hash_step x data).
Proof. revert x. induction data as [|b data IH]; intros x Hx; cbn; [done|]. apply IH, u64_range. Qed.

(** the hash sees every single change: two messages that differ in exactly one byte have different hashes. *)
Theorem fast_hash_differs l r b c : bytes_ok l -> bytes_ok r -> is_u8 b -> is_u8 c -> b <> c ->
  fast_hash (l ++ b :: r) <> fast_hash (l ++ c :: r).
Proof.
  intros Hl Hr Hb Hc Hne E. apply Hne. unfold fast_hash, compute_hash in E. rewrite !foldl_app in E. cbn [foldl] in E.
  set (h := foldl hash_step OFFSET l) in *. assert (is_u64 h) as Hh by (apply hash_range; red; unfold OFFSET; lia).
  apply hash_inj in E; [|done|apply u64_range|apply u64_range]. apply mul_prime_inj in E; [|by apply lxor_u64|by apply lxor_u64].
  rewrite !(Z.lxor_comm h) in E. apply (f_equal (fun x => Z.lxor x h)) in E. by apply lxor_cancel in E.
Qed.

Lemma fast_hash_differs_witness : fast_hash ([1; 2] ++ 3 :: [4]) <> fast_hash ([1; 2] ++ 5 :: [4]).
Proof. apply fast_hash_differs; [by repeat constructor|by repeat constructor|red; lia|red; lia|lia]. Defined.

(** ** The table of the profiler *)
Definition names (e : ProfilerEntry) (t : bytes) : Prop := exists rest, name e = t ++ 0 :: rest /\ nul_free t.

(** The entries in use have the names [L]. *)
Record table_ok (p : profiler) (L : list bytes) : Prop := {
  to_count : entry_count p = lenZ L;
  to_room : lenZ L <= 128;
  to_size : lenZ (entries p) = 128;
  to_names : Forall2 names (take (length L) (entries p)) L;
  to_short : Forall (fun t => lenZ t < 64) L;
  to_arrays : Forall (fun e => lenZ (name e) = 64) (entries p)
}.

Definition place (t : bytes) (L : list bytes) : Z := match list_find (fun x => x = t) L with Some (k, _) => Z.of_nat k | None => -1 end.

Lemma find_from_spec l L t r : Forall2 names l L -> nul_free t -> forall i,
  find_from l (t ++ 0 :: r) i = Some (match list_find (fun x => x = t) L with Some (k, _) => i + Z.of_nat k | None => -1 end).
Proof.
  intros Hl Ht. induction Hl as [|e x l L (rest & Hx & Hn) _ IH]; intros i; cbn [find_from list_find]; [done|]. rewrite Hx.
  destruct (strcmp_spec x t rest r Hn Ht) as (z & -> & Hz). cbn [mbind option_bind]. destruct (decide (x = t)) as [E|E].
  - rewrite (proj2 (Z.eqb_eq z 0)) by tauto. cbn. f_equal. lia.
  - rewrite (proj2 (Z.eqb_neq z 0)) by tauto. rewrite IH. f_equal. destruct (list_find _ L) as [[k y]|]; cbn; [lia|done].
Qed.

Lemma find_entry_spec p L t r : table_ok p L -> nul_free t -> find_entry (t ++ 0 :: r) p = Some (place t L).
Proof.
  intros H Ht. unfold find_entry, place. rewrite (to_count _ _ H). unfold lenZ. rewrite Nat2Z.id. apply (find_from_spec _ L); [apply (to_names _ _ H)|done].
Qed.

Lemma place_cases t L : ((t ∉ L) /\ place t L = -1) \/ exists k, place t L = Z.of_nat k /\ L !! k = Some t.
Proof.
  unfold place. destruct (list_find (fun x => x = t) L) as [[k y]|] eqn:E.
  - right. exists k. apply list_find_Some in E as (E & -> & _). done.
  - left. split; [|done]. apply list_find_None in E. intros H. rewrite list.Forall_forall in E. by apply (E t).
Qed.

Lemma strncpy_name n : forall dest t r, (n <= length dest)%nat -> nul_free t ->
  LibcIo.strncpy dest (t ++ 0 :: r) n = Some (take n t ++ replicate (n - length t) 0 ++ drop n dest).
Proof.
  induction n as [|n IH]; intros dest t r Hn Ht; [done|]. destruct dest as [|x dest]; [cbn in Hn; lia|]. destruct t as [|c t]; cbn [app LibcIo.strncpy length].
  - change (0 =? 0) with true. cbv iota. rewrite splice_Some; [|lia|rewrite lenZ_replicate; unfold lenZ; cbn [length] in *; lia].
    change (Z.to_nat 0) with 0%nat. rewrite take_0, length_replicate, Nat.sub_0_r. done.
  - apply list.Forall_cons in Ht as [Hc Ht]. rewrite (proj2 (Z.eqb_neq c 0)) by done. rewrite IH by (done || cbn in Hn; lia). done.
Qed.

(** The name of a new entry: 63 characters at most *)
Lemma new_name a t r : lenZ a = 64 -> nul_free t ->
  exists b c rest, LibcIo.strncpy a (t ++ 0 :: r) 63 = Some b /\ setZ b 63 0 = Some c /\ c = take 63 t ++ 0 :: rest /\ lenZ c = 64.
Proof.
  intros Ha Ht. unfold lenZ in Ha. rewrite strncpy_name by (done || lia). rewrite app_assoc. set (l := take 63 t ++ replicate (63 - length t) 0). assert (length l = 63%nat) as Hl by (unfold l; rewrite length_app, length_take, length_replicate; lia).
  destruct (drop 63 a) as [|x [|y d]] eqn:Ed; [apply (f_equal length) in Ed; rewrite length_drop in Ed; cbn in Ed; lia| |apply (f_equal length) in Ed; rewrite length_drop in Ed; cbn in Ed; lia].
  eexists _, _, (replicate (63 - length t) 0). split; [done|].
  rewrite setZ_Some by (rewrite lenZ_app; unfold lenZ; rewrite Hl; cbn; lia). split; [reflexivity|]. replace (Z.to_nat 63) with (length l + 0)%nat by lia. rewrite insert_app_r. cbn.
  split; [|unfold lenZ; rewrite length_app, Hl; done]. unfold l. rewrite <- app_assoc. f_equal.
  change (0 :: replicate (63 - length t) 0) with (replicate (S (63 - length t)) 0). by rewrite replicate_S_end.
Qed.

(** An entry changes, but not its name. *)
Lemma table_update p L k e e' : table_ok p L -> entries p !! k = Some e -> name e' = name e -> table_ok (set_entries (<[k := e']> (entries p)) p) L.
Proof.
  intros [H1 H2 H3 H4 H5 H6] Hk He. split; cbn [entry_count entries set_entries]; try done.
  - by rewrite lenZ_insert.
  - destruct (decide (k < length L)%nat) as [Hlt|]; [|by rewrite take_insert_ge by lia]. rewrite take_insert_lt by lia.
    apply Forall2_same_length_lookup_2; [by rewrite length_insert; apply Forall2_length in H4|]. intros i x y Hx Hy.
    destruct (decide (i = k)) as [->|Hne]; [|rewrite list_lookup_insert_ne in Hx by done; by eapply (Forall2_lookup_lr _ _ _ _ _ _ H4)].
    assert (take (length L) (entries p) !! k = Some e) as Hk' by (by rewrite lookup_take_lt by lia).
    rewrite list_lookup_insert_eq in Hx by (by eapply lookup_lt_Some). injection Hx as <-.
    destruct (Forall2_lookup_lr _ _ _ _ _ _ H4 Hk' Hy) as (rest & E & Hx). exists rest. by rewrite He.
  - apply Forall_insert; [done|]. rewrite He. rewrite list.Forall_forall in H6. apply H6. by eapply list_elem_of_lookup_2.
Qed.

Lemma create_entry_spec p L t r : table_ok p L -> lenZ L < 128 -> nul_free t ->
  exists e p', create_entry (t ++ 0 :: r) p = Some (lenZ L, p') /\ table_ok p' (L ++ [take 63 t]) /\
    entries p' = <[length L := e]> (entries p) /\ count e = 0 /\ profiler_enabled p' = profiler_enabled p.
Proof.
  intros [H1 H2 H3 H4 H5 H6] HL Ht. unfold create_entry, MAX_PROFILER_ENTRIES. rewrite H1, (proj2 (Z.leb_gt 128 _)) by lia. pose proof (lenZ_nonneg L).
  destruct (getZ_is_Some (entries p) (lenZ L)) as [e0 E0]; [lia|]. rewrite E0. cbn [mbind option_bind]. apply getZ_Some in E0 as [_ E0].
  assert (lenZ (name e0) = 64) as Hn by (rewrite list.Forall_forall in H6; apply H6; by eapply list_elem_of_lookup_2).
  change (Z.to_nat (MAX_NAME_LEN - 1)) with 63%nat. change (MAX_NAME_LEN - 1) with 63.
  destruct (new_name (name e0) t r Hn Ht) as (b & c & rest & -> & E2 & Ec & Hc). cbn [mbind option_bind]. rewrite E2. cbn [mbind option_bind].
  rewrite setZ_Some by lia. cbn [mbind option_bind]. replace (Z.to_nat (lenZ L)) with (length L) in * by (unfold lenZ; lia).
  eexists _, _. split; [done|]. split; [|done]. split; cbn [entry_count entries].
  - rewrite lenZ_app. done.
  - rewrite lenZ_app. change (lenZ [take 63 t]) with 1. lia.
  - by rewrite lenZ_insert.
  - rewrite length_app, Nat.add_1_r. rewrite (take_S_r _ _ (Entry c 0 0 0 false)) by (apply list_lookup_insert_eq; unfold lenZ in *; lia).
    rewrite take_insert_ge by lia. apply Forall2_app; [done|]. constructor; [|constructor]. exists rest. split; [done|by apply Forall_take].
  - apply Forall_app. split; [done|]. constructor; [|constructor]. unfold lenZ. rewrite length_take. lia.
  - by apply Forall_insert.
Qed.

(** The counter of [t]: that of its first entry *)
Definition counter (p : profiler) (L : list bytes) (t : bytes) : Z :=
  match list_find (fun x => x = t) L with Some (k, _) => default 0 (count <$> entries p !! k) | None => 0 end.

Lemma get_counter_spec p L t r : table_ok p L -> nul_free t -> profiler_get_counter (Some (t ++ 0 :: r)) p = Some (counter p L t).
Proof.
  intros H Ht. unfold profiler_get_counter, counter. rewrite (find_entry_spec p L) by done. cbn [mbind option_bind]. unfold place.
  destruct (list_find (fun x => x = t) L) as [[k y]|] eqn:E; [|done]. rewrite (proj2 (Z.leb_le 0 _)) by lia. rewrite getZ_nat.
  apply list_find_Some in E as (E & _). apply lookup_lt_Some in E. pose proof (to_size _ _ H). pose proof (to_room _ _ H). unfold lenZ in *.
  destruct (lookup_lt_is_Some_2 (entries p) k ltac:(lia)) as [e ->]. done.
Qed.

(** One more in the entry [k] of [t] *)
Lemma counter_update p L k e t u : table_ok p L -> list_find (fun x => x = t) L = Some (k, t) -> entries p !! k = Some e ->
  counter (set_entries (<[k := Entry (name e) (start_time e) (total_time e) (u64 (count e + 1)) (active e)]> (entries p)) p) L u =
    if decide (u = t) then u64 (counter p L u + 1) else counter p L u.
Proof.
  intros H Hk He. unfold counter. cbn [entries set_entries]. pose proof (lookup_lt_Some _ _ _ He) as Hlt. destruct (decide (u = t)) as [->|Hne].
  - rewrite Hk, list_lookup_insert_eq, He by done. done.
  - destruct (list_find (fun x => x = u) L) as [[j y]|] eqn:E; [|done]. apply list_find_Some in E as (Ej & -> & _). apply list_find_Some in Hk as (Ek & _).
    rewrite list_lookup_insert_ne; [done|]. intros ->. congruence.
Qed.

Lemma counter_new p p' L t u e : table_ok p L -> t ∉ L -> entries p' = <[length L := e]> (entries p) -> count e = 0 ->
  counter p' (L ++ [t]) u = counter p L u.
Proof.
  intros H Ht He Hc. unfold counter. rewrite He. destruct (list_find (fun x => x = u) L) as [[j y]|] eqn:E.
  - rewrite (list_find_app_l _ L [t] j y) by done. apply list_find_Some in E as (Ej & _). apply lookup_lt_Some in Ej. by rewrite list_lookup_insert_ne by lia.
  - rewrite list_find_app_r by done. cbn [list_find]. destruct (decide (t = u)); [|done]. cbn. rewrite ?Nat.add_0_r. pose proof (to_room _ _ H). pose proof (to_size _ _ H).
    unfold lenZ in *. destruct (decide (length L < length (entries p))%nat) as [Hlt|Hge].
    + rewrite list_lookup_insert_eq by done. done.
    + rewrite list_insert_ge, (lookup_ge_None_2 (entries p)) by lia. done.
Qed.

(** the counters.  While there is room, incrementing the counter of a name of at most 63 characters adds one to it and
    changes no other; the table stays well formed. *)
Theorem profiler_counts p L t r :
  table_ok p L -> profiler_enabled p = true -> nul_free t -> lenZ t < 64 -> t ∈ L \/ lenZ L < 128 ->
  exists p' L', profiler_increment_counter (Some (t ++ 0 :: r)) p = Some p' /\ table_ok p' L' /\ profiler_enabled p' = true /\
    forall u r', nul_free u -> exists c, profiler_get_counter (Some (u ++ 0 :: r')) p = Some c /\
      profiler_get_counter (Some (u ++ 0 :: r')) p' = Some (if decide (u = t) then u64 (c + 1) else c).
Proof.
  intros H Hen Ht Hl Hroom. unfold profiler_increment_counter. rewrite Hen. cbn [negb].
  assert (exists p1 L1 k, find_or_create (t ++ 0 :: r) p = Some (Z.of_nat k, p1) /\ table_ok p1 L1 /\ profiler_enabled p1 = true /\
    list_find (fun x => x = t) L1 = Some (k, t) /\ forall u, counter p1 L1 u = counter p L u) as (p1 & L1 & k & E & H1 & Hen1 & Hk & Hc1).
  { unfold find_or_create. rewrite (find_entry_spec p L) by done. cbn [mbind option_bind]. unfold place. destruct (list_find (fun x => x = t) L) as [[k y]|] eqn:E.
    - assert (y = t) as -> by (by apply list_find_Some in E as (_ & ? & _)). rewrite (proj2 (Z.ltb_ge _ _)) by lia. by exists p, L, k.
    - change (-1 <? 0) with true. cbv iota. assert (t ∉ L) as Hnot by (intros Hin; apply list_find_None in E; rewrite list.Forall_forall in E; by apply (E t)).
      destruct (create_entry_spec p L t r) as (e & p1 & -> & H1 & He & Hc & Hen1); [done|tauto|done|]. rewrite take_ge in H1 by (unfold lenZ in Hl; lia).
      exists p1, (L ++ [t]), (length L). split; [done|]. split; [done|]. split; [congruence|]. split.
      + rewrite list_find_app_r by done. cbn [list_find]. rewrite decide_True by done. cbn. by rewrite ?Nat.add_0_r.
      + intros u. by apply (counter_new p p1 L t u e). }
  rewrite E. cbn [mbind option_bind update]. rewrite (proj2 (Z.leb_le 0 _)) by lia. rewrite getZ_nat.
  pose proof Hk as Hk'. apply list_find_Some in Hk' as (Hk' & _). apply lookup_lt_Some in Hk'. pose proof (to_size _ _ H1) as Hs. pose proof (to_room _ _ H1).
  unfold lenZ in *. destruct (lookup_lt_is_Some_2 (entries p1) k ltac:(lia)) as [e He]. rewrite He. cbn [mbind option_bind].
  rewrite setZ_Some by (unfold lenZ; lia). cbn [mbind option_bind]. rewrite Nat2Z.id. eexists _, L1. split; [done|].
  split; [by eapply table_update|]. split; [done|]. intros u r' Hu. exists (counter p L u). split; [by apply get_counter_spec|].
  rewrite (get_counter_spec _ L1) by (done || by eapply table_update). by rewrite (counter_update p1 L1 k e t u), Hc1.
Qed.

(** long names.  A name of 64 characters or more is never found again: each call takes a new entry, and the
    counter stays 0. *)
Theorem profiler_long_name p L t r :
  table_ok p L -> profiler_enabled p = true -> nul_free t -> 64 <= lenZ t -> lenZ L < 128 ->
  exists p' L', profiler_increment_counter (Some (t ++ 0 :: r)) p = Some p' /\ table_ok p' L' /\ entry_count p' = entry_count p + 1 /\
    profiler_get_counter (Some (t ++ 0 :: r)) p' = Some 0.
Proof.
  intros H Hen Ht Hl Hroom. assert (forall L', Forall (fun x => lenZ x < 64) L' -> list_find (fun x => x = t) L' = None) as Hnot.
  { intros L' HL'. apply list_find_None. apply (list.Forall_impl _ _ _ HL'). intros x Hx ->. lia. }
  unfold profiler_increment_counter, find_or_create. rewrite Hen. cbn [negb]. rewrite (find_entry_spec p L) by done. cbn [mbind option_bind]. unfold place.
  rewrite (Hnot L) by apply (to_short _ _ H). change (-1 <? 0) with true. cbv iota.
  destruct (create_entry_spec p L t r) as (e & p1 & -> & H1 & He & Hc & Hen1); [done|done|done|]. cbn [mbind option_bind update]. pose proof (lenZ_nonneg L).
  rewrite (proj2 (Z.leb_le 0 _)) by lia. change (getZ (entries p1) (lenZ L)) with (getZ (entries p1) (Z.of_nat (length L))). rewrite getZ_nat. pose proof (to_size _ _ H) as Hs. unfold lenZ in Hs, Hroom.
  assert (entries p1 !! length L = Some e) as E1 by (rewrite He; apply list_lookup_insert_eq; lia). rewrite E1. cbn [mbind option_bind].
  rewrite setZ_Some by (pose proof (to_size _ _ H1); unfold lenZ in *; lia). cbn [mbind option_bind]. replace (Z.to_nat (lenZ L)) with (length L) by (unfold lenZ; lia).
  eexists _, (L ++ [take 63 t]). split; [done|]. split; [by eapply table_update|]. cbn [entry_count set_entries]. split.
  - rewrite (to_count _ _ H1), (to_count _ _ H), lenZ_app. done.
  - rewrite (get_counter_spec _ (L ++ [take 63 t])) by (done || by eapply table_update). unfold counter. by rewrite Hnot by apply (to_short _ _ H1).
Qed.

Lemma initial_ok : table_ok initial [].
Proof. split; [done|by vm_compute|done|constructor|constructor|]. by apply Forall_replicate. Qed.

Lemma profiler_counts_witness :
  exists p' L', profiler_increment_counter (Some ([105; 114; 113] ++ 0 :: [])) initial = Some p' /\ table_ok p' L' /\ profiler_enabled p' = true /\
    forall u r', nul_free u -> exists c, profiler_get_counter (Some (u ++ 0 :: r')) initial = Some c /\
      profiler_get_counter (Some (u ++ 0 :: r')) p' = Some (if decide (u = [105; 114; 113]) then u64 (c + 1) else c).
Proof. apply (profiler_counts initial [] [105; 114; 113] [] initial_ok); [done|by repeat constructor|done|by right]. Defined.

Lemma profiler_long_name_witness :
  exists p' L', profiler_increment_counter (Some (replicate 64 97 ++ 0 :: [])) initial = Some p' /\ table_ok p' L' /\ entry_count p' = entry_count initial + 1 /\
    profiler_get_counter (Some (replicate 64 97 ++ 0 :: [])) p' = Some 0.
Proof. apply (profiler_long_name initial [] (replicate 64 97) [] initial_ok); [done|by apply Forall_replicate|done|done]. Defined.
End Perf.
