(* ===== verification/Subsystems.v ===== *)
(** * The subsystem framework in C++: [include/kernel], [src/kernel/Kernel.cpp], [Registry.cpp], [Log.cpp] and [src/main.cpp]

    A subsystem is a record of its hooks, as functions on what a hook can reach of the kernel:
    the log and the services.  Registering another subsystem from inside a hook, which no subsystem of the program
    does and which would invalidate the iteration, is not expressible.  Services are
    found by the name of their type. *)
From Stdlib Require Import String.
From stdpp Require Import strings.
From S2P Require Import Prelude.
Open Scope list_scope.
Open Scope Z_scope.

Module Subsystems.

Inductive LogLevel := DEBUG | INFO | WARNING | ERROR | CRITICAL.
Inductive PrivilegeLevel := User | Driver | Kernel_.

(** The lines written to the standard output, and the service of each type *)
Record env := Env { out : list string; services : gmap string Z }.

Definition level_str (level : LogLevel) : string :=
  match level with DEBUG => "DEBUG" | INFO => "INFO" | WARNING => "WARNING" | ERROR => "ERROR" | CRITICAL => "CRITICAL" end.

Definition log (level : LogLevel) (module message : string) (e : env) : env :=
  Env (out e ++ ["[" +:+ level_str level +:+ "] [" +:+ module +:+ "] " +:+ message]) (services e).

Record ISubsystem := Subsystem {
  name : string;
  get_privilege_level : PrivilegeLevel;
  on_early_init : env -> env;
  on_late_init : env -> env;
  on_shutdown : env -> env
}.

(** The hooks of the base class *)
Definition default_hook (e : env) : env := e.

Record Kernel := MkKernel { subsystems : list ISubsystem; state : env }.

Definition construct (e : env) : Kernel := MkKernel [] (log INFO "Kernel" "Kernel initialized" e).
Definition destroy (k : Kernel) : env := log INFO "Kernel" "Kernel destroyed" (state k).

(** One hook of each subsystem, in the order of the list *)
Definition each (hook : ISubsystem -> env -> env) (l : list ISubsystem) (e : env) : env := foldl (fun e s => hook s e) e l.

Definition early_init (k : Kernel) : Kernel :=
  MkKernel (subsystems k) (each on_early_init (subsystems k) (log INFO "Kernel" "Early Init Phase" (state k))).
Definition late_init (k : Kernel) : Kernel :=
  MkKernel (subsystems k) (each on_late_init (subsystems k) (log INFO "Kernel" "Late Init Phase" (state k))).
(** From the last to the first *)
Definition shutdown (k : Kernel) : Kernel :=
  MkKernel (subsystems k) (each on_shutdown (reverse (subsystems k)) (log INFO "Kernel" "Shutdown Phase" (state k))).

Definition register_subsystem (s : ISubsystem) (k : Kernel) : Kernel :=
  MkKernel (subsystems k ++ [s]) (log DEBUG "Kernel" (name s) (log DEBUG "Kernel" "Registering subsystem: " (state k))).

Definition register_service (type : string) (service : Z) (e : env) : env :=
  log DEBUG "Kernel" "Service registered" (Env (out e) (<[type := service]> (services e))).
Definition get_service (type : string) (e : env) : option Z := services e !! type.

(** The registry holds the factories in the order of registration; a factory makes a new subsystem. *)
Definition SubsystemFactory := unit -> ISubsystem.
Definition registry := list SubsystemFactory.
Definition register_factory (f : SubsystemFactory) (r : registry) : registry := r ++ [f].

(** [main] for the factories of a registry *)
Definition run (r : registry) (e : env) : env :=
  let k := foldl (fun k f => register_subsystem (f tt) k) (construct e) r in
  destroy (shutdown (late_init (early_init k))).

(** ** The subsystems of [main.cpp] *)
Definition memory_service : Z := 42.
Definition MemorySubsystem : ISubsystem :=
  Subsystem "MemoryManager" Kernel_
    (fun e => register_service "int" memory_service (log INFO "MemoryManager" "Initializing Memory..." e)) default_hook default_hook.

Definition SchedulerSubsystem : ISubsystem :=
  Subsystem "Scheduler" User default_hook
    (fun e =>
       let e := log INFO "Scheduler" "Starting Scheduler..." e in
       match get_service "int" e with
       | Some _ => log INFO "Scheduler" "Found Memory Service!" e
       | None => log ERROR "Scheduler" "Memory Service NOT Found!" e
       end) default_hook.

(** The static objects of one file are made in the order of their definitions. *)
Definition auto_registered : registry := register_factory (fun _ => SchedulerSubsystem) (register_factory (fun _ => MemorySubsystem) []).
Definition main (e : env) : env := run auto_registered e.

(** ** The life of a kernel *)
Lemma registered r k : subsystems (foldl (fun k f => register_subsystem (f tt) k) k r) = subsystems k ++ ((fun f : SubsystemFactory => f tt) <$> r) /\
  services (state (foldl (fun k f => register_subsystem (f tt) k) k r)) = services (state k).
Proof.
  revert k. induction r as [|f r IH]; intros k; cbn [foldl fmap list_fmap]; [by rewrite app_nil_r|].
  destruct (IH (register_subsystem (f tt) k)) as [-> ->]. cbn. by rewrite <- app_assoc.
Qed.

(** Shutting down takes back what the early hook did to the services; the late hook leaves them alone. *)
Definition undoes (s : ISubsystem) : Prop :=
  (forall e e', services e' = services (on_early_init s e) -> services (on_shutdown s e') = services e) /\
  (forall e, services (on_late_init s e) = services e).

Lemma each_late l e : Forall undoes l -> services (each on_late_init l e) = services e.
Proof. intros Hl. revert e. induction Hl as [|s l [_ Hs] Hl IH]; intros e; [done|]. change (services (each on_late_init l (on_late_init s e)) = services e). by rewrite IH, Hs. Qed.

Lemma each_undone l : Forall undoes l -> forall e e', services e' = services (each on_early_init l e) ->
  services (each on_shutdown (reverse l) e') = services e.
Proof.
  intros Hl. induction Hl as [|s l [Hs _] Hl IH]; intros e e' He; cbn [reverse]; [done|]. cbn [each foldl] in He.
  rewrite reverse_cons. unfold each. rewrite foldl_app. cbn [foldl]. apply Hs. by apply IH.
Qed.

(** last in, first out.  Because shutting down goes through the subsystems backwards, a kernel whose subsystems each
    take back their own changes ends with the services it began with, whatever the subsystems are and whatever they
    build on. *)
Theorem run_restores_services r e : Forall undoes ((fun f : SubsystemFactory => f tt) <$> r) -> services (run r e) = services e.
Proof.
  intros Hr. unfold run, destroy, shutdown, late_init, early_init. cbn [services log state subsystems].
  set (k := foldl (fun k f => register_subsystem (f tt) k) (construct e) r). assert (Forall undoes (subsystems k)) as Hk by (unfold k; by rewrite (proj1 (registered r (construct e)))).
  erewrite each_undone; [|done|by cbn [services log]; rewrite each_late]. cbn [services log].
  unfold k. by rewrite (proj2 (registered r (construct e))).
Qed.

(** the program finds its service.  The scheduler starts after every subsystem had its early hook, and the log of [main]
    is exactly this. *)
Theorem main_log s : out (main (Env [] s)) =
  ["[INFO] [Kernel] Kernel initialized"; "[DEBUG] [Kernel] Registering subsystem: "; "[DEBUG] [Kernel] MemoryManager";
   "[DEBUG] [Kernel] Registering subsystem: "; "[DEBUG] [Kernel] Scheduler"; "[INFO] [Kernel] Early Init Phase";
   "[INFO] [MemoryManager] Initializing Memory..."; "[DEBUG] [Kernel] Service registered"; "[INFO] [Kernel] Late Init Phase";
   "[INFO] [Scheduler] Starting Scheduler..."; "[INFO] [Scheduler] Found Memory Service!"; "[INFO] [Kernel] Shutdown Phase";
   "[INFO] [Kernel] Kernel destroyed"]%string.
Proof.
  unfold main, run. cbn -[insert lookup]. unfold get_service, each. cbn -[insert lookup]. rewrite lookup_insert_eq. done.
Qed.

Lemma run_restores_services_witness : services (run [fun _ => SchedulerSubsystem] (Env [] {["disk"%string := 1]})) = services (Env [] {["disk"%string := 1]}).
Proof.
  apply (run_restores_services [fun _ => SchedulerSubsystem] (Env [] {["disk"%string := 1]})). constructor; [|constructor]. split; [done|].
  intros e. cbn -[lookup]. by case_match.
Defined.
End Subsystems.
