(* ===== verification/Mkfs.v ===== *)
(** * Making a file system: [examples/fs/mkfs_ext2.c]

    The host program that writes an ext2 image, and the image as the kernel mounts
    it.  The text it prints is left out; [fopen] may fail, writes to the open file
    and [calloc] succeed, and [time] is any clock. *)
From Stdlib Require Import String.
From S2P Require Import Prelude KernelLib Device BlockDev BlockCache BlockCacheProofs.
From S2P Require Import Ext2Base Ext2Alloc Ext2Inode Ext2File Ext2Write Ext2Mount Ext2Dir Ext2DirProofs.
Import Memory CString Bitmap Chain Ramdisk RamdiskProofs.
Open Scope list_scope.
Open Scope Z_scope.

(** ** The structures, as the program declares them *)
Open Scope string_scope.
Definition ext2_superblock_t : layout :=
  [("s_inodes_count", (4, 1)); ("s_blocks_count", (4, 1)); ("s_r_blocks_count", (4, 1));
   ("s_free_blocks_count", (4, 1)); ("s_free_inodes_count", (4, 1)); ("s_first_data_block", (4, 1));
   ("s_log_block_size", (4, 1)); ("s_log_frag_size", (4, 1)); ("s_blocks_per_group", (4, 1));
   ("s_frags_per_group", (4, 1)); ("s_inodes_per_group", (4, 1)); ("s_mtime", (4, 1)); ("s_wtime", (4, 1));
   ("s_mnt_count", (2, 1)); ("s_max_mnt_count", (2, 1)); ("s_magic", (2, 1)); ("s_state", (2, 1));
   ("s_errors", (2, 1)); ("s_minor_rev_level", (2, 1)); ("s_lastcheck", (4, 1)); ("s_checkinterval", (4, 1));
   ("s_creator_os", (4, 1)); ("s_rev_level", (4, 1)); ("s_def_resuid", (2, 1)); ("s_def_resgid", (2, 1));
   ("s_first_ino", (4, 1)); ("s_inode_size", (2, 1)); ("s_block_group_nr", (2, 1));
   ("s_feature_compat", (4, 1)); ("s_feature_incompat", (4, 1)); ("s_feature_ro_compat", (4, 1));
   ("s_uuid", (1, 16)); ("s_volume_name", (1, 16)); ("s_last_mounted", (1, 64)); ("s_algo_bitmap", (4, 1));
   ("s_prealloc_blocks", (1, 1)); ("s_prealloc_dir_blocks", (1, 1)); ("s_padding1", (2, 1));
   ("s_journal_uuid", (1, 16)); ("s_journal_inum", (4, 1)); ("s_journal_dev", (4, 1)); ("s_last_orphan", (4, 1));
   ("s_hash_seed", (4, 4)); ("s_def_hash_version", (1, 1)); ("s_reserved_char_pad", (1, 1));
   ("s_reserved_word_pad", (2, 1)); ("s_default_mount_opts", (4, 1)); ("s_first_meta_bg", (4, 1));
   ("s_reserved", (1, 760))]%nat.

Definition ext2_block_group_desc_t : layout :=
  [("bg_block_bitmap", (4, 1)); ("bg_inode_bitmap", (4, 1)); ("bg_inode_table", (4, 1));
   ("bg_free_blocks_count", (2, 1)); ("bg_free_inodes_count", (2, 1)); ("bg_used_dirs_count", (2, 1));
   ("bg_pad", (2, 1)); ("bg_reserved", (1, 12))]%nat.

Definition ext2_inode_t : layout :=
  [("i_mode", (2, 1)); ("i_uid", (2, 1)); ("i_size", (4, 1)); ("i_atime", (4, 1)); ("i_ctime", (4, 1));
   ("i_mtime", (4, 1)); ("i_dtime", (4, 1)); ("i_gid", (2, 1)); ("i_links_count", (2, 1)); ("i_blocks", (4, 1));
   ("i_flags", (4, 1)); ("i_osd1", (4, 1)); ("i_block", (4, 15)); ("i_generation", (4, 1)); ("i_file_acl", (4, 1));
   ("i_dir_acl", (4, 1)); ("i_faddr", (4, 1)); ("i_osd2", (1, 12))]%nat.

Definition ext2_dir_entry_t : layout :=
  [("inode", (4, 1)); ("rec_len", (2, 1)); ("name_len", (1, 1)); ("file_type", (1, 1)); ("name", (1, 255))]%nat.

Close Scope string_scope.

(** ** The output file *)
Record FILE := File { contents : bytes; position : Z }.

Definition fopen_wb : FILE := File [] 0.
Definition fseek_set (fp : FILE) (offset : Z) : FILE := File (contents fp) offset.

(** A write behind the end of the file fills the gap with zeros. *)
Definition fwrite (data : bytes) (fp : FILE) : FILE :=
  let c := contents fp ++ replicate (Z.to_nat (position fp - lenZ (contents fp))) 0 in
  File (take (Z.to_nat (position fp)) c ++ data ++ drop (Z.to_nat (position fp + lenZ data)) c)
       (position fp + lenZ data).

Fixpoint zero_blocks (n : nat) (zero_block : bytes) (fp : FILE) : FILE :=
  match n with O => fp | S n' => zero_blocks n' zero_block (fwrite zero_block fp) end.

(** Assignments to members of a structure that starts at [base] of [buf]. *)
Fixpoint assign (t : layout) (base : Z) (l : list (string * Z)) (buf : bytes) : option bytes :=
  match l with
  | [] => Some buf
  | (f, v) :: l' => buf ← setf buf base (member t f) v; assign t base l' buf
  end.

(** [for (i = 0; i < n; i++) bitmap[i / 8] |= (1 << (i % 8));] *)
Fixpoint mark_bits (n : nat) (i : Z) (bitmap : bytes) : option bytes :=
  match n with
  | O => Some bitmap
  | S n' => bitmap ← set_bit bitmap i; mark_bits n' (i + 1) bitmap
  end.

Definition calloc1 (n : Z) : bytes := replicate (Z.to_nat n) 0.

(** ** The image

    [now k] is the result of the [k]-th call of [time].  [None] is undefined
    behaviour, [Some None] the exit when the file cannot be opened. *)
Open Scope string_scope.
Definition superblock_members (total_blocks num_groups : Z) (now : nat -> Z) : list (string * Z) :=
  let inodes := u32 (128 * num_groups) in
  [("s_inodes_count", inodes); ("s_blocks_count", total_blocks); ("s_r_blocks_count", 0);
   ("s_free_blocks_count", u32 (total_blocks - 10)); ("s_free_inodes_count", u32 (inodes - 11));
   ("s_first_data_block", 1); ("s_log_block_size", 0); ("s_log_frag_size", 0);
   ("s_blocks_per_group", 8192); ("s_frags_per_group", 8192); ("s_inodes_per_group", 128);
   ("s_mtime", u32 (now 0%nat)); ("s_wtime", u32 (now 1%nat)); ("s_mnt_count", 0); ("s_max_mnt_count", 20);
   ("s_magic", EXT2_MAGIC); ("s_state", 1); ("s_errors", 1); ("s_minor_rev_level", 0);
   ("s_lastcheck", u32 (now 2%nat)); ("s_checkinterval", 0); ("s_creator_os", 0); ("s_rev_level", 0);
   ("s_def_resuid", 0); ("s_def_resgid", 0); ("s_first_ino", 11); ("s_inode_size", 128);
   ("s_block_group_nr", 0)].

Definition group_members (total_blocks : Z) : list (string * Z) :=
  [("bg_block_bitmap", 3); ("bg_inode_bitmap", 4); ("bg_inode_table", 5);
   ("bg_free_blocks_count", u16 (total_blocks - 10)); ("bg_free_inodes_count", 128 - 11);
   ("bg_used_dirs_count", 1)].

Definition root_members (now : nat -> Z) : list (string * Z) :=
  [("i_mode", Z.lor EXT2_S_IFDIR 493); ("i_uid", 0); ("i_gid", 0); ("i_size", 1024);
   ("i_atime", u32 (now 3%nat)); ("i_ctime", u32 (now 4%nat)); ("i_mtime", u32 (now 5%nat));
   ("i_links_count", 2); ("i_blocks", 2); ("i_block", 10)].

Definition dot_members : list (string * Z) :=
  [("inode", 2); ("rec_len", 12); ("name_len", 1); ("file_type", EXT2_FT_DIR); ("name", 46)].

Definition dotdot_members : list (string * Z) :=
  [("inode", 2); ("rec_len", 1024 - 12); ("name_len", 2); ("file_type", EXT2_FT_DIR); ("name", 46)].

Close Scope string_scope.

Definition create_ext2_image (opened : bool) (now : nat -> Z) (size_mb : Z) : option (option bytes) :=
  let block_size := 1024 in
  let total_blocks := u32 (u32 (size_mb * 1024) * 1024) / block_size in
  let blocks_per_group := 8192 in
  let num_groups := u32 (total_blocks + blocks_per_group - 1) / blocks_per_group in
  let num_groups := if num_groups =? 0 then 1 else num_groups in
  if negb opened then Some None
  else
    let fp := zero_blocks (Z.to_nat total_blocks) (calloc1 block_size) fopen_wb in
    sb ← assign ext2_superblock_t 0 (superblock_members total_blocks num_groups now) (calloc1 (sizeof ext2_superblock_t));
    let fp := fwrite sb (fseek_set fp 1024) in
    bg ← assign ext2_block_group_desc_t 0 (group_members total_blocks) (calloc1 (sizeof ext2_block_group_desc_t));
    let fp := fwrite bg (fseek_set fp 2048) in
    block_bitmap ← mark_bits 10 0 (calloc1 block_size);
    let fp := fwrite block_bitmap (fseek_set fp (3 * block_size)) in
    inode_bitmap ← mark_bits 11 0 (calloc1 block_size);
    let fp := fwrite inode_bitmap (fseek_set fp (4 * block_size)) in
    root_inode ← assign ext2_inode_t 0 (root_members now) (calloc1 (sizeof ext2_inode_t));
    let fp := fwrite root_inode (fseek_set fp (5 * block_size + (2 - 1) * 128)) in
    root_dir ← assign ext2_dir_entry_t 0 dot_members (calloc1 block_size);
    root_dir ← assign ext2_dir_entry_t 12 dotdot_members root_dir;
    root_dir ← setf root_dir 13 (member ext2_dir_entry_t "name"%string) 46;
    let fp := fwrite root_dir (fseek_set fp (10 * block_size)) in
    Some (Some (contents fp)).

(** [main]: the arguments, then the exit code and the image, if one was written.  The program runs on the
    host: [atoi] is the one of the host's library. *)
Definition main (atoi : bytes -> Z) (opened : bool) (now : nat -> Z) (argv : list bytes) : option (Z * option bytes) :=
  match argv with
  | [_; _; size] =>
      let size_mb := u32 (atoi size) in
      if (size_mb <? 1) || (1024 <? size_mb) then Some (1, None)
      else
        img ← create_ext2_image opened now size_mb;
        match img with None => Some (1, None) | Some img => Some (0, Some img) end
  | _ => Some (1, None)
  end.

(** ** The structures and the image, read back *)

(** The program and the kernel declare the same structures. *)
Lemma mkfs_layouts :
  (ext2_superblock_t, ext2_block_group_desc_t, ext2_inode_t, ext2_dir_entry_t) =
  (sb_layout, bg_layout, inode_layout, dirent_layout).
Proof. reflexivity. Qed.

(** The members assigned lie in the structure and do not overlap. *)
Fixpoint assign_ok (t : layout) (size : Z) (l : list (string * Z)) : bool :=
  match l with
  | [] => true
  | (f, _) :: l' =>
      in_struct size (member t f) && forallb (fun g => apart (member t g.1) (member t f)) l' && assign_ok t size l'
  end.

Lemma assign_spec t size l : forall buf,
  lenZ buf = size -> assign_ok t size l = true ->
  Forall (fun g => 0 <= g.2 < 256 ^ Z.of_nat (f_width (member t g.1))) l ->
  exists buf', assign t 0 l buf = Some buf' /\ lenZ buf' = size /\
    (forall f v, (f, v) ∈ l -> getf buf' 0 (member t f) = Some v) /\
    (forall f', forallb (fun g => apart (member t g.1) f') l = true -> getf buf' 0 f' = getf buf 0 f').
Proof.
  induction l as [|[f v] l IH]; intros buf Hl Hok Hv; cbn [assign assign_ok] in *.
  { exists buf. split; [done|]. split; [done|]. split; [|done]. intros f v Hin. by apply elem_of_nil in Hin. }
  apply andb_true_iff in Hok as [[Hin Hap]%andb_true_iff Hok]. inversion Hv as [|? ? Hv0 Hv']; subst.
  unfold in_struct in Hin. destruct (st_is_Some buf (0 + f_off (member t f)) (f_width (member t f)) v) as [b1 H1]; [lia..|].
  unfold setf. rewrite H1. cbn [mbind option_bind]. pose proof (st_length _ _ _ _ _ H1) as Hl1.
  destruct (IH b1) as (b2 & -> & Hl2 & Hg & Ho); [lia|done|done|]. exists b2. split; [done|]. split; [lia|]. split.
  - intros f' v' [[= -> ->]|Hin']%elem_of_cons; [|by apply Hg]. rewrite Ho by done. by apply (ld_st_same _ _ _ _ _ H1).
  - intros f' [Ha Hall]%andb_true_iff. rewrite Ho by done. eapply getf_setf_other; [exact H1|]. cbn [fst] in Ha.
    unfold apart in Ha. lia.
Qed.

Lemma fwrite_within data fp c :
  splice (contents fp) (position fp) data = Some c -> fwrite data fp = File c (position fp + lenZ data).
Proof.
  intros Hs. pose proof (splice_inv _ _ _ _ Hs) as (H0 & Hl & ->). pose proof (lenZ_nonneg data). unfold fwrite.
  replace (Z.to_nat (position fp - lenZ (contents fp))) with 0%nat by lia. cbn [replicate]. rewrite app_nil_r.
  do 2 f_equal. f_equal. unfold lenZ. f_equal. lia.
Qed.

Lemma zero_blocks_spec n zb : forall fp, position fp = lenZ (contents fp) ->
  zero_blocks n zb fp = File (contents fp ++ concat (replicate n zb)) (lenZ (contents fp) + Z.of_nat n * lenZ zb).
Proof.
  induction n as [|n IH]; intros fp Hp; cbn [zero_blocks replicate concat].
  { destruct fp as [c p]. cbn in *. rewrite app_nil_r. f_equal. lia. }
  assert (fwrite zb fp = File (contents fp ++ zb) (lenZ (contents fp ++ zb))) as ->.
  { unfold fwrite. rewrite Hp. replace (Z.to_nat (_ - _)) with 0%nat by lia. cbn [replicate]. rewrite app_nil_r.
    pose proof (lenZ_nonneg zb). unfold lenZ in *. rewrite take_ge, drop_ge by lia. rewrite app_nil_r, length_app. f_equal. lia. }
  rewrite IH by done. cbn [contents]. rewrite <- app_assoc, lenZ_app. f_equal. lia.
Qed.

(** Block [b] of the image. *)
Definition blk (img : bytes) (b : Z) : option bytes := slice img (1024 * b) 1024.

Lemma put_block img T k o src off :
  lenZ img = 1024 * T -> 0 <= k < T -> 0 <= o -> o + lenZ src <= 1024 -> off = 1024 * k + o ->
  exists img', (forall pos, fwrite src (fseek_set (File img pos) off) = File img' (off + lenZ src)) /\
    lenZ img' = 1024 * T /\
    forall b, 0 <= b < T -> blk img' b = if decide (b = k) then r ← blk img k; splice r o src else blk img b.
Proof.
  intros Hl Hk Ho Hs ->. pose proof (lenZ_nonneg src) as Hs0.
  destruct (splice img (1024 * k + o) src) as [img'|] eqn:Hsp; [|rewrite splice_Some in Hsp by lia; done].
  exists img'. pose proof (splice_length _ _ _ _ Hsp) as Hl'. split; [intros pos; by apply fwrite_within|]. split; [lia|].
  intros b Hb. unfold blk. case_decide as E.
  - subst b. destruct (slice img (1024 * k) 1024) as [r|] eqn:Hr; [|rewrite slice_Some in Hr by lia; done].
    cbn [mbind option_bind]. by eapply slice_splice_inside; [exact Hr|..].
  - eapply slice_splice_disjoint; [exact Hsp|lia].
Qed.

Lemma concat_zeros n m : concat (replicate n (replicate m 0)) = replicate (n * m) 0.
Proof. induction n as [|n IH]; cbn [replicate concat]; [done|]. rewrite IH, <- replicate_add. done. Qed.

Lemma blk_zeros T b : 0 <= b < T -> blk (replicate (Z.to_nat (1024 * T)) 0) b = Some (replicate 1024 0).
Proof.
  intros Hb. unfold blk. rewrite slice_Some by (rewrite ?lenZ_replicate; lia). f_equal.
  rewrite drop_replicate, take_replicate. f_equal. lia.
Qed.

(** The constant blocks of the image. *)
Definition block_bitmap0 : bytes := Eval vm_compute in default [] (mark_bits 10 0 (calloc1 1024)).
Definition inode_bitmap0 : bytes := Eval vm_compute in default [] (mark_bits 11 0 (calloc1 1024)).
Definition root_dir0 : bytes := Eval vm_compute in
  default [] (d ← assign ext2_dir_entry_t 0 dot_members (calloc1 1024);
    d ← assign ext2_dir_entry_t 12 dotdot_members d; setf d 13 (member ext2_dir_entry_t "name"%string) 46).

(** The image of [T] blocks, block by block. *)
Definition image_block (sb bg inode : bytes) (b : Z) : option bytes :=
  if decide (b = 10) then Some root_dir0
  else if decide (b = 5) then splice (replicate 1024 0) 128 inode
  else if decide (b = 4) then Some inode_bitmap0
  else if decide (b = 3) then Some block_bitmap0
  else if decide (b = 2) then splice (replicate 1024 0) 0 bg
  else if decide (b = 1) then Some sb
  else Some (replicate 1024 0).

Lemma image_block_at sb bg inode :
  image_block sb bg inode 1 = Some sb /\ image_block sb bg inode 2 = splice (replicate 1024 0) 0 bg /\
  image_block sb bg inode 3 = Some block_bitmap0 /\ image_block sb bg inode 4 = Some inode_bitmap0 /\
  image_block sb bg inode 5 = splice (replicate 1024 0) 128 inode /\ image_block sb bg inode 10 = Some root_dir0.
Proof.
  unfold image_block. repeat match goal with |- context [decide (?a = ?b)] =>
    first [rewrite (decide_True _ _ (eq_refl : a = b))|rewrite (decide_False (P := a = b)) by lia] end. done.
Qed.

Definition groups_for (T : Z) : Z := (T + 8191) / 8192.

(** Each value fits its member. *)
Ltac fits := repeat (apply list.Forall_cons; split); [..|apply list.Forall_nil; exact I]; cbn [fst snd];
  match goal with |- 0 <= _ < ?w => let w' := eval vm_compute in w in change w with w' end;
  first [lia | apply u32_range | apply u16_range | split; [vm_compute; discriminate|vm_compute; reflexivity]].

Lemma superblock_ok T now : 0 <= T < 4294967296 ->
  exists sb, assign ext2_superblock_t 0 (superblock_members T (groups_for T) now) (calloc1 (sizeof ext2_superblock_t)) = Some sb /\
    lenZ sb = 1024 /\
    forall f v, (f, v) ∈ superblock_members T (groups_for T) now -> getf sb 0 (member sb_layout f) = Some v.
Proof.
  intros HT. destruct (assign_spec sb_layout 1024 (superblock_members T (groups_for T) now) (calloc1 1024))
    as (sb & Hsb & Hl & Hg & _); [done|vm_compute; reflexivity|unfold superblock_members, EXT2_MAGIC; cbv zeta; fits|].
  exists sb. split; [exact Hsb|]. split; [exact Hl|exact Hg].
Qed.

Lemma group_ok T :
  exists bg, assign ext2_block_group_desc_t 0 (group_members T) (calloc1 (sizeof ext2_block_group_desc_t)) = Some bg /\
    lenZ bg = 32 /\ forall f v, (f, v) ∈ group_members T -> getf bg 0 (member bg_layout f) = Some v.
Proof.
  destruct (assign_spec bg_layout 32 (group_members T) (calloc1 32))
    as (bg & Hbg & Hl & Hg & _); [done|vm_compute; reflexivity|unfold group_members; fits|].
  exists bg. split; [exact Hbg|]. split; [exact Hl|exact Hg].
Qed.

(** The root inode, and the members that were not assigned. *)
Lemma root_ok now :
  exists inode, assign ext2_inode_t 0 (root_members now) (calloc1 (sizeof ext2_inode_t)) = Some inode /\
    lenZ inode = 128 /\ (forall f v, (f, v) ∈ root_members now -> getf inode 0 (member inode_layout f) = Some v) /\
    forall f', forallb (fun g => apart (member inode_layout g.1) f') (root_members now) = true ->
      getf inode 0 f' = getf (calloc1 128) 0 f'.
Proof.
  destruct (assign_spec inode_layout 128 (root_members now) (calloc1 128))
    as (i & Hi & Hl & Hg & Ho); [done|vm_compute; reflexivity|unfold root_members, EXT2_S_IFDIR; fits|].
  exists i. split; [exact Hi|]. split; [exact Hl|]. split; [exact Hg|exact Ho].
Qed.

Lemma constant_blocks :
  mark_bits 10 0 (calloc1 1024) = Some block_bitmap0 /\ mark_bits 11 0 (calloc1 1024) = Some inode_bitmap0 /\
  (d ← assign ext2_dir_entry_t 0 dot_members (calloc1 1024);
   d ← assign ext2_dir_entry_t 12 dotdot_members d;
   setf d 13 (member ext2_dir_entry_t "name"%string) 46) = Some root_dir0.
Proof. split; [|split]; vm_compute; reflexivity. Qed.

Lemma blk_len img T b r : lenZ img = 1024 * T -> 0 <= b < T -> blk img b = Some r -> lenZ r = 1024.
Proof. intros Hl Hb Hr. by apply slice_length in Hr. Qed.

(** The writes of the program, in order. *)
Lemma write_blocks T sb bg inode :
  11 <= T -> lenZ sb = 1024 -> lenZ bg = 32 -> lenZ inode = 128 ->
  let fp := zero_blocks (Z.to_nat T) (calloc1 1024) fopen_wb in
  let fp := fwrite sb (fseek_set fp 1024) in
  let fp := fwrite bg (fseek_set fp 2048) in
  let fp := fwrite block_bitmap0 (fseek_set fp (3 * 1024)) in
  let fp := fwrite inode_bitmap0 (fseek_set fp (4 * 1024)) in
  let fp := fwrite inode (fseek_set fp (5 * 1024 + (2 - 1) * 128)) in
  let fp := fwrite root_dir0 (fseek_set fp (10 * 1024)) in
  lenZ (contents fp) = 1024 * T /\ forall b, 0 <= b < T -> blk (contents fp) b = image_block sb bg inode b.
Proof.
  intros HT Hsb Hbg Hin. cbv zeta. rewrite zero_blocks_spec by done. cbn [contents fopen_wb app].
  unfold calloc1. rewrite concat_zeros.
  replace (Z.to_nat T * Z.to_nat 1024)%nat with (Z.to_nat (1024 * T)) by lia.
  assert (lenZ (replicate (Z.to_nat (1024 * T)) 0) = 1024 * T) as L0 by (rewrite lenZ_replicate; lia).
  pose proof (blk_zeros T) as B0. set (i0 := replicate (Z.to_nat (1024 * T)) 0) in *.
  destruct (put_block i0 T 1 0 sb 1024) as (i1 & E1 & L1 & B1); [done|lia..|]. rewrite E1.
  destruct (put_block i1 T 2 0 bg 2048) as (i2 & E2 & L2 & B2); [done|lia..|]. rewrite E2.
  destruct (put_block i2 T 3 0 block_bitmap0 (3 * 1024)) as (i3 & E3 & L3 & B3); [done|lia|lia|done|lia|]. rewrite E3.
  destruct (put_block i3 T 4 0 inode_bitmap0 (4 * 1024)) as (i4 & E4 & L4 & B4); [done|lia|lia|done|lia|]. rewrite E4.
  destruct (put_block i4 T 5 128 inode (5 * 1024 + (2 - 1) * 128)) as (i5 & E5 & L5 & B5); [done|lia..|]. rewrite E5.
  destruct (put_block i5 T 10 0 root_dir0 (10 * 1024)) as (i6 & E6 & L6 & B6); [done|lia|lia|done|lia|]. rewrite E6.
  cbn [contents]. split; [done|]. intros b Hb. unfold image_block.
  assert (forall src, lenZ src = 1024 -> splice (replicate 1024 0) 0 src = Some src) as Hfull.
  { intros src Hsrc. apply splice_full. by rewrite Hsrc. }
  destruct (decide (b = 10)) as [->|]; [|destruct (decide (b = 5)) as [->|]; [|destruct (decide (b = 4)) as [->|];
    [|destruct (decide (b = 3)) as [->|]; [|destruct (decide (b = 2)) as [->|]; [|destruct (decide (b = 1)) as [->|]]]]]];
    repeat first [rewrite B6 by lia|rewrite B5 by lia|rewrite B4 by lia|rewrite B3 by lia|rewrite B2 by lia
      |rewrite B1 by lia|rewrite decide_True by lia|rewrite decide_False by lia]; rewrite ?B0 by lia;
    cbn [mbind option_bind]; rewrite ?Hfull by done; done.
Qed.

Lemma create_image now size_mb : 1 <= size_mb <= 1024 ->
  exists img sb bg inode, create_ext2_image true now size_mb = Some (Some img) /\
    assign ext2_superblock_t 0 (superblock_members (1024 * size_mb) (groups_for (1024 * size_mb)) now)
      (calloc1 (sizeof ext2_superblock_t)) = Some sb /\
    assign ext2_block_group_desc_t 0 (group_members (1024 * size_mb)) (calloc1 (sizeof ext2_block_group_desc_t)) = Some bg /\
    assign ext2_inode_t 0 (root_members now) (calloc1 (sizeof ext2_inode_t)) = Some inode /\
    lenZ img = 1024 * (1024 * size_mb) /\
    forall b, 0 <= b < 1024 * size_mb -> blk img b = image_block sb bg inode b.
Proof.
  intros Hs. destruct (superblock_ok (1024 * size_mb) now ltac:(lia)) as (sb & Hsb & Lsb & _).
  destruct (group_ok (1024 * size_mb)) as (bg & Hbg & Lbg & _). destruct (root_ok now) as (inode & Hin & Lin & _).
  destruct (write_blocks (1024 * size_mb) sb bg inode ltac:(lia) Lsb Lbg Lin) as [Hlen Hblk].
  destruct constant_blocks as (K1 & K2 & K3). destruct (assign ext2_dir_entry_t 0 dot_members _) as [d1|] eqn:D1; [|done].
  cbn [mbind option_bind] in K3. destruct (assign ext2_dir_entry_t 12 dotdot_members d1) as [d2|] eqn:D2; [|done].
  cbn [mbind option_bind] in K3.
  eexists _, sb, bg, inode. split; [|split; [exact Hsb|split; [exact Hbg|split; [exact Hin|split; [exact Hlen|exact Hblk]]]]].
  unfold create_ext2_image. cbv zeta.
  assert (u32 (u32 (size_mb * 1024) * 1024) / 1024 = 1024 * size_mb) as ->.
  { rewrite (u32_id (size_mb * 1024)), u32_id by (red; lia). dlia. }
  assert (u32 (1024 * size_mb + 8192 - 1) / 8192 = groups_for (1024 * size_mb)) as ->.
  { rewrite u32_id by (red; lia). unfold groups_for. f_equal. lia. }
  rewrite (proj2 (Z.eqb_neq (groups_for _) 0)) by (unfold groups_for; dlia). cbn [negb].
  rewrite Hsb. cbn [mbind option_bind]. rewrite Hbg. cbn [mbind option_bind]. rewrite K1. cbn [mbind option_bind].
  rewrite K2. cbn [mbind option_bind]. rewrite Hin. cbn [mbind option_bind]. rewrite D1. cbn [mbind option_bind].
  rewrite D2. cbn [mbind option_bind]. rewrite K3. reflexivity.
Qed.

(** ** Mounting the image *)
Section mount.
Context {C : Type} {B : BlockStore C} {L : BlockStoreLaws C 1024} (t : Z) (stack_buffer : bytes).
Hypothesis stack_size : lenZ stack_buffer = 1024.
Implicit Types (s : ext2_fs C).

(** A device that holds the image. *)
Record holds_image (c : C) (img : bytes) (T : Z) : Prop := {
  hi_inv : st_inv c;
  hi_ok b : st_ok b <-> 0 <= b < T;
  hi_view b : st_ok b -> blk img b = Some (st_view c b)
}.

(** Member number [i] of a list of assignments. *)
Lemma assigned (t0 : layout) (l : list (string * Z)) buf (i : nat) f v fld :
  (forall f v, (f, v) ∈ l -> getf buf 0 (member t0 f) = Some v) -> l !! i = Some (f, v) -> member t0 f = fld ->
  getf buf 0 fld = Some v.
Proof. intros Hg Hi <-. apply Hg. by eapply list_elem_of_lookup_2. Qed.

(** What the kernel reads of the superblock. *)
Lemma sb_members T now sb :
  (forall f v, (f, v) ∈ superblock_members T (groups_for T) now -> getf sb 0 (member sb_layout f) = Some v) ->
  getf sb 0 s_inodes_count = Some (u32 (128 * groups_for T)) /\ getf sb 0 s_blocks_count = Some T /\
  getf sb 0 s_first_data_block = Some 1 /\ getf sb 0 s_log_block_size = Some 0 /\
  getf sb 0 s_blocks_per_group = Some 8192 /\ getf sb 0 s_inodes_per_group = Some 128 /\
  getf sb 0 s_magic = Some EXT2_MAGIC /\ getf sb 0 s_inode_size = Some 128.
Proof.
  intros Hg. split; [by apply (assigned _ _ _ 0 _ _ _ Hg eq_refl)|]. split; [by apply (assigned _ _ _ 1 _ _ _ Hg eq_refl)|].
  split; [by apply (assigned _ _ _ 5 _ _ _ Hg eq_refl)|]. split; [by apply (assigned _ _ _ 6 _ _ _ Hg eq_refl)|].
  split; [by apply (assigned _ _ _ 8 _ _ _ Hg eq_refl)|]. split; [by apply (assigned _ _ _ 10 _ _ _ Hg eq_refl)|].
  split; [by apply (assigned _ _ _ 15 _ _ _ Hg eq_refl)|by apply (assigned _ _ _ 26 _ _ _ Hg eq_refl)].
Qed.

(** The mounted file system, of one group. *)
Record mkfs_mounted s (T : Z) (inode : bytes) : Prop := {
  mm_fs : fs_ok s;
  mm_groups : num_block_groups s = 1;
  mm_inodes : sbv s s_inodes_count = 128;
  mm_blocks : sbv s s_blocks_count = T;
  mm_first : sbv s s_first_data_block = 1;
  mm_per : sbv s s_blocks_per_group = 8192;
  mm_ipg : sbv s s_inodes_per_group = 128;
  mm_isize : isize s = 128;
  mm_bbitmap : bgv s 0 bg_block_bitmap = 3;
  mm_ibitmap : bgv s 0 bg_inode_bitmap = 4;
  mm_itable : bgv s 0 bg_inode_table = 5;
  mm_free : bgv s 0 bg_free_blocks_count = u16 (T - 10);
  mm_view3 : view s 3 = block_bitmap0;
  mm_view5 : splice (replicate 1024 0) 128 inode = Some (view s 5);
  mm_view10 : view s 10 = root_dir0
}.

(** The descriptor read from block 2. *)
Lemma read_descriptor s bg :
  lenZ bg = 32 -> splice (replicate 1024 0) 0 bg = Some (view s 2) -> lenZ (block_groups s) = 32 ->
  (forall p, 0 <= p < 32 -> getZ (block_groups s) p = table_byte s p) -> block_groups s = bg.
Proof.
  intros Hl Hsp Hlen Hp. apply list_eq. intros i. destruct (decide (Z.of_nat i < 32)) as [Hi|Hi].
  - rewrite <- !getZ_nat, Hp by lia. unfold table_byte. assert (Z.of_nat i / 1024 = 0) as -> by dlia.
    rewrite Z.mod_small by lia. change (2 + 0) with 2. rewrite !getZ_nat, (splice_lookup _ _ _ _ _ Hsp). unfold lenZ in *.
    case_match; [|lia]. f_equal. lia.
  - unfold lenZ in *. by rewrite !lookup_ge_None_2 by lia.
Qed.

Lemma mount_image now size_mb c img heap :
  1 <= size_mb <= 8 -> create_ext2_image true now size_mb = Some (Some img) -> holds_image c img (1024 * size_mb) ->
  heap_wf heap -> heap + 1232 <= HEAP_SIZE ->
  exists s inode, ext2_mount t stack_buffer (Some c) heap = Some (Some s, Some (block_device s), heap_pos s) /\
    heap_pos s <= heap + 1232 /\ (forall b, st_ok b <-> 0 <= b < 1024 * size_mb) /\
    assign ext2_inode_t 0 (root_members now) (calloc1 (sizeof ext2_inode_t)) = Some inode /\
    mkfs_mounted s (1024 * size_mb) inode.
Proof.
  intros Hs Hcr [Hinv Hok Hview] Hw Hr. set (T := 1024 * size_mb) in *.
  destruct (create_image now size_mb ltac:(lia)) as (img' & sb & bg & inode & Hcr' & Hsb & Hbg & Hin & Hlen & Hblk).
  rewrite Hcr in Hcr'. injection Hcr' as <-. fold T in Hsb, Hbg, Hblk.
  assert (groups_for T = 1) as Eg by (unfold groups_for; dlia).
  destruct (superblock_ok T now ltac:(lia)) as (sb' & Hsb' & Lsb & Gsb). rewrite Hsb in Hsb'. injection Hsb' as <-.
  destruct (group_ok T) as (bg' & Hbg' & Lbg & Gbg). rewrite Hbg in Hbg'. injection Hbg' as <-.
  destruct (sb_members T now sb Gsb) as (S1 & S2 & S3 & S4 & S5 & S6 & S7 & S8). rewrite Eg in S1.
  assert (forall b, 0 <= b < T -> image_block sb bg inode b = Some (st_view c b)) as Hv.
  { intros b Hb. rewrite <- Hblk by done. apply Hview. by apply Hok. }
  destruct (image_block_at sb bg inode) as (I1 & I2 & I3 & _ & I5 & I10).
  assert (st_view c 1 = sb) as E1 by (pose proof (Hv 1 ltac:(lia)); congruence).
  assert (groups_of (st_view c 1) = 1) as Ego.
  { rewrite E1. unfold groups_of. rewrite S2, S5. cbn [default from_option id]. rewrite u32_id by (red; lia). dlia. }
  destruct (mount_spec t stack_buffer stack_size c heap) as (s & r & Hm & -> & Hi & Hvs & Esb & Egr & Ebs & Ed & [Hw' Hh'] & Lg & Hg);
    rewrite ?Ego in *; [done|by apply Hok; lia|done| | |lia|].
  { rewrite E1. split; [done|]. split; [|done]. unfold ext2_validate_superblock.
    rewrite S7, S1, S2, S5, S6. cbn [mbind option_bind]. f_equal. rewrite (proj2 (Z.eqb_neq T 0)) by lia. done. }
  { split; [lia|]. intros j Hj1 Hj2. apply Hok. lia. }
  exists s, inode. unfold ext2_mount. rewrite Hm. split; [done|]. split; [lia|]. split; [done|]. split; [done|].
  assert (forall b, 0 <= b < T -> image_block sb bg inode b = Some (view s b)) as Hvw.
  { intros b Hb. rewrite Hv by done. f_equal. symmetry. by apply Hvs, Hok. }
  assert (block_groups s = bg) as Ebg.
  { apply read_descriptor; [done|rewrite <- I2; apply Hvw; lia|lia|]. intros p Hp. apply Hg. lia. }
  rewrite E1 in Esb.
  assert (forall f v, getf sb 0 f = Some v -> sbv s f = v) as Hsbv by (intros f v Hf; unfold sbv; by rewrite Esb, Hf).
  assert (forall f v, getf bg 0 f = Some v -> bgv s 0 f = v) as Hbgv by (intros f v Hf; unfold bgv; by rewrite Z.mul_0_l, Ebg, Hf).
  split; [split; [done|done|done|by rewrite Esb|rewrite Egr; unfold sizeof_bg; lia]|done|..].
  - by apply Hsbv.
  - by apply Hsbv.
  - by apply Hsbv.
  - by apply Hsbv.
  - by apply Hsbv.
  - unfold isize. by rewrite (Hsbv _ _ S8).
  - apply Hbgv. by apply (assigned _ _ _ 0 _ _ _ Gbg eq_refl).
  - apply Hbgv. by apply (assigned _ _ _ 1 _ _ _ Gbg eq_refl).
  - apply Hbgv. by apply (assigned _ _ _ 2 _ _ _ Gbg eq_refl).
  - apply Hbgv. by apply (assigned _ _ _ 3 _ _ _ Gbg eq_refl).
  - pose proof (Hvw 3 ltac:(lia)). congruence.
  - rewrite <- I5. apply Hvw. lia.
  - pose proof (Hvw 10 ltac:(lia)). congruence.
Qed.

(** The records of the root directory. *)
Definition dots : list (Z * bytes) := [(2, [46]); (2, [46; 46])].

Lemma dots_chain : chain 1024 false root_dir0 0 dots.
Proof.
  eapply (chain_rec _ _ _ 0 2 12 [46]); [done..|].
  eapply (chain_rec _ _ _ 12 2 1012 [46; 46]); [done..|]. apply chain_full.
Qed.

Lemma found_dots nm : found (concat [dots]) nm = if decide (nm = [46] \/ nm = [46; 46]) then inr 2 else inl ERR_NOT_FOUND.
Proof.
  unfold found, dots. cbn. destruct (decide (nm = [46])) as [->|H1]; [done|]. destruct (decide (nm = [46; 46])) as [->|H2]; [done|].
  rewrite !bool_decide_eq_false_2 by congruence. rewrite decide_False by tauto. done.
Qed.

Lemma mkfs_iblock s T inode j : mkfs_mounted s T inode -> valid_ino s j ->
  igroup s j = 0 /\ iblock (bs := 1024) s j = 5 + (j - 1) / 8 /\ 1 <= j <= 128.
Proof.
  intros Hm [Hj _]. rewrite (mm_inodes _ _ _ Hm) in Hj. unfold iblock, igroup, iindex.
  rewrite (mm_ipg _ _ _ Hm), (mm_isize _ _ _ Hm). assert ((j - 1) / 128 = 0) as -> by dlia.
  rewrite (mm_itable _ _ _ Hm), Z.mod_small by lia. done.
Qed.

Lemma mkfs_itable s T inode : mkfs_mounted s T inode -> (forall b, st_ok b <-> 0 <= b < T) -> 1024 <= T -> itable (bs := 1024) s.
Proof.
  intros Hm Hok HT. split.
  - rewrite (mm_ipg _ _ _ Hm). lia.
  - rewrite (mm_isize _ _ _ Hm). done.
  - intros j Hj. destruct (mkfs_iblock s T inode j Hm Hj) as (_ & -> & ?). rewrite Hok. split; dlia.
  - intros j j' Hj Hj' _. destruct (mkfs_iblock s T inode j Hm Hj) as (-> & _).
    by destruct (mkfs_iblock s T inode j' Hm Hj') as (-> & _).
Qed.

Lemma root_inode_at s T inode : mkfs_mounted s T inode -> lenZ inode = 128 -> inode_at (bs := 1024) s 2 = inode.
Proof.
  intros Hm Hl. unfold inode_at, iblock, ioff, igroup, iindex. rewrite (mm_ipg _ _ _ Hm), (mm_isize _ _ _ Hm).
  change ((2 - 1) / 128) with 0. rewrite (mm_itable _ _ _ Hm). change (5 + _) with 5. change (_ * 128) with 128.
  pose proof (slice_splice_same _ _ _ _ (mm_view5 _ _ _ Hm)) as Hs. rewrite Hl in Hs.
  change sizeof_inode with 128. by rewrite Hs.
Qed.

Lemma root_map now inode :
  assign ext2_inode_t 0 (root_members now) (calloc1 (sizeof ext2_inode_t)) = Some inode ->
  lenZ inode = 128 /\ getf inode 0 i_mode = Some 16877 /\ getf inode 0 i_size = Some 1024 /\
  iblk inode 0 = 10 /\ iblk inode 12 = 0 /\ iblk inode 13 = 0.
Proof.
  intros Hi. destruct (root_ok now) as (inode' & Hi' & Hl & Hg & Ho). rewrite Hi in Hi'. injection Hi' as <-.
  split; [done|]. split; [by apply (assigned _ _ _ 0 _ _ _ Hg eq_refl)|].
  split; [by apply (assigned _ _ _ 3 _ _ _ Hg eq_refl)|]. unfold iblk, get_i_block. split; [|split].
  - change (i_block 0) with (Some (Field 40 4)). cbn [mbind option_bind].
    by rewrite (assigned _ _ _ 9 _ _ (Field 40 4) Hg eq_refl).
  - change (i_block 12) with (Some (Field 88 4)). cbn [mbind option_bind]. rewrite Ho by done. done.
  - change (i_block 13) with (Some (Field 92 4)). cbn [mbind option_bind]. rewrite Ho by done. done.
Qed.

Lemma mkfs_root s T inode now :
  mkfs_mounted s T inode -> (forall b, st_ok b <-> 0 <= b < T) -> 1024 <= T ->
  assign ext2_inode_t 0 (root_members now) (calloc1 (sizeof ext2_inode_t)) = Some inode ->
  dir_ok (bs := 1024) s 2 [dots].
Proof.
  intros Hm Hok HT Hi. destruct (root_map now inode Hi) as (Hl & Hmode & Hsize & B0 & B12 & B13).
  split; rewrite ?(root_inode_at _ _ _ Hm Hl).
  - by apply (mm_fs _ _ _ Hm).
  - by eapply mkfs_itable.
  - done.
  - split; [rewrite (mm_inodes _ _ _ Hm); lia|]. unfold igroup. rewrite (mm_ipg _ _ _ Hm), (mm_groups _ _ _ Hm). done.
  - exists 16877. split; [done|vm_compute; reflexivity].
  - split; [by rewrite B12|by rewrite B13].
  - unfold size_of. rewrite Hsize. done.
  - unfold size_of. rewrite Hsize. done.
  - intros [|i] recs Hr; [|done]. injection Hr as <-. exists 10. unfold bmap. rewrite decide_True by done.
    change (Z.of_nat 0) with 0. rewrite B0. split; [done|]. split; [done|]. split; [apply Hok; lia|].
    rewrite (mm_view10 _ _ _ Hm). exact dots_chain.
Qed.

(** C7: an image of up to 8 MB that [create_ext2_image] writes can be mounted: on
    any device that holds it, [ext2_mount] succeeds and finds one group and the
    number of blocks asked for, and in the root directory [ext2_lookup] finds
    ["."] and [".."] as the root inode, and no other name. *)
Theorem mkfs_mount now size_mb c img heap :
  1 <= size_mb <= 8 -> create_ext2_image true now size_mb = Some (Some img) ->
  holds_image c img (1024 * size_mb) -> heap_wf heap -> heap + 8192 <= HEAP_SIZE ->
  exists s, ext2_mount t stack_buffer (Some c) heap = Some (Some s, Some (block_device s), heap_pos s) /\
    num_block_groups s = 1 /\ sbv s s_blocks_count = 1024 * size_mb /\
    forall nm, nul_free nm -> wp (ext2_lookup t 2 (nm ++ [0])) s (fun s' r => quiet s s' 4 /\
      r = if decide (nm = [46] \/ nm = [46; 46]) then inr 2 else inl ERR_NOT_FOUND).
Proof.
  intros Hs Hcr Hh Hw Hr. destruct (mount_image now size_mb c img heap Hs Hcr Hh Hw ltac:(lia))
    as (s & inode & Hm & Hheap & Hok & Hi & Hmm).
  exists s. split; [done|]. split; [by apply (mm_groups _ _ _ Hmm)|]. split; [by apply (mm_blocks _ _ _ Hmm)|].
  intros nm Hn. pose proof (mkfs_root s _ inode now Hmm Hok ltac:(lia) Hi) as Hd.
  eapply wp_mono; [apply (ext2_lookup_spec (bs := 1024) t ltac:(lia) eq_refl s 2 [dots] nm Hd Hn); unfold room, lenZ; cbn [length]; lia|].
  intros s' r [Hq ->]. split; [done|apply found_dots].
Qed.

Lemma bitmap0_bits bit : 0 <= bit < 10 -> test_bit block_bitmap0 bit = Some true.
Proof.
  intros Hb. assert (forallb (fun k => bool_decide (test_bit block_bitmap0 (Z.of_nat k) = Some true)) (seq 0 10) = true) as H
    by (vm_compute; reflexivity).
  pose proof (proj1 (forallb_forall _ _) H (Z.to_nat bit)) as Hk. cbv beta in Hk. rewrite Z2Nat.id in Hk by lia.
  eapply bool_decide_eq_true_1, Hk. rewrite in_seq. lia.
Qed.

(** the inode table of a new image is not reserved in its block bitmap.  On the
    mounted image the first block that [ext2_alloc_block] hands out is block 11,
    and block 11 is the block of the inode table that holds inode 49: data
    written to it overwrite the inodes 49 to 56. *)
Theorem mkfs_block_in_table now size_mb c img heap :
  1 <= size_mb <= 8 -> create_ext2_image true now size_mb = Some (Some img) ->
  holds_image c img (1024 * size_mb) -> heap_wf heap -> heap + 8192 <= HEAP_SIZE ->
  exists s, ext2_mount t stack_buffer (Some c) heap = Some (Some s, Some (block_device s), heap_pos s) /\
    wp (ext2_alloc_block t) s (fun _ r => r = inr 11) /\
    forall ino, 49 <= ino <= 56 -> valid_ino s ino /\ iblock (bs := 1024) s ino = 11.
Proof.
  intros Hs Hcr Hh Hw Hr. destruct (mount_image now size_mb c img heap Hs Hcr Hh Hw ltac:(lia))
    as (s & inode & Hm & Hheap & Hok & _ & Hmm). pose proof (mm_groups _ _ _ Hmm) as Eg.
  exists s. split; [done|]. split.
  - eapply wp_mono; [apply (ext2_alloc_block_spec (bs := 1024) t ltac:(lia) eq_refl s)|].
    + by apply (mm_fs _ _ _ Hmm).
    + split; cbn [k_bitmap k_per_group blocks]; rewrite ?Eg.
      * intros g Hg. assert (g = 0) as -> by lia. rewrite (mm_bbitmap _ _ _ Hmm). apply Hok. lia.
      * lia.
      * rewrite (mm_per _ _ _ Hmm). lia.
    + unfold numbers_fit. rewrite Eg, (mm_first _ _ _ Hmm), (mm_per _ _ _ Hmm). lia.
    + unfold room. rewrite Eg. lia.
    + intros s' [e|b]; cbn [alloc_block_post].
      * intros (_ & _ & Hex). destruct (Hex 0 ltac:(lia)) as [H0|Hfull]; cbn [k_count k_per_group blocks] in *.
        { rewrite (mm_free _ _ _ Hmm), u16_id in H0 by (red; lia). lia. }
        specialize (Hfull 10 ltac:(rewrite (mm_per _ _ _ Hmm); lia)). unfold bitmap_of in Hfull. cbn [k_bitmap blocks] in Hfull.
        by rewrite (mm_bbitmap _ _ _ Hmm), (mm_view3 _ _ _ Hmm) in Hfull.
      * intros (g & bit & bm & (Hg & Hbit & ->) & Hfree & Hlow & _). assert (g = 0) as -> by lia.
        unfold bitmap_of in *. cbn [k_bitmap blocks] in *. rewrite (mm_bbitmap _ _ _ Hmm), (mm_view3 _ _ _ Hmm) in *.
        assert (bit = 10) as ->; [|by rewrite (mm_first _ _ _ Hmm)].
        destruct (Z.lt_trichotomy bit 10) as [|[|]]; [|done|].
        { by rewrite bitmap0_bits in Hfree by lia. }
        specialize (Hlow 10 ltac:(lia)). by vm_compute in Hlow.
  - intros ino Hi. assert (valid_ino s ino) as Hv.
    { split; [rewrite (mm_inodes _ _ _ Hmm); lia|]. unfold igroup. rewrite (mm_ipg _ _ _ Hmm), Eg. dlia. }
    split; [done|]. destruct (mkfs_iblock s _ inode ino Hmm Hv) as (_ & -> & _). dlia.
Qed.

End mount.

(** ** A 1 MB image on a RAM disk *)
Definition img1 : bytes := match create_ext2_image true (fun _ => 0) 1 with Some (Some img) => img | _ => [] end.

Definition disk1 (img : bytes) : option ramdisk := Some (RamDisk 1048576 img 1024).
Definition dev1 (img : bytes) := Some (BlockDevice (disk1 img) (Some ramdisk_block_ops)).
Definition cache1 (img : bytes) : block_cache (option ramdisk) :=
  Cache (replicate BLOCK_CACHE_SIZE (fresh_entry 1024)) None None (dev1 img) 0 0 1024.
Definition heap1 : Z := Eval vm_compute in (block_cache_create 0 (dev1 []) 1024).2.

#[local] Instance driver1 : BlockDriver ramdisk_block_ops 1024 := ramdisk_driver 1024 1024 ltac:(lia) ltac:(lia).
#[local] Instance laws1 : BlockStoreLaws (option (block_cache (option ramdisk))) 1024 :=
  cache_store_laws (drv := driver1) ramdisk_block_ops 1024 ltac:(lia).

Lemma cache1_created img : block_cache_create 0 (dev1 img) 1024 = (Some (cache1 img), heap1).
Proof.
  assert (match block_cache_create 0 (dev1 img) 1024 with (Some _, h) => h =? heap1 | _ => false end = true)
    by (vm_compute; reflexivity).
  destruct (block_cache_create 0 (dev1 img) 1024) as [[c|] h] eqn:E; [|done].
  apply Reach.block_cache_create_eq in E as ->. by replace h with heap1 by lia.
Qed.

Lemma img1_created : create_ext2_image true (fun _ => 0) 1 = Some (Some img1) /\ lenZ img1 = 1048576.
Proof.
  unfold img1. destruct (create_image (fun _ => 0) 1 ltac:(lia)) as (img & sb & bg & inode & -> & _ & _ & _ & Hl & _).
  split; [done|]. rewrite Hl. lia.
Qed.

Lemma cache1_holds img : lenZ img = 1048576 -> holds_image (Some (cache1 img)) img 1024.
Proof.
  intros Hl. assert (disk_inv 1024 1024 (disk1 img)) as Hd.
  { eexists. split; [reflexivity|]. split; [done|]. split; [done|exact Hl]. }
  destruct (Refine.create_shows (drv := driver1) ramdisk_block_ops 1024 ltac:(lia) 0 (disk1 img) (cache1 img) heap1 Hd (cache1_created img)) as [Hok Hv].
  split; [by exists (cache1 img)|done|]. intros b Hb.
  change (st_view (Some (cache1 img)) b) with (Refine.view ramdisk_block_ops 1024 (cache1 img) b).
  rewrite Hv by done. unfold blk. rewrite Z.mul_comm. by apply (disk_slice 1024 1024 ltac:(lia) ltac:(lia) (RamDisk 1048576 img 1024)).
Qed.

Lemma mkfs_mount_witness :
  exists s, ext2_mount 0 (replicate 1024 0) (Some (Some (cache1 img1))) heap1 = Some (Some s, Some (block_device s), heap_pos s) /\
    num_block_groups s = 1 /\ sbv s s_blocks_count = 1024 * 1 /\
    forall nm, nul_free nm -> wp (ext2_lookup 0 2 (nm ++ [0])) s (fun s' r => quiet s s' 4 /\
      r = if decide (nm = [46] \/ nm = [46; 46]) then inr 2 else inl ERR_NOT_FOUND).
Proof.
  exact (mkfs_mount 0 (replicate 1024 0) eq_refl (fun _ => 0) 1 (Some (cache1 img1)) img1 heap1 ltac:(lia) (proj1 img1_created)
    (cache1_holds img1 (proj2 img1_created)) ltac:(by vm_compute)
    ltac:(vm_compute; discriminate)).
Defined.

Lemma mkfs_block_in_table_witness :
  exists s, ext2_mount 0 (replicate 1024 0) (Some (Some (cache1 img1))) heap1 = Some (Some s, Some (block_device s), heap_pos s) /\
    wp (ext2_alloc_block 0) s (fun _ r => r = inr 11) /\
    forall ino, 49 <= ino <= 56 -> valid_ino s ino /\ iblock (bs := 1024) s ino = 11.
Proof.
  exact (mkfs_block_in_table 0 (replicate 1024 0) eq_refl (fun _ => 0) 1 (Some (cache1 img1)) img1 heap1 ltac:(lia) (proj1 img1_created)
    (cache1_holds img1 (proj2 img1_created)) ltac:(by vm_compute)
    ltac:(vm_compute; discriminate)).
Defined.
