(* ===== verification/ShLex.v ===== *)
(** * The shell: characters, arenas, tokens and the lexer

    userspace/apps/src/shell.c holds two shells, the second one spliced into the function [prompt_process] of the
    first.  This file and the other [Sh] files model the inner one (lines 529 to 3041): [lex_next], [tokenize] and
    [join_tokens] here.

    A [const char *] that nobody writes through is the list of its characters, without the NUL; an arena is the
    position up to which it is used, since strings in an arena never change.  A lexer, [src] and [pos], is the byte
    before the position and the bytes from it on. *)
From Stdlib Require Import Ascii String.
From S2P Require Import Prelude.
Open Scope list_scope.
Open Scope Z_scope.

Module Sh.

Definition SH_MAX_LINE : Z := 1024.
Definition SH_MAX_TOKENS : nat := 256.
Definition SH_SCRATCH_SIZE : Z := 8192.

(** ** Characters and numbers *)
Definition sh_is_space (c : Z) : bool := (c =? 32) || (c =? 9) || (c =? 10) || (c =? 13).
Definition sh_is_digit (c : Z) : bool := (48 <=? c) && (c <=? 57).
Definition sh_is_name_start (c : Z) : bool := ((65 <=? c) && (c <=? 90)) || ((97 <=? c) && (c <=? 122)) || (c =? 95).
Definition sh_is_name_char (c : Z) : bool := sh_is_name_start c || sh_is_digit c.
Definition sh_streq (a b : bytes) : bool := bool_decide (a = b).

(** [while (P (c)) s++] on a string. *)
Fixpoint skip_while (P : Z -> bool) (s : bytes) : bytes :=
  match s with c :: s' => if P c then skip_while P s' else s | [] => [] end.

(** The digits from here on; the accumulator is an [int] and overflow is undefined. *)
Fixpoint digits_loop (v : Z) (s : bytes) : option (Z * bytes) :=
  match s with
  | c :: s' =>
      if sh_is_digit c then
        if v * 10 + (c - 48) <? 2147483648 then digits_loop (v * 10 + (c - 48)) s' else None
      else Some (v, s)
  | [] => Some (v, [])
  end.

Definition sh_atoi (s : bytes) : option Z :=
  let s := skip_while sh_is_space s in
  let '(sign, s) :=
    match s with c :: s' => if c =? 45 then (-1, s') else if c =? 43 then (1, s') else (1, s) | [] => (1, s) end in
  v ← digits_loop 0 s; Some (v.1 * sign).

(** ** Arenas *)
Definition arena_alloc (a n : Z) : option Z := if SH_SCRATCH_SIZE <? a + n then None else Some (a + n).

Definition arena_strdup (a : Z) (s : bytes) : option (bytes * Z) := a ← arena_alloc a (lenZ s + 1); Some (s, a).

Definition arena_strcat3 (a : Z) (x y z : bytes) : option (bytes * Z) :=
  a ← arena_alloc a (lenZ x + lenZ y + lenZ z + 1); Some (x ++ y ++ z, a).

(** ** Tokens *)
Inductive token_kind :=
  | TOK_EOF | TOK_WORD | TOK_NEWLINE | TOK_SEMI | TOK_AMP | TOK_PIPE | TOK_AND_IF | TOK_OR_IF | TOK_LPAREN | TOK_RPAREN
  | TOK_LBRACE | TOK_RBRACE | TOK_GT | TOK_GTGT | TOK_LT | TOK_DLT | TOK_DLT_DASH.

#[export] Instance token_kind_eq_dec : EqDecision token_kind.
Proof. solve_decision. Defined.

Record token := Token { kind : token_kind; text : option bytes; quoted : bool }.

#[export] Instance token_eq_dec : EqDecision token.
Proof. solve_decision. Defined.

Definition op (k : token_kind) : token := Token k None false.
Definition word (w : bytes) (q : bool) : token := Token TOK_WORD (Some w) q.

(** ** The lexer *)
Record lexer := Lexer { lx_prev : option Z; lx_rest : bytes }.

Definition lex_peek (lx : lexer) : option Z := list.head (lx_rest lx).

Definition lex_get (lx : lexer) : option Z * lexer :=
  match lx_rest lx with [] => (None, lx) | c :: r => (Some c, Lexer (Some c) r) end.

Definition prev_space (prev : option Z) : bool :=
  match prev with None => true | Some c => sh_is_space c || (c =? 59) || (c =? 38) || (c =? 124) end.

(** Blanks and comments; [comment] is true inside the inner loop. *)
Fixpoint skip_blanks (comment : bool) (prev : option Z) (rest : bytes) : lexer :=
  match rest with
  | [] => Lexer prev []
  | c :: r =>
      if comment then if c =? 10 then Lexer prev rest else skip_blanks true (Some c) r
      else if (c =? 35) && prev_space prev then skip_blanks true (Some c) r
      else if (c =? 32) || (c =? 9) || (c =? 13) then skip_blanks false (Some c) r
      else Lexer prev rest
  end.

(** The token that begins with [c] when it is an operator, [lx] being behind [c]. *)
Definition lex_op (c : Z) (lx : lexer) : option (token * lexer) :=
  let twice k1 k2 := if bool_decide (lex_peek lx = Some c) then Some (op k2, (lex_get lx).2) else Some (op k1, lx) in
  if c =? 10 then Some (op TOK_NEWLINE, lx)
  else if c =? 59 then Some (op TOK_SEMI, lx)
  else if c =? 38 then twice TOK_AMP TOK_AND_IF
  else if c =? 124 then twice TOK_PIPE TOK_OR_IF
  else if c =? 40 then Some (op TOK_LPAREN, lx)
  else if c =? 41 then Some (op TOK_RPAREN, lx)
  else if c =? 123 then Some (op TOK_LBRACE, lx)
  else if c =? 125 then Some (op TOK_RBRACE, lx)
  else if c =? 62 then twice TOK_GT TOK_GTGT
  else if c =? 60 then
    if bool_decide (lex_peek lx = Some 60) then
      let lx := (lex_get lx).2 in
      if bool_decide (lex_peek lx = Some 45) then Some (op TOK_DLT_DASH, (lex_get lx).2) else Some (op TOK_DLT, lx)
    else Some (op TOK_LT, lx)
  else None.

Definition ends_word (c : Z) : bool :=
  (c =? 32) || (c =? 9) || (c =? 13) || (c =? 10) || (c =? 59) || (c =? 38) || (c =? 124) || (c =? 40) || (c =? 41) ||
  (c =? 123) || (c =? 125) || (c =? 60) || (c =? 62).

(** [if (n + 1 < sizeof(tmp)) tmp[n++] = ch] *)
Definition tmp_put (tmp : bytes) (c : Z) : bytes := if lenZ tmp + 1 <? 256 then tmp ++ [c] else tmp.

(** The characters of a word up to its end, with what is left. *)
Fixpoint lex_word (single double quoted : bool) (tmp : bytes) (prev : option Z) (rest : bytes) : bytes * bool * lexer :=
  match rest with
  | [] => (tmp, quoted, Lexer prev [])
  | ch :: r =>
      if negb single && negb double && ends_word ch then (tmp, quoted, Lexer prev rest)
      else if negb double && (ch =? 39) then lex_word (negb single) double true tmp (Some ch) r
      else if negb single && (ch =? 34) then lex_word single (negb double) true tmp (Some ch) r
      else if negb single && (ch =? 92) then
        match r with
        | [] => (tmp, quoted, Lexer (Some ch) [])
        | next :: r' =>
            if double && negb ((next =? 92) || (next =? 34) || (next =? 36) || (next =? 96) || (next =? 10))
            then lex_word single double quoted (tmp_put tmp ch) (Some ch) r
            else lex_word single double quoted (tmp_put tmp next) (Some next) r'
        end
      else lex_word single double quoted (tmp_put tmp ch) (Some ch) r
  end.

Definition lex_next (a : Z) (lx : lexer) : token * lexer * Z :=
  let lx := skip_blanks false (lx_prev lx) (lx_rest lx) in
  match lex_get lx with
  | (None, lx') => (op TOK_EOF, lx', a)
  | (Some c, lx') =>
      match lex_op c lx' with
      | Some (t, lx'') => (t, lx'', a)
      | None =>
          let '(tmp, q, lx'') := lex_word false false false [] (lx_prev lx) (lx_rest lx) in
          match arena_strdup a tmp with
          | Some (w, a') => (word w q, lx'', a')
          | None => (word [] q, lx'', a)
          end
      end
  end.

(** Up to [n] more tokens; the result is 0 or -1, the tokens and the arena. *)
Fixpoint tokenize_loop (n : nat) (a : Z) (lx : lexer) : Z * list token * Z :=
  match n with
  | O => (-1, [], a)
  | S n' =>
      let '(t, lx, a) := lex_next a lx in
      if decide (kind t = TOK_EOF) then (0, [t], a)
      else let '(r, ts, a) := tokenize_loop n' a lx in (r, t :: ts, a)
  end.

Definition tokenize (a : Z) (src : bytes) : Z * list token * Z := tokenize_loop SH_MAX_TOKENS a (Lexer None src).

(** ** Back to text *)
Definition token_text (t : token) : option bytes :=
  match kind t with
  | TOK_WORD => text t
  | TOK_SEMI | TOK_NEWLINE => Some (str ";")
  | TOK_PIPE => Some (str "|")
  | TOK_AND_IF => Some (str "&&")
  | TOK_OR_IF => Some (str "||")
  | TOK_AMP => Some (str "&")
  | TOK_LT => Some (str "<")
  | TOK_GT => Some (str ">")
  | TOK_GTGT => Some (str ">>")
  | TOK_DLT => Some (str "<<")
  | TOK_DLT_DASH => Some (str "<<-")
  | TOK_LPAREN => Some (str "(")
  | TOK_RPAREN => Some (str ")")
  | TOK_LBRACE => Some (str "{")
  | TOK_RBRACE => Some (str "}")
  | TOK_EOF => None
  end.

Fixpoint join_loop (ts : list token) (tmp : bytes) : bytes :=
  match ts with
  | [] => tmp
  | t :: ts' =>
      match token_text t with
      | None => join_loop ts' tmp
      | Some s =>
          let tmp := if negb (lenZ tmp =? 0) && (lenZ tmp + 1 <? SH_MAX_LINE) then tmp ++ [32] else tmp in
          if SH_MAX_LINE <=? lenZ tmp + lenZ s then tmp else join_loop ts' (tmp ++ s)
      end
  end.

Definition join_tokens (a : Z) (ts : list token) : option (bytes * Z) := arena_strdup a (join_loop ts []).

(** ** Text and tokens *)
(** A character that is itself wherever it stands in a word. *)
Definition plain_char (c : Z) : bool := negb (ends_word c) && negb ((c =? 39) || (c =? 34) || (c =? 92)).

(** A word whose text is read back as this word. *)
Definition plain_word (w : bytes) : Prop :=
  Forall (fun c => plain_char c = true) w /\ (exists c w', w = c :: w' /\ c <> 35) /\ (length w <= 255)%nat.

Definition plain_token (t : token) : Prop :=
  match kind t with
  | TOK_EOF => False
  | TOK_WORD => exists w, t = word w false /\ plain_word w
  | k => t = op k
  end.

(** In the text of a function the end of a line is a semicolon. *)
Definition one_line (t : token) : token := if decide (kind t = TOK_NEWLINE) then op TOK_SEMI else t.

Definition spelling (t : token) : bytes := default [] (token_text t).
Definition spaced (ts : list token) : bytes := concat ((fun t => 32 :: spelling t) <$> ts).

Lemma lex_word_plain w : forall tmp prev rest, Forall (fun c => plain_char c = true) w -> (length tmp + length w <= 255)%nat ->
  (rest = [] \/ exists r, rest = 32 :: r) ->
  exists prev', lex_word false false false tmp prev (w ++ rest) = (tmp ++ w, false, Lexer prev' rest).
Proof.
  induction w as [|c w IH]; intros tmp prev rest Hw Hl Hr.
  - rewrite app_nil_r. destruct Hr as [->|[r ->]]; by eexists.
  - apply list.Forall_cons in Hw as [Hc Hw]. cbn [length] in Hl. unfold plain_char in Hc.
    apply andb_prop in Hc as [He Hq]. apply negb_true_iff in He, Hq. apply orb_false_elim in Hq as [[H1 H2]%orb_false_elim H3].
    cbn [app lex_word negb andb]. rewrite He, H1, H2, H3. unfold tmp_put. rewrite (proj2 (Z.ltb_lt _ _)) by (unfold lenZ; lia).
    destruct (IH (tmp ++ [c]) (Some c) rest Hw) as [p' ->]; [rewrite length_app; cbn; lia|done|].
    exists p'. by rewrite <- app_assoc.
Qed.

(** The first character of a plain word starts neither an operator nor a comment, and is no blank. *)
Lemma plain_start c : plain_char c = true -> c <> 35 ->
  (forall prev r, skip_blanks false prev (c :: r) = Lexer prev (c :: r)) /\ forall lx, lex_op c lx = None.
Proof.
  unfold plain_char, ends_word. intros [He _]%andb_prop Hh. apply negb_true_iff in He.
  repeat match goal with H : (_ || _) = false |- _ => apply orb_false_elim in H as [? ?] end.
  apply Z.eqb_neq in Hh. split; intros; cbn [skip_blanks]; unfold lex_op.
  - rewrite Hh. cbn [andb]. by repeat match goal with H : (c =? _) = false |- _ => rewrite H; clear H end.
  - by repeat match goal with H : (c =? _) = false |- _ => rewrite H; clear H end.
Qed.

(** The next token of a text that goes on with a plain token, possibly behind a blank, and then with a blank or not at all. *)
Lemma lex_next_plain a prev t rest (sp : bool) : plain_token t -> a + lenZ (spelling t) + 1 <= SH_SCRATCH_SIZE ->
  (rest = [] \/ exists r, rest = 32 :: r) ->
  exists prev' a', lex_next a (Lexer prev ((if sp then [32] else []) ++ spelling t ++ rest)) = (one_line t, Lexer prev' rest, a') /\
    a' <= a + lenZ (spelling t) + 1.
Proof.
  intros Ht Ha Hr. unfold lex_next. cbn [lx_prev lx_rest].
  set (p := if sp then Some 32 else prev).
  assert (skip_blanks false prev ((if sp then [32] else []) ++ spelling t ++ rest) = skip_blanks false p (spelling t ++ rest)) as ->
    by (subst p; by destruct sp).
  clearbody p. destruct (decide (kind t = TOK_WORD)) as [Hk|Hk].
  - unfold plain_token in Ht. rewrite Hk in Ht. destruct Ht as (w & -> & Hw & (c & w' & -> & Hc) & Hl).
    change (spelling (word (c :: w') false)) with (c :: w') in *.
    pose proof Hw as [Hc1 _]%list.Forall_cons. destruct (plain_start c Hc1 Hc) as [Hs Ho].
    cbn [app]. rewrite Hs. cbn [lex_get lx_rest lx_prev]. rewrite Ho.
    destruct (lex_word_plain (c :: w') [] p rest Hw ltac:(cbn [length] in *; lia) Hr) as [p' E]. cbn [app] in E. rewrite E.
    unfold arena_strdup, arena_alloc. rewrite (proj2 (Z.ltb_ge _ _)) by lia. cbn [mbind option_bind].
    exists p', (a + (lenZ (c :: w') + 1)). split; [done|lia].
  - unfold plain_token in Ht. destruct Hr as [->|[r ->]], t as [[] tx q]; cbn in Ht; try done;
      injection Ht as -> ->; (eexists _, a; split; [reflexivity|]); cbn; unfold lenZ; cbn [length]; lia.
Qed.

Lemma lex_next_end a prev : lex_next a (Lexer prev []) = (op TOK_EOF, Lexer prev [], a).
Proof. done. Qed.

Lemma tokenize_step n a lx t lx' a' : lex_next a lx = (t, lx', a') -> kind t <> TOK_EOF ->
  tokenize_loop (S n) a lx = let '(r, ts, a2) := tokenize_loop n a' lx' in (r, t :: ts, a2).
Proof. intros E Hk. cbn [tokenize_loop]. by rewrite E, decide_False. Qed.

Lemma one_line_not_end t : plain_token t -> kind (one_line t) <> TOK_EOF.
Proof. unfold one_line, plain_token. intros Ht Hk. case_decide; [done|]. by rewrite Hk in Ht. Qed.

(** The tokens of spaced text. *)
Lemma tokenize_spaced ts : forall n a prev, Forall plain_token ts -> (length ts < n)%nat ->
  a + lenZ (spaced ts) <= SH_SCRATCH_SIZE ->
  exists a', tokenize_loop n a (Lexer prev (spaced ts)) = (0, (one_line <$> ts) ++ [op TOK_EOF], a') /\ a' <= a + lenZ (spaced ts).
Proof.
  induction ts as [|t ts IH]; intros n a prev Hts Hn Ha; (destruct n as [|n]; [cbn in Hn; lia|]); cbn [tokenize_loop].
  - exists a. split; [done|]. change (lenZ (spaced [])) with 0. lia.
  - apply list.Forall_cons in Hts as [Ht Hts]. cbn [length] in Hn. pose proof (lenZ_nonneg (spaced ts)).
    assert (spaced (t :: ts) = [32] ++ spelling t ++ spaced ts) as E by done.
    rewrite E in *. rewrite !lenZ_app in Ha. change (lenZ [32]) with 1 in Ha.
    destruct (lex_next_plain a prev t (spaced ts) true Ht ltac:(lia)) as (p' & a' & -> & Ha').
    { destruct ts; [by left|right; by eexists]. }
    rewrite decide_False by (by apply one_line_not_end). destruct (IH n a' p' Hts ltac:(lia) ltac:(lia)) as (a2 & -> & Ha2).
    exists a2. split; [done|]. rewrite !lenZ_app. change (lenZ [32]) with 1. lia.
Qed.

Lemma plain_spelling t : plain_token t -> token_text t = Some (spelling t) /\ 0 < lenZ (spelling t).
Proof.
  unfold plain_token, spelling. destruct t as [[] tx q]; cbn [kind]; intros Ht; try done.
  destruct Ht as (w & [= -> ->] & _ & (c & w' & -> & _) & _). split; [done|]. unfold lenZ. cbn. lia.
Qed.

Lemma join_loop_spaced ts : forall tmp, Forall plain_token ts -> 0 < lenZ tmp -> lenZ tmp + lenZ (spaced ts) < SH_MAX_LINE ->
  join_loop ts tmp = tmp ++ spaced ts.
Proof.
  induction ts as [|t ts IH]; intros tmp Hts H0 Hl; cbn [join_loop]; [by rewrite app_nil_r|].
  apply list.Forall_cons in Hts as [Ht Hts]. destruct (plain_spelling t Ht) as [-> Hs]. pose proof (lenZ_nonneg (spaced ts)).
  assert (spaced (t :: ts) = [32] ++ spelling t ++ spaced ts) as E by done.
  rewrite E in *. rewrite !lenZ_app in Hl. change (lenZ [32]) with 1 in Hl.
  rewrite (proj2 (Z.eqb_neq _ _)), (proj2 (Z.ltb_lt _ _)) by lia. cbn [negb andb].
  rewrite lenZ_app. change (lenZ [32]) with 1. rewrite (proj2 (Z.leb_gt _ _)) by lia.
  rewrite IH; [by rewrite <- !app_assoc|done|rewrite !lenZ_app; change (lenZ [32]) with 1; lia..].
Qed.

(** The tokens of a function body are kept as text and lexed again at each call.  For tokens whose words need no quotes the
    text gives back the same tokens, except that ends of lines have become semicolons, provided the text fits the line
    buffer and the token array. *)
Lemma join_tokenize a ts :
  Forall plain_token ts -> ts <> [] -> (length ts < 256)%nat -> lenZ (spaced ts) <= SH_MAX_LINE ->
  0 <= a -> a + lenZ (spaced ts) <= SH_SCRATCH_SIZE ->
  exists line a2, join_tokens a ts = Some (line, a + lenZ (spaced ts)) /\
    tokenize 0 line = (0, (one_line <$> ts) ++ [op TOK_EOF], a2) /\ a2 <= lenZ (spaced ts).
Proof.
  intros Hts Hne Hn Hl Ha Hroom. destruct ts as [|t ts]; [done|]. apply list.Forall_cons in Hts as [Ht Hts].
  assert (spaced (t :: ts) = [32] ++ spelling t ++ spaced ts) as E by done.
  rewrite E, !lenZ_app in *. change (lenZ [32]) with 1 in *. destruct (plain_spelling t Ht) as [Et H0].
  assert (join_loop (t :: ts) [] = spelling t ++ spaced ts) as Ej.
  { cbn [join_loop]. rewrite Et. cbn [negb andb Z.eqb app lenZ length Z.of_nat]. change (lenZ []) with 0. rewrite Z.add_0_l. pose proof (lenZ_nonneg (spaced ts)).
    rewrite (proj2 (Z.leb_gt _ _)) by (unfold SH_MAX_LINE in *; lia). by apply join_loop_spaced; [|lia..]. }
  destruct (lex_next_plain 0 None t (spaced ts) false Ht) as (p' & a' & Eq & Ha').
  { unfold SH_SCRATCH_SIZE, SH_MAX_LINE in *. pose proof (lenZ_nonneg (spaced ts)). lia. }
  { destruct ts; [by left|right; by eexists]. }
  cbn [app] in Eq. cbn [length] in Hn.
  destruct (tokenize_spaced ts 255 a' p' Hts ltac:(lia)) as (a2 & E2 & Ha2); [unfold SH_SCRATCH_SIZE, SH_MAX_LINE in *; lia|].
  pose proof (one_line_not_end t Ht) as Hk.
  exists (spelling t ++ spaced ts), a2. split; [|split; [|lia]].
  - unfold join_tokens, arena_strdup, arena_alloc. rewrite Ej, (proj2 (Z.ltb_ge _ _)) by (rewrite lenZ_app; lia).
    cbn [mbind option_bind]. do 2 f_equal. rewrite lenZ_app. lia.
  - unfold tokenize. change SH_MAX_TOKENS with (S 255). by rewrite (tokenize_step 255 _ _ _ _ _ Eq Hk), E2.
Qed.

(** Words are checked by evaluation. *)
Lemma plain_check w :
  forallb plain_char w && negb (bool_decide (w = [])) && negb (bool_decide (list.head w = Some 35)) && (length w <=? 255)%nat = true ->
  plain_token (word w false).
Proof.
  intros [[[H1 H2]%andb_prop H3]%andb_prop H4]%andb_prop. exists w. split; [done|].
  apply negb_true_iff, bool_decide_eq_false in H2, H3. apply Nat.leb_le in H4. split.
  - apply list.Forall_forall. intros c Hc. apply (proj1 (forallb_forall _ _) H1). by apply list_elem_of_In.
  - destruct w as [|c w]; [done|]. split; [|done]. exists c, w. split; [done|]. intros ->. by apply H3.
Qed.

(** Quotes are not part of the text: a quoted word with a blank comes back as two words. *)
Lemma join_tokens_loses_quotes :
  join_tokens 0 [word (str "a b") true] = Some (str "a b", 4) /\
  tokenize 0 (str "a b") = (0, [word (str "a") false; word (str "b") false; op TOK_EOF], 4).
Proof. done. Qed.

(** Unquoted braces and parentheses are tokens of their own, so that no expansion with them is ever seen in one word. *)
Lemma tokenize_splits_expansions :
  (tokenize 0 (str "${A}")).1.2 = [word (str "$") false; op TOK_LBRACE; word (str "A") false; op TOK_RBRACE; op TOK_EOF] /\
  (tokenize 0 (str "$(a)")).1.2 = [word (str "$") false; op TOK_LPAREN; word (str "a") false; op TOK_RPAREN; op TOK_EOF].
Proof. done. Qed.

End Sh.
