(* ===== verification/ShParse.v ===== *)
(** * The shell: the parser

    The recursive-descent parser of userspace/apps/src/shell.c (lines 1082 to 1794).  The position in the token array is
    the tokens from it on; a [NULL] tree is the constructor [NULL].  Recursion and loops are fuelled: every call
    passes on one unit less, and [parse_list_total] says how much is enough.  A node takes [sizeof(Ast)] bytes of the arena. *)
From Stdlib Require Import String.
From S2P Require Import Prelude ShLex.
Import Sh.
Open Scope list_scope.
Open Scope Z_scope.

Module Parse.

Definition SH_MAX_WORDS : Z := 64.
Definition SH_MAX_REDIRS : Z := 8.

Inductive redir_kind := REDIR_IN | REDIR_OUT | REDIR_APPEND | REDIR_HEREDOC.
Record redirect := Redirect { r_kind : redir_kind; r_fd : Z; r_target : bytes; heredoc_body : option bytes }.

(** A pointer to a tree: a word of a simple command has its [quoted] flag. *)
Inductive ast :=
  | NULL
  | AST_EMPTY
  | AST_SIMPLE (words : list (bytes * bool)) (redirs : list redirect)
  | AST_SEQ (left right : ast)
  | AST_AND (left right : ast)
  | AST_OR (left right : ast)
  | AST_PIPE (left right : ast)
  | AST_BG (child : ast)
  | AST_GROUP (body : ast)
  | AST_SUBSHELL (body : ast)
  | AST_IF (cond then_part else_part : ast)
  | AST_WHILE (until : bool) (cond body : ast)
  | AST_FOR (var : bytes) (items : list bytes) (body : ast)
  | AST_FUNCDEF (name body : bytes).

Definition is_null (t : ast) : bool := match t with NULL => true | _ => false end.

(** 4 bytes of [kind], padded to 8, and the union, of which [simple] is the largest member. *)
Definition sizeof_Ast : Z := 8 + (64 * 8 + 64 + 4 + 4 + 8 * 24 + 8).

Record parser := Parser { toks : list token; arena : Z }.

Definition ps_peek (ps : parser) : option token := list.head (toks ps).
Definition ps_peek_n (ps : parser) (n : nat) : option token := toks ps !! n.

Definition ps_get (ps : parser) : token * parser :=
  match toks ps with [] => (op TOK_EOF, ps) | t :: r => (t, Parser r (arena ps)) end.

Definition next_is (ps : parser) (k : token_kind) : bool :=
  match ps_peek ps with Some t => bool_decide (kind t = k) | None => false end.

Definition ps_accept (ps : parser) (k : token_kind) : option parser := if next_is ps k then Some (ps_get ps).2 else None.

(** The arena after [ast_new], when there is room. *)
Definition ast_new (ps : parser) : option parser := a ← arena_alloc (arena ps) sizeof_Ast; Some (Parser (toks ps) a).

Definition is_keyword (t : option token) (kw : bytes) : bool :=
  match t with
  | Some t => bool_decide (kind t = TOK_WORD) && match text t with Some w => sh_streq w kw | None => false end
  | None => false
  end.

Fixpoint skip_lines (ts : list token) : list token :=
  match ts with t :: r => if decide (kind t = TOK_NEWLINE) then skip_lines r else ts | [] => [] end.

(** [while (ps_peek(ps) && ps_peek(ps)->kind == TOK_NEWLINE) ps_get(ps)] *)
Definition skip_newlines (ps : parser) : parser := Parser (skip_lines (toks ps)) (arena ps).

(** ** Simple commands *)
Definition is_redir (k : token_kind) : bool :=
  match k with TOK_GT | TOK_GTGT | TOK_LT | TOK_DLT | TOK_DLT_DASH => true | _ => false end.

Definition word_text (t : token) : bytes := default [] (text t).

Definition redir_follows (ps : parser) : bool := match ps_peek_n ps 1 with Some t => is_redir (kind t) | None => false end.

(** [parse_redir] on the present token, with [None] for the result 0. *)
Definition parse_redir (ps : parser) : outcome (option redirect * parser) :=
  match ps_peek ps with
  | None => Ret (None, ps)
  | Some t =>
      '(fd, ps) ← (if bool_decide (kind t = TOK_WORD) && forallb sh_is_digit (word_text t) && redir_follows ps
                   then fd ← need (sh_atoi (word_text t)); Ret (fd, (ps_get ps).2) else Ret (-1, ps));
      let '(o, ps) := ps_get ps in
      if negb (is_redir (kind o)) then Ret (None, ps) else
      let '(target, ps) := ps_get ps in
      if negb (bool_decide (kind target = TOK_WORD)) then Ret (None, ps) else
      let fd := if fd <? 0 then match kind o with TOK_LT | TOK_DLT | TOK_DLT_DASH => 0 | _ => 1 end else fd in
      let k := match kind o with TOK_LT => REDIR_IN | TOK_GT => REDIR_OUT | TOK_GTGT => REDIR_APPEND | _ => REDIR_HEREDOC end in
      Ret (Some (Redirect k fd (word_text target) None), ps)
  end.

(** The loop of [parse_simple], with the words and redirections so far. *)
Fixpoint simple_loop (fuel : nat) (ws : list (bytes * bool)) (rs : list redirect) (ps : parser) : outcome (ast * parser) :=
  match fuel with
  | O => More
  | S fuel =>
      let redir :=
        if SH_MAX_REDIRS <=? lenZ rs then Ret (AST_SIMPLE ws rs, ps) else
        '(r, ps) ← parse_redir ps;
        match r with Some r => simple_loop fuel ws (rs ++ [r]) ps | None => Ret (AST_SIMPLE ws rs, ps) end in
      match ps_peek ps with
      | None => Ret (AST_SIMPLE ws rs, ps)
      | Some t =>
          if bool_decide (kind t = TOK_WORD) then
            if redir_follows ps && forallb sh_is_digit (word_text t) then redir
            else if SH_MAX_WORDS <=? lenZ ws then Ret (AST_SIMPLE ws rs, ps)
            else simple_loop fuel (ws ++ [(word_text t, quoted t)]) rs (ps_get ps).2
          else if is_redir (kind t) then redir
          else Ret (AST_SIMPLE ws rs, ps)
      end
  end.

Definition parse_simple (fuel : nat) (ps : parser) : outcome (ast * parser) :=
  match ast_new ps with None => Ret (NULL, ps) | Some ps => simple_loop fuel [] [] ps end.

(** The items of a [for]: all words, of which the first 64 are kept. *)
Fixpoint for_items (items : list bytes) (ts : list token) : list bytes * list token :=
  match ts with
  | t :: r =>
      if decide (kind t = TOK_WORD)
      then for_items (if lenZ items <? SH_MAX_WORDS then items ++ [word_text t] else items) r
      else (items, ts)
  | [] => (items, [])
  end.

(** ** Commands, pipelines, lists *)
(** [ps_get] when the next token is the keyword; [return 0] when it is not. *)
Definition keyword {A} (kw : string) (ps : parser) (fail : parser -> A) (k : parser -> A) : A :=
  if is_keyword (ps_peek ps) (str kw) then k (ps_get ps).2 else fail ps.

Definition null (ps : parser) : outcome (ast * parser) := Ret (NULL, ps).

(** A new node around parsed parts. *)
Definition node (ps : parser) (t : ast) : outcome (ast * parser) :=
  match ast_new ps with None => null ps | Some ps => Ret (t, ps) end.

(** The right operand of [;] or, when [bg], of [&], and on with the loop of [parse_list]. *)
Definition list_more (and_or : parser -> outcome (ast * parser)) (loop : ast -> parser -> outcome (ast * parser)) (lhs : ast)
    (bg : bool) (ps : parser) : outcome (ast * parser) :=
  '(rhs, ps) ← and_or (skip_newlines ps);
  if is_null rhs then Ret (lhs, ps) else
  match ast_new ps with
  | None => null ps
  | Some ps =>
      if bg then match ast_new ps with None => null ps | Some ps => loop (AST_SEQ lhs (AST_BG rhs)) ps end
      else loop (AST_SEQ lhs rhs) ps
  end.

(** The right operand of [&&], [||] or a pipe, and on with the loop. *)
Definition operand (parse : parser -> outcome (ast * parser)) (loop : ast -> parser -> outcome (ast * parser)) (lhs : ast)
    (ctor : ast -> ast -> ast) (ps : parser) : outcome (ast * parser) :=
  '(rhs, ps) ← parse ps;
  if is_null rhs then null ps else
  match ast_new ps with None => null ps | Some ps => loop (ctor lhs rhs) ps end.

(** ** The productions

    The functions of the grammar call each other.  Each of them is a definition over the ones it calls; the recursion below
    hands them on, with one unit of fuel less. *)
Abbreviation production := (parser -> outcome (ast * parser)).

Definition parse_and_or_step (parse_pipeline : production) (and_or_loop : ast -> production)
    (ps : parser) : outcome (ast * parser) :=
  '(lhs, ps) ← parse_pipeline ps; if is_null lhs then null ps else and_or_loop lhs ps.

Definition parse_pipeline_step (parse_command : production) (pipeline_loop : ast -> production)
    (ps : parser) : outcome (ast * parser) :=
  '(lhs, ps) ← parse_command ps; if is_null lhs then null ps else pipeline_loop lhs ps.

Definition parse_command_step (parse_if : production) (parse_while : bool -> production) (parse_for : production)
    (parse_group : bool -> production) (parse_funcdef : production) (parse_simple : production)
    (ps : parser) : outcome (ast * parser) :=
  match ps_peek ps with
  | None => null ps
  | Some t =>
      let next := (ps_get ps).2 in
      if is_keyword (Some t) (str "if") then parse_if next
      else if is_keyword (Some t) (str "while") then parse_while false next
      else if is_keyword (Some t) (str "until") then parse_while true next
      else if is_keyword (Some t) (str "for") then parse_for next
      else if bool_decide (kind t = TOK_LPAREN) then parse_group true next
      else if bool_decide (kind t = TOK_LBRACE) then parse_group false next
      else if bool_decide (kind t = TOK_WORD) &&
        bool_decide (kind <$> ps_peek_n ps 1 = Some TOK_LPAREN) && bool_decide (kind <$> ps_peek_n ps 2 = Some TOK_RPAREN) &&
        bool_decide (kind <$> ps_peek_n ps 3 = Some TOK_LBRACE)
      then parse_funcdef ps
      else parse_simple ps
  end.

Definition parse_group_step (parse_list : production) (subshell : bool) (ps : parser) : outcome (ast * parser) :=
  match ast_new ps with
  | None => null ps
  | Some ps =>
      '(body, ps) ← parse_list ps;
      if subshell then match ps_accept ps TOK_RPAREN with Some ps => Ret (AST_SUBSHELL body, ps) | None => null ps end
      else match ps_accept ps TOK_RBRACE with Some ps => Ret (AST_GROUP body, ps) | None => null ps end
  end.

Definition parse_if_step (parse_list : production) (else_parts : parser -> outcome (option ast * parser))
    (ps : parser) : outcome (ast * parser) :=
  match ast_new ps with
  | None => null ps
  | Some ps =>
      '(cond, ps) ← parse_list ps;
      keyword "then" (skip_newlines ps) null (fun ps =>
      '(then_part, ps) ← parse_list ps;
      '(else_part, ps) ← else_parts ps;
      match else_part with
      | None => null ps
      | Some else_part => keyword "fi" (skip_newlines ps) null (fun ps => Ret (AST_IF cond then_part else_part, ps))
      end)
  end.

Definition parse_while_step (parse_list : production) (until : bool) (ps : parser) : outcome (ast * parser) :=
  match ast_new ps with
  | None => null ps
  | Some ps =>
      '(cond, ps) ← parse_list ps;
      keyword "do" (skip_newlines ps) null (fun ps =>
      '(body, ps) ← parse_list ps;
      keyword "done" (skip_newlines ps) null (fun ps => Ret (AST_WHILE until cond body, ps)))
  end.

Definition parse_for_step (parse_list : production) (ps : parser) : outcome (ast * parser) :=
  match ast_new ps with
  | None => null ps
  | Some ps =>
      let '(name, ps) := ps_get ps in
      if negb (bool_decide (kind name = TOK_WORD)) then null ps else
      let ps := skip_newlines ps in
      let '(items, ps) :=
        if is_keyword (ps_peek ps) (str "in")
        then let '(items, r) := for_items [] (toks (ps_get ps).2) in (items, Parser r (arena ps)) else ([], ps) in
      let ps := if next_is ps TOK_SEMI || next_is ps TOK_NEWLINE then (ps_get ps).2 else ps in
      keyword "do" (skip_newlines ps) null (fun ps =>
      '(body, ps) ← parse_list ps;
      keyword "done" (skip_newlines ps) null (fun ps => Ret (AST_FOR (word_text name) items body, ps)))
  end.

Definition parse_funcdef_step (parse_list : production) (ps : parser) : outcome (ast * parser) :=
  let '(name, ps) := ps_get ps in
  if negb (bool_decide (kind name = TOK_WORD)) then null ps else
  match ps_accept ps TOK_LPAREN with
  | None => null ps
  | Some ps =>
      match ps_accept ps TOK_RPAREN with
      | None => null ps
      | Some ps =>
          match ps_accept ps TOK_LBRACE with
          | None => null ps
          | Some start =>
              '(_, ps) ← parse_list start;
              match ps_accept ps TOK_RBRACE with
              | None => null ps
              | Some ps =>
                  let body := take (length (toks start) - length (toks ps) - 1) (toks start) in
                  let '(body, a) := match join_tokens (arena ps) body with Some r => r | None => ([], arena ps) end in
                  node (Parser (toks ps) a) (AST_FUNCDEF (word_text name) body)
              end
          end
      end
  end.

(** The loop of [parse_list] *)
Definition list_loop_step (parse_and_or : production) (list_loop : ast -> production)
    (lhs : ast) (ps : parser) : outcome (ast * parser) :=
  let ps := skip_newlines ps in
  let more := list_more parse_and_or list_loop lhs in
  match ps_accept ps TOK_SEMI with
  | Some ps => more false ps
  | None => match ps_accept ps TOK_AMP with Some ps => more true ps | None => Ret (lhs, ps) end
  end.

(** The loop of [parse_and_or] *)
Definition and_or_loop_step (parse_pipeline : production) (and_or_loop : ast -> production)
    (lhs : ast) (ps : parser) : outcome (ast * parser) :=
  let more := operand parse_pipeline and_or_loop lhs in
  match ps_accept ps TOK_AND_IF with
  | Some ps => more AST_AND ps
  | None => match ps_accept ps TOK_OR_IF with Some ps => more AST_OR ps | None => Ret (lhs, ps) end
  end.

(** The loop of [parse_pipeline] *)
Definition pipeline_loop_step (parse_command : production) (pipeline_loop : ast -> production)
    (lhs : ast) (ps : parser) : outcome (ast * parser) :=
  match ps_accept ps TOK_PIPE with
  | None => Ret (lhs, ps)
  | Some ps => operand parse_command pipeline_loop lhs AST_PIPE ps
  end.

(** The loop of [parse_if]: the [else_part] of the present node, [None] where the whole command fails. *)
Definition else_parts_step (parse_list : production) (else_parts : parser -> outcome (option ast * parser))
    (ps : parser) : outcome (option ast * parser) :=
  let ps := skip_newlines ps in
  let fail ps := Ret (None, ps) in
  if is_keyword (ps_peek ps) (str "elif") then
    match ast_new (ps_get ps).2 with
    | None => fail (ps_get ps).2
    | Some ps =>
        '(cond, ps) ← parse_list ps;
        keyword "then" (skip_newlines ps) fail (fun ps =>
        '(then_part, ps) ← parse_list ps;
        '(else_part, ps) ← else_parts ps;
        match else_part with None => fail ps | Some e => Ret (Some (AST_IF cond then_part e), ps) end)
    end
  else if is_keyword (ps_peek ps) (str "else") then
    '(else_part, ps) ← parse_list (ps_get ps).2; Ret (Some else_part, ps)
  else Ret (Some NULL, ps).

Fixpoint parse_list (fuel : nat) (ps : parser) : outcome (ast * parser) :=
  match fuel with
  | O => More
  | S fuel =>
      '(lhs, ps) ← parse_and_or fuel (skip_newlines ps);
      if is_null lhs then node ps AST_EMPTY else list_loop fuel lhs ps
  end
with list_loop (fuel : nat) (lhs : ast) (ps : parser) : outcome (ast * parser) :=
  match fuel with
  | O => More
  | S fuel => list_loop_step (parse_and_or fuel) (list_loop fuel) lhs ps
  end
with parse_and_or (fuel : nat) (ps : parser) : outcome (ast * parser) :=
  match fuel with
  | O => More
  | S fuel => parse_and_or_step (parse_pipeline fuel) (and_or_loop fuel) ps
  end
with and_or_loop (fuel : nat) (lhs : ast) (ps : parser) : outcome (ast * parser) :=
  match fuel with
  | O => More
  | S fuel => and_or_loop_step (parse_pipeline fuel) (and_or_loop fuel) lhs ps
  end
with parse_pipeline (fuel : nat) (ps : parser) : outcome (ast * parser) :=
  match fuel with
  | O => More
  | S fuel => parse_pipeline_step (parse_command fuel) (pipeline_loop fuel) ps
  end
with pipeline_loop (fuel : nat) (lhs : ast) (ps : parser) : outcome (ast * parser) :=
  match fuel with
  | O => More
  | S fuel => pipeline_loop_step (parse_command fuel) (pipeline_loop fuel) lhs ps
  end
with parse_command (fuel : nat) (ps : parser) : outcome (ast * parser) :=
  match fuel with
  | O => More
  | S fuel => parse_command_step (parse_if fuel) (parse_while fuel) (parse_for fuel) (parse_group fuel) (parse_funcdef fuel) (parse_simple fuel) ps
  end
with parse_group (fuel : nat) (subshell : bool) (ps : parser) : outcome (ast * parser) :=
  match fuel with
  | O => More
  | S fuel => parse_group_step (parse_list fuel) subshell ps
  end
with parse_if (fuel : nat) (ps : parser) : outcome (ast * parser) :=
  match fuel with
  | O => More
  | S fuel => parse_if_step (parse_list fuel) (else_parts fuel) ps
  end
with else_parts (fuel : nat) (ps : parser) : outcome (option ast * parser) :=
  match fuel with
  | O => More
  | S fuel => else_parts_step (parse_list fuel) (else_parts fuel) ps
  end
with parse_while (fuel : nat) (until : bool) (ps : parser) : outcome (ast * parser) :=
  match fuel with
  | O => More
  | S fuel => parse_while_step (parse_list fuel) until ps
  end
with parse_for (fuel : nat) (ps : parser) : outcome (ast * parser) :=
  match fuel with
  | O => More
  | S fuel => parse_for_step (parse_list fuel) ps
  end
with parse_funcdef (fuel : nat) (ps : parser) : outcome (ast * parser) :=
  match fuel with
  | O => More
  | S fuel => parse_funcdef_step (parse_list fuel) ps
  end.

End Parse.
