(* ===== verification/ShParseProofs.v ===== *)
(** * The shell: the parser ends, and reads what is printed

    - the parser ends on every token sequence, within a fuel linear in its length, and builds at most ten nodes;
    - trees are printed as tokens and parsed back; with the lexer, function bodies survive being kept as text. *)
From Stdlib Require Import String.
From S2P Require Import Prelude ShLex ShParse.
Import Sh Parse.
Open Scope list_scope.
Open Scope Z_scope.

Module ParseProofs.

(** ** Totality and the number of nodes *)
Fixpoint nodes (t : ast) : Z :=
  match t with
  | NULL => 0
  | AST_EMPTY | AST_SIMPLE _ _ | AST_FUNCDEF _ _ => 1
  | AST_SEQ l r | AST_AND l r | AST_OR l r | AST_PIPE l r => 1 + nodes l + nodes r
  | AST_BG t | AST_GROUP t | AST_SUBSHELL t | AST_FOR _ _ t => 1 + nodes t
  | AST_IF c t e => 1 + nodes c + nodes t + nodes e
  | AST_WHILE _ c b => 1 + nodes c + nodes b
  end.

Lemma nodes_nonneg t : 0 <= nodes t.
Proof. induction t; cbn [nodes]; lia. Qed.

(** The number that digits spell. *)
Definition number (s : bytes) : Z := foldl (fun v c => v * 10 + (c - 48)) 0 s.

(** A word of digits directly before a redirection operator, the number of a descriptor, fits an [int]. *)
Definition fds_fit (ts : list token) : Prop := forall k t o r, ts = k ++ t :: o :: r ->
  kind t = TOK_WORD -> forallb sh_is_digit (word_text t) = true -> is_redir (kind o) = true -> number (word_text t) < 2147483648.

Lemma fds_fit_app k ts : fds_fit (k ++ ts) -> fds_fit ts.
Proof. intros H k' t o r ->. apply (H (k ++ k') t o r). by rewrite <- app_assoc. Qed.

(** Undefined behaviour is possible when [Bad] holds, else all descriptors in the tokens fit. *)
Section totality.
Context (Bad : Prop).

Definition good (ps : parser) : Prop := arena ps <= SH_SCRATCH_SIZE /\ (Bad \/ fds_fit (toks ps)).

(** The parser moves on: fewer tokens, more of the arena. *)
Definition moves (ps ps' : parser) : Prop :=
  (exists k, toks ps = k ++ toks ps') /\ arena ps <= arena ps' <= SH_SCRATCH_SIZE.

Lemma moves_refl ps : good ps -> moves ps ps.
Proof. intros [? _]. split; [by exists []|lia]. Qed.

Lemma moves_trans ps1 ps2 ps3 : moves ps1 ps2 -> moves ps2 ps3 -> moves ps1 ps3.
Proof.
  intros [[k1 E1] H1] [[k2 E2] H2]. split; [|lia]. exists (k1 ++ k2). by rewrite E1, E2, <- app_assoc.
Qed.

Lemma moves_good ps ps' : good ps -> moves ps ps' -> good ps'.
Proof. intros [_ H] [[k E] [_ Ha]]. split; [done|]. rewrite E in H. destruct H as [H|H]; [by left|right]. by eapply fds_fit_app. Qed.

Lemma moves_length ps ps' : moves ps ps' -> (length (toks ps') <= length (toks ps))%nat.
Proof. intros [[k ->] _]. rewrite length_app. lia. Qed.

Lemma skip_lines_suffix ts : exists k, ts = k ++ skip_lines ts.
Proof.
  induction ts as [|t ts [k IH]]; cbn [skip_lines]; [by exists []|]. case_decide; [|by exists []].
  exists (t :: k). cbn. by f_equal.
Qed.

Lemma skip_newlines_moves ps : good ps -> moves ps (skip_newlines ps).
Proof. intros [? _]. split; [apply skip_lines_suffix|cbn; lia]. Qed.

Lemma ps_get_moves ps : good ps -> moves ps (ps_get ps).2.
Proof.
  intros Hg. unfold ps_get. destruct (toks ps) as [|t r] eqn:E; [by apply moves_refl|].
  destruct Hg. split; [exists [t]; by rewrite E|cbn; lia].
Qed.

(** Taking a token that is there makes the sequence shorter. *)
Lemma ps_get_shorter ps t : ps_peek ps = Some t -> (length (toks (ps_get ps).2) < length (toks ps))%nat.
Proof. unfold ps_peek, ps_get. destruct (toks ps); cbn; [done|lia]. Qed.

Lemma ps_accept_spec ps k ps' : ps_accept ps k = Some ps' -> exists t, ps_peek ps = Some t /\ ps' = (ps_get ps).2.
Proof. unfold ps_accept, next_is. destruct (ps_peek ps) as [t|]; [|done]. intros. case_match; [|done]. simplify_eq. by exists t. Qed.

Lemma is_keyword_peek ps kw : is_keyword (ps_peek ps) kw = true -> exists t, ps_peek ps = Some t.
Proof. destruct (ps_peek ps) as [t|]; [by exists t|done]. Qed.

Lemma ast_new_spec ps ps' : ast_new ps = Some ps' ->
  toks ps' = toks ps /\ arena ps' = arena ps + 792 /\ arena ps + 792 <= SH_SCRATCH_SIZE.
Proof.
  unfold ast_new, arena_alloc. change sizeof_Ast with 792. intros H. case_match; [done|]. cbn in H. simplify_eq. cbn. split; [done|lia].
Qed.

Definition ends {A} (Q : A -> parser -> Prop) (o : outcome (A * parser)) : Prop :=
  match o with Ret (t, ps) => Q t ps | Undef => Bad | More => False end.

Lemma ends_bind {A B} (Q : A -> parser -> Prop) (R : B -> parser -> Prop) o k :
  ends Q o -> (forall t ps, Q t ps -> ends R (k (t, ps))) -> ends R (o ≫= k).
Proof. destruct o as [[t ps]| |]; cbn; intros H Hk; [by apply Hk|done..]. Qed.

Lemma ends_weaken {A} (Q R : A -> parser -> Prop) o : ends Q o -> (forall t ps, Q t ps -> R t ps) -> ends R o.
Proof. destruct o as [[t ps]| |]; cbn; auto. Qed.

(** What a parse from [ps] that starts with [base] nodes gives: the nodes it adds are paid for in the arena. *)
Definition post (ps : parser) (base : Z) (t : ast) (ps' : parser) : Prop :=
  moves ps ps' /\ arena ps + 792 * nodes t <= arena ps' + 792 * base.

Lemma null_ends ps0 b ps : moves ps0 ps -> 0 <= b -> ends (post ps0 b) (null ps).
Proof. intros H Hb. split; [done|]. destruct H as [_ ?]. cbn [nodes]. lia. Qed.

Lemma digits_grow s : forall v, 0 <= v -> forallb sh_is_digit s = true -> v <= foldl (fun v c => v * 10 + (c - 48)) v s.
Proof.
  induction s as [|c s IH]; intros v Hv Hd; cbn [foldl]; [lia|]. cbn [forallb] in Hd. apply andb_prop in Hd as [Hc Hd].
  unfold sh_is_digit in Hc. etransitivity; [|apply IH; [lia|done]]. lia.
Qed.

Lemma digits_loop_total s : forall v, 0 <= v -> forallb sh_is_digit s = true -> foldl (fun v c => v * 10 + (c - 48)) v s < 2147483648 ->
  digits_loop v s = Some (foldl (fun v c => v * 10 + (c - 48)) v s, []).
Proof.
  induction s as [|c s IH]; intros v Hv Hd Hl; cbn [digits_loop foldl] in *; [done|].
  cbn [forallb] in Hd. apply andb_prop in Hd as [Hc Hd]. rewrite Hc. unfold sh_is_digit in Hc.
  pose proof (digits_grow s (v * 10 + (c - 48)) ltac:(lia) Hd). rewrite (proj2 (Z.ltb_lt _ _)) by lia. apply IH; [lia|done..].
Qed.

Lemma sh_atoi_total s : forallb sh_is_digit s = true -> number s < 2147483648 -> sh_atoi s = Some (number s).
Proof.
  intros Hd Hl. unfold sh_atoi. destruct s as [|c s]; [done|]. pose proof (digits_loop_total (c :: s) 0 ltac:(lia) Hd Hl) as E.
  cbn [forallb] in Hd. apply andb_prop in Hd as [Hc _]. cbn [skip_while].
  replace (sh_is_space c) with false by (unfold sh_is_digit, sh_is_space in *; lia).
  rewrite (proj2 (Z.eqb_neq c 45)), (proj2 (Z.eqb_neq c 43)) by (unfold sh_is_digit in Hc; lia).
  rewrite E. cbn [mbind option_bind fst]. f_equal. unfold number. lia.
Qed.

Lemma parse_redir_ends ps t : good ps -> ps_peek ps = Some t ->
  ends (fun _ ps' => moves ps ps' /\ (length (toks ps') < length (toks ps))%nat) (parse_redir ps).
Proof.
  intros Hg Ht. unfold parse_redir. rewrite Ht.
  eapply (ends_bind (fun (_ : Z) ps1 => moves ps ps1 /\ ps_peek ps1 <> None)).
  - case_match eqn:E; [|split; [by apply moves_refl|by rewrite Ht]].
    apply andb_prop in E as [[Hw Hd]%andb_prop Hf]. apply bool_decide_eq_true in Hw. destruct (sh_atoi (word_text t)) as [fd|] eqn:Ea.
    { cbn. split; [by apply ps_get_moves|]. unfold redir_follows, ps_peek_n, ps_peek, ps_get in *. by destruct (toks ps) as [|? [|]]. }
    destruct Hg as [_ [Hb|Hfit]]; [exact Hb|exfalso]. unfold redir_follows, ps_peek_n, ps_peek in *.
    destruct (toks ps) as [|t0 [|o r]]; [done..|]. cbn in Ht. injection Ht as ->. cbn in Hf.
    by rewrite (sh_atoi_total _ Hd (Hfit [] t o r eq_refl Hw Hd Hf)) in Ea.
  - intros fd ps1 [Hm Hp]. destruct (ps_peek ps1) as [t1|] eqn:Ht1; [|done]. pose proof (moves_good _ _ Hg Hm) as Hg1.
    pose proof (ps_get_shorter ps1 t1 Ht1) as Hs. pose proof (ps_get_moves ps1 Hg1) as Hm1. pose proof (moves_length _ _ Hm).
    destruct (ps_get ps1) as [o ps2]. cbn [snd] in *. pose proof (moves_good _ _ Hg1 Hm1) as Hg2.
    pose proof (moves_trans _ _ _ Hm Hm1) as Hm2.
    destruct (negb _); [cbn; split; [done|lia]|]. pose proof (ps_get_moves ps2 Hg2) as Hm3. pose proof (moves_length _ _ Hm3).
    destruct (ps_get ps2) as [tg ps3]. cbn [snd] in *.
    destruct (negb _); cbn; (split; [by eapply moves_trans|lia]).
Qed.

Lemma simple_loop_ends fuel : forall ws rs ps, good ps -> (length (toks ps) < fuel)%nat ->
  ends (post ps 1) (simple_loop fuel ws rs ps).
Proof.
  induction fuel as [|fuel IH]; intros ws rs ps Hg Hf; [lia|].
  assert (ends (post ps 1) (Ret (AST_SIMPLE ws rs, ps))) as Hdone.
  { split; [by apply moves_refl|]. cbn. lia. }
  cbn [simple_loop]. destruct (ps_peek ps) as [t|] eqn:Ht; [|done].
  assert (forall ps1 ws' rs', moves ps ps1 -> (length (toks ps1) < length (toks ps))%nat -> ends (post ps 1) (simple_loop fuel ws' rs' ps1)) as Hnext.
  { intros ps1 ws' rs' Hm Hl. eapply ends_weaken; [apply IH; [by eapply moves_good|lia]|].
    intros t' ps' [Hm' Ha]. split; [by eapply moves_trans|]. destruct Hm. lia. }
  set (redir := if SH_MAX_REDIRS <=? lenZ rs then _ else _).
  assert (ends (post ps 1) redir) as Hredir.
  { subst redir. destruct (_ <=? _); [done|]. eapply ends_bind; [by eapply parse_redir_ends|].
    intros [r|] ps' [Hm Hl]; [by apply Hnext|]. split; [done|]. destruct Hm. cbn. lia. }
  clearbody redir. repeat (case_match; try done).
  apply Hnext; [by apply ps_get_moves|by eapply ps_get_shorter].
Qed.

Lemma for_items_suffix ts : forall items, exists k, ts = k ++ (for_items items ts).2.
Proof.
  induction ts as [|t ts IH]; intros items; cbn [for_items]; [by exists []|]. case_decide; [|by exists []].
  destruct (IH (if lenZ items <? SH_MAX_WORDS then items ++ [word_text t] else items)) as [k Hk]. exists (t :: k). cbn. by f_equal.
Qed.

(** The steps of the parser, seen from the start [ps0] of the present function. *)
Section steps.
Context (ps0 : parser) (Hg0 : good ps0).

Lemma accept_moves ps k ps' : moves ps0 ps -> ps_accept ps k = Some ps' ->
  moves ps0 ps' /\ (length (toks ps') < length (toks ps))%nat /\ arena ps' = arena ps.
Proof.
  intros Hm (t & Ht & ->)%ps_accept_spec. split; [eapply moves_trans; [done|]; apply ps_get_moves; by eapply moves_good|].
  split; [by eapply ps_get_shorter|]. unfold ps_get. by destruct (toks ps).
Qed.

Lemma get_moves ps : moves ps0 ps ->
  moves ps0 (ps_get ps).2 /\ (length (toks (ps_get ps).2) <= length (toks ps))%nat /\ arena (ps_get ps).2 = arena ps.
Proof.
  intros Hm. pose proof (ps_get_moves ps (moves_good _ _ Hg0 Hm)) as Hm1. split; [by eapply moves_trans|].
  split; [by apply moves_length|]. unfold ps_get. by destruct (toks ps).
Qed.

Lemma new_moves ps ps' : moves ps0 ps -> ast_new ps = Some ps' ->
  moves ps0 ps' /\ length (toks ps') = length (toks ps) /\ arena ps' = arena ps + 792.
Proof.
  intros Hm (Et & Ea & Hl)%ast_new_spec. rewrite Et. split; [|done].
  eapply moves_trans; [done|]. split; [exists []; by rewrite Et|lia].
Qed.

Lemma skip_moves ps : moves ps0 ps ->
  moves ps0 (skip_newlines ps) /\ (length (toks (skip_newlines ps)) <= length (toks ps))%nat /\ arena (skip_newlines ps) = arena ps.
Proof.
  intros Hm. pose proof (skip_newlines_moves ps (moves_good _ _ Hg0 Hm)) as Hm1. split; [by eapply moves_trans|].
  split; [by apply moves_length|done].
Qed.

Lemma keyword_ends {A} (Q : A -> parser -> Prop) kw ps fail k : moves ps0 ps -> ends Q (fail ps) ->
  (forall ps', moves ps0 ps' -> (length (toks ps') < length (toks ps))%nat -> arena ps' = arena ps -> ends Q (k ps')) ->
  ends Q (keyword kw ps fail k).
Proof.
  intros Hm Hf Hk. unfold keyword. case_match eqn:E; [|done]. apply is_keyword_peek in E as [t Ht].
  destruct (get_moves ps Hm) as (? & _ & ?). apply Hk; [done|by eapply ps_get_shorter|done].
Qed.

Lemma call {B} (R : B -> parser -> Prop) ps b o k : moves ps0 ps -> ends (post ps b) o ->
  (forall t ps', moves ps0 ps' -> (length (toks ps') <= length (toks ps))%nat ->
    arena ps + 792 * nodes t <= arena ps' + 792 * b -> ends R (k (t, ps'))) ->
  ends R (o ≫= k).
Proof.
  intros Hm Ho Hk. eapply ends_bind; [done|]. intros t ps' [Hm' Ha].
  apply Hk; [by eapply moves_trans|by apply moves_length|done].
Qed.

Lemma tail_call ps b1 b0 o : moves ps0 ps -> ends (post ps b1) o -> arena ps0 + 792 * b1 <= arena ps + 792 * b0 -> ends (post ps0 b0) o.
Proof. intros Hm Ho Ha. eapply ends_weaken; [done|]. intros t ps' [Hm' Ha']. split; [by eapply moves_trans|lia]. Qed.

Lemma return_ends b t ps : moves ps0 ps -> arena ps0 + 792 * nodes t <= arena ps + 792 * b -> ends (post ps0 b) (Ret (t, ps)).
Proof. done. Qed.

Lemma node_ends b t ps : moves ps0 ps -> 0 <= b -> arena ps0 + 792 * nodes t <= arena ps + 792 + 792 * b -> ends (post ps0 b) (node ps t).
Proof.
  intros Hm Hb Ha. unfold node. destruct (ast_new ps) as [ps'|] eqn:E; [|by apply null_ends].
  destruct (new_moves ps ps' Hm E) as (? & _ & ?). split; [done|lia].
Qed.

End steps.

(** Every function of the parser ends: the fuel it needs for its tokens. *)
Record all_end (n : nat) : Prop := {
  e_list ps : good ps -> (8 * length (toks ps) + 5 <= n)%nat -> ends (post ps 0) (parse_list n ps);
  e_list_loop l ps : good ps -> (8 * length (toks ps) + 1 <= n)%nat -> ends (post ps (nodes l)) (list_loop n l ps);
  e_and_or ps : good ps -> (8 * length (toks ps) + 4 <= n)%nat -> ends (post ps 0) (parse_and_or n ps);
  e_and_or_loop l ps : good ps -> (8 * length (toks ps) + 1 <= n)%nat -> ends (post ps (nodes l)) (and_or_loop n l ps);
  e_pipeline ps : good ps -> (8 * length (toks ps) + 3 <= n)%nat -> ends (post ps 0) (parse_pipeline n ps);
  e_pipeline_loop l ps : good ps -> (8 * length (toks ps) + 1 <= n)%nat -> ends (post ps (nodes l)) (pipeline_loop n l ps);
  e_command ps : good ps -> (8 * length (toks ps) + 2 <= n)%nat -> ends (post ps 0) (parse_command n ps);
  e_group b ps : good ps -> (8 * length (toks ps) + 6 <= n)%nat -> ends (post ps 0) (parse_group n b ps);
  e_if ps : good ps -> (8 * length (toks ps) + 6 <= n)%nat -> ends (post ps 0) (parse_if n ps);
  e_else ps : good ps -> (8 * length (toks ps) + 1 <= n)%nat -> ends (fun o => post ps 0 (default NULL o)) (else_parts n ps);
  e_while b ps : good ps -> (8 * length (toks ps) + 6 <= n)%nat -> ends (post ps 0) (parse_while n b ps);
  e_for ps : good ps -> (8 * length (toks ps) + 1 <= n)%nat -> ends (post ps 0) (parse_for n ps);
  e_funcdef ps : good ps -> (8 * length (toks ps) + 1 <= n)%nat -> ends (post ps 0) (parse_funcdef n ps)
}.

Create HintDb parse.
#[local] Hint Extern 4 (moves _ _) => assumption : parse.

Lemma list_ends n : all_end n -> forall ps, good ps -> (8 * length (toks ps) + 5 <= S n)%nat -> ends (post ps 0) (parse_list (S n) ps).
Proof.
  intros IH ps Hg Hn. cbn [parse_list]. destruct (skip_moves ps Hg ps (moves_refl _ Hg)) as (Hm & Hl & Ha).
  eapply (call ps); [done|apply IH; [by eapply moves_good|lia]|]. intros t ps1 Hm1 Hl1 Ha1. pose proof (nodes_nonneg t).
  destruct (is_null t); [apply node_ends; [done..|cbn [nodes]; lia]|].
  eapply tail_call; [done|apply IH; [by eapply moves_good|lia]|lia].
Qed.

Lemma list_loop_ends n : all_end n -> forall l ps, good ps -> (8 * length (toks ps) + 1 <= S n)%nat -> ends (post ps (nodes l)) (list_loop (S n) l ps).
Proof.
  intros IH l ps Hg Hn. cbn [list_loop]; unfold list_loop_step. destruct (skip_moves ps Hg ps (moves_refl _ Hg)) as (Hm & Hl & Ha).
  pose proof (nodes_nonneg l).
  assert (forall bg ps1, moves ps ps1 -> (length (toks ps1) < length (toks ps))%nat -> arena ps1 = arena ps ->
    ends (post ps (nodes l)) (list_more (parse_and_or n) (list_loop n) l bg ps1)) as Hmore.
  { intros bg ps1 Hm1 Hl1 Ha1. unfold list_more. destruct (skip_moves ps Hg ps1 Hm1) as (Hm2 & Hl2 & Ha2).
    eapply (call ps); [done|apply IH; [by eapply moves_good|lia]|]. intros t ps2 Hm3 Hl3 Ha3. pose proof (nodes_nonneg t).
    destruct (is_null t); [apply return_ends; [done|lia]|].
    destruct (ast_new ps2) as [ps3|] eqn:E3; [|by apply null_ends]. destruct (new_moves ps ps2 ps3 Hm3 E3) as (Hm4 & Hl4 & Ha4).
    destruct bg; [destruct (ast_new ps3) as [ps4|] eqn:E4; [|by apply null_ends]; destruct (new_moves ps ps3 ps4 Hm4 E4) as (Hm5 & Hl5 & Ha5)|];
      (eapply tail_call; [done|apply IH; [by eapply moves_good|lia]|cbn [nodes]; lia]). }
  destruct (ps_accept _ TOK_SEMI) as [ps1|] eqn:E1.
  { destruct (accept_moves ps Hg _ _ _ Hm E1) as (? & ? & ?). apply Hmore; [done|lia|lia]. }
  destruct (ps_accept _ TOK_AMP) as [ps1|] eqn:E2.
  { destruct (accept_moves ps Hg _ _ _ Hm E2) as (? & ? & ?). apply Hmore; [done|lia|lia]. }
  apply return_ends; [done|lia].
Qed.

(** The right operand of an infix operator. *)
Lemma operand_ends n parse loop l ctor k ps ps1 : good ps -> (8 * length (toks ps) + 1 <= S n)%nat ->
  (forall ps, good ps -> (8 * length (toks ps) + 3 <= n)%nat -> ends (post ps 0) (parse ps)) ->
  (forall l ps, good ps -> (8 * length (toks ps) + 1 <= n)%nat -> ends (post ps (nodes l)) (loop l ps)) ->
  (forall l r, nodes (ctor l r) = 1 + nodes l + nodes r) -> ps_accept ps k = Some ps1 ->
  ends (post ps (nodes l)) (operand parse loop l ctor ps1).
Proof.
  intros Hg Hn Hparse Hloop Hc E. destruct (accept_moves ps Hg _ _ _ (moves_refl _ Hg) E) as (Hm1 & Hl1 & Ha1).
  pose proof (nodes_nonneg l). unfold operand.
  eapply (call ps); [done|apply Hparse; [by eapply moves_good|lia]|]. intros t ps2 Hm2 Hl2 Ha2. pose proof (nodes_nonneg t).
  destruct (is_null t); [by apply null_ends|].
  destruct (ast_new ps2) as [ps3|] eqn:E3; [|by apply null_ends]. destruct (new_moves ps ps2 ps3 Hm2 E3) as (Hm4 & Hl4 & Ha4).
  eapply tail_call; [done|apply Hloop; [by eapply moves_good|lia]|rewrite Hc; lia].
Qed.

(** A first operand and the loop behind it. *)
Lemma first_ends (c : nat) n parse loop ps : good ps -> (8 * length (toks ps) + c <= n)%nat -> (1 <= c)%nat ->
  (forall ps, good ps -> (8 * length (toks ps) + c <= n)%nat -> ends (post ps 0) (parse ps)) ->
  (forall l ps, good ps -> (8 * length (toks ps) + 1 <= n)%nat -> ends (post ps (nodes l)) (loop l ps)) ->
  ends (post ps 0) ('(l, ps) ← parse ps; if is_null l then null ps else loop l ps).
Proof.
  intros Hg Hn Hc Hparse Hloop. eapply (call ps); [by apply moves_refl|by apply Hparse|]. intros t ps1 Hm1 Hl1 Ha1.
  destruct (is_null t); [by apply null_ends|]. eapply tail_call; [done|apply Hloop; [by eapply moves_good|lia]|lia].
Qed.

Lemma and_or_loop_ends n : all_end n -> forall l ps, good ps -> (8 * length (toks ps) + 1 <= S n)%nat -> ends (post ps (nodes l)) (and_or_loop (S n) l ps).
Proof.
  intros IH l ps Hg Hn. cbn [and_or_loop]; unfold and_or_loop_step.
  destruct (ps_accept _ TOK_AND_IF) as [ps1|] eqn:E1; [eapply operand_ends; [done..|apply IH|apply IH|done|done]|].
  destruct (ps_accept _ TOK_OR_IF) as [ps1|] eqn:E2; [eapply operand_ends; [done..|apply IH|apply IH|done|done]|].
  apply return_ends; [by apply moves_refl|lia].
Qed.

Lemma pipeline_loop_ends n : all_end n -> forall l ps, good ps -> (8 * length (toks ps) + 1 <= S n)%nat -> ends (post ps (nodes l)) (pipeline_loop (S n) l ps).
Proof.
  intros IH l ps Hg Hn. cbn [pipeline_loop]; unfold pipeline_loop_step. destruct (ps_accept _ TOK_PIPE) as [ps1|] eqn:E1.
  - eapply operand_ends; [done..|intros; apply IH; [done|lia]|apply IH|done|done].
  - apply return_ends; [by apply moves_refl|lia].
Qed.

Lemma command_ends n : all_end n -> forall ps, good ps -> (8 * length (toks ps) + 2 <= S n)%nat -> ends (post ps 0) (parse_command (S n) ps).
Proof.
  intros IH ps Hg Hn. cbn [parse_command]; unfold parse_command_step. destruct (ps_peek ps) as [t|] eqn:Ht; [|apply null_ends; [by apply moves_refl|done]].
  pose proof (ps_get_shorter ps t Ht) as Hs. destruct (get_moves ps Hg ps (moves_refl _ Hg)) as (Hm & _ & Ha).
  pose proof (moves_good _ _ Hg Hm) as Hg1.
  repeat match goal with |- ends _ (if ?b then _ else _) => destruct b end;
    try (eapply tail_call; [done|apply IH; [done|lia]|lia]); [apply IH; [done|lia]|].
  unfold parse_simple. destruct (ast_new ps) as [ps1|] eqn:E; [|apply null_ends; [by apply moves_refl|done]].
  destruct (new_moves ps ps ps1 (moves_refl _ Hg) E) as (Hm1 & Hl1 & Ha1).
  eapply tail_call; [done|apply simple_loop_ends; [by apply (moves_good ps)|lia]|lia].
Qed.

(** A list, then a keyword on a line of its own or not. *)
Lemma list_then_keyword {A} (ps0 ps : parser) n kw (Q : A -> parser -> Prop) fail k : all_end n -> good ps0 -> moves ps0 ps ->
  (8 * length (toks ps) + 5 <= n)%nat -> (forall ps, moves ps0 ps -> ends Q (fail ps)) ->
  (forall t ps', moves ps0 ps' -> (length (toks ps') < length (toks ps))%nat -> arena ps + 792 * nodes t <= arena ps' -> ends Q (k t ps')) ->
  ends Q ('(t, ps) ← parse_list n ps; keyword kw (skip_newlines ps) fail (k t)).
Proof.
  intros IH Hg Hm Hn Hf Hk. eapply (call ps0); [done|apply IH; [by apply (moves_good ps0)|done]|]. intros t ps1 Hm1 Hl1 Ha1.
  destruct (skip_moves ps0 Hg ps1 Hm1) as (Hm2 & Hl2 & Ha2). eapply (keyword_ends ps0); [done..|by apply Hf|].
  intros ps2 Hm3 Hl3 Ha3. apply Hk; [done|lia|lia].
Qed.

Lemma group_ends n : all_end n -> forall b ps, good ps -> (8 * length (toks ps) + 6 <= S n)%nat -> ends (post ps 0) (parse_group (S n) b ps).
Proof.
  intros IH b ps Hg Hn. cbn [parse_group]; unfold parse_group_step. destruct (ast_new ps) as [ps1|] eqn:E; [|apply null_ends; [by apply moves_refl|done]].
  destruct (new_moves ps ps ps1 (moves_refl _ Hg) E) as (Hm1 & Hl1 & Ha1).
  eapply (call ps); [done|apply IH; [by apply (moves_good ps)|lia]|]. intros t ps2 Hm2 Hl2 Ha2.
  destruct b; (destruct (ps_accept ps2 _) as [ps3|] eqn:E3; [|by apply null_ends]);
    destruct (accept_moves ps Hg _ _ _ Hm2 E3) as (? & ? & ?); (apply return_ends; [done|cbn [nodes]; lia]).
Qed.

Lemma else_parts_ends n : all_end n -> forall ps, good ps -> (8 * length (toks ps) + 1 <= S n)%nat ->
  ends (fun o => post ps 0 (default NULL o)) (else_parts (S n) ps).
Proof.
  intros IH ps Hg Hn. cbn [else_parts]; unfold else_parts_step. destruct (skip_moves ps Hg ps (moves_refl _ Hg)) as (Hm & Hl & Ha).
  assert (forall ps1, moves ps ps1 -> ends (fun o => post ps 0 (default NULL o)) (Ret (None, ps1))) as Hfail.
  { intros ps1 Hm1. split; [done|]. destruct Hm1. cbn. lia. }
  destruct (get_moves ps Hg _ Hm) as (Hm1 & Hl1 & Ha1). destruct (is_keyword _ (str "elif")) eqn:E1; [|destruct (is_keyword _ (str "else")) eqn:E2].
  - apply is_keyword_peek in E1 as [t Ht]. apply ps_get_shorter in Ht.
    destruct (ast_new _) as [ps2|] eqn:E2; [|by apply Hfail]. destruct (new_moves ps _ ps2 Hm1 E2) as (Hm2 & Hl2 & Ha2).
    eapply (list_then_keyword ps); [done|done|done|lia|done|]. intros c ps3 Hm3 Hl3 Ha3. pose proof (nodes_nonneg c).
    eapply (call ps); [done|apply IH; [by apply (moves_good ps)|lia]|]. intros th ps4 Hm4 Hl4 Ha4.
    eapply ends_bind; [apply IH; [by apply (moves_good ps)|lia]|]. intros [e|] ps5 [Hm5 Ha5].
    + split; [by eapply moves_trans|]. cbn [default nodes] in *. cbn in Ha5 |- *. lia.
    + apply Hfail. by eapply moves_trans.
  - apply is_keyword_peek in E2 as [t Ht]. apply ps_get_shorter in Ht.
    eapply (call ps); [done|apply IH; [by apply (moves_good ps)|lia]|]. intros e ps2 Hm2 Hl2 Ha2. split; [done|cbn; lia].
  - split; [done|]. cbn. cbn in Ha. lia.
Qed.

Lemma if_ends n : all_end n -> forall ps, good ps -> (8 * length (toks ps) + 6 <= S n)%nat -> ends (post ps 0) (parse_if (S n) ps).
Proof.
  intros IH ps Hg Hn. cbn [parse_if]; unfold parse_if_step. destruct (ast_new ps) as [ps1|] eqn:E; [|apply null_ends; [by apply moves_refl|done]].
  destruct (new_moves ps ps ps1 (moves_refl _ Hg) E) as (Hm1 & Hl1 & Ha1).
  eapply (list_then_keyword ps); [done|done|done|lia|intros; by apply null_ends|]. intros c ps2 Hm2 Hl2 Ha2.
  eapply (call ps); [done|apply IH; [by apply (moves_good ps)|lia]|]. intros t ps3 Hm3 Hl3 Ha3.
  eapply ends_bind; [apply IH; [by apply (moves_good ps)|lia]|]. intros [e|] ps4 [Hm4 Ha4];
    pose proof (moves_trans _ _ _ Hm3 Hm4) as Hm5; [|by apply null_ends].
  destruct (skip_moves ps Hg ps4 Hm5) as (Hm6 & Hl6 & Ha6). eapply (keyword_ends ps); [done|done|by apply null_ends|].
  intros ps5 Hm7 Hl7 Ha7. apply return_ends; [done|]. cbn in Ha4. cbn [nodes]. lia.
Qed.

Lemma while_ends n : all_end n -> forall b ps, good ps -> (8 * length (toks ps) + 6 <= S n)%nat -> ends (post ps 0) (parse_while (S n) b ps).
Proof.
  intros IH b ps Hg Hn. cbn [parse_while]; unfold parse_while_step. destruct (ast_new ps) as [ps1|] eqn:E; [|apply null_ends; [by apply moves_refl|done]].
  destruct (new_moves ps ps ps1 (moves_refl _ Hg) E) as (Hm1 & Hl1 & Ha1).
  eapply (list_then_keyword ps); [done|done|done|lia|intros; by apply null_ends|]. intros c ps2 Hm2 Hl2 Ha2.
  eapply (list_then_keyword ps); [done|done|done|lia|intros; by apply null_ends|]. intros t ps3 Hm3 Hl3 Ha3.
  apply return_ends; [done|]. cbn [nodes]. lia.
Qed.

Lemma for_ends n : all_end n -> forall ps, good ps -> (8 * length (toks ps) + 1 <= S n)%nat -> ends (post ps 0) (parse_for (S n) ps).
Proof.
  intros IH ps Hg Hn. cbn [parse_for]; unfold parse_for_step. destruct (ast_new ps) as [ps1|] eqn:E; [|apply null_ends; [by apply moves_refl|done]].
  destruct (new_moves ps ps ps1 (moves_refl _ Hg) E) as (Hm1 & Hl1 & Ha1).
  destruct (get_moves ps Hg ps1 Hm1) as (Hm2 & Hl2 & Ha2).
  assert (kind (ps_get ps1).1 = TOK_WORD -> (length (toks (ps_get ps1).2) < length (toks ps1))%nat) as Hlt.
  { unfold ps_get. destruct (toks ps1); cbn; [done|lia]. }
  destruct (ps_get ps1) as [name ps2]. cbn [fst snd] in *.
  destruct (negb _) eqn:Ek; [by apply null_ends|]. apply negb_false_iff, bool_decide_eq_true in Ek. specialize (Hlt Ek).
  destruct (skip_moves ps Hg ps2 Hm2) as (Hm3 & Hl3 & Ha3). set (ps3 := skip_newlines ps2) in *.
  set (it := if is_keyword (ps_peek ps3) (str "in") then _ else _).
  assert (moves ps it.2 /\ (length (toks it.2) <= length (toks ps3))%nat /\ arena it.2 = arena ps3) as (Hm4 & Hl4 & Ha4).
  { subst it. destruct (is_keyword _ _); [|by cbn]. destruct (get_moves ps Hg ps3 Hm3) as (Hm4 & Hl4 & Ha4).
    pose proof (for_items_suffix (toks (ps_get ps3).2) []) as [k Hk]. destruct (for_items _ _) as [items r]. cbn [snd] in *.
    rewrite Hk, length_app in Hl4. clearbody ps3. split; [|cbn [toks arena]; split; [lia|done]].
    eapply moves_trans; [exact Hm4|]. split; [by exists k|]. cbn [arena]. destruct Hm4. lia. }
  clearbody it. destruct it as [items ps4]. cbn [snd] in *. destruct (get_moves ps Hg ps4 Hm4) as (Hm5 & Hl5 & Ha5).
  set (ps5 := if next_is ps4 TOK_SEMI || next_is ps4 TOK_NEWLINE then (ps_get ps4).2 else ps4).
  assert (moves ps ps5 /\ (length (toks ps5) <= length (toks ps4))%nat /\ arena ps5 = arena ps4) as (Hm6 & Hl6 & Ha6).
  { subst ps5. by destruct (_ || _). }
  clearbody ps5. destruct (skip_moves ps Hg ps5 Hm6) as (Hm7 & Hl7 & Ha7).
  eapply (keyword_ends ps); [done|done|by apply null_ends|]. intros ps6 Hm8 Hl8 Ha8.
  eapply (list_then_keyword ps); [done|done|done|lia|intros; by apply null_ends|]. intros t ps7 Hm9 Hl9 Ha9.
  apply return_ends; [done|]. cbn [nodes]. lia.
Qed.

Lemma funcdef_ends n : all_end n -> forall ps, good ps -> (8 * length (toks ps) + 1 <= S n)%nat -> ends (post ps 0) (parse_funcdef (S n) ps).
Proof.
  intros IH ps Hg Hn. cbn [parse_funcdef]; unfold parse_funcdef_step. destruct (get_moves ps Hg ps (moves_refl _ Hg)) as (Hm1 & Hl1 & Ha1).
  destruct (ps_get ps) as [name ps1]. cbn [snd] in *. destruct (negb _); [by apply null_ends|].
  destruct (ps_accept ps1 _) as [ps2|] eqn:E2; [|by apply null_ends]. destruct (accept_moves ps Hg _ _ _ Hm1 E2) as (Hm2 & Hl2 & Ha2).
  destruct (ps_accept ps2 _) as [ps3|] eqn:E3; [|by apply null_ends]. destruct (accept_moves ps Hg _ _ _ Hm2 E3) as (Hm3 & Hl3 & Ha3).
  destruct (ps_accept ps3 _) as [ps4|] eqn:E4; [|by apply null_ends]. destruct (accept_moves ps Hg _ _ _ Hm3 E4) as (Hm4 & Hl4 & Ha4).
  eapply (call ps); [done|apply IH; [by apply (moves_good ps)|lia]|]. intros t ps5 Hm5 Hl5 Ha5. pose proof (nodes_nonneg t).
  destruct (ps_accept ps5 _) as [ps6|] eqn:E6; [|by apply null_ends]. destruct (accept_moves ps Hg _ _ _ Hm5 E6) as (Hm6 & Hl6 & Ha6).
  destruct (join_tokens _ _) as [[body a]|] eqn:Ej.
  - unfold join_tokens, arena_strdup, arena_alloc in Ej. destruct (_ <? _) eqn:Hlt; [done|]. cbn [mbind option_bind] in Ej.
    injection Ej as Eb <-. rewrite Eb in *. apply Z.ltb_ge in Hlt. pose proof (lenZ_nonneg body). apply node_ends; [|done|cbn [nodes arena]; lia].
    eapply moves_trans; [exact Hm6|]. split; [by exists []|cbn [arena]; lia].
  - destruct ps6. apply node_ends; [done..|cbn [nodes arena] in *; lia].
Qed.

Lemma parsers_end n : all_end n.
Proof.
  induction n as [|n IH]; [constructor; intros; lia|]. constructor.
  - by apply list_ends.
  - by apply list_loop_ends.
  - intros ps Hg Hn. cbn [parse_and_or]; unfold parse_and_or_step. eapply (first_ends 3 n); [done|lia|lia|apply IH|apply IH].
  - by apply and_or_loop_ends.
  - intros ps Hg Hn. cbn [parse_pipeline]; unfold parse_pipeline_step. eapply (first_ends 2 n); [done|lia|lia|apply IH|apply IH].
  - by apply pipeline_loop_ends.
  - by apply command_ends.
  - by apply group_ends.
  - by apply if_ends.
  - by apply else_parts_ends.
  - by apply while_ends.
  - by apply for_ends.
  - by apply funcdef_ends.
Qed.

End totality.

(** C21: the parser always ends.  For every sequence of tokens eight units of fuel for each token and eight more are enough: the
    parser returns a tree, possibly [NULL], and a rest of the tokens, and since a node takes 792 of the 8192 bytes of the arena, the
    tree has at most ten nodes.  The one thing that can go wrong is the overflow of an [int] in [sh_atoi], and only when a word of
    digits directly before a redirection operator is 2147483648 or more. *)
Theorem parse_list_total fuel ts a :
  0 <= a <= SH_SCRATCH_SIZE -> (8 * length ts + 8 <= fuel)%nat ->
  match parse_list fuel (Parser ts a) with
  | Ret (t, ps') => (exists k, ts = k ++ toks ps') /\ nodes t <= 10
  | Undef => ~ fds_fit ts
  | More => False
  end.
Proof.
  intros Ha Hf. assert (forall Bad : Prop, Bad \/ fds_fit ts -> ends Bad (post (Parser ts a) 0) (parse_list fuel (Parser ts a))) as H.
  { intros Bad Hb. apply (e_list _ _ (parsers_end Bad fuel)); [split; [cbn; lia|done]|cbn [toks]; lia]. }
  destruct (parse_list _ _) as [[t ps']| |] eqn:E.
  - destruct (H True (or_introl I)) as [[[k Hk] Ha'] Hn]. split; [by exists k|]. cbn [arena] in *. unfold SH_SCRATCH_SIZE in *. lia.
  - intros Hfit. exact (H False (or_intror Hfit)).
  - exact (H True (or_introl I)).
Qed.

Lemma parse_list_total_witness :
  let ts := [word (str "echo") false; word (str "1234567890123") false; op TOK_SEMI; word (str "b") false; op TOK_GT; op TOK_RPAREN; op TOK_EOF] in
  match parse_list 64 (Parser ts 8) with
  | Ret (t, ps') => (exists k, ts = k ++ toks ps') /\ nodes t <= 10
  | Undef => ~ fds_fit ts
  | More => False
  end.
Proof. apply parse_list_total; [done|cbn; lia]. Defined.

(** ** Printing and parsing back *)
Definition kw (s : string) : token := word (str s) false.
Definition nl : token := op TOK_NEWLINE.

Definition redir_op (k : redir_kind) : token_kind :=
  match k with REDIR_IN => TOK_LT | REDIR_OUT => TOK_GT | REDIR_APPEND => TOK_GTGT | REDIR_HEREDOC => TOK_DLT end.

Definition default_fd (k : redir_kind) : Z := match k with REDIR_IN | REDIR_HEREDOC => 0 | _ => 1 end.

Definition print_redirs (rs : list redirect) : list token :=
  concat ((fun r => [op (redir_op (r_kind r)); word (r_target r) false]) <$> rs).

Definition print_words (ws : list (bytes * bool)) : list token := (fun w => word w.1 w.2) <$> ws.

(** A tree as tokens: lists on one line, the keywords inside a compound command on new ones. *)
Fixpoint print_ast (t : ast) : list token :=
  match t with
  | AST_SIMPLE ws rs => print_words ws ++ print_redirs rs
  | AST_SEQ l r => print_ast l ++ op TOK_SEMI :: print_ast r
  | AST_AND l r => print_ast l ++ op TOK_AND_IF :: print_ast r
  | AST_OR l r => print_ast l ++ op TOK_OR_IF :: print_ast r
  | AST_PIPE l r => print_ast l ++ op TOK_PIPE :: print_ast r
  | AST_GROUP b => op TOK_LBRACE :: print_ast b ++ [op TOK_RBRACE]
  | AST_SUBSHELL b => op TOK_LPAREN :: print_ast b ++ [op TOK_RPAREN]
  | AST_IF c t NULL => kw "if" :: print_ast c ++ nl :: kw "then" :: print_ast t ++ [nl; kw "fi"]
  | AST_IF c t e => kw "if" :: print_ast c ++ nl :: kw "then" :: print_ast t ++ nl :: kw "else" :: print_ast e ++ [nl; kw "fi"]
  | AST_WHILE u c b => kw (if u then "until" else "while") :: print_ast c ++ nl :: kw "do" :: print_ast b ++ [nl; kw "done"]
  | AST_FOR v items b =>
      kw "for" :: word v false :: kw "in" :: ((fun w => word w false) <$> items) ++ op TOK_SEMI :: kw "do" :: print_ast b ++ [nl; kw "done"]
  | NULL | AST_EMPTY | AST_BG _ | AST_FUNCDEF _ _ => []
  end.

Definition keywords : list bytes := str <$> ["if"; "while"; "until"; "for"]%string.

(** A simple command that is read as itself: not empty, its first word no keyword, within the limits, its redirections those of
    the standard descriptors, and its last word not taken for the number of a descriptor. *)
Definition simple_ok (ws : list (bytes * bool)) (rs : list redirect) : Prop :=
  match ws with (w, _) :: _ => w ∉ keywords | [] => rs <> [] end /\
  lenZ ws <= SH_MAX_WORDS /\ lenZ rs <= SH_MAX_REDIRS /\
  (rs = [] \/ match list.last ws with Some (w, _) => forallb sh_is_digit w = false | None => True end) /\
  Forall (fun r => r_fd r = default_fd (r_kind r) /\ heredoc_body r = None) rs.

(** The trees the grammar generates without background commands, [elif] and functions: commands (level 0), pipelines (1),
    and-or lists (2) and lists (3). *)
Fixpoint wf (level : nat) (t : ast) : Prop :=
  match t with
  | AST_SIMPLE ws rs => simple_ok ws rs
  | AST_GROUP b | AST_SUBSHELL b => wf 3 b
  | AST_IF c t NULL => wf 3 c /\ wf 3 t
  | AST_IF c t e => wf 3 c /\ wf 3 t /\ wf 3 e
  | AST_WHILE _ c b => wf 3 c /\ wf 3 b
  | AST_FOR _ items b => lenZ items <= SH_MAX_WORDS /\ wf 3 b
  | AST_PIPE l r => (1 <= level)%nat /\ wf 1 l /\ wf 0 r
  | AST_AND l r | AST_OR l r => (2 <= level)%nat /\ wf 2 l /\ wf 1 r
  | AST_SEQ l r => (3 <= level)%nat /\ wf 3 l /\ wf 2 r
  | NULL | AST_EMPTY | AST_BG _ | AST_FUNCDEF _ _ => False
  end.

(** The token behind a printed tree does not continue it: not as a simple command, nor, from level 2 or 3 on, as a pipeline
    or as an and-or list. *)
Definition ends_before (level : nat) (k : token_kind) : bool :=
  match k with
  | TOK_WORD | TOK_LPAREN | TOK_LBRACE | TOK_GT | TOK_GTGT | TOK_LT | TOK_DLT | TOK_DLT_DASH => false
  | TOK_PIPE => (level <? 2)%nat
  | TOK_AND_IF | TOK_OR_IF => (level <? 3)%nat
  | _ => true
  end.
Definition stops (level : nat) (rest : list token) : Prop := match rest with t :: _ => ends_before level (kind t) = true | [] => True end.

Lemma stops_less level level' rest : (level' <= level)%nat -> stops level rest -> stops level' rest.
Proof.
  destruct rest as [|t rest]; cbn; [done|]. intros Hl. unfold ends_before. destruct (kind t); try done;
    rewrite !Nat.ltb_lt; lia.
Qed.

(** *** Simple commands *)
Lemma simple_loop_stop fuel ws rs rest a : stops 0 rest -> simple_loop (S fuel) ws rs (Parser rest a) = Ret (AST_SIMPLE ws rs, Parser rest a).
Proof.
  destruct rest as [|t rest]; [done|]. cbn [stops]. intros H. cbn [simple_loop]. unfold ps_peek. cbn [toks list.head].
  destruct t as [[] tx q]; try done.
Qed.

Lemma simple_loop_words ws : forall fuel acc rs rest a, lenZ acc + lenZ ws <= SH_MAX_WORDS ->
  (match list.last ws with Some (w, _) => forallb sh_is_digit w = false | None => True end \/
   match rest with t :: _ => is_redir (kind t) = false | [] => True end) ->
  simple_loop (length ws + fuel) acc rs (Parser (print_words ws ++ rest) a) = simple_loop fuel (acc ++ ws) rs (Parser rest a).
Proof.
  induction ws as [|[w q] ws IH]; intros fuel acc rs rest a Hl Hd; [by rewrite app_nil_r|].
  assert (redir_follows (Parser (print_words ((w, q) :: ws) ++ rest) a) && forallb sh_is_digit w = false) as Hr.
  { unfold redir_follows, ps_peek_n. destruct ws as [|[w2 q2] ws]; [|done]. cbn in Hd |- *. destruct Hd as [->|Hd]; [apply andb_false_r|].
    destruct rest as [|t rest]; [done|]. cbn. by rewrite Hd. }
  unfold lenZ in Hl. cbn [length plus] in *. cbn [simple_loop]. unfold ps_peek. cbn [print_words fmap list_fmap app toks list.head].
  change (word (w, q).1 (w, q).2 :: _) with (print_words ((w, q) :: ws) ++ rest).
  change (bool_decide (kind (word (w, q).1 (w, q).2) = TOK_WORD)) with true. cbv iota.
  change (word_text (word (w, q).1 (w, q).2)) with w. rewrite Hr. rewrite (proj2 (Z.leb_gt _ _)) by (unfold lenZ; lia).
  cbn [ps_get print_words fmap list_fmap app toks snd arena].
  change (quoted (word w q)) with q. cbn [quoted word fst snd].
  change (list_fmap _ _ _ ws) with (print_words ws).
  rewrite IH; [by rewrite <- app_assoc|unfold lenZ; rewrite length_app; cbn; lia|].
  destruct ws; [|by destruct Hd; [left|right]]. destruct Hd; [by left|by right].
Qed.

Lemma simple_loop_redirs rs : forall fuel acc ws rest a, lenZ acc + lenZ rs <= SH_MAX_REDIRS ->
  Forall (fun r => r_fd r = default_fd (r_kind r) /\ heredoc_body r = None) rs ->
  simple_loop (length rs + fuel) ws acc (Parser (print_redirs rs ++ rest) a) = simple_loop fuel ws (acc ++ rs) (Parser rest a).
Proof.
  induction rs as [|[k fd tg hd] rs IH]; intros fuel acc ws rest a Hl Hrs; [by rewrite app_nil_r|].
  apply list.Forall_cons in Hrs as [[Hfd Hhd] Hrs]. cbn in Hfd, Hhd. subst. unfold lenZ in Hl. cbn [length plus] in *.
  assert (parse_redir (Parser (print_redirs (Redirect k (default_fd k) tg None :: rs) ++ rest) a) =
    Ret (Some (Redirect k (default_fd k) tg None), Parser (print_redirs rs ++ rest) a)) as E by (by destruct k).
  cbn [simple_loop]. rewrite E. assert (ps_peek (Parser (print_redirs (Redirect k (default_fd k) tg None :: rs) ++ rest) a) = Some (op (redir_op k))) as -> by done.
  assert (bool_decide (kind (op (redir_op k)) = TOK_WORD) = false /\ is_redir (kind (op (redir_op k))) = true) as [-> ->] by (by destruct k).
  rewrite (proj2 (Z.leb_gt _ _)) by (unfold lenZ; lia). cbn [mbind outcome_bind].
  rewrite IH; [by rewrite <- app_assoc|unfold lenZ; rewrite length_app; cbn; lia|done].
Qed.

(** *** Levels *)
Definition after (a : Z) (t : ast) : Z := a + 792 * nodes t.

(** What the functions of the four levels make of a printed tree: they get it back and go on with their loop. *)
Definition reads_command (t : ast) : Prop := forall fuel rest a, stops 0 rest -> after a t <= SH_SCRATCH_SIZE ->
  (8 * length (print_ast t ++ rest) + 2 <= fuel)%nat ->
  parse_command fuel (Parser (print_ast t ++ rest) a) = Ret (t, Parser rest (after a t)).
Definition reads_pipeline (t : ast) : Prop := forall fuel rest a, stops 1 rest -> after a t <= SH_SCRATCH_SIZE ->
  (8 * length (print_ast t ++ rest) + 3 <= fuel)%nat ->
  exists m, (8 * length rest + 1 <= m)%nat /\
    parse_pipeline fuel (Parser (print_ast t ++ rest) a) = pipeline_loop m t (Parser rest (after a t)).
Definition reads_and_or (t : ast) : Prop := forall fuel rest a, stops 2 rest -> after a t <= SH_SCRATCH_SIZE ->
  (8 * length (print_ast t ++ rest) + 4 <= fuel)%nat ->
  exists m, (8 * length rest + 1 <= m)%nat /\
    parse_and_or fuel (Parser (print_ast t ++ rest) a) = and_or_loop m t (Parser rest (after a t)).
Definition reads_list (t : ast) : Prop := forall fuel rest a, stops 3 rest -> after a t <= SH_SCRATCH_SIZE ->
  (8 * length (print_ast t ++ rest) + 5 <= fuel)%nat ->
  exists m, (8 * length rest + 1 <= m)%nat /\
    parse_list fuel (Parser (print_ast t ++ rest) a) = list_loop m t (Parser rest (after a t)).

Lemma command_pipeline t : is_null t = false -> reads_command t -> reads_pipeline t.
Proof.
  intros Hn Hc [|fuel] rest a Hs Hr Hf; [lia|]. exists fuel. rewrite length_app in Hf. split; [lia|].
  cbn [parse_pipeline]; unfold parse_pipeline_step. rewrite Hc; [cbn [mbind outcome_bind]; by rewrite Hn|by eapply (stops_less 1); [lia|]|done|rewrite length_app; lia].
Qed.

Lemma accept_not k rest a : match rest with t :: _ => kind t <> k | [] => True end -> ps_accept (Parser rest a) k = None.
Proof.
  unfold ps_accept, next_is, ps_peek. destruct rest as [|t rest]; [done|]. cbn. intros. by rewrite bool_decide_eq_false_2.
Qed.

Lemma accept_op k rest a : ps_accept (Parser (op k :: rest) a) k = Some (Parser rest a).
Proof. unfold ps_accept, next_is, ps_peek. cbn. by rewrite bool_decide_eq_true_2. Qed.

Lemma pipeline_and_or t : is_null t = false -> reads_pipeline t -> reads_and_or t.
Proof.
  intros Hn Hp [|fuel] rest a Hs Hr Hf; [lia|]. exists fuel. rewrite length_app in Hf. split; [lia|].
  cbn [parse_and_or]; unfold parse_and_or_step. destruct (Hp fuel rest a) as ([|m] & Hm & ->); [by eapply (stops_less 2); [lia|]|done|rewrite length_app; lia|lia|].
  cbn [pipeline_loop]; unfold pipeline_loop_step. rewrite accept_not; [cbn [mbind outcome_bind]; by rewrite Hn|].
  destruct rest as [|t' rest]; [done|]. cbn in Hs. intros E. by rewrite E in Hs.
Qed.

Lemma skip_newlines_not rest a : match rest with t :: _ => kind t <> TOK_NEWLINE | [] => True end ->
  skip_newlines (Parser rest a) = Parser rest a.
Proof. unfold skip_newlines. cbn. destruct rest as [|t rest]; [done|]. cbn. intros. by rewrite decide_False. Qed.

(** A printed tree begins with a token that is no end of line. *)
Lemma print_start t : forall level, wf level t -> exists k r, print_ast t = k :: r /\ kind k <> TOK_NEWLINE.
Proof.
  assert (forall l r, (exists k r, print_ast l = k :: r /\ kind k <> TOK_NEWLINE) ->
    exists k r0, print_ast l ++ r = k :: r0 /\ kind k <> TOK_NEWLINE) as Happ.
  { intros l r (k & r0 & -> & Hk). by exists k, (r0 ++ r). }
  induction t as [| |ws rs|l IHl r IHr|l IHl r IHr|l IHl r IHr|l IHl r IHr| | | |c ? t ? e ?|[]| |]; intros level Hw; cbn [wf print_ast] in *;
    try done; try (by eexists _, _).
  - destruct Hw as [Hw _]. destruct ws as [|[w q] ws]; [|by eexists _, _]. destruct rs as [|[[]] rs]; [done|by eexists _, _..].
  - apply Happ. eapply IHl, Hw.
  - apply Happ. eapply IHl, Hw.
  - apply Happ. eapply IHl, Hw.
  - apply Happ. eapply IHl, Hw.
  - destruct e; by eexists _, _.
Qed.

Lemma skip_newlines_print level t rest a : wf level t -> skip_newlines (Parser (print_ast t ++ rest) a) = Parser (print_ast t ++ rest) a.
Proof. intros (k & r & E & Hk)%print_start. apply skip_newlines_not. by rewrite E. Qed.

Lemma and_or_list level t : is_null t = false -> wf level t -> reads_and_or t -> reads_list t.
Proof.
  intros Hn Hw Hp [|fuel] rest a Hs Hr Hf; [lia|]. exists fuel. rewrite length_app in Hf. split; [lia|].
  cbn [parse_list]. rewrite (skip_newlines_print level) by done.
  destruct (Hp fuel rest a) as ([|m] & Hm & ->); [by eapply (stops_less 3); [lia|]|done|rewrite length_app; lia|lia|].
  cbn [and_or_loop]; unfold and_or_loop_step. rewrite !accept_not; [cbn [mbind outcome_bind]; by rewrite Hn|..];
    (destruct rest as [|t' rest]; [done|]; cbn in Hs; intros E; by rewrite E in Hs).
Qed.

Lemma ast_new_room ts a : a + 792 <= SH_SCRATCH_SIZE -> ast_new (Parser ts a) = Some (Parser ts (a + 792)).
Proof. intros H. unfold ast_new, arena_alloc. cbn [arena toks]. change sizeof_Ast with 792. by rewrite (proj2 (Z.ltb_ge _ _)). Qed.

Lemma wf_not_null level t : wf level t -> is_null t = false.
Proof. by destruct t. Qed.

(** *** Infix operators *)
Lemma reads_pipe l r : wf 1 l -> wf 0 r -> reads_pipeline l -> reads_command r -> reads_pipeline (AST_PIPE l r).
Proof.
  intros Hl Hr IHl IHr fuel rest a Hs Ha Hf. unfold after in *. cbn [nodes print_ast] in *. pose proof (nodes_nonneg l). pose proof (nodes_nonneg r).
  rewrite <- app_assoc in *. cbn [app] in *. rewrite length_app in Hf. cbn [length] in Hf.
  destruct (IHl fuel (op TOK_PIPE :: print_ast r ++ rest) a) as ([|m] & Hm & ->);
    [done|unfold after; lia|rewrite length_app; cbn [length]; lia|lia|].
  cbn [length] in Hm. exists m. rewrite length_app in Hm. split; [lia|]. cbn [pipeline_loop]; unfold pipeline_loop_step. rewrite accept_op. unfold operand.
  rewrite IHr; [|by eapply (stops_less 1); [lia|]|unfold after; lia|rewrite length_app; lia].
  cbn [mbind outcome_bind]. rewrite (wf_not_null 0 r Hr), ast_new_room by (unfold after; lia).
  do 2 f_equal. unfold after. lia.
Qed.

Lemma reads_and_if (or : bool) l r : wf 2 l -> wf 1 r -> reads_and_or l -> reads_pipeline r ->
  reads_and_or (if or then AST_OR l r else AST_AND l r).
Proof.
  intros Hl Hr IHl IHr fuel rest a Hs Ha Hf. pose proof (nodes_nonneg l). pose proof (nodes_nonneg r).
  set (k := if or then TOK_OR_IF else TOK_AND_IF).
  assert (print_ast (if or then AST_OR l r else AST_AND l r) ++ rest = print_ast l ++ op k :: print_ast r ++ rest) as E
    by (destruct or; cbn [print_ast]; by rewrite <- app_assoc).
  assert (nodes (if or then AST_OR l r else AST_AND l r) = 1 + nodes l + nodes r) as En by (by destruct or).
  unfold after in *. rewrite En, E in *. rewrite length_app in Hf. cbn [length] in Hf.
  destruct (IHl fuel (op k :: print_ast r ++ rest) a) as ([|m] & Hm & ->);
    [by destruct or|unfold after; lia|rewrite length_app; cbn [length]; lia|lia|].
  cbn [length] in Hm. exists m. rewrite length_app in Hm. split; [lia|]. cbn [and_or_loop]; unfold and_or_loop_step.
  assert (forall ctor, operand (parse_pipeline m) (and_or_loop m) l ctor (Parser (print_ast r ++ rest) (after a l)) =
    and_or_loop m (ctor l r) (Parser rest (a + 792 * (1 + nodes l + nodes r)))) as Hop.
  { intros ctor. unfold operand.
    destruct (IHr m rest (after a l)) as ([|m2] & Hm2 & ->); [by eapply (stops_less 2); [lia|]|unfold after; lia|rewrite length_app; lia|lia|].
    cbn [pipeline_loop]; unfold pipeline_loop_step. rewrite accept_not.
    2: { destruct rest as [|t' rest]; [done|]. cbn in Hs. intros E'. by rewrite E' in Hs. }
    cbn [mbind outcome_bind]. rewrite (wf_not_null 1 r Hr), ast_new_room by (unfold after; lia). do 2 f_equal. unfold after. lia. }
  destruct or; subst k.
  - rewrite (accept_not TOK_AND_IF), accept_op by done. apply Hop.
  - rewrite accept_op. apply Hop.
Qed.

Lemma reads_seq l r : wf 3 l -> wf 2 r -> reads_list l -> reads_and_or r -> reads_list (AST_SEQ l r).
Proof.
  intros Hl Hr IHl IHr fuel rest a Hs Ha Hf. pose proof (nodes_nonneg l). pose proof (nodes_nonneg r).
  unfold after in *. cbn [print_ast nodes] in *. rewrite <- app_assoc in *. cbn [app] in *. rewrite length_app in Hf. cbn [length] in Hf.
  destruct (IHl fuel (op TOK_SEMI :: print_ast r ++ rest) a) as ([|m] & Hm & ->);
    [done|unfold after; lia|rewrite length_app; cbn [length]; lia|lia|].
  cbn [length] in Hm. exists m. rewrite length_app in Hm. split; [lia|]. cbn [list_loop]; unfold list_loop_step.
  rewrite skip_newlines_not, accept_op by done. unfold list_more. rewrite (skip_newlines_print 2) by done.
  destruct (IHr m rest (after a l)) as ([|m2] & Hm2 & ->);
    [by eapply (stops_less 3); [lia|]|unfold after; lia|rewrite length_app; lia|lia|].
  cbn [and_or_loop]; unfold and_or_loop_step. rewrite !accept_not; [|destruct rest as [|t' rest]; [done|]; cbn in Hs; intros E'; by rewrite E' in Hs..].
  cbn [mbind outcome_bind]. rewrite (wf_not_null 2 r Hr), ast_new_room by (unfold after; lia). do 2 f_equal; unfold after; lia.
Qed.

(** *** Compound commands *)
(** What ends the list inside a compound command. *)
Definition closes (rest : list token) : Prop :=
  stops 3 rest /\ match skip_lines rest with t :: _ => kind t <> TOK_SEMI /\ kind t <> TOK_AMP | [] => True end.

Lemma reads_list_closed t fuel rest a : reads_list t -> closes rest -> after a t <= SH_SCRATCH_SIZE ->
  (8 * length (print_ast t ++ rest) + 5 <= fuel)%nat ->
  parse_list fuel (Parser (print_ast t ++ rest) a) = Ret (t, Parser (skip_lines rest) (after a t)).
Proof.
  intros Ht [Hs Hc] Ha Hf. destruct (Ht fuel rest a Hs Ha Hf) as ([|m] & Hm & ->); [lia|].
  cbn [list_loop]; unfold list_loop_step. unfold skip_newlines. cbn [toks arena].
  rewrite !accept_not; [done|destruct (skip_lines rest); [done|by destruct Hc]..].
Qed.

(** The keyword that is there is taken. *)
Lemma keyword_hit {A} s ts a (fail k : parser -> A) : keyword s (skip_newlines (Parser (kw s :: ts) a)) fail k = k (Parser ts a).
Proof.
  rewrite skip_newlines_not by done. unfold keyword, ps_peek, is_keyword, sh_streq. cbn [toks list.head kw word kind text].
  by rewrite !bool_decide_eq_true_2.
Qed.

Lemma close_line s ts : closes (nl :: kw s :: ts) /\ skip_lines (nl :: kw s :: ts) = kw s :: ts.
Proof. split; [|done]. by split. Qed.

(** A list up to a keyword on the next line. *)
Lemma list_keyword {A} t s fuel rest a (fail : parser -> outcome A) k : reads_list t -> after a t <= SH_SCRATCH_SIZE ->
  (8 * length (print_ast t ++ nl :: kw s :: rest) + 5 <= fuel)%nat ->
  ('(t', ps) ← parse_list fuel (Parser (print_ast t ++ nl :: kw s :: rest) a); keyword s (skip_newlines ps) fail (k t')) =
    k t (Parser rest (after a t)).
Proof.
  intros Ht Ha Hf. destruct (close_line s rest) as [Hc Es]. rewrite (reads_list_closed t), Es by done. cbn [mbind outcome_bind]. apply keyword_hit.
Qed.

Lemma reads_group (sub : bool) b : wf 3 b -> reads_list b -> reads_command (if sub then AST_SUBSHELL b else AST_GROUP b).
Proof.
  intros Hb IH fuel rest a Hs Ha Hf. pose proof (nodes_nonneg b).
  set (k1 := if sub then TOK_LPAREN else TOK_LBRACE). set (k2 := if sub then TOK_RPAREN else TOK_RBRACE).
  assert (print_ast (if sub then AST_SUBSHELL b else AST_GROUP b) ++ rest = op k1 :: print_ast b ++ op k2 :: rest) as E
    by (destruct sub; cbn [print_ast app]; by rewrite <- app_assoc).
  assert (nodes (if sub then AST_SUBSHELL b else AST_GROUP b) = 1 + nodes b) as En by (by destruct sub).
  unfold after in *. rewrite En, E in *. cbn [length] in Hf. destruct fuel as [|[|fuel]]; [lia..|].
  assert (parse_group (S fuel) sub (Parser (print_ast b ++ op k2 :: rest) a) =
    Ret (if sub then AST_SUBSHELL b else AST_GROUP b, Parser rest (a + 792 * (1 + nodes b)))) as Hg.
  { cbn [parse_group]; unfold parse_group_step. rewrite ast_new_room by lia. rewrite (reads_list_closed b) by (done || unfold after; lia || by destruct sub).
    cbn [mbind outcome_bind]. replace (skip_lines (op k2 :: rest)) with (op k2 :: rest) by (by destruct sub).
    unfold after. replace (a + 792 + 792 * nodes b) with (a + 792 * (1 + nodes b)) by lia.
    destruct sub; subst k2; by rewrite accept_op. }
  destruct sub; exact Hg.
Qed.

Lemma reads_while (u : bool) c b : wf 3 c -> wf 3 b -> reads_list c -> reads_list b -> reads_command (AST_WHILE u c b).
Proof.
  intros Hc Hb IHc IHb fuel rest a Hs Ha Hf. pose proof (nodes_nonneg b). pose proof (nodes_nonneg c).
  unfold after in *. cbn [nodes print_ast] in *.
  assert ((kw (if u then "until" else "while") :: print_ast c ++ nl :: kw "do" :: print_ast b ++ [nl; kw "done"]) ++ rest =
    kw (if u then "until" else "while") :: print_ast c ++ nl :: kw "do" :: print_ast b ++ nl :: kw "done" :: rest) as E
    by (cbn [app]; rewrite <- app_assoc; cbn [app]; by rewrite <- app_assoc).
  rewrite E in *. cbn [length] in Hf. rewrite length_app in Hf. cbn [length] in Hf. destruct fuel as [|[|fuel]]; [lia..|].
  assert (parse_while (S fuel) u (Parser (print_ast c ++ nl :: kw "do" :: print_ast b ++ nl :: kw "done" :: rest) a) =
    Ret (AST_WHILE u c b, Parser rest (a + 792 * (1 + nodes c + nodes b)))) as Hg.
  { cbn [parse_while]; unfold parse_while_step. rewrite ast_new_room by lia. rewrite (list_keyword c) by (done || unfold after; lia || rewrite length_app; cbn [length]; lia).
    rewrite (list_keyword b) by (done || unfold after; lia). unfold after. do 2 f_equal. f_equal. lia. }
  destruct u; exact Hg.
Qed.

Lemma for_items_all items : forall acc rest, lenZ acc + lenZ items <= SH_MAX_WORDS ->
  match rest with t :: _ => kind t <> TOK_WORD | [] => True end ->
  for_items acc (((fun w => word w false) <$> items) ++ rest) = (acc ++ items, rest).
Proof.
  induction items as [|w items IH]; intros acc rest Hl Hr.
  - rewrite app_nil_r. destruct rest; [done|]. cbn [fmap list_fmap app for_items]. by rewrite decide_False.
  - unfold lenZ in Hl. cbn [length] in Hl. cbn [fmap list_fmap app for_items].
    change (kind (word w false)) with TOK_WORD. rewrite decide_True by done. rewrite (proj2 (Z.ltb_lt _ _)) by (unfold lenZ; lia).
    change (list_fmap _ _ _ items) with ((fun w => word w false) <$> items).
    rewrite IH; [by rewrite <- app_assoc|unfold lenZ; rewrite length_app; cbn; lia|done].
Qed.

Lemma reads_for v items b : lenZ items <= SH_MAX_WORDS -> wf 3 b -> reads_list b -> reads_command (AST_FOR v items b).
Proof.
  intros Hi Hb IH fuel rest a Hs Ha Hf. pose proof (nodes_nonneg b). unfold after in *. cbn [nodes print_ast] in *.
  set (ws := (fun w => word w false) <$> items) in *.
  assert ((kw "for" :: word v false :: kw "in" :: ws ++ op TOK_SEMI :: kw "do" :: print_ast b ++ [nl; kw "done"]) ++ rest =
    kw "for" :: word v false :: kw "in" :: ws ++ op TOK_SEMI :: kw "do" :: print_ast b ++ nl :: kw "done" :: rest) as E
    by (cbn [app]; rewrite <- app_assoc; cbn [app]; by rewrite <- app_assoc).
  rewrite E in *. cbn [length] in Hf. rewrite length_app in Hf. cbn [length] in Hf. destruct fuel as [|[|fuel]]; [lia..|].
  change (parse_for (S fuel) (Parser (word v false :: kw "in" :: ws ++ op TOK_SEMI :: kw "do" :: print_ast b ++ nl :: kw "done" :: rest) a) =
    Ret (AST_FOR v items b, Parser rest (a + 792 * (1 + nodes b)))).
  cbn [parse_for]; unfold parse_for_step. rewrite ast_new_room by lia. cbn [ps_get toks arena].
  change (negb (bool_decide (kind (word v false) = TOK_WORD))) with false. cbv iota. rewrite skip_newlines_not by done.
  change (is_keyword (ps_peek (Parser (kw "in" :: ?[r]) ?[a1])) (str "in")) with true. cbv iota.
  cbn [ps_get toks snd arena]. unfold ws. rewrite for_items_all by done. cbn [app].
  change (next_is (Parser (op TOK_SEMI :: ?r) ?a1) TOK_SEMI || _) with true. cbv iota. cbn [ps_get toks snd arena].
  rewrite keyword_hit, (list_keyword b) by (done || unfold after; lia). unfold after. do 2 f_equal. f_equal. lia.
Qed.

Lemma else_none fuel ts a : else_parts (S fuel) (Parser (kw "fi" :: ts) a) = Ret (Some NULL, Parser (kw "fi" :: ts) a).
Proof. done. Qed.

Lemma else_some fuel e rest a : reads_list e -> after a e <= SH_SCRATCH_SIZE ->
  (8 * length (print_ast e ++ nl :: kw "fi" :: rest) + 5 <= fuel)%nat ->
  else_parts (S fuel) (Parser (kw "else" :: print_ast e ++ nl :: kw "fi" :: rest) a) =
    Ret (Some e, Parser (kw "fi" :: rest) (after a e)).
Proof.
  intros He Ha Hf. cbn [else_parts]; unfold else_parts_step. rewrite skip_newlines_not by done.
  change (is_keyword (ps_peek (Parser (kw "else" :: ?[r]) ?[a1])) (str "elif")) with false.
  change (is_keyword (ps_peek (Parser (kw "else" :: ?r) ?a1)) (str "else")) with true. cbv iota.
  cbn [ps_get toks snd arena]. destruct (close_line "fi" rest) as [Hc Es]. by rewrite (reads_list_closed e), Es.
Qed.

(** A condition, [then] and the list behind it, and whatever [tail] makes of the rest. *)
Lemma reads_if_tail fuel c t e tail rest a a' : wf 3 c -> wf 3 t -> reads_list c -> reads_list t ->
  after (after (a + 792) c) t <= SH_SCRATCH_SIZE -> closes (nl :: tail) ->
  (8 * length (print_ast c ++ nl :: kw "then" :: print_ast t ++ nl :: tail) + 6 <= fuel)%nat ->
  (forall m, (8 * length tail + 2 <= m)%nat ->
    else_parts m (Parser (skip_lines tail) (after (after (a + 792) c) t)) = Ret (Some e, Parser (kw "fi" :: rest) a')) ->
  parse_if fuel (Parser (print_ast c ++ nl :: kw "then" :: print_ast t ++ nl :: tail) a) = Ret (AST_IF c t e, Parser rest a').
Proof.
  intros Hc Ht IHc IHt Ha Hcl Hf He. pose proof (nodes_nonneg c). pose proof (nodes_nonneg t).
  destruct fuel as [|fuel]; [lia|]. rewrite length_app in Hf. cbn [length] in Hf. rewrite length_app in Hf. cbn [length] in Hf.
  cbn [parse_if]; unfold parse_if_step. rewrite ast_new_room by (unfold after in Ha; lia).
  rewrite (list_keyword c) by (done || unfold after in *; lia || rewrite !length_app; cbn [length]; rewrite length_app; cbn [length]; lia).
  rewrite (reads_list_closed t) by (done || rewrite length_app; cbn [length]; lia). cbn [mbind outcome_bind].
  change (skip_lines (nl :: tail)) with (skip_lines tail). rewrite He by lia. cbn [mbind outcome_bind]. apply keyword_hit.
Qed.

Lemma reads_if c t e : wf 3 c -> wf 3 t -> reads_list c -> reads_list t -> (e = NULL \/ wf 3 e /\ reads_list e) -> reads_command (AST_IF c t e).
Proof.
  intros Hc Ht IHc IHt He fuel rest a Hs Ha Hf. pose proof (nodes_nonneg c). pose proof (nodes_nonneg t). pose proof (nodes_nonneg e).
  set (tail := match e with NULL => kw "fi" :: rest | _ => kw "else" :: print_ast e ++ nl :: kw "fi" :: rest end).
  assert (print_ast (AST_IF c t e) ++ rest = kw "if" :: print_ast c ++ nl :: kw "then" :: print_ast t ++ nl :: tail) as E.
  { assert (print_ast (AST_IF c t e) = kw "if" :: print_ast c ++ nl :: kw "then" :: print_ast t ++ nl ::
      match e with NULL => [kw "fi"] | _ => kw "else" :: print_ast e ++ [nl; kw "fi"] end) as -> by (by destruct e).
    subst tail. generalize (print_ast e). intros pe. destruct e; list_simplifier; done. }
  rewrite E in *. unfold after in Ha |- *. cbn [nodes length] in *. destruct fuel as [|fuel]; [lia|].
  change (parse_if fuel (Parser (print_ast c ++ nl :: kw "then" :: print_ast t ++ nl :: tail) a) =
    Ret (AST_IF c t e, Parser rest (a + 792 * (1 + nodes c + nodes t + nodes e)))).
  apply reads_if_tail; try done.
  - unfold after. lia.
  - subst tail. by destruct e.
  - lia.
  - intros [|m] Hm; [lia|]. destruct He as [->|[Hw IHe]].
    + subst tail. cbv iota. change (skip_lines (kw "fi" :: rest)) with (kw "fi" :: rest). rewrite else_none. unfold after. cbn [nodes].
      do 3 f_equal. lia.
    + assert (tail = kw "else" :: print_ast e ++ nl :: kw "fi" :: rest) as -> by (subst tail; by destruct e).
      assert (forall r, skip_lines (kw "else" :: r) = kw "else" :: r) as -> by done. cbn [length] in Hm.
      rewrite else_some; [unfold after; do 3 f_equal; lia|done|unfold after; lia|lia].
Qed.

Lemma keyword_not w q s : w ∉ keywords -> str s ∈ keywords -> is_keyword (Some (word w q)) (str s) = false.
Proof. intros Hw Hs. cbn. unfold sh_streq. rewrite (bool_decide_eq_false_2 (w = str s)); [apply andb_false_r|]. by intros ->. Qed.

Lemma reads_simple ws rs : simple_ok ws rs -> reads_command (AST_SIMPLE ws rs).
Proof.
  intros (Hw & Hlw & Hlr & Hd & Hrs) fuel rest a Hs Ha Hf. unfold after in *. cbn [nodes print_ast] in *.
  rewrite <- app_assoc in *. set (ts := print_words ws ++ print_redirs rs ++ rest) in *.
  assert (length ts = (length ws + 2 * length rs + length rest)%nat) as Hlen.
  { subst ts. unfold print_words. rewrite !length_app, length_fmap. clear. induction rs as [|r rs IH]; [cbn; lia|].
    change (print_redirs (r :: rs)) with ([op (redir_op (r_kind r)); word (r_target r) false] ++ print_redirs rs). rewrite length_app. cbn. lia. }
  assert (parse_command fuel (Parser ts a) = parse_simple (pred fuel) (Parser ts a)) as ->.
  { destruct fuel as [|fuel]; [lia|]. cbn [parse_command pred]; unfold parse_command_step. destruct ws as [|[w q] ws].
    - destruct rs as [|[[]] rs]; [done|by subst ts..].
    - unfold ps_peek. change (list.head (toks (Parser ts a))) with (Some (word w q)). cbv iota beta.
      rewrite !keyword_not by (done || by (apply list_elem_of_In; cbn; tauto)).
      change (bool_decide (kind (word w q) = TOK_LPAREN)) with false. change (bool_decide (kind (word w q) = TOK_LBRACE)) with false.
      cbv iota. replace (bool_decide (kind <$> ps_peek_n (Parser ts a) 1 = Some TOK_LPAREN)) with false; [done|].
      subst ts. unfold ps_peek_n. destruct ws as [|[w2 q2] ws]; [|done]. destruct rs as [|[[]] rs]; [|done..].
      destruct rest as [|t' rest]; [done|]. cbn in Hs. by destruct t' as [[] tx qq]. }
  unfold parse_simple. rewrite ast_new_room by lia.
  assert (exists f, pred fuel = (length ws + (length rs + S f))%nat) as [f ->] by (exists (pred fuel - length ws - length rs - 1)%nat; lia).
  subst ts. rewrite simple_loop_words; [|unfold lenZ at 1; cbn; lia|].
  - rewrite simple_loop_redirs by (done || unfold lenZ at 1; cbn; lia). rewrite simple_loop_stop by done. do 2 f_equal.
  - destruct Hd as [->|Hd]; [right|by left]. cbn. destruct rest as [|t' rest]; [done|]. cbn in Hs. by destruct t' as [[] tx qq].
Qed.

(** Every well-formed tree is read back, at its level. *)
Definition reads (t : ast) : Prop := forall level, wf level t ->
  reads_list t /\ ((level <= 2)%nat -> reads_and_or t) /\ ((level <= 1)%nat -> reads_pipeline t) /\ ((level = 0)%nat -> reads_command t).

Lemma reads_from_command t : (forall level, wf level t -> reads_command t) -> reads t.
Proof.
  intros H level Hw. pose proof (wf_not_null _ _ Hw) as Hn. pose proof (H level Hw) as Hc.
  pose proof (command_pipeline t Hn Hc) as Hp. pose proof (pipeline_and_or t Hn Hp) as Ha. by split_and!; [eapply and_or_list|..].
Qed.

Lemma reads_all t : reads t.
Proof.
  induction t as [| |ws rs|l IHl r IHr|l IHl r IHr|l IHl r IHr|l IHl r IHr|c IHc|b IHb|b IHb|c IHc t IHt e IHe|u c IHc b IHb|v items b IHb|].
  - by intros level Hw.
  - by intros level Hw.
  - apply reads_from_command. intros level Hw. by apply reads_simple.
  - intros level (Hlv & Hl & Hr). split; [|split; [lia|split; lia]].
    apply reads_seq; [done..|by apply (IHl 3%nat)|by apply (IHr 2%nat); [|lia]].
  - intros level (Hlv & Hl & Hr). assert (reads_and_or (AST_AND l r)) as Ha
      by (apply (reads_and_if false); [done..|by apply (IHl 2%nat); [|lia]|by apply (IHr 1%nat); [|lia]]).
    split; [by eapply (and_or_list 2)|split; [done|split; lia]].
  - intros level (Hlv & Hl & Hr). assert (reads_and_or (AST_OR l r)) as Ha
      by (apply (reads_and_if true); [done..|by apply (IHl 2%nat); [|lia]|by apply (IHr 1%nat); [|lia]]).
    split; [by eapply (and_or_list 2)|split; [done|split; lia]].
  - intros level (Hlv & Hl & Hr). assert (reads_pipeline (AST_PIPE l r)) as Hp
      by (apply reads_pipe; [done..|by apply (IHl 1%nat); [|lia]|by apply (IHr 0%nat)]).
    pose proof (pipeline_and_or (AST_PIPE l r) eq_refl Hp) as Ha. split; [by eapply (and_or_list 1)|split; [done|split; [done|lia]]].
  - by intros level Hw.
  - apply reads_from_command. intros level Hw. apply (reads_group false); [done|by apply (IHb 3%nat)].
  - apply reads_from_command. intros level Hw. apply (reads_group true); [done|by apply (IHb 3%nat)].
  - apply reads_from_command. intros level Hw. assert (wf 3 c /\ wf 3 t /\ (e = NULL \/ wf 3 e)) as (Hc & Ht & He)
      by (cbn [wf] in Hw; destruct e; tauto).
    apply reads_if; [done..|by apply (IHc 3%nat)|by apply (IHt 3%nat)|]. destruct He as [->|He]; [by left|right]. split; [done|by apply (IHe 3%nat)].
  - apply reads_from_command. intros level [Hc Hb]. apply reads_while; [done..|by apply (IHc 3%nat)|by apply (IHb 3%nat)].
  - apply reads_from_command. intros level [Hi Hb]. apply reads_for; [done..|by apply (IHb 3%nat)].
  - by intros level Hw.
Qed.


(** Simple commands without redirections of numbered descriptors are checked by evaluation. *)
Lemma simple_check ws rs :
  match ws with (w, _) :: _ => bool_decide (w ∉ keywords) | [] => negb (bool_decide (length rs = 0)%nat) end &&
  (lenZ ws <=? 64) && (lenZ rs <=? 8) && (bool_decide (length rs = 0)%nat || match list.last ws with Some (w, _) => negb (forallb sh_is_digit w) | None => true end) &&
  forallb (fun r => (r_fd r =? default_fd (r_kind r)) && bool_decide (heredoc_body r = None)) rs = true -> simple_ok ws rs.
Proof.
  intros [[[[H1 H2]%andb_prop H3]%andb_prop H4]%andb_prop H5]%andb_prop. split; [|split; [unfold SH_MAX_WORDS; lia|split; [unfold SH_MAX_REDIRS; lia|split]]].
  - destruct ws as [|[w q] ws]; [by destruct rs|]. by apply bool_decide_eq_true in H1.
  - apply orb_prop in H4 as [H4|H4]; [left; apply bool_decide_eq_true in H4; by destruct rs|right].
    destruct (list.last ws) as [[w q]|]; [by apply negb_true_iff in H4|done].
  - apply list.Forall_forall. intros r Hr. rewrite forallb_forall in H5. apply list_elem_of_In, H5, andb_prop in Hr as [Hfd Hh].
    apply bool_decide_eq_true in Hh. split; [lia|done].
Qed.


(** a function is what was written.  The body of a function definition without compound commands and quotes is kept as
    text; when the function is called, lexing and parsing the text gives the tree of the body. *)
Theorem function_body_parse fuel name q t rest a :
  wf 3 t -> Forall (fun k => plain_token k /\ kind k <> TOK_NEWLINE) (print_ast t) -> (length (print_ast t) < 256)%nat ->
  lenZ (spaced (print_ast t)) <= SH_MAX_LINE -> name ∉ keywords -> 0 <= a ->
  a + 792 * (nodes t + 1) + lenZ (spaced (print_ast t)) <= SH_SCRATCH_SIZE ->
  (8 * length (print_ast t ++ rest) + 50 <= fuel)%nat ->
  exists body a1 ts a2,
    parse_command fuel (Parser (word name q :: op TOK_LPAREN :: op TOK_RPAREN :: op TOK_LBRACE :: print_ast t ++ op TOK_RBRACE :: rest) a) =
      Ret (AST_FUNCDEF name body, Parser rest a1) /\
    tokenize 0 body = (0, ts, a2) /\ parse_list fuel (Parser ts a2) = Ret (t, Parser [op TOK_EOF] (a2 + 792 * nodes t)).
Proof.
  intros Hw Hp Hn Hl Hname Ha Hroom Hf. pose proof (nodes_nonneg t). pose proof (lenZ_nonneg (spaced (print_ast t))).
  pose proof (proj1 (reads_all t 3%nat Hw)) as Hr. rewrite length_app in Hf.
  assert (one_line <$> print_ast t = print_ast t) as Eone.
  { rewrite <- (list_fmap_id (print_ast t)) at 2. apply list_fmap_ext. intros i k Hk. rewrite list.Forall_forall in Hp.
    unfold one_line. rewrite decide_False; [done|]. apply Hp. by eapply list_elem_of_lookup_2. }
  destruct (join_tokenize (after a t) (print_ast t)) as (body & a2 & Ej & Et & Ha2).
  { eapply list.Forall_impl; [exact Hp|]. by intros k [? _]. }
  { destruct (print_start t 3 Hw) as (k & r & -> & _). done. }
  { done. }
  { done. }
  { unfold after. lia. }
  { unfold after. lia. }
  rewrite Eone in Et. exists body, (after a t + lenZ (spaced (print_ast t)) + 792), (print_ast t ++ [op TOK_EOF]), a2. split; [|split; [done|]].
  - destruct fuel as [|[|fuel]]; [lia..|]. cbn [parse_command]; unfold parse_command_step. unfold ps_peek. cbn [toks list.head].
    rewrite !keyword_not by (done || by (apply list_elem_of_In; cbn; tauto)).
    change (parse_funcdef (S fuel) (Parser (word name q :: op TOK_LPAREN :: op TOK_RPAREN :: op TOK_LBRACE :: print_ast t ++ op TOK_RBRACE :: rest) a) =
      Ret (AST_FUNCDEF name body, Parser rest (after a t + lenZ (spaced (print_ast t)) + 792))).
    cbn [parse_funcdef]; unfold parse_funcdef_step; cbn [ps_get toks arena]. change (negb (bool_decide (kind (word name q) = TOK_WORD))) with false. cbv iota.
    rewrite !accept_op, (reads_list_closed t) by (done || unfold after; lia || rewrite length_app; cbn [length]; lia).
    cbn [mbind outcome_bind]. change (skip_lines (op TOK_RBRACE :: rest)) with (op TOK_RBRACE :: rest). rewrite accept_op. cbn [toks arena].
    replace (length (print_ast t ++ op TOK_RBRACE :: rest) - length rest - 1)%nat with (length (print_ast t))
      by (rewrite length_app; cbn [length]; lia).
    rewrite take_app_length, Ej. cbv beta iota. unfold node. by rewrite ast_new_room by (unfold after; lia).
  - rewrite (reads_list_closed t) by (done || unfold after; lia || rewrite length_app; cbn [length]; lia). done.
Qed.

Lemma function_body_parse_witness :
  let t := AST_SEQ (AST_SIMPLE [(str "echo", false); (str "x", false)] []) (AST_OR (AST_SIMPLE [(str "a", false)] []) (AST_SIMPLE [(str "b", false)] [])) in
  exists body a1 ts a2,
    parse_command 200 (Parser (word (str "f") false :: op TOK_LPAREN :: op TOK_RPAREN :: op TOK_LBRACE :: print_ast t ++ op TOK_RBRACE :: [op TOK_EOF]) 30) =
      Ret (AST_FUNCDEF (str "f") body, Parser [op TOK_EOF] a1) /\
    tokenize 0 body = (0, ts, a2) /\ parse_list 200 (Parser ts a2) = Ret (t, Parser [op TOK_EOF] (a2 + 792 * nodes t)).
Proof.
  apply function_body_parse.
  - cbn [wf]. split_and!; try lia; by apply simple_check.
  - cbn [print_ast print_words print_redirs fmap list_fmap concat app fst snd]. repeat constructor; try done; by apply plain_check.
  - cbn. lia.
  - by vm_compute.
  - by apply (bool_decide_eq_true_1 (str "f" ∉ keywords)).
  - done.
  - by vm_compute.
  - cbn. lia.
Defined.

(** a conditional on one line is lost.  With [;] in front of [then], as in [if c; then ...; fi], the word [then] begins
    another command of the list that is the condition; the parser finds no [then], and the whole line is the empty command, without
    a message. *)
Theorem if_one_line_empty fuel c ws a :
  wf 3 c -> simple_ok ((str "then", false) :: ws) [] -> 0 <= a -> a + 792 * (nodes c + 6) <= SH_SCRATCH_SIZE ->
  let ts := kw "if" :: print_ast c ++ op TOK_SEMI :: kw "then" :: print_words ws ++ [op TOK_SEMI; kw "fi"; op TOK_EOF] in
  (8 * length ts + 10 <= fuel)%nat ->
  exists a', parse_list fuel (Parser ts a) = Ret (AST_EMPTY, Parser [op TOK_EOF] a').
Proof.
  intros Hc Hs Ha Hroom ts Hf. pose proof (nodes_nonneg c).
  set (cond := AST_SEQ (AST_SEQ c (AST_SIMPLE ((str "then", false) :: ws) [])) (AST_SIMPLE [(str "fi", false)] [])).
  assert (ts = kw "if" :: print_ast cond ++ [op TOK_EOF]) as E.
  { subst ts cond. cbn [print_ast print_redirs concat fmap list_fmap print_words app]. rewrite <- !app_assoc. cbn [app].
    rewrite <- !app_assoc. by list_simplifier. }
  assert (wf 3 cond) as Hw by (split; [lia|split; [split; [lia|done]|by apply simple_check]]).
  assert (nodes cond = nodes c + 4) as En by (subst cond; cbn [nodes]; lia).
  clearbody cond ts. subst ts. cbn [length] in Hf. do 6 (destruct fuel as [|fuel]; [lia|]).
  assert (forall f, (f >= fuel)%nat -> parse_if (S f) (Parser (print_ast cond ++ [op TOK_EOF]) a) = Ret (NULL, Parser [op TOK_EOF] (after (a + 792) cond))) as Hif.
  { intros f Hge. cbn [parse_if]; unfold parse_if_step. rewrite ast_new_room by lia. pose proof (proj1 (reads_all cond 3%nat Hw)) as Hr.
    rewrite (reads_list_closed cond) by (done || unfold after; lia). done. }
  change (exists a', (('(lhs, ps) ← ('(lhs, ps) ← ('(lhs, ps) ← parse_if (S (S fuel)) (Parser (print_ast cond ++ [op TOK_EOF]) a);
      if is_null lhs then null ps else pipeline_loop (S (S (S fuel))) lhs ps);
      if is_null lhs then null ps else and_or_loop (S (S (S (S fuel)))) lhs ps);
    if is_null lhs then node ps AST_EMPTY else list_loop (S (S (S (S (S fuel))))) lhs ps) = Ret (AST_EMPTY, Parser [op TOK_EOF] a'))).
  rewrite Hif by lia. cbn [mbind outcome_bind is_null null]. unfold node. rewrite ast_new_room by (unfold after; lia). by eexists.
Qed.

Lemma if_one_line_empty_witness :
  let ts := kw "if" :: print_ast (AST_SIMPLE [(str "true", false)] []) ++ op TOK_SEMI :: kw "then" ::
    print_words [(str "echo", false); (str "x", false)] ++ [op TOK_SEMI; kw "fi"; op TOK_EOF] in
  exists a', parse_list 200 (Parser ts 40) = Ret (AST_EMPTY, Parser [op TOK_EOF] a').
Proof.
  apply (if_one_line_empty 200 (AST_SIMPLE [(str "true", false)] []) [(str "echo", false); (str "x", false)] 40).
  - by apply simple_check.
  - by apply simple_check.
  - done.
  - done.
  - cbn. lia.
Defined.

End ParseProofs.
