(* ===== verification/ShExpand.v ===== *)
(** * The shell: system calls, variables and expansion

    The state of the inner shell of userspace/apps/src/shell.c, its tables of variables, aliases and functions, and the
    expansion of words (lines 655 to 833 and 1832 to 2236).  A program is the tree of its system calls: what it does next
    depends on the answer.  [fork] is a call like the others, answered 0 in the child. *)
From Stdlib Require Import String.
From S2P Require Import Prelude ShLex.
Import Sh.
Open Scope list_scope.
Open Scope Z_scope.

Module Expand.

(** ** Programs *)
Inductive call :=
  | SWrite (fd : Z) (data : bytes)
  | SRead (fd n : Z)
  | SPipe
  | SFork
  | SDup2 (oldfd newfd : Z)
  | SClose (fd : Z)
  | SExec (path : bytes) (argv : list bytes)
  | SExit (code : Z)
  | SWaitpid (pid : Z).

(** The answers: the result and what the call writes through its pointers. *)
Definition answer (c : call) : Type :=
  match c with SRead _ _ => Z * bytes | SPipe => Z * Z * Z | SWaitpid _ => Z * Z | SExit _ => Empty_set | _ => Z end.

Inductive prog (R : Type) :=
  | Done (r : R)
  | Wrong
  | Later
  | Call (c : call) (k : answer c -> prog R).
Arguments Done {R}.
Arguments Wrong {R}.
Arguments Later {R}.
Arguments Call {R}.

#[export] Instance prog_bind : MBind prog := fun A B f =>
  fix go p := match p with Done r => f r | Wrong => Wrong | Later => Later | Call c k => Call c (fun x => go (k x)) end.

Definition sys (c : call) : prog (answer c) := Call c Done.
Definition exit {R} (code : Z) : prog R := Call (SExit code) (fun x : Empty_set => match x with end).

(** What the code takes for granted. *)
Definition given {A} (o : option A) : prog A := match o with Some a => Done a | None => Wrong end.

(** [sh_write_all]: [fuel] bounds the number of calls, each of which writes at least one byte. *)
Fixpoint write_all (fuel : nat) (fd : Z) (s : bytes) : prog unit :=
  match s with
  | [] => Done ()
  | _ =>
      match fuel with
      | O => Later
      | S fuel => r ← sys (SWrite fd s); if r <=? 0 then Done () else write_all fuel fd (drop (Z.to_nat r) s)
      end
  end.
Definition sh_write_all (fd : Z) (s : bytes) : prog unit := write_all (length s) fd s.
Definition sh_puts (s : bytes) : prog unit := sh_write_all 1 s.

(** ** The shell and its tables *)
Definition SH_PERM_SIZE : Z := 16384.
Definition SH_MAX_VARS : Z := 64.
Definition SH_MAX_ALIASES : Z := 32.
Definition SH_MAX_FUNCS : Z := 32.
Definition SH_MAX_JOBS : nat := 32.
Definition SH_HISTORY : Z := 32.

Definition table := list (bytes * bytes).
Record job := Job { pid : Z; cmd : bytes; running : bool }.

(** The counts are the lengths of the lists; [history] has [SH_HISTORY] entries at most. *)
Record shell := Shell {
  last_status : Z; opt_errexit : bool; opt_xtrace : bool;
  vars : table; aliases : table; funcs : table; jobs : list job;
  history : list bytes; history_pos : Z; perm : Z
}.

Definition set_status v s := Shell v (opt_errexit s) (opt_xtrace s) (vars s) (aliases s) (funcs s) (jobs s) (history s) (history_pos s) (perm s).
Definition set_opts e x s := Shell (last_status s) e x (vars s) (aliases s) (funcs s) (jobs s) (history s) (history_pos s) (perm s).
Definition set_vars p v s := Shell (last_status s) (opt_errexit s) (opt_xtrace s) v (aliases s) (funcs s) (jobs s) (history s) (history_pos s) p.
Definition set_aliases p v s := Shell (last_status s) (opt_errexit s) (opt_xtrace s) (vars s) v (funcs s) (jobs s) (history s) (history_pos s) p.
Definition set_funcs p v s := Shell (last_status s) (opt_errexit s) (opt_xtrace s) (vars s) (aliases s) v (jobs s) (history s) (history_pos s) p.
Definition set_jobs v s := Shell (last_status s) (opt_errexit s) (opt_xtrace s) (vars s) (aliases s) (funcs s) v (history s) (history_pos s) (perm s).
Definition set_history h i p s := Shell (last_status s) (opt_errexit s) (opt_xtrace s) (vars s) (aliases s) (funcs s) (jobs s) h i p.

(** The position of the arena behind the copy of [s]. *)
Definition perm_strdup (p : Z) (s : bytes) : option Z := if SH_PERM_SIZE <? p + lenZ s + 1 then None else Some (p + lenZ s + 1).

Fixpoint shell_get_kv (t : table) (name : bytes) : option bytes :=
  match t with (n, v) :: t' => if sh_streq n name then Some v else shell_get_kv t' name | [] => None end.

(** Replace the first entry of that name. *)
Fixpoint replace_kv (t : table) (name value : bytes) : option table :=
  match t with
  | (n, v) :: t' => if sh_streq n name then Some ((name, value) :: t') else t' ← replace_kv t' name value; Some ((n, v) :: t')
  | [] => None
  end.

Definition shell_set_kv (p : Z) (t : table) (max : Z) (name value : bytes) : Z * table :=
  match perm_strdup p name with
  | None => (default p (perm_strdup p value), t)
  | Some p =>
      match perm_strdup p value with
      | None => (p, t)
      | Some p =>
          match replace_kv t name value with
          | Some t => (p, t)
          | None => (p, if lenZ t <? max then t ++ [(name, value)] else t)
          end
      end
  end.

Fixpoint find_kv (t : table) (name : bytes) : option nat :=
  match t with (n, _) :: t' => if sh_streq n name then Some O else S <$> find_kv t' name | [] => None end.

(** The last entry takes the place of the removed one. *)
Definition shell_unset_kv (t : table) (name : bytes) : table :=
  match find_kv t name with
  | None => t
  | Some i => match list.last t with Some e => take (length t - 1) (<[i := e]> t) | None => t end
  end.

Definition shell_get_var (s : shell) (name : bytes) : option bytes := shell_get_kv (vars s) name.
Definition shell_set_var (s : shell) (name value : bytes) : shell :=
  let '(p, t) := shell_set_kv (perm s) (vars s) SH_MAX_VARS name value in set_vars p t s.
Definition shell_unset_var (s : shell) (name : bytes) : shell := set_vars (perm s) (shell_unset_kv (vars s) name) s.
Definition shell_get_alias (s : shell) (name : bytes) : option bytes := shell_get_kv (aliases s) name.
Definition shell_set_alias (s : shell) (name value : bytes) : shell :=
  let '(p, t) := shell_set_kv (perm s) (aliases s) SH_MAX_ALIASES name value in set_aliases p t s.
Definition shell_unset_alias (s : shell) (name : bytes) : shell := set_aliases (perm s) (shell_unset_kv (aliases s) name) s.
Definition shell_get_func (s : shell) (name : bytes) : option bytes := shell_get_kv (funcs s) name.
Definition shell_set_func (s : shell) (name body : bytes) : shell :=
  let '(p, t) := shell_set_kv (perm s) (funcs s) SH_MAX_FUNCS name body in set_funcs p t s.
Definition shell_unset_func (s : shell) (name : bytes) : shell := set_funcs (perm s) (shell_unset_kv (funcs s) name) s.

Definition shell_history_add (s : shell) (line : bytes) : shell :=
  match perm_strdup (perm s) line with
  | None => s
  | Some p =>
      if lenZ (history s) <? SH_HISTORY then set_history (history s ++ [line]) (history_pos s) p s
      else set_history (<[Z.to_nat (history_pos s) := line]> (history s)) ((history_pos s + 1) mod SH_HISTORY) p s
  end.

Definition shell_init : shell :=
  shell_set_var (Shell 0 false false [] [] [] (replicate SH_MAX_JOBS (Job 0 [] false)) [] 0 0) (str "PATH") (str "/bin:/usr/bin:/sbin").

(** ** Numbers *)
(** [while (t && rn < 16) rev[rn++] = '0' + t % 10; t /= 10], and back in order. *)
Fixpoint dec_digits (n : nat) (t : Z) (acc : bytes) : bytes :=
  match n with O => acc | S n => if t =? 0 then acc else dec_digits n (t / 10) (48 + t mod 10 :: acc) end.

(** An [int] in decimal; the negation of the least one is undefined. *)
Definition dec_int (v : Z) : option bytes :=
  if v =? 0 then Some [48]
  else if v <? 0 then if v =? -2147483648 then None else Some (45 :: dec_digits 16 (- v) [])
  else Some (dec_digits 16 v []).

(** [eval_arith_expr]: [Some None] when [ok] is 0. *)
Definition eval_arith_expr (s : bytes) : option (option Z) :=
  let s := skip_while sh_is_space s in
  let '(sign, s) :=
    match s with c :: s' => if c =? 43 then (1, s') else if c =? 45 then (-1, s') else (1, s) | [] => (1, s) end in
  match s with
  | c :: _ =>
      if negb (sh_is_digit c) then Some None else
      '(v, s) ← digits_loop 0 s;
      match skip_while sh_is_space s with [] => Some (Some (v * sign)) | _ => Some None end
  | [] => Some None
  end.

(** ** Parameters *)
(** [expand_param]: what is in [out] from its start, and the length it returns.  For a negative [$?] the sign is in
    front of the digits that are counted. *)
Definition expand_param (s : shell) (name : bytes) (cap : Z) : option (bytes * Z) :=
  if sh_streq name (str "?") then
    let v := last_status s in
    if (v <? 0) && (cap <? 2) then Some ([], 0) else
    d ← dec_int v;
    let n := lenZ d - (if v <? 0 then 1 else 0) in
    if (cap - if v <? 0 then 1 else 0) <=? n then Some ([], 0) else Some (d, n)
  else
    let v := default [] (shell_get_var s name) in
    let n := if cap <=? lenZ v then cap - 1 else lenZ v in
    Some (take (Z.to_nat n) v, n).

(** ** Command substitution *)
Definition SH_SUBSHELL_DEPTH_LIMIT : Z := 4.

(** [read] until the end or until the buffer is full. *)
Fixpoint read_all (fuel : nat) (fd cap : Z) (out : bytes) : prog bytes :=
  if lenZ out + 1 <? cap then
    match fuel with
    | O => Later
    | S fuel => '(r, data) ← sys (SRead fd (cap - lenZ out - 1)); if r <=? 0 then Done out else read_all fuel fd cap (out ++ data)
    end
  else Done out.

Definition is_eol (c : Z) : bool := (c =? 10) || (c =? 13).

(** [while (n && (out[n - 1] == '\n' || out[n - 1] == '\r')) n--] *)
Definition trim_end (s : bytes) : bytes := reverse (skip_while is_eol (reverse s)).

Definition capture_command_output (s : shell) (cmd : bytes) (cap depth : Z) : prog (shell * bytes) :=
  if SH_SUBSHELL_DEPTH_LIMIT <? depth then Done (s, []) else
  '(r, rd, wr) ← sys SPipe;
  if r <? 0 then Done (s, []) else
  pid ← sys SFork;
  if pid =? 0 then
    _ ← sys (SDup2 wr 1); _ ← sys (SClose rd); _ ← sys (SClose wr);
    _ ← sys (SExec (str "/bin/sh") [str "/bin/sh"; str "-c"; cmd]); exit 127
  else
    _ ← sys (SClose wr);
    out ← read_all (Z.to_nat cap) rd cap [];
    _ ← sys (SClose rd);
    '(_, st) ← sys (SWaitpid pid);
    Done (set_status st s, trim_end out).

(** ** Words *)
(** Up to the first [))], and what is behind it. *)
Fixpoint until_close2 (s : bytes) : option (bytes * bytes) :=
  match s with
  | [] => None
  | c :: r =>
      if (c =? 41) && bool_decide (list.head r = Some 41) then Some ([], drop 1 r)
      else '(i, r') ← until_close2 r; Some (c :: i, r')
  end.

(** Up to the parenthesis that closes [level] open ones. *)
Fixpoint until_paren (level : nat) (s : bytes) : option (bytes * bytes) :=
  match s with
  | [] => None
  | c :: r =>
      let level' := if c =? 40 then S level else if c =? 41 then pred level else level in
      if decide (level' = O) then Some ([], r) else '(i, r') ← until_paren level' r; Some (c :: i, r')
  end.

(** Up to the next backquote that is not behind a backslash. *)
Fixpoint until_tick (s : bytes) : option (bytes * bytes) :=
  match s with
  | [] => None
  | c :: r =>
      if c =? 96 then Some ([], r)
      else if c =? 92 then
        match r with d :: r2 => '(i, r') ← until_tick r2; Some (c :: d :: i, r') | [] => None end
      else '(i, r') ← until_tick r; Some (c :: i, r')
  end.

Fixpoint until_brace (s : bytes) : option (bytes * bytes) :=
  match s with
  | [] => None
  | c :: r => if c =? 125 then Some ([], r) else '(i, r') ← until_brace r; Some (c :: i, r')
  end.

Fixpoint name_chars (s : bytes) : bytes * bytes :=
  match s with
  | c :: r => if sh_is_name_char c then let '(n, r') := name_chars r in (c :: n, r') else ([], s)
  | [] => ([], [])
  end.

(** Copying to the buffer while there is room. *)
Definition put (tmp s : bytes) : bytes := take (Z.to_nat (SH_MAX_LINE - 1)) (tmp ++ s).
(** A copy to a buffer of [n] characters, cut to fit. *)
Definition cut (n : Z) (s : bytes) : bytes := take (Z.to_nat (n - 1)) s.

(** [$((expr))], when this is one. *)
Definition arith_expansion (s : bytes) : option (option (bytes * bytes)) :=
  match s with
  | 36 :: 40 :: 40 :: r =>
      match until_close2 r with
      | Some (inner, r') =>
          v ← eval_arith_expr (cut SH_MAX_LINE inner);
          match v with Some v => d ← dec_int v; Some (Some (d, r')) | None => Some None end
      | None => Some None
      end
  | _ => Some None
  end.

(** [$(command)] or [`command`], when this is one. *)
Definition command_expansion (s : bytes) : option (bytes * bytes) :=
  match s with
  | 36 :: 40 :: r => if bool_decide (list.head r = Some 40) then None else until_paren 1 r
  | 96 :: r => until_tick r
  | _ => None
  end.

(** [${name}], [$?] or [$name]: the name, the room for the value and what is behind. *)
Definition param_expansion (s : bytes) : option (bytes * Z * bytes) :=
  match s with
  | 36 :: r =>
      match (match r with 123 :: r2 => until_brace r2 | _ => None end) with
      | Some (n, r') => Some (cut 64 n, SH_MAX_LINE, r')
      | None =>
          match r with
          | 63 :: r' => Some (str "?", 16, r')
          | c :: _ => if sh_is_name_start c then let '(n, r') := name_chars r in Some (cut 64 n, SH_MAX_LINE, r') else None
          | [] => None
          end
      end
  | _ => None
  end.

(** One turn of the loop of [expand_word] consumes at least one character: [fuel] is more than their number. *)
Fixpoint expand_loop (fuel : nat) (s : shell) (tmp i : bytes) (depth : Z) : prog (shell * bytes) :=
  match i with
  | [] => Done (s, tmp)
  | c :: r =>
      if negb (lenZ tmp + 1 <? SH_MAX_LINE) then Done (s, tmp) else
      match fuel with
      | O => Later
      | S fuel =>
          ar ← given (arith_expansion i);
          match ar with
          | Some (d, r') => expand_loop fuel s (put tmp d) r' depth
          | None =>
              match command_expansion i with
              | Some (inner, r') =>
                  '(s, out) ← capture_command_output s (cut SH_MAX_LINE inner) SH_MAX_LINE (depth + 1);
                  expand_loop fuel s (put tmp out) r' depth
              | None =>
                  match param_expansion i with
                  | Some (name, cap, r') =>
                      '(out, n) ← given (expand_param s name cap);
                      expand_loop fuel s (put tmp (take (Z.to_nat n) out)) r' depth
                  | None => expand_loop fuel s (tmp ++ [c]) r depth
                  end
              end
          end
      end
  end.

(** The word, or [NULL] when the arena is full. *)
Definition expand_word (s : shell) (a : Z) (i : bytes) (depth : Z) : prog (shell * Z * option bytes) :=
  '(s, tmp) ← expand_loop (S (length i)) s [] i depth;
  Done (match arena_strdup a tmp with Some (w, a) => (s, a, Some w) | None => (s, a, None) end).

(** ** Fields *)
Fixpoint field (s : bytes) : bytes * bytes :=
  match s with c :: r => if sh_is_space c then ([], s) else let '(f, r') := field r in (c :: f, r') | [] => ([], []) end.

(** The fields with the arena; a field that does not fit the arena is [NULL].  Every turn takes at least one character. *)
Fixpoint split_loop (fuel : nat) (a : Z) (s : bytes) (out : list (option bytes)) (max : Z) : Z * list (option bytes) :=
  match fuel with
  | O => (a, out)
  | S fuel =>
      match skip_while sh_is_space s with
      | [] => (a, out)
      | s' =>
          let '(f, r) := field s' in
          if lenZ out <? max then
            match arena_strdup a f with
            | Some (f, a) => split_loop fuel a r (out ++ [Some f]) max
            | None => split_loop fuel a r (out ++ [None]) max
            end
          else split_loop fuel a r out max
      end
  end.
Definition split_fields (a : Z) (s : bytes) (max : Z) : Z * list (option bytes) := split_loop (S (length s)) a s [] max.

(** Up to the first [{], and what is behind it. *)
Fixpoint until_char (x : Z) (s : bytes) : option (bytes * bytes) :=
  match s with [] => None | c :: r => if c =? x then Some ([], r) else '(i, r') ← until_char x r; Some (c :: i, r') end.

(** Up to the [}] that closes [depth] open ones. *)
Fixpoint until_rbrace (depth : nat) (s : bytes) : option (bytes * bytes) :=
  match s with
  | [] => None
  | c :: r =>
      let depth' := if c =? 123 then S depth else if c =? 125 then pred depth else depth in
      if decide (depth' = O) then Some ([], r) else '(i, r') ← until_rbrace depth' r; Some (c :: i, r')
  end.

(** The segments between commas; nothing follows a comma at the end. *)
Fixpoint segments (fuel : nat) (s : bytes) : list bytes :=
  match fuel, s with
  | S fuel, _ :: _ => match until_char 44 s with Some (g, r) => g :: segments fuel r | None => [s] end
  | _, _ => []
  end.

(** [arena_strdup] of prefix and segment and [arena_strcat3]; what does not fit is empty. *)
Definition brace_part (a : Z) (prefix seg suffix : bytes) : Z * bytes :=
  let '(l, a) := match arena_strdup a prefix with Some r => r | None => ([], a) end in
  let '(m, a) := match arena_strdup a seg with Some r => r | None => ([], a) end in
  match arena_strcat3 a l m suffix with Some (w, a) => (a, w) | None => (a, []) end.

Fixpoint brace_parts (a : Z) (prefix suffix : bytes) (segs : list bytes) : Z * list bytes :=
  match segs with
  | [] => (a, [])
  | g :: segs => let '(a, w) := brace_part a prefix g suffix in let '(a, ws) := brace_parts a prefix suffix segs in (a, w :: ws)
  end.

Definition brace_expand_one (a : Z) (s : bytes) (max : Z) : Z * list bytes :=
  match until_char 123 s with
  | None => (a, [s])
  | Some (prefix, r) =>
      match until_rbrace 1 r with
      | None => (a, [s])
      | Some (inner, suffix) =>
          if bool_decide (44 ∈ inner) then brace_parts a prefix suffix (take (Z.to_nat max) (segments (S (length inner)) inner))
          else (a, [s])
      end
  end.

End Expand.
