(* ===== verification/ShExpandProofs.v ===== *)
(** * The shell: tables are maps, expansion is substitution

    - the tables of variables, aliases and functions behave as finite maps;
    - the expansion of a word replaces each of its parts by its value;
    - the splitting into fields and the expansion of braces. *)
From Stdlib Require Import String.
From S2P Require Import Prelude ShLex ShExpand.
Import Sh Expand.
Open Scope list_scope.
Open Scope Z_scope.

Module ExpandProofs.

(** ** Tables *)
Abbreviation map := (gmap bytes bytes).

(** A table that holds each name once. *)
Definition table_ok (t : table) : Prop := NoDup t.*1.
Definition as_map (t : table) : map := list_to_map t.

Lemma get_kv_map t name : shell_get_kv t name = as_map t !! name.
Proof.
  unfold as_map. induction t as [|[n v] t IH]; cbn; [by rewrite lookup_empty|]. unfold sh_streq.
  case_bool_decide as E; [subst; by rewrite lookup_insert_eq|by rewrite lookup_insert_ne].
Qed.

Lemma replace_kv_some t name value : table_ok t -> name ∈ t.*1 ->
  exists t', replace_kv t name value = Some t' /\ t'.*1 = t.*1 /\ as_map t' = <[name := value]> (as_map t).
Proof.
  unfold as_map. induction t as [|[n v] t IH]; intros Hd Hn; [by apply not_elem_of_nil in Hn|].
  cbn in Hd. apply list.NoDup_cons in Hd as [Hnt Hd]. cbn [replace_kv]. unfold sh_streq. case_bool_decide as E.
  - subst n. eexists. split; [done|]. split; [done|]. cbn. by rewrite insert_insert_eq.
  - cbn in Hn. apply elem_of_cons in Hn as [?|Hn]; [by subst|]. destruct (IH Hd Hn) as (t' & -> & Ek & Em).
    eexists. split; [done|]. cbn. rewrite Ek, Em. split; [done|]. by apply insert_insert_ne.
Qed.

Lemma replace_kv_none t name value : name ∉ t.*1 -> replace_kv t name value = None.
Proof.
  induction t as [|[n v] t IH]; intros Hn; [done|]. cbn in Hn. apply not_elem_of_cons in Hn as [Hne Hn].
  cbn [replace_kv]. unfold sh_streq. rewrite bool_decide_eq_false_2 by done. by rewrite IH.
Qed.

Lemma find_kv_spec t name :
  match find_kv t name with
  | Some i => exists v, t !! i = Some (name, v)
  | None => name ∉ t.*1
  end.
Proof.
  induction t as [|[n v] t IH]; cbn [find_kv]; [apply not_elem_of_nil|]. unfold sh_streq. case_bool_decide as E; [subst; by exists v|].
  destruct (find_kv t name) as [i|]; cbn; [done|]. by apply not_elem_of_cons.
Qed.

(** Removing the entry [i] by moving the last one over it leaves the other entries. *)
Lemma move_last_perm {A} (t : list A) i x y : t !! i = Some x -> list.last t = Some y ->
  x :: take (length t - 1) (<[i := y]> t) ≡ₚ t.
Proof.
  intros Hx Hy. destruct (list.last_Some t y) as [Hl _]. destruct (Hl Hy) as [t0 ->]. rewrite length_app. cbn [length].
  replace (length t0 + 1 - 1)%nat with (length t0) by lia. destruct (decide (i < length t0)%nat) as [Hi|Hi].
  - rewrite lookup_app_l in Hx by done. rewrite insert_app_l, take_app_length' by (rewrite ?length_insert; done).
    assert (t0 = take i t0 ++ x :: drop (S i) t0) as E by (by rewrite take_drop_middle).
    rewrite (insert_take_drop t0 i y) by done. rewrite E at 3. rewrite <- !app_assoc. cbn. solve_Permutation.
  - apply lookup_lt_Some in Hx as Hlt. rewrite length_app in Hlt. cbn in Hlt. assert (i = length t0) as -> by lia.
    rewrite list_lookup_middle in Hx by done. simplify_eq. rewrite insert_app_r_alt, Nat.sub_diag by done. cbn.
    rewrite take_app_length. apply Permutation_cons_append.
Qed.

Lemma unset_kv_spec t name : table_ok t ->
  table_ok (shell_unset_kv t name) /\ as_map (shell_unset_kv t name) = delete name (as_map t).
Proof.
  intros Hd. unfold shell_unset_kv. pose proof (find_kv_spec t name) as Hf. destruct (find_kv t name) as [i|].
  - destruct Hf as [v Hi]. destruct (list.last t) as [e|] eqn:El.
    2: { apply last_None in El. by subst. }
    pose proof (move_last_perm t i _ _ Hi El) as Hp. set (t' := take _ _) in *. clearbody t'.
    assert (NoDup (name :: t'.*1)) as Hd'.
    { change (NoDup ((name, v) :: t').*1). by rewrite Hp. }
    apply list.NoDup_cons in Hd' as [Hn Hd']. split; [done|]. unfold as_map.
    assert (list_to_map t = <[name := v]> (list_to_map t') :> map) as ->.
    { rewrite <- (list_to_map_proper ((name, v) :: t') t); [done| |done]. cbn. by apply list.NoDup_cons. }
    rewrite delete_insert_eq. symmetry. apply delete_id. by apply not_elem_of_list_to_map_1.
  - split; [done|]. symmetry. apply delete_id. by apply not_elem_of_list_to_map_1.
Qed.

Lemma set_kv_spec p t max name value : table_ok t -> p + lenZ name + lenZ value + 2 <= SH_PERM_SIZE ->
  (name ∈ t.*1 \/ lenZ t < max) ->
  let '(p', t') := shell_set_kv p t max name value in
  p' = p + lenZ name + lenZ value + 2 /\ table_ok t' /\ as_map t' = <[name := value]> (as_map t).
Proof.
  intros Hd Hp Hr. pose proof (lenZ_nonneg name). pose proof (lenZ_nonneg value). unfold shell_set_kv, perm_strdup.
  rewrite (proj2 (Z.ltb_ge _ _)), (proj2 (Z.ltb_ge _ _)) by lia. destruct (decide (name ∈ t.*1)) as [Hin|Hin].
  - destruct (replace_kv_some t name value Hd Hin) as (t' & -> & Ek & Em). split; [lia|]. split; [|done]. unfold table_ok. by rewrite Ek.
  - destruct Hr as [?|Hr]; [done|]. rewrite replace_kv_none by done. rewrite (proj2 (Z.ltb_lt _ _)) by done. split; [lia|].
    assert (t ++ [(name, value)] ≡ₚ (name, value) :: t) as Hperm by (symmetry; apply Permutation_cons_append).
    assert (NoDup ((name, value) :: t).*1) as Hd' by (cbn; by apply list.NoDup_cons).
    split; [unfold table_ok; by rewrite Hperm|]. unfold as_map. rewrite (list_to_map_proper _ ((name, value) :: t)); [done|by rewrite Hperm|done].
Qed.

(** C20: variables, aliases and functions are maps.  While the text arena and the table have room, setting a name is the insertion
    and removing it the deletion in the map that searching reads; each name is held once. *)
Theorem table_refines_map t :
  table_ok t ->
  (forall name, shell_get_kv t name = as_map t !! name) /\
  (forall p max name value, p + lenZ name + lenZ value + 2 <= SH_PERM_SIZE -> (name ∈ t.*1 \/ lenZ t < max) ->
    let '(p', t') := shell_set_kv p t max name value in
    p' = p + lenZ name + lenZ value + 2 /\ table_ok t' /\ as_map t' = <[name := value]> (as_map t)) /\
  (forall name, table_ok (shell_unset_kv t name) /\ as_map (shell_unset_kv t name) = delete name (as_map t)).
Proof.
  intros Hd. split; [intros; apply get_kv_map|]. split; [|intros; by apply unset_kv_spec]. intros. by apply set_kv_spec.
Qed.

Lemma table_refines_map_witness :
  let t := [(str "A", str "1"); (str "B", str "2"); (str "C", str "3")] in
  (forall name, shell_get_kv t name = as_map t !! name) /\
  (forall p max name value, p + lenZ name + lenZ value + 2 <= SH_PERM_SIZE -> (name ∈ t.*1 \/ lenZ t < max) ->
    let '(p', t') := shell_set_kv p t max name value in
    p' = p + lenZ name + lenZ value + 2 /\ table_ok t' /\ as_map t' = <[name := value]> (as_map t)) /\
  (forall name, table_ok (shell_unset_kv t name) /\ as_map (shell_unset_kv t name) = delete name (as_map t)).
Proof.
  apply table_refines_map. by apply (bool_decide_eq_true_1 (NoDup ([(str "A", str "1"); (str "B", str "2"); (str "C", str "3")] : table).*1)).
Defined.

(** The text arena is never given back: when it is full, assignments are lost without a message. *)
Lemma set_kv_full p t max name value : SH_PERM_SIZE <= p + lenZ name -> (shell_set_kv p t max name value).2 = t.
Proof. intros H. unfold shell_set_kv, perm_strdup. by rewrite (proj2 (Z.ltb_lt SH_PERM_SIZE (p + lenZ name + 1))) by lia. Qed.

(** ** Numbers in decimal *)
Definition value10 (l : bytes) : Z := foldl (fun v c => v * 10 + (c - 48)) 0 l.

Lemma digits_loop_spec l : forall v, Forall (fun c => sh_is_digit c = true) l -> 0 <= v ->
  foldl (fun v c => v * 10 + (c - 48)) v l < 2147483648 ->
  digits_loop v l = Some (foldl (fun v c => v * 10 + (c - 48)) v l, []).
Proof.
  induction l as [|c l IH]; intros v Hl Hv Hb; [done|]. apply list.Forall_cons in Hl as [Hc Hl]. cbn [digits_loop foldl] in *. rewrite Hc.
  unfold sh_is_digit in Hc. assert (forall l v, Forall (fun c => sh_is_digit c = true) l -> 0 <= v -> v <= foldl (fun v c => v * 10 + (c - 48)) v l) as Hmono.
  { clear. induction l as [|c l IH]; intros v Hl Hv; cbn [foldl]; [lia|]. apply list.Forall_cons in Hl as [Hc Hl]. unfold sh_is_digit in Hc.
    specialize (IH (v * 10 + (c - 48)) Hl). lia. }
  specialize (Hmono l (v * 10 + (c - 48)) Hl). rewrite (proj2 (Z.ltb_lt _ _)) by lia. apply IH; [done|lia|done].
Qed.

Lemma dec_digits_spec n : forall t acc, 0 <= t < 10 ^ Z.of_nat n -> Forall (fun c => sh_is_digit c = true) acc ->
  exists l, dec_digits n t acc = l ++ acc /\ Forall (fun c => sh_is_digit c = true) l /\ (0 < t -> l <> []) /\
    value10 l = t /\ forall k : nat, t < 10 ^ Z.of_nat k -> (length l <= k)%nat.
Proof.
  induction n as [|n IH]; intros t acc Ht Hacc; cbn [dec_digits].
  - exists []. repeat split; [done|cbn in *; lia|cbn in *; lia|cbn; lia].
  - rewrite Nat2Z.inj_succ, Z.pow_succ_r in Ht by lia. destruct (Z.eqb_spec t 0) as [->|Hne]; [exists []; repeat split; [done|lia|cbn; lia]|].
    destruct (IH (t / 10) (48 + t mod 10 :: acc)) as (l & -> & Hl & _ & Hv & Hlen); [dlia| |].
    { constructor; [unfold sh_is_digit; dlia|done]. }
    exists (l ++ [48 + t mod 10]). split; [by rewrite <- app_assoc|]. split; [|split; [by destruct l|split]].
    + apply Forall_app. split; [done|]. constructor; [unfold sh_is_digit; dlia|done].
    + unfold value10 in *. rewrite foldl_app, Hv. cbn [foldl]. dlia.
    + intros [|k] Hk; [cbn in Hk; lia|]. rewrite Nat2Z.inj_succ, Z.pow_succ_r in Hk by lia. rewrite length_app. cbn [length].
      specialize (Hlen k ltac:(dlia)). lia.
Qed.

Lemma dec_int_spec v : 0 <= v < 2147483648 ->
  exists l, dec_int v = Some l /\ Forall (fun c => sh_is_digit c = true) l /\ l <> [] /\ value10 l = v /\ (length l <= 10)%nat.
Proof.
  intros Hv. unfold dec_int. destruct (Z.eqb_spec v 0) as [->|Hne]; [exists [48]; repeat split; [repeat constructor|done|cbn; lia]|].
  rewrite (proj2 (Z.ltb_ge v 0)) by lia. destruct (dec_digits_spec 16 v []) as (l & -> & Hl & Hn & Hval & Hlen); [|done|].
  { change (10 ^ Z.of_nat 16) with 10000000000000000. lia. }
  rewrite app_nil_r. exists l. repeat split; [done|apply Hn; lia|done|]. apply Hlen. change (10 ^ Z.of_nat 10) with 10000000000. lia.
Qed.

Lemma eval_arith_digits l : Forall (fun c => sh_is_digit c = true) l -> l <> [] -> 0 <= value10 l < 2147483648 ->
  eval_arith_expr l = Some (Some (value10 l)).
Proof.
  intros Hl Hn Hv. unfold eval_arith_expr. destruct l as [|c l]; [done|]. pose proof Hl as [Hc _]%list.Forall_cons.
  cbn [skip_while]. replace (sh_is_space c) with false by (unfold sh_is_digit, sh_is_space in *; lia).
  rewrite (proj2 (Z.eqb_neq c 43)), (proj2 (Z.eqb_neq c 45)) by (unfold sh_is_digit in Hc; lia). rewrite Hc. cbn [negb].
  rewrite digits_loop_spec; [|done|done|apply Hv]. cbn [mbind option_bind skip_while]. do 2 f_equal. unfold value10. lia.
Qed.

(** ** Expansion of words *)
(** The parts of a word: text, a variable, a variable in braces, the last status, a number as an arithmetic expression. *)
Inductive piece := Lit (s : bytes) | Var (n : bytes) | Braced (n : bytes) | Status | Num (z : Z).

Definition decimal (z : Z) : bytes := default [] (dec_int z).

Definition render (p : piece) : bytes :=
  match p with
  | Lit s => s
  | Var n => 36 :: n
  | Braced n => 36 :: 123 :: n ++ [125]
  | Status => [36; 63]
  | Num z => 36 :: 40 :: 40 :: decimal z ++ [41; 41]
  end.

Definition meaning (sh : shell) (p : piece) : bytes :=
  match p with
  | Lit s => s
  | Var n | Braced n => default [] (shell_get_var sh n)
  | Status => decimal (last_status sh)
  | Num z => decimal z
  end.

Definition render_all (ps : list piece) : bytes := concat (render <$> ps).
Definition meaning_all (sh : shell) (ps : list piece) : bytes := concat (meaning sh <$> ps).

(** A part that is read as itself in front of [rest]. *)
Definition piece_ok (sh : shell) (p : piece) (rest : bytes) : Prop :=
  match p with
  | Lit s => Forall (fun c => c <> 36 /\ c <> 96) s
  | Var n => (exists c n', n = c :: n' /\ sh_is_name_start c = true) /\ Forall (fun c => sh_is_name_char c = true) n /\ (length n <= 63)%nat /\
      match rest with c :: _ => sh_is_name_char c = false | [] => True end
  | Braced n => (exists c n', n = c :: n' /\ sh_is_name_start c = true) /\ Forall (fun c => sh_is_name_char c = true) n /\ (length n <= 63)%nat
  | Status => 0 <= last_status sh < 2147483648
  | Num z => 0 <= z < 2147483648
  end.

Fixpoint pieces_ok (sh : shell) (ps : list piece) : Prop :=
  match ps with [] => True | p :: ps' => piece_ok sh p (render_all ps') /\ pieces_ok sh ps' end.

(** *** The three kinds of expansion on the beginnings of words *)
Lemma other_char c r : c <> 36 -> c <> 96 ->
  arith_expansion (c :: r) = Some None /\ command_expansion (c :: r) = None /\ param_expansion (c :: r) = None.
Proof. intros H1 H2. unfold arith_expansion, command_expansion, param_expansion. split_and!; repeat case_match; by simplify_eq. Qed.

Lemma dollar_other c r : c <> 40 -> arith_expansion (36 :: c :: r) = Some None /\ command_expansion (36 :: c :: r) = None.
Proof. intros H. unfold arith_expansion, command_expansion. split; repeat case_match; by simplify_eq. Qed.

Lemma name_chars_all n rest : Forall (fun c => sh_is_name_char c = true) n ->
  match rest with c :: _ => sh_is_name_char c = false | [] => True end -> name_chars (n ++ rest) = (n, rest).
Proof.
  intros Hn Hr. induction Hn as [|c n Hc _ IH]; cbn [app name_chars].
  - destruct rest as [|c rest]; [done|]. cbn. by rewrite Hr.
  - by rewrite Hc, IH.
Qed.

Lemma param_name c n rest : sh_is_name_start c = true -> Forall (fun c => sh_is_name_char c = true) (c :: n) -> (length (c :: n) <= 63)%nat ->
  match rest with c :: _ => sh_is_name_char c = false | [] => True end ->
  param_expansion (36 :: (c :: n) ++ rest) = Some (c :: n, SH_MAX_LINE, rest).
Proof.
  intros Hc Hn Hl Hr. cbn [app]. unfold param_expansion. pose proof (name_chars_all (c :: n) rest Hn Hr) as E. cbn [app] in E. rewrite E, Hc.
  assert (cut 64 (c :: n) = c :: n) as -> by (unfold cut; by rewrite take_ge).
  unfold sh_is_name_start in Hc. repeat case_match; simplify_eq; done.
Qed.

Lemma until_brace_spec n rest : Forall (fun c => c <> 125) n -> until_brace (n ++ 125 :: rest) = Some (n, rest).
Proof. induction 1 as [|c n Hc _ IH]; cbn [app until_brace]; [done|]. rewrite (proj2 (Z.eqb_neq _ _)) by done. by rewrite IH. Qed.

Lemma until_close2_digits l rest : Forall (fun c => sh_is_digit c = true) l -> until_close2 (l ++ 41 :: 41 :: rest) = Some (l, rest).
Proof.
  induction 1 as [|c l Hc _ IH]; cbn [app until_close2]; [done|]. unfold sh_is_digit in Hc.
  rewrite (proj2 (Z.eqb_neq _ _)) by lia. cbn [andb]. by rewrite IH.
Qed.

Lemma get_var_param sh n cap : n <> str "?" -> 0 < cap -> lenZ (default [] (shell_get_var sh n)) < cap ->
  expand_param sh n cap = Some (default [] (shell_get_var sh n), lenZ (default [] (shell_get_var sh n))).
Proof.
  intros Hn Hc Hl. unfold expand_param, sh_streq. rewrite bool_decide_eq_false_2 by done. rewrite (proj2 (Z.leb_gt _ _)) by done.
  unfold lenZ at 1. by rewrite Nat2Z.id, firstn_all.
Qed.

Lemma put_room tmp s : lenZ tmp + lenZ s < SH_MAX_LINE -> put tmp s = tmp ++ s.
Proof. unfold put, lenZ, SH_MAX_LINE. intros. rewrite take_ge; [done|]. rewrite length_app. lia. Qed.

(** A turn of the loop that expands a parameter. *)
Lemma expand_loop_param f sh tmp c r d name cap rest out n : lenZ tmp + 1 < SH_MAX_LINE ->
  arith_expansion (36 :: c :: r) = Some None -> command_expansion (36 :: c :: r) = None ->
  param_expansion (36 :: c :: r) = Some (name, cap, rest) -> expand_param sh name cap = Some (out, n) ->
  expand_loop (S f) sh tmp (36 :: c :: r) d = expand_loop f sh (put tmp (take (Z.to_nat n) out)) rest d.
Proof.
  intros Hl Ea Ec Ep Ev. cbn [expand_loop]. rewrite (proj2 (Z.ltb_lt _ _)) by done. cbn [negb].
  rewrite Ea. cbn [given mbind prog_bind]. rewrite Ec, Ep, Ev. done.
Qed.

(** One turn of the loop for a part other than text. *)
Lemma expand_piece f sh tmp p rest d : piece_ok sh p rest -> (match p with Lit _ => False | _ => True end) ->
  lenZ tmp + lenZ (meaning sh p) + 1 < SH_MAX_LINE ->
  expand_loop (S f) sh tmp (render p ++ rest) d = expand_loop f sh (tmp ++ meaning sh p) rest d.
Proof.
  intros Hp Hk Hl. pose proof (lenZ_nonneg (meaning sh p)). pose proof (lenZ_nonneg tmp).
  assert (forall l : bytes, take (Z.to_nat (lenZ l)) l = l) as Htake by (intros; unfold lenZ; by rewrite Nat2Z.id, firstn_all).
  destruct p as [|n|n| |z]; cbn [render meaning piece_ok app] in *; [done|..].
  - destruct Hp as ((c & n' & -> & Hc) & Hn & Hlen & Hr). cbn [app].
    assert (c <> 40 /\ c <> 63) as [H40 H63] by (unfold sh_is_name_start in Hc; lia).
    destruct (dollar_other c (n' ++ rest) H40) as [Ea Ec].
    rewrite (expand_loop_param f sh tmp _ _ d (c :: n') SH_MAX_LINE rest _ _ ltac:(lia) Ea Ec (param_name c n' rest Hc Hn Hlen Hr)
      (get_var_param sh (c :: n') SH_MAX_LINE ltac:(by intros [= -> _]) ltac:(done) ltac:(lia))).
    by rewrite Htake, put_room by lia.
  - destruct Hp as ((c & n' & En & Hc) & Hchars & Hlen).
    assert (n <> str "?") as Hq by (intros ->; by injection En as <- <-).
    assert (Forall (fun c => c <> 125) n) as Hn
      by (eapply list.Forall_impl; [exact Hchars|]; intros x; unfold sh_is_name_char, sh_is_name_start, sh_is_digit; lia).
    rewrite <- app_assoc. destruct (dollar_other 123 (n ++ [125] ++ rest) ltac:(done)) as [Ea Ec].
    assert (param_expansion (36 :: 123 :: n ++ [125] ++ rest) = Some (n, SH_MAX_LINE, rest)) as Ep.
    { unfold param_expansion. cbn [app]. rewrite until_brace_spec by done. unfold cut. by rewrite take_ge. }
    rewrite (expand_loop_param f sh tmp _ _ d n SH_MAX_LINE rest _ _ ltac:(lia) Ea Ec Ep (get_var_param sh n SH_MAX_LINE Hq ltac:(done) ltac:(lia))).
    by rewrite Htake, put_room by lia.
  - unfold decimal in *. destruct (dec_int_spec _ Hp) as (l & El & Hd & Hn & Hv & Hlen). rewrite El in *. change (default [] (Some l)) with l in *.
    destruct (dollar_other 63 rest ltac:(done)) as [Ea Ec].
    assert (expand_param sh (str "?") 16 = Some (l, lenZ l)) as Ev.
    { unfold expand_param. change (sh_streq (str "?") (str "?")) with true. cbv iota. rewrite (proj2 (Z.ltb_ge (last_status sh) 0)) by lia.
      cbn [andb]. rewrite El. cbn [mbind option_bind]. rewrite (proj2 (Z.leb_gt _ _)), Z.sub_0_r; [done|]. unfold lenZ. lia. }
    rewrite (expand_loop_param f sh tmp _ _ d (str "?") 16 rest _ _ ltac:(lia) Ea Ec eq_refl Ev). by rewrite Htake, put_room by lia.
  - unfold decimal in *. destruct (dec_int_spec _ Hp) as (l & El & Hd & Hn & Hv & Hlen). rewrite El in *. change (default [] (Some l)) with l in *.
    cbn [expand_loop]. rewrite (proj2 (Z.ltb_lt _ _)) by lia. cbn [negb]. unfold arith_expansion. rewrite <- app_assoc. cbn [app].
    rewrite until_close2_digits by done. assert (cut SH_MAX_LINE l = l) as -> by (unfold cut, SH_MAX_LINE; rewrite take_ge; [done|lia]).
    rewrite eval_arith_digits by (done || lia). cbn [mbind option_bind]. rewrite Hv, El. cbn [mbind option_bind given prog_bind]. by rewrite put_room by lia.
Qed.

Lemma expand_lit s : forall f sh tmp rest d, Forall (fun c => c <> 36 /\ c <> 96) s -> lenZ tmp + lenZ s + 1 < SH_MAX_LINE ->
  expand_loop (length s + f) sh tmp (s ++ rest) d = expand_loop f sh (tmp ++ s) rest d.
Proof.
  induction s as [|c s IH]; intros f sh tmp rest d Hs Hl; [by rewrite app_nil_r|]. apply list.Forall_cons in Hs as [[H1 H2] Hs].
  unfold lenZ in Hl. cbn [length app plus] in *. destruct (other_char c (s ++ rest) H1 H2) as (Ea & Ec & Ep).
  cbn [expand_loop]. rewrite (proj2 (Z.ltb_lt _ _)) by (unfold lenZ; lia). cbn [negb]. rewrite Ea. cbn [given mbind prog_bind]. rewrite Ec, Ep.
  rewrite IH; [by rewrite <- app_assoc|done|unfold lenZ; rewrite length_app; cbn; lia].
Qed.

(** More fuel changes nothing once the input is used up. *)
Lemma expand_pieces sh d ps : forall f tmp, pieces_ok sh ps -> lenZ tmp + lenZ (meaning_all sh ps) + 1 < SH_MAX_LINE ->
  (length (render_all ps) <= f)%nat -> expand_loop f sh tmp (render_all ps) d = Done (sh, tmp ++ meaning_all sh ps).
Proof.
  unfold render_all, meaning_all. induction ps as [|p ps IH]; intros f tmp Hok Hl Hf; cbn [fmap list_fmap concat] in *.
  - rewrite app_nil_r. by destruct f.
  - destruct Hok as [Hp Hok]. rewrite lenZ_app in Hl. rewrite length_app in Hf.
    pose proof (lenZ_nonneg (concat (meaning sh <$> ps))). change (list_fmap _ _ render ps) with (render <$> ps) in *.
    change (list_fmap _ _ (meaning sh) ps) with (meaning sh <$> ps) in *. rewrite app_assoc.
    destruct p as [s| | | |].
    { cbn [render meaning] in *. replace f with (length s + (f - length s))%nat by lia. rewrite expand_lit by (done || lia).
      apply IH; [done|rewrite lenZ_app; lia|lia]. }
    all: destruct f as [|f]; [cbn in Hf; lia|];
      rewrite expand_piece by (done || lia); apply IH; [done|rewrite lenZ_app; lia|cbn [render length] in Hf; lia].
Qed.

(** C19: expansion is substitution.  A word made of text without [$] and backquotes, variables [$name] and [${name}] with names of
    letters, digits and underscores, at most 63 of them, [$?] while the last status is not negative, and numbers below 2^31 as
    arithmetic expressions, expands to the concatenation of their values, nothing for variables that are not set, without a
    system call and without a change of the shell; the loop ends.  The result is shorter than a line of the shell and fits the
    arena. *)
Theorem expand_word_correct sh a ps depth :
  pieces_ok sh ps -> lenZ (meaning_all sh ps) + 1 < SH_MAX_LINE -> 0 <= a -> a + lenZ (meaning_all sh ps) + 1 <= SH_SCRATCH_SIZE ->
  expand_word sh a (render_all ps) depth = Done (sh, a + lenZ (meaning_all sh ps) + 1, Some (meaning_all sh ps)).
Proof.
  intros Hok Hl Ha Hroom. unfold expand_word. rewrite expand_pieces; [|done|change (lenZ []) with 0; lia|lia].
  cbn [mbind prog_bind app]. unfold arena_strdup, arena_alloc. rewrite (proj2 (Z.ltb_ge _ _)) by lia. cbn [mbind option_bind].
  do 3 f_equal. lia.
Qed.

Lemma expand_word_correct_witness :
  let sh := set_status 12 (shell_set_var shell_init (str "A") (str "x y")) in
  let ps := [Lit (str "a="); Var (str "A"); Lit (str "."); Braced (str "A"); Status; Num 40; Var (str "Z9")] in
  expand_word sh 10 (render_all ps) 0 = Done (sh, 10 + lenZ (meaning_all sh ps) + 1, Some (meaning_all sh ps)).
Proof.
  apply expand_word_correct.
  - repeat split; try done; repeat constructor; try done; try (cbn; lia); by eexists _, _.
  - by vm_compute.
  - done.
  - by vm_compute.
Defined.

(** A negative status loses its last digit: the sign is not counted. *)
Lemma expand_status_negative : expand_param (set_status (-12) shell_init) (str "?") 16 = Some (str "-12", 2).
Proof. done. Qed.

(** ** Fields *)
Lemma field_spec f rest : Forall (fun c => sh_is_space c = false) f -> match rest with c :: _ => sh_is_space c = true | [] => True end ->
  field (f ++ rest) = (f, rest).
Proof.
  intros Hf Hr. induction Hf as [|c f Hc _ IH]; cbn [app field].
  - destruct rest; [done|]. cbn. by rewrite Hr.
  - by rewrite Hc, IH.
Qed.

Lemma skip_spaces sp s : Forall (fun c => sh_is_space c = true) sp -> match s with c :: _ => sh_is_space c = false | [] => True end ->
  skip_while sh_is_space (sp ++ s) = s.
Proof.
  intros Hsp Hs. induction Hsp as [|c sp Hc _ IH]; cbn [app skip_while].
  - destruct s; [done|]. cbn. by rewrite Hs.
  - by rewrite Hc.
Qed.

(** Text made of fields, each with the white space in front of it. *)
Definition spread (l : list (bytes * bytes)) : bytes := concat ((fun x => x.1 ++ x.2) <$> l).

(** Fields are not empty and have no white space; what is in front of one is white space, and is empty only at the beginning. *)
Definition spread_ok (first : bool) (l : list (bytes * bytes)) : Prop :=
  Forall (fun x => Forall (fun c => sh_is_space c = true) x.1 /\ x.2 <> [] /\ Forall (fun c => sh_is_space c = false) x.2) l /\
  Forall (fun x => x.1 <> []) (if first then drop 1 l else l).

Lemma split_loop_spec l : forall first fuel a out max sp, spread_ok first l -> Forall (fun c => sh_is_space c = true) sp ->
  (length (spread l) < fuel)%nat -> lenZ out + lenZ l <= max -> a + lenZ (concat l.*2) + lenZ l <= SH_SCRATCH_SIZE ->
  split_loop fuel a (spread l ++ sp) out max = (a + lenZ (concat l.*2) + lenZ l, out ++ (Some <$> l.*2)).
Proof.
  induction l as [|[s f] l IH]; intros first fuel a out max sp [Hok Hsep] Hsp Hf Hmax Ha; (destruct fuel as [|fuel]; [lia|]); cbn [split_loop].
  - cbn [spread concat fmap list_fmap app]. rewrite <- (app_nil_r sp), skip_spaces by done. rewrite app_nil_r. f_equal. change (lenZ (concat [])) with 0.
    change (lenZ []) with 0. lia.
  - apply list.Forall_cons in Hok as [(Hs & Hne & Hfs) Hok]. cbn [fst snd] in *.
    assert (spread ((s, f) :: l) = s ++ f ++ spread l) as E by (unfold spread; cbn; by rewrite <- app_assoc). rewrite E in *.
    rewrite <- !app_assoc, skip_spaces.
    2: { done. }
    2: { destruct f; [done|]. by apply list.Forall_cons in Hfs as [? _]. }
    assert (field (f ++ spread l ++ sp) = (f, spread l ++ sp)) as Ef.
    { apply field_spec; [done|]. destruct l as [|[s2 f2] l].
      - cbn. destruct sp; [done|]. by apply list.Forall_cons in Hsp as [? _].
      - apply list.Forall_cons in Hok as [(Hs2 & _) _]. cbn [fst] in Hs2.
        assert (s2 <> []) as Hn2 by (destruct first; cbn in Hsep; [|apply list.Forall_cons in Hsep as [_ Hsep]]; by apply list.Forall_cons in Hsep as [? _]).
        destruct s2; [done|]. cbn. by apply list.Forall_cons in Hs2 as [? _]. }
    destruct f as [|c f]; [done|]. cbn [app] in Ef |- *. rewrite Ef. cbn [fmap list_fmap concat fst snd] in Ha. rewrite lenZ_app in Ha.
    assert (forall x, lenZ (x :: l) = 1 + lenZ l) as Elen by (intros; unfold lenZ; cbn; lia). rewrite Elen in *.
    pose proof (lenZ_nonneg l). pose proof (lenZ_nonneg (concat l.*2)). change (list_fmap _ _ snd l) with (l.*2) in *.
    rewrite (proj2 (Z.ltb_lt _ _)) by lia. unfold arena_strdup, arena_alloc. rewrite (proj2 (Z.ltb_ge _ _)) by lia. cbn [mbind option_bind].
    rewrite !length_app in Hf. cbn [length] in Hf.
    rewrite (IH false); [| |done|lia|rewrite lenZ_app; change (lenZ [Some (c :: f)]) with 1; lia|lia].
    + cbn [fmap list_fmap concat fst snd]. rewrite lenZ_app, <- app_assoc. f_equal. lia.
    + split; [done|]. destruct first; cbn in Hsep; [done|]. by apply list.Forall_cons in Hsep as [_ ?].
Qed.

(** field splitting.  Fields separated by any white space, with any of it at both ends, are exactly the fields found, in order. *)
Theorem split_fields_correct l sp a max :
  spread_ok true l -> Forall (fun c => sh_is_space c = true) sp -> lenZ l <= max -> a + lenZ (concat l.*2) + lenZ l <= SH_SCRATCH_SIZE ->
  split_fields a (spread l ++ sp) max = (a + lenZ (concat l.*2) + lenZ l, Some <$> l.*2).
Proof.
  intros Hok Hsp Hmax Ha. unfold split_fields. by rewrite (split_loop_spec l true) by (done || rewrite length_app; lia).
Qed.

Lemma split_fields_correct_witness :
  let l := [([], str "ab"); ([32; 9], str "c"); ([10], str "de")] in
  split_fields 0 (spread l ++ [32]) 64 = (0 + lenZ (concat l.*2) + lenZ l, Some <$> l.*2).
Proof. apply split_fields_correct; [|repeat constructor|done|by vm_compute]. split; repeat constructor; done. Defined.

(** ** Braces *)
Lemma until_char_spec x s rest : Forall (fun c => c <> x) s -> until_char x (s ++ x :: rest) = Some (s, rest).
Proof.
  induction 1 as [|c s Hc _ IH]; cbn [app until_char]; [by rewrite Z.eqb_refl|]. rewrite (proj2 (Z.eqb_neq _ _)) by done. by rewrite IH.
Qed.

Lemma until_char_none x s : Forall (fun c => c <> x) s -> until_char x s = None.
Proof. induction 1 as [|c s Hc _ IH]; cbn [until_char]; [done|]. rewrite (proj2 (Z.eqb_neq _ _)) by done. by rewrite IH. Qed.

Lemma until_rbrace_spec s rest : Forall (fun c => c <> 123 /\ c <> 125) s -> until_rbrace 1 (s ++ 125 :: rest) = Some (s, rest).
Proof.
  induction 1 as [|c s [H1 H2] _ IH]; cbn [app until_rbrace]; [done|]. rewrite (proj2 (Z.eqb_neq c 123)), (proj2 (Z.eqb_neq c 125)) by done.
  by rewrite decide_False, IH.
Qed.

(** Segments with commas between them. *)
Fixpoint commas (segs : list bytes) : bytes := match segs with [] => [] | [g] => g | g :: segs' => g ++ 44 :: commas segs' end.

Lemma segments_spec segs : forall fuel, Forall (Forall (fun c => c <> 44)) segs -> (exists g, list.last segs = Some g /\ g <> []) ->
  (length (commas segs) < fuel)%nat -> segments fuel (commas segs) = segs.
Proof.
  induction segs as [|g segs IH]; intros fuel Hs (z & Hz & Hne) Hf; [done|]. apply list.Forall_cons in Hs as [Hg Hs].
  destruct fuel as [|fuel]; [lia|]. destruct segs as [|g2 segs].
  - cbn in Hz. simplify_eq. cbn [commas segments]. destruct z as [|c z]; [done|]. by rewrite until_char_none.
  - change (commas (g :: g2 :: segs)) with (g ++ 44 :: commas (g2 :: segs)) in *. cbn [segments].
    assert (exists x y, g ++ 44 :: commas (g2 :: segs) = x :: y) as (x & y & E) by (destruct g; by eexists _, _).
    rewrite E. rewrite <- E, until_char_spec by done. rewrite length_app in Hf. cbn [length] in Hf.
    rewrite IH; [done|done|by exists z|lia].
Qed.

(** The arena that one alternative takes: copies of prefix and segment, and the word. *)
Definition brace_cost (prefix suffix g : bytes) : Z := 2 * lenZ prefix + 2 * lenZ g + lenZ suffix + 3.
Definition brace_costs (prefix suffix : bytes) (segs : list bytes) : Z := foldr (fun g acc => brace_cost prefix suffix g + acc) 0 segs.

Lemma brace_parts_spec prefix suffix segs : forall a, a + brace_costs prefix suffix segs <= SH_SCRATCH_SIZE ->
  brace_parts a prefix suffix segs = (a + brace_costs prefix suffix segs, (fun g => prefix ++ g ++ suffix) <$> segs).
Proof.
  induction segs as [|g segs IH]; intros a Ha; [cbn; f_equal; lia|]. cbn [brace_costs foldr] in *.
  assert (0 <= foldr (fun g acc => brace_cost prefix suffix g + acc) 0 segs) as H0.
  { clear. induction segs as [|g segs IH]; cbn [foldr]; [done|]. unfold brace_cost at 1.
    pose proof (lenZ_nonneg prefix). pose proof (lenZ_nonneg suffix). pose proof (lenZ_nonneg g). lia. }
  unfold brace_cost in Ha at 1. pose proof (lenZ_nonneg prefix). pose proof (lenZ_nonneg suffix). pose proof (lenZ_nonneg g).
  cbn [brace_parts]. unfold brace_part, arena_strcat3, arena_strdup, arena_alloc.
  rewrite !(proj2 (Z.ltb_ge _ _)) by lia. cbn [mbind option_bind]. rewrite !(proj2 (Z.ltb_ge _ _)) by lia. cbn [mbind option_bind].
  rewrite !(proj2 (Z.ltb_ge _ _)) by lia. cbn [mbind option_bind].
  rewrite IH by (unfold brace_costs; lia). unfold brace_costs, brace_cost at 2. f_equal. lia.
Qed.

(** brace expansion.  [p{x,y,...}s] becomes the words [pxs], [pys], ..., in order. *)
Theorem brace_expand_correct prefix segs suffix a max :
  Forall (fun c => c <> 123) prefix -> Forall (Forall (fun c => c <> 44 /\ c <> 123 /\ c <> 125)) segs ->
  (2 <= length segs)%nat -> (exists g, list.last segs = Some g /\ g <> []) -> lenZ segs <= max ->
  a + brace_costs prefix suffix segs <= SH_SCRATCH_SIZE ->
  brace_expand_one a (prefix ++ 123 :: commas segs ++ 125 :: suffix) max =
    (a + brace_costs prefix suffix segs, (fun g => prefix ++ g ++ suffix) <$> segs).
Proof.
  intros Hp Hs H2 Hlast Hmax Ha. unfold brace_expand_one. rewrite until_char_spec by done.
  assert (Forall (fun c => c <> 123 /\ c <> 125) (commas segs)) as Hin.
  { clear -Hs. induction segs as [|g segs IH]; [constructor|]. apply list.Forall_cons in Hs as [Hg Hs]. specialize (IH Hs).
    assert (Forall (fun c => c <> 123 /\ c <> 125) g) as Hg' by (eapply list.Forall_impl; [exact Hg|]; by intros c (_ & ? & ?)).
    destruct segs as [|g2 segs]; [done|]. apply Forall_app. split; [done|]. by constructor. }
  rewrite until_rbrace_spec by done. rewrite bool_decide_eq_true_2.
  2: { destruct segs as [|g [|g2 segs]]; cbn in H2; [lia..|]. cbn. apply elem_of_app. right. apply elem_of_cons. by left. }
  rewrite segments_spec; [|eapply list.Forall_impl; [exact Hs|]; intros g Hg; eapply list.Forall_impl; [exact Hg|]; by intros c (? & _)|done|lia].
  unfold lenZ in Hmax. rewrite take_ge by lia. by apply brace_parts_spec.
Qed.

Lemma brace_expand_correct_witness :
  let segs := [str "a"; []; str "bc"] in
  brace_expand_one 5 (str "x" ++ 123 :: commas segs ++ 125 :: str "y") 64 =
    (5 + brace_costs (str "x") (str "y") segs, (fun g => str "x" ++ g ++ str "y") <$> segs).
Proof.
  apply brace_expand_correct; [repeat constructor; done|repeat constructor; done|cbn; lia|by eexists|by vm_compute|by vm_compute].
Defined.

End ExpandProofs.
