(* ===== verification/ShExec.v ===== *)
(** * The shell: built-in commands and execution

    Lines 1796 to 1822 and 2238 to 3041 of userspace/apps/src/shell.c: commands as trees of system calls.  The state is the shell
    and the position of the arena of the present line.  A child process is the branch of the program in which [fork] was
    answered 0; it ends with [exit].  Execution is fuelled: loops, functions and aliases run as long as the fuel lasts. *)
From Stdlib Require Import String.
From S2P Require Import Prelude ShLex ShParse ShExpand.
Import Sh Parse Expand.
Open Scope list_scope.
Open Scope Z_scope.

Module Exec.

Definition SH_MAX_ARGS : Z := 64.
Definition SH_ALIAS_EXPANSION_LIMIT : Z := 8.

(** A sequence of outputs. *)
Fixpoint puts_all (l : list bytes) : prog unit := match l with [] => Done () | s :: l => _ ← sh_puts s; puts_all l end.

Definition newline : bytes := [10].

(** ** Built-in commands: the new shell and the status *)
Definition builtin_cd (s : shell) : prog (shell * Z) := _ ← sh_puts (str "cd: unsupported (no chdir syscall)" ++ newline); Done (s, 1).

(** [name=value], the name cut to its buffer. *)
Definition split_eq (arg : bytes) : option (bytes * bytes) := '(n, v) ← until_char 61 arg; Some (cut 64 n, v).

Definition builtin_export (s : shell) (args : list bytes) : prog (shell * Z) :=
  match args with
  | [] => _ ← puts_all (concat ((fun kv => [kv.1; str "="; kv.2; newline]) <$> vars s)); Done (s, 0)
  | _ => Done (foldl (fun s arg => match split_eq arg with Some (n, v) => shell_set_var s n v | None => shell_set_var s arg [] end) s args, 0)
  end.

Definition builtin_unset (s : shell) (args : list bytes) : prog (shell * Z) :=
  Done (foldl (fun s n => shell_unset_func (shell_unset_alias (shell_unset_var s n) n) n) s args, 0).

Fixpoint alias_args (s : shell) (args : list bytes) : prog (shell * Z) :=
  match args with
  | [] => Done (s, 0)
  | arg :: args =>
      match split_eq arg with
      | Some (n, v) => alias_args (shell_set_alias s n v) args
      | None =>
          match shell_get_alias s arg with
          | Some v => _ ← puts_all [arg; str "='"; v; str "'" ++ newline]; alias_args s args
          | None => alias_args s args
          end
      end
  end.

Definition builtin_alias (s : shell) (args : list bytes) : prog (shell * Z) :=
  match args with
  | [] => _ ← puts_all (concat ((fun kv => [kv.1; str "='"; kv.2; str "'" ++ newline]) <$> aliases s)); Done (s, 0)
  | _ => alias_args s args
  end.

Definition builtin_history (s : shell) : prog (shell * Z) :=
  _ ← puts_all (concat ((fun h => if bool_decide (list.last h = Some 10) then [h] else [h; newline]) <$> history s)); Done (s, 0).

Definition set_option (s : shell) (arg : bytes) : shell :=
  if sh_streq arg (str "-e") then set_opts true (opt_xtrace s) s
  else if sh_streq arg (str "+e") then set_opts false (opt_xtrace s) s
  else if sh_streq arg (str "-x") then set_opts (opt_errexit s) true s
  else if sh_streq arg (str "+x") then set_opts (opt_errexit s) false s
  else s.

Definition on_off (b : bool) : bytes := if b then str "on" else str "off".

Definition builtin_set (s : shell) (args : list bytes) : prog (shell * Z) :=
  match args with
  | [] => _ ← puts_all [str "set: -e "; on_off (opt_errexit s); str ", -x "; on_off (opt_xtrace s); newline]; Done (s, 0)
  | _ => Done (foldl set_option s args, 0)
  end.

(** The decimal digits of a process number, which C divides towards zero. *)
Fixpoint pid_digits (n : nat) (t : Z) (acc : bytes) : bytes :=
  match n with O => acc | S n => if t =? 0 then acc else pid_digits n (Z.quot t 10) (u8 (48 + Z.rem t 10) :: acc) end.

Definition builtin_jobs (s : shell) : prog (shell * Z) :=
  _ ← puts_all (concat ((fun j => if running j
        then [str "["; if pid j =? 0 then [48] else pid_digits 16 (pid j) []; str "] running "; cmd j; newline] else []) <$> jobs s));
  Done (s, 0).

Fixpoint find_job (P : job -> bool) (l : list job) : option nat :=
  match l with [] => None | j :: l => if P j then Some O else S <$> find_job P l end.

Definition stop_job (j : job) : job := Job (pid j) (cmd j) false.

Definition wait_status (pid : Z) : prog Z := '(_, st) ← sys (SWaitpid pid); Done st.

Definition builtin_fg (s : shell) (args : list bytes) : prog (shell * Z) :=
  let first := find_job running (jobs s) in
  index ← (match args with
           | [] => Done first
           | arg :: _ =>
               p ← given (sh_atoi arg);
               Done (match find_job (fun j => running j && (pid j =? p)) (jobs s) with Some i => Some i | None => first end)
           end);
  match index with
  | None => _ ← sh_puts (str "fg: no jobs" ++ newline); Done (s, 1)
  | Some i =>
      j ← given (jobs s !! i);
      st ← wait_status (pid j);
      Done (set_status st (set_jobs (<[i := stop_job j]> (jobs s)) s), st)
  end.

Definition builtin_disown (s : shell) (args : list bytes) : prog (shell * Z) :=
  match args with
  | [] => Done (set_jobs (stop_job <$> jobs s) s, 0)
  | arg :: _ =>
      p ← given (sh_atoi arg);
      match find_job (fun j => running j && (pid j =? p)) (jobs s) with
      | Some i => j ← given (jobs s !! i); Done (set_jobs (<[i := stop_job j]> (jobs s)) s, 0)
      | None => Done (s, 1)
      end
  end.

Definition named (c : bytes) (n : string) : bool := sh_streq c (str n).

(** [run_builtin]: [None] when it is not handled. *)
Definition run_builtin (s : shell) (argv : list bytes) : prog (option (shell * Z)) :=
  match argv with
  | [] => Done (Some (s, 0))
  | c :: args =>
      if named c "cd" then r ← builtin_cd s; Done (Some r)
      else if named c "export" then r ← builtin_export s args; Done (Some r)
      else if named c "unset" then r ← builtin_unset s args; Done (Some r)
      else if named c "alias" then r ← builtin_alias s args; Done (Some r)
      else if named c "history" then r ← builtin_history s; Done (Some r)
      else if named c "set" then r ← builtin_set s args; Done (Some r)
      else if named c "jobs" then r ← builtin_jobs s; Done (Some r)
      else if named c "fg" then r ← builtin_fg s args; Done (Some r)
      else if named c "disown" then r ← builtin_disown s args; Done (Some r)
      else if named c ":" || named c "true" then Done (Some (s, 0))
      else if named c "false" then Done (Some (s, 1))
      else if named c "exit" then
        code ← (match args with arg :: _ => given (sh_atoi arg) | [] => Done (last_status s) end); exit code
      else Done None
  end.

(** ** Programs outside the shell *)
Fixpoint try_paths (paths : list bytes) (c : bytes) (argv : list bytes) : prog unit :=
  match paths with
  | [] => Done ()
  | p :: paths =>
      if 128 <=? lenZ p + lenZ c + 1 then try_paths paths c argv
      else _ ← sys (SExec (p ++ c) argv); try_paths paths c argv
  end.

Definition exec_external {R} (argv : list bytes) : prog R :=
  match argv with
  | [] | [] :: _ => exit 127
  | c :: _ =>
      if bool_decide (47 ∈ c) then _ ← sys (SExec c argv); exit 127
      else _ ← try_paths [str "/bin/"; str "/usr/bin/"; str "/sbin/"] c argv; exit 127
  end.

Fixpoint apply_redirs (rs : list redirect) : prog Z :=
  match rs with
  | [] => Done 0
  | r :: rs =>
      match r_kind r with
      | REDIR_HEREDOC =>
          '(x, rd, wr) ← sys SPipe;
          if x <? 0 then Done 1 else
          _ ← (match heredoc_body r with Some b => sys (SWrite wr b) | None => Done 0 end);
          _ ← sys (SClose wr); _ ← sys (SDup2 rd (r_fd r)); _ ← sys (SClose rd);
          apply_redirs rs
      | _ => _ ← sh_puts (str "redirection to files unsupported" ++ newline); Done 1
      end
  end.

(** ** Words *)
(** The words of the fields of one word; a field that did not fit the arena is a [NULL] that is dereferenced. *)
Fixpoint add_fields (a : Z) (fields : list (option bytes)) (argv : list bytes) : prog (Z * list bytes) :=
  match fields with
  | [] => Done (a, argv)
  | f :: fields =>
      if negb (lenZ argv <? SH_MAX_ARGS - 1) then Done (a, argv) else
      f ← given f;
      let '(a, ws) := brace_expand_one a f SH_MAX_ARGS in
      add_fields a fields (take (Z.to_nat (SH_MAX_ARGS - 1)) (argv ++ ws))
  end.

Fixpoint expand_command_words (s : shell) (a : Z) (words : list (bytes * bool)) (depth : Z) (argv : list bytes) : prog (shell * Z * list bytes) :=
  match words with
  | [] => Done (s, a, argv)
  | (w, q) :: words =>
      if negb (lenZ argv <? SH_MAX_ARGS - 1) then Done (s, a, argv) else
      '(s, a, x) ← expand_word s a w depth;
      match x with
      | None => expand_command_words s a words depth argv
      | Some x =>
          let '(a, fields) := if q : bool then (a, [Some x]) else split_fields a x SH_MAX_ARGS in
          '(a, argv) ← add_fields a fields argv;
          expand_command_words s a words depth argv
      end
  end.

(** The line an alias stands for: its text and the arguments, as far as the buffer goes. *)
Fixpoint alias_line (buf : bytes) (args : list bytes) : bytes :=
  match args with
  | [] => buf
  | w :: args =>
      if lenZ buf + 2 <? SH_MAX_LINE then
        let buf := buf ++ [32] in
        alias_line (buf ++ (if SH_MAX_LINE - 1 <=? lenZ buf + lenZ w then take (Z.to_nat (SH_MAX_LINE - 1 - lenZ buf)) w else w)) args
      else buf
  end.

(** ** Input *)
(** [read_line]: the line with its newline, [None] at the end of the input.  [fuel] bounds the number of characters read. *)
Fixpoint read_line (fuel : nat) (cap : Z) (buf : bytes) : prog (option bytes) :=
  if lenZ buf + 1 <? cap then
    match fuel with
    | O => Later
    | S fuel =>
        '(r, data) ← sys (SRead 0 1);
        if r <=? 0 then Done None else
        ch ← given (list.head data);
        if ch =? 13 then read_line fuel cap buf
        else if ch =? 10 then Done (Some (buf ++ [10]))
        else if (ch =? 127) || (ch =? 8) then read_line fuel cap (take (length buf - 1) buf)
        else read_line fuel cap (buf ++ [ch])
    end
  else Done (Some buf).

(** The lines up to the delimiter, as far as half the arena goes. *)
Fixpoint heredoc_lines (fuel : nat) (delim body : bytes) : prog bytes :=
  match fuel with
  | O => Later
  | S fuel' =>
      _ ← sh_puts (str "> ");
      l ← read_line fuel SH_MAX_LINE [];
      match l with
      | None => Done body
      | Some l =>
          if bool_decide (take (length delim) l = delim) && match l !! length delim with Some c => c =? 10 | None => true end then Done body
          else if SH_SCRATCH_SIZE / 2 - 1 <=? lenZ body + lenZ l then Done body
          else heredoc_lines fuel' delim (body ++ l)
      end
  end.

Definition read_heredoc_body (fuel : nat) (delim : bytes) (a : Z) : prog (Z * option bytes) :=
  match arena_alloc a (SH_SCRATCH_SIZE / 2) with
  | None => Done (a, None)
  | Some a => b ← heredoc_lines fuel delim []; Done (a, Some b)
  end.

Fixpoint redirs_heredocs (fuel : nat) (a : Z) (rs : list redirect) : prog (Z * list redirect) :=
  match rs with
  | [] => Done (a, [])
  | r :: rs =>
      '(a, r) ← (match r_kind r, heredoc_body r with
                 | REDIR_HEREDOC, None => '(a, b) ← read_heredoc_body fuel (r_target r) a; Done (a, Redirect (r_kind r) (r_fd r) (r_target r) b)
                 | _, _ => Done (a, r)
                 end);
      '(a, rs) ← redirs_heredocs fuel a rs;
      Done (a, r :: rs)
  end.

(** The tree with the bodies of its here-documents. *)
Fixpoint attach_heredocs (fuel : nat) (a : Z) (t : ast) : prog (Z * ast) :=
  let two ctor l r := '(a, l) ← attach_heredocs fuel a l; '(a, r) ← attach_heredocs fuel a r; Done (a, ctor l r) in
  let one ctor b := '(a, b) ← attach_heredocs fuel a b; Done (a, ctor b) in
  match t with
  | AST_SIMPLE ws rs => '(a, rs) ← redirs_heredocs fuel a rs; Done (a, AST_SIMPLE ws rs)
  | AST_SEQ l r => two AST_SEQ l r
  | AST_AND l r => two AST_AND l r
  | AST_OR l r => two AST_OR l r
  | AST_PIPE l r => two AST_PIPE l r
  | AST_BG b => one AST_BG b
  | AST_GROUP b => one AST_GROUP b
  | AST_SUBSHELL b => one AST_SUBSHELL b
  | AST_IF c t e =>
      '(a, c) ← attach_heredocs fuel a c; '(a, t) ← attach_heredocs fuel a t; '(a, e) ← attach_heredocs fuel a e;
      Done (a, AST_IF c t e)
  | AST_WHILE u c b => two (AST_WHILE u) c b
  | AST_FOR v items b => one (AST_FOR v items) b
  | NULL | AST_EMPTY | AST_FUNCDEF _ _ => Done (a, t)
  end.

(** ** Execution *)
Fixpoint collect_pipeline (t : ast) (max : nat) : list ast :=
  match t with
  | NULL => []
  | AST_PIPE l r =>
      let ls := collect_pipeline l max in
      if (length ls <? max)%nat then ls ++ collect_pipeline r (max - length ls) else ls
  | _ => [t]
  end.

Definition find_job_slot (s : shell) : option nat := find_job (fun j => negb (running j)) (jobs s).

Definition xtrace (s : shell) (argv : list bytes) : prog unit :=
  if opt_xtrace s then puts_all (str "+" :: concat ((fun w => [str " "; w]) <$> argv) ++ [newline]) else Done ().

(** Close a descriptor if there is one. *)
Definition close_if (fd : Z) : prog unit := if 0 <=? fd then _ ← sys (SClose fd); Done () else Done ().

(** The commands of a pipeline from the present one on, with the end of the pipe to read from and the children so far;
    [child] runs a command in the child.  [None] when a pipe could not be made. *)
Fixpoint spawn_pipeline (child : ast -> prog Empty_set) (cmds : list ast) (prev_read : Z) (pids : list Z) : prog (option (list Z)) :=
  match cmds with
  | [] => _ ← close_if prev_read; Done (Some pids)
  | c :: rest =>
      '(x, rd, wr) ← (match rest with [] => Done (0, -1, -1) | _ => sys SPipe end);
      if x <? 0 then Done None else
      p ← sys SFork;
      if p =? 0 then
        _ ← (if 0 <=? prev_read then _ ← sys (SDup2 prev_read 0); Done () else Done ());
        _ ← (if 0 <=? wr then _ ← sys (SDup2 wr 1); Done () else Done ());
        _ ← close_if prev_read; _ ← close_if rd; _ ← close_if wr;
        x ← child c; match (x : Empty_set) with end
      else
        _ ← close_if prev_read; _ ← close_if wr;
        spawn_pipeline child rest rd (pids ++ [p])
  end.

(** The status of the last one. *)
Fixpoint wait_pipeline (pids : list Z) (last : Z) : prog Z :=
  match pids with [] => Done last | p :: pids => st ← wait_status p; wait_pipeline pids st end.

(** The functions that call each other through [exec_ast]: each is a definition over the ones it calls, which the recursion
    below hands on with one unit of fuel less. *)
Definition exec_pipeline_step (exec_ast : shell -> Z -> ast -> Z -> prog (shell * Z * Z))
    (s : shell) (a : Z) (node : ast) (depth : Z) : prog (shell * Z * Z) :=
  match collect_pipeline node 16 with
  | [] => Done (s, a, 0)
  | cmds =>
      pids ← spawn_pipeline (fun c => '(_, _, st) ← exec_ast s a c (depth + 1); exit st) cmds (-1) [];
      match pids with
      | None => Done (s, a, 1)
      | Some pids => last ← wait_pipeline pids 0; Done (set_status last s, a, last)
      end
  end.

Definition exec_simple_step (shell_eval_string : shell -> bytes -> Z -> prog (shell * Z))
    (s : shell) (a : Z) (ws : list (bytes * bool)) (rs : list redirect) (in_child : bool) (depth : Z) : prog (shell * Z * Z) :=
  '(s, a, argv) ← expand_command_words s a ws depth [];
  match argv with
  | [] => Done (s, a, 0)
  | c :: args =>
      match (if negb in_child && (depth <? SH_ALIAS_EXPANSION_LIMIT) then shell_get_alias s c else None) with
      | Some aval => '(s, st) ← shell_eval_string s (alias_line (cut SH_MAX_LINE aval) args) (depth + 1); Done (s, a, st)
      | None =>
          _ ← xtrace s argv;
          let fn := shell_get_func s c in
          match (if in_child then None else fn) with
          | Some body => '(s, st) ← shell_eval_string s body (depth + 1); Done (s, a, st)
          | None =>
              handled ← (if in_child then Done None else run_builtin s argv);
              match handled with
              | Some (s, st) => Done (set_status st s, a, st)
              | None =>
                  p ← sys SFork;
                  if p =? 0 then
                    x ← apply_redirs rs;
                    if negb (x =? 0) then exit 1 else
                    handled ← run_builtin s argv;
                    match handled, fn with
                    | Some (_, st), _ => exit st
                    | None, Some body => '(_, st) ← shell_eval_string s body (depth + 1); exit st
                    | None, None => exec_external argv
                    end
                  else st ← wait_status p; Done (set_status st s, a, st)
              end
          end
      end
  end.

Definition shell_eval_string_step (exec_ast : shell -> Z -> ast -> Z -> prog (shell * Z * Z))
    (attach_heredocs : Z -> ast -> prog (Z * ast))
    (s : shell) (src : bytes) (depth : Z) : prog (shell * Z) :=
  if SH_ALIAS_EXPANSION_LIMIT <? depth then Done (s, 1) else
  let '(r, ts, a) := tokenize 0 src in
  if negb (r =? 0) then _ ← sh_puts (str "tokenize: too many tokens" ++ newline); Done (s, 1) else
  match parse_list (8 * length ts + 8) (Parser ts a) with
  | Undef => Wrong
  | More => Later
  | Ret (t, ps) =>
      if is_null t then _ ← sh_puts (str "parse error" ++ newline); Done (s, 2) else
      '(a, t) ← attach_heredocs (arena ps) t;
      '(s, _, st) ← exec_ast s a t depth;
      Done (set_status st s, st)
  end.

(** The loops of [exec_ast] *)
Definition while_loop_step (exec_ast : shell -> Z -> ast -> Z -> prog (shell * Z * Z)) (while_loop : shell -> Z -> bool -> ast -> ast -> Z -> Z -> prog (shell * Z * Z))
    (s : shell) (a : Z) (until : bool) (cond body : ast) (depth last : Z) : prog (shell * Z * Z) :=
  '(s, a, st) ← exec_ast s a cond depth;
  if negb (if until then negb (st =? 0) else st =? 0) then Done (s, a, last) else
  '(s, a, last) ← exec_ast s a body depth;
  if opt_errexit s && negb (last =? 0) then Done (s, a, last) else while_loop s a until cond body depth last.

Definition for_loop_step (exec_ast : shell -> Z -> ast -> Z -> prog (shell * Z * Z)) (for_loop : shell -> Z -> bytes -> list bytes -> ast -> Z -> Z -> prog (shell * Z * Z))
    (s : shell) (a : Z) (var : bytes) (items : list bytes) (body : ast) (depth last : Z) : prog (shell * Z * Z) :=
  match items with
  | [] => Done (s, a, last)
  | i :: items =>
      '(s, a, last) ← exec_ast (shell_set_var s var i) a body depth;
      if opt_errexit s && negb (last =? 0) then Done (s, a, last) else for_loop s a var items body depth last
  end.

Fixpoint exec_ast (fuel : nat) (s : shell) (a : Z) (node : ast) (depth : Z) : prog (shell * Z * Z) :=
  match fuel with
  | O => Later
  | S fuel =>
      match node with
      | NULL | AST_EMPTY => Done (s, a, 0)
      | AST_SIMPLE ws rs => exec_simple fuel s a ws rs false depth
      | AST_FUNCDEF name body => Done (shell_set_func s name body, a, 0)
      | AST_SEQ l r =>
          '(s, a, st) ← exec_ast fuel s a l depth;
          if opt_errexit s && negb (st =? 0) then Done (s, a, st) else exec_ast fuel s a r depth
      | AST_AND l r => '(s, a, st) ← exec_ast fuel s a l depth; if st =? 0 then exec_ast fuel s a r depth else Done (s, a, st)
      | AST_OR l r => '(s, a, st) ← exec_ast fuel s a l depth; if negb (st =? 0) then exec_ast fuel s a r depth else Done (s, a, st)
      | AST_PIPE _ _ => exec_pipeline fuel s a node depth
      | AST_BG child =>
          p ← sys SFork;
          if p =? 0 then '(_, _, st) ← exec_ast fuel s a child depth; exit st
          else
            Done (match find_job_slot s with
                  | Some i => set_jobs (<[i := Job p (str "(background)") true]> (jobs s)) s
                  | None => s
                  end, a, 0)
      | AST_GROUP body => exec_ast fuel s a body depth
      | AST_SUBSHELL body =>
          p ← sys SFork;
          if p =? 0 then '(_, _, st) ← exec_ast fuel s a body (depth + 1); exit st
          else st ← wait_status p; Done (set_status st s, a, st)
      | AST_IF c t e =>
          '(s, a, st) ← exec_ast fuel s a c depth;
          if st =? 0 then exec_ast fuel s a t depth
          else if is_null e then Done (s, a, st) else exec_ast fuel s a e depth
      | AST_WHILE u c b => while_loop fuel s a u c b depth 0
      | AST_FOR v items b => for_loop fuel s a v items b depth 0
      end
  end
with while_loop (fuel : nat) (s : shell) (a : Z) (until : bool) (cond body : ast) (depth last : Z) : prog (shell * Z * Z) :=
  match fuel with
  | O => Later
  | S fuel => while_loop_step (exec_ast fuel) (while_loop fuel) s a until cond body depth last
  end
with for_loop (fuel : nat) (s : shell) (a : Z) (var : bytes) (items : list bytes) (body : ast) (depth last : Z) : prog (shell * Z * Z) :=
  match fuel with
  | O => Later
  | S fuel => for_loop_step (exec_ast fuel) (for_loop fuel) s a var items body depth last
  end
with exec_pipeline (fuel : nat) (s : shell) (a : Z) (node : ast) (depth : Z) : prog (shell * Z * Z) :=
  match fuel with
  | O => Later
  | S fuel => exec_pipeline_step (exec_ast fuel) s a node depth
  end
with exec_simple (fuel : nat) (s : shell) (a : Z) (ws : list (bytes * bool)) (rs : list redirect) (in_child : bool) (depth : Z)
    : prog (shell * Z * Z) :=
  match fuel with
  | O => Later
  | S fuel => exec_simple_step (shell_eval_string fuel) s a ws rs in_child depth
  end
with shell_eval_string (fuel : nat) (s : shell) (src : bytes) (depth : Z) : prog (shell * Z) :=
  match fuel with
  | O => Later
  | S fuel => shell_eval_string_step (exec_ast fuel) (attach_heredocs fuel) s src depth
  end.

(** ** The main program *)
(** The loop of [main]: two of its lines ended up in [expand_tilde] (lines 3082 and 3083). *)
Fixpoint main_loop (fuel : nat) (s : shell) : prog Z :=
  match fuel with
  | O => Later
  | S fuel' =>
      _ ← sh_puts (str "sh$ ");
      l ← read_line fuel SH_MAX_LINE [];
      match l with
      | None => Done 0
      | Some [] => main_loop fuel' s
      | Some l => '(s, _) ← shell_eval_string fuel (shell_history_add s l) l 0; main_loop fuel' s
      end
  end.

Definition main (fuel : nat) (argv : list bytes) : prog Z :=
  let s := shell_init in
  match argv with
  | _ :: c :: src :: _ => if sh_streq c (str "-c") then '(_, st) ← shell_eval_string fuel s src 0; Done st else
      _ ← sh_puts (str "sh: script execution unsupported (no filesystem); use: sh -c '...'" ++ newline);
      _ ← sh_puts (str "sh: ready" ++ newline); main_loop fuel s
  | _ =>
      _ ← (if 1 <? lenZ argv then sh_puts (str "sh: script execution unsupported (no filesystem); use: sh -c '...'" ++ newline) else Done ());
      _ ← sh_puts (str "sh: ready" ++ newline);
      main_loop fuel s
  end.

End Exec.
