(* ===== verification/ShExecProofs.v ===== *)
(** * The shell: pipelines give back what they take

    Runs of programs as sequences of answered system calls; the descriptors and children of a pipeline. *)
From Stdlib Require Import String.
From S2P Require Import Prelude ShLex ShParse ShExpand ShExpandProofs ShExec.
Import Sh Parse Expand ExpandProofs Exec.
Open Scope list_scope.
Open Scope Z_scope.

Module ExecProofs.

(** ** Runs *)
Inductive event := Event (c : call) (x : answer c).

(** The program, given these answers, ends with this result. *)
Inductive goes {R} : prog R -> list event -> R -> Prop :=
  | goes_done r : goes (Done r) [] r
  | goes_call c k x tr r : goes (k x) tr r -> goes (Call c k) (Event c x :: tr) r.

Lemma goes_done_inv {R} (r r' : R) tr : goes (Done r) tr r' -> tr = [] /\ r' = r.
Proof. by inversion 1. Qed.

Lemma goes_call_inv {R} c (k : answer c -> prog R) tr r : goes (Call c k) tr r -> exists x tr', tr = Event c x :: tr' /\ goes (k x) tr' r.
Proof.
  intros H. refine (match H in goes p tr r return match p with
    | Call c k => exists x tr', tr = Event c x :: tr' /\ goes (k x) tr' r | _ => True end with
    | goes_done _ => I | goes_call c k x tr r H => _ end). by exists x, tr.
Qed.

Lemma goes_bind {A B} (m : prog A) (k : A -> prog B) : forall tr r, goes (m ≫= k) tr r ->
  exists tr1 tr2 x, tr = tr1 ++ tr2 /\ goes m tr1 x /\ goes (k x) tr2 r.
Proof.
  induction m as [a| | |c f IH]; intros tr r H; cbn in H.
  - exists [], tr, a. split; [done|]. split; [constructor|done].
  - inversion H.
  - inversion H.
  - apply goes_call_inv in H as (x & tr' & -> & H). destruct (IH x _ _ H) as (t1 & t2 & y & -> & H1 & H2).
    exists (Event c x :: t1), t2, y. split; [done|]. split; [by constructor|done].
Qed.

(** ** Descriptors and children *)
(** What a run opens, closes, starts and waits for. *)
Definition opened (e : event) : list Z := match e with Event SPipe (_, rd, wr) => [rd; wr] | _ => [] end.
Definition closed (e : event) : list Z := match e with Event (SClose fd) _ => [fd] | _ => [] end.
Definition started (e : event) : list Z := match e with Event SFork p => [p] | _ => [] end.
Definition waited (e : event) : list Z := match e with Event (SWaitpid p) _ => [p] | _ => [] end.
Definition all {A} (f : event -> list A) (tr : list event) : list A := concat (f <$> tr).

Lemma all_app {A} (f : event -> list A) tr1 tr2 : all f (tr1 ++ tr2) = all f tr1 ++ all f tr2.
Proof. unfold all. by rewrite fmap_app, concat_app. Qed.

(** The run of a parent, in which every pipe could be made and every child started. *)
Definition parent_ok (e : event) : Prop :=
  match e with Event SFork p => 0 < p | Event SPipe (x, rd, wr) => x = 0 /\ 0 <= rd /\ 0 <= wr | _ => True end.

(** The descriptor of the last pipe, if any. *)
Definition held (fd : Z) : list Z := if 0 <=? fd then [fd] else [].

(** The next call of a run, and its answer. *)
Ltac next H x := apply goes_call_inv in H as (x & ? & -> & H).

Lemma close_if_goes fd tr r : goes (close_if fd) tr r ->
  all closed tr = held fd /\ all opened tr = [] /\ all started tr = [] /\ all waited tr = [].
Proof.
  unfold close_if, held. destruct (0 <=? fd); intros H; [|by apply goes_done_inv in H as [-> _]].
  cbn in H. next H x. apply goes_done_inv in H as [-> _]. done.
Qed.

Lemma spawn_goes child cmds : forall prev pids tr r, goes (spawn_pipeline child cmds prev pids) tr r -> Forall parent_ok tr ->
  r = Some (pids ++ all started tr) /\ length (all started tr) = length cmds /\ all waited tr = [] /\
  all closed tr ≡ₚ held prev ++ all opened tr.
Proof.
  induction cmds as [|c cmds IH]; intros prev pids tr r H Hok; cbn [spawn_pipeline] in H.
  - apply goes_bind in H as (t1 & t2 & [] & -> & H1 & H2). apply goes_done_inv in H2 as [-> ->]. apply close_if_goes in H1 as (Hc & Ho & Hs & Hw).
    rewrite app_nil_r. rewrite Hs, Ho, Hc, Hw, !app_nil_r. done.
  - apply goes_bind in H as (t0 & t & [[x rd] wr] & -> & H0 & H). apply Forall_app in Hok as [Hok0 Hok].
    assert (x = 0 /\ all closed t0 = [] /\ all started t0 = [] /\ all waited t0 = [] /\ all opened t0 = held rd ++ held wr) as (-> & Hc0 & Hs0 & Hw0 & Ho0).
    { destruct cmds as [|c2 cmds].
      - apply goes_done_inv in H0 as [-> [= -> -> ->]]. done.
      - next H0 y. apply goes_done_inv in H0 as [-> E]. subst y. apply list.Forall_cons in Hok0 as [(-> & H1 & H2) _].
        split_and!; [done..|]. cbn. unfold held. by rewrite (proj2 (Z.leb_le 0 rd)), (proj2 (Z.leb_le 0 wr)). }
    rewrite !all_app, Hc0, Hs0, Hw0, Ho0. cbn [Z.ltb Z.compare] in H. cbn [mbind prog_bind sys] in H. next H p.
    apply list.Forall_cons in Hok as [Hp Hok]. cbn in Hp. rewrite (proj2 (Z.eqb_neq p 0)) in H by lia.
    apply goes_bind in H as (t1 & t2 & [] & -> & H1 & H). apply goes_bind in H as (t3 & t4 & [] & -> & H3 & H).
    apply close_if_goes in H1 as (Hc1 & Ho1 & Hs1 & Hw1), H3 as (Hc3 & Ho3 & Hs3 & Hw3).
    apply Forall_app in Hok as [_ Hok]. apply Forall_app in Hok as [_ Hok]. destruct (IH _ _ _ _ H Hok) as (-> & Hl & Hw & Hc).
    change (all ?f (Event SFork p :: ?t)) with (f (Event SFork p) ++ all f t). cbn [started closed opened waited app].
    rewrite !all_app, Hc1, Ho1, Hs1, Hw1, Hc3, Ho3, Hs3, Hw3, Hw. cbn [app]. split_and!.
    + f_equal. by rewrite <- app_assoc.
    + cbn. by rewrite Hl.
    + done.
    + rewrite Hc. solve_Permutation.
Qed.

Lemma wait_goes pids : forall last tr r, goes (wait_pipeline pids last) tr r ->
  all waited tr = pids /\ all closed tr = [] /\ all opened tr = [] /\ all started tr = [].
Proof.
  induction pids as [|p pids IH]; intros last tr r H; cbn [wait_pipeline] in H.
  - by apply goes_done_inv in H as [-> _].
  - unfold wait_status in H. cbn [mbind prog_bind sys] in H. next H x. destruct x as [y st].
    apply IH in H as (Hw & Hc & Ho & Hs). split_and!; [cbn; unfold all in *; by rewrite Hw|done..].
Qed.

(** C18: a pipeline gives back what it takes.  In every run of the parent in which each [pipe] and each [fork] succeeds, whatever
    the other calls answer, running a pipeline starts one child for each of its commands (the code collects 16 at most),
    waits for exactly these children, in order, and closes every descriptor it opened exactly once.  Nothing is said of runs
    in which a [pipe] fails: there the function returns at once, with a descriptor open and children not waited for
    ([exec_pipeline_leaks]). *)
Theorem exec_pipeline_balanced fuel s a node depth tr s' a' st :
  goes (exec_pipeline fuel s a node depth) tr (s', a', st) -> Forall parent_ok tr ->
  length (all started tr) = length (collect_pipeline node 16) /\ all waited tr = all started tr /\ all closed tr ≡ₚ all opened tr.
Proof.
  destruct fuel as [|fuel]; [inversion 1|]. cbn [exec_pipeline]; unfold exec_pipeline_step. intros H Hok. destruct (collect_pipeline node 16) as [|c cmds].
  { by apply goes_done_inv in H as [-> _]. }
  apply goes_bind in H as (t1 & t2 & r & -> & H1 & H). apply Forall_app in Hok as [Hok1 Hok2].
  destruct (spawn_goes _ _ _ _ _ _ H1 Hok1) as (-> & Hl & Hw & Hc). cbn [app] in H.
  apply goes_bind in H as (t3 & t4 & last & -> & H2 & H). apply goes_done_inv in H as [-> _].
  apply wait_goes in H2 as (Hw2 & Hc2 & Ho2 & Hs2). rewrite app_nil_r, !all_app, Hw, Hw2, Hc2, Ho2, Hs2, !app_nil_r. done.
Qed.

(** *** Examples *)
Definition pipe3 : ast :=
  AST_PIPE (AST_PIPE (AST_SIMPLE [(str "a", false)] []) (AST_SIMPLE [(str "b", false)] [])) (AST_SIMPLE [(str "c", false)] []).

Lemma exec_pipeline_balanced_witness :
  let tr := [Event SPipe (0, 3, 4); Event SFork 10; Event (SClose 4) 0; Event SPipe (0, 5, 6); Event SFork 11; Event (SClose 3) 0;
             Event (SClose 6) 0; Event SFork 12; Event (SClose 5) 0; Event (SWaitpid 10) (10, 1); Event (SWaitpid 11) (11, 0);
             Event (SWaitpid 12) (12, 7)] in
  length (all started tr) = length (collect_pipeline pipe3 16) /\ all waited tr = all started tr /\ all closed tr ≡ₚ all opened tr.
Proof.
  intros tr. apply (exec_pipeline_balanced 1 shell_init 0 pipe3 0 tr (set_status 7 shell_init) 0 7).
  - repeat econstructor.
  - repeat constructor; done.
Defined.

(** When a pipe cannot be made the function returns at once: the end of the pipe before stays open, and its writer is not waited for. *)
Lemma exec_pipeline_leaks :
  exists tr, goes (exec_pipeline 1 shell_init 0 pipe3 0) tr (shell_init, 0, 1) /\
    all opened tr = [3; 4; 0; 0] /\ all closed tr = [4] /\ all started tr = [10] /\ all waited tr = [].
Proof.
  exists [Event SPipe (0, 3, 4); Event SFork 10; Event (SClose 4) 0; Event SPipe (-1, 0, 0)]. split; [repeat econstructor|done].
Qed.

(** ** The arena of a line *)
(** With a full arena every word is lost: a command does nothing and succeeds.  The arena is not reset between the
    turns of a loop, so that a loop that turns often enough ends up here. *)
Lemma exec_simple_full fuel s ws rs depth :
  Forall (fun w => exists ps, w.1 = render_all ps /\ pieces_ok s ps /\ lenZ (meaning_all s ps) + 1 < SH_MAX_LINE) ws ->
  exec_simple (S fuel) s SH_SCRATCH_SIZE ws rs false depth = Done (s, SH_SCRATCH_SIZE, 0).
Proof.
  intros Hws. cbn [exec_simple]; unfold exec_simple_step. assert (expand_command_words s SH_SCRATCH_SIZE ws depth [] = Done (s, SH_SCRATCH_SIZE, [])) as E; [|by rewrite E].
  induction Hws as [|[w q] ws (ps & Ew & Hok & Hl) _ IH]; [done|]. cbn [fst] in Ew. subst w. cbn [expand_command_words].
  change (negb (lenZ [] <? SH_MAX_ARGS - 1)) with false. cbv iota. unfold expand_word.
  rewrite expand_pieces by (done || change (lenZ []) with 0; lia). cbn [mbind prog_bind app]. unfold arena_strdup, arena_alloc.
  pose proof (lenZ_nonneg (meaning_all s ps)). rewrite (proj2 (Z.ltb_lt _ _)) by lia. exact IH.
Qed.

End ExecProofs.
