(* ===== verification/ShLine.v ===== *)
(** * The line editor and the commands of the interactive shell: [userspace/apps/src/shell.c]

    The file holds two shells, the text of the second one spliced into the middle of the
    first.  This one is the first: lines 1 to 528 and from 3045 on, read without the
    second (the lines 3083 and 3084 inside [expand_tilde] belong to the main loop of the
    other).  [printf] is a class with the one of the library as its instance; other functions of the C library are those of
    [Libc] and [LibcIo].  Strings on the heap are never written after they are made, and
    are kept as values; the heap decides whether there is room for them.  Members of the
    state that are only set are left out. *)
From Stdlib Require Import String.
From S2P Require Import Prelude KernelLib Mm Console Libc LibcIo.
Import CString Libc LibcIo.
Open Scope list_scope.
Open Scope Z_scope.

Module ShLine.

Definition MAX_LINE_LENGTH : Z := 2048.
Definition MAX_ARGS : Z := 256.
Definition MAX_HISTORY : Z := 1000.
Definition MAX_ALIASES : Z := 64.

(** The state of the shell with the environment and the heap of its library and the world outside.  An entry of
    the history is a string with its NUL, or [NULL]. *)
Record shell_state := St {
  current_line : bytes; cursor_pos : Z; line_length : Z;
  history : list (option bytes); history_count : Z; history_index : Z;
  exit_status : Z; debug_mode : Z;
  env_vars : list bytes; env_count : Z;
  aliases : list bytes; alias_count : Z;
  ps1 : bytes; ps2 : bytes; ps4 : bytes;
  environ : env; sheap : heap; io : world
}.

Definition set_line (l : bytes) (c n : Z) (s : shell_state) : shell_state :=
  St l c n (history s) (history_count s) (history_index s) (exit_status s) (debug_mode s) (env_vars s) (env_count s) (aliases s)
    (alias_count s) (ps1 s) (ps2 s) (ps4 s) (environ s) (sheap s) (io s).
Definition set_history (h : list (option bytes)) (n i : Z) (s : shell_state) : shell_state :=
  St (current_line s) (cursor_pos s) (line_length s) h n i (exit_status s) (debug_mode s) (env_vars s) (env_count s) (aliases s)
    (alias_count s) (ps1 s) (ps2 s) (ps4 s) (environ s) (sheap s) (io s).
Definition set_status (x d : Z) (s : shell_state) : shell_state :=
  St (current_line s) (cursor_pos s) (line_length s) (history s) (history_count s) (history_index s) x d (env_vars s) (env_count s)
    (aliases s) (alias_count s) (ps1 s) (ps2 s) (ps4 s) (environ s) (sheap s) (io s).
Definition set_vars (n : Z) (s : shell_state) : shell_state :=
  St (current_line s) (cursor_pos s) (line_length s) (history s) (history_count s) (history_index s) (exit_status s) (debug_mode s)
    (env_vars s) n (aliases s) (alias_count s) (ps1 s) (ps2 s) (ps4 s) (environ s) (sheap s) (io s).
Definition set_aliases (a : list bytes) (n : Z) (s : shell_state) : shell_state :=
  St (current_line s) (cursor_pos s) (line_length s) (history s) (history_count s) (history_index s) (exit_status s) (debug_mode s)
    (env_vars s) (env_count s) a n (ps1 s) (ps2 s) (ps4 s) (environ s) (sheap s) (io s).
Definition set_prompts (a b c : bytes) (s : shell_state) : shell_state :=
  St (current_line s) (cursor_pos s) (line_length s) (history s) (history_count s) (history_index s) (exit_status s) (debug_mode s)
    (env_vars s) (env_count s) (aliases s) (alias_count s) a b c (environ s) (sheap s) (io s).
Definition set_environ (e : env) (s : shell_state) : shell_state :=
  St (current_line s) (cursor_pos s) (line_length s) (history s) (history_count s) (history_index s) (exit_status s) (debug_mode s)
    (env_vars s) (env_count s) (aliases s) (alias_count s) (ps1 s) (ps2 s) (ps4 s) e (sheap s) (io s).
Definition set_heap (h : heap) (s : shell_state) : shell_state :=
  St (current_line s) (cursor_pos s) (line_length s) (history s) (history_count s) (history_index s) (exit_status s) (debug_mode s)
    (env_vars s) (env_count s) (aliases s) (alias_count s) (ps1 s) (ps2 s) (ps4 s) (environ s) h (io s).
Definition set_io (w : world) (s : shell_state) : shell_state :=
  St (current_line s) (cursor_pos s) (line_length s) (history s) (history_count s) (history_index s) (exit_status s) (debug_mode s)
    (env_vars s) (env_count s) (aliases s) (alias_count s) (ps1 s) (ps2 s) (ps4 s) (environ s) (sheap s) w.

(** The commands the shell knows, in the order of the table. *)
Definition builtin_commands : list bytes :=
  (fun n => str n ++ [0]) <$> ["cd"; "echo"; "pwd"; "export"; "unset"; "alias"; "unalias"; "source"; "history"; "set"; "help"; "exit";
    "ls"; "cat"; "clear"; "env"; "setenv"; "unsetenv"; "type"; "which"]%string.

(** How a command ends: with a status, or by leaving the program. *)
Inductive result := Status (code : Z) | Exited (code : Z) | Replaced (path : bytes).

Section Shell.
Context `{Printf}.
(** The break of the kernel; the contents of an uninitialised array of [n] bytes; the steps for a format. *)
Context (brk : Z) (junk : Z -> bytes) (steps : nat).

(** ** Output *)
Definition put (l : bytes) (s : shell_state) : shell_state :=
  set_io (World (input (io s)) (written (io s) ++ [(1, l)])) s.

Definition print (format : bytes) (args : list arg) (s : shell_state) : outcome shell_state :=
  l ← printf format args; Ret (put l s).

Definition on_io (f : world -> outcome world) (s : shell_state) : outcome shell_state := w ← f (io s); Ret (set_io w s).

(** [printf("%s", s)] of the bytes from a pointer on *)
Definition print_str (t : bytes) : shell_state -> outcome shell_state := print (str "%s" ++ [0]) [ArgStr t].

(** ** The prompt *)
(** [strcpy(dest, text); dest += strlen(text); remaining -= strlen(text)] when there is room *)
Definition put_text (text result : bytes) (dest remaining : Z) : option (option (bytes * Z * Z)) :=
  t ← cstr text;
  if lenZ t <? remaining then r ← splice result dest (t ++ [0]); Some (Some (r, dest + lenZ t, remaining - lenZ t))
  else Some None.

Definition name (n : string) : bytes := str n ++ [0].

(** One escape of the prompt, selected by [d]. *)
Definition prompt_escape (e : env) (d : Z) (result : bytes) (dest remaining : Z) : option (bytes * Z * Z) :=
  let here := (result, dest, remaining) in
  let one c := r ← setZ result dest c; Some (r, dest + 1, remaining - 1) in
  if d =? 117 then
    user ← getenv e (name "USER");
    match user with Some user => r ← put_text user result dest remaining; Some (default here r) | None => Some here end
  else if d =? 104 then
    host ← getenv e (name "HOSTNAME");
    r ← match host with Some host => put_text host result dest remaining | None => Some None end;
    match r with
    | Some r => Some r
    | None => r ← put_text (name "localhost") result dest remaining; Some (default here r)
    end
  else if d =? 119 then
    pwd ← getenv e (name "PWD");
    r ← put_text (default (name "/") pwd) result dest remaining; Some (default here r)
  else if d =? 36 then one 36
  else one 92.

Fixpoint prompt_loop (e : env) (prompt result : bytes) (dest remaining : Z) : option (bytes * Z) :=
  match prompt with
  | [] => None
  | c :: p =>
      if (c =? 0) || negb (0 <? remaining) then Some (result, dest)
      else if c =? 92 then
        match p with
        | [] => None
        | d :: p' =>
            if d =? 0 then prompt_loop e p result dest remaining
            else '(result, dest, remaining) ← prompt_escape e d result dest remaining; prompt_loop e p' result dest remaining
        end
      else r ← setZ result dest c; prompt_loop e p r (dest + 1) (remaining - 1)
  end.

Definition prompt_process (e : env) (prompt result : bytes) (size : Z) : option (bytes * Z) :=
  '(result, dest) ← prompt_loop e prompt result 0 (u64 (size - 1));
  result ← setZ result dest 0;
  Some (result, dest).

Definition default_ps1 : bytes := [92; 117; 64; 92; 104; 58; 92; 119; 92; 36; 32; 0].

Definition prompt_update_title (s : shell_state) : outcome shell_state :=
  '(title, _) ← need (prompt_process (environ s) default_ps1 (junk 128) 128);
  on_io (term_set_title steps (junk 128) title) s.

Definition prompt_set_default (s : shell_state) : shell_state :=
  set_prompts default_ps1 (name "> ") (name "+ ") s.

(** ** The line editor *)
(** [printf("\r"); prompt_process(...)] *)
Definition redraw_prompt (prompt expanded : bytes) (s : shell_state) : outcome (bytes * shell_state) :=
  s ← print [13; 0] [] s;
  '(expanded, _) ← need (prompt_process (environ s) prompt expanded 256);
  Ret (expanded, s).

(** The completion has no entries. *)
Definition completion_complete (line : bytes) (cursor_pos : Z) : list bytes := [].

(** [while (space_pos > 0 && line[space_pos - 1] != ' ') space_pos--] *)
Fixpoint word_start (line : bytes) (p : nat) : option nat :=
  match p with O => Some O | S p' => c ← line !! p'; if c =? 32 then Some p else word_start line p' end.

Fixpoint print_matches (ms : list bytes) (s : shell_state) : outcome shell_state :=
  match ms with [] => Ret s | m :: ms' => s ← print (name "%s  ") [ArgStr m] s; print_matches ms' s end.

Definition tab_key (prompt expanded : bytes) (s : shell_state) : outcome (bytes * shell_state) :=
  match completion_complete (current_line s) (cursor_pos s) with
  | [] => Ret (expanded, s)
  | [m] =>
      match_len ← need (strlen m);
      space_pos ← need (word_start (current_line s) (Z.to_nat (cursor_pos s)));
      rest ← need (strncpy (drop space_pos (current_line s)) m (Z.to_nat (2048 - Z.of_nat space_pos - 1)));
      let line := take space_pos (current_line s) ++ rest in
      n ← need (strlen line);
      let s := set_line line (Z.of_nat space_pos + match_len) n s in
      '(expanded, s) ← redraw_prompt prompt expanded s;
      s ← print_str expanded s;
      s ← print_str (current_line s) s;
      s ← print (27 :: name "[K") [] s;
      n ← need (strlen expanded);
      s ← print (27 :: name "[%dC") [ArgInt (cursor_pos s - n)] s;
      Ret (expanded, s)
  | ms =>
      s ← print [10; 0] [] s;
      s ← print_matches ms s;
      s ← print [10; 0] [] s;
      '(expanded, _) ← need (prompt_process (environ s) prompt expanded 256);
      s ← print_str expanded s;
      s ← print_str (current_line s) s;
      Ret (expanded, s)
  end.

(** [for (i = i; i < i + n; i++) line[i - 1] = line[i]] *)
Fixpoint shift_left (n : nat) (i : Z) (line : bytes) : option bytes :=
  match n with O => Some line | S n' => c ← getZ line i; line ← setZ line (i - 1) c; shift_left n' (i + 1) line end.

(** [for (i = i; i > i - n; i--) line[i + 1] = line[i]] *)
Fixpoint shift_right (n : nat) (i : Z) (line : bytes) : option bytes :=
  match n with O => Some line | S n' => c ← getZ line i; line ← setZ line (i + 1) c; shift_right n' (i - 1) line end.

Definition backspace_key (s : shell_state) : outcome shell_state :=
  if 0 <? cursor_pos s then
    s ← on_io (term_cursor_back steps (junk 16) 1) s;
    line ← need (shift_left (Z.to_nat (line_length s - cursor_pos s)) (cursor_pos s) (current_line s));
    let len := line_length s - 1 in
    let cur := cursor_pos s - 1 in
    line ← need (setZ line len 0);
    let s := set_line line cur len s in
    s ← print (27 :: name "[K%s") [ArgStr (drop (Z.to_nat cur) line)] s;
    print (27 :: name "[%dC") [ArgInt (len - cur)] s
  else Ret s.

(** [strcpy(current_line, history[i])] and the positions behind it *)
Definition load_line (h : bytes) (s : shell_state) : outcome shell_state :=
  line ← need (strcpy (current_line s) h);
  n ← need (strlen line);
  Ret (set_line line n n s).

Definition up_key (prompt expanded : bytes) (s : shell_state) : outcome (bytes * shell_state) :=
  if 0 <? history_index s then
    let s := set_history (history s) (history_count s) (history_index s - 1) s in
    h ← need (getZ (history s) (history_index s));
    match h with
    | Some h =>
        s ← load_line h s;
        '(expanded, s) ← redraw_prompt prompt expanded s;
        s ← print_str expanded s;
        s ← print (str "%s" ++ 27 :: name "[K") [ArgStr (current_line s)] s;
        Ret (expanded, s)
    | None => Ret (expanded, s)
    end
  else Ret (expanded, s).

(** The next line of the history, or an empty one behind the last *)
Definition load_next (s : shell_state) : outcome shell_state :=
  if history_index s <? history_count s - 1 then
    let s := set_history (history s) (history_count s) (history_index s + 1) s in
    h ← need (getZ (history s) (history_index s));
    match h with Some h => load_line h s | None => Ret s end
  else line ← need (setZ (current_line s) 0 0); Ret (set_line line 0 0 s).

Definition down_key (prompt expanded : bytes) (s : shell_state) : outcome (bytes * shell_state) :=
  s ← load_next s;
  '(expanded, s) ← redraw_prompt prompt expanded s;
  s ← print (str "%s" ++ 27 :: name "[K") [ArgStr (current_line s)] s;
  Ret (expanded, s).

Definition right_key (s : shell_state) : outcome shell_state :=
  if cursor_pos s <? line_length s then
    print (27 :: name "[C") [] (set_line (current_line s) (cursor_pos s + 1) (line_length s) s)
  else Ret s.

Definition left_key (s : shell_state) : outcome shell_state :=
  if 0 <? cursor_pos s then
    print (27 :: name "[D") [] (set_line (current_line s) (cursor_pos s - 1) (line_length s) s)
  else Ret s.

Definition home_key (prompt expanded : bytes) (s : shell_state) : outcome (bytes * shell_state) :=
  let s := set_line (current_line s) 0 (line_length s) s in
  '(expanded, s) ← redraw_prompt prompt expanded s;
  s ← print_str expanded s;
  Ret (expanded, s).

Definition end_key (s : shell_state) : outcome shell_state :=
  print (27 :: name "[%dC") [ArgInt (line_length s)] (set_line (current_line s) (line_length s) (line_length s) s).

Definition keep (expanded : bytes) (o : outcome shell_state) : outcome (bytes * shell_state) := s ← o; Ret (expanded, s).

Definition read_key (s : shell_state) : option Z * shell_state := let '(c, w) := read1 (io s) in (c, set_io w s).

(** The rest of an escape sequence; both reads must succeed. *)
Definition escape_key (prompt expanded : bytes) (s : shell_state) : outcome (bytes * shell_state) :=
  match read_key s with
  | (None, s) => Ret (expanded, s)
  | (Some a, s) =>
      match read_key s with
      | (None, s) => Ret (expanded, s)
      | (Some b, s) =>
          if a =? 91 then
            if b =? 65 then up_key prompt expanded s
            else if b =? 66 then down_key prompt expanded s
            else if b =? 67 then keep expanded (right_key s)
            else if b =? 68 then keep expanded (left_key s)
            else if b =? 72 then home_key prompt expanded s
            else if b =? 70 then keep expanded (end_key s)
            else Ret (expanded, s)
          else Ret (expanded, s)
      end
  end.

Definition insert_key (c size : Z) (s : shell_state) : outcome shell_state :=
  if line_length s <? size - 2 then
    line ← need (shift_right (Z.to_nat (line_length s - cursor_pos s + 1)) (line_length s) (current_line s));
    line ← need (setZ line (cursor_pos s) c);
    let len := line_length s + 1 in
    let cur := cursor_pos s + 1 in
    line ← need (setZ line len 0);
    let s := set_line line cur len s in
    s ← print (27 :: name "[K%s") [ArgStr (drop (Z.to_nat (cur - 1)) line)] s;
    print (27 :: name "[%dD") [ArgInt (len - cur)] s
  else Ret s.

(** A key other than the end of the line. *)
Definition other_key (c : Z) (prompt expanded : bytes) (size : Z) (s : shell_state) : outcome (bytes * shell_state) :=
  if c =? 9 then tab_key prompt expanded s
  else if (c =? 127) || (c =? 8) then keep expanded (backspace_key s)
  else if c =? 27 then escape_key prompt expanded s
  else if (32 <=? c) && (c <? 127) then keep expanded (insert_key c size s)
  else Ret (expanded, s).

Fixpoint get_line_loop (fuel : nat) (prompt expanded buffer : bytes) (size : Z) (s : shell_state) : outcome (Z * bytes * shell_state) :=
  match fuel with
  | O => More
  | S fuel' =>
      match read_key s with
      | (None, s) => buffer ← need (setZ buffer 0 0); Ret (-1, buffer, s)
      | (Some c, s) =>
          if (c =? 10) || (c =? 13) then
            s ← print [10; 0] [] s;
            buffer ← need (strcpy buffer (current_line s));
            n ← need (strlen buffer);
            Ret (n, buffer, s)
          else
            '(expanded, s) ← other_key c prompt expanded size s;
            get_line_loop fuel' prompt expanded buffer size s
      end
  end.

(** The length of the line, or -1, and the buffer. *)
Definition line_editor_get_line (fuel : nat) (prompt buffer : bytes) (size : Z) (s : shell_state) : outcome (Z * bytes * shell_state) :=
  if size <? 2 then Ret (-1, buffer, s)
  else
    line ← need (setZ (current_line s) 0 0);
    let s := set_line line 0 0 s in
    '(expanded, _) ← need (prompt_process (environ s) prompt (junk 256) 256);
    s ← print_str expanded s;
    get_line_loop fuel prompt expanded buffer size s.

(** ** The history *)
(** [strdup], as the string or [NULL] *)
Definition dup (t : bytes) (s : shell_state) : outcome (option bytes * shell_state) :=
  '(h, p) ← need (strdup brk (sheap s) t);
  l ← need (cstr t);
  Ret (if p =? 0 then None else Some (l ++ [0]), set_heap h s).

Definition line_editor_add_history (line : bytes) (s : shell_state) : outcome shell_state :=
  c ← need (getZ line 0);
  if c =? 0 then Ret s
  else
    duplicate ← (if 0 <? history_count s then
                   last ← need (getZ (history s) (history_count s - 1));
                   match last with Some l => r ← need (strcmp line l); Ret (r =? 0) | None => Ret false end
                 else Ret false);
    if duplicate : bool then Ret s
    else
      let '(h, n) := if MAX_HISTORY <=? history_count s
                     then (drop 1 (history s) ++ drop (Z.to_nat MAX_HISTORY - 1) (history s), history_count s - 1)
                     else (history s, history_count s) in
      '(d, s) ← dup line s;
      h ← need (setZ h n d);
      Ret (set_history h (n + 1) (n + 1) s).

Definition history_add : bytes -> shell_state -> outcome shell_state := line_editor_add_history.

(** [NULL] is [None] inside. *)
Definition history_get (index : Z) (s : shell_state) : option (option bytes) :=
  if (0 <=? index) && (index <? history_count s) then getZ (history s) index else Some None.

Definition history_clear (s : shell_state) : shell_state := set_history (history s) 0 0 s.

(** [snprintf(file, 256, "%s/.bash_history", home)] *)
Definition history_file (home : bytes) : outcome bytes :=
  '(f, _) ← vsnprintf steps (junk 256) 256 (name "%s/.bash_history") [ArgStr home]; Ret f.

(** The lines of the file, at most as many as there are places. *)
Fixpoint load_lines (n : nat) (f : stream) (line : bytes) (s : shell_state) : outcome shell_state :=
  '(line, more) ← need (fgets (junk 1) line 512 f);
  match n with
  | O => Ret s
  | S n' =>
      if (more : bool) && (history_count s <? MAX_HISTORY) then
        k ← need (strcspn line [10; 13; 0]);
        line ← need (setZ line (Z.of_nat k) 0);
        '(d, s) ← dup line s;
        h ← need (setZ (history s) (history_count s) d);
        load_lines n' f line (set_history h (history_count s + 1) (history_index s) s)
      else Ret s
  end.

Definition history_load (s : shell_state) : outcome (Z * shell_state) :=
  home ← need (getenv (environ s) (name "HOME"));
  match home with
  | None => Ret (-1, s)
  | Some home =>
      file ← history_file home;
      '(h, f) ← need (fopen brk (sheap s) file (name "r"));
      let s := set_heap h s in
      match f with
      | None => Ret (-1, s)
      | Some f =>
          s ← load_lines (Z.to_nat MAX_HISTORY) f (junk 512) s;
          '(h, _) ← need (fclose (sheap s) f);
          Ret (0, set_heap h s)
      end
  end.

Fixpoint save_lines (h : list (option bytes)) (f : stream) : outcome unit :=
  match h with
  | [] => Ret tt
  | l :: h' => l ← need l; _ ← vfprintf (junk 256) steps f (str "%s" ++ [10; 0]) [ArgStr l]; save_lines h' f
  end.

Definition history_save (s : shell_state) : outcome (Z * shell_state) :=
  home ← need (getenv (environ s) (name "HOME"));
  match home with
  | None => Ret (-1, s)
  | Some home =>
      file ← history_file home;
      '(h, f) ← need (fopen brk (sheap s) file (name "w"));
      let s := set_heap h s in
      match f with
      | None => Ret (-1, s)
      | Some f =>
          _ ← save_lines (take (Z.to_nat (history_count s)) (history s)) f;
          '(h, _) ← need (fclose (sheap s) f);
          Ret (0, set_heap h s)
      end
  end.

(** ** The environment *)
(** [setenv(name, value, 1)]; the result is ignored. *)
Definition export_var (n v : bytes) (s : shell_state) : outcome shell_state :=
  '(e, _) ← setenv (environ s) (Some n) (Some v) true; Ret (set_environ e s).

Fixpoint export_all (l : list (string * string)) (s : shell_state) : outcome shell_state :=
  match l with [] => Ret s | (n, v) :: l' => s ← export_var (name n) (name v) s; export_all l' s end.

Definition load_environment : shell_state -> outcome shell_state :=
  export_all [("HOME", "/home"); ("PWD", "/"); ("USER", "root"); ("HOSTNAME", "devine"); ("SHELL", "/bin/sh"); ("TERM", "xterm-256color")]%string.

Definition expand_variables (line result : bytes) : option (bytes * Z) := r ← strcpy result line; n ← strlen r; Some (r, n).

Definition expand_tilde (e : env) (path result : bytes) (size : Z) : outcome (bytes * Z) :=
  c ← need (getZ path 0);
  r ← (if c =? 126 then
         home ← need (getenv e (name "HOME"));
         '(r, _) ← match home with
                   | Some home => vsnprintf steps result size (name "%s%s") [ArgStr home; ArgStr (drop 1 path)]
                   | None => vsnprintf steps result size (name "/home%s") [ArgStr (drop 1 path)]
                   end;
         Ret r
       else r ← need (strncpy result path (Z.to_nat (size - 1))); need (setZ r (size - 1) 0));
  n ← need (strlen r);
  Ret (r, n).

Definition get_variable_value (e : env) (n : bytes) : option (option bytes) := getenv e n.

(** ** The commands.  The arguments are the ones that are there, [argv[0]] first. *)
Definition line_of (l : string) : bytes := str l ++ [10; 0].

(** [printf] of each string with the format *)
Fixpoint print_each (format : bytes) (l : list bytes) (s : shell_state) : outcome shell_state :=
  match l with [] => Ret s | x :: l' => s ← print format [ArgStr x] s; print_each format l' s end.

Definition builtin_cd (argv : list bytes) (s : shell_state) : outcome (result * shell_state) :=
  path ← (if lenZ argv =? 1 then home ← need (getenv (environ s) (name "HOME")); Ret (default (name "/") home)
          else need (getZ argv 1));
  '(path, _) ← expand_tilde (environ s) path (junk 256) 256;
  s ← export_var (name "PWD") path s;
  s ← print (line_of "cd: %s") [ArgStr path] s;
  Ret (Status 0, s).

Fixpoint echo_args (first : bool) (l : list bytes) (s : shell_state) : outcome shell_state :=
  match l with
  | [] => Ret s
  | a :: l' =>
      s ← (if first then Ret s else print (name " ") [] s);
      s ← print_str a s;
      echo_args false l' s
  end.

Definition builtin_echo (argv : list bytes) (s : shell_state) : outcome (result * shell_state) :=
  s ← echo_args true (drop 1 argv) s; s ← print [10; 0] [] s; Ret (Status 0, s).

Definition builtin_pwd (argv : list bytes) (s : shell_state) : outcome (result * shell_state) :=
  pwd ← need (getenv (environ s) (name "PWD"));
  s ← print (line_of "%s") [ArgStr (default (name "/") pwd)] s;
  Ret (Status 0, s).

Definition print_env (s : shell_state) : outcome (result * shell_state) :=
  s ← print_each (line_of "%s") (take (Z.to_nat (env_count s)) (env_vars s)) s; Ret (Status 0, s).

Definition builtin_export (argv : list bytes) (s : shell_state) : outcome (result * shell_state) :=
  if lenZ argv =? 1 then print_env s
  else
    a ← need (getZ argv 1);
    eq ← need (strchr a 61);
    s ← match eq with
        | Some k => export_var (take k a ++ [0]) (drop (S k) a) s
        | None => export_var a [0] s
        end;
    Ret (Status 0, s).

Definition builtin_unset (argv : list bytes) (s : shell_state) : outcome (result * shell_state) :=
  if lenZ argv <? 2 then s ← print (line_of "usage: unset VARIABLE") [] s; Ret (Status 1, s)
  else
    a ← need (getZ argv 1);
    '(e, _) ← need (unsetenv (environ s) a);
    Ret (Status 0, set_environ e s).

Definition builtin_alias (argv : list bytes) (s : shell_state) : outcome (result * shell_state) :=
  if lenZ argv =? 1 then
    s ← print_each (line_of "%s") (take (Z.to_nat (alias_count s)) (aliases s)) s; Ret (Status 0, s)
  else if alias_count s <? MAX_ALIASES then
    a ← need (getZ argv 1);
    old ← need (getZ (aliases s) (alias_count s));
    new ← need (strcpy old a);
    l ← need (setZ (aliases s) (alias_count s) new);
    Ret (Status 0, set_aliases l (alias_count s + 1) s)
  else Ret (Status 0, s).

(** The first alias that begins with the argument, from [i] on. *)
Fixpoint find_alias (l : list bytes) (a : bytes) (n : nat) (i : nat) : option (option nat) :=
  match l with
  | [] => Some None
  | x :: l' => r ← strncmp x a n; if r =? 0 then Some (Some i) else find_alias l' a n (S i)
  end.

Definition builtin_unalias (argv : list bytes) (s : shell_state) : outcome (result * shell_state) :=
  if lenZ argv <? 2 then s ← print (line_of "usage: unalias ALIAS") [] s; Ret (Status 1, s)
  else
    a ← need (getZ argv 1);
    n ← need (strlen a);
    found ← need (find_alias (take (Z.to_nat (alias_count s)) (aliases s)) a (Z.to_nat n) 0);
    match found with
    | Some i =>
        l ← need (shift_vars (Z.to_nat (alias_count s - 1) - i) (aliases s) i);
        Ret (Status 0, set_aliases l (alias_count s - 1) s)
    | None => Ret (Status 0, s)
    end.

Definition builtin_source (argv : list bytes) (s : shell_state) : outcome (result * shell_state) :=
  if lenZ argv <? 2 then s ← print (line_of "usage: source FILE") [] s; Ret (Status 1, s)
  else
    a ← need (getZ argv 1);
    s ← print (line_of "source: %s (not implemented)") [ArgStr a] s;
    Ret (Status 0, s).

(** [i] is the number in front of the first of the entries [h]. *)
Fixpoint print_history (i : Z) (h : list (option bytes)) (s : shell_state) : outcome shell_state :=
  match h with
  | [] => Ret s
  | l :: h' => l ← need l; s ← print (line_of "%4d  %s") [ArgInt i; ArgStr l] s; print_history (i + 1) h' s
  end.

Definition builtin_history (argv : list bytes) (s : shell_state) : outcome (result * shell_state) :=
  if lenZ argv =? 1 then
    s ← print_history 1 (take (Z.to_nat (history_count s)) (history s)) s; Ret (Status 0, s)
  else
    a ← need (getZ argv 1);
    r ← need (strcmp a (name "-c"));
    Ret (Status 0, if r =? 0 then history_clear s else s).

Definition builtin_set (argv : list bytes) (s : shell_state) : outcome (result * shell_state) :=
  if lenZ argv =? 1 then print_env s
  else
    a ← need (getZ argv 1);
    on ← need (strcmp a (name "-x"));
    if on =? 0 then s ← print (line_of "Debug mode enabled") [] (set_status (exit_status s) 1 s); Ret (Status 0, s)
    else
      off ← need (strcmp a (name "+x"));
      if off =? 0 then s ← print (line_of "Debug mode disabled") [] (set_status (exit_status s) 0 s); Ret (Status 0, s)
      else Ret (Status 0, s).

Definition builtin_help (argv : list bytes) (s : shell_state) : outcome (result * shell_state) :=
  s ← print (line_of "Built-in commands:") [] s;
  s ← print_each (line_of "  %s") builtin_commands s;
  s ← print (10 :: line_of "Use 'help COMMAND' for more information.") [] s;
  Ret (Status 0, s).

Definition builtin_exit (argv : list bytes) (s : shell_state) : outcome (result * shell_state) :=
  code ← (if 1 <? lenZ argv then a ← need (getZ argv 1); need (atoi a) else Ret (exit_status s));
  Ret (Exited code, set_status code (debug_mode s) s).

Definition builtin_clear (argv : list bytes) (s : shell_state) : outcome (result * shell_state) :=
  w ← need (term_clear_screen (io s)); Ret (Status 0, set_io w s).

Definition builtin_env (argv : list bytes) (s : shell_state) : outcome (result * shell_state) := print_env s.

(** With one argument the value is read behind the arguments that were stored. *)
Definition builtin_setenv (argv : list bytes) (s : shell_state) : outcome (result * shell_state) :=
  if lenZ argv <? 2 then builtin_env argv s
  else
    n ← need (getZ argv 1);
    v ← need (getZ argv 2);
    '(e, r) ← setenv (environ s) (Some n) (Some v) true;
    Ret (Status r, set_environ e s).

Definition builtin_unsetenv (argv : list bytes) (s : shell_state) : outcome (result * shell_state) :=
  if lenZ argv <? 2 then s ← print (line_of "usage: unsetenv VARIABLE") [] s; Ret (Status 1, s)
  else
    a ← need (getZ argv 1);
    '(e, r) ← need (unsetenv (environ s) a);
    Ret (Status r, set_environ e s).

Definition execute_ls (argv : list bytes) (s : shell_state) : outcome (result * shell_state) :=
  s ← print (line_of "ls: listing directory (simulated)") [] s;
  s ← print (line_of "bin  dev  etc  home  proc  tmp  usr") [] s;
  Ret (Status 0, s).

(** The lines of the stream, with fuel *)
Fixpoint cat_lines (fuel : nat) (f : stream) (buffer : bytes) (s : shell_state) : outcome shell_state :=
  '(buffer, more) ← need (fgets (junk 1) buffer 1024 f);
  if more : bool then
    match fuel with O => More | S fuel' => s ← print_str buffer s; cat_lines fuel' f buffer s end
  else Ret s.

Definition execute_cat (argv : list bytes) (s : shell_state) : outcome (result * shell_state) :=
  if lenZ argv <? 2 then s ← print (line_of "usage: cat FILE") [] s; Ret (Status 1, s)
  else
    a ← need (getZ argv 1);
    '(h, f) ← need (fopen brk (sheap s) a (name "r"));
    let s := set_heap h s in
    match f with
    | None => s ← print (line_of "cat: %s: No such file") [ArgStr a] s; Ret (Status 1, s)
    | Some f =>
        s ← cat_lines steps f (junk 1024) s;
        '(h, _) ← need (fclose (sheap s) f);
        Ret (Status 0, set_heap h s)
    end.

(** The command at a place of the table; the last two have none. *)
Definition execute_builtin (builtin_index : nat) (argv : list bytes) (s : shell_state) : outcome (result * shell_state) :=
  match builtin_index with
  | 0 => builtin_cd argv s
  | 1 => builtin_echo argv s
  | 2 => builtin_pwd argv s
  | 3 => builtin_export argv s
  | 4 => builtin_unset argv s
  | 5 => builtin_alias argv s
  | 6 => builtin_unalias argv s
  | 7 => builtin_source argv s
  | 8 => builtin_history argv s
  | 9 => builtin_set argv s
  | 10 => builtin_help argv s
  | 11 => builtin_exit argv s
  | 12 => execute_ls argv s
  | 13 => execute_cat argv s
  | 14 => builtin_clear argv s
  | 15 => builtin_env argv s
  | 16 => builtin_setenv argv s
  | 17 => builtin_unsetenv argv s
  | _ =>
      a ← need (getZ argv 0);
      s ← print (line_of "%s: command not found") [ArgStr a] s;
      Ret (Status 1, s)
  end%nat.

(** The place of a name in the table, from [i] on. *)
Fixpoint find_builtin (cmd : bytes) (l : list bytes) (i : nat) : option (option nat) :=
  match l with
  | [] => Some None
  | n :: l' => r ← strcmp cmd n; if r =? 0 then Some (Some i) else find_builtin cmd l' (S i)
  end.

(** [access] finds every file. *)
Definition access (pathname : bytes) (mode : Z) : Z := 0.

(** What the kernel answers: the process number of [fork], and whether [exec] finds the program. *)
Context (fork_pid : Z) (exec_ok : bool).

(** The status that the parent returns is never written. *)
Definition execute_external_command (argv : list bytes) (s : shell_state) : outcome (result * shell_state) :=
  match argv with
  | [] => Ret (Status 0, s)
  | cmd :: _ =>
      i ← need (find_builtin cmd builtin_commands 0);
      match i with
      | Some i => execute_builtin i argv s
      | None =>
          '(path, _) ← vsnprintf steps (junk 512) 512 (name "/bin/%s") [ArgStr cmd];
          path ← (if access cmd 0 =? 0 then need (strcpy path cmd) else Ret path);
          if fork_pid =? 0 then
            if exec_ok then Ret (Replaced path, s)
            else s ← print (line_of "%s: command not found") [ArgStr cmd] s; Ret (Exited 127, s)
          else if 0 <? fork_pid then Undef
          else s ← print (line_of "fork failed") [] s; Ret (Status 1, s)
      end
  end.

(** ** The main loop *)
(** The strings of [strtok] one after the other, at most [n] of them. *)
Fixpoint tokens (n : nat) (line : bytes) (saveptr : option nat) (given : bool) (s : shell_state) : outcome (list (option bytes) * shell_state) :=
  '(line, saveptr, token) ← need (strtok line saveptr given [32; 9; 10; 13; 0]);
  match token, n with
  | Some t, S n' =>
      '(d, s) ← dup (drop t line) s;
      '(r, s) ← tokens n' line saveptr false s;
      Ret (d :: r, s)
  | _, _ => Ret ([], s)
  end.

(** The tokens of a line.  When there is no line, [strtok] goes on where it stopped, which is nowhere. *)
Definition parse_command_line (line : option bytes) (s : shell_state) : outcome (list (option bytes) * shell_state) :=
  match line with
  | Some line => tokens (Z.to_nat (MAX_ARGS - 1)) line None true s
  | None => tokens (Z.to_nat (MAX_ARGS - 1)) [] None false s
  end.

(** What a pointer to the tokens shows after [parse_command_line] has returned: the array was one of its locals. *)
Definition after_return (argv : list (option bytes)) : option (list (option bytes)) := None.

(** The loop of [free_parsed_command] over the arguments, to the first [NULL]. *)
Fixpoint free_args (argv : list (option bytes)) (s : shell_state) : outcome shell_state :=
  match argv with
  | [] => Undef
  | None :: _ => Ret s
  | Some _ :: l => free_args l s
  end.

Definition free_parsed_command (argv : option (list (option bytes))) (s : shell_state) : outcome shell_state :=
  argv ← need argv; free_args argv s.

(** The command of a line of which [argc] tokens were stored. *)
Definition run_command (argc : Z) (argv : option (list (option bytes))) (s : shell_state) : outcome (result * shell_state) :=
  argv ← need argv;
  args ← need (mapM id (take (Z.to_nat argc) argv));
  cmd ← need (getZ args 0);
  i ← need (find_builtin cmd builtin_commands 0);
  match i with Some i => execute_builtin i args s | None => execute_external_command args s end.

Fixpoint shell_run (fuel : nat) (line : bytes) (s : shell_state) : outcome (result * shell_state) :=
  match fuel with
  | O => More
  | S fuel' =>
      s ← prompt_update_title s;
      '(len, line, s) ← line_editor_get_line fuel' (ps1 s) line MAX_LINE_LENGTH s;
      if len <? 0 then Ret (Status (exit_status s), s)
      else
        s ← (if 0 <? len then line_editor_add_history line s else Ret s);
        if len =? 0 then shell_run fuel' line s
        else
          s ← (if negb (debug_mode s =? 0) then print (line_of "%s%s") [ArgStr (ps4 s); ArgStr line] s else Ret s);
          '(line_copy, s) ← dup line s;
          '(stored, s) ← parse_command_line line_copy s;
          let argc := lenZ stored in
          let argv := after_return stored in
          '(r, s) ← (if 0 <? argc then run_command argc argv s else Ret (Status (exit_status s), s));
          match r with
          | Status code =>
              let s := set_status code (debug_mode s) s in
              s ← free_parsed_command argv s;
              shell_run fuel' line s
          | _ => Ret (r, s)
          end
  end.

Definition line_editor_init (s : shell_state) : outcome shell_state :=
  let s := set_line (current_line s) 0 0 s in
  let s := set_history (history s) 0 0 s in
  let s := set_status 0 0 s in
  let s := set_vars 0 s in
  let s := set_aliases (aliases s) 0 s in
  let s := prompt_set_default s in
  '(_, s) ← history_load s;
  s ← load_environment s;
  w ← need (term_enable_bracketed_paste (io s));
  on_io (term_set_title steps (junk 128) (name "Shell")) (set_io w s).

Definition load_startup_files : shell_state -> outcome shell_state := load_environment.

(** [term_init] and [completion_init] touch nothing here. *)
Definition shell_init (s : shell_state) : outcome shell_state :=
  s ← load_startup_files s;
  s ← line_editor_init s;
  Ret (prompt_set_default s).

Definition shell_cleanup (s : shell_state) : outcome shell_state :=
  '(_, s) ← history_save s;
  w ← need (term_disable_bracketed_paste (io s));
  Ret (set_io w s).

Definition main (fuel : nat) (s : shell_state) : outcome (result * shell_state) :=
  s ← shell_init s;
  '(r, s) ← shell_run fuel (junk 2048) s;
  match r with
  | Status _ => s ← shell_cleanup s; Ret (r, s)
  | _ => Ret (r, s)
  end.
End Shell.

(** The state before [main]: static storage is zero, the environment is empty. *)
Definition start (input : bytes) : shell_state :=
  St (replicate 2048 0) 0 0 (replicate 1000 None) 0 0 0 0 (replicate 128 (replicate 256 0)) 0 (replicate 64 (replicate 512 0)) 0 [] [] []
    (Env (replicate 64 (replicate 256 0)) 0) (Heap 0 0 (fun _ => 0)) (World input []).
End ShLine.
