(* ===== verification/ShLineProofs.v ===== *)
(** * The line editor: proofs

    The prompt stays inside its buffer.  With the [printf] of the library, which never
    returns from [%d], the keys that print no number move over the line and the history
    as they should; at the first character that is typed the editor hangs. *)
From Stdlib Require Import String.
From S2P Require Import Prelude KernelLib Mm Console Libc LibcIo ShLine.
Import CString Libc LibcIo ShLine.
Open Scope list_scope.
Open Scope Z_scope.

Module LineProofs.

(** ** The environment as the prompt sees it *)
Lemma getenv_total e kvs n rest : env_ok e kvs -> nul_free n ->
  exists r, getenv e (n ++ 0 :: rest) = Some r /\
    match r with Some v => exists t rest', v = t ++ 0 :: rest' /\ nul_free t | None => True end.
Proof.
  intros He Hn. pose proof He as [_ _ _ Hv]. destruct (env_find_spec (in_use e) kvs n rest Hv Hn) as (r & E & Hr).
  destruct r as [[i o]|].
  - destruct Hr as (kv & Hi & _ & Hp & Hf). destruct (getenv_hit e kvs n rest i kv He Hn Hi Hp Hf) as [rest' E'].
    exists (Some (kv.2 ++ 0 :: rest')). split; [done|]. exists kv.2, rest'. split; [done|].
    by destruct (Forall2_lookup_r _ _ _ _ _ Hv Hi) as (var & _ & _ & _ & _ & _ & H).
  - exists None. split; [|done]. unfold getenv. by rewrite E.
Qed.

Lemma name_env e kvs n : env_ok e kvs -> forallb (fun c => negb (c =? 0)) (str n) = true ->
  exists r, getenv e (name n) = Some r /\ match r with Some v => exists t rest', v = t ++ 0 :: rest' /\ nul_free t | None => True end.
Proof. intros He Hn. apply (getenv_total e kvs (str n) []); [done|by apply nul_free_lit]. Qed.

(** The value of a variable. *)
Definition value (e : env) (n : string) : option bytes :=
  match getenv e (name n) with Some (Some v) => cstr v | _ => None end.

(** ** The prompt *)
(** What an escape stands for, and the prompt with all of them replaced. *)
Definition piece (e : env) (d : Z) : bytes :=
  if d =? 117 then default [] (value e "USER")
  else if d =? 104 then default (str "localhost") (value e "HOSTNAME")
  else if d =? 119 then default (str "/") (value e "PWD")
  else if d =? 36 then [36] else [92].

Fixpoint prompt_text (e : env) (prompt : bytes) : bytes :=
  match prompt with
  | [] => []
  | c :: p =>
      if c =? 92 then match p with [] => [] | d :: p' => piece e d ++ prompt_text e p' end
      else c :: prompt_text e p
  end.

Lemma put_text_spec v r t rest remaining : nul_free v -> lenZ rest = remaining + 1 ->
  put_text (v ++ 0 :: r) (t ++ rest) (lenZ t) remaining =
    if lenZ v <? remaining then Some (Some ((t ++ v) ++ 0 :: drop (length v + 1) rest, lenZ t + lenZ v, remaining - lenZ v)) else Some None.
Proof.
  intros Hv Hr. unfold put_text. rewrite cstr_spec by done. cbn [mbind option_bind]. destruct (Z.ltb_spec (lenZ v) remaining); [|done].
  rewrite splice_Some by (rewrite ?lenZ_app; unfold lenZ in *; cbn [length]; lia). cbn [mbind option_bind]. do 4 f_equal.
  replace (Z.to_nat (lenZ t)) with (length t) by (unfold lenZ; lia). rewrite take_app_length, drop_app_ge by lia.
  rewrite <- !app_assoc. cbn [app]. do 4 f_equal. rewrite length_app. cbn [length]. lia.
Qed.

(** What writing a piece does: some text [p] that is free of NULs is added, and it is the piece if that fits. *)
Definition adds (t rest : bytes) (remaining : Z) (full : bytes) (o : option (bytes * Z * Z)) : Prop :=
  exists p rest', o = Some ((t ++ p) ++ rest', lenZ (t ++ p), remaining - lenZ p) /\ nul_free p /\
    lenZ rest' = remaining - lenZ p + 1 /\ lenZ p <= remaining /\ (lenZ full < remaining -> p = full).

Lemma adds_nothing t rest remaining full : lenZ rest = remaining + 1 -> 0 <= remaining -> (lenZ full < remaining -> full = []) ->
  adds t rest remaining full (Some (t ++ rest, lenZ t, remaining)).
Proof.
  intros Hr H0 Hf. exists [], rest. rewrite app_nil_r, Z.sub_0_r. split; [done|]. split; [constructor|]. split; [done|].
  split; [done|]. intros H. symmetry. auto.
Qed.

Lemma adds_text v r t rest remaining : nul_free v -> lenZ rest = remaining + 1 -> 0 <= remaining ->
  exists o, put_text (v ++ 0 :: r) (t ++ rest) (lenZ t) remaining = Some o /\
    adds t rest remaining v (Some (default (t ++ rest, lenZ t, remaining) o)) /\ (lenZ v < remaining -> o <> None).
Proof.
  intros Hv Hr H0. rewrite put_text_spec by done. destruct (Z.ltb_spec (lenZ v) remaining) as [H|H]; eexists; (split; [done|]).
  - split; [|done]. exists v, (0 :: drop (length v + 1) rest). cbn [default]. rewrite lenZ_app. split; [done|]. split; [done|].
    split; [unfold lenZ in *; cbn [length]; rewrite length_drop; lia|]. split; [lia|done].
  - cbn [default]. split; [|lia]. apply adds_nothing; [done|done|lia].
Qed.

Lemma adds_one c t rest remaining : c <> 0 -> lenZ rest = remaining + 1 -> 0 < remaining ->
  adds t rest remaining [c] (r ← setZ (t ++ rest) (lenZ t) c; Some (r, lenZ t + 1, remaining - 1)).
Proof.
  intros Hc Hr H0. rewrite setZ_Some by (rewrite lenZ_app; pose proof (lenZ_nonneg t); lia). cbn [mbind option_bind].
  exists [c], (drop 1 rest). replace (Z.to_nat (lenZ t)) with (length t + 0)%nat by (unfold lenZ; lia).
  rewrite insert_app_r, lenZ_app. destruct rest as [|x rest]; [unfold lenZ in Hr; cbn in Hr; lia|]. cbn.
  rewrite <- app_assoc. split; [done|]. split; [by repeat constructor|]. unfold lenZ in *; cbn [length] in *. split; [rewrite ?drop_0; lia|]. split; [lia|done].
Qed.

Lemma prompt_escape_spec e kvs d t rest remaining : env_ok e kvs -> lenZ rest = remaining + 1 -> 0 < remaining ->
  adds t rest remaining (piece e d) (prompt_escape e d (t ++ rest) (lenZ t) remaining).
Proof.
  intros He Hr H0. unfold prompt_escape, piece, value. destruct (d =? 117).
  { destruct (name_env e kvs "USER" He eq_refl) as (r & -> & H). cbn [mbind option_bind]. destruct r as [v|]; [|apply adds_nothing; cbn; (lia || done)].
    destruct H as (v' & r' & -> & Hv). rewrite cstr_spec by done. cbn [default from_option id].
    destruct (adds_text v' r' t rest remaining) as (o & -> & Ho & _); [done|done|lia|]. done. }
  destruct (d =? 104).
  { destruct (name_env e kvs "HOSTNAME" He eq_refl) as (r & -> & H). cbn [mbind option_bind].
    destruct (adds_text (str "localhost") [] t rest remaining) as (o & Eo & Ho & Hn); [by apply nul_free_lit|done|lia|].
    change (str "localhost" ++ [0]) with (name "localhost") in Eo. destruct r as [v|].
    - destruct H as (v' & r' & -> & Hv). rewrite cstr_spec by done. cbn [default from_option id].
      destruct (adds_text v' r' t rest remaining) as (o' & -> & Ho' & Hn'); [done|done|lia|]. cbn [mbind option_bind].
      destruct o' as [x|]; [done|]. rewrite Eo. cbn [mbind option_bind]. destruct Ho as (p & rest' & E & H1 & H2 & H3 & H4).
      exists p, rest'. repeat (split; [done|]). intros H. by destruct (Hn' H).
    - cbn [mbind option_bind]. rewrite Eo. done. }
  destruct (d =? 119).
  { destruct (name_env e kvs "PWD" He eq_refl) as (r & -> & H). cbn [mbind option_bind]. destruct r as [v|].
    - destruct H as (v' & r' & -> & Hv). rewrite cstr_spec by done. cbn [default from_option id].
      destruct (adds_text v' r' t rest remaining) as (o & -> & Ho & _); [done|done|lia|]. done.
    - cbn [default from_option id]. destruct (adds_text (str "/") [] t rest remaining) as (o & Eo & Ho & _); [by apply nul_free_lit|done|lia|].
      change (str "/" ++ [0]) with (name "/") in Eo. by rewrite Eo. }
  destruct (d =? 36); by apply adds_one.
Qed.

Lemma prompt_loop_spec e kvs n : env_ok e kvs -> forall prompt r t rest remaining, (length prompt <= n)%nat -> nul_free prompt -> nul_free t ->
  lenZ rest = remaining + 1 -> 0 <= remaining ->
  exists p rest', prompt_loop e (prompt ++ 0 :: r) (t ++ rest) (lenZ t) remaining = Some ((t ++ p) ++ rest', lenZ (t ++ p)) /\
    nul_free p /\ lenZ rest' = remaining - lenZ p + 1 /\ lenZ p <= remaining /\ (lenZ (prompt_text e prompt) < remaining -> p = prompt_text e prompt).
Proof.
  intros He. induction n as [|n IH]; intros prompt r t rest remaining Hn Hp Ht Hr H0;
    assert (forall full : bytes, (lenZ full < remaining -> full = []) -> exists p rest', Some (t ++ rest, lenZ t) = Some ((t ++ p) ++ rest', lenZ (t ++ p)) /\
      nul_free p /\ lenZ rest' = remaining - lenZ p + 1 /\ lenZ p <= remaining /\ (lenZ full < remaining -> p = full)) as Hstop
      by (intros full Hf; exists [], rest; rewrite app_nil_r, Z.sub_0_r; repeat (split; [done || constructor|]); intros H; symmetry; auto);
    destruct prompt as [|c p]; cbn [length app] in *; try lia; [by apply Hstop|by apply Hstop|].
  apply list.Forall_cons in Hp as [Hc Hp]. cbn [prompt_loop prompt_text]. rewrite (proj2 (Z.eqb_neq c 0)) by done. cbn [orb].
  destruct (Z.ltb_spec 0 remaining) as [H|H]; cbn [negb]; [|by apply Hstop; pose proof (lenZ_nonneg (if c =? 92 then match p with [] => [] | d :: p' => piece e d ++ prompt_text e p' end else c :: prompt_text e p)); lia].
  (* one piece [q] and the rest of the prompt *)
  assert (forall full p' o, (length p' <= n)%nat -> nul_free p' -> adds t rest remaining full o ->
    exists q rest', ('(result, dest, rem) ← o; prompt_loop e (p' ++ 0 :: r) result dest rem) = Some ((t ++ q) ++ rest', lenZ (t ++ q)) /\
      nul_free q /\ lenZ rest' = remaining - lenZ q + 1 /\ lenZ q <= remaining /\
      (lenZ (full ++ prompt_text e p') < remaining -> q = full ++ prompt_text e p')) as Hgo.
  { intros full p' o Hl Hp' (q & rest1 & -> & Hq & Hr1 & Hq1 & Hq2). cbn [mbind option_bind].
    destruct (IH p' r (t ++ q) rest1 (remaining - lenZ q)) as (q' & rest2 & -> & Hq' & Hr2 & Hq3 & Hq4); [done|done|by apply Forall_app|done|lia|].
    exists (q ++ q'), rest2. rewrite app_assoc. split; [done|]. rewrite !(lenZ_app q q'). split; [by apply Forall_app|]. split; [lia|]. split; [lia|].
    rewrite lenZ_app. pose proof (lenZ_nonneg (prompt_text e p')). intros Hl'. rewrite Hq2 in * by lia. by rewrite Hq4 by lia. }
  destruct (Z.eqb_spec c 92) as [->|H92].
  - destruct p as [|d p]; cbn [app].
    + cbn. by apply Hstop.
    + apply list.Forall_cons in Hp as [Hd Hp]. rewrite (proj2 (Z.eqb_neq d 0)) by done.
      apply (Hgo (piece e d) p (prompt_escape e d (t ++ rest) (lenZ t) remaining)); [cbn in Hn; lia|done|by eapply prompt_escape_spec].
  - pose proof (Hgo [c] p _ ltac:(lia) Hp (adds_one c t rest remaining Hc Hr H)) as Hres.
    destruct (setZ (t ++ rest) (lenZ t) c); exact Hres.
Qed.

Lemma prompt_process_spec e kvs prompt r result size :
  env_ok e kvs -> nul_free prompt -> 0 < size < 2 ^ 32 -> lenZ result = size ->
  exists t rest, prompt_process e (prompt ++ 0 :: r) result size = Some (t ++ 0 :: rest, lenZ t) /\
    lenZ (t ++ 0 :: rest) = size /\ nul_free t /\ (lenZ (prompt_text e prompt) < size - 1 -> t = prompt_text e prompt).
Proof.
  intros He Hp Hs Hl. change (2 ^ 32) with 4294967296 in Hs. unfold prompt_process. rewrite u64_id by (red; lia).
  destruct (prompt_loop_spec e kvs (length prompt) He prompt r [] result (size - 1)) as (p & rest & E & Hp' & Hr & H1 & H2);
    [lia|done|constructor|lia|lia|].
  cbn [app] in E. change (lenZ (@nil Z)) with 0 in E. rewrite E. cbn [mbind option_bind].
  destruct rest as [|x rest]; [unfold lenZ in Hr at 1; cbn in Hr; lia|].
  rewrite setZ_Some by (rewrite lenZ_app; unfold lenZ; cbn [length]; lia). cbn [mbind option_bind].
  exists p, rest. replace (Z.to_nat (lenZ p)) with (length p + 0)%nat by (unfold lenZ; lia). rewrite insert_app_r. cbn.
  split; [done|]. split; [rewrite lenZ_app; unfold lenZ in *; cbn [length] in *; lia|]. split; [done|]. intros H. apply H2. lia.
Qed.

(** The characters behind the backslashes of a prompt. *)
Fixpoint escapes (prompt : bytes) : list Z :=
  match prompt with
  | [] => []
  | c :: p => if c =? 92 then match p with [] => [] | d :: p' => d :: escapes p' end else escapes p
  end.

(** C37: the prompt.  For every environment and every prompt, [prompt_process] stays inside its buffer and leaves a
    string there that it returns the length of.  When the prompt has no other escapes than those for the user, the
    host, the directory and the backslash itself, and the text with the values of [USER], [HOSTNAME] and [PWD] put in
    leaves a place free, that text is the result.  Nothing is said of the text for other escapes: for most of those
    that are documented, [prompt_process] writes a backslash. *)
Theorem prompt_process_correct e kvs prompt r result size :
  env_ok e kvs -> nul_free prompt -> 0 < size < 2 ^ 32 -> lenZ result = size ->
  exists t rest, prompt_process e (prompt ++ 0 :: r) result size = Some (t ++ 0 :: rest, lenZ t) /\
    lenZ (t ++ 0 :: rest) = size /\ nul_free t /\
    (Forall (fun d => d ∈ [117; 104; 119; 92]) (escapes prompt) -> lenZ (prompt_text e prompt) < size - 1 -> t = prompt_text e prompt).
Proof.
  intros He Hp Hs Hl. destruct (prompt_process_spec e kvs prompt r result size He Hp Hs Hl) as (t & rest & E & H1 & H2 & H3). eauto 6.
Qed.

Lemma prompt_process_correct_witness :
  exists t rest, prompt_process env0 ([92; 119; 36] ++ 0 :: []) (replicate 8 7) 8 = Some (t ++ 0 :: rest, lenZ t) /\
    lenZ (t ++ 0 :: rest) = 8 /\ nul_free t /\ t = [47; 36].
Proof.
  destruct (prompt_process_correct env0 _ [92; 119; 36] [] (replicate 8 7) 8 env0_ok) as (t & rest & E & H1 & H2 & H3);
    [by repeat constructor|done|done|]. exists t, rest. split; [exact E|]. split; [exact H1|]. split; [exact H2|].
  rewrite H3; [vm_compute; reflexivity| |vm_compute; reflexivity].
  constructor; [|constructor]. by apply (bool_decide_eq_true_1 (119 ∈ [117; 104; 119; 92])).
Defined.

(** ** Moving the end of the line *)
Lemma shift_right_spec mid : forall pre x post,
  shift_right (length mid) (lenZ (pre ++ mid) - 1) (pre ++ mid ++ x :: post) = Some (pre ++ [default x (head mid)] ++ mid ++ post).
Proof.
  induction mid as [|z mid IH] using rev_ind; intros pre x post; [by cbn|].
  rewrite length_app, Nat.add_comm. cbn [length Nat.add shift_right]. rewrite <- !app_assoc. cbn [app].
  assert (lenZ (pre ++ mid ++ [z]) - 1 = Z.of_nat (length (pre ++ mid))) as -> by (rewrite app_assoc, lenZ_app; unfold lenZ; cbn [length]; lia).
  rewrite (app_assoc pre mid (z :: x :: post)), getZ_nat, list_lookup_middle by done. cbn [mbind option_bind].
  rewrite setZ_Some by (rewrite lenZ_app; unfold lenZ; cbn [length]; lia). cbn [mbind option_bind].
  replace (Z.to_nat (Z.of_nat (length (pre ++ mid)) + 1)) with (length (pre ++ mid) + 1)%nat by lia. rewrite insert_app_r. cbn [insert list_insert].
  replace (Z.of_nat (length (pre ++ mid))) with (lenZ (pre ++ mid)) by done. rewrite <- app_assoc, IH. f_equal. f_equal.
  destruct mid; cbn; by rewrite <- ?app_assoc.
Qed.

(** A NUL at the end of a text that is there *)
Lemma setZ_end {A} (l : list A) x rest y : setZ (l ++ x :: rest) (lenZ l) y = Some (l ++ y :: rest).
Proof.
  rewrite setZ_Some by (rewrite lenZ_app; unfold lenZ; cbn [length]; lia).
  replace (Z.to_nat (lenZ l)) with (length l + 0)%nat by (unfold lenZ; lia). by rewrite insert_app_r.
Qed.

Lemma strcpy_spec t : forall dest r, nul_free t -> lenZ t < lenZ dest ->
  strcpy dest (t ++ 0 :: r) = Some (t ++ 0 :: drop (length t + 1) dest).
Proof.
  induction t as [|c t IH]; intros [|x dest] r Ht Hl; unfold lenZ in Hl; cbn [length app strcpy] in *; try lia; [done|].
  apply list.Forall_cons in Ht as [Hc Ht]. rewrite (proj2 (Z.eqb_neq c 0)) by done. rewrite IH by (unfold lenZ; auto; lia). done.
Qed.

(** ** The editor as a zipper *)
Record zipper := Zip { before : bytes; after : bytes; index : Z }.

(** The keys that print no number, and the bytes they send. *)
Inductive key := Up | Down | Right_ | Left_ | Home.

Definition enc (k : key) : bytes :=
  match k with Up => [27; 91; 65] | Down => [27; 91; 66] | Right_ => [27; 91; 67] | Left_ => [27; 91; 68] | Home => [27; 91; 72] end.

(** The text of an entry of the history, when there is one. *)
Definition entry (hs : list (option bytes)) (i : Z) : option bytes := h ← getZ hs i; h ← h; cstr h.

(** What a key means: [hs] is the history of [n] lines. *)
Definition press (hs : list (option bytes)) (n : Z) (z : zipper) (k : key) : zipper :=
  let '(Zip l r i) := z in
  match k with
  | Up => if 0 <? i then match entry hs (i - 1) with Some t => Zip t [] (i - 1) | None => Zip l r (i - 1) end else z
  | Down => if i <? n - 1 then match entry hs (i + 1) with Some t => Zip t [] (i + 1) | None => Zip l r (i + 1) end else Zip [] [] i
  | Right_ => match r with [] => z | c :: r' => Zip (l ++ [c]) r' i end
  | Left_ => match reverse l with [] => z | c :: l' => Zip (reverse l') (c :: r) i end
  | Home => Zip [] (l ++ r) i
  end.

(** How long a line of the history may be: it must fit the buffer of [size] bytes of the caller and, with the control
    sequences printed around it, the 256 bytes in which [printf] makes its text. *)
Definition limit (size : Z) : Z := Z.min (size - 2) 251.

(** What the editor leaves alone: everything but the line, the place in the history, input and output. *)
Definition frame (s : shell_state) : shell_state :=
  set_io (World [] []) (set_line [] 0 0 (set_history (history s) (history_count s) 0 s)).

(** The history is one the editor can show. *)
Definition history_ok (size : Z) (s : shell_state) : Prop :=
  0 <= history_count s <= lenZ (history s) /\
  forall i h, getZ (history s) i = Some (Some h) -> exists t, h = t ++ [0] /\ nul_free t /\ lenZ t <= limit size.

(** The editor [s] shows the zipper [z]; [f] is the frame of the state and [inp] what is still to be read. *)
Record shows (size : Z) (f : shell_state) (inp : bytes) (z : zipper) (s : shell_state) : Prop := {
  sw_line : exists rest, current_line s = before z ++ after z ++ 0 :: rest;
  sw_room : lenZ (current_line s) = 2048;
  sw_cursor : cursor_pos s = lenZ (before z);
  sw_length : line_length s = lenZ (before z ++ after z);
  sw_text : nul_free (before z ++ after z);
  sw_fits : lenZ (before z ++ after z) <= limit size;
  sw_index : history_index s = index z /\ 0 <= index z <= history_count s;
  sw_history : history_ok size s;
  sw_env : exists kvs, env_ok (environ s) kvs;
  sw_frame : frame s = f;
  sw_input : input (io s) = inp
}.

Lemma shows_put size f inp z l s : shows size f inp z s -> shows size f inp z (put l s).
Proof. intros [? ? ? ? ? ? ? ? ? ? ?]. by constructor. Qed.

Lemma frame_history size f inp z s : shows size f inp z s -> history s = history f /\ history_count s = history_count f.
Proof. intros H. by rewrite <- (sw_frame _ _ _ _ _ H). Qed.

(** The line as a text [l] before the cursor and [r] behind it. *)
Lemma shows_line size f inp z s l r rest :
  shows size f inp z s -> lenZ (l ++ r ++ 0 :: rest) = 2048 -> nul_free (l ++ r) -> lenZ (l ++ r) <= limit size ->
  shows size f inp (Zip l r (index z)) (set_line (l ++ r ++ 0 :: rest) (lenZ l) (lenZ (l ++ r)) s).
Proof. intros [? ? ? ? ? ? ? ? ? ? ?] H1 H2 H3. constructor; try done. by exists rest. Qed.

Lemma shows_index size f inp z s i : shows size f inp z s -> 0 <= i <= history_count s ->
  shows size f inp (Zip (before z) (after z) i) (set_history (history s) (history_count s) i s).
Proof. intros [? ? ? ? ? ? ? ? ? ? ?] Hi. by constructor. Qed.

(** The buffer when [c] is typed between [l] and [r]. *)
Lemma insert_buffer l r c x rest :
  exists b1 b2, shift_right (Z.to_nat (lenZ (l ++ r) - lenZ l + 1)) (lenZ (l ++ r)) (l ++ r ++ 0 :: x :: rest) = Some b1 /\
    setZ b1 (lenZ l) c = Some b2 /\ setZ b2 (lenZ (l ++ r) + 1) 0 = Some ((l ++ [c]) ++ r ++ 0 :: rest).
Proof.
  replace (Z.to_nat (lenZ (l ++ r) - lenZ l + 1)) with (length (r ++ [0])) by (rewrite lenZ_app, length_app; unfold lenZ; cbn [length]; lia).
  pose proof (shift_right_spec (r ++ [0]) l x rest) as E. rewrite <- (app_assoc r [0]) in E. cbn [app] in E.
  replace (lenZ (l ++ r ++ [0]) - 1) with (lenZ (l ++ r)) in E by (rewrite !lenZ_app; unfold lenZ; cbn [length]; lia).
  rewrite E. cbn [app]. do 2 eexists. split; [done|]. split; [apply setZ_end|].
  replace (lenZ (l ++ r) + 1) with (lenZ ((l ++ [c]) ++ r)) by (rewrite !lenZ_app; unfold lenZ; cbn [length]; lia).
  replace (l ++ c :: (r ++ [0]) ++ rest) with (((l ++ [c]) ++ r) ++ 0 :: rest) by by rewrite <- !app_assoc.
  rewrite setZ_end. by rewrite <- !app_assoc.
Qed.

Lemma libc_print stack n format args l s : lenZ stack = 256 -> (length format <= n)%nat -> forallb is_str args = true ->
  std_text format args = Some l -> lenZ l < 256 -> @print (libc_printf stack n) format args s = Ret (put l s).
Proof.
  intros Hst Hn Ha E Hl. unfold print, printf, libc_printf.
  rewrite (vprintf_fits stack n format args l) by (done || by apply (vsprintf_std (length format))). by rewrite (proj2 (Z.ltb_lt _ _)) by lia.
Qed.

(** A number is never printed. *)
Lemma libc_print_number stack n a b k s : a <> 0 -> a <> 37 -> @print (libc_printf stack n) (27 :: a :: 37 :: 100 :: b) [ArgInt k] s = More.
Proof.
  intros Ha0 Ha. unfold print, printf, libc_printf, vprintf, vsnprintf.
  assert (vsprintf n (27 :: a :: 37 :: 100 :: b) [ArgInt k] = More) as ->; [|done].
  destruct n as [|[|n]]; [done|done|]. cbn [vsprintf]. change (27 =? 0) with false. change (27 =? 37) with false. cbn [andb].
  rewrite (proj2 (Z.eqb_neq a 0)), (proj2 (Z.eqb_neq a 37)) by done. cbn [andb]. by rewrite vsprintf_d_diverges.
Qed.

Lemma short_text (t r : bytes) k : lenZ (t ++ 0 :: r) = k -> lenZ t < k.
Proof. rewrite lenZ_app. unfold lenZ. cbn [length]. lia. Qed.

Section Keys.
(** The stack buffer of [printf] and the steps allowed for it, and what the other buffers on the stack hold. *)
Context (stack : bytes) (n : nat) (Hstack : lenZ stack = 256) (Hn : (8 <= n)%nat).
Local Instance library : Printf := libc_printf stack n.
Context (junk : Z -> bytes) (steps : nat).
(** The prompt, the size of the caller's buffer and what the editor leaves alone. *)
Context (prompt : bytes) (pr : bytes) (Hprompt : nul_free prompt) (size : Z) (Hsize : 2 <= size <= 2048) (f : shell_state).
Let shown := shows size f.
Let pressed := press (history f) (history_count f).

Lemma print_std format args l s : (length format <= 8)%nat -> forallb is_str args = true -> std_text format args = Some l -> lenZ l < 256 ->
  print format args s = Ret (put l s).
Proof. intros Hf Ha E Hl. apply libc_print; [done|lia|done..]. Qed.

Lemma print_text fmt t r s l : (length fmt <= 8)%nat -> (forall x, cstr x = Some t -> std_text fmt [ArgStr x] = Some l) -> nul_free t ->
  lenZ l < 256 -> print fmt [ArgStr (t ++ 0 :: r)] s = Ret (put l s).
Proof. intros Hl Hf Ht Hll. apply print_std; [done|done| |done]. apply Hf, cstr_spec, Ht. Qed.

Lemma redraw_ok inp z ex s : shown inp z s -> lenZ ex = 256 ->
  exists t r l, redraw_prompt (prompt ++ 0 :: pr) ex s = Ret (t ++ 0 :: r, put l s) /\ nul_free t /\ lenZ (t ++ 0 :: r) = 256.
Proof.
  intros Hs Hex. unfold redraw_prompt. rewrite (print_std [13; 0] [] [13]) by (done || cbn; lia). cbn [mbind outcome_bind].
  destruct (sw_env _ _ _ _ _ Hs) as [kvs He]. change (environ (put [13] s)) with (environ s).
  destruct (prompt_process_spec (environ s) kvs prompt pr ex 256 He) as (t & r & -> & Hl & Ht & _); [done|done|done|].
  cbn [need mbind outcome_bind]. by exists t, r, [13].
Qed.

(** What a key may do. *)
Definition handles (o : outcome (bytes * shell_state)) (inp : bytes) (z : zipper) : Prop :=
  exists ex s, o = Ret (ex, s) /\ lenZ ex = 256 /\ shown inp z s.

Lemma keeps ex o inp z : lenZ ex = 256 -> (exists s, o = Ret s /\ shown inp z s) -> handles (keep ex o) inp z.
Proof. intros He (s & -> & Hs). by exists ex, s. Qed.

(** A line of the history takes the place of the one that is there. *)
Lemma load_ok inp z s t : shown inp z s -> nul_free t -> lenZ t <= limit size ->
  exists s', load_line (t ++ [0]) s = Ret s' /\ shown inp (Zip t [] (index z)) s'.
Proof.
  intros Hs Ht Hl. pose proof (sw_room _ _ _ _ _ Hs) as Hroom. unfold load_line. rewrite strcpy_spec by (done || unfold limit in *; lia). cbn [need mbind outcome_bind].
  rewrite strlen_spec by done. cbn [need mbind outcome_bind]. eexists. split; [done|].
  pose proof (shows_line size f inp z s t [] (drop (length t + 1) (current_line s)) Hs) as H1. rewrite app_nil_r in H1. apply H1; [|done|done].
  cbn [app]. rewrite lenZ_app. unfold limit, lenZ in *. cbn [length]. rewrite length_drop. lia.
Qed.

(** [printf("%s\033[K", current_line)] *)
Lemma print_line_ok inp z s : shown inp z s -> exists l, print (str "%s" ++ 27 :: name "[K") [ArgStr (current_line s)] s = Ret (put l s).
Proof.
  intros Hs. destruct (sw_line _ _ _ _ _ Hs) as [rest E]. pose proof (sw_fits _ _ _ _ _ Hs) as Hl. rewrite E, app_assoc. unfold limit in Hl.
  exists ((before z ++ after z) ++ 27 :: str "[K"). apply print_text; [cbn; lia|..|apply (sw_text _ _ _ _ _ Hs)|].
  - intros x Ex. cbn -[cstr]. rewrite Ex. done.
  - rewrite lenZ_app. change (lenZ (27 :: str "[K")) with 3. lia.
Qed.

Lemma print_str_ok t r s : nul_free t -> lenZ t < 256 -> exists l, print_str (t ++ 0 :: r) s = Ret (put l s).
Proof. intros Ht Hl. exists t. apply print_text; [cbn; lia| |done|done]. intros x Ex. cbn -[cstr]. rewrite Ex. cbn. by rewrite app_nil_r. Qed.

(** The entry at a place of the history that is there. *)
Lemma entry_ok inp z s i : shown inp z s -> 0 <= i < history_count s ->
  exists h, getZ (history s) i = Some h /\
    match h with
    | Some h => exists t, h = t ++ [0] /\ entry (history f) i = Some t /\ nul_free t /\ lenZ t <= limit size
    | None => entry (history f) i = None
    end.
Proof.
  intros Hs Hi. destruct (sw_history _ _ _ _ _ Hs) as [Hc Hh]. destruct (frame_history _ _ _ _ _ Hs) as [<- _].
  destruct (getZ_is_Some (history s) i) as [h E]; [lia|]. exists h. split; [done|]. unfold entry. rewrite E. cbn [mbind option_bind].
  destruct h as [h|]; [|done]. destruct (Hh i h E) as (t & -> & Ht & Hl). exists t. cbn [mbind option_bind]. by rewrite cstr_spec.
Qed.

Lemma up_ok ex inp z s : lenZ ex = 256 -> shown inp z s -> handles (up_key (prompt ++ 0 :: pr) ex s) inp (pressed z Up).
Proof.
  intros Hex Hs. destruct z as [l r i]. destruct (sw_index _ _ _ _ _ Hs) as [Hi1 Hi2]. cbn [index] in *. unfold up_key, pressed, press. rewrite Hi1.
  destruct (Z.ltb_spec 0 i) as [H1|]; [|by exists ex, s]. pose proof (shows_index _ _ _ _ _ (i - 1) Hs ltac:(lia)) as Hs1. cbn [before after] in Hs1.
  set (s1 := set_history _ _ _ s) in *. destruct (entry_ok inp _ s1 (i - 1) Hs1) as (h & E & Hh); [cbn; lia|].
  change (history_index s1) with (i - 1). rewrite E. cbn [need mbind outcome_bind]. destruct h as [h|]; [|by rewrite Hh; exists ex, s1].
  destruct Hh as (t & -> & -> & Ht & Hl). destruct (load_ok inp _ s1 t Hs1 Ht Hl) as (s2 & -> & Hs2). cbn [mbind outcome_bind index] in *.
  destruct (redraw_ok inp _ ex s2 Hs2 Hex) as (p & q & l1 & -> & Hp & Hpl). cbn [mbind outcome_bind].
  destruct (print_str_ok p q (put l1 s2) Hp (short_text _ _ _ Hpl)) as [l2 ->]. cbn [mbind outcome_bind].
  destruct (print_line_ok inp _ (put l2 (put l1 s2)) (shows_put _ _ _ _ _ _ (shows_put _ _ _ _ _ _ Hs2))) as [l3 ->]. cbn [mbind outcome_bind].
  eexists _, _. split; [done|]. split; [done|]. by do 3 apply shows_put.
Qed.

Lemma down_ok ex inp z s : lenZ ex = 256 -> shown inp z s -> handles (down_key (prompt ++ 0 :: pr) ex s) inp (pressed z Down).
Proof.
  intros Hex Hs. assert (exists s', load_next s = Ret s' /\ shown inp (pressed z Down) s') as (s' & E & Hs').
  { destruct z as [l r i]. destruct (sw_index _ _ _ _ _ Hs) as [Hi1 Hi2]. cbn [index] in *. unfold load_next, pressed, press.
    rewrite Hi1, <- (proj2 (frame_history _ _ _ _ _ Hs)). destruct (Z.ltb_spec i (history_count s - 1)) as [H1|].
    - pose proof (shows_index _ _ _ _ _ (i + 1) Hs ltac:(lia)) as Hs1. cbn [before after] in Hs1. cbv zeta.
      set (s1 := set_history _ _ _ s) in *. destruct (entry_ok inp _ s1 (i + 1) Hs1) as (h & E & Hh); [cbn; lia|].
      change (history_index s1) with (i + 1). rewrite E. cbn [need mbind outcome_bind]. destruct h as [h|]; [|by rewrite Hh; exists s1].
      destruct Hh as (t & -> & -> & Ht & Hl). by destruct (load_ok inp _ s1 t Hs1 Ht Hl) as (s2 & -> & Hs2); exists s2.
    - pose proof (sw_room _ _ _ _ _ Hs) as Hroom. destruct (current_line s) as [|x line] eqn:El; [done|]. cbn [setZ]. eexists. split; [done|].
      apply (shows_line size f inp _ s [] [] line Hs); [done|by apply list.Forall_nil|unfold limit, lenZ; cbn [app length]; lia]. }
  unfold down_key. rewrite E. cbn [mbind outcome_bind]. destruct (redraw_ok inp _ ex s' Hs' Hex) as (p & q & l1 & -> & Hp & Hpl). cbn [mbind outcome_bind].
  destruct (print_line_ok inp _ (put l1 s') (shows_put _ _ _ _ _ _ Hs')) as [l2 ->]. cbn [mbind outcome_bind].
  eexists _, _. split; [done|]. split; [done|]. by do 2 apply shows_put.
Qed.

(** The cursor moves; the text stays. *)
Lemma move_ok inp z s l r : shown inp z s -> l ++ r = before z ++ after z ->
  shown inp (Zip l r (index z)) (set_line (current_line s) (lenZ l) (line_length s) s).
Proof.
  intros [[rest El] ? ? Hlen ? ? ? ? ? ? ?] E. rewrite <- E in *. constructor; try done. exists rest. cbn. by rewrite El, !app_assoc, E.
Qed.

Lemma right_ok inp z s : shown inp z s -> exists s', right_key s = Ret s' /\ shown inp (pressed z Right_) s'.
Proof.
  intros Hs. unfold right_key, pressed, press. destruct z as [l r i]. rewrite (sw_cursor _ _ _ _ _ Hs), (sw_length _ _ _ _ _ Hs), lenZ_app.
  cbn [before after]. destruct r as [|c r]; [rewrite (proj2 (Z.ltb_ge _ _)) by (change (lenZ []) with 0; lia); by exists s|].
  rewrite (proj2 (Z.ltb_lt _ _)) by (unfold lenZ; cbn [length]; lia). rewrite (print_std _ [] (27 :: str "[C")) by (done || cbn; lia). eexists. split; [done|].
  apply shows_put. replace (lenZ l + lenZ (c :: r)) with (line_length s) by (rewrite (sw_length _ _ _ _ _ Hs); apply lenZ_app).
  replace (lenZ l + 1) with (lenZ (l ++ [c])) by (rewrite lenZ_app; done). apply (move_ok inp (Zip l (c :: r) i)); [done|]. cbn. by rewrite <- app_assoc.
Qed.

Lemma left_ok inp z s : shown inp z s -> exists s', left_key s = Ret s' /\ shown inp (pressed z Left_) s'.
Proof.
  intros Hs. unfold left_key, pressed, press. destruct z as [l r i]. rewrite (sw_cursor _ _ _ _ _ Hs). cbn [before].
  destruct l as [|c l _] using rev_ind; [by exists s|]. rewrite reverse_snoc, reverse_involutive, lenZ_app. change (lenZ [c]) with 1.
  pose proof (lenZ_nonneg l). rewrite (proj2 (Z.ltb_lt 0 _)) by lia. rewrite (print_std _ [] (27 :: str "[D")) by (done || cbn; lia). eexists. split; [done|].
  apply shows_put. replace (lenZ l + 1 - 1) with (lenZ l) by lia. apply (move_ok inp (Zip (l ++ [c]) r i)); [done|]. cbn. by rewrite <- app_assoc.
Qed.

Lemma home_ok ex inp z s : lenZ ex = 256 -> shown inp z s -> handles (home_key (prompt ++ 0 :: pr) ex s) inp (pressed z Home).
Proof.
  intros Hex Hs. destruct z as [l r i]. unfold home_key, pressed, press. pose proof (move_ok inp _ s [] (l ++ r) Hs eq_refl) as Hs1.
  change (lenZ (@nil Z)) with 0 in Hs1. cbv zeta. destruct (redraw_ok inp _ ex _ Hs1 Hex) as (p & q & l1 & -> & Hp & Hpl). cbn [mbind outcome_bind].
  match goal with |- context [print_str _ ?s2] => destruct (print_str_ok p q s2 Hp (short_text _ _ _ Hpl)) as [l2 ->] end. cbn [mbind outcome_bind].
  eexists _, _. split; [done|]. split; [done|]. by do 2 apply shows_put.
Qed.

(** ** The keys one after the other *)
Lemma read_ok c inp z s : shown (c :: inp) z s -> exists s', read_key s = (Some c, s') /\ shown inp z s'.
Proof.
  intros [? ? ? ? ? ? ? ? ? ? Hin]. unfold read_key, read1. rewrite Hin. eexists. split; [done|]. by constructor.
Qed.

Lemma key_handled k ex inp z s : lenZ ex = 256 -> shown (enc k ++ inp) z s ->
  exists s', read_key s = (Some 27, s') /\ handles (other_key junk steps 27 (prompt ++ 0 :: pr) ex size s') inp (pressed z k).
Proof.
  intros Hex Hs. assert (exists b, enc k = [27; 91; b]) as (b & Ek) by (destruct k; by eexists). rewrite Ek in Hs. cbn [app] in Hs.
  destruct (read_ok _ _ _ _ Hs) as (s1 & E & Hs1). exists s1. split; [done|]. clear Hs E s. unfold other_key, escape_key. cbn [Z.eqb orb].
  destruct (read_ok _ _ _ _ Hs1) as (s2 & -> & Hs2). destruct (read_ok _ _ _ _ Hs2) as (s3 & -> & Hs3). clear Hs1 Hs2 s2.
  destruct k; simplify_eq/=.
  - by apply up_ok.
  - by apply down_ok.
  - by apply keeps, right_ok.
  - by apply keeps, left_ok.
  - by apply home_ok.
Qed.

(** The loop after the keys [ks], when they are followed by something. *)
Lemma get_line_keys ks : forall fuel ex buffer inp z s, lenZ ex = 256 -> shown (concat (enc <$> ks) ++ inp) z s ->
  if (fuel <=? length ks)%nat then get_line_loop junk steps fuel (prompt ++ 0 :: pr) ex buffer size s = More
  else exists ex' s', get_line_loop junk steps fuel (prompt ++ 0 :: pr) ex buffer size s =
      get_line_loop junk steps (fuel - length ks) (prompt ++ 0 :: pr) ex' buffer size s' /\ lenZ ex' = 256 /\ shown inp (foldl pressed z ks) s'.
Proof.
  induction ks as [|k ks IH]; intros fuel ex buffer inp z s Hex Hs; destruct fuel as [|fuel]; try done.
  - cbn [length Nat.leb]. exists ex, s. by rewrite Nat.sub_0_r.
  - cbn [fmap list_fmap concat] in Hs. rewrite <- app_assoc in Hs. cbn [get_line_loop length Nat.leb Nat.sub].
    destruct (key_handled k ex _ z s Hex Hs) as (s1 & -> & ex1 & s2 & E & Hex1 & Hs2). change ((27 =? 10) || (27 =? 13)) with false. cbv iota.
    rewrite E. cbn [mbind outcome_bind]. by apply IH.
Qed.

Lemma get_line_return fuel ex buffer inp z s : lenZ buffer = size -> shown (10 :: inp) z s ->
  exists s', get_line_loop junk steps (S fuel) (prompt ++ 0 :: pr) ex buffer size s =
      Ret (lenZ (before z ++ after z), (before z ++ after z) ++ 0 :: drop (length (before z ++ after z) + 1) buffer, s') /\ shown inp z s'.
Proof.
  intros Hb Hs. cbn [get_line_loop]. destruct (read_ok _ _ _ _ Hs) as (s1 & -> & Hs1). change ((10 =? 10) || (10 =? 13)) with true. cbv iota.
  rewrite (print_std [10; 0] [] [10]) by (done || cbn; lia). cbn [mbind outcome_bind]. apply (shows_put _ _ _ _ [10]) in Hs1. revert Hs1.
  generalize (put [10] s1). clear s s1 Hs. intros s Hs. destruct (sw_line _ _ _ _ _ Hs) as [rest El]. rewrite El, app_assoc.
  pose proof (sw_text _ _ _ _ _ Hs) as Ht. pose proof (sw_fits _ _ _ _ _ Hs) as Hl. unfold limit in Hl. rewrite strcpy_spec by (done || lia).
  cbn [need mbind outcome_bind]. rewrite strlen_spec by done. cbn [need mbind outcome_bind]. exists s. split; [done|]. exact Hs.
Qed.

(** A character that fits the line: it is put in, and the number of columns behind it is never printed. *)
Lemma get_line_char fuel ex buffer inp z s c : 32 <= c < 127 -> lenZ (before z ++ after z) < size - 2 -> shown (c :: inp) z s ->
  get_line_loop junk steps fuel (prompt ++ 0 :: pr) ex buffer size s = More.
Proof.
  intros Hc Hlt Hs. destruct fuel as [|fuel]; [done|]. cbn [get_line_loop]. destruct (read_ok _ _ _ _ Hs) as (s1 & -> & Hs1). clear Hs s.
  rewrite (proj2 (Z.eqb_neq c 10)), (proj2 (Z.eqb_neq c 13)) by lia. cbn [orb]. unfold other_key.
  rewrite (proj2 (Z.eqb_neq c 9)), (proj2 (Z.eqb_neq c 127)), (proj2 (Z.eqb_neq c 8)), (proj2 (Z.eqb_neq c 27)) by lia.
  rewrite (proj2 (Z.leb_le 32 c)), (proj2 (Z.ltb_lt c 127)) by lia. cbn [orb andb]. unfold insert_key.
  destruct z as [l r i]. destruct Hs1 as [[rest El] Hroom Hcur Hlen Htext Hfits _ _ _ _ _]. cbn [before after] in *. unfold limit in Hfits.
  rewrite Hlen, (proj2 (Z.ltb_lt _ (size - 2))) by done. rewrite El, !lenZ_app in Hroom. rewrite lenZ_app in Hlt, Hfits.
  pose proof (lenZ_nonneg l). pose proof (lenZ_nonneg r). destruct rest as [|x rest]; [unfold lenZ in *; cbn [length] in *; lia|].
  rewrite Hcur, El. destruct (insert_buffer l r c x rest) as (b1 & b2 & -> & E2 & E3). cbn [need mbind outcome_bind].
  rewrite E2. cbn [need mbind outcome_bind]. rewrite E3. cbn [need mbind outcome_bind].
  replace (Z.to_nat (lenZ l + 1 - 1)) with (length l) by (unfold lenZ; lia).
  assert (drop (length l) ((l ++ [c]) ++ r ++ 0 :: rest) = (c :: r) ++ 0 :: rest) as -> by (rewrite <- app_assoc; by rewrite drop_app_length).
  apply Forall_app in Htext as [Hl Hr]. rewrite (print_text _ (c :: r) rest _ (27 :: str "[K" ++ c :: r)).
  - cbn [mbind outcome_bind]. change (27 :: name "[%dD") with (27 :: 91 :: 37 :: 100 :: [68; 0]).
    unfold library. by rewrite libc_print_number.
  - cbn. lia.
  - intros y Ey. cbn -[cstr]. rewrite Ey. cbn. by rewrite app_nil_r.
  - constructor; [lia|done].
  - unfold lenZ in *. cbn. lia.
Qed.
End Keys.

(** A state between two lines. *)
Definition editor_ok (size : Z) (s : shell_state) : Prop :=
  lenZ (current_line s) = 2048 /\ 0 <= history_index s <= history_count s /\ history_ok size s /\ exists kvs, env_ok (environ s) kvs.

(** The first empty line, before anything is read. *)
Lemma shows_empty size s line : 2 <= size -> editor_ok size s -> current_line s = line ->
  exists b, setZ line 0 0 = Some b /\ shows size (frame s) (input (io s)) (Zip [] [] (history_index s)) (set_line b 0 0 s).
Proof.
  intros Hsz (Hr & Hi & Hh & He) <-. destruct (current_line s) as [|x line] eqn:El; [done|]. exists (0 :: line). split; [done|].
  constructor; try done; [by exists line|by apply list.Forall_nil|cbn; unfold limit, lenZ; cbn; lia].
Qed.

Lemma shows_editor_ok size f inp z s : shows size f inp z s -> editor_ok size s.
Proof. intros [? ? ? ? ? ? [H1 H2] ? ? ? ?]. rewrite <- H1 in H2. by split. Qed.

Section Editor.
Context (stack : bytes) (n : nat) (Hstack : lenZ stack = 256) (Hn : (8 <= n)%nat).
Context (junk : Z -> bytes) (Hjunk : forall n, 0 <= n -> lenZ (junk n) = n) (steps : nat).
Implicit Types (ks : list key) (s : shell_state).

(** The line that the keys leave, with the place in the history. *)
Definition edited s ks : zipper := foldl (press (history s) (history_count s)) (Zip [] [] (history_index s)) ks.
Definition line_of (z : zipper) : bytes := before z ++ after z.

(** The editor up to the key behind [ks]. *)
Lemma line_editor_keys prompt pr size ks fuel buffer inp s :
  nul_free prompt -> 2 <= size <= 2048 -> editor_ok size s -> input (io s) = concat (enc <$> ks) ++ inp ->
  if (fuel <=? length ks)%nat then @line_editor_get_line (libc_printf stack n) junk steps fuel (prompt ++ 0 :: pr) buffer size s = More
  else exists ex' s', @line_editor_get_line (libc_printf stack n) junk steps fuel (prompt ++ 0 :: pr) buffer size s =
      @get_line_loop (libc_printf stack n) junk steps (fuel - length ks) (prompt ++ 0 :: pr) ex' buffer size s' /\ shows size (frame s) inp (edited s ks) s'.
Proof.
  intros Hp Hsz Hs Hin. unfold line_editor_get_line. rewrite (proj2 (Z.ltb_ge size 2)) by lia.
  destruct (shows_empty size s (current_line s)) as (b & -> & Hs1); [lia|done|done|]. cbn [need mbind outcome_bind].
  change (environ (set_line b 0 0 s)) with (environ s). pose proof Hs as (_ & _ & _ & kvs & He).
  destruct (prompt_process_spec (environ s) kvs prompt pr (junk 256) 256 He Hp) as (t & r & -> & Hl & Ht & _); [done|by apply Hjunk|].
  cbn [need mbind outcome_bind].
  destruct (print_str_ok stack n Hstack Hn t r (set_line b 0 0 s) Ht (short_text _ _ _ Hl)) as [l El].
  unfold library in El. rewrite El. cbn [mbind outcome_bind]. apply (shows_put _ _ _ _ l) in Hs1. rewrite Hin in Hs1.
  pose proof (get_line_keys stack n Hstack Hn junk steps prompt pr Hp size Hsz (frame s) ks fuel _ buffer inp _ _ Hl Hs1) as H.
  destruct (_ <=? _)%nat; [exact H|]. destruct H as (ex' & s' & E & _ & Hs'). by exists ex', s'.
Qed.

Lemma line_editor_spec prompt pr size ks fuel buffer inp s :
  nul_free prompt -> 2 <= size <= 2048 -> editor_ok size s -> (length ks < fuel)%nat -> lenZ buffer = size ->
  input (io s) = concat (enc <$> ks) ++ 10 :: inp -> let text := line_of (edited s ks) in
  exists s', @line_editor_get_line (libc_printf stack n) junk steps fuel (prompt ++ 0 :: pr) buffer size s =
      Ret (lenZ text, text ++ 0 :: drop (length text + 1) buffer, s') /\ shows size (frame s) inp (edited s ks) s'.
Proof.
  intros Hp Hsz Hs Hf Hb Hin text. pose proof (line_editor_keys prompt pr size ks fuel buffer (10 :: inp) s Hp Hsz Hs Hin) as H.
  rewrite (proj2 (Nat.leb_gt _ _)) in H by done. destruct H as (ex' & s' & -> & Hs').
  replace (fuel - length ks)%nat with (S (fuel - length ks - 1)) by lia. by eapply (get_line_return stack n Hstack Hn).
Qed.

(** C17: recalling a line.  Let the keys before the return key be the arrows and home.  Then the editor, over the
    [printf] of the library, returns exactly the line these keys describe, as a string with its length: up and down
    go through the history, behind whose end the line is empty, left, right and home move the cursor.  It stays
    inside all buffers and changes nothing but the line and the place in the history.  The lines of the history
    have at most 251 characters and fit the caller's buffer: longer ones do not fit the 256 bytes that [printf] has.
    Keys that change the line are not among those of the theorem: the editor never returns from them
    ([line_editor_hangs]). *)
Theorem line_editor_recalls prompt pr size ks fuel buffer inp s :
  nul_free prompt -> 2 <= size <= 2048 -> editor_ok size s -> (length ks < fuel)%nat -> lenZ buffer = size ->
  input (io s) = concat (enc <$> ks) ++ 10 :: inp -> let text := line_of (edited s ks) in
  exists s', @line_editor_get_line (libc_printf stack n) junk steps fuel (prompt ++ 0 :: pr) buffer size s =
      Ret (lenZ text, text ++ 0 :: drop (length text + 1) buffer, s') /\
    editor_ok size s' /\ history_index s' = index (edited s ks) /\ input (io s') = inp /\ frame s' = frame s.
Proof.
  intros Hp Hsz Hs Hf Hb Hin text. destruct (line_editor_spec prompt pr size ks fuel buffer inp s Hp Hsz Hs Hf Hb Hin) as (s' & E & Hs').
  exists s'. split; [exact E|]. split; [by eapply shows_editor_ok|]. split; [apply (sw_index _ _ _ _ _ Hs')|].
  split; [apply (sw_input _ _ _ _ _ Hs')|apply (sw_frame _ _ _ _ _ Hs')].
Qed.

(** C38: the editor hangs.  After any arrow keys and home, a printable character for which the line has room stops
    the editor for ever: for every number of turns of its loop and every number of steps of [printf] from eight on,
    it has not returned, because it moves the cursor by printing a number with [%d], and [vsprintf] of the library
    calls itself for that without end. *)
Theorem line_editor_hangs prompt pr size ks fuel buffer inp c s :
  nul_free prompt -> 2 <= size <= 2048 -> editor_ok size s -> 32 <= c < 127 -> lenZ (line_of (edited s ks)) < size - 2 ->
  input (io s) = concat (enc <$> ks) ++ c :: inp ->
  @line_editor_get_line (libc_printf stack n) junk steps fuel (prompt ++ 0 :: pr) buffer size s = More.
Proof.
  intros Hp Hsz Hs Hc Hl Hin. pose proof (line_editor_keys prompt pr size ks fuel buffer (c :: inp) s Hp Hsz Hs Hin) as H.
  destruct (_ <=? _)%nat; [exact H|]. destruct H as (ex' & s' & -> & Hs'). by eapply (get_line_char stack n Hstack Hn).
Qed.
End Editor.

(** A history of two lines, and the keys up, up, left and down. *)
Definition junk0 (n : Z) : bytes := replicate (Z.to_nat n) 7.
Definition two_lines : shell_state :=
  set_io (World [27; 91; 65; 27; 91; 65; 27; 91; 68; 27; 91; 66; 10; 10] [])
    (set_environ env0 (set_history ([Some [97; 0]; Some [98; 99; 0]] ++ replicate 998 None) 2 2 (start []))).

Lemma two_lines_ok : editor_ok 2048 two_lines.
Proof.
  split; [done|]. split; [cbn; lia|]. split; [|by exists [([65], [120])]; apply env0_ok]. split; [vm_compute; split; discriminate|].
  intros i h [Hi Hh]%getZ_Some. unfold two_lines in Hh. cbn [history set_io set_environ set_history] in Hh.
  destruct (Z.to_nat i) as [|[|k]]; cbn [app lookup list_lookup] in Hh; [| |by apply lookup_replicate in Hh as [? _]]; injection Hh as <-.
  - exists [97]. split; [done|]. split; [by repeat constructor|by cbn].
  - exists [98; 99]. split; [done|]. split; [by repeat constructor|by cbn].
Qed.

Lemma junk0_len n : 0 <= n -> lenZ (junk0 n) = n.
Proof. intros Hn. unfold junk0. rewrite lenZ_replicate. lia. Qed.

Lemma line_editor_recalls_witness :
  exists s', @line_editor_get_line (libc_printf (junk0 256) 8) junk0 5 9 ([92; 119] ++ 0 :: []) (junk0 2048) 2048 two_lines =
      Ret (2, [98; 99] ++ 0 :: drop 3 (junk0 2048), s') /\
    editor_ok 2048 s' /\ history_index s' = 1 /\ input (io s') = [10] /\ frame s' = frame two_lines.
Proof.
  apply (line_editor_recalls (junk0 256) 8 eq_refl ltac:(lia) junk0 junk0_len 5 [92; 119] [] 2048 [Up; Up; Left_; Down] 9 (junk0 2048) [10] two_lines);
    [by repeat constructor|lia|apply two_lines_ok|cbn; lia|done|done].
Defined.

Lemma line_editor_hangs_witness :
  @line_editor_get_line (libc_printf (junk0 256) 100) junk0 100 100 ([92; 119] ++ 0 :: []) (junk0 2048) 2048
    (set_io (World [27; 91; 65; 104; 105; 10] []) two_lines) = More.
Proof.
  refine (line_editor_hangs (junk0 256) 100 eq_refl _ junk0 junk0_len 100 [92; 119] [] 2048 [Up] 100 (junk0 2048) [105; 10] 104
    (set_io (World [27; 91; 65; 104; 105; 10] []) two_lines) _ _ _ _ _ _).
  - lia.
  - by repeat constructor.
  - lia.
  - exact two_lines_ok.
  - lia.
  - vm_compute. reflexivity.
  - reflexivity.
Defined.

(** ** The history *)
(** The history of the state holds the lines [L], oldest first. *)
Definition holds_lines (s : shell_state) (L : list bytes) : Prop :=
  lenZ (history s) = 1000 /\ history_count s = lenZ L /\ take (length L) (history s) = (fun t => Some (t ++ [0])) <$> L /\ Forall nul_free L.

(** The lines when one more is entered: nothing for an empty line or the last one again, else it comes behind the last
    1000, of which the oldest goes. *)
Definition remember (L : list bytes) (t : bytes) : list bytes :=
  if decide (t = [] \/ list.last L = Some t) then L else (if lenZ L <? 1000 then L else drop 1 L) ++ [t].

Lemma dup_spec brk s b t r : heap_at (sheap s) b -> nul_free t -> lenZ t < 2 ^ 32 ->
  exists h', dup brk (t ++ 0 :: r) s =
      Ret (if heap_current (sheap s) + 8 + (lenZ t + 1) <=? b + 4096 then Some (t ++ [0]) else None, set_heap h' s) /\ heap_at h' b.
Proof.
  intros Hh Ht Hl. pose proof (strdup_copies brk (sheap s) b t r Hh Ht Hl) as Hd. unfold dup.
  destruct (heap_current (sheap s) + 8 + (lenZ t + 1) <=? b + 4096).
  - destruct Hd as (h' & -> & Hh' & _). exists h'. split; [|done]. cbn [need mbind outcome_bind]. rewrite cstr_spec by done. cbn [need mbind outcome_bind].
    destruct Hh as (? & ? & ? & ?). by rewrite (proj2 (Z.eqb_neq _ 0)) by lia.
  - rewrite Hd. exists (sheap s). split; [|done]. cbn [need mbind outcome_bind]. by rewrite cstr_spec by done.
Qed.

(** The test whether the line is the last one again. *)
Lemma duplicate_spec s L t r : holds_lines s L -> nul_free t ->
  (if 0 <? history_count s then
     last ← need (getZ (history s) (history_count s - 1));
     match last with Some l => r ← need (strcmp (t ++ 0 :: r) l); Ret (r =? 0) | None => Ret false end
   else Ret false) = Ret (bool_decide (list.last L = Some t)).
Proof.
  intros (Hl & Hc & Ht & Hn) Hnt. rewrite Hc. destruct L as [|l L _] using rev_ind; [done|]. rewrite last_snoc, lenZ_app. change (lenZ [l]) with 1.
  pose proof (lenZ_nonneg L). rewrite (proj2 (Z.ltb_lt _ _)) by lia. replace (lenZ L + 1 - 1) with (Z.of_nat (length L)) by (unfold lenZ; lia).
  rewrite getZ_nat. assert (history s !! length L = Some (Some (l ++ [0]))) as ->.
  { rewrite <- (lookup_take_lt _ (length (L ++ [l]))) by (rewrite length_app; cbn; lia). rewrite Ht, list_lookup_fmap, list_lookup_middle by done. done. }
  cbn [need mbind outcome_bind]. apply Forall_app in Hn as [_ Hn]. apply list.Forall_cons in Hn as [Hn _].
  destruct (strcmp_spec t l r [] Hnt Hn) as (z & -> & Hz). cbn [need mbind outcome_bind]. f_equal. destruct (Z.eqb_spec z 0) as [E|E].
  - symmetry. apply bool_decide_eq_true. f_equal. symmetry. tauto.
  - symmetry. apply bool_decide_eq_false. intros [= ->]. tauto.
Qed.

(** the history.  With room in the heap, entering a line changes the history from the lines [L] to [remember L t]: an
    empty line and a repetition of the last one are not kept, and of more than 1000 lines the oldest is forgotten; after
    a line that was kept the arrows start behind it. *)
Theorem add_history_correct brk s b L t r :
  holds_lines s L -> lenZ L <= 1000 -> nul_free t -> heap_at (sheap s) b -> heap_current (sheap s) + 8 + (lenZ t + 1) <= b + 4096 ->
  exists s', line_editor_add_history brk (t ++ 0 :: r) s = Ret s' /\ holds_lines s' (remember L t) /\ heap_at (sheap s') b /\
    (remember L t <> L -> history_index s' = history_count s').
Proof.
  intros Hs HL Ht Hh Hroom. unfold line_editor_add_history, remember. destruct t as [|c t].
  { cbn. exists s. rewrite decide_True by tauto. done. }
  cbn [app]. change (getZ (c :: t ++ 0 :: r) 0) with (Some c). cbn [need mbind outcome_bind]. pose proof Ht as [Hc _]%list.Forall_cons.
  rewrite (proj2 (Z.eqb_neq c 0)) by done. change (c :: t ++ 0 :: r) with ((c :: t) ++ 0 :: r). rewrite (duplicate_spec s L (c :: t) r Hs Ht). cbn [mbind outcome_bind].
  destruct (decide (c :: t = [] \/ list.last L = Some (c :: t))) as [[?|Hd]|Hd]; [done|rewrite bool_decide_eq_true_2 by done; by exists s|].
  rewrite bool_decide_eq_false_2 by tauto. destruct Hs as (Hl & Hcn & Htk & Hn). unfold MAX_HISTORY. rewrite Hcn.
  set (L' := if lenZ L <? 1000 then L else drop 1 L).
  set (h := if 1000 <=? lenZ L then (drop 1 (history s) ++ drop (Z.to_nat 1000 - 1) (history s), lenZ L - 1) else (history s, lenZ L)).
  assert (lenZ h.1 = 1000 /\ h.2 = lenZ L' /\ lenZ L' < 1000 /\ take (length L') h.1 = (fun t => Some (t ++ [0])) <$> L' /\ Forall nul_free L') as (H1 & H2 & H3 & H4 & H5).
  { unfold h, L'. unfold lenZ in *. destruct (Z.leb_spec 1000 (Z.of_nat (length L))); destruct (Z.ltb_spec (Z.of_nat (length L)) 1000); try lia; cbn [fst snd]; [|done].
    rewrite length_app, !length_drop. repeat (split; [lia|]). split; [|by apply Forall_drop].
    rewrite take_app_le by (rewrite length_drop; lia). rewrite take_drop_commute. replace (1 + (length L - 1))%nat with (length L) by lia. by rewrite Htk, fmap_drop. }
  destruct h as [h n]. cbn [fst snd] in *. destruct (dup_spec brk s b (c :: t) r Hh Ht) as (h' & -> & Hh').
  { destruct Hh as (? & ? & ? & ?). change (2 ^ 32) with 4294967296. lia. }
  rewrite (proj2 (Z.leb_le _ _)) by lia. cbn [mbind outcome_bind]. rewrite setZ_Some by (pose proof (lenZ_nonneg L'); lia). cbn [need mbind outcome_bind].
  eexists. split; [done|]. split; [|done]. subst n. replace (Z.to_nat (lenZ L')) with (length L') by (unfold lenZ; lia). split; [cbn [history set_history]; by rewrite lenZ_insert|].
  split; [cbn [history_count set_history]; rewrite lenZ_app; done|]. split; [|by apply Forall_app; split; [done|by constructor]].
  cbn [history set_history]. rewrite length_app, Nat.add_1_r, fmap_app. cbn [fmap list_fmap].
  rewrite (take_S_r _ _ (Some ((c :: t) ++ [0]))) by (apply list_lookup_insert_eq; unfold lenZ in *; lia). by rewrite take_insert_ge, H4 by lia.
Qed.

Lemma two_lines_hold : holds_lines two_lines [[97]; [98; 99]].
Proof. split; [done|]. split; [done|]. split; [done|]. by repeat constructor. Qed.

Lemma add_history_correct_witness :
  exists s', line_editor_add_history 4096 ([120] ++ 0 :: []) (set_heap heap0 two_lines) = Ret s' /\ holds_lines s' (remember [[97]; [98; 99]] [120]) /\
    heap_at (sheap s') 4096 /\ (remember [[97]; [98; 99]] [120] <> [[97]; [98; 99]] -> history_index s' = history_count s').
Proof.
  apply (add_history_correct 4096 (set_heap heap0 two_lines) 4096 [[97]; [98; 99]] [120] []);
    [exact two_lines_hold|by cbn|by repeat constructor|unfold heap_at; cbn; lia|cbn; unfold lenZ; cbn; lia].
Defined.

(** ** The main loop *)
(** The outcome is known: more steps do not help. *)
Definition settled {A} (o : outcome A) : Prop := o <> More.

Lemma settled_need {A} (o : option A) : settled (need o).
Proof. by destruct o. Qed.

Lemma settled_bind {A B} (o : outcome A) (k : A -> outcome B) : settled o -> (forall a, settled (k a)) -> settled (o ≫= k).
Proof. destruct o; cbn; [auto|done|done]. Qed.

Lemma settled_dup brk t s : settled (dup brk t s).
Proof. apply settled_bind; [apply settled_need|]. intros [h p]. apply settled_bind; [apply settled_need|done]. Qed.

Lemma settled_tokens brk n : forall line saveptr given s, settled (tokens brk n line saveptr given s).
Proof.
  induction n as [|n IH]; intros line saveptr given s; cbn [tokens]; (apply settled_bind; [apply settled_need|]); intros [[line' sp] [t|]]; try done.
  apply settled_bind; [apply settled_dup|]. intros [d s']. apply settled_bind; [apply IH|]. by intros [? ?].
Qed.

Lemma settled_add_history brk t s : settled (line_editor_add_history brk t s).
Proof.
  apply settled_bind; [apply settled_need|]. intros c. destruct (c =? 0); [done|]. apply settled_bind.
  { destruct (0 <? history_count s); [|done]. apply settled_bind; [apply settled_need|]. intros [l|]; [|done].
    apply settled_bind; [apply settled_need|done]. }
  intros [|]; [done|]. destruct (if MAX_HISTORY <=? history_count s then _ else _) as [h n].
  apply settled_bind; [apply settled_dup|]. intros [d s']. apply settled_bind; [apply settled_need|done].
Qed.

Lemma bind_undef {A B} (o : outcome A) (k : A -> outcome B) : settled o -> (forall a, k a = Undef) -> o ≫= k = Undef.
Proof. destruct o; cbn; [auto|done|done]. Qed.

Lemma bind_ret_undef {A B} (o : outcome A) (k : A -> outcome B) : settled o -> (forall a, o = Ret a -> k a = Undef) -> o ≫= k = Undef.
Proof. destruct o; cbn; [auto|done|done]. Qed.

Lemma dup_debug brk t s d s' : dup brk t s = Ret (d, s') -> debug_mode s' = debug_mode s.
Proof. unfold dup. destruct (strdup _ _ _) as [[h p]|]; [|done]. cbn. destruct (cstr t); [|done]. cbn. by intros [= _ <-]. Qed.

Lemma add_history_debug brk t s s' : line_editor_add_history brk t s = Ret s' -> debug_mode s' = debug_mode s.
Proof.
  unfold line_editor_add_history. destruct (getZ t 0) as [c|]; [|done]. cbn [need mbind outcome_bind]. destruct (c =? 0); [by intros [= <-]|].
  match goal with |- (?o ≫= _) = _ -> _ => destruct o as [[|]| |] end; cbn [mbind outcome_bind]; [by intros [= <-]| |done|done].
  destruct (if MAX_HISTORY <=? history_count s then _ else _) as [h n]. destruct (dup brk t s) as [[d s1]| |] eqn:E; [|done|done].
  cbn [mbind outcome_bind]. destruct (setZ h n d); [|done]. cbn. intros [= <-]. by apply dup_debug in E.
Qed.

(** The title is written, or does not fit into its buffer. *)
Lemma update_title_ok junk steps s kvs : (forall n, 0 <= n -> lenZ (junk n) = n) -> (8 <= steps)%nat -> env_ok (environ s) kvs ->
  prompt_update_title junk steps s = Undef \/ exists w, prompt_update_title junk steps s = Ret (set_io w s) /\ input w = input (io s).
Proof.
  intros Hj Hst He. unfold prompt_update_title. pose proof (Hj 128 ltac:(lia)) as Hl.
  destruct (prompt_process_spec (environ s) kvs [92; 117; 64; 92; 104; 58; 92; 119; 92; 36; 32] [] (junk 128) 128 He) as (t & r & E & _ & Ht & _);
    [by repeat constructor|done|done|].
  change ([92; 117; 64; 92; 104; 58; 92; 119; 92; 36; 32] ++ [0]) with default_ps1 in E. rewrite E. cbn [need mbind outcome_bind].
  unfold on_io, term_set_title, write_seq, vsnprintf.
  rewrite (vsprintf_std 8 steps TERM_TITLE_SET [ArgStr (t ++ 0 :: r)] (27 :: str "]2;" ++ t ++ [7])) by
    first [done|vm_compute; lia|cbn -[cstr]; rewrite cstr_spec by done; done].
  cbn [mbind outcome_bind]. generalize (27 :: str "]2;" ++ t ++ [7]). intros l. destruct (splice (junk 128) 0 (l ++ [0])) as [b|]; [|by left].
  cbn [need mbind outcome_bind]. destruct (if (0 <? lenZ (junk 128)) && _ then _ else _) as [b'|]; [|by left]. cbn [need mbind outcome_bind].
  unfold write_str. destruct (strlen b') as [n|]; [|by left]. cbn [mbind option_bind]. unfold write. destruct (slice b' 0 n) as [x|]; [|by left].
  cbn [need mbind outcome_bind option_bind]. right. by eexists.
Qed.

(** no command is ever run.  Whatever line of the history is entered, if it is not empty, [shell_run] ends in undefined behaviour at
    the latest when it looks at the name of the command: the array of the words is a local variable of
    [parse_command_line], which has returned. *)
Theorem shell_run_undefined stack n brk junk steps fork_pid exec_ok fuel line ks inp prompt pr s :
  lenZ stack = 256 -> (8 <= n)%nat -> (forall n, 0 <= n -> lenZ (junk n) = n) -> (8 <= steps)%nat -> editor_ok 2048 s -> ps1 s = prompt ++ 0 :: pr -> nul_free prompt ->
  debug_mode s = 0 -> (length ks < fuel)%nat -> lenZ line = 2048 -> input (io s) = concat (enc <$> ks) ++ 10 :: inp ->
  line_of (edited s ks) <> [] ->
  @shell_run (libc_printf stack n) brk junk steps fork_pid exec_ok (S fuel) line s = Undef.
Proof.
  intros Hstack Hn Hj Hst Hs Hps Hp Hdb Hf Hl Hin Hne. pose proof Hs as (_ & _ & _ & kvs & He). cbn [shell_run].
  destruct (update_title_ok junk steps s kvs Hj Hst He) as [-> | (w & -> & Hw)]; [done|]. cbn [mbind outcome_bind].
  change (ps1 (set_io w s)) with (ps1 s). rewrite Hps. unfold MAX_LINE_LENGTH.
  destruct (line_editor_spec stack n Hstack Hn junk Hj steps prompt pr 2048 ks fuel line inp (set_io w s)) as (s1 & E & Hs1);
    [done|lia|exact Hs|done|done|by rewrite <- Hin|]. rewrite E. cbn [mbind outcome_bind].
  change (edited (set_io w s) ks) with (edited s ks) in *. set (t := line_of (edited s ks)) in *.
  assert (0 < lenZ t) by (destruct t; [done|unfold lenZ; cbn; lia]). rewrite (proj2 (Z.ltb_ge (lenZ t) 0)), (proj2 (Z.ltb_lt 0 _)) by lia.
  apply bind_ret_undef; [apply settled_add_history|]. intros s2 E2. apply add_history_debug in E2. rewrite (proj2 (Z.eqb_neq (lenZ t) 0)) by lia.
  assert (debug_mode s1 = 0) as Hd1 by (change (debug_mode (frame s1) = 0); by rewrite (sw_frame _ _ _ _ _ Hs1)).
  rewrite E2, Hd1. cbn [Z.eqb negb mbind outcome_bind]. apply bind_undef; [apply settled_dup|]. intros [copy s3].
  apply bind_undef; [destruct copy; apply settled_tokens|]. intros [stored s4]. by destruct (0 <? lenZ stored).
Qed.

Lemma shell_run_undefined_witness :
  @shell_run (libc_printf (junk0 256) 8) 4096 junk0 8 1 true (S 9) (junk0 2048) (set_prompts (name "$ ") (name "> ") (name "+ ") two_lines) = Undef.
Proof.
  apply (shell_run_undefined (junk0 256) 8 4096 junk0 8 1 true 9 (junk0 2048) [Up; Up; Left_; Down] [10] (str "$ ") []);
    [done|lia|exact junk0_len|lia|exact two_lines_ok|done|by apply nul_free_lit|done|cbn; lia|done|done|done].
Defined.
End LineProofs.
